(* ===== verification/_CoqProject ===== *)
-Q . S2P
Prelude.v
Buffer.v
Dname.v
DnameProofs.v
DnamePacket.v
DnameText.v
Dns.v
Packet.v
PacketProofs.v
Contents.v
Namedb.v
NamedbProofs.v
NamedbTable.v
Rbtree.v
RbtreeShape.v
RbtreeBalance.v
RbtreeInsert.v
RbtreeOrder.v
RbtreeWalk.v
RbtreeRepair.v
RbtreeSwap.v
RbtreeDelete.v
RbtreeNames.v
RbtreeSamples.v
Edns.v
EdnsProofs.v
Tsig.v
TsigProofs.v
Query.v
QueryProofs.v
QueryRecords.v
QueryRRset.v
QueryAnswer.v
QuerySamples.v
Acl.v
AclProofs.v
Respond.v
Axfr.v
AxfrProofs.v
AxfrStream.v
AxfrSamples.v
Answering.v
AnsweringProofs.v
Process.v
ProcessProofs.v
AnsweringCases.v
ProcessSamples.v
Rdata.v
RdataProofs.v
NamedbDelete.v
Diff.v
Transfer.v
DiffExisting.v
DiffFind.v
DiffStore.v
TransferSpec.v
DiffSets.v
DiffProofs.v
DiffDelete.v
TransferProofs.v
TransferDelete.v
TransferApply.v
TransferMessage.v
TransferSamples.v
TransferFileSamples.v
