(* ===== verification/Prelude.v ===== *)
(** * A verification of the NSD name server

    NSD answers DNS queries from a database of zones that it keeps in memory.
    This library models the code a server process runs for a message: the
    buffer and the names the message is read with, its header, EDNS and TSIG
    records, the name database, access control, the answer and how it is
    written, and outgoing zone transfers.  Everything is a translation of the
    C code under src/, one definition for each function or macro, with the
    name it has there; a part of a function that is a definition of its own (a
    loop, the branch of a switch) says so in a comment.

    ** Conventions

    [res] is the outcome of C code: a value, a failed assertion, or no fuel.
    An access outside the memory a function is given, a null pointer that is
    followed and a field of a union read as what it is not are failed
    assertions too, so that a theorem that shows an outcome shows that none of
    these happens.  [ST] is a state monad over it, [wp m Q s] the weakest
    precondition of [m]: it ends without an assertion and [Q] holds of the
    result.  A [uintN_t] is a [Z], [u8], [u16], [u32] and [u64] are the
    conversions to it, and they are written wherever the C code stores in such a
    type.  A pointer to a domain, a record set or a zone is a key of a store
    ([namedb]), so that sharing is as in the code; regions never run out of
    memory.

    Loops that are not structural run [iter] with a fuel that a theorem or
    its argument shows to be enough: a name in a packet is read in at most as
    many steps as there are positions and labels ([dname_wire_step] marks
    every position it has been at), a name has at most 127 labels, so that a
    walk to the root ends within [parent_fuel] (256) steps, and a chain of
    CNAME and DNAME records adds a record set to the answer for each link, of
    which there are at most [MAXRRSPP] ([chain_fuel]).

    The build modelled has INET6, MINIMAL_RESPONSES, RATELIMIT and
    USE_RADIX_TREE, and not NSEC3 nor BIND8_STATS; IPV6_MTU is defined.
    Logging and statistics are left out.

    ** The parts, in the order of the files

    - Prelude.v (this file): outcomes, the state monad and its rules,
      machine integers, lists of bytes.
    - Buffer.v: src/buffer.h, src/buffer.c, src/util.h.  The record [buffer] is
      [buffer_type]; the rules [wp_buffer_*] are what the parsers are proved
      with, [buffer_printf_correct] and [buffer_write_read] the contract.
    - Dname.v, with DnameProofs.v, DnamePacket.v and DnameText.v: src/dname.h,
      src/dname.c.  A name is specified by its list of labels ([name]),
      [of_labels] is the [dname_type] of it; the functions are proved to
      compute the order, the suffix relation, substitution and printing on it.
      [dname_make_wire_from_packet_correct] gives the meaning of a name in a
      packet.
    - Dns.v: src/dns.h, src/dns.c, the descriptor table and the names of
      types and classes.
    - Packet.v with PacketProofs.v: the header macros of src/packet.h and the
      parsers of src/packet.c.  Contents.v says what a buffer holds after a
      write, for the encoders.
    - Namedb.v, with NamedbProofs.v and NamedbTable.v: src/namedb.h,
      src/namedb.c.  The tree of names is the class [NameTree], its promises
      are [NameTreeLaws], and a reference tree keeps them.  The invariant of
      the domain table is proved for its operations, against the
      specification of the table as the names in it.
    - Edns.v with EdnsProofs.v: src/edns.h, src/edns.c.
    - Tsig.v with TsigProofs.v: src/tsig.h, src/tsig.c.  The HMAC functions
      are the class [Hmac].
    - Query.v, with QueryProofs.v, QueryRecords.v, QueryRRset.v, QueryAnswer.v
      and QuerySamples.v: the query (src/query.h), name compression, records
      and record sets (src/packet.c), the collected answer (src/answer.c).  A
      record is written so that it can be read back, or the packet and the
      compression table are as before; the header counts what is there.
    - Acl.v with AclProofs.v: the access control lists of src/options.c.
    - Respond.v: the frame of a response in src/query.c: reset, errors, the
      error rate, EDNS, TSIG, CHAOS answers, the records added at the end.
    - Axfr.v, with AxfrProofs.v, AxfrStream.v and AxfrSamples.v: src/axfr.c.
      A transfer is a sequence of calls of [query_axfr]; the theorems say
      which records each message carries, and that the transfer ends, or
      when it does not.
    - Answering.v, with AnsweringProofs.v and AnsweringCases.v: what
      src/query.c collects for a query.  The functions that call each other
      along a chain of names are written for any [lookup]; [answer_lookup_zone]
      closes the knot with fuel, and the chain is proved to end.
    - Process.v, with ProcessProofs.v and ProcessSamples.v: [query_process] and
      [answer_notify], the composition of all of the above.

    ** What the theorems show

    Parsers: what exactly they accept, that they end and stay inside the
    packet (DnamePacket, PacketProofs, EdnsProofs).  Round trips: text and
    names, types and classes, bytes and integers, signing and checking.
    Invariants: the domain table, the descriptor table, the collected answer.
    Refinement: the order of names, signatures, the sections of an answer.
    Termination and liveness: chains of names, transfers.  Errors: malformed
    messages, and the inputs on which the code does not do what it means to;
    the manifest lists these as findings.

    ** Not modelled

    The processes that load zones and talk to masters (src/xfrd*.c,
    src/difffile.c, src/dbaccess.c, src/dbcreate.c, src/zonec.c and the zone
    parser), the database on disk (src/udb*.c), the start of the server, its
    processes and sockets (src/nsd.c, src/server.c, src/ipc.c, src/netio.c,
    src/mini_event.c), remote control (src/remote.c, src/nsd-control.c), the
    configuration parser (the rest of src/options.c), NSEC3 (src/nsec3.c,
    src/iterated_hash.c), the trees behind [NameTree] (src/radtree.c,
    src/rbtree.c), response rate limiting (src/rrl.c), printing of record data
    (src/rdata.c), the allocator (src/region-allocator.c) and the libraries
    for missing functions (src/compat). *)

From stdpp Require Export prelude list gmap.

#[global] Open Scope Z_scope.

(** * Outcomes

    The C code either runs to the end of a function, or stops in a failed
    [assert] (which in this model also stands for an access outside the
    memory the function was given), and a loop of the model may run out of
    fuel.  A theorem about a function shows the first outcome; so it excludes
    failed assertions, wild accesses and non-termination at once. *)
Inductive res (A : Type) : Type :=
  | Ok (a : A)
  | Assert_failed
  | No_fuel.
Arguments Ok {A} _.
Arguments Assert_failed {A}.
Arguments No_fuel {A}.

(** State passing with outcomes: the state is the object a C function
    modifies through its pointer arguments. *)
Definition ST (S A : Type) : Type := S -> res (A * S).

#[global] Instance ST_ret {S} : MRet (ST S) := fun _ a s => Ok (a, s).
#[global] Instance ST_bind {S} : MBind (ST S) := fun _ _ f m s =>
  match m s with
  | Ok (a, s') => f a s'
  | Assert_failed => Assert_failed
  | No_fuel => No_fuel
  end.

Definition st_get {S} : ST S S := fun s => Ok (s, s).
Definition st_put {S} (s' : S) : ST S unit := fun _ => Ok (tt, s').
Definition st_modify {S} (f : S -> S) : ST S unit := fun s => Ok (tt, f s).
Definition st_fail {S A} : ST S A := fun _ => Assert_failed.

(** [assert(c)] of the code. *)
Definition st_assert {S} (c : bool) : ST S unit :=
  fun s => if c then Ok (tt, s) else Assert_failed.

(** A loop of the code: the body returns [inl] to go round again with new
    loop variables and [inr] to leave with a value. *)
Fixpoint st_iter {S A B} (fuel : nat) (body : A -> ST S (A + B)) (a : A) : ST S B :=
  match fuel with
  | O => fun _ => No_fuel
  | S n => r ← body a;
           match r with
           | inl a' => st_iter n body a'
           | inr b => mret b
           end
  end.

(** The same loop for code that changes no state. *)
Fixpoint iter {A B} (fuel : nat) (body : A -> res (A + B)) (a : A) : res B :=
  match fuel with
  | O => No_fuel
  | S n => match body a with
           | Ok (inl a') => iter n body a'
           | Ok (inr b) => Ok b
           | Assert_failed => Assert_failed
           | No_fuel => No_fuel
           end
  end.

(** * Weakest preconditions *)
Definition wp {S A} (m : ST S A) (Q : A -> S -> Prop) (s : S) : Prop :=
  match m s with
  | Ok (a, s') => Q a s'
  | Assert_failed | No_fuel => False
  end.

Section wp_rules.
Context {S : Type}.

Lemma wp_ret {A} (a : A) (Q : A -> S -> Prop) s : Q a s -> wp (mret a) Q s.
Proof. done. Qed.

Lemma wp_bind {A B} (m : ST S A) (f : A -> ST S B) Q s :
  wp m (fun a s' => wp (f a) Q s') s -> wp (m ≫= f) Q s.
Proof. unfold wp, mbind, ST_bind. by destruct (m s) as [[]| |]. Qed.

Lemma wp_unbind {A B} (m : ST S A) (f : A -> ST S B) Q s :
  wp (m ≫= f) Q s -> wp m (fun a s' => wp (f a) Q s') s.
Proof. unfold wp, mbind, ST_bind. by destruct (m s) as [[]| |]. Qed.

Lemma wp_assoc {A B C} (m : ST S A) (f : A -> ST S B) (g : B -> ST S C) Q s :
  wp ((m ≫= f) ≫= g) Q s -> wp (m ≫= fun a => f a ≫= g) Q s.
Proof. unfold wp, mbind, ST_bind. by destruct (m s) as [[]| |]. Qed.

Lemma wp_mono {A} (m : ST S A) (Q Q' : A -> S -> Prop) s :
  wp m Q s -> (forall a s', Q a s' -> Q' a s') -> wp m Q' s.
Proof. unfold wp. destruct (m s) as [[]| |]; eauto. Qed.

Lemma wp_get (Q : S -> S -> Prop) s : Q s s -> wp st_get Q s.
Proof. done. Qed.

Lemma wp_put s' (Q : unit -> S -> Prop) s : Q tt s' -> wp (st_put s') Q s.
Proof. done. Qed.

Lemma wp_modify f (Q : unit -> S -> Prop) s : Q tt (f s) -> wp (st_modify f) Q s.
Proof. done. Qed.

Lemma wp_assert c (Q : unit -> S -> Prop) s :
  c = true -> Q tt s -> wp (st_assert c) Q s.
Proof. by intros ->. Qed.

Lemma wp_if {A} (c : bool) (m1 m2 : ST S A) Q s :
  (c = true -> wp m1 Q s) -> (c = false -> wp m2 Q s) ->
  wp (if c then m1 else m2) Q s.
Proof. destruct c; auto. Qed.

(** A loop whose body keeps an invariant and decreases a measure ends. *)
Lemma wp_iter {A B} (I : A -> S -> Prop) (m : A -> S -> nat)
    (body : A -> ST S (A + B)) (Q : B -> S -> Prop) fuel a s :
  (forall a s, I a s ->
     wp (body a) (fun r s' => match r with
                              | inl a' => I a' s' /\ (m a' s' < m a s)%nat
                              | inr b => Q b s'
                              end) s) ->
  I a s -> (m a s < fuel)%nat -> wp (st_iter fuel body a) Q s.
Proof.
  intros Hbody. revert a s.
  induction fuel as [|fuel IH]; intros a s HI Hm; [lia|]. simpl.
  apply wp_bind. eapply wp_mono; [by apply Hbody|].
  intros [a'|b] s'; [|done]. intros [HI' Hlt]. apply IH; [done|lia].
Qed.

(** The same, the measure being a part of the invariant. *)
Lemma wp_iter_down {A B} (I : nat -> A -> S -> Prop) (body : A -> ST S (A + B)) (Q : B -> S -> Prop) :
  (forall k a s, I k a s -> wp (body a) (fun r s' =>
     match r with inl a' => exists k', (k' < k)%nat /\ I k' a' s' | inr b => Q b s' end) s) ->
  forall fuel k a s, I k a s -> (k < fuel)%nat -> wp (st_iter fuel body a) Q s.
Proof.
  intros Hbody. induction fuel as [|fuel IH]; intros k a s HI Hk; [lia|]. cbn [st_iter].
  apply wp_bind. eapply wp_mono; [by apply (Hbody k)|].
  intros [a'|b] s'; [|done]. intros (k' & Hlt & HI'). apply (IH k'); [done|lia].
Qed.

(** More fuel changes no result. *)
Lemma st_iter_more {A B} (body : A -> ST S (A + B)) n m a s r :
  (n <= m)%nat -> st_iter n body a s = Ok r -> st_iter m body a s = Ok r.
Proof.
  revert m a s. induction n as [|n IH]; intros m a s Hm; [done|]. destruct m as [|m]; [lia|].
  cbn. unfold mbind, ST_bind. destruct (body a s) as [[[a'|b] s']| |]; try done. apply IH. lia.
Qed.

Lemma wp_elim {A} (m : ST S A) Q s :
  wp m Q s -> exists a s', m s = Ok (a, s') /\ Q a s'.
Proof. unfold wp. destruct (m s) as [[a s']| |]; naive_solver. Qed.
End wp_rules.

Lemma iter_ok {A B} (I : A -> Prop) (m : A -> nat) (body : A -> res (A + B))
    (Q : B -> Prop) fuel a :
  (forall a, I a -> match body a with
                    | Ok (inl a') => I a' /\ (m a' < m a)%nat
                    | Ok (inr b) => Q b
                    | _ => False
                    end) ->
  I a -> (m a < fuel)%nat -> exists b, iter fuel body a = Ok b /\ Q b.
Proof.
  intros Hbody. revert a. induction fuel as [|fuel IH]; intros a HI Hm; [lia|].
  simpl. specialize (Hbody a HI). destruct (body a) as [[a'|b]| |]; [|by eauto|done..].
  destruct Hbody. apply IH; [done|lia].
Qed.

Create HintDb wp discriminated.

(** One step of a weakest-precondition proof: split a bind, and apply the
    rule of the primitive at the head. *)
Ltac wp_step :=
  lazymatch goal with
  | |- wp (mbind _ _) _ _ => apply wp_bind
  | |- wp (mret _) _ _ => apply wp_ret
  | |- wp st_get _ _ => apply wp_get
  | |- wp (st_put _) _ _ => apply wp_put
  | |- wp (st_modify _) _ _ => apply wp_modify
  | |- wp (if _ then _ else _) _ _ => apply wp_if; intros ?
  end; cbn beta.

(** All the steps up to the next branch or call. *)
Ltac wp_run :=
  repeat lazymatch goal with
  | |- wp (if _ then _ else _) _ _ => fail
  | |- wp _ _ _ => wp_step
  end.

(** * Machine integers: a value of an unsigned type of width w is a [Z]
    reduced modulo [2^w]. *)
Definition u8 (x : Z) : Z := x mod 2 ^ 8.
Definition u16 (x : Z) : Z := x mod 2 ^ 16.
Definition u32 (x : Z) : Z := x mod 2 ^ 32.
Definition u64 (x : Z) : Z := x mod 2 ^ 64.

(** Conversion to a signed 32-bit integer (two's complement). *)
Definition i32 (x : Z) : Z := (x + 2 ^ 31) mod 2 ^ 32 - 2 ^ 31.

Definition byte (x : Z) : Prop := 0 <= x < 256.
#[global] Instance byte_dec x : Decision (byte x).
Proof. unfold byte. apply _. Defined.

(** [lia] with division and remainder by constants. *)
Ltac dlia := Z.to_euclidean_division_equations; lia.

(** Equality of terms up to linear arithmetic in their arguments. *)
Ltac eq_lia := repeat first [lia | reflexivity | progress f_equal].

Lemma u8_range x : byte (u8 x).
Proof. by apply Z.mod_pos_bound. Qed.
Lemma u16_range x : 0 <= u16 x < 65536.
Proof. by apply Z.mod_pos_bound. Qed.
Lemma u32_range x : 0 <= u32 x < 4294967296.
Proof. by apply Z.mod_pos_bound. Qed.
Lemma u64_range x : 0 <= u64 x < 18446744073709551616.
Proof. by apply Z.mod_pos_bound. Qed.
Lemma u8_small x : 0 <= x < 256 -> u8 x = x.
Proof. unfold u8. change (2 ^ 8) with 256. intros. apply Z.mod_small. lia. Qed.
Lemma u16_small x : 0 <= x < 65536 -> u16 x = x.
Proof. unfold u16. change (2 ^ 16) with 65536. intros. apply Z.mod_small. lia. Qed.
Lemma u32_small x : 0 <= x < 4294967296 -> u32 x = x.
Proof. unfold u32. change (2 ^ 32) with 4294967296. intros. apply Z.mod_small. lia. Qed.
Lemma u64_small x : 0 <= x < 18446744073709551616 -> u64 x = x.
Proof. unfold u64. change (2 ^ 64) with 18446744073709551616. intros. apply Z.mod_small. lia. Qed.

#[export] Hint Resolve u8_range u16_range u32_range u64_range : core.

(** The bytes of a big-endian pair: disjoint bit fields add up. *)
Lemma lor_shiftl_add a b n : 0 <= n -> 0 <= b < 2 ^ n ->
  Z.lor (Z.shiftl a n) b = a * 2 ^ n + b.
Proof.
  intros Hn Hb. rewrite <-Z.shiftl_mul_pow2 by lia.
  rewrite <-Z.lxor_lor, Z.add_nocarry_lxor; [done|..];
    (apply Z.bits_inj'; intros i Hi; rewrite Z.land_spec, Z.bits_0;
     destruct (decide (i < n));
      [rewrite Z.shiftl_spec_low by lia; done
      |replace (Z.testbit b i) with false; [apply andb_false_r|];
       symmetry; destruct (decide (b = 0)) as [->|]; [apply Z.bits_0|];
       apply Z.bits_above_log2; [lia|]; apply Z.log2_lt_pow2; [lia|];
       eapply Z.lt_le_trans; [apply Hb|]; apply Z.pow_le_mono_r; lia]).
Qed.

Lemma land_ones_mod x n : 0 <= n -> Z.land x (2 ^ n - 1) = x mod 2 ^ n.
Proof.
  intros. rewrite <-Z.land_ones by done. f_equal. rewrite Z.ones_equiv. lia.
Qed.

(** * Lists addressed by [Z] *)
Definition zlength {A} (l : list A) : Z := Z.of_nat (length l).

(** Element [i] of an array of bytes; outside the array the model reads 0,
    and every use is guarded by a bounds check or an assertion. *)
Definition zget (l : list Z) (i : Z) : Z := default 0 (l !! Z.to_nat i).

(** The [n] bytes at [i]. *)
Definition zslice {A} (l : list A) (i n : Z) : list A :=
  take (Z.to_nat n) (drop (Z.to_nat i) l).

#[global] Arguments zlength : simpl never.
#[global] Arguments zget : simpl never.
#[global] Arguments zslice : simpl never.
#[global] Arguments u8 : simpl never.
#[global] Arguments u16 : simpl never.
#[global] Arguments u32 : simpl never.
#[global] Arguments u64 : simpl never.

Lemma zlength_nonneg {A} (l : list A) : 0 <= zlength l.
Proof. unfold zlength. lia. Qed.

Lemma zget_byte l i : Forall byte l -> byte (zget l i).
Proof.
  intros Hl. unfold zget. destruct (l !! _) eqn:E; simpl; [|done].
  by eapply Forall_lookup_1.
Qed.

Lemma zget_lookup l i : 0 <= i < zlength l -> l !! Z.to_nat i = Some (zget l i).
Proof.
  unfold zget, zlength. intros Hi.
  destruct (lookup_lt_is_Some_2 l (Z.to_nat i)) as [x Hx]; [lia|]. by rewrite Hx.
Qed.

Lemma zget_0 x l : zget (x :: l) 0 = x.
Proof. done. Qed.

Lemma zget_cons x l i : 0 < i -> zget (x :: l) i = zget l (i - 1).
Proof.
  intros. unfold zget. replace (Z.to_nat i) with (S (Z.to_nat (i - 1))) by lia. done.
Qed.

Lemma zget_app_l l1 l2 i : 0 <= i < zlength l1 -> zget (l1 ++ l2) i = zget l1 i.
Proof. unfold zget, zlength. intros. by rewrite lookup_app_l by lia. Qed.

Lemma zget_app_r l1 l2 i :
  zlength l1 <= i -> zget (l1 ++ l2) i = zget l2 (i - zlength l1).
Proof.
  unfold zget, zlength. intros. rewrite lookup_app_r by lia. do 2 f_equal. lia.
Qed.

Lemma zlength_app {A} (l1 l2 : list A) : zlength (l1 ++ l2) = zlength l1 + zlength l2.
Proof. unfold zlength. rewrite length_app. lia. Qed.

Lemma zlength_cons {A} (x : A) l : zlength (x :: l) = zlength l + 1.
Proof. unfold zlength. simpl. lia. Qed.

Lemma zlength_nil {A} : zlength (@nil A) = 0.
Proof. done. Qed.

Lemma zslice_length {A} (l : list A) i n :
  0 <= i -> 0 <= n -> i + n <= zlength l -> zlength (zslice l i n) = n.
Proof.
  unfold zslice, zlength. intros. rewrite length_take, length_drop. lia.
Qed.

Lemma zslice_byte l i n : Forall byte l -> Forall byte (zslice l i n).
Proof. intros. unfold zslice. by apply Forall_take, Forall_drop. Qed.

Lemma zlength_fmap {A B} (f : A -> B) l : zlength (f <$> l) = zlength l.
Proof. unfold zlength. by rewrite length_fmap. Qed.

(** Lengths and elements of explicit lists. *)
Ltac zlist :=
  repeat first [rewrite zlength_app in * | rewrite zlength_cons in * | rewrite zlength_nil in *].
Ltac zget_simpl :=
  repeat first [rewrite zget_0 | rewrite zget_cons by lia
               | progress (cbn [Z.sub Z.add Z.opp Z.pos_sub Pos.pred_double])].

#[export] Hint Resolve zlength_nonneg zget_byte zslice_byte : core.

(** Boolean tests of the code to propositions. *)
Ltac bool_simpl :=
  repeat match goal with
  | H : (_ && _)%bool = true |- _ => apply andb_prop in H as [? ?]
  | H : (_ || _)%bool = false |- _ => apply orb_false_elim in H as [? ?]
  | H : negb _ = true |- _ => apply negb_true_iff in H
  | H : negb _ = false |- _ => apply negb_false_iff in H
  | H : (_ <=? _) = true |- _ => apply Z.leb_le in H
  | H : (_ <=? _) = false |- _ => apply Z.leb_gt in H
  | H : (_ <? _) = true |- _ => apply Z.ltb_lt in H
  | H : (_ <? _) = false |- _ => apply Z.ltb_ge in H
  | H : (_ =? _) = true |- _ => apply Z.eqb_eq in H
  | H : (_ =? _) = false |- _ => apply Z.eqb_neq in H
  | H : bool_decide _ = true |- _ => apply bool_decide_eq_true in H
  | H : bool_decide _ = false |- _ => apply bool_decide_eq_false in H
  end.

(** A property of every byte, decided by trying all of them. *)
Lemma byte_forall (P : Z -> bool) :
  forallb P (seqZ 0 256) = true -> forall c, byte c -> P c = true.
Proof.
  intros H c Hc. rewrite forallb_forall in H. apply H.
  apply list_elem_of_In, elem_of_seqZ. unfold byte in Hc. lia.
Qed.

(** * Three-way comparison

    The C comparison functions return a number of which only the sign counts.
    [LawfulCompare] is what a sorted structure may assume of one. *)
Class LawfulCompare {A} (cmp : A -> A -> Z) : Prop := {
  cmp_eq a b : cmp a b = 0 <-> a = b;
  cmp_swap a b : cmp a b < 0 <-> 0 < cmp b a;
  cmp_trans a b c : cmp a b < 0 -> cmp b c < 0 -> cmp a c < 0;
}.

#[export] Instance sub_lawful : LawfulCompare Z.sub.
Proof. split; lia. Qed.

(** Lexicographic comparison; the shorter list comes first. *)
Fixpoint lex {A} (cmp : A -> A -> Z) (l r : list A) : Z :=
  match l, r with
  | a :: l', b :: r' => if cmp a b =? 0 then lex cmp l' r' else cmp a b
  | _, _ => zlength l - zlength r
  end.

#[export] Instance lex_lawful {A} (cmp : A -> A -> Z) `{!LawfulCompare cmp} :
  LawfulCompare (lex cmp).
Proof.
  split.
  - intros a. induction a as [|x a IH]; intros [|y b]; simpl; zlist.
    + done.
    + pose proof (zlength_nonneg b). split; [lia|done].
    + pose proof (zlength_nonneg a). split; [lia|done].
    + destruct (Z.eqb_spec (cmp x y) 0) as [E|E].
      * apply cmp_eq in E as ->. rewrite IH. split; congruence.
      * split; [done|]. intros [= -> ->]. by destruct E; apply cmp_eq.
  - intros a. induction a as [|x a IH]; intros [|y b]; simpl; zlist;
      try (unfold zlength; cbn [length]; intros; lia); [].
    destruct (Z.eqb_spec (cmp x y) 0) as [E|E], (Z.eqb_spec (cmp y x) 0) as [F|F].
    + apply IH.
    + apply cmp_eq in E as ->. destruct F. by apply cmp_eq.
    + apply cmp_eq in F as ->. destruct E. by apply cmp_eq.
    + apply cmp_swap.
  - intros a. induction a as [|x a IH]; intros [|y b] [|z c]; simpl; zlist;
      try (unfold zlength; cbn [length]; intros; lia); [].
    destruct (Z.eqb_spec (cmp x y) 0) as [E|E], (Z.eqb_spec (cmp y z) 0) as [F|F].
    + apply cmp_eq in E as ->. apply cmp_eq in F as ->.
      rewrite (proj2 (cmp_eq (cmp:=cmp) z z) eq_refl). apply IH.
    + apply cmp_eq in E as ->. destruct (Z.eqb_spec (cmp y z) 0); [done|]. auto.
    + apply cmp_eq in F as ->. destruct (Z.eqb_spec (cmp x z) 0); [done|]. auto.
    + intros H1 H2. pose proof (cmp_trans (cmp:=cmp) _ _ _ H1 H2).
      destruct (Z.eqb_spec (cmp x z) 0); lia.
Qed.
