(* ===== verification/Buffer.v ===== *)
(** Model of the generic memory buffer (src/buffer.h, src/buffer.c) and of the
    big-endian accessors of src/util.h it is built on: the cursor state, every
    operation with its assertions, the buffer invariant and the rules the
    packet parsers are proved with. *)

From S2P Require Import Prelude.

(** * Big-endian accessors (util.h) *)

Definition read_uint16 (d : list Z) (p : Z) : Z :=
  Z.lor (Z.shiftl (zget d p) 8) (zget d (p + 1)).

Definition read_uint32 (d : list Z) (p : Z) : Z :=
  u32 (Z.lor (Z.lor (Z.lor (Z.shiftl (zget d p) 24) (Z.shiftl (zget d (p + 1)) 16))
                    (Z.shiftl (zget d (p + 2)) 8))
             (zget d (p + 3))).

Definition read_uint64 (d : list Z) (p : Z) : Z :=
  u64 (Z.lor (Z.lor (Z.lor (Z.lor (Z.lor (Z.lor (Z.lor
    (Z.shiftl (zget d p) 56) (Z.shiftl (zget d (p + 1)) 48))
    (Z.shiftl (zget d (p + 2)) 40)) (Z.shiftl (zget d (p + 3)) 32))
    (Z.shiftl (zget d (p + 4)) 24)) (Z.shiftl (zget d (p + 5)) 16))
    (Z.shiftl (zget d (p + 6)) 8)) (zget d (p + 7))).

(** The bytes [write_uint16] stores at the destination. *)
Definition write_uint16 (data : Z) : list Z :=
  [Z.land (Z.shiftr data 8) 0xff; Z.land data 0xff].

Definition write_uint32 (data : Z) : list Z :=
  [Z.land (Z.shiftr data 24) 0xff; Z.land (Z.shiftr data 16) 0xff;
   Z.land (Z.shiftr data 8) 0xff; Z.land data 0xff].

Definition write_uint64 (data : Z) : list Z :=
  [Z.land (Z.shiftr data 56) 0xff; Z.land (Z.shiftr data 48) 0xff;
   Z.land (Z.shiftr data 40) 0xff; Z.land (Z.shiftr data 32) 0xff;
   Z.land (Z.shiftr data 24) 0xff; Z.land (Z.shiftr data 16) 0xff;
   Z.land (Z.shiftr data 8) 0xff; Z.land data 0xff].

(** * The buffer *)
Record buffer := mkbuffer {
  _position : Z;
  _limit : Z;
  _capacity : Z;
  _data : list Z;
  _fixed : bool;
}.

(** [buffer_invariant] asserts this much; the data pointer is an array of
    [_capacity] bytes. *)
Record buffer_ok (b : buffer) : Prop := {
  ok_pos : 0 <= _position b <= _limit b;
  ok_limit : _limit b <= _capacity b;
  ok_data : zlength (_data b) = _capacity b;
  ok_bytes : Forall byte (_data b);
  ok_size : _capacity b < 2 ^ 62;
}.

Definition set_pos (p : Z) (b : buffer) : buffer :=
  mkbuffer p (_limit b) (_capacity b) (_data b) (_fixed b).
Definition set_lim (l : Z) (b : buffer) : buffer :=
  mkbuffer (_position b) l (_capacity b) (_data b) (_fixed b).
Definition set_data (d : list Z) (b : buffer) : buffer :=
  mkbuffer (_position b) (_limit b) (_capacity b) d (_fixed b).

Abbreviation Buf := (ST buffer).

Definition buffer_invariant : Buf unit :=
  b ← st_get;
  st_assert ((_position b <=? _limit b) && (_limit b <=? _capacity b)).

(** [mem] is the block the allocator returns. *)
Definition buffer_create (mem : list Z) : buffer :=
  mkbuffer 0 (zlength mem) (zlength mem) mem false.

Definition buffer_create_from (data : list Z) : buffer :=
  mkbuffer 0 (zlength data) (zlength data) data true.

Definition buffer_clear : Buf unit :=
  buffer_invariant;;
  st_modify (fun b => mkbuffer 0 (_capacity b) (_capacity b) (_data b) (_fixed b)).

Definition buffer_flip : Buf unit :=
  buffer_invariant;;
  st_modify (fun b => mkbuffer 0 (_position b) (_capacity b) (_data b) (_fixed b)).

Definition buffer_rewind : Buf unit :=
  buffer_invariant;; st_modify (set_pos 0).

Definition buffer_position : Buf Z := b ← st_get; mret (_position b).

Definition buffer_set_position (mark : Z) : Buf unit :=
  b ← st_get;
  st_assert (mark <=? _limit b);;
  st_put (set_pos mark b).

(** [count] is signed, the sum is computed on [size_t]. *)
Definition buffer_skip (count : Z) : Buf unit :=
  b ← st_get;
  st_assert (u64 (_position b + count) <=? _limit b);;
  st_put (set_pos (u64 (_position b + count)) b).

Definition buffer_limit : Buf Z := b ← st_get; mret (_limit b).

Definition buffer_set_limit (limit : Z) : Buf unit :=
  b ← st_get;
  st_assert (limit <=? _capacity b);;
  let b := set_lim limit b in
  st_put (if _limit b <? _position b then set_pos (_limit b) b else b).

Definition buffer_capacity : Buf Z := b ← st_get; mret (_capacity b).

(** [xrealloc] keeps the common prefix; [junk i] is what the new block
    holds at [i] beyond it. *)
Definition xrealloc (junk : nat -> Z) (data : list Z) (size : Z) : list Z :=
  take (Z.to_nat size) data ++
  (junk <$> seq (length data) (Z.to_nat size - length data)).

Definition buffer_set_capacity (junk : nat -> Z) (capacity : Z) : Buf unit :=
  buffer_invariant;;
  b ← st_get;
  st_assert (_position b <=? capacity);;
  st_put (mkbuffer (_position b) capacity capacity
            (xrealloc junk (_data b) capacity) (_fixed b)).

Definition buffer_reserve (junk : nat -> Z) (amount : Z) : Buf unit :=
  buffer_invariant;;
  b ← st_get;
  st_assert (negb (_fixed b));;
  (if _capacity b <? u64 (_position b + amount) then
     let new_capacity := u64 (_capacity b * 3) / 2 in
     let new_capacity :=
       if new_capacity <? u64 (_position b + amount)
       then u64 (_position b + amount) else new_capacity in
     buffer_set_capacity junk new_capacity
   else mret tt);;
  st_modify (fun b => set_lim (_capacity b) b).

(** Pointers into the buffer are indexes of its data. *)
Definition buffer_at (at_ : Z) : Buf Z :=
  b ← st_get; st_assert (at_ <=? _limit b);; mret at_.
Definition buffer_begin : Buf Z := buffer_at 0.
Definition buffer_end : Buf Z := b ← st_get; buffer_at (_limit b).
Definition buffer_current : Buf Z := b ← st_get; buffer_at (_position b).

Definition buffer_remaining_at (at_ : Z) : Buf Z :=
  buffer_invariant;;
  b ← st_get;
  st_assert (at_ <=? _limit b);;
  mret (_limit b - at_).
Definition buffer_remaining : Buf Z := b ← st_get; buffer_remaining_at (_position b).

Definition buffer_available_at (at_ count : Z) : Buf bool :=
  r ← buffer_remaining_at at_; mret (count <=? r).
Definition buffer_available (count : Z) : Buf bool :=
  b ← st_get; buffer_available_at (_position b) count.

(** [memcpy] of [data] to the data at [at_]. *)
Definition buffer_write_at (at_ : Z) (data : list Z) : Buf unit :=
  a ← buffer_available_at at_ (zlength data);
  st_assert a;;
  st_modify (fun b => set_data (list_inserts (Z.to_nat at_) data (_data b)) b).

Definition buffer_advance (n : Z) : Buf unit :=
  st_modify (fun b => set_pos (_position b + n) b).

Definition buffer_write (data : list Z) : Buf unit :=
  b ← st_get;
  buffer_write_at (_position b) data;;
  buffer_advance (zlength data).

Definition buffer_write_u8_at (at_ data : Z) : Buf unit := buffer_write_at at_ [data].
Definition buffer_write_u8 (data : Z) : Buf unit :=
  b ← st_get; buffer_write_u8_at (_position b) data;; buffer_advance 1.
Definition buffer_write_u16_at (at_ data : Z) : Buf unit :=
  buffer_write_at at_ (write_uint16 data).
Definition buffer_write_u16 (data : Z) : Buf unit :=
  b ← st_get; buffer_write_u16_at (_position b) data;; buffer_advance 2.
Definition buffer_write_u32_at (at_ data : Z) : Buf unit :=
  buffer_write_at at_ (write_uint32 data).
Definition buffer_write_u32 (data : Z) : Buf unit :=
  b ← st_get; buffer_write_u32_at (_position b) data;; buffer_advance 4.
Definition buffer_write_u64_at (at_ data : Z) : Buf unit :=
  buffer_write_at at_ (write_uint64 data).
Definition buffer_write_u64 (data : Z) : Buf unit :=
  b ← st_get; buffer_write_u64_at (_position b) data;; buffer_advance 8.

Definition buffer_read_at (at_ count : Z) : Buf (list Z) :=
  a ← buffer_available_at at_ count;
  st_assert a;;
  b ← st_get; mret (zslice (_data b) at_ count).
Definition buffer_read (count : Z) : Buf (list Z) :=
  b ← st_get;
  d ← buffer_read_at (_position b) count;
  buffer_advance count;;
  mret d.

Definition buffer_read_u8_at (at_ : Z) : Buf Z :=
  a ← buffer_available_at at_ 1;
  st_assert a;;
  b ← st_get; mret (zget (_data b) at_).
Definition buffer_read_u8 : Buf Z :=
  b ← st_get;
  result ← buffer_read_u8_at (_position b);
  buffer_advance 1;;
  mret result.
Definition buffer_read_u16_at (at_ : Z) : Buf Z :=
  a ← buffer_available_at at_ 2;
  st_assert a;;
  b ← st_get; mret (read_uint16 (_data b) at_).
Definition buffer_read_u16 : Buf Z :=
  b ← st_get;
  result ← buffer_read_u16_at (_position b);
  buffer_advance 2;;
  mret result.
Definition buffer_read_u32_at (at_ : Z) : Buf Z :=
  a ← buffer_available_at at_ 4;
  st_assert a;;
  b ← st_get; mret (read_uint32 (_data b) at_).
Definition buffer_read_u32 : Buf Z :=
  b ← st_get;
  result ← buffer_read_u32_at (_position b);
  buffer_advance 4;;
  mret result.
Definition buffer_read_u64_at (at_ : Z) : Buf Z :=
  a ← buffer_available_at at_ 8;
  st_assert a;;
  b ← st_get; mret (read_uint64 (_data b) at_).
Definition buffer_read_u64 : Buf Z :=
  b ← st_get;
  result ← buffer_read_u64_at (_position b);
  buffer_advance 8;;
  mret result.

(** [vsnprintf(p, size, "%s", str)]: at most [size - 1] characters and the
    terminating zero; nothing when [size] is 0. *)
Definition vsnprintf_at (at_ size : Z) (str : list Z) : Buf unit :=
  if size =? 0 then mret tt
  else st_modify (fun b => set_data
         (list_inserts (Z.to_nat at_) (take (Z.to_nat (size - 1)) str ++ [0]) (_data b)) b).

(** [str] is the formatted text; the result is the number of characters. *)
Definition buffer_printf (junk : nat -> Z) (str : list Z) : Buf Z :=
  buffer_invariant;;
  b ← st_get;
  st_assert (_limit b =? _capacity b);;
  remaining ← buffer_remaining;
  at_ ← buffer_current;
  vsnprintf_at at_ remaining str;;
  let written := zlength str in
  (if remaining <=? written then
     buffer_reserve junk (written + 1);;
     remaining ← buffer_remaining;
     at_ ← buffer_current;
     vsnprintf_at at_ remaining str
   else mret tt);;
  buffer_advance written;;
  mret written.

(** * Big-endian lemmas *)

Lemma land_255 x : Z.land x 255 = x mod 256.
Proof. exact (land_ones_mod x 8 ltac:(lia)). Qed.

Lemma write_uint16_eq x : write_uint16 x = [x / 256 mod 256; x mod 256].
Proof. unfold write_uint16. rewrite !land_255, Z.shiftr_div_pow2 by lia. done. Qed.

Lemma write_uint32_eq x :
  write_uint32 x = [x / 16777216 mod 256; x / 65536 mod 256; x / 256 mod 256; x mod 256].
Proof. unfold write_uint32. rewrite !land_255, !Z.shiftr_div_pow2 by lia. done. Qed.

Lemma write_uint16_bytes x : Forall byte (write_uint16 x).
Proof. rewrite write_uint16_eq. unfold byte. repeat constructor; dlia. Qed.

Lemma write_uint32_bytes x : Forall byte (write_uint32 x).
Proof. rewrite write_uint32_eq. unfold byte. repeat constructor; dlia. Qed.

Lemma write_uint64_bytes x : Forall byte (write_uint64 x).
Proof.
  unfold write_uint64. rewrite !land_255. unfold byte. repeat constructor; dlia.
Qed.

Lemma read_uint16_eq d p : Forall byte d ->
  read_uint16 d p = zget d p * 256 + zget d (p + 1).
Proof.
  intros Hd. unfold read_uint16. apply (lor_shiftl_add _ _ 8); [lia|]. by apply zget_byte.
Qed.

Lemma read_uint16_range d p : Forall byte d -> 0 <= read_uint16 d p < 65536.
Proof.
  intros Hd. rewrite read_uint16_eq by done.
  pose proof (zget_byte d p Hd). pose proof (zget_byte d (p + 1) Hd).
  unfold byte in *. lia.
Qed.

(** The four shifted fields of a 32-bit word, as one number. *)
Lemma be32_fields a b c e : byte a -> byte b -> byte c -> byte e ->
  Z.lor (Z.lor (Z.lor (Z.shiftl a 24) (Z.shiftl b 16)) (Z.shiftl c 8)) e
  = ((a * 256 + b) * 256 + c) * 256 + e.
Proof.
  unfold byte. intros.
  replace (Z.shiftl a 24) with (Z.shiftl (Z.shiftl a 8) 16) by (by rewrite Z.shiftl_shiftl by lia).
  rewrite <-Z.shiftl_lor, (lor_shiftl_add _ b 8) by lia.
  replace (Z.shiftl (a * 2 ^ 8 + b) 16) with (Z.shiftl (Z.shiftl (a * 2 ^ 8 + b) 8) 8)
    by (by rewrite Z.shiftl_shiftl by lia).
  rewrite <-Z.shiftl_lor, (lor_shiftl_add _ c 8), (lor_shiftl_add _ e 8) by lia.
  done.
Qed.

Lemma read_uint32_eq d p : Forall byte d ->
  read_uint32 d p =
    ((zget d p * 256 + zget d (p + 1)) * 256 + zget d (p + 2)) * 256 + zget d (p + 3).
Proof.
  intros Hd. unfold read_uint32. rewrite be32_fields by auto.
  pose proof (zget_byte d p Hd). pose proof (zget_byte d (p + 1) Hd).
  pose proof (zget_byte d (p + 2) Hd). pose proof (zget_byte d (p + 3) Hd).
  unfold byte in *. apply u32_small. lia.
Qed.

(** * The invariant and the primitive state changes *)

Lemma buffer_ok_set_pos p b :
  buffer_ok b -> 0 <= p <= _limit b -> buffer_ok (set_pos p b).
Proof. intros [] ?. constructor; simpl; auto; lia. Qed.

Lemma buffer_ok_set_data d b :
  buffer_ok b -> zlength d = _capacity b -> Forall byte d -> buffer_ok (set_data d b).
Proof. intros [] ??. constructor; simpl; auto. Qed.

Lemma buffer_ok_set_lim l b :
  buffer_ok b -> _position b <= l <= _capacity b -> buffer_ok (set_lim l b).
Proof. intros [] ?. constructor; simpl; auto; lia. Qed.

#[export] Instance buffer_ok_dec b : Decision (buffer_ok b).
Proof.
  refine (cast_if (decide ((0 <= _position b <= _limit b /\ _limit b <= _capacity b) /\
    zlength (_data b) = _capacity b /\ Forall byte (_data b) /\ _capacity b < 2 ^ 62)));
    [abstract (destruct_and!; by constructor; try lia)
    |abstract (intros Hb; match goal with H : ~ _ |- _ => apply H end; destruct Hb;
               split_and!; lia || done)].
Defined.

Lemma set_pos_set_pos p q b : set_pos p (set_pos q b) = set_pos p b.
Proof. done. Qed.

Lemma inserts_byte l k d : Forall byte d -> Forall byte l -> Forall byte (list_inserts k l d).
Proof.
  intros Hd Hl. apply Forall_lookup. intros i x Hx.
  apply list_lookup_inserts_Some in Hx as [[_ Hx]|(_ & _ & Hx)];
    (eapply Forall_lookup_1; [|exact Hx]); done.
Qed.

#[export] Hint Resolve buffer_ok_set_pos buffer_ok_set_data buffer_ok_set_lim
  inserts_byte write_uint16_bytes write_uint32_bytes write_uint64_bytes : wp.
#[export] Hint Extern 5 (_ <= _) => lia : wp.
#[export] Hint Extern 5 (_ < _) => lia : wp.
#[export] Hint Extern 5 (_ <= _ <= _) => lia : wp.

Ltac buf_simpl :=
  cbn [_position _limit _capacity _data _fixed set_pos set_data set_lim] in *;
  rewrite ?set_pos_set_pos in *.

(** * Rules of the operations *)
Section rules.
Context (b : buffer) (Hb : buffer_ok b).

Lemma wp_buffer_invariant (Q : unit -> buffer -> Prop) :
  Q tt b -> wp buffer_invariant Q b.
Proof using Hb.
  intros HQ. unfold buffer_invariant. do 2 wp_step. apply wp_assert; [|done]. destruct Hb. lia.
Qed.

Lemma wp_buffer_remaining_at at_ (Q : Z -> buffer -> Prop) :
  at_ <= _limit b -> Q (_limit b - at_) b -> wp (buffer_remaining_at at_) Q b.
Proof using Hb.
  intros Hat HQ. unfold buffer_remaining_at.
  wp_step. apply wp_buffer_invariant. do 3 wp_step. apply wp_assert; [lia|].
  by wp_step.
Qed.

Lemma wp_buffer_available_at at_ count (Q : bool -> buffer -> Prop) :
  at_ <= _limit b -> Q (count <=? _limit b - at_) b ->
  wp (buffer_available_at at_ count) Q b.
Proof using Hb.
  intros Hat HQ. unfold buffer_available_at. wp_step. apply wp_buffer_remaining_at; [done|]. by wp_step.
Qed.

Lemma wp_buffer_available count (Q : bool -> buffer -> Prop) :
  Q (count <=? _limit b - _position b) b -> wp (buffer_available count) Q b.
Proof using Hb.
  intros HQ. unfold buffer_available. do 2 wp_step. apply wp_buffer_available_at; [|done]. destruct Hb; lia.
Qed.

Lemma wp_buffer_remaining (Q : Z -> buffer -> Prop) :
  Q (_limit b - _position b) b -> wp buffer_remaining Q b.
Proof using Hb.
  intros HQ. unfold buffer_remaining. do 2 wp_step. apply wp_buffer_remaining_at; [|done]. destruct Hb; lia.
Qed.

Lemma wp_buffer_write_at at_ data (Q : unit -> buffer -> Prop) :
  at_ + zlength data <= _limit b ->
  Q tt (set_data (list_inserts (Z.to_nat at_) data (_data b)) b) ->
  wp (buffer_write_at at_ data) Q b.
Proof using Hb.
  intros Hat HQ. unfold buffer_write_at. wp_step. apply wp_buffer_available_at.
  { pose proof (zlength_nonneg data). lia. }
  wp_step. apply wp_assert; [lia|]. by wp_step.
Qed.

Lemma wp_buffer_write data (Q : unit -> buffer -> Prop) :
  _position b + zlength data <= _limit b ->
  Q tt (set_pos (_position b + zlength data)
          (set_data (list_inserts (Z.to_nat (_position b)) data (_data b)) b)) ->
  wp (buffer_write data) Q b.
Proof using Hb.
  intros Hat HQ. unfold buffer_write. do 3 wp_step.
  apply wp_buffer_write_at; [done|]. unfold buffer_advance. by wp_step.
Qed.

Lemma wp_buffer_skip count (Q : unit -> buffer -> Prop) :
  0 <= _position b + count <= _limit b ->
  Q tt (set_pos (_position b + count) b) -> wp (buffer_skip count) Q b.
Proof using Hb.
  intros Hc HQ. unfold buffer_skip. do 2 wp_step.
  assert (u64 (_position b + count) = _position b + count) as ->.
  { destruct Hb. apply u64_small. lia. }
  wp_step. apply wp_assert; [lia|]. by wp_step.
Qed.

Lemma wp_buffer_set_position mark (Q : unit -> buffer -> Prop) :
  mark <= _limit b -> Q tt (set_pos mark b) -> wp (buffer_set_position mark) Q b.
Proof using.
  intros Hc HQ. unfold buffer_set_position. do 3 wp_step. apply wp_assert; [lia|]. by wp_step.
Qed.

Lemma wp_buffer_read count (Q : list Z -> buffer -> Prop) :
  _position b + count <= _limit b ->
  (Forall byte (zslice (_data b) (_position b) count) ->
   Q (zslice (_data b) (_position b) count) (set_pos (_position b + count) b)) ->
  wp (buffer_read count) Q b.
Proof using Hb.
  intros Hat HQ. unfold buffer_read, buffer_read_at, buffer_advance. do 4 wp_step.
  apply wp_buffer_available_at; [destruct Hb; lia|].
  wp_step. apply wp_assert; [lia|]. do 5 wp_step. wp_step.
  apply HQ. destruct Hb; auto.
Qed.

Lemma wp_buffer_read_u8 (Q : Z -> buffer -> Prop) :
  _position b + 1 <= _limit b ->
  (byte (zget (_data b) (_position b)) ->
   Q (zget (_data b) (_position b)) (set_pos (_position b + 1) b)) ->
  wp buffer_read_u8 Q b.
Proof using Hb.
  intros Hat HQ. unfold buffer_read_u8, buffer_read_u8_at, buffer_advance. do 4 wp_step.
  apply wp_buffer_available_at; [lia|].
  wp_step. apply wp_assert; [lia|]. do 5 wp_step. wp_step.
  apply HQ. destruct Hb; auto.
Qed.

Lemma wp_buffer_read_u16_at at_ (Q : Z -> buffer -> Prop) :
  at_ + 2 <= _limit b ->
  (0 <= read_uint16 (_data b) at_ < 65536 -> Q (read_uint16 (_data b) at_) b) ->
  wp (buffer_read_u16_at at_) Q b.
Proof using Hb.
  intros Hat HQ. unfold buffer_read_u16_at. wp_step.
  apply wp_buffer_available_at; [lia|].
  wp_step. apply wp_assert; [lia|]. do 3 wp_step.
  apply HQ, read_uint16_range. by destruct Hb.
Qed.

Lemma wp_buffer_read_u16 (Q : Z -> buffer -> Prop) :
  _position b + 2 <= _limit b ->
  (0 <= read_uint16 (_data b) (_position b) < 65536 ->
   Q (read_uint16 (_data b) (_position b)) (set_pos (_position b + 2) b)) ->
  wp buffer_read_u16 Q b.
Proof using Hb.
  intros Hat HQ. unfold buffer_read_u16, buffer_advance. do 3 wp_step.
  apply wp_buffer_read_u16_at; [lia|]. intros. do 2 wp_step. wp_step. auto.
Qed.

Lemma wp_buffer_read_u32 (Q : Z -> buffer -> Prop) :
  _position b + 4 <= _limit b ->
  (0 <= read_uint32 (_data b) (_position b) < 4294967296 ->
   Q (read_uint32 (_data b) (_position b)) (set_pos (_position b + 4) b)) ->
  wp buffer_read_u32 Q b.
Proof using Hb.
  intros Hat HQ. unfold buffer_read_u32, buffer_read_u32_at, buffer_advance. do 4 wp_step.
  apply wp_buffer_available_at; [lia|].
  wp_step. apply wp_assert; [lia|]. do 5 wp_step. wp_step.
  apply HQ, u32_range.
Qed.

Lemma wp_buffer_at at_ (Q : Z -> buffer -> Prop) :
  at_ <= _limit b -> Q at_ b -> wp (buffer_at at_) Q b.
Proof using.
  intros Hc HQ. unfold buffer_at. do 3 wp_step. apply wp_assert; [lia|]. by wp_step.
Qed.
End rules.

#[export] Hint Resolve wp_buffer_available wp_buffer_skip wp_buffer_set_position
  wp_buffer_read wp_buffer_read_u8 wp_buffer_read_u16 wp_buffer_read_u32
  wp_buffer_write wp_buffer_write_at wp_buffer_at : wp.

(** * Stored data *)

Lemma zlength_inserts (d l : list Z) k : zlength (list_inserts k l d) = zlength d.
Proof. unfold zlength. by rewrite length_inserts. Qed.

Lemma zget_inserts_in (d l : list Z) k i :
  0 <= k -> k <= i < k + zlength l -> k + zlength l <= zlength d ->
  zget (list_inserts (Z.to_nat k) l d) i = zget l (i - k).
Proof.
  unfold zlength, zget. intros. rewrite list_lookup_inserts by lia.
  do 2 f_equal. lia.
Qed.

Lemma zget_inserts_out d l k i :
  0 <= k -> 0 <= i -> i < k \/ k + zlength l <= i ->
  zget (list_inserts (Z.to_nat k) l d) i = zget d i.
Proof.
  unfold zlength, zget. intros ?? [|].
  - rewrite list_lookup_inserts_lt by lia. done.
  - rewrite list_lookup_inserts_ge by lia. done.
Qed.

Lemma zlookup_slice (d : list Z) k n i : 0 <= k -> (i < Z.to_nat n)%nat ->
  zslice d k n !! i = d !! (Z.to_nat k + i)%nat.
Proof.
  intros. unfold zslice. rewrite lookup_take_lt by lia. by rewrite lookup_drop.
Qed.

Lemma zslice_inserts (d l : list Z) k :
  0 <= k -> k + zlength l <= zlength d ->
  zslice (list_inserts (Z.to_nat k) l d) k (zlength l) = l.
Proof.
  intros Hk Hl. assert (Hlen := zlength_nonneg l). apply list_eq. intros i.
  destruct (decide (i < length l)%nat) as [Hi|Hi].
  - rewrite zlookup_slice by (unfold zlength; lia). unfold zlength in *.
    rewrite list_lookup_inserts by lia. f_equal. lia.
  - rewrite !lookup_ge_None_2; [done|lia|]. unfold zslice, zlength.
    rewrite length_take. lia.
Qed.

(** Reading back what was written. *)
Lemma read_write_uint16 x d k :
  0 <= x < 65536 -> 0 <= k -> k + 2 <= zlength d -> Forall byte d ->
  read_uint16 (list_inserts (Z.to_nat k) (write_uint16 x) d) k = x.
Proof.
  intros Hx Hk Hl Hd.
  rewrite read_uint16_eq by auto with wp.
  rewrite write_uint16_eq, !zget_inserts_in by (unfold zlength in *; simpl; lia).
  rewrite !Z.add_simpl_l, Z.sub_diag. zget_simpl. dlia.
Qed.

Lemma read_write_uint32 x d k :
  0 <= x < 4294967296 -> 0 <= k -> k + 4 <= zlength d -> Forall byte d ->
  read_uint32 (list_inserts (Z.to_nat k) (write_uint32 x) d) k = x.
Proof.
  intros Hx Hk Hl Hd.
  rewrite read_uint32_eq by auto with wp.
  rewrite write_uint32_eq, !zget_inserts_in by (unfold zlength in *; simpl; lia).
  rewrite !Z.add_simpl_l, Z.sub_diag. zget_simpl. dlia.
Qed.

Lemma xrealloc_length junk (d : list Z) n : 0 <= n -> zlength (xrealloc junk d n) = n.
Proof.
  intros. unfold xrealloc, zlength.
  rewrite length_app, length_take, length_fmap, length_seq. lia.
Qed.

Lemma xrealloc_byte junk d n :
  (forall i, byte (junk i)) -> Forall byte d -> Forall byte (xrealloc junk d n).
Proof.
  intros Hj Hd. apply Forall_app. split; [by apply Forall_take|].
  apply Forall_fmap, Forall_true. intros. apply Hj.
Qed.

(** * Correctness of the buffer *)

Lemma wp_buffer_set_capacity junk n b (Q : unit -> buffer -> Prop) :
  buffer_ok b -> _position b <= n ->
  Q tt (mkbuffer (_position b) n n (xrealloc junk (_data b) n) (_fixed b)) ->
  wp (buffer_set_capacity junk n) Q b.
Proof.
  intros Hb Hn HQ. unfold buffer_set_capacity. wp_step.
  apply wp_buffer_invariant; [done|]. do 3 wp_step. apply wp_assert; [lia|]. by wp_step.
Qed.

Lemma zget_xrealloc junk d n i :
  0 <= i < n -> i < zlength d -> zget (xrealloc junk d n) i = zget d i.
Proof.
  intros. unfold xrealloc, zget, zlength in *.
  rewrite lookup_app_l by (rewrite length_take; lia). by rewrite lookup_take_lt by lia.
Qed.

(** [buffer_reserve] on a growable buffer. *)
Lemma wp_buffer_reserve junk amount b (Q : unit -> buffer -> Prop) :
  buffer_ok b -> _fixed b = false -> (forall i, byte (junk i)) ->
  0 <= amount < 2 ^ 60 -> _capacity b < 2 ^ 60 ->
  (forall b', buffer_ok b' -> _position b' = _position b -> _fixed b' = false ->
     _limit b' = _capacity b' -> _capacity b <= _capacity b' ->
     _position b + amount <= _capacity b' ->
     (forall i, 0 <= i < _capacity b -> zget (_data b') i = zget (_data b) i) ->
     Q tt b') ->
  wp (buffer_reserve junk amount) Q b.
Proof.
  intros Hb Hf Hj Ha Hc HQ. pose proof Hb as [].
  unfold buffer_reserve. wp_step. apply wp_buffer_invariant; [done|].
  do 3 wp_step. apply wp_assert; [by rewrite Hf|]. wp_step.
  rewrite (u64_small (_position b + amount)), (u64_small (_capacity b * 3)) by lia.
  wp_step.
  - set (nc := if _ <? _ then _ else _).
    assert (_position b + amount <= nc /\ _capacity b <= nc /\ nc < 2 ^ 62).
    { subst nc. case_match; bool_simpl; dlia. }
    clearbody nc.
    apply wp_buffer_set_capacity; [done|lia|]. wp_step. apply HQ; simpl; try lia; [|done|].
    + constructor; simpl; try lia; [apply xrealloc_length; lia|by apply xrealloc_byte].
    + intros. apply zget_xrealloc; lia.
  - do 2 wp_step. bool_simpl. apply HQ; simpl; try done; try lia.
    apply buffer_ok_set_lim; [done|lia].
Qed.

(** [vsnprintf] into the rest of the buffer, when there is room for it or not. *)
Lemma wp_vsnprintf_rest str b (Q : unit -> buffer -> Prop) :
  buffer_ok b -> Forall byte str -> _limit b = _capacity b ->
  (forall d, zlength d = zlength (_data b) -> Forall byte d ->
     (forall i, 0 <= i < _position b -> zget d i = zget (_data b) i) ->
     (zlength str < _limit b - _position b ->
        zslice d (_position b) (zlength str + 1) = str ++ [0]) ->
     Q tt (set_data d b)) ->
  wp (vsnprintf_at (_position b) (_limit b - _position b) str) Q b.
Proof.
  intros Hb Hs Hl HQ. pose proof Hb as []. unfold vsnprintf_at. wp_step; wp_step.
  - replace b with (set_data (_data b) b) by (by destruct b).
    apply HQ; try done. bool_simpl. pose proof (zlength_nonneg str). lia.
  - bool_simpl. set (t := take _ str ++ [0]).
    assert (Ht : zlength t <= _limit b - _position b).
    { subst t. zlist. unfold zlength. rewrite length_take. lia. }
    apply HQ.
    + apply zlength_inserts.
    + apply inserts_byte; [done|]. subst t. apply Forall_app.
      split; [by apply Forall_take|]. by repeat constructor.
    + intros. apply zget_inserts_out; lia.
    + intros Hroom. subst t. rewrite take_ge in * by (unfold zlength in *; lia).
      replace (zlength str + 1) with (zlength (str ++ [0])) by (by zlist).
      apply zslice_inserts; lia.
Qed.

(** [buffer_printf] on a growable buffer never fails an
    assertion: it grows the buffer when the text does not fit, stores the whole
    text and its terminating zero at the old position, keeps what was written
    before and advances the position over the text. *)
Theorem buffer_printf_correct junk str b :
  buffer_ok b -> _fixed b = false -> _limit b = _capacity b ->
  (forall i, byte (junk i)) -> Forall byte str ->
  _capacity b < 2 ^ 60 -> zlength str < 2 ^ 59 ->
  wp (buffer_printf junk str) (fun written b' =>
    written = zlength str /\ buffer_ok b' /\
    _position b' = _position b + written /\
    zslice (_data b') (_position b) (written + 1) = str ++ [0] /\
    forall i, 0 <= i < _position b -> zget (_data b') i = zget (_data b) i) b.
Proof.
  intros Hb Hf Hl Hj Hs Hc Hlen. pose proof Hb as []. pose proof (zlength_nonneg str).
  unfold buffer_printf, buffer_remaining, buffer_current.
  wp_step. apply wp_buffer_invariant; [done|]. do 3 wp_step. apply wp_assert; [lia|].
  do 3 wp_step. apply wp_buffer_remaining_at; [done|lia|].
  do 3 wp_step. apply wp_buffer_at; [lia|]. wp_step.
  apply wp_vsnprintf_rest; [done..|]. intros d Hd Hdb Hold Hnew.
  assert (buffer_ok (set_data d b)) by (apply buffer_ok_set_data; congruence).
  wp_step. wp_step; bool_simpl.
  - wp_step. apply wp_buffer_reserve; simpl; [done..|lia|lia|].
    intros b2 Hb2 Hp2 Hf2 Hl2 Hc2 Hroom Hold2. simpl in *. pose proof Hb2 as [].
    do 3 wp_step. apply wp_buffer_remaining_at; [done|lia|].
    do 3 wp_step. apply wp_buffer_at; [lia|].
    apply wp_vsnprintf_rest; [done..|]. intros d3 Hd3 Hdb3 Hold3 Hnew3.
    unfold buffer_advance. do 3 wp_step. simpl. rewrite Hp2 in *.
    split_and!; [done| |done|apply Hnew3; lia|].
    + constructor; simpl; try done; lia.
    + intros i Hi. rewrite Hold3, Hold2 by lia. apply Hold. lia.
  - wp_step. unfold buffer_advance. do 3 wp_step. simpl.
    split_and!; [done| |done|apply Hnew; lia|done].
    constructor; simpl; try done; lia.
Qed.

(** A growable buffer of four bytes takes a text of six. *)
Lemma buffer_printf_witness :
  let b := mkbuffer 1 4 4 [120; 0; 0; 0] false in
  let str := [97; 98; 99; 100; 101; 102] in
  wp (buffer_printf (fun _ => 0) str) (fun written b' =>
    written = zlength str /\ buffer_ok b' /\
    _position b' = _position b + written /\
    zslice (_data b') (_position b) (written + 1) = str ++ [0] /\
    forall i, 0 <= i < _position b -> zget (_data b') i = zget (_data b) i) b.
Proof.
  intros b str. apply buffer_printf_correct; try done.
  - by apply (bool_decide_unpack _).
  - by apply (bool_decide_unpack _).
Defined.

(** A 16-bit or 32-bit value written at a place of the buffer
    reads back unchanged, the buffer keeps its invariant and cursor, and every
    other byte stays as it was. *)
Theorem buffer_write_read b at_ x y :
  buffer_ok b -> 0 <= at_ -> at_ + 6 <= _limit b ->
  0 <= x < 2 ^ 16 -> 0 <= y < 2 ^ 32 ->
  wp (buffer_write_u16_at at_ x;; buffer_write_u32_at (at_ + 2) y;;
      x' ← buffer_read_u16_at at_;
      buffer_set_position (at_ + 2);;
      y' ← buffer_read_u32;
      mret (x', y'))
     (fun r b' => r = (x, y) /\ buffer_ok b' /\ _position b' = at_ + 6 /\
        forall i, 0 <= i -> i < at_ \/ at_ + 6 <= i -> zget (_data b') i = zget (_data b) i) b.
Proof.
  intros Hb Hat Hlim Hx Hy. pose proof Hb as [].
  assert (H2 : zlength (write_uint16 x) = 2) by done.
  assert (H4 : zlength (write_uint32 y) = 4) by done.
  unfold buffer_write_u16_at, buffer_write_u32_at.
  wp_step. apply wp_buffer_write_at; [done|lia|].
  assert (Hd1 : buffer_ok (set_data
    (list_inserts (Z.to_nat at_) (write_uint16 x) (_data b)) b)).
  { apply buffer_ok_set_data; [done|rewrite zlength_inserts; lia|auto with wp]. }
  wp_step. apply wp_buffer_write_at; [done|buf_simpl; lia|]. buf_simpl.
  assert (Hd2 : buffer_ok (set_data (list_inserts (Z.to_nat (at_ + 2)) (write_uint32 y)
    (list_inserts (Z.to_nat at_) (write_uint16 x) (_data b))) b)).
  { apply buffer_ok_set_data; [done|rewrite !zlength_inserts; lia|auto with wp]. }
  wp_step. apply wp_buffer_read_u16_at; [done|buf_simpl; lia|]. intros _.
  wp_step. apply wp_buffer_set_position; [buf_simpl; lia|].
  wp_step. apply wp_buffer_read_u32.
  { apply buffer_ok_set_pos; [done|buf_simpl; lia]. } { buf_simpl. lia. }
  intros _. wp_step. buf_simpl.
  rewrite read_write_uint32; [|lia|lia|rewrite zlength_inserts; lia|auto with wp].
  rewrite read_uint16_eq by auto with wp.
  rewrite !(zget_inserts_out _ (write_uint32 y)) by lia.
  rewrite <-read_uint16_eq, read_write_uint16 by (auto with wp; lia).
  split_and!; [done| |lia|].
  - apply buffer_ok_set_pos; [done|buf_simpl; lia].
  - intros. by rewrite !zget_inserts_out by lia.
Qed.

Lemma buffer_write_read_witness :
  let b := mkbuffer 2 12 12 (seqZ 100 12) true in
  wp (buffer_write_u16_at 3 258;; buffer_write_u32_at (3 + 2) 16909060;;
      x' ← buffer_read_u16_at 3;
      buffer_set_position (3 + 2);;
      y' ← buffer_read_u32;
      mret (x', y'))
     (fun r b' => r = (258, 16909060) /\ buffer_ok b' /\ _position b' = 3 + 6 /\
        forall i, 0 <= i -> i < 3 \/ 3 + 6 <= i -> zget (_data b') i = zget (_data b) i) b.
Proof.
  intros b. apply buffer_write_read; [by apply (bool_decide_unpack _)|unfold b; cbn; lia..].
Defined.
