(* ===== verification/Dname.v ===== *)
(** Model of domain names (src/dname.h, src/dname.c): the in-memory form with
    its label offsets, construction from wire format, from a packet (with
    compression pointers) and from text, comparison, the subdomain test,
    concatenation and substitution, and printing.  The specification side is a
    list of labels, least significant first, and [wire] is its wire format. *)

From S2P Require Import Prelude Buffer.

Definition MAXLABELLEN : Z := 63.
Definition MAXDOMAINLEN : Z := 255.
Definition MAX_PACKET_SIZE : Z := 65535.

(** Code without state: the outcome alone. *)
#[global] Instance res_ret : MRet res := fun _ a => Ok a.
#[global] Instance res_bind : MBind res := fun _ _ f m =>
  match m with
  | Ok a => f a
  | Assert_failed => Assert_failed
  | No_fuel => No_fuel
  end.
Definition rassert (c : bool) : res unit := if c then Ok tt else Assert_failed.
(** Code without state inside code with state. *)
Definition lift {S A} (r : res A) : ST S A := fun s =>
  match r with
  | Ok a => Ok (a, s)
  | Assert_failed => Assert_failed
  | No_fuel => No_fuel
  end.

(** * Labels

    A pointer into memory is the list of bytes from there on; reading past
    the end of the memory block is a failed assertion. *)
Definition deref (p : list Z) : res Z :=
  match p with
  | [] => Assert_failed
  | c :: _ => Ok c
  end.

Definition label_is_normal (label : list Z) : bool := Z.land (zget label 0) 0xc0 =? 0.
Definition label_is_pointer (label : list Z) : bool := Z.land (zget label 0) 0xc0 =? 0xc0.
Definition label_pointer_location (label : list Z) : res Z :=
  rassert (label_is_pointer label);;
  mret (Z.lor (Z.shiftl (Z.land (zget label 0) (Z.lnot 0xc0)) 8) (zget label 1)).
Definition label_length (label : list Z) : res Z :=
  rassert (label_is_normal label);; mret (zget label 0).
Definition label_data (label : list Z) : res (list Z) :=
  rassert (label_is_normal label);; mret (drop 1 label).
Definition label_is_root (label : list Z) : bool := zget label 0 =? 0.
Definition label_is_wildcard (label : list Z) : bool :=
  (zget label 0 =? 1) && (zget label 1 =? 42).
Definition label_next (label : list Z) : res (list Z) :=
  rassert (label_is_normal label);;
  rassert (negb (label_is_root label));;
  n ← label_length label;
  mret (drop (Z.to_nat (n + 1)) label).

(** [tolower] in the C locale, the default [DNAME_NORMALIZE]. *)
Definition DNAME_NORMALIZE (c : Z) : Z := if (65 <=? c) && (c <=? 90) then c + 32 else c.

(** [memcmp] over the first [n] bytes: the sign is what counts. *)
Fixpoint memcmp (l r : list Z) (n : nat) {struct n} : Z :=
  match n, l, r with
  | S n, a :: l, b :: r => if a =? b then memcmp l r n else a - b
  | _, _, _ => 0
  end.

Definition label_compare (left right : list Z) : res Z :=
  rassert (label_is_normal left);;
  rassert (label_is_normal right);;
  left_length ← label_length left;
  right_length ← label_length right;
  let size := if left_length <? right_length then left_length else right_length in
  dl ← label_data left;
  dr ← label_data right;
  let result := memcmp dl dr (Z.to_nat size) in
  if negb (result =? 0) then mret result else mret (left_length - right_length).

(** * The name structure *)
Record dname_type := mkdname {
  name_size : Z;
  label_count : Z;
  dname_label_offsets : list Z;
  dname_name : list Z;
}.

Definition dname_label (dname : dname_type) (label : Z) : res (list Z) :=
  rassert (label <? label_count dname);;
  let label_index := zget (dname_label_offsets dname) label in
  rassert (label_index <? name_size dname);;
  mret (drop (Z.to_nat label_index) (dname_name dname)).

Definition dname_total_size (dname : dname_type) : Z := 2 + (label_count dname + name_size dname).

(** The copying loop of [dname_make] with [normalize] set. *)
Definition normalize_copy_step (st : list Z * list Z) : res (list Z * list Z + list Z) :=
  let '(dst, src) := st in
  c ← deref src;
  if label_is_root src then mret (inr (dst ++ [c]))
  else
    len ← label_length src;
    mret (inl (dst ++ c :: (DNAME_NORMALIZE <$> zslice src 1 len),
               drop (Z.to_nat (len + 1)) src)).

Definition normalize_copy (src : list Z) : res (list Z) :=
  iter (S (length src)) normalize_copy_step ([], src).

(** The loop that finds the labels: offsets, count and size, or [None] at a
    compression pointer.  The offsets array has [MAXDOMAINLEN] places. *)
Definition dname_make_scan_step (name : list Z) (st : list Z * Z * Z * list Z) :
    res (list Z * Z * Z * list Z + option (list Z * Z * Z)) :=
  let '(label_offsets, label_count, name_size, label) := st in
  _ ← deref label;
  if label_is_pointer label then mret (inr None)
  else
    rassert (label_count <? MAXDOMAINLEN);;
    let label_offsets := label_offsets ++ [u8 (zlength name - zlength label)] in
    let label_count := u8 (label_count + 1) in
    len ← label_length label;
    let name_size := name_size + len + 1 in
    if label_is_root label then mret (inr (Some (label_offsets, label_count, name_size)))
    else
      label ← label_next label;
      mret (inl (label_offsets, label_count, name_size, label)).

Definition dname_make_scan (name : list Z) : res (option (list Z * Z * Z)) :=
  iter (S (length name)) (dname_make_scan_step name) ([], 0, 0, name).

Definition dname_make (name : list Z) (normalize : bool) : res (option dname_type) :=
  r ← dname_make_scan name;
  match r with
  | None => mret None
  | Some (label_offsets, label_count, name_size) =>
      if MAXDOMAINLEN <? name_size then mret None
      else
        rassert (label_count <=? MAXDOMAINLEN / 2 + 1);;
        name' ← (if normalize then normalize_copy name
                 else rassert (name_size <=? zlength name);;
                      mret (take (Z.to_nat name_size) name));
        mret (Some (mkdname name_size label_count (reverse label_offsets) name'))
  end.

(** * Names in packets *)
Definition get_bit (bits : list Z) (index : Z) : bool :=
  negb (Z.land (zget bits (index / 8)) (Z.shiftl 1 (7 - index mod 8)) =? 0).
Definition set_bit (bits : list Z) (index : Z) : list Z :=
  <[Z.to_nat (index / 8) :=
      Z.lor (zget bits (index / 8)) (Z.shiftl 1 (7 - index mod 8))]> bits.
Definition clear_bit (bits : list Z) (index : Z) : list Z :=
  <[Z.to_nat (index / 8) :=
      Z.land (zget bits (index / 8)) (Z.lnot (Z.shiftl 1 (7 - index mod 8)))]> bits.

(** Loop variables: the bitmap of visited positions, the name read so far and
    [mark], the position after the first pointer or -1.  The result is the
    name, or [None] where the code returns 0. *)
Definition dname_wire_step (allow_pointers : bool) (st : list Z * list Z * Z) :
    Buf (list Z * list Z * Z + option (list Z * Z)) :=
  let '(visited, buf, mark) := st in
  a ← buffer_available 1;
  if negb a then mret (inr None) else
  pos ← buffer_position;
  if get_bit visited pos then mret (inr None) else
  let visited := set_bit visited pos in
  cur ← buffer_current;
  b ← st_get;
  let label := drop (Z.to_nat cur) (_data b) in
  if label_is_pointer label then
    if negb allow_pointers then mret (inr None) else
    a ← buffer_available 2;
    if negb a then mret (inr None) else
    pointer ← lift (label_pointer_location label);
    limit ← buffer_limit;
    if limit <=? pointer then mret (inr None) else
    buffer_skip 2;;
    pos ← buffer_position;
    let mark := if mark =? -1 then pos else mark in
    buffer_set_position pointer;;
    mret (inl (visited, buf, mark))
  else if label_is_normal label then
    len ← lift (label_length label);
    let length := len + 1 in
    let done := label_is_root label in
    a ← buffer_available length;
    if negb a then mret (inr None) else
    if MAXDOMAINLEN + 1 <=? zlength buf + length then mret (inr None) else
    d ← buffer_read length;
    let buf := buf ++ d in
    if done then mret (inr (Some (buf, mark))) else mret (inl (visited, buf, mark))
  else mret (inr None).

(** The bitmap is an automatic array for [MAX_PACKET_SIZE] positions; clearing
    more than that is a wild store. *)
Definition dname_make_wire_from_packet (allow_pointers : bool) : Buf (option (list Z)) :=
  b0 ← st_get;
  st_assert ((_limit b0 + 7) / 8 <=? (MAX_PACKET_SIZE + 7) / 8);;
  let visited := replicate (Z.to_nat ((_limit b0 + 7) / 8)) 0 in
  r ← st_iter (S (Z.to_nat (_limit b0))) (dname_wire_step allow_pointers) (visited, [], -1);
  match r with
  | None => mret None
  | Some (buf, mark) =>
      (if negb (mark =? -1) then buffer_set_position mark else mret tt);;
      mret (Some buf)
  end.

Definition dname_make_from_packet (allow_pointers normalize : bool) : Buf (option dname_type) :=
  r ← dname_make_wire_from_packet allow_pointers;
  match r with
  | None => mret None
  | Some buf => lift (dname_make buf normalize)
  end.

(** * Names from text *)
Definition isdigit (c : Z) : bool := (48 <=? c) && (c <=? 57).
Definition isalnum (c : Z) : bool :=
  isdigit c || ((65 <=? c) && (c <=? 90)) || ((97 <=? c) && (c <=? 122)).

(** [hexdigit_to_int] (util.c); anything else aborts. *)
Definition hexdigit_to_int (ch : Z) : res Z :=
  if isdigit ch then mret (ch - 48)
  else if (97 <=? ch) && (ch <=? 102) then mret (ch - 97 + 10)
  else if (65 <=? ch) && (ch <=? 70) then mret (ch - 65 + 10)
  else Assert_failed.

(** A store to the [MAXDOMAINLEN] bytes the caller gave. *)
Definition mem_set (mem : list Z) (i v : Z) : res (list Z) :=
  rassert ((0 <=? i) && (i <? zlength mem));; mret (<[Z.to_nat i := v]> mem).

(** The value written by a backslash escape, if any, and the number of
    characters consumed before the loop's own increment. *)
Definition dname_parse_escape (s : list Z) : res (option Z * Z) :=
  if isdigit (zget s 1) && isdigit (zget s 2) && isdigit (zget s 3) then
    a ← hexdigit_to_int (zget s 1);
    b ← hexdigit_to_int (zget s 2);
    c ← hexdigit_to_int (zget s 3);
    let val := a * 100 + b * 10 + c in
    if (0 <=? val) && (val <=? 255) then mret (Some val, 3)
    else mret (Some (zget s 1), 1)
  else if negb (zget s 1 =? 0) then mret (Some (zget s 1), 1)
  else mret (None, 0).

(** One round of the parsing loop; [s] is the rest of the C string, without
    its terminating zero, [h] and [p] are offsets into [dname]. *)
Definition dname_parse_step (st : list Z * Z * Z * list Z) :
    res ((list Z * Z * Z * list Z) + (list Z * option (Z * Z))) :=
  let '(dname, h, p, s) := st in
  match s with
  | [] => mret (inr (dname, Some (h, p)))
  | c :: s' =>
      if MAXDOMAINLEN <=? p then mret (inr (dname, None)) else
      if c =? 46 then
        if p =? h + 1 then mret (inr (dname, None)) else
        let label_length := p - h - 1 in
        if MAXLABELLEN <? label_length then mret (inr (dname, None)) else
        dname ← mem_set dname h (u8 label_length);
        mret (inl (dname, p, p + 1, s'))
      else if c =? 92 then
        '(v, used) ← dname_parse_escape s;
        dname ← match v with
                | Some v => mem_set dname p (u8 v)
                | None => mret dname
                end;
        mret (inl (dname, h, p + 1, drop (Z.to_nat used) s'))
      else
        dname ← mem_set dname p c;
        mret (inl (dname, h, p + 1, s'))
  end.

(** The memory after the call and the return value. *)
Definition dname_parse_wire (dname : list Z) (name : list Z) : res (list Z * Z) :=
  if decide (name = [46]) then
    dname ← mem_set dname 0 0; mret (dname, 1)
  else
    '(dname, r) ← iter (S (length name)) dname_parse_step (dname, 0, 1, name);
    match r with
    | None => mret (dname, 0)
    | Some (h, p) =>
        let label_length := p - h - 1 in
        if negb (p =? h + 1) && (MAXLABELLEN <? label_length) then mret (dname, 0) else
        '(dname, h) ← (if negb (p =? h + 1) then
                         dname ← mem_set dname h (u8 label_length); mret (dname, p)
                       else mret (dname, h));
        if MAXDOMAINLEN <=? h then mret (dname, 0) else
        dname ← mem_set dname h 0;
        mret (dname, p)
    end.

(** [junk] is the uninitialised automatic array. *)
Definition dname_parse (junk : list Z) (name : list Z) : res (option dname_type) :=
  '(dname, n) ← dname_parse_wire junk name;
  if n =? 0 then mret None else dname_make dname true.

(** * Operations on names *)
Definition dname_copy (dname : dname_type) : dname_type := dname.

Definition dname_partial_copy (dname : dname_type) (label_count_ : Z) : res (option dname_type) :=
  let label_count_ := if label_count_ =? 0 then 1 else label_count_ in
  rassert (label_count_ <=? label_count dname);;
  l ← dname_label dname (label_count_ - 1);
  dname_make l false.

Definition dname_origin (dname : dname_type) : res (option dname_type) :=
  dname_partial_copy dname (label_count dname - 1).

(** The comparison of the labels with index [i] of both names. *)
Definition dname_label_compare (left right : dname_type) (i : Z) : res Z :=
  l ← dname_label left i;
  r ← dname_label right i;
  label_compare l r.

Definition dname_is_subdomain (left right : dname_type) : res bool :=
  if label_count left <? label_count right then mret false
  else iter (S (Z.to_nat (label_count right))) (fun i =>
    if i <? label_count right then
      c ← dname_label_compare left right i;
      if negb (c =? 0) then mret (inr false) else mret (inl (i + 1))
    else mret (inr true)) 1.

(** The shortcut for equal pointers returns what the loop computes on two
    equal names, see [dname_compare_refl]. *)
Definition dname_compare (left right : dname_type) : res Z :=
  let label_count_ := if label_count left <=? label_count right
                      then label_count left else label_count right in
  iter (S (Z.to_nat label_count_)) (fun i =>
    if i <? label_count_ then
      result ← dname_label_compare left right i;
      if negb (result =? 0) then mret (inr result) else mret (inl (i + 1))
    else mret (inr (label_count left - label_count right))) 1.

Definition dname_label_match_count (left right : dname_type) : res Z :=
  iter (S (Z.to_nat (label_count left))) (fun i =>
    if (i <? label_count left) && (i <? label_count right) then
      c ← dname_label_compare left right i;
      if negb (c =? 0) then mret (inr i) else mret (inl (i + 1))
    else mret (inr i)) 1.

Definition dname_make_from_label (label : list Z) (length : Z) : res (option dname_type) :=
  rassert ((0 <? length) && (length <=? MAXLABELLEN));;
  dname_make (u8 length :: take (Z.to_nat length) label ++ [0]) true.

Definition dname_concatenate (left right : dname_type) : res (option dname_type) :=
  rassert (name_size left + name_size right - 1 <=? MAXDOMAINLEN);;
  dname_make (take (Z.to_nat (name_size left - 1)) (dname_name left) ++ dname_name right) false.

Definition dname_replace (name src dest : dname_type) : res (option dname_type) :=
  let x_labels := label_count name - label_count src in
  let x_len := name_size name - name_size src in
  sub ← dname_is_subdomain name src;
  rassert sub;;
  if MAXDOMAINLEN <? x_len + name_size dest then mret None else
  let res_count := u8 (x_labels + label_count dest) in
  let res := mkdname (u8 (x_len + name_size dest)) res_count
    (((fun o => u8 (o + x_len)) <$> take (Z.to_nat (label_count dest)) (dname_label_offsets dest)) ++
     zslice (dname_label_offsets name) (label_count src) (res_count - label_count dest))
    (take (Z.to_nat x_len) (dname_name name) ++ dname_name dest) in
  sub ← dname_is_subdomain res dest;
  rassert sub;;
  mret (Some res).

(** * Printing *)

(** "%03u" of a byte after a backslash. *)
Definition escape_decimal (ch : Z) : list Z :=
  [92; 48 + ch / 100 mod 10; 48 + ch / 10 mod 10; 48 + ch mod 10].

(** One character; [star] tells whether '*' is printed as it is. *)
Definition print_char (star : bool) (ch : Z) : list Z :=
  if isalnum ch || (ch =? 45) || (ch =? 95) || (star && (ch =? 42)) then [ch]
  else if (ch =? 46) || (ch =? 92) then [92; ch]
  else escape_decimal ch.

Fixpoint dname_to_string_labels (star : bool) (n : nat) (src : list Z) : res (list Z) :=
  match n with
  | O => mret []
  | S n =>
      len ← label_length src;
      rassert (len + 1 <=? zlength src);;
      rest ← dname_to_string_labels star n (drop (Z.to_nat (len + 1)) src);
      mret (concat (print_char star <$> zslice src 1 len) ++ [46] ++ rest)
  end.

(** The text without its terminating zero.  A relative name loses its last
    dot; the store of the zero before the start of [buf] is a failed
    assertion. *)
Definition dname_to_string (dname : dname_type) (origin : option dname_type) : res (list Z) :=
  if label_count dname =? 1 then mret [46] else
  conv ←
    match origin with
    | Some origin =>
        sub ← dname_is_subdomain dname origin;
        if (sub : bool) then
          common_labels ← dname_label_match_count dname origin;
          mret (label_count dname - common_labels, false)
        else mret (label_count dname - 1, true)
    | None => mret (label_count dname - 1, true)
    end;
  let '(labels_to_convert, absolute) := conv : Z * bool in
  text ← dname_to_string_labels false (Z.to_nat labels_to_convert) (dname_name dname);
  if absolute then mret text
  else rassert (negb (zlength text =? 0));; mret (take (length text - 1) text).

Definition wirelabel2str (label : list Z) : res (list Z) :=
  lablen ← deref label;
  rassert (lablen + 1 <=? zlength label);;
  mret (concat (print_char false <$> zslice label 1 lablen)).

Definition wiredname2str (dname : list Z) : res (list Z) :=
  c ← deref dname;
  if c =? 0 then mret [46] else
  iter (S (length dname)) (fun '(p, dname) =>
    lablen ← deref dname;
    if lablen =? 0 then mret (inr p) else
    rassert (lablen + 1 <=? zlength dname);;
    mret (inl (p ++ concat (print_char true <$> zslice dname 1 lablen) ++ [46],
               drop (Z.to_nat (lablen + 1)) dname))) ([] : list Z, dname).

(** Labels are compared in lower case; a pointer or a cut label compares the
    rest byte by byte. *)
Definition dname_equal_nocase_step (st : list Z * list Z * Z) :
    res (list Z * list Z * Z + bool) :=
  let '(a, b, len) := st in
  if 0 <? len then
    ca ← deref a;
    cb ← deref b;
    if negb (ca =? cb) then mret (inr false) else
    let lablen := ca in
    let a := drop 1 a in
    let b := drop 1 b in
    let len := len - 1 in
    if negb (Z.land lablen 0xc0 =? 0) || (len <? lablen) then
      mret (inr (memcmp a b (Z.to_nat len) =? 0))
    else
      rassert ((lablen <=? zlength a) && (lablen <=? zlength b));;
      if decide ((DNAME_NORMALIZE <$> zslice a 0 lablen) = (DNAME_NORMALIZE <$> zslice b 0 lablen))
      then mret (inl (drop (Z.to_nat lablen) a, drop (Z.to_nat lablen) b, len - lablen))
      else mret (inr false)
  else mret (inr true).

Definition dname_equal_nocase (a b : list Z) (len : Z) : res bool :=
  iter (S (Z.to_nat len)) dname_equal_nocase_step (a, b, len).
