(* ===== verification/DnameProofs.v ===== *)
(** Theorems about the domain names of Dname.v.  A name is specified by its
    list of labels, the host label first; [wire] is its wire format and
    [of_labels] its in-memory form. *)

From S2P Require Import Prelude Buffer Dname.

(** * Specification *)
Definition label_ok (l : list Z) : Prop := 1 <= zlength l <= 63 /\ Forall byte l.

Fixpoint wire (ls : list (list Z)) : list Z :=
  match ls with
  | [] => [0]
  | l :: ls => zlength l :: l ++ wire ls
  end.

Definition name_ok (ls : list (list Z)) : Prop :=
  Forall label_ok ls /\ zlength (wire ls) <= MAXDOMAINLEN.

(** Positions of the labels of a name that starts at [p], the root last. *)
Fixpoint starts (p : Z) (ls : list (list Z)) : list Z :=
  match ls with
  | [] => [p]
  | l :: ls => p :: starts (p + zlength l + 1) ls
  end.

Definition of_labels (ls : list (list Z)) : dname_type :=
  mkdname (zlength (wire ls)) (zlength ls + 1) (reverse (starts 0 ls)) (wire ls).

Definition normalize (ls : list (list Z)) : list (list Z) :=
  (fun l : list Z => DNAME_NORMALIZE <$> l) <$> ls.

Definition label_cmp : list Z -> list Z -> Z := lex Z.sub.
Definition name_cmp (a b : list (list Z)) : Z := lex label_cmp (reverse a) (reverse b).

#[export] Instance label_ok_dec l : Decision (label_ok l).
Proof. unfold label_ok. apply _. Defined.
#[export] Instance name_ok_dec ls : Decision (name_ok ls).
Proof. unfold name_ok. apply _. Defined.

(** The order of names is a lawful comparison. *)
#[export] Instance name_cmp_lawful : LawfulCompare name_cmp.
Proof.
  assert (LawfulCompare (lex label_cmp)) as L by apply _.
  split; unfold name_cmp; intros.
  - rewrite cmp_eq. split; [apply (inj reverse)|congruence].
  - apply cmp_swap.
  - by eapply cmp_trans.
Qed.

(** * Labels in memory *)

(** The two top bits of a byte. *)
Lemma land_c0 c : byte c ->
  (Z.land c 0xc0 =? 0) = (c <? 64) /\ (Z.land c 0xc0 =? 0xc0) = (192 <=? c).
Proof.
  intros Hc. apply (byte_forall (fun c => eqb (Z.land c 0xc0 =? 0) (c <? 64) &&
    eqb (Z.land c 0xc0 =? 0xc0) (192 <=? c)) ltac:(by vm_compute)) in Hc.
  apply andb_prop in Hc as [H1 H2]. by apply eqb_prop in H1, H2.
Qed.

Section label_head.
Context (l rest : list Z) (Hl : label_ok l).
Let mem := zlength l :: l ++ rest.

Lemma label_len_byte : byte (zlength l).
Proof using Hl. destruct Hl. unfold byte. lia. Qed.

Lemma label_head_normal : label_is_normal mem = true.
Proof using Hl.
  unfold label_is_normal, mem. rewrite zget_0.
  rewrite (proj1 (land_c0 _ label_len_byte)). destruct Hl. lia.
Qed.

Lemma label_head_pointer : label_is_pointer mem = false.
Proof using Hl.
  unfold label_is_pointer, mem. rewrite zget_0.
  rewrite (proj2 (land_c0 _ label_len_byte)). destruct Hl. lia.
Qed.

Lemma label_head_root : label_is_root mem = false.
Proof using Hl. unfold label_is_root, mem. rewrite zget_0. destruct Hl. lia. Qed.

Lemma label_head_length : label_length mem = Ok (zlength l).
Proof using Hl. unfold label_length. by rewrite label_head_normal. Qed.

Lemma label_head_skip : drop (Z.to_nat (zlength l + 1)) mem = rest.
Proof using.
  unfold mem, zlength. replace (Z.to_nat _) with (S (length l)) by lia.
  simpl. apply drop_app_length.
Qed.

Lemma label_head_next : label_next mem = Ok rest.
Proof using Hl.
  unfold label_next. rewrite label_head_normal, label_head_root. simpl.
  rewrite label_head_length. simpl. unfold mret, res_ret. by rewrite label_head_skip.
Qed.

Lemma label_head_slice : zslice mem 1 (zlength l) = l.
Proof using.
  unfold zslice, mem, zlength. rewrite Nat2Z.id. simpl. apply take_app_length.
Qed.
End label_head.

Lemma root_normal rest : label_is_normal (0 :: rest) = true.
Proof. done. Qed.
Lemma root_length rest : label_length (0 :: rest) = Ok 0.
Proof. done. Qed.

Lemma zlength_wire ls : 1 <= zlength (wire ls).
Proof. destruct ls; unfold zlength; simpl; lia. Qed.

Lemma zlength_wire_cons l ls :
  zlength (wire (l :: ls)) = zlength l + 1 + zlength (wire ls).
Proof. simpl. zlist. lia. Qed.

Lemma wire_count ls : Forall label_ok ls -> 2 * zlength ls + 1 <= zlength (wire ls).
Proof.
  induction 1 as [|l ls [Hl _] _ IH]; [done|].
  rewrite zlength_wire_cons, zlength_cons. lia.
Qed.

(** [of_labels] names with at most 127 labels: no counter of the code wraps. *)
Lemma name_ok_count ls : name_ok ls -> zlength ls <= 127.
Proof. intros [H1 H2]. pose proof (wire_count ls H1). unfold MAXDOMAINLEN in *. lia. Qed.

Lemma length_starts p ls : length (starts p ls) = S (length ls).
Proof. revert p. induction ls; intros; simpl; auto. Qed.

Lemma starts_range ls : forall p, 0 <= p -> Forall label_ok ls ->
  Forall (fun o => p <= o < p + zlength (wire ls)) (starts p ls).
Proof.
  induction ls as [|l ls IH]; intros p Hp Hls; cbn [starts].
  - repeat constructor; simpl; zlist; lia.
  - apply Forall_cons_1 in Hls as [[Hl _] Hls].
    rewrite (zlength_wire_cons l ls). pose proof (zlength_wire ls).
    constructor; [lia|].
    eapply Forall_impl; [apply (IH (p + zlength l + 1)); [lia|done]|]. simpl. lia.
Qed.

Lemma u8_starts ls : name_ok ls -> u8 <$> starts 0 ls = starts 0 ls.
Proof.
  intros [H1 H2]. pose proof (starts_range ls 0 ltac:(lia) H1) as Hs.
  unfold MAXDOMAINLEN in H2. rewrite <-(list_fmap_id (starts 0 ls)) at 2.
  apply list_fmap_ext. intros i x Hx. eapply Forall_lookup_1 in Hs; [|done].
  apply u8_small. simpl in *. lia.
Qed.

(** The part of the name from its [i]-th label on sits at its start. *)
Lemma drop_starts ls : forall p i o, starts p ls !! i = Some o ->
  Forall label_ok ls -> 0 <= p ->
  forall pre, zlength pre = p -> drop (Z.to_nat o) (pre ++ wire ls) = wire (drop i ls).
Proof.
  induction ls as [|l ls IH]; intros p i o Ho Hls Hp pre Hpre.
  - destruct i as [|[]]; simplify_eq/=. unfold zlength. rewrite Nat2Z.id.
    by rewrite drop_app_length.
  - apply Forall_cons_1 in Hls as [Hl Hls]. destruct i as [|i]; simplify_eq/=.
    + unfold zlength at 1. by rewrite Nat2Z.id, drop_app_length.
    + specialize (IH _ _ _ Ho Hls ltac:(destruct Hl; lia) (pre ++ zlength l :: l)).
      rewrite <-IH by (zlist; lia). f_equal. by rewrite <-app_assoc.
Qed.

(** * dname_make *)

(** The labels without the root label that ends a name. *)
Fixpoint stem (ls : list (list Z)) : list Z :=
  match ls with
  | [] => []
  | l :: ls => zlength l :: l ++ stem ls
  end.

Lemma wire_stem ls : wire ls = stem ls ++ [0].
Proof. induction ls as [|l ls IH]; simpl; [done|]. by rewrite IH, app_assoc. Qed.

(** Positions of the labels of a stem that starts at [p]. *)
Fixpoint stem_starts (p : Z) (ls : list (list Z)) : list Z :=
  match ls with
  | [] => []
  | l :: ls => p :: stem_starts (p + zlength l + 1) ls
  end.

Lemma starts_stem ls : forall p, starts p ls = stem_starts p ls ++ [p + zlength (stem ls)].
Proof.
  induction ls as [|l ls IH]; intros p; simpl; [f_equal; zlist; lia|].
  rewrite IH. do 3 f_equal. zlist. lia.
Qed.

(** One round of the scan over a label. *)
Lemma scan_step_label name l rest offs cnt size :
  label_ok l -> 0 <= cnt < 255 ->
  dname_make_scan_step name (offs, cnt, size, zlength l :: l ++ rest) =
  Ok (inl (offs ++ [u8 (zlength name - zlength (zlength l :: l ++ rest))],
           cnt + 1, size + zlength l + 1, rest)).
Proof.
  intros Hl Hc. unfold dname_make_scan_step.
  rewrite label_head_pointer, label_head_length, label_head_root, label_head_next by done.
  unfold MAXDOMAINLEN. rewrite (proj2 (Z.ltb_lt cnt 255)) by lia. simpl.
  rewrite (u8_small (cnt + 1)) by lia. done.
Qed.

Lemma scan_stem name ls : forall fuel tail offs cnt size,
  Forall label_ok ls -> 0 <= cnt -> cnt + zlength ls <= 255 -> (length ls <= fuel)%nat ->
  iter fuel (dname_make_scan_step name) (offs, cnt, size, stem ls ++ tail) =
  iter (fuel - length ls) (dname_make_scan_step name)
    (offs ++ (u8 <$> stem_starts (zlength name - zlength (stem ls ++ tail)) ls),
     cnt + zlength ls, size + zlength (stem ls), tail).
Proof.
  induction ls as [|l ls IH]; intros fuel tail offs cnt size Hls Hc Hcnt Hfuel.
  - simpl. rewrite app_nil_r, Nat.sub_0_r, zlength_nil, !Z.add_0_r. done.
  - apply Forall_cons in Hls as [Hl Hls]. rewrite zlength_cons in Hcnt.
    pose proof (zlength_nonneg ls).
    destruct fuel as [|fuel]; cbn [length] in Hfuel; [lia|].
    cbn [stem app iter length]. rewrite <-app_assoc, scan_step_label by (done || lia).
    cbn iota. rewrite IH by (done || lia). f_equal.
    cbn [stem_starts fmap list_fmap]. rewrite <-app_assoc. cbn [app].
    zlist. eq_lia.
Qed.

Lemma scan_wire name ls rest :
  name = wire ls ++ rest -> Forall label_ok ls -> zlength ls <= 254 ->
  dname_make_scan name =
    Ok (Some (u8 <$> starts 0 ls, zlength ls + 1, zlength (wire ls))).
Proof.
  intros Hname Hls Hn. unfold dname_make_scan. rewrite Hname at 3.
  rewrite wire_stem, <-app_assoc. cbn [app].
  assert (length ls <= length name)%nat.
  { pose proof (wire_count ls Hls). pose proof (zlength_nonneg ls).
    rewrite Hname, length_app. unfold zlength in *. lia. }
  rewrite scan_stem by (done || lia || (unfold zlength; lia)).
  replace (S (length name) - length ls)%nat with (S (length name - length ls)) by lia.
  cbn [iter]. unfold dname_make_scan_step.
  cbn [deref mbind res_bind label_is_pointer label_length label_is_root].
  change (label_is_pointer (0 :: rest)) with false.
  change (label_length (0 :: rest)) with (Ok 0).
  change (label_is_root (0 :: rest)) with true.
  unfold MAXDOMAINLEN. pose proof (zlength_nonneg ls).
  rewrite (proj2 (Z.ltb_lt (0 + zlength ls) 255)) by lia.
  cbn [rassert mbind res_bind mret res_ret].
  rewrite (u8_small (0 + zlength ls + 1)) by lia.
  assert (Hz : zlength name = zlength (stem ls) + 1 + zlength rest).
  { rewrite Hname, wire_stem. zlist. lia. }
  rewrite starts_stem, fmap_app. cbn [fmap list_fmap app].
  zlist. rewrite Hz. eq_lia.
Qed.

Lemma scan_pointer ls c rest :
  Forall label_ok ls -> zlength ls <= 254 -> 192 <= c < 256 ->
  dname_make_scan (stem ls ++ c :: rest) = Ok None.
Proof.
  intros Hls Hn Hc. unfold dname_make_scan.
  assert (length ls <= length (stem ls ++ c :: rest))%nat.
  { pose proof (wire_count ls Hls) as H. rewrite wire_stem in H. rewrite length_app.
    zlist. pose proof (zlength_nonneg ls). unfold zlength in *. simpl. lia. }
  rewrite scan_stem by (done || lia || (unfold zlength; lia)).
  rewrite Nat.sub_succ_l by done. cbn [iter].
  unfold dname_make_scan_step. cbn [deref mbind res_bind].
  unfold label_is_pointer. rewrite zget_0, (proj2 (land_c0 c ltac:(unfold byte; lia))).
  by rewrite (proj2 (Z.leb_le 192 c)) by lia.
Qed.

(** The copying loop lower-cases the data of every label. *)
Lemma normalize_copy_wire ls : forall fuel dst rest,
  Forall label_ok ls -> (length ls < fuel)%nat ->
  iter fuel normalize_copy_step (dst, wire ls ++ rest) = Ok (dst ++ wire (normalize ls)).
Proof.
  induction ls as [|l ls IH]; intros fuel dst rest Hls Hfuel;
    (destruct fuel as [|fuel]; [simpl in Hfuel; lia|]); [done|].
  apply Forall_cons in Hls as [Hl Hls]. cbn [wire app iter]. rewrite <-app_assoc.
  unfold normalize_copy_step at 1. cbn [deref mbind res_bind].
  rewrite label_head_root, label_head_length by done.
  cbn [mbind res_bind mret res_ret]. rewrite label_head_skip, label_head_slice. rewrite IH by (done || (simpl in Hfuel; lia)).
  rewrite <-app_assoc. unfold normalize. rewrite fmap_cons. cbn [wire app].
  by rewrite zlength_fmap.
Qed.

Lemma normalize_label l : label_ok l -> label_ok (DNAME_NORMALIZE <$> l).
Proof.
  intros [H1 H2]. split; [by rewrite zlength_fmap|].
  apply Forall_fmap. eapply Forall_impl; [done|]. unfold byte, DNAME_NORMALIZE. simpl.
  intros x Hx. case_match; bool_simpl; lia.
Qed.

Lemma starts_normalize ls : forall p, starts p (normalize ls) = starts p ls.
Proof.
  induction ls as [|l ls IH]; intros p; simpl; [done|].
  f_equal. unfold normalize in IH. by rewrite IH, zlength_fmap.
Qed.

Lemma zlength_normalize ls : zlength (normalize ls) = zlength ls.
Proof. unfold normalize. by rewrite zlength_fmap. Qed.

Lemma zlength_wire_normalize ls : zlength (wire (normalize ls)) = zlength (wire ls).
Proof.
  induction ls as [|l ls IH]; [done|]. unfold normalize in *. rewrite fmap_cons.
  by rewrite !zlength_wire_cons, IH, zlength_fmap.
Qed.

Lemma name_ok_normalize ls : name_ok ls -> name_ok (normalize ls).
Proof.
  intros [H1 H2]. split; [|by rewrite zlength_wire_normalize].
  apply Forall_fmap. eapply Forall_impl; [done|]. apply normalize_label.
Qed.

Lemma dname_make_wire ls rest norm : name_ok ls ->
  dname_make (wire ls ++ rest) norm =
    Ok (Some (of_labels (if norm then normalize ls else ls))).
Proof.
  intros Hok. pose proof Hok as [Hls Hlen]. pose proof (name_ok_count ls Hok).
  unfold dname_make. rewrite (scan_wire _ ls rest) by (done || lia).
  cbn [mbind res_bind]. rewrite (proj2 (Z.ltb_ge _ _) Hlen).
  rewrite (proj2 (Z.leb_le (zlength ls + 1) _)) by (unfold MAXDOMAINLEN; dlia).
  cbn [rassert mbind res_bind]. rewrite u8_starts by done.
  destruct norm.
  - unfold normalize_copy. rewrite normalize_copy_wire; [|done|].
    + unfold of_labels.
      by rewrite starts_normalize, zlength_normalize, zlength_wire_normalize.
    + pose proof (wire_count ls Hls). rewrite length_app. unfold zlength in *. lia.
  - rewrite (proj2 (Z.leb_le _ _)); [|zlist; pose proof (zlength_nonneg rest); lia].
    cbn. unfold zlength at 3. by rewrite Nat2Z.id, take_app_length.
Qed.

(** A name that is too long for the protocol is refused. *)
Lemma dname_make_long ls rest norm :
  Forall label_ok ls -> zlength ls <= 254 -> MAXDOMAINLEN < zlength (wire ls) ->
  dname_make (wire ls ++ rest) norm = Ok None.
Proof.
  intros Hls Hn Hlen. unfold dname_make. rewrite (scan_wire _ ls rest) by done.
  cbn [mbind res_bind]. by rewrite (proj2 (Z.ltb_lt _ _) Hlen).
Qed.

(** [dname_make] on every kind of well-delimited input: a
    wire name of at most 255 bytes gives the structure with its size, label
    count, reversed offsets and (lower-cased) bytes; a longer one gives NULL;
    a compression pointer after some labels gives NULL. *)
Theorem dname_make_correct ls rest norm :
  Forall label_ok ls -> zlength ls <= 254 ->
  dname_make (wire ls ++ rest) norm =
    Ok (if decide (zlength (wire ls) <= MAXDOMAINLEN)
        then Some (of_labels (if norm then normalize ls else ls)) else None) /\
  forall c, 192 <= c < 256 -> dname_make (stem ls ++ c :: rest) norm = Ok None.
Proof.
  intros Hls Hn. split.
  - case_decide; [by apply dname_make_wire|apply dname_make_long; (done || lia)].
  - intros c Hc. unfold dname_make. by rewrite scan_pointer.
Qed.

(** "a.Bc" followed by a byte that is not part of the name, and a pointer. *)
Lemma dname_make_witness :
  dname_make (wire [[97]; [66; 99]] ++ [7]) true =
    Ok (if decide (zlength (wire [[97]; [66; 99]]) <= MAXDOMAINLEN)
        then Some (of_labels (if true then normalize [[97]; [66; 99]] else [[97]; [66; 99]]))
        else None) /\
  forall c, 192 <= c < 256 -> dname_make (stem [[97]; [66; 99]] ++ c :: [7]) true = Ok None.
Proof.
  apply dname_make_correct; [by apply (bool_decide_unpack _)|vm_compute; done].
Defined.

(** * Comparison *)

Lemma memcmp_lex a : forall b ra rb,
  lex Z.sub a b =
  let result := memcmp (a ++ ra) (b ++ rb) (length a `min` length b) in
  if result =? 0 then zlength a - zlength b else result.
Proof.
  induction a as [|x a IH]; intros [|y b] ra rb; cbn [lex length Nat.min memcmp];
    [done|done|done|].
  cbn [app memcmp]. destruct (Z.eqb_spec (x - y) 0) as [E|E], (Z.eqb_spec x y); try lia.
  - rewrite (IH b ra rb), !zlength_cons. cbv zeta. case_match; lia.
  - cbv zeta. by rewrite (proj2 (Z.eqb_neq (x - y) 0)) by lia.
Qed.

Lemma label_compare_spec a b ra rb : label_ok a -> label_ok b ->
  label_compare (zlength a :: a ++ ra) (zlength b :: b ++ rb) = Ok (label_cmp a b).
Proof.
  intros Ha Hb. unfold label_compare, label_data, label_cmp.
  rewrite !label_head_normal, !label_head_length by done.
  cbn [rassert mbind res_bind mret res_ret drop]. rewrite (memcmp_lex a b ra rb). cbv zeta.
  replace (Z.to_nat _) with (length a `min` length b)%nat
    by (unfold zlength; case_match; bool_simpl; lia).
  by destruct (_ =? 0).
Qed.

Lemma dname_label_spec ls i : name_ok ls -> 0 <= i <= zlength ls ->
  dname_label (of_labels ls) i = Ok (wire (drop (length ls - Z.to_nat i) ls)).
Proof.
  intros [Hls _] Hi. unfold dname_label, of_labels. simpl.
  rewrite (proj2 (Z.ltb_lt i _)) by lia. cbn [rassert mbind res_bind].
  set (k := (length ls - Z.to_nat i)%nat).
  assert (reverse (starts 0 ls) !! Z.to_nat i = starts 0 ls !! k) as E.
  { rewrite reverse_lookup by (rewrite length_starts; unfold zlength in Hi; lia).
    f_equal. rewrite length_starts. subst k. lia. }
  destruct (starts 0 ls !! k) as [o|] eqn:Eo.
  2:{ apply lookup_ge_None_1 in Eo. rewrite length_starts in Eo. subst k. lia. }
  unfold zget. rewrite E. cbn [default].
  pose proof (starts_range ls 0 ltac:(lia) Hls) as Hr.
  eapply Forall_lookup_1 in Hr; [|exact Eo]. cbn beta in Hr.
  simpl. rewrite (proj2 (Z.ltb_lt o _)) by lia. cbn.
  unfold mret, res_ret. f_equal. apply (drop_starts ls 0 k o Eo Hls ltac:(lia) []). done.
Qed.

(** The label with index [S j] is the [j]-th from the root. *)
Lemma dname_label_at ls j l : name_ok ls -> reverse ls !! j = Some l ->
  label_ok l /\ exists rest,
    dname_label (of_labels ls) (Z.of_nat j + 1) = Ok (zlength l :: l ++ rest).
Proof.
  intros Hok Hl. pose proof Hok as [Hls _].
  assert (Hj : (j < length ls)%nat).
  { apply lookup_lt_Some in Hl. by rewrite length_reverse in Hl. }
  assert (El : ls !! (length ls - S j)%nat = Some l) by (rewrite <-Hl; by rewrite reverse_lookup).
  split; [by eapply Forall_lookup_1|].
  exists (wire (drop (S (length ls - S j)) ls)).
  rewrite dname_label_spec by (done || unfold zlength; lia).
  replace (Z.to_nat (Z.of_nat j + 1)) with (S j) by lia.
  by rewrite (drop_S ls l) by done.
Qed.

Lemma dname_label_compare_spec a b j l r : name_ok a -> name_ok b ->
  reverse a !! j = Some l -> reverse b !! j = Some r ->
  dname_label_compare (of_labels a) (of_labels b) (Z.of_nat j + 1) = Ok (label_cmp l r).
Proof.
  intros Ha Hb Hl Hr. unfold dname_label_compare.
  destruct (dname_label_at a j l Ha Hl) as (Hl' & ra & ->).
  destruct (dname_label_at b j r Hb Hr) as (Hr' & rb & ->).
  by apply label_compare_spec.
Qed.

(** What the three loops over the labels compute. *)
Fixpoint walk {B} (stop : Z -> Z -> B) (fin : Z -> B) (i : Z) (l r : list (list Z)) : B :=
  match l, r with
  | a :: l, b :: r =>
      if label_cmp a b =? 0 then walk stop fin (i + 1) l r else stop (label_cmp a b) i
  | _, _ => fin i
  end.

Lemma iter_walk {B} (body : Z -> res (Z + B)) stop fin : forall l r i fuel,
  (forall j a b, l !! j = Some a -> r !! j = Some b ->
     body (i + Z.of_nat j) = Ok (if label_cmp a b =? 0 then inl (i + Z.of_nat j + 1)
                                 else inr (stop (label_cmp a b) (i + Z.of_nat j)))) ->
  body (i + zlength l `min` zlength r) = Ok (inr (fin (i + zlength l `min` zlength r))) ->
  (length l `min` length r < fuel)%nat ->
  iter fuel body i = Ok (walk stop fin i l r).
Proof.
  induction l as [|a l IH]; intros r i fuel Hin Hend Hfuel;
    (destruct fuel as [|fuel]; [lia|]); cbn [iter].
  { replace (i + _) with i in Hend by (unfold zlength; simpl; lia). by rewrite Hend. }
  destruct r as [|b r].
  { replace (i + _) with i in Hend by (unfold zlength; simpl; lia). by rewrite Hend. }
  pose proof (Hin 0%nat a b eq_refl eq_refl) as H0. rewrite Z.add_0_r in H0. rewrite H0.
  cbn [walk]. destruct (label_cmp a b =? 0); [|done].
  apply IH.
  - intros j x y Hx Hy. specialize (Hin (S j) x y Hx Hy).
    replace (i + 1 + Z.of_nat j) with (i + Z.of_nat (S j)) by lia. exact Hin.
  - rewrite !zlength_cons in Hend.
    replace (i + 1 + _) with (i + (zlength l + 1) `min` (zlength r + 1)) by lia. exact Hend.
  - simpl in Hfuel. lia.
Qed.

Lemma reverse_zlength {A} (l : list A) : zlength (reverse l) = zlength l.
Proof. unfold zlength. by rewrite length_reverse. Qed.

Lemma walk_compare l : forall r i k, k = zlength l - zlength r ->
  walk (fun c _ => c) (fun _ => k) i l r = lex label_cmp l r.
Proof.
  induction l as [|a l IH]; intros [|b r] i k Hk; [done..|]. simpl.
  case_match; [|done]. apply IH. rewrite !zlength_cons in Hk. lia.
Qed.

Lemma dname_compare_spec a b : name_ok a -> name_ok b ->
  dname_compare (of_labels a) (of_labels b) = Ok (name_cmp a b).
Proof.
  intros Ha Hb. unfold dname_compare. set (n := if _ <=? _ then _ else _).
  assert (Hn : n = 1 + zlength (reverse a) `min` zlength (reverse b)).
  { subst n. rewrite !reverse_zlength. simpl. case_match; bool_simpl; lia. }
  rewrite (iter_walk _ (fun c _ => c) (fun _ => zlength (reverse a) - zlength (reverse b))
             (reverse a) (reverse b)).
  - unfold name_cmp. by rewrite walk_compare.
  - intros j l r Hl Hr. rewrite (proj2 (Z.ltb_lt _ _)).
    + rewrite (Z.add_comm 1), (dname_label_compare_spec a b j l r) by done.
      cbn [mbind res_bind]. by destruct (_ =? 0).
    + apply lookup_lt_Some in Hl, Hr. unfold zlength in Hn. lia.
  - rewrite Hn, Z.ltb_irrefl. rewrite !reverse_zlength. simpl. do 2 f_equal. lia.
  - rewrite Hn. unfold zlength. lia.
Qed.

(** C15 (refinement): on the names the program builds, [dname_compare] never
    fails an assertion and its result is the lexicographic order of the label
    lists read from the root, labels compared bytewise; its sign is a total
    order in which only a name equals itself. *)
Theorem dname_compare_total_order a b c :
  name_ok a -> name_ok b -> name_ok c ->
  exists ab ba bc ac,
    dname_compare (of_labels a) (of_labels b) = Ok ab /\
    dname_compare (of_labels b) (of_labels a) = Ok ba /\
    dname_compare (of_labels b) (of_labels c) = Ok bc /\
    dname_compare (of_labels a) (of_labels c) = Ok ac /\
    ab = lex (lex Z.sub) (reverse a) (reverse b) /\
    (ab = 0 <-> a = b) /\ (ab < 0 <-> 0 < ba) /\ (ab < 0 -> bc < 0 -> ac < 0).
Proof.
  intros Ha Hb Hc. do 4 eexists. rewrite !dname_compare_spec by done.
  split_and!; try done; [apply cmp_eq|apply cmp_swap|apply cmp_trans].
Qed.

(** The root, "com" and "a.com". *)
Lemma dname_compare_witness :
  exists ab ba bc ac,
    dname_compare (of_labels []) (of_labels [[99; 111; 109]]) = Ok ab /\
    dname_compare (of_labels [[99; 111; 109]]) (of_labels []) = Ok ba /\
    dname_compare (of_labels [[99; 111; 109]]) (of_labels [[97]; [99; 111; 109]]) = Ok bc /\
    dname_compare (of_labels []) (of_labels [[97]; [99; 111; 109]]) = Ok ac /\
    ab = lex (lex Z.sub) (reverse []) (reverse [[99; 111; 109]]) /\
    (ab = 0 <-> [] = [[99; 111; 109]]) /\ (ab < 0 <-> 0 < ba) /\ (ab < 0 -> bc < 0 -> ac < 0).
Proof.
  apply (dname_compare_total_order [] [[99; 111; 109]] [[97]; [99; 111; 109]]);
    by apply (bool_decide_unpack _).
Defined.

Lemma dname_compare_refl a : name_ok a -> dname_compare (of_labels a) (of_labels a) = Ok 0.
Proof. intros. rewrite dname_compare_spec by done. f_equal. by apply cmp_eq. Qed.

Lemma walk_subdomain r : forall l i, (length r <= length l)%nat ->
  walk (fun _ _ => false) (fun _ => true) i l r = bool_decide (r `prefix_of` l).
Proof.
  induction r as [|b r IH]; intros [|a l] i Hlen; simpl in *; try lia; try done.
  destruct (Z.eqb_spec (label_cmp a b) 0) as [E|E].
  - apply (cmp_eq (cmp:=lex Z.sub)) in E as ->. rewrite IH by lia.
    apply bool_decide_ext. split; [apply prefix_cons|apply prefix_cons_inv_2].
  - symmetry. apply bool_decide_eq_false. intros H. apply prefix_cons_inv_1 in H as ->.
    by apply E, (cmp_eq (cmp:=lex Z.sub)).
Qed.

Lemma dname_is_subdomain_spec a b : name_ok a -> name_ok b ->
  dname_is_subdomain (of_labels a) (of_labels b) = Ok (bool_decide (b `suffix_of` a)).
Proof.
  intros Ha Hb. unfold dname_is_subdomain. cbn [label_count of_labels].
  destruct (Z.ltb_spec (zlength a + 1) (zlength b + 1)).
  { symmetry. f_equal. apply bool_decide_eq_false. intros [k ->]. zlist.
    pose proof (zlength_nonneg k). lia. }
  rewrite (iter_walk _ (fun _ _ => false) (fun _ => true) (reverse a) (reverse b)).
  - rewrite walk_subdomain by (rewrite !length_reverse; unfold zlength in *; lia).
    f_equal. apply bool_decide_ext. symmetry. apply suffix_prefix_reverse.
  - intros j l r Hl Hr. rewrite (proj2 (Z.ltb_lt _ _)).
    + rewrite (Z.add_comm 1), (dname_label_compare_spec a b j l r) by done.
      cbn [mbind res_bind]. by destruct (_ =? 0).
    + apply lookup_lt_Some in Hr. rewrite length_reverse in Hr. unfold zlength. lia.
  - by rewrite (proj2 (Z.ltb_ge _ _)) by (rewrite !reverse_zlength; lia).
  - rewrite !length_reverse. unfold zlength. lia.
Qed.

(** [dname_is_subdomain] decides whether the labels of the
    second name are a suffix of those of the first. *)
Theorem dname_is_subdomain_correct a b : name_ok a -> name_ok b ->
  dname_is_subdomain (of_labels a) (of_labels b) = Ok (bool_decide (b `suffix_of` a)).
Proof. apply dname_is_subdomain_spec. Qed.

Lemma dname_is_subdomain_witness :
  dname_is_subdomain (of_labels [[97]; [99; 111; 109]]) (of_labels [[99; 111; 109]]) =
    Ok (bool_decide ([[99; 111; 109]] `suffix_of` [[97]; [99; 111; 109]])).
Proof. apply dname_is_subdomain_correct; by apply (bool_decide_unpack _). Defined.

(** The longest common suffix of two names, counted in labels. *)
Fixpoint common_prefix {A} `{EqDecision A} (l r : list A) : nat :=
  match l, r with
  | a :: l, b :: r => if decide (a = b) then S (common_prefix l r) else 0%nat
  | _, _ => 0%nat
  end.
Definition common_labels (a b : list (list Z)) : Z :=
  Z.of_nat (common_prefix (reverse a) (reverse b)).

Lemma walk_match_count l : forall r i,
  walk (fun _ i => i) (fun i => i) i l r = i + Z.of_nat (common_prefix l r).
Proof.
  induction l as [|a l IH]; intros [|b r] i; simpl; try lia.
  destruct (Z.eqb_spec (label_cmp a b) 0) as [E|E].
  - apply (cmp_eq (cmp:=lex Z.sub)) in E as ->. rewrite IH, decide_True by done. lia.
  - rewrite decide_False; [lia|]. intros ->. by apply E, (cmp_eq (cmp:=lex Z.sub)).
Qed.

Lemma dname_label_match_count_spec a b : name_ok a -> name_ok b ->
  dname_label_match_count (of_labels a) (of_labels b) = Ok (1 + common_labels a b).
Proof.
  intros Ha Hb. unfold dname_label_match_count. cbn [label_count of_labels].
  rewrite (iter_walk _ (fun _ i => i) (fun i => i) (reverse a) (reverse b)).
  - by rewrite walk_match_count.
  - intros j l r Hl Hr.
    assert (Z.of_nat j < zlength a /\ Z.of_nat j < zlength b) as [].
    { apply lookup_lt_Some in Hl, Hr. rewrite length_reverse in Hl, Hr. unfold zlength. lia. }
    rewrite (proj2 (Z.ltb_lt _ _)), (proj2 (Z.ltb_lt _ _)) by lia. cbn [andb].
    rewrite (Z.add_comm 1), (dname_label_compare_spec a b j l r) by done.
    cbn [mbind res_bind]. by destruct (_ =? 0).
  - destruct ((1 + _ <? _) && _) eqn:E; [|done]. bool_simpl.
    rewrite !reverse_zlength in *. lia.
  - rewrite !length_reverse. unfold zlength. lia.
Qed.

(** * Names made from names *)

Lemma zlength_drop {A} (l : list A) n : zlength (drop n l) = zlength l - Z.of_nat (n `min` length l).
Proof. unfold zlength. rewrite length_drop. lia. Qed.

Lemma wire_app a b : wire (a ++ b) = stem a ++ wire b.
Proof. induction a as [|l a IH]; simpl; [done|]. by rewrite IH, app_assoc. Qed.

Lemma name_ok_suffix a b : name_ok (a ++ b) -> name_ok b.
Proof.
  intros [H1 H2]. apply Forall_app in H1 as [_ H1]. split; [done|].
  rewrite wire_app in H2. zlist. pose proof (zlength_nonneg (stem a)). lia.
Qed.

Lemma dname_partial_copy_spec ls n : name_ok ls -> 0 <= n <= zlength ls + 1 ->
  dname_partial_copy (of_labels ls) n =
    Ok (Some (of_labels (drop (length ls - Z.to_nat (n - 1)) ls))).
Proof.
  intros Hok Hn. unfold dname_partial_copy. set (m := if n =? 0 then 1 else n).
  assert (Hm : 1 <= m <= zlength ls + 1 /\ Z.to_nat (m - 1) = Z.to_nat (n - 1)).
  { subst m. pose proof (zlength_nonneg ls). case_match; bool_simpl; lia. }
  clearbody m. cbn [label_count of_labels].
  rewrite (proj2 (Z.leb_le m _)) by lia. cbn [rassert mbind res_bind].
  rewrite dname_label_spec by (done || lia). cbn [mbind res_bind].
  destruct Hm as [_ ->].
  rewrite <-(app_nil_r (wire _)). apply (dname_make_wire _ [] false).
  apply (name_ok_suffix (take (length ls - Z.to_nat (n - 1)) ls)). by rewrite take_drop.
Qed.

Lemma dname_concatenate_spec a b : name_ok a -> name_ok b ->
  zlength (wire (a ++ b)) <= MAXDOMAINLEN ->
  dname_concatenate (of_labels a) (of_labels b) = Ok (Some (of_labels (a ++ b))).
Proof.
  intros [Ha _] [Hb _] Hlen. unfold dname_concatenate. cbn [name_size dname_name of_labels].
  assert (Hw : zlength (wire a) = zlength (stem a) + 1) by (rewrite wire_stem; by zlist).
  assert (Hab : zlength (wire (a ++ b)) = zlength (stem a) + zlength (wire b))
    by (rewrite wire_app; by zlist).
  rewrite (proj2 (Z.leb_le _ _)) by lia. cbn [rassert mbind res_bind].
  replace (Z.to_nat (zlength (wire a) - 1)) with (length (stem a)) by (unfold zlength in *; lia).
  rewrite (wire_stem a), take_app_length, <-wire_app, <-(app_nil_r (wire _)).
  apply (dname_make_wire _ [] false). split; [by apply Forall_app|done].
Qed.

(** * DNAME substitution *)

Lemma starts_app a b : forall p,
  starts p (a ++ b) = stem_starts p a ++ starts (p + zlength (stem a)) b.
Proof.
  induction a as [|l a IH]; intros p; simpl.
  - f_equal. zlist. lia.
  - rewrite IH. do 3 f_equal. zlist. lia.
Qed.

Lemma starts_shift ls : forall p q, starts (p + q) ls = (fun o => o + q) <$> starts p ls.
Proof.
  induction ls as [|l ls IH]; intros p q; [done|]. cbn [starts fmap list_fmap].
  f_equal. replace (p + q + zlength l + 1) with (p + zlength l + 1 + q) by lia. apply IH.
Qed.

Lemma length_stem_starts ls : forall p, length (stem_starts p ls) = length ls.
Proof. induction ls; intros; simpl; auto. Qed.

Lemma replace_offsets x src dest : name_ok (x ++ src) -> name_ok (x ++ dest) ->
  ((fun o => u8 (o + zlength (stem x))) <$>
     take (Z.to_nat (zlength dest + 1)) (reverse (starts 0 dest))) ++
  zslice (reverse (starts 0 (x ++ src))) (zlength src + 1) (zlength x)
  = reverse (starts 0 (x ++ dest)).
Proof.
  intros Hs Hd. rewrite !starts_app, !reverse_app, Z.add_0_l. f_equal.
  - rewrite take_ge by (rewrite length_reverse, length_starts; unfold zlength; lia).
    assert (Es : starts (zlength (stem x)) dest = (fun o => o + zlength (stem x)) <$> starts 0 dest)
      by (by rewrite <-starts_shift, Z.add_0_l).
    pose proof (u8_starts _ Hd) as E. rewrite starts_app, fmap_app, Z.add_0_l in E.
    apply app_inj_2 in E as [_ E]; [|by rewrite length_fmap].
    rewrite Es in *. rewrite <-list_fmap_compose in E.
    rewrite fmap_reverse. f_equal. exact E.
  - unfold zslice.
    replace (Z.to_nat (zlength src + 1))
      with (length (reverse (starts (zlength (stem x)) src)))
      by (rewrite length_reverse, length_starts; unfold zlength; lia).
    rewrite drop_app_length. apply take_ge.
    rewrite length_reverse, length_stem_starts. unfold zlength. lia.
Qed.

(** C16 (functional): DNAME substitution.  For a name [x.src] the result is
    [x.dest] when that has at most 255 bytes, and NULL otherwise; a name that is
    not below [src] violates the function's assertion. *)
Theorem dname_replace_correct x src dest other :
  name_ok (x ++ src) -> name_ok dest -> name_ok other -> ~ src `suffix_of` other ->
  dname_replace (of_labels (x ++ src)) (of_labels src) (of_labels dest) =
    Ok (if decide (zlength (wire (x ++ dest)) <= MAXDOMAINLEN)
        then Some (of_labels (x ++ dest)) else None) /\
  dname_replace (of_labels other) (of_labels src) (of_labels dest) = Assert_failed.
Proof.
  intros Hxs Hd Ho Hno. pose proof (name_ok_suffix _ _ Hxs) as Hsrc. split.
  2:{ unfold dname_replace. rewrite dname_is_subdomain_spec by done.
      by rewrite bool_decide_eq_false_2. }
  assert (Hlen : zlength (wire (x ++ src)) - zlength (wire src) = zlength (stem x))
    by (rewrite wire_app; zlist; lia).
  assert (Hlab : zlength (x ++ src) + 1 - (zlength src + 1) = zlength x) by (zlist; lia).
  unfold dname_replace. rewrite dname_is_subdomain_spec by done.
  rewrite bool_decide_eq_true_2 by (by exists x).
  cbn [rassert mbind res_bind label_count name_size dname_name dname_label_offsets of_labels].
  rewrite Hlen, Hlab.
  assert (Hw : zlength (wire (x ++ dest)) = zlength (stem x) + zlength (wire dest))
    by (rewrite wire_app; by zlist).
  case_decide as Hmax; [rewrite (proj2 (Z.ltb_ge _ _)) by lia
                       |by rewrite (proj2 (Z.ltb_lt _ _)) by lia].
  assert (Hxd : name_ok (x ++ dest)).
  { split; [|done]. destruct Hxs as [Hf _]. apply Forall_app in Hf as [Hx _].
    apply Forall_app. split; [done|apply Hd]. }
  pose proof (name_ok_count _ Hxd) as Hcount. zlist.
  pose proof (zlength_nonneg x). pose proof (zlength_nonneg dest).
  pose proof (zlength_nonneg (stem x)). pose proof (zlength_wire dest).
  unfold MAXDOMAINLEN in Hmax.
  rewrite (u8_small (zlength x + (zlength dest + 1))), (u8_small (zlength (stem x) + _)) by lia.
  replace (zlength x + (zlength dest + 1) - (zlength dest + 1)) with (zlength x) by lia.
  rewrite (replace_offsets x src dest Hxs Hxd).
  assert (Hstem : take (Z.to_nat (zlength (stem x))) (wire (x ++ src)) = stem x)
    by (unfold zlength; by rewrite Nat2Z.id, wire_app, take_app_length).
  rewrite Hstem, <-wire_app, <-Hw.
  assert (E : mkdname (zlength (wire (x ++ dest))) (zlength x + (zlength dest + 1))
    (reverse (starts 0 (x ++ dest))) (wire (x ++ dest)) = of_labels (x ++ dest)).
  { unfold of_labels. f_equal. zlist. lia. }
  rewrite E, dname_is_subdomain_spec by done.
  by rewrite bool_decide_eq_true_2 by (by exists x).
Qed.

(** "w.old" with "old" replaced by "new.org"; "w.new" is not below "old". *)
Lemma dname_replace_witness :
  let old := [[111; 108; 100]] in let new := [[110; 101; 119]; [111; 114; 103]] in
  dname_replace (of_labels ([[119]] ++ old)) (of_labels old) (of_labels new) =
    Ok (if decide (zlength (wire ([[119]] ++ new)) <= MAXDOMAINLEN)
        then Some (of_labels ([[119]] ++ new)) else None) /\
  dname_replace (of_labels new) (of_labels old) (of_labels new) = Assert_failed.
Proof.
  intros old new. apply dname_replace_correct; by apply (bool_decide_unpack _).
Defined.
