(* ===== verification/DnamePacket.v ===== *)
(** Theorems about reading a name from a packet
    ([dname_make_wire_from_packet], src/dname.c): the function always ends,
    stays inside the packet, and computes exactly the name the message format
    of RFC 1035 (4.1.4) denotes, compression pointers and all. *)

From S2P Require Import Prelude Buffer Dname DnameProofs.

(** * What a packet says

    [pkt_name n p ls q]: the bytes at [p] denote the labels [ls], in [n]
    steps over labels and pointers, and the name's own encoding ends at [q]. *)
Section denotation.
Context (ptrs : bool) (data : list Z) (limit : Z).

Inductive pkt_name : nat -> Z -> list (list Z) -> Z -> Prop :=
  | pkt_root p : p < limit -> zget data p = 0 -> pkt_name 1 p [] (p + 1)
  | pkt_label n p ls q :
      1 <= zget data p < 64 -> p + 1 + zget data p <= limit ->
      pkt_name n (p + 1 + zget data p) ls q ->
      pkt_name (S n) p (zslice data (p + 1) (zget data p) :: ls) q
  | pkt_pointer n p ls q :
      ptrs = true -> 192 <= zget data p -> p + 2 <= limit ->
      (zget data p - 192) * 256 + zget data (p + 1) < limit ->
      pkt_name n ((zget data p - 192) * 256 + zget data (p + 1)) ls q ->
      pkt_name (S n) p ls (p + 2).

Lemma pkt_name_det n p ls q : pkt_name n p ls q ->
  forall n' ls' q', pkt_name n' p ls' q' -> n' = n /\ ls' = ls /\ q' = q.
Proof using.
  intros H. induction H as [p1 H1 H2|m p1 ls1 q1 H1 H2 H3 IH|m p1 ls1 q1 H1 H2 H3 H4 H5 IH];
    intros n' ls' q' H'; inversion H'; subst; try lia; try done.
  - by match goal with H : pkt_name ?k _ _ q' |- _ =>
      destruct (IH _ _ _ H) as (-> & -> & ->) end.
  - by match goal with H : pkt_name ?k (_ + zget data (p1 + 1)) ls' _ |- _ =>
      destruct (IH _ _ _ H) as (-> & -> & _) end.
Qed.

Lemma pkt_name_below n p ls q : pkt_name n p ls q -> p < limit.
Proof using. inversion 1; lia. Qed.
End denotation.

(** * The bitmap of visited positions *)

Lemma land_bit x k : 0 <= k -> (Z.land x (Z.shiftl 1 k) =? 0) = negb (Z.testbit x k).
Proof.
  intros Hk. rewrite Z.shiftl_1_l. destruct (Z.testbit x k) eqn:E.
  - apply Z.eqb_neq. intros H. apply (f_equal (fun y => Z.testbit y k)) in H.
    rewrite Z.land_spec, Z.pow2_bits_true, E, Z.bits_0 in H by lia. done.
  - apply Z.eqb_eq, Z.bits_inj'. intros n Hn.
    rewrite Z.land_spec, Z.pow2_bits_eqb, Z.bits_0 by lia.
    destruct (Z.eqb_spec k n) as [->|]; [by rewrite E|apply andb_false_r].
Qed.

Lemma get_bit_spec bits i : 0 <= i ->
  get_bit bits i = Z.testbit (zget bits (i / 8)) (7 - i mod 8).
Proof.
  intros. unfold get_bit. rewrite land_bit by dlia. by rewrite negb_involutive.
Qed.

Lemma zlength_set_bit bits i : zlength (set_bit bits i) = zlength bits.
Proof. unfold set_bit, zlength. by rewrite length_insert. Qed.

Lemma zget_insert l i j x : 0 <= i < zlength l -> 0 <= j ->
  zget (<[Z.to_nat i := x]> l) j = if i =? j then x else zget l j.
Proof.
  unfold zget, zlength. intros Hi Hj. destruct (Z.eqb_spec i j) as [->|].
  - by rewrite list_lookup_insert_eq by lia.
  - by rewrite list_lookup_insert_ne by lia.
Qed.

Lemma get_set_bit bits i j : 0 <= i -> 0 <= j -> i / 8 < zlength bits ->
  get_bit (set_bit bits i) j = (i =? j) || get_bit bits j.
Proof.
  intros Hi Hj Hb. rewrite !get_bit_spec by done. unfold set_bit.
  rewrite zget_insert by dlia. rewrite Z.shiftl_1_l.
  destruct (Z.eqb_spec (i / 8) (j / 8)) as [E|E].
  - rewrite Z.lor_spec, Z.pow2_bits_eqb, E, orb_comm by dlia. f_equal.
    destruct (Z.eqb_spec i j) as [->|]; [by rewrite Z.eqb_refl|]. apply Z.eqb_neq. dlia.
  - destruct (Z.eqb_spec i j) as [->|]; [lia|]. done.
Qed.

Lemma get_bit_zero n i : get_bit (replicate n 0) i = false.
Proof.
  unfold get_bit, zget. replace (default 0 _) with 0; [by rewrite Z.land_0_l|].
  destruct (replicate n 0 !! _) eqn:E; [|done]. by apply lookup_replicate in E as [-> _].
Qed.

(** The positions below [limit] not yet visited: the measure of the loop. *)
Definition unvisited (limit : Z) (bits : list Z) : nat :=
  length (filter (fun i => get_bit bits i = false) (seqZ 0 limit)).

Lemma filter_le {A} (P Q : A -> Prop) `{!forall x, Decision (P x)} `{!forall x, Decision (Q x)} l :
  (forall y, y ∈ l -> P y -> Q y) -> (length (filter P l) <= length (filter Q l))%nat.
Proof.
  induction l as [|z l IH]; intros HPQ; [done|].
  rewrite !filter_cons. specialize (IH ltac:(set_solver)).
  repeat case_decide; simpl; try lia. set_solver.
Qed.

Lemma filter_lt {A} (P Q : A -> Prop) `{!forall x, Decision (P x)} `{!forall x, Decision (Q x)} l x :
  (forall y, y ∈ l -> P y -> Q y) -> x ∈ l -> Q x -> ~ P x ->
  (length (filter P l) < length (filter Q l))%nat.
Proof.
  induction l as [|y l IH]; intros HPQ Hx HQ HP; [set_solver|].
  assert (length (filter P l) <= length (filter Q l))%nat by (apply filter_le; intros; apply HPQ; [by right|done]).
  rewrite !filter_cons. apply elem_of_cons in Hx as [->|Hx].
  - rewrite decide_False, decide_True by done. simpl. lia.
  - specialize (IH ltac:(set_solver) Hx HQ HP). repeat case_decide; simpl; try lia. set_solver.
Qed.

Lemma unvisited_set limit bits i :
  0 <= i < limit -> i / 8 < zlength bits -> get_bit bits i = false ->
  (unvisited limit (set_bit bits i) < unvisited limit bits)%nat.
Proof.
  intros Hi Hb Hv. apply (filter_lt _ _ _ i).
  - intros y Hy%elem_of_seqZ. rewrite get_set_bit by lia. by intros [_ ?]%orb_false_elim.
  - apply elem_of_seqZ. lia.
  - done.
  - by rewrite get_set_bit, Z.eqb_refl by lia.
Qed.

Lemma unvisited_le limit bits : (unvisited limit bits <= Z.to_nat limit)%nat.
Proof.
  unfold unvisited. etrans; [apply length_filter|]. by rewrite length_seqZ.
Qed.

(** * The loop *)

Lemma zget_drop (l : list Z) p i : 0 <= p -> 0 <= i ->
  zget (drop (Z.to_nat p) l) i = zget l (p + i).
Proof. intros. unfold zget. rewrite lookup_drop. do 2 f_equal. lia. Qed.

Lemma zslice_S (l : list Z) p n : 0 <= p < zlength l -> 0 <= n ->
  zslice l p (n + 1) = zget l p :: zslice l (p + 1) n.
Proof.
  intros Hp Hn. unfold zslice. rewrite (drop_S l (zget l p)) by (by apply zget_lookup).
  replace (Z.to_nat (n + 1)) with (S (Z.to_nat n)) by lia.
  replace (Z.to_nat (p + 1)) with (S (Z.to_nat p)) by lia. done.
Qed.

Lemma pointer_target c c1 : byte c -> byte c1 -> 192 <= c ->
  Z.lor (Z.shiftl (Z.land c (Z.lnot 0xc0)) 8) c1 = (c - 192) * 256 + c1.
Proof.
  intros Hc Hc1 Hge. rewrite (lor_shiftl_add _ _ 8) by (unfold byte in *; lia).
  apply (byte_forall (fun c => (c <? 192) || (Z.land c (Z.lnot 0xc0) =? c - 192))
    ltac:(by vm_compute)) in Hc. apply orb_prop in Hc as [Hc|Hc]; bool_simpl; lia.
Qed.

Lemma stem_snoc acc l : stem (acc ++ [l]) = stem acc ++ zlength l :: l.
Proof.
  induction acc as [|x acc IH]; simpl; [by rewrite app_nil_r|]. by rewrite IH, app_assoc.
Qed.

Section wire_loop.
Context (allow : bool) (b0 : buffer) (Hb0 : buffer_ok b0).
Abbreviation D := (_data b0).
Abbreviation L := (_limit b0).
Abbreviation p0 := (_position b0).
Abbreviation denotes := (pkt_name allow D L).

(** Where the name ends: after the first pointer, or where it stopped. *)
Definition end_of (mark p : Z) : Z := if mark =? -1 then p else mark.

(** What the loop knows at position [p] after the labels [acc]: what is read
    from here continues the name that started at [p0], and every visited
    position needs more steps than this one. *)
Record wire_inv (visited : list Z) (acc : list (list Z)) (mark p : Z) : Prop := {
  wi_p : 0 <= p <= L;
  wi_visited : zlength visited = (L + 7) / 8;
  wi_acc : Forall label_ok acc;
  wi_mark : mark = -1 \/ 0 <= mark <= L;
  wi_sound n ls q : denotes n p ls q ->
    exists n', denotes n' p0 (acc ++ ls) (end_of mark q);
  wi_complete n0 ls0 q0 : denotes n0 p0 ls0 q0 ->
    exists n ls q, denotes n p ls q /\ ls0 = acc ++ ls /\
      forall v, 0 <= v < L -> get_bit visited v = true ->
        exists n' ls' q', denotes n' v ls' q' /\ (n < n')%nat;
}.

(** The result of the function: the name, or no name of a legal size. *)
Definition wire_post (r : option (list Z * Z)) (b' : buffer) : Prop :=
  match r with
  | Some (buf, mark) => exists n ls p', b' = set_pos p' b0 /\ 0 <= p' <= L /\
      (mark = -1 \/ 0 <= mark <= L) /\ name_ok ls /\ buf = wire ls /\
      denotes n p0 ls (end_of mark p')
  | None => (exists p', b' = set_pos p' b0 /\ 0 <= p' <= L) /\
      forall n ls q, denotes n p0 ls q -> ~ name_ok ls
  end.

Lemma wire_inv_init :
  wire_inv (replicate (Z.to_nat ((L + 7) / 8)) 0) [] (-1) p0.
Proof using Hb0.
  pose proof Hb0 as []. split; try done; try lia.
  - unfold zlength. rewrite length_replicate. dlia.
  - intros n ls q H. by exists n.
  - intros n ls q H. exists n, ls, q. split_and!; [done..|].
    intros v _ Hv. by rewrite get_bit_zero in Hv.
Qed.

(** No name is read when the position cannot start one. *)
Lemma wire_inv_stuck visited acc mark p b' :
  wire_inv visited acc mark p -> (exists p', b' = set_pos p' b0 /\ 0 <= p' <= L) ->
  (forall n ls q, denotes n p ls q -> ~ name_ok (acc ++ ls)) -> wire_post None b'.
Proof using.
  intros HI Hb' Hno. split; [done|]. intros n ls q Hd.
  destruct (wi_complete _ _ _ _ HI _ _ _ Hd) as (n' & ls' & q' & Hd' & -> & _). eauto.
Qed.

(** A position met again denotes nothing: following it would not end. *)
Lemma wire_inv_loop visited acc mark p n ls q :
  wire_inv visited acc mark p -> p < L -> get_bit visited p = true ->
  (exists n0 ls0 q0, denotes n0 p0 ls0 q0) -> denotes n p ls q -> False.
Proof using.
  intros HI Hp Hv (n0 & ls0 & q0 & H0) Hd.
  destruct (wi_complete _ _ _ _ HI _ _ _ H0) as (n1 & ls1 & q1 & Hd1 & _ & Hvis).
  destruct (Hvis p) as (n2 & ls2 & q2 & Hd2 & Hlt); [destruct HI; lia|done|].
  destruct (pkt_name_det _ _ _ _ _ _ _ Hd1 _ _ _ Hd2) as (-> & _). lia.
Qed.

(** Reading on from [p] to [p'] over [step] more labels. *)
Lemma wire_inv_step visited acc mark p mark' p' step :
  wire_inv visited acc mark p -> p < L -> 0 <= p' <= L ->
  Forall label_ok step -> (mark' = -1 \/ 0 <= mark' <= L) ->
  (forall n ls q, denotes n p' ls q ->
     exists q', denotes (S n) p (step ++ ls) q' /\ end_of mark q' = end_of mark' q) ->
  (forall n ls q, denotes n p ls q ->
     exists n' ls' q', n = S n' /\ ls = step ++ ls' /\ denotes n' p' ls' q') ->
  wire_inv (set_bit visited p) (acc ++ step) mark' p'.
Proof using.
  intros HI Hp Hp' Hstep Hm Hfwd Hback. pose proof HI as []. split; try done.
  - by rewrite zlength_set_bit.
  - by apply Forall_app.
  - intros n ls q Hd. destruct (Hfwd _ _ _ Hd) as (q' & Hd' & <-).
    destruct (wi_sound0 _ _ _ Hd') as [n' Hn']. exists n'. by rewrite <-app_assoc.
  - intros n0 ls0 q0 H0.
    destruct (wi_complete0 _ _ _ H0) as (n & ls & q & Hd & -> & Hvis).
    destruct (Hback _ _ _ Hd) as (n' & ls' & q' & -> & -> & Hd').
    exists n', ls', q'. split_and!; [done|by rewrite app_assoc|].
    intros v Hv Hbit. rewrite get_set_bit in Hbit by (rewrite ?wi_visited0; dlia).
    apply orb_prop in Hbit as [<-%Z.eqb_eq|Hbit].
    { do 3 eexists. split; [exact Hd|lia]. }
    destruct (Hvis v Hv Hbit) as (n2 & ls2 & q2 & Hd2 & Hlt).
    exists n2, ls2, q2. split; [done|lia].
Qed.
End wire_loop.

Lemma wp_lift {S A} (r : res A) a (Q : A -> S -> Prop) s :
  r = Ok a -> Q a s -> wp (lift r) Q s.
Proof. by intros ->. Qed.

Section wire_correct.
Context (allow : bool) (b0 : buffer) (Hb0 : buffer_ok b0).
Abbreviation D := (_data b0).
Abbreviation L := (_limit b0).
Abbreviation denotes := (pkt_name allow D L).

Lemma head_at p : 0 <= p -> zget (drop (Z.to_nat p) D) 0 = zget D p.
Proof using. intros. rewrite zget_drop by lia. f_equal. lia. Qed.

Lemma D_byte p : byte (zget D p).
Proof using Hb0. destruct Hb0. auto. Qed.

Lemma pointer_at p : 0 <= p ->
  label_is_pointer (drop (Z.to_nat p) D) = (192 <=? zget D p).
Proof using Hb0.
  intros. unfold label_is_pointer. rewrite head_at by done.
  apply (proj2 (land_c0 _ (D_byte p))).
Qed.

Lemma normal_at p : 0 <= p ->
  label_is_normal (drop (Z.to_nat p) D) = (zget D p <? 64).
Proof using Hb0.
  intros. unfold label_is_normal. rewrite head_at by done.
  apply (proj1 (land_c0 _ (D_byte p))).
Qed.

Lemma slice_label_ok p : 0 <= p -> 1 <= zget D p < 64 -> p + 1 + zget D p <= L ->
  label_ok (zslice D (p + 1) (zget D p)) /\ zlength (zslice D (p + 1) (zget D p)) = zget D p.
Proof using Hb0.
  intros Hp Hc Hl. destruct Hb0. unfold label_ok.
  rewrite zslice_length by lia. split; [split; [lia|auto]|done].
Qed.

(** The state of the loop: where the buffer is and what was read. *)
Definition wire_I (st : list Z * list Z * Z) (b : buffer) : Prop :=
  let '(visited, buf, mark) := st in
  exists acc p, b = set_pos p b0 /\ buf = stem acc /\ zlength (stem acc) <= 255 /\
    wire_inv allow b0 visited acc mark p.

Definition wire_m (st : list Z * list Z * Z) (b : buffer) : nat :=
  unvisited L (st.1.1).

(** The exits of the loop body after which the function returns 0. *)
Ltac wire_out HI := apply (wire_inv_stuck _ _ _ _ _ _ _ HI); [by eauto|];
  intros ??? Hd; inversion Hd; subst; try lia; try congruence.

Definition wire_round (visited : list Z) (r : list Z * list Z * Z + option (list Z * Z))
    (b : buffer) : Prop :=
  match r with
  | inl st => wire_I st b /\ (wire_m st b < unvisited L visited)%nat
  | inr r => wire_post allow b0 r b
  end.

(** Following a compression pointer. *)
Lemma wire_round_pointer visited acc mark p :
  wire_inv allow b0 visited acc mark p -> p + 2 <= L -> allow = true ->
  192 <= zget D p -> zlength (stem acc) <= 255 -> get_bit visited p = false ->
  (zget D p - 192) * 256 + zget D (p + 1) < L ->
  wire_round visited
    (inl (set_bit visited p, stem acc, if mark =? -1 then p + 2 else mark))
    (set_pos ((zget D p - 192) * 256 + zget D (p + 1)) b0).
Proof using Hb0.
  intros HI Hp Ha Hc Hbuf Hv Ht. pose proof HI as [].
  pose proof (D_byte p). pose proof (D_byte (p + 1)). unfold byte in *. split.
  - exists acc, ((zget D p - 192) * 256 + zget D (p + 1)).
    split_and!; [done..|]. rewrite <-(app_nil_r acc) at 1.
    apply (wire_inv_step _ _ _ _ mark p); try done; try lia.
    + case_match; bool_simpl; lia.
    + intros n ls q Hd. exists (p + 2). split; [by eapply pkt_pointer|].
      unfold end_of. destruct (mark =? -1) eqn:E; [|by rewrite E].
      by rewrite (proj2 (Z.eqb_neq (p + 2) (-1))) by lia.
    + intros n ls q Hd. inversion Hd; subst; try lia. eauto 10.
  - apply unvisited_set; [lia|rewrite wi_visited0; dlia|done].
Qed.

(** Reading a label, the root label or another. *)
Lemma wire_round_label visited acc mark p :
  wire_inv allow b0 visited acc mark p -> 1 <= zget D p < 64 ->
  p + 1 + zget D p <= L -> zlength (stem acc) + (zget D p + 1) < 256 ->
  get_bit visited p = false ->
  wire_round visited
    (inl (set_bit visited p, stem acc ++ zslice D p (zget D p + 1), mark))
    (set_pos (p + (zget D p + 1)) b0).
Proof using Hb0.
  intros HI Hc Hp Hbuf Hv. pose proof HI as [].
  destruct (slice_label_ok p) as [Hok Hlen]; [lia..|].
  assert (Hs : stem acc ++ zslice D p (zget D p + 1) =
               stem (acc ++ [zslice D (p + 1) (zget D p)])).
  { rewrite stem_snoc, Hlen. f_equal. apply zslice_S; [|lia]. destruct Hb0. lia. }
  replace (p + (zget D p + 1)) with (p + 1 + zget D p) by lia. split.
  - rewrite Hs. exists (acc ++ [zslice D (p + 1) (zget D p)]), (p + 1 + zget D p).
    split_and!; [done..|rewrite stem_snoc; zlist; lia|].
    apply (wire_inv_step _ _ _ _ mark p); try done; try lia.
    + by constructor.
    + intros n ls q Hd. exists q. split; [by apply pkt_label|done].
    + intros n ls q Hd. inversion Hd; subst; try lia. by do 3 eexists.
  - apply unvisited_set; [lia|rewrite wi_visited0; dlia|done].
Qed.

Lemma wire_round_root visited acc mark p :
  wire_inv allow b0 visited acc mark p -> zget D p = 0 -> p < L ->
  zlength (stem acc) + 1 < 256 ->
  wire_post allow b0 (Some (stem acc ++ zslice D p 1, mark)) (set_pos (p + 1) b0).
Proof using Hb0.
  intros HI Hc Hp Hbuf. pose proof HI as [].
  destruct (wi_sound0 1%nat [] (p + 1)) as [n Hn]; [by constructor|].
  rewrite app_nil_r in Hn.
  assert (Hw : stem acc ++ zslice D p 1 = wire acc).
  { rewrite wire_stem. f_equal. change 1 with (0 + 1). destruct Hb0.
    rewrite zslice_S by lia. by rewrite Hc. }
  exists n, acc, (p + 1). rewrite Hw. split_and!; try done; try lia.
  split; [done|]. rewrite wire_stem. zlist. unfold MAXDOMAINLEN. lia.
Qed.
(** The conclusion for the ways the body gives up. *)
Lemma wire_round_none visited acc mark p p' :
  wire_inv allow b0 visited acc mark p -> 0 <= p' <= L ->
  (forall n ls q, denotes n p ls q -> ~ name_ok (acc ++ ls)) ->
  wire_round visited (inr None) (set_pos p' b0).
Proof using. intros HI Hp' Hno. eapply wire_inv_stuck; eauto. Qed.

Lemma wire_round_none_at visited acc mark p p' :
  wire_inv allow b0 visited acc mark p -> 0 <= p' <= L ->
  (forall n ls q, ~ denotes n p ls q) ->
  wire_round visited (inr None) (set_pos p' b0).
Proof using. intros HI Hp2 Hno. eapply wire_round_none; [done..|].
  intros n ls q Hd. by destruct (Hno n ls q). Qed.

(** The branch for a pointer. *)
Lemma wire_pointer_branch visited acc mark p (Q : _ -> buffer -> Prop) :
  wire_inv allow b0 visited acc mark p -> p < L -> 192 <= zget D p ->
  zlength (stem acc) <= 255 -> get_bit visited p = false ->
  (forall r b, wire_round visited r b -> Q r b) ->
  wp (if negb allow then mret (inr None) else
      a ← buffer_available 2;
      if negb a then mret (inr None) else
      pointer ← lift (label_pointer_location (drop (Z.to_nat p) D));
      limit ← buffer_limit;
      if limit <=? pointer then mret (inr None) else
      buffer_skip 2;;
      pos ← buffer_position;
      let mark := if mark =? -1 then pos else mark in
      buffer_set_position pointer;;
      mret (inl (set_bit visited p, stem acc, mark))) Q (set_pos p b0).
Proof using Hb0.
  intros HI HpL Hc Hbuf Hv HQ. pose proof HI as []. pose proof (D_byte p).
  pose proof (D_byte (p + 1)). unfold byte in *.
  assert (Hok : buffer_ok (set_pos p b0)) by (apply buffer_ok_set_pos; [done|lia]).
  assert (Hstuck : (forall n ls q, ~ denotes n p ls q) -> Q (inr None) (set_pos p b0))
    by (intros; apply HQ; eapply wire_round_none_at; [done|lia|done]).
  wp_step; [wp_step; apply Hstuck; intros ??? Hd; inversion Hd; subst; try lia;
            by destruct allow|].
  wp_step. apply wp_buffer_available; [done|]. buf_simpl.
  wp_step; bool_simpl; [wp_step; apply Hstuck; intros ??? Hd; inversion Hd; subst; lia|].
  wp_step. apply (wp_lift _ ((zget D p - 192) * 256 + zget D (p + 1))).
  { unfold label_pointer_location. rewrite pointer_at by lia.
    rewrite (proj2 (Z.leb_le 192 _)) by done. cbn.
    by rewrite head_at, zget_drop, pointer_target by (unfold byte; lia). }
  unfold buffer_limit. do 4 wp_step. buf_simpl.
  wp_step; bool_simpl; [wp_step; apply Hstuck; intros ??? Hd; inversion Hd; subst; lia|].
  wp_step. apply wp_buffer_skip; [done|buf_simpl; lia|]. buf_simpl.
  unfold buffer_position. do 4 wp_step. buf_simpl.
  wp_step. apply wp_buffer_set_position; [buf_simpl; lia|]. wp_step. buf_simpl.
  apply HQ, wire_round_pointer; try done; try lia.
Qed.

(** The branch for a label. *)
Lemma wire_label_branch visited acc mark p (Q : _ -> buffer -> Prop) :
  wire_inv allow b0 visited acc mark p -> p < L -> zget D p < 64 ->
  zlength (stem acc) <= 255 -> get_bit visited p = false ->
  (forall r b, wire_round visited r b -> Q r b) ->
  wp (len ← lift (label_length (drop (Z.to_nat p) D));
      let length := len + 1 in
      let done := label_is_root (drop (Z.to_nat p) D) in
      a ← buffer_available length;
      if negb a then mret (inr None) else
      if MAXDOMAINLEN + 1 <=? zlength (stem acc) + length then mret (inr None) else
      d ← buffer_read length;
      let buf := stem acc ++ d in
      if done then mret (inr (Some (buf, mark)))
      else mret (inl (set_bit visited p, buf, mark))) Q (set_pos p b0).
Proof using Hb0.
  intros HI HpL Hc Hbuf Hv HQ. pose proof HI as []. pose proof (D_byte p).
  unfold byte, MAXDOMAINLEN in *. pose proof Hb0 as [].
  assert (Hok : buffer_ok (set_pos p b0)) by (apply buffer_ok_set_pos; [done|lia]).
  wp_step. apply (wp_lift _ (zget D p)).
  { unfold label_length. rewrite normal_at by lia.
    rewrite (proj2 (Z.ltb_lt _ 64)) by done. cbn. by rewrite head_at by lia. }
  cbv zeta. unfold label_is_root. rewrite head_at by lia.
  wp_step. apply wp_buffer_available; [done|]. buf_simpl.
  wp_step; bool_simpl.
  { wp_step. apply HQ. eapply wire_round_none_at; [done|lia|].
    intros ??? Hd. inversion Hd; subst; lia. }
  wp_step; bool_simpl.
  { wp_step. apply HQ. eapply wire_round_none; [done|lia|]. intros n ls q Hd [_ Hlen].
    rewrite wire_app in Hlen. zlist. unfold MAXDOMAINLEN in Hlen.
    inversion Hd; subst; [|cbn [wire] in Hlen|lia].
    - change (zlength (wire [])) with 1 in Hlen. lia.
    - pose proof (zlength_wire ls0). zlist.
      destruct (slice_label_ok p) as [_ El]; [lia..|]. lia. }
  wp_step. apply wp_buffer_read; [done|buf_simpl; lia|]. intros _. buf_simpl.
  wp_step; bool_simpl; wp_step; apply HQ.
  - replace (zget D p + 1) with 1 by lia. eapply wire_round_root; (done || lia).
  - apply wire_round_label; (done || lia).
Qed.

Lemma wire_step_correct st b :
  wire_I st b ->
  wp (dname_wire_step allow st) (fun r b' =>
    match r with
    | inl st' => wire_I st' b' /\ (wire_m st' b' < wire_m st b)%nat
    | inr r => wire_post allow b0 r b'
    end) b.
Proof using Hb0.
  destruct st as [[visited buf] mark]. intros (acc & p & -> & -> & Hbuf & HI).
  pose proof HI as []. pose proof (D_byte p). unfold byte in *.
  assert (Hok : buffer_ok (set_pos p b0)) by (apply buffer_ok_set_pos; [done|lia]).
  assert (HQ : forall r b, wire_round visited r b -> match r with
    | inl st' => wire_I st' b /\
        (wire_m st' b < wire_m (visited, stem acc, mark) (set_pos p b0))%nat
    | inr r => wire_post allow b0 r b end) by (by intros [st'|r]).
  unfold dname_wire_step.
  wp_step. apply wp_buffer_available; [done|]. buf_simpl.
  wp_step; bool_simpl.
  { wp_step. apply (HQ (inr None)). eapply wire_round_none_at; [done|lia|].
    intros ??? Hd%pkt_name_below. lia. }
  unfold buffer_position. do 4 wp_step. buf_simpl.
  wp_step.
  { wp_step. apply (HQ (inr None)). split; [eauto|]. intros n ls q Hd.
    destruct (wi_complete0 _ _ _ Hd) as (n1 & ls1 & q1 & Hd1 & _).
    exfalso. eapply wire_inv_loop; [done|lia|done|eauto|done]. }
  unfold buffer_current, buffer_at. wp_step. do 5 wp_step.
  apply wp_assert; [buf_simpl; lia|]. do 3 wp_step. buf_simpl.
  rewrite pointer_at, normal_at by lia.
  wp_step; bool_simpl; [apply (wire_pointer_branch visited acc mark p); (done || lia)|].
  wp_step; bool_simpl; [apply (wire_label_branch visited acc mark p); (done || lia)|].
  wp_step. apply (HQ (inr None)). eapply wire_round_none_at; [done|lia|].
  intros ??? Hd. inversion Hd; subst; lia.
Qed.
End wire_correct.

Lemma dname_make_wire_from_packet_spec allow b :
  buffer_ok b -> _limit b <= MAX_PACKET_SIZE ->
  wp (dname_make_wire_from_packet allow) (fun r b' =>
    match r with
    | Some buf => exists n ls q,
        pkt_name allow (_data b) (_limit b) n (_position b) ls q /\
        name_ok ls /\ buf = wire ls /\ b' = set_pos q b /\ 0 <= q <= _limit b
    | None => (exists p, b' = set_pos p b /\ 0 <= p <= _limit b) /\
        forall n ls q, pkt_name allow (_data b) (_limit b) n (_position b) ls q ->
          ~ name_ok ls
    end) b.
Proof.
  intros Hb Hmax. unfold dname_make_wire_from_packet. do 3 wp_step.
  apply wp_assert; [apply Z.leb_le, Z.div_le_mono; lia|]. wp_step.
  eapply wp_mono.
  - apply (wp_iter (wire_I allow b) (wire_m b) _ (wire_post allow b)).
    + intros st s HI. eapply wp_mono; [by apply wire_step_correct|]. by intros [?|?] ?.
    + exists [], (_position b). split_and!; [by destruct b|done|done|].
      by apply wire_inv_init.
    + pose proof (unvisited_le (_limit b)
        (replicate (Z.to_nat ((_limit b + 7) / 8)) 0)). unfold wire_m. simpl. lia.
  - intros [[buf mark]|] b' Hpost; [|by wp_step].
    destruct Hpost as (n & ls & p' & -> & Hp' & Hm & Hok & -> & Hd).
    assert (HQ : forall q, q = end_of mark p' -> 0 <= q <= _limit b /\
      pkt_name allow (_data b) (_limit b) n (_position b) ls q).
    { intros q ->. split; [|done]. unfold end_of. case_match; bool_simpl; lia. }
    unfold end_of in HQ. wp_step. wp_step; bool_simpl.
    + destruct (HQ mark) as [Hq Hdq]; [by rewrite (proj2 (Z.eqb_neq mark (-1)))|].
      apply wp_buffer_set_position; [buf_simpl; lia|]. wp_step. eauto 10.
    + subst mark. destruct (HQ p' eq_refl) as [Hq Hdq]. do 2 wp_step. eauto 10.
Qed.

(** C13 (functional): reading a name from a packet.  For every packet and
    position, with compression pointers forming any graph, loops included, the
    function ends, reads inside the packet, and answers precisely: the wire form
    of the name the bytes denote, with the position after the name's own
    encoding, when they denote a name of at most 255 bytes; 0 otherwise. *)
Theorem dname_make_wire_from_packet_correct allow b :
  buffer_ok b -> _limit b <= MAX_PACKET_SIZE ->
  wp (dname_make_wire_from_packet allow) (fun r b' =>
    match r with
    | Some buf => exists n ls q,
        pkt_name allow (_data b) (_limit b) n (_position b) ls q /\
        name_ok ls /\ buf = wire ls /\ b' = set_pos q b /\ 0 <= q <= _limit b
    | None => (exists p, b' = set_pos p b /\ 0 <= p <= _limit b) /\
        forall n ls q, pkt_name allow (_data b) (_limit b) n (_position b) ls q ->
          ~ name_ok ls
    end) b.
Proof. apply dname_make_wire_from_packet_spec. Qed.

(** A packet whose name at 4 is "b" and a pointer to the root at 1. *)
Lemma dname_make_wire_from_packet_witness :
  let b := mkbuffer 4 8 8 [9; 0; 9; 9; 1; 98; 192; 1] true in
  wp (dname_make_wire_from_packet true) (fun r b' =>
    match r with
    | Some buf => exists n ls q,
        pkt_name true (_data b) (_limit b) n (_position b) ls q /\
        name_ok ls /\ buf = wire ls /\ b' = set_pos q b /\ 0 <= q <= _limit b
    | None => (exists p, b' = set_pos p b /\ 0 <= p <= _limit b) /\
        forall n ls q, pkt_name true (_data b) (_limit b) n (_position b) ls q ->
          ~ name_ok ls
    end) b.
Proof.
  intros b. apply dname_make_wire_from_packet_correct; [by apply (bool_decide_unpack _)|done].
Defined.
