(* ===== verification/DnameText.v ===== *)
(** Theorems about the text form of domain names (src/dname.c): printing fits
    the static buffer, parsing undoes printing, and what the return value of
    [dname_parse_wire] is. *)

From S2P Require Import Prelude Buffer Dname DnameProofs.

(** The text of a list of labels, a dot after each. *)
Definition label_text (l : list Z) : list Z := concat (print_char false <$> l) ++ [46].
Fixpoint text (ls : list (list Z)) : list Z :=
  match ls with
  | [] => []
  | l :: ls => label_text l ++ text ls
  end.

(** * Printing *)

Lemma to_string_labels ls : forall rest, Forall label_ok ls ->
  dname_to_string_labels false (length ls) (stem ls ++ rest) = Ok (text ls).
Proof.
  induction ls as [|l ls IH]; intros rest Hls; [done|].
  apply Forall_cons in Hls as [Hl Hls]. cbn [length stem app dname_to_string_labels].
  rewrite <-app_assoc, label_head_length by done. cbn [mbind res_bind].
  rewrite (proj2 (Z.leb_le _ _)).
  2:{ zlist. pose proof (zlength_nonneg (stem ls)). pose proof (zlength_nonneg rest). lia. }
  cbn [rassert mbind res_bind]. rewrite label_head_skip, IH, label_head_slice by done.
  cbn [mbind res_bind text]. unfold label_text. by rewrite <-app_assoc.
Qed.

Lemma dname_to_string_spec ls : name_ok ls ->
  dname_to_string (of_labels ls) None = Ok (if decide (ls = []) then [46] else text ls).
Proof.
  intros [Hls _]. unfold dname_to_string. cbn [label_count of_labels].
  case_decide as E; [by subst|].
  rewrite (proj2 (Z.eqb_neq _ _)).
  2:{ unfold zlength. destruct ls; [done|simpl; lia]. }
  cbn [mbind res_bind mret res_ret].
  replace (Z.to_nat (zlength ls + 1 - 1)) with (length ls) by (unfold zlength; lia).
  cbn [dname_name of_labels]. by rewrite wire_stem, to_string_labels.
Qed.

Lemma print_char_length star c : zlength (print_char star c) <= 4.
Proof. unfold print_char, escape_decimal. repeat case_match; zlist; lia. Qed.

Lemma concat_print_length l : zlength (concat (print_char false <$> l)) <= 4 * zlength l.
Proof.
  induction l as [|c l IH]; [done|]. cbn [fmap list_fmap concat].
  pose proof (print_char_length false c). zlist. lia.
Qed.

Lemma text_length ls : zlength (text ls) <= 4 * zlength (stem ls).
Proof.
  induction ls as [|l ls IH]; [done|]. cbn [text stem]. unfold label_text.
  pose proof (concat_print_length l). zlist. lia.
Qed.

(** * Parsing one character *)

Lemma digit_value d : 0 <= d < 10 ->
  isdigit (48 + d) = true /\ hexdigit_to_int (48 + d) = Ok d.
Proof.
  intros Hd. assert (isdigit (48 + d) = true) as E by (unfold isdigit; lia).
  split; [done|]. unfold hexdigit_to_int. rewrite E. unfold mret, res_ret. f_equal. lia.
Qed.

Lemma parse_escape_decimal c s : byte c ->
  dname_parse_escape (escape_decimal c ++ s) = Ok (Some c, 3).
Proof.
  intros Hc. unfold byte in Hc. unfold escape_decimal. cbn [app].
  destruct (digit_value (c / 100 mod 10)) as [D1 H1]; [dlia|].
  destruct (digit_value (c / 10 mod 10)) as [D2 H2]; [dlia|].
  destruct (digit_value (c mod 10)) as [D3 H3]; [dlia|].
  unfold dname_parse_escape. zget_simpl. rewrite D1, D2, D3, H1, H2, H3.
  cbn [andb mbind res_bind].
  replace (_ * 100 + _ * 10 + _) with c by dlia.
  by rewrite (proj2 (Z.leb_le 0 c)), (proj2 (Z.leb_le c 255)) by lia.
Qed.

Lemma parse_escape_plain c s : c = 46 \/ c = 92 ->
  dname_parse_escape (92 :: c :: s) = Ok (Some c, 1).
Proof. intros [-> | ->]; done. Qed.

Lemma list_insert_middle {A} (pre post : list A) x v :
  <[length pre := v]> (pre ++ x :: post) = pre ++ v :: post.
Proof. induction pre; simpl; [done|]. f_equal. done. Qed.

Lemma mem_set_middle pre x post v : mem_set (pre ++ x :: post) (zlength pre) v = Ok (pre ++ v :: post).
Proof.
  unfold mem_set. rewrite (proj2 (Z.leb_le 0 _)) by apply zlength_nonneg.
  rewrite (proj2 (Z.ltb_lt _ _)).
  2:{ zlist. pose proof (zlength_nonneg post). lia. }
  cbn. unfold mret, res_ret, zlength. by rewrite Nat2Z.id, list_insert_middle.
Qed.

(** A printed character is parsed in one round and stored at [p]. *)
Lemma parse_char c pre x rest h s : byte c -> zlength pre < MAXDOMAINLEN ->
  dname_parse_step (pre ++ x :: rest, h, zlength pre, print_char false c ++ s) =
  Ok (inl (pre ++ c :: rest, h, zlength pre + 1, s)).
Proof.
  intros Hc Hp. unfold dname_parse_step, print_char.
  destruct (isalnum c || (c =? 45) || (c =? 95) || (false && (c =? 42))) eqn:E1.
  { cbn [app]. rewrite (proj2 (Z.leb_gt _ _)) by done.
    assert ((c =? 46) = false /\ (c =? 92) = false) as [-> ->].
    { unfold isalnum, isdigit in E1. lia. }
    by rewrite mem_set_middle. }
  destruct ((c =? 46) || (c =? 92)) eqn:E2.
  { cbn [app]. rewrite (proj2 (Z.leb_gt _ _)) by done. cbn [Z.eqb Pos.eqb].
    rewrite parse_escape_plain by lia. cbn [mbind res_bind].
    rewrite u8_small by done. by rewrite mem_set_middle. }
  pose proof (parse_escape_decimal c s Hc) as He. revert He.
  unfold escape_decimal. cbn [app]. intros He.
  rewrite (proj2 (Z.leb_gt _ _)) by done. cbn [Z.eqb Pos.eqb]. rewrite He. cbn [mbind res_bind].
  rewrite u8_small by done. by rewrite mem_set_middle.
Qed.

(** * Parsing a label *)

Lemma parse_chars l : forall fuel pre junk h s, Forall byte l ->
  (length l <= fuel)%nat -> (length l <= length junk)%nat ->
  zlength pre + zlength l <= MAXDOMAINLEN ->
  iter fuel dname_parse_step (pre ++ junk, h, zlength pre, concat (print_char false <$> l) ++ s) =
  iter (fuel - length l) dname_parse_step
    (pre ++ l ++ drop (length l) junk, h, zlength pre + zlength l, s).
Proof.
  induction l as [|c l IH]; intros fuel pre junk h s Hl Hf Hj Hp.
  { simpl. by rewrite Nat.sub_0_r, zlength_nil, Z.add_0_r. }
  apply Forall_cons in Hl as [Hc Hl]. destruct fuel as [|fuel]; simpl in Hf; [lia|].
  destruct junk as [|x junk]; simpl in Hj; [lia|]. pose proof (zlength_nonneg l). zlist.
  cbn [fmap list_fmap concat iter]. rewrite <-app_assoc, parse_char by (done || lia).
  replace (pre ++ c :: junk) with ((pre ++ [c]) ++ junk) by by rewrite <-app_assoc.
  replace (zlength pre + 1) with (zlength (pre ++ [c])) by by zlist.
  rewrite IH by (done || lia || (zlist; lia)). cbn [length drop Nat.sub].
  rewrite <-!app_assoc. cbn [app]. zlist. eq_lia.
Qed.

Lemma parse_label l fuel pre junk s : label_ok l ->
  (length l < fuel)%nat -> (length l < length junk)%nat ->
  zlength pre + zlength l + 1 < MAXDOMAINLEN ->
  iter fuel dname_parse_step (pre ++ junk, zlength pre, zlength pre + 1, label_text l ++ s) =
  iter (fuel - S (length l)) dname_parse_step
    (pre ++ zlength l :: l ++ drop (S (length l)) junk,
     zlength pre + zlength l + 1, zlength pre + zlength l + 2, s).
Proof.
  intros [Hl Hb] Hf Hj Hp. destruct junk as [|x junk]; simpl in Hj; [lia|].
  unfold label_text. rewrite <-app_assoc.
  replace (pre ++ x :: junk) with ((pre ++ [x]) ++ junk) by by rewrite <-app_assoc.
  replace (zlength pre + 1) with (zlength (pre ++ [x])) by by zlist.
  rewrite parse_chars by (done || lia || (zlist; lia)).
  replace (fuel - length l)%nat with (S (fuel - S (length l))) by lia.
  cbn [iter app]. unfold dname_parse_step at 1.
  rewrite (proj2 (Z.leb_gt _ _)) by (zlist; lia). cbn [Z.eqb Pos.eqb].
  replace (zlength (pre ++ [x]) + zlength l - zlength pre - 1) with (zlength l) by (zlist; lia).
  rewrite (proj2 (Z.eqb_neq _ _)) by (zlist; lia).
  rewrite (proj2 (Z.ltb_ge _ _)) by (unfold MAXLABELLEN; lia).
  rewrite u8_small by lia. rewrite <-app_assoc. cbn [app]. rewrite mem_set_middle.
  cbn [mbind res_bind mret res_ret drop]. zlist. eq_lia.
Qed.

(** * Parsing a name *)

Lemma print_char_nonempty star c : (1 <= length (print_char star c))%nat.
Proof. unfold print_char, escape_decimal. repeat case_match; simpl; lia. Qed.

Lemma concat_print_ge l : (length l <= length (concat (print_char false <$> l)))%nat.
Proof.
  induction l as [|c l IH]; [simpl; lia|]. cbn [fmap list_fmap concat length].
  pose proof (print_char_nonempty false c). rewrite length_app. lia.
Qed.

Lemma length_stem_text ls : (length (stem ls) <= length (text ls))%nat.
Proof.
  induction ls as [|l ls IH]; [simpl; lia|]. cbn [stem text length]. unfold label_text.
  pose proof (concat_print_ge l). rewrite !length_app. simpl. lia.
Qed.

Lemma parse_text ls : forall fuel pre junk s, Forall label_ok ls ->
  (length (stem ls) < fuel)%nat ->
  zlength (pre ++ junk) = MAXDOMAINLEN -> zlength pre + zlength (stem ls) < MAXDOMAINLEN ->
  iter fuel dname_parse_step (pre ++ junk, zlength pre, zlength pre + 1, text ls ++ s) =
  iter (fuel - length (stem ls)) dname_parse_step
    (pre ++ stem ls ++ drop (length (stem ls)) junk,
     zlength pre + zlength (stem ls), zlength pre + zlength (stem ls) + 1, s).
Proof.
  induction ls as [|l ls IH]; intros fuel pre junk s Hls Hf Hm Hlen.
  { simpl. by rewrite Nat.sub_0_r, zlength_nil, Z.add_0_r. }
  apply Forall_cons in Hls as [Hl Hls]. cbn [stem length] in *. rewrite length_app in Hf.
  zlist. pose proof (zlength_nonneg (stem ls)). cbn [text]. rewrite <-app_assoc.
  rewrite parse_label by (done || lia || (unfold zlength in *; lia)).
  replace (pre ++ zlength l :: l ++ drop (S (length l)) junk)
    with ((pre ++ zlength l :: l) ++ drop (S (length l)) junk) by by rewrite <-app_assoc.
  replace (zlength pre + zlength l + 1) with (zlength (pre ++ zlength l :: l)) by (zlist; lia).
  replace (zlength pre + zlength l + 2) with (zlength (pre ++ zlength l :: l) + 1) by (zlist; lia).
  rewrite IH; [|done|lia| |zlist; lia].
  - rewrite drop_drop, length_app. cbn [app]. rewrite <-!app_assoc. cbn [app]. zlist. eq_lia.
  - unfold zlength in *. rewrite !length_app, length_drop in *. simpl. lia.
Qed.

(** The whole loop on a text, from the start of the memory. *)
Lemma parse_loop ls junk s fuel : Forall label_ok ls ->
  zlength junk = MAXDOMAINLEN -> zlength (wire ls) <= MAXDOMAINLEN ->
  (length (stem ls) < fuel)%nat ->
  iter fuel dname_parse_step (junk, 0, 1, text ls ++ s) =
  iter (fuel - length (stem ls)) dname_parse_step
    (stem ls ++ drop (length (stem ls)) junk, zlength (stem ls), zlength (stem ls) + 1, s).
Proof.
  intros Hls Hj Hlen Hf. rewrite wire_stem in Hlen. zlist.
  apply (parse_text ls fuel [] junk s); [done..|zlist; lia].
Qed.

Lemma drop_room ls (junk : list Z) : zlength junk = MAXDOMAINLEN ->
  zlength (wire ls) <= MAXDOMAINLEN ->
  exists x rest, drop (length (stem ls)) junk = x :: rest.
Proof.
  intros Hj Hlen. rewrite wire_stem in Hlen. zlist.
  destruct (drop (length (stem ls)) junk) as [|x rest] eqn:E; [|by eauto].
  apply (f_equal length) in E. rewrite length_drop in E. unfold zlength in *. simpl in E. lia.
Qed.

(** A text with its final dot: the wire form and its length. *)
Lemma dname_parse_wire_text ls junk : name_ok ls -> ls <> [] -> zlength junk = MAXDOMAINLEN ->
  exists rest, dname_parse_wire junk (text ls) = Ok (wire ls ++ rest, zlength (wire ls)).
Proof.
  intros [Hls Hlen] Hne Hj. destruct (drop_room ls junk Hj Hlen) as (x & rest & Hd).
  exists rest. unfold dname_parse_wire. rewrite decide_False.
  2:{ intros E. pose proof (length_stem_text ls) as H. rewrite E in H.
      destruct ls as [|l ls]; [done|]. apply Forall_cons in Hls as [[Hl _] _].
      simpl in H. rewrite length_app in H. unfold zlength in Hl. lia. }
  pose proof (length_stem_text ls).
  pose proof (parse_loop ls junk [] (S (length (text ls))) Hls Hj Hlen ltac:(lia)) as E.
  rewrite app_nil_r in E. rewrite E, Hd.
  replace (S (length (text ls)) - length (stem ls))%nat
    with (S (length (text ls) - length (stem ls))) by lia.
  cbn [iter dname_parse_step mbind res_bind mret res_ret].
  rewrite Z.eqb_refl. cbn [negb andb mbind res_bind mret res_ret].
  rewrite wire_stem in *. zlist. rewrite (proj2 (Z.leb_gt _ _)) by lia.
  rewrite mem_set_middle. cbn. by rewrite <-app_assoc.
Qed.

(** C18 (round trip): a name printed by [dname_to_string] fits the static
    buffer with its terminating zero, and [dname_parse] of the text gives back
    the name, in lower case. *)
Theorem dname_parse_to_string ls junk : name_ok ls -> zlength junk = MAXDOMAINLEN ->
  let txt := if decide (ls = []) then [46] else text ls in
  dname_to_string (of_labels ls) None = Ok txt /\
  zlength txt < MAXDOMAINLEN * 5 /\
  dname_parse junk txt = Ok (Some (of_labels (normalize ls))).
Proof.
  intros Hok Hj txt. subst txt. rewrite dname_to_string_spec by done. split; [done|].
  pose proof Hok as [_ Hlen]. unfold dname_parse. case_decide as E.
  - subst ls. split; [unfold MAXDOMAINLEN; zlist; lia|].
    destruct junk as [|x junk]; [done|].
    pose proof (mem_set_middle [] x junk 0) as Hm. change (zlength []) with 0 in Hm.
    cbn [app] in Hm. unfold dname_parse_wire. rewrite decide_True by done. rewrite Hm.
    cbn [mbind res_bind mret res_ret Z.eqb]. apply (dname_make_wire [] junk true). done.
  - split.
    + pose proof (text_length ls). rewrite wire_stem in Hlen. zlist.
      unfold MAXDOMAINLEN in *. lia.
    + destruct (dname_parse_wire_text ls junk Hok E Hj) as [rest ->]. cbn [mbind res_bind].
      pose proof (zlength_wire ls). rewrite (proj2 (Z.eqb_neq _ _)) by lia.
      by apply dname_make_wire.
Qed.

(** A name with a dot, a space and a capital in its first label. *)
Lemma dname_parse_to_string_witness :
  let ls := [[65; 46; 32]; [99]] in
  let txt := if decide (ls = []) then [46] else text ls in
  dname_to_string (of_labels ls) None = Ok txt /\
  zlength txt < MAXDOMAINLEN * 5 /\
  dname_parse (replicate 255 7) txt = Ok (Some (of_labels (normalize ls))).
Proof.
  intros ls. apply dname_parse_to_string; [by apply (bool_decide_unpack _)|done].
Defined.

(** No printed name looks like the text of the root. *)
Lemma printed_not_dot l s : label_ok l -> concat (print_char false <$> l) ++ s <> [46].
Proof.
  intros [Hl _] E. destruct l as [|c l]; [zlist; lia|].
  apply (f_equal head) in E. cbn [fmap list_fmap concat] in E.
  unfold print_char, escape_decimal in E.
  destruct (isalnum c || (c =? 45) || (c =? 95) || _) eqn:E1.
  - injection E as ->. done.
  - by destruct ((c =? 46) || (c =? 92)).
Qed.

Lemma text_not_dot ls l s : Forall label_ok (ls ++ [l]) ->
  text ls ++ concat (print_char false <$> l) ++ s <> [46].
Proof.
  destruct ls as [|l0 ls]; intros [Hls Hl]%Forall_app.
  - apply Forall_cons in Hl as [Hl _]. by apply printed_not_dot.
  - apply Forall_cons in Hls as [Hl0 _]. cbn [text]. unfold label_text.
    rewrite <-!app_assoc. by apply printed_not_dot.
Qed.

(** The end of the parse of a text without its final dot. *)
Lemma parse_unterminated ls l junk : name_ok (ls ++ [l]) -> zlength junk = MAXDOMAINLEN ->
  exists x rest, zlength (x :: l ++ rest) = MAXDOMAINLEN - zlength (stem ls) /\
    (1 <= length rest)%nat /\
    iter (S (length (text ls ++ concat (print_char false <$> l)))) dname_parse_step
      (junk, 0, 1, text ls ++ concat (print_char false <$> l)) =
    Ok (stem ls ++ x :: l ++ rest,
        Some (zlength (stem ls), zlength (stem ls) + zlength l + 1)).
Proof.
  intros [Hls Hlen] Hj. apply Forall_app in Hls as [Hls Hl].
  apply Forall_cons in Hl as [[Hl1 Hlb] _].
  rewrite wire_app in Hlen. cbn [wire] in Hlen. zlist.
  destruct (drop_room ls junk Hj) as (x & post & Hd); [rewrite wire_stem; zlist; lia|].
  assert (Hpost : zlength (x :: post) = MAXDOMAINLEN - zlength (stem ls)).
  { rewrite <-Hd, zlength_drop. unfold zlength in *. lia. }
  pose proof (length_stem_text ls). pose proof (concat_print_ge l).
  zlist. unfold zlength in Hpost.
  rewrite parse_loop; [|done..|rewrite wire_stem; zlist; lia|rewrite length_app; lia].
  rewrite Hd. replace (stem ls ++ x :: post) with ((stem ls ++ [x]) ++ post)
    by by rewrite <-app_assoc.
  replace (zlength (stem ls) + 1) with (zlength (stem ls ++ [x])) by by zlist.
  rewrite length_app. set (fuel := (S (_ + _) - _)%nat).
  rewrite <-(app_nil_r (concat (print_char false <$> l))).
  rewrite parse_chars; [|done|lia|unfold zlength in *; simpl in Hpost; lia|zlist; lia].
  exists x, (drop (length l) post). split_and!.
  - zlist. rewrite zlength_drop. unfold zlength in *. lia.
  - rewrite length_drop. unfold zlength in *. lia.
  - subst fuel.
    replace (_ - _ - _)%nat
      with (S (length (text ls) + length (concat (print_char false <$> l)) -
               length (stem ls) - length l)) by lia.
    cbn [iter dname_parse_step]. zlist. rewrite <-!app_assoc. cbn [app]. eq_lia.
Qed.

(** The return value of [dname_parse_wire] is the length of the
    wire format for a text with a final dot, but one less than the length for
    the same name written without it, although the memory holds the same wire
    format in both cases. *)
Theorem dname_parse_wire_length ls l junk : name_ok (ls ++ [l]) -> zlength junk = MAXDOMAINLEN ->
  exists rest rest',
    dname_parse_wire junk (text (ls ++ [l])) =
      Ok (wire (ls ++ [l]) ++ rest, zlength (wire (ls ++ [l]))) /\
    dname_parse_wire junk (text ls ++ concat (print_char false <$> l)) =
      Ok (wire (ls ++ [l]) ++ rest', zlength (wire (ls ++ [l])) - 1).
Proof.
  intros Hok Hj. destruct (dname_parse_wire_text _ junk Hok ltac:(by destruct ls) Hj) as [rest Hr].
  exists rest. rewrite Hr. pose proof Hok as [Hls Hlen].
  destruct (parse_unterminated ls l junk Hok Hj) as (x & rest' & Hz & Hrest & E).
  destruct rest' as [|y rest']; [simpl in Hrest; lia|].
  exists rest'. split; [done|]. unfold dname_parse_wire.
  pose proof (text_not_dot ls l [] Hls) as Hdot. rewrite app_nil_r in Hdot.
  rewrite decide_False by done. rewrite E. cbn [mbind res_bind mret res_ret].
  apply Forall_app in Hls as [_ Hl]. apply Forall_cons in Hl as [[Hl _] _].
  rewrite wire_app in *. cbn [wire] in *. zlist. unfold MAXDOMAINLEN in *.
  rewrite (proj2 (Z.eqb_neq _ _)) by lia.
  replace (zlength (stem ls) + zlength l + 1 - zlength (stem ls) - 1) with (zlength l) by lia.
  rewrite (proj2 (Z.ltb_ge _ _)) by (unfold MAXLABELLEN; lia). cbn [negb andb].
  rewrite u8_small, mem_set_middle by lia. cbn [mbind res_bind mret res_ret].
  rewrite (proj2 (Z.leb_gt _ _)) by lia.
  replace (stem ls ++ zlength l :: l ++ y :: rest')
    with ((stem ls ++ zlength l :: l) ++ y :: rest') by by rewrite <-app_assoc.
  replace (zlength (stem ls) + zlength l + 1) with (zlength (stem ls ++ zlength l :: l)) by (zlist; lia).
  rewrite mem_set_middle. cbn [mbind res_bind mret res_ret].
  rewrite <-!app_assoc. cbn [app]. rewrite <-app_assoc. zlist. eq_lia. rewrite zlength_nil. lia.
Qed.

Lemma dname_parse_wire_length_witness :
  exists rest rest',
    dname_parse_wire (replicate 255 7) (text ([[97]] ++ [[99]])) =
      Ok (wire ([[97]] ++ [[99]]) ++ rest, zlength (wire ([[97]] ++ [[99]]))) /\
    dname_parse_wire (replicate 255 7) (text [[97]] ++ concat (print_char false <$> [99])) =
      Ok (wire ([[97]] ++ [[99]]) ++ rest', zlength (wire ([[97]] ++ [[99]])) - 1).
Proof.
  apply dname_parse_wire_length; [by apply (bool_decide_unpack _)|done].
Defined.

(** * Printing relative to an origin *)

Lemma common_prefix_app {A} `{EqDecision A} (l r : list A) :
  common_prefix (l ++ r) l = length l.
Proof. induction l as [|a l IH]; simpl; [by destruct r|]. by rewrite decide_True, IH. Qed.

Lemma common_labels_suffix x o : common_labels (x ++ o) o = zlength o.
Proof.
  unfold common_labels. rewrite reverse_app, common_prefix_app, length_reverse. done.
Qed.

Lemma text_nonempty ls : ls <> [] -> (1 <= length (text ls))%nat.
Proof.
  destruct ls as [|l ls]; [done|]. intros _. cbn [text]. unfold label_text.
  rewrite !length_app. simpl. lia.
Qed.

(** Printing a name below an origin gives the labels in front of
    the origin, separated by dots and without a last one; but printing a name
    relative to itself writes the terminating zero before the start of the
    static buffer. *)
Theorem dname_to_string_relative x origin :
  name_ok (x ++ origin) -> x ++ origin <> [] ->
  dname_to_string (of_labels (x ++ origin)) (Some (of_labels origin)) =
    if decide (x = []) then Assert_failed else Ok (take (length (text x) - 1) (text x)).
Proof.
  intros Hok Hne. pose proof (name_ok_suffix _ _ Hok) as Ho. pose proof Hok as [Hls _].
  unfold dname_to_string. cbn [label_count of_labels].
  rewrite (proj2 (Z.eqb_neq _ _)).
  2:{ unfold zlength. destruct (x ++ origin); [done|simpl; lia]. }
  rewrite dname_is_subdomain_spec by done. cbn [mbind res_bind].
  rewrite bool_decide_eq_true_2 by (by exists x).
  rewrite dname_label_match_count_spec, common_labels_suffix by done.
  cbn [mbind res_bind mret res_ret dname_name of_labels].
  replace (Z.to_nat _) with (length x) by (zlist; unfold zlength; lia).
  apply Forall_app in Hls as [Hx _]. rewrite wire_app, to_string_labels by done.
  cbn [mbind res_bind]. case_decide as E; [by subst|].
  pose proof (text_nonempty x E). by rewrite (proj2 (Z.eqb_neq _ _)) by (unfold zlength; lia).
Qed.

(** "a.c" relative to "c" is "a". *)
Lemma dname_to_string_relative_witness :
  dname_to_string (of_labels ([[97]] ++ [[99]])) (Some (of_labels [[99]])) =
    if decide ([[97]] = []) then Assert_failed
    else Ok (take (length (text [[97]]) - 1) (text [[97]])).
Proof.
  apply dname_to_string_relative; [by apply (bool_decide_unpack _)|done].
Defined.
