(* ===== verification/Dns.v ===== *)
(** Model of the tables of types and classes (src/dns.h, src/dns.c): the
    descriptor of each record type with the format of its data fields, and the
    conversions between types or classes and their names. *)

From S2P Require Import Prelude Dname.
From Stdlib Require Ascii String.
Export String.StringSyntax.

Delimit Scope string_scope with string.

(** A C string: its characters, without the terminating zero. *)
Definition str (s : String.string) : list Z :=
  (fun c => Z.of_N (Ascii.N_of_ascii c)) <$> String.list_ascii_of_string s.
Arguments str s%_string.

Definition TYPE_A : Z := 1.
Definition TYPE_NS : Z := 2.
Definition TYPE_MD : Z := 3.
Definition TYPE_MF : Z := 4.
Definition TYPE_CNAME : Z := 5.
Definition TYPE_SOA : Z := 6.
Definition TYPE_MB : Z := 7.
Definition TYPE_MG : Z := 8.
Definition TYPE_MR : Z := 9.
Definition TYPE_NULL : Z := 10.
Definition TYPE_WKS : Z := 11.
Definition TYPE_PTR : Z := 12.
Definition TYPE_HINFO : Z := 13.
Definition TYPE_MINFO : Z := 14.
Definition TYPE_MX : Z := 15.
Definition TYPE_TXT : Z := 16.
Definition TYPE_RP : Z := 17.
Definition TYPE_AFSDB : Z := 18.
Definition TYPE_X25 : Z := 19.
Definition TYPE_ISDN : Z := 20.
Definition TYPE_RT : Z := 21.
Definition TYPE_NSAP : Z := 22.
Definition TYPE_SIG : Z := 24.
Definition TYPE_KEY : Z := 25.
Definition TYPE_PX : Z := 26.
Definition TYPE_AAAA : Z := 28.
Definition TYPE_LOC : Z := 29.
Definition TYPE_NXT : Z := 30.
Definition TYPE_SRV : Z := 33.
Definition TYPE_NAPTR : Z := 35.
Definition TYPE_KX : Z := 36.
Definition TYPE_CERT : Z := 37.
Definition TYPE_A6 : Z := 38.
Definition TYPE_DNAME : Z := 39.
Definition TYPE_OPT : Z := 41.
Definition TYPE_APL : Z := 42.
Definition TYPE_DS : Z := 43.
Definition TYPE_SSHFP : Z := 44.
Definition TYPE_IPSECKEY : Z := 45.
Definition TYPE_RRSIG : Z := 46.
Definition TYPE_NSEC : Z := 47.
Definition TYPE_DNSKEY : Z := 48.
Definition TYPE_DHCID : Z := 49.
Definition TYPE_NSEC3 : Z := 50.
Definition TYPE_NSEC3PARAM : Z := 51.
Definition TYPE_TLSA : Z := 52.
Definition TYPE_CDS : Z := 59.
Definition TYPE_CDNSKEY : Z := 60.
Definition TYPE_OPENPGPKEY : Z := 61.
Definition TYPE_CSYNC : Z := 62.
Definition TYPE_SPF : Z := 99.
Definition TYPE_NID : Z := 104.
Definition TYPE_L32 : Z := 105.
Definition TYPE_L64 : Z := 106.
Definition TYPE_LP : Z := 107.
Definition TYPE_EUI48 : Z := 108.
Definition TYPE_EUI64 : Z := 109.
Definition TYPE_URI : Z := 256.
Definition TYPE_CAA : Z := 257.
Definition TYPE_AVC : Z := 258.
Definition TYPE_DLV : Z := 32769.
Definition TYPE_TSIG : Z := 250.
Definition TYPE_IXFR : Z := 251.
Definition TYPE_AXFR : Z := 252.
Definition TYPE_MAILB : Z := 253.
Definition TYPE_MAILA : Z := 254.
Definition TYPE_ANY : Z := 255.

Definition CLASS_IN : Z := 1.
Definition CLASS_CS : Z := 2.
Definition CLASS_CH : Z := 3.
Definition CLASS_HS : Z := 4.
Definition CLASS_NONE : Z := 254.
Definition CLASS_ANY : Z := 255.

Definition RCODE_OK : Z := 0.
Definition RCODE_FORMAT : Z := 1.
Definition RCODE_SERVFAIL : Z := 2.
Definition RCODE_NXDOMAIN : Z := 3.
Definition RCODE_IMPL : Z := 4.
Definition RCODE_REFUSE : Z := 5.
Definition RCODE_YXDOMAIN : Z := 6.
Definition RCODE_NOTAUTH : Z := 9.

Definition OPCODE_QUERY : Z := 0.
Definition OPCODE_NOTIFY : Z := 4.

Inductive nsd_rc :=
  | NSD_RC_DISCARD | NSD_RC_OK | NSD_RC_FORMAT | NSD_RC_SERVFAIL
  | NSD_RC_NXDOMAIN | NSD_RC_IMPL | NSD_RC_REFUSE | NSD_RC_NOTAUTH.
#[export] Instance nsd_rc_eq_dec : EqDecision nsd_rc.
Proof. solve_decision. Defined.

(** The values of the enumeration. *)
Definition rc_code (rc : nsd_rc) : Z :=
  match rc with
  | NSD_RC_DISCARD => -1
  | NSD_RC_OK => RCODE_OK
  | NSD_RC_FORMAT => RCODE_FORMAT
  | NSD_RC_SERVFAIL => RCODE_SERVFAIL
  | NSD_RC_NXDOMAIN => RCODE_NXDOMAIN
  | NSD_RC_IMPL => RCODE_IMPL
  | NSD_RC_REFUSE => RCODE_REFUSE
  | NSD_RC_NOTAUTH => RCODE_NOTAUTH
  end.

(** * Formats of data fields *)
Inductive rdata_wireformat :=
  | RDATA_WF_COMPRESSED_DNAME | RDATA_WF_UNCOMPRESSED_DNAME
  | RDATA_WF_LITERAL_DNAME | RDATA_WF_BYTE | RDATA_WF_SHORT | RDATA_WF_LONG
  | RDATA_WF_TEXT | RDATA_WF_TEXTS | RDATA_WF_A | RDATA_WF_AAAA
  | RDATA_WF_BINARY | RDATA_WF_BINARYWITHLENGTH | RDATA_WF_APL
  | RDATA_WF_IPSECGATEWAY | RDATA_WF_ILNP64 | RDATA_WF_EUI48 | RDATA_WF_EUI64
  | RDATA_WF_LONG_TEXT.

Inductive rdata_zoneformat :=
  | RDATA_ZF_DNAME | RDATA_ZF_LITERAL_DNAME | RDATA_ZF_TEXT | RDATA_ZF_TEXTS
  | RDATA_ZF_BYTE | RDATA_ZF_SHORT | RDATA_ZF_LONG | RDATA_ZF_A
  | RDATA_ZF_AAAA | RDATA_ZF_RRTYPE | RDATA_ZF_ALGORITHM
  | RDATA_ZF_CERTIFICATE_TYPE | RDATA_ZF_PERIOD | RDATA_ZF_TIME
  | RDATA_ZF_BASE64 | RDATA_ZF_BASE32 | RDATA_ZF_HEX | RDATA_ZF_HEX_LEN
  | RDATA_ZF_NSAP | RDATA_ZF_APL | RDATA_ZF_IPSECGATEWAY | RDATA_ZF_SERVICES
  | RDATA_ZF_NXT | RDATA_ZF_NSEC | RDATA_ZF_LOC | RDATA_ZF_ILNP64
  | RDATA_ZF_EUI48 | RDATA_ZF_EUI64 | RDATA_ZF_LONG_TEXT | RDATA_ZF_TAG
  | RDATA_ZF_UNKNOWN.

#[export] Instance rdata_wireformat_eq_dec : EqDecision rdata_wireformat.
Proof. solve_decision. Defined.
#[export] Instance rdata_zoneformat_eq_dec : EqDecision rdata_zoneformat.
Proof. solve_decision. Defined.

(** The parser token of a type is left out. *)
Record rrtype_descriptor := mkdescriptor {
  d_type : Z;
  d_name : option (list Z);
  d_minimum : Z;
  d_maximum : Z;
  d_wireformat : list rdata_wireformat;
  d_zoneformat : list rdata_zoneformat;
}.

Definition MAXRDATALEN : Z := 64.
Definition RRTYPE_DESCRIPTORS_LENGTH : Z := TYPE_AVC + 1.
Definition PSEUDO_TYPE_DLV : Z := RRTYPE_DESCRIPTORS_LENGTH.

Definition unknown_type (n : Z) : rrtype_descriptor :=
  mkdescriptor n None 1 1 [RDATA_WF_BINARY] [RDATA_ZF_UNKNOWN].

(** * The table *)
Definition rrtype_descriptors_0 : list rrtype_descriptor :=
  [ unknown_type 0;
    mkdescriptor TYPE_A (Some (str "A")) 1 1
     [RDATA_WF_A]
     [RDATA_ZF_A];
    mkdescriptor TYPE_NS (Some (str "NS")) 1 1
     [RDATA_WF_COMPRESSED_DNAME]
     [RDATA_ZF_DNAME];
    mkdescriptor TYPE_MD (Some (str "MD")) 1 1
     [RDATA_WF_UNCOMPRESSED_DNAME]
     [RDATA_ZF_DNAME];
    mkdescriptor TYPE_MF (Some (str "MF")) 1 1
     [RDATA_WF_UNCOMPRESSED_DNAME]
     [RDATA_ZF_DNAME];
    mkdescriptor TYPE_CNAME (Some (str "CNAME")) 1 1
     [RDATA_WF_COMPRESSED_DNAME]
     [RDATA_ZF_DNAME];
    mkdescriptor TYPE_SOA (Some (str "SOA")) 7 7
     [RDATA_WF_COMPRESSED_DNAME; RDATA_WF_COMPRESSED_DNAME; RDATA_WF_LONG;
      RDATA_WF_LONG; RDATA_WF_LONG; RDATA_WF_LONG; RDATA_WF_LONG]
     [RDATA_ZF_DNAME; RDATA_ZF_DNAME; RDATA_ZF_PERIOD; RDATA_ZF_PERIOD; RDATA_ZF_PERIOD;
      RDATA_ZF_PERIOD; RDATA_ZF_PERIOD];
    mkdescriptor TYPE_MB (Some (str "MB")) 1 1
     [RDATA_WF_COMPRESSED_DNAME]
     [RDATA_ZF_DNAME];
    mkdescriptor TYPE_MG (Some (str "MG")) 1 1
     [RDATA_WF_COMPRESSED_DNAME]
     [RDATA_ZF_DNAME];
    mkdescriptor TYPE_MR (Some (str "MR")) 1 1
     [RDATA_WF_COMPRESSED_DNAME]
     [RDATA_ZF_DNAME];
    mkdescriptor TYPE_NULL (Some (str "NULL")) 1 1
     [RDATA_WF_BINARY]
     [RDATA_ZF_UNKNOWN];
    mkdescriptor TYPE_WKS (Some (str "WKS")) 2 2
     [RDATA_WF_A; RDATA_WF_BINARY]
     [RDATA_ZF_A; RDATA_ZF_SERVICES];
    mkdescriptor TYPE_PTR (Some (str "PTR")) 1 1
     [RDATA_WF_COMPRESSED_DNAME]
     [RDATA_ZF_DNAME];
    mkdescriptor TYPE_HINFO (Some (str "HINFO")) 2 2
     [RDATA_WF_TEXT; RDATA_WF_TEXT]
     [RDATA_ZF_TEXT; RDATA_ZF_TEXT];
    mkdescriptor TYPE_MINFO (Some (str "MINFO")) 2 2
     [RDATA_WF_COMPRESSED_DNAME; RDATA_WF_COMPRESSED_DNAME]
     [RDATA_ZF_DNAME; RDATA_ZF_DNAME];
    mkdescriptor TYPE_MX (Some (str "MX")) 2 2
     [RDATA_WF_SHORT; RDATA_WF_COMPRESSED_DNAME]
     [RDATA_ZF_SHORT; RDATA_ZF_DNAME];
    mkdescriptor TYPE_TXT (Some (str "TXT")) 1 1
     [RDATA_WF_TEXTS]
     [RDATA_ZF_TEXTS];
    mkdescriptor TYPE_RP (Some (str "RP")) 2 2
     [RDATA_WF_UNCOMPRESSED_DNAME; RDATA_WF_UNCOMPRESSED_DNAME]
     [RDATA_ZF_DNAME; RDATA_ZF_DNAME];
    mkdescriptor TYPE_AFSDB (Some (str "AFSDB")) 2 2
     [RDATA_WF_SHORT; RDATA_WF_UNCOMPRESSED_DNAME]
     [RDATA_ZF_SHORT; RDATA_ZF_DNAME];
    mkdescriptor TYPE_X25 (Some (str "X25")) 1 1
     [RDATA_WF_TEXT]
     [RDATA_ZF_TEXT];
    mkdescriptor TYPE_ISDN (Some (str "ISDN")) 1 2
     [RDATA_WF_TEXT; RDATA_WF_TEXT]
     [RDATA_ZF_TEXT; RDATA_ZF_TEXT];
    mkdescriptor TYPE_RT (Some (str "RT")) 2 2
     [RDATA_WF_SHORT; RDATA_WF_UNCOMPRESSED_DNAME]
     [RDATA_ZF_SHORT; RDATA_ZF_DNAME];
    mkdescriptor TYPE_NSAP (Some (str "NSAP")) 1 1
     [RDATA_WF_BINARY]
     [RDATA_ZF_NSAP] ].

Definition rrtype_descriptors_23 : list rrtype_descriptor :=
  [ unknown_type 23;
    mkdescriptor TYPE_SIG (Some (str "SIG")) 9 9
     [RDATA_WF_SHORT; RDATA_WF_BYTE; RDATA_WF_BYTE; RDATA_WF_LONG; RDATA_WF_LONG;
      RDATA_WF_LONG; RDATA_WF_SHORT; RDATA_WF_UNCOMPRESSED_DNAME; RDATA_WF_BINARY]
     [RDATA_ZF_RRTYPE; RDATA_ZF_BYTE; RDATA_ZF_BYTE; RDATA_ZF_PERIOD; RDATA_ZF_TIME;
      RDATA_ZF_TIME; RDATA_ZF_SHORT; RDATA_ZF_DNAME; RDATA_ZF_BASE64];
    mkdescriptor TYPE_KEY (Some (str "KEY")) 4 4
     [RDATA_WF_SHORT; RDATA_WF_BYTE; RDATA_WF_BYTE; RDATA_WF_BINARY]
     [RDATA_ZF_SHORT; RDATA_ZF_BYTE; RDATA_ZF_ALGORITHM; RDATA_ZF_BASE64];
    mkdescriptor TYPE_PX (Some (str "PX")) 3 3
     [RDATA_WF_SHORT; RDATA_WF_UNCOMPRESSED_DNAME; RDATA_WF_UNCOMPRESSED_DNAME]
     [RDATA_ZF_SHORT; RDATA_ZF_DNAME; RDATA_ZF_DNAME];
    unknown_type 27;
    mkdescriptor TYPE_AAAA (Some (str "AAAA")) 1 1
     [RDATA_WF_AAAA]
     [RDATA_ZF_AAAA];
    mkdescriptor TYPE_LOC (Some (str "LOC")) 1 1
     [RDATA_WF_BINARY]
     [RDATA_ZF_LOC];
    mkdescriptor TYPE_NXT (Some (str "NXT")) 2 2
     [RDATA_WF_UNCOMPRESSED_DNAME; RDATA_WF_BINARY]
     [RDATA_ZF_DNAME; RDATA_ZF_NXT] ] ++
  (unknown_type <$> seqZ 31 2) ++
  [ mkdescriptor TYPE_SRV (Some (str "SRV")) 4 4
     [RDATA_WF_SHORT; RDATA_WF_SHORT; RDATA_WF_SHORT; RDATA_WF_UNCOMPRESSED_DNAME]
     [RDATA_ZF_SHORT; RDATA_ZF_SHORT; RDATA_ZF_SHORT; RDATA_ZF_DNAME];
    unknown_type 34;
    mkdescriptor TYPE_NAPTR (Some (str "NAPTR")) 6 6
     [RDATA_WF_SHORT; RDATA_WF_SHORT; RDATA_WF_TEXT; RDATA_WF_TEXT; RDATA_WF_TEXT;
      RDATA_WF_UNCOMPRESSED_DNAME]
     [RDATA_ZF_SHORT; RDATA_ZF_SHORT; RDATA_ZF_TEXT; RDATA_ZF_TEXT; RDATA_ZF_TEXT;
      RDATA_ZF_DNAME];
    mkdescriptor TYPE_KX (Some (str "KX")) 2 2
     [RDATA_WF_SHORT; RDATA_WF_UNCOMPRESSED_DNAME]
     [RDATA_ZF_SHORT; RDATA_ZF_DNAME];
    mkdescriptor TYPE_CERT (Some (str "CERT")) 4 4
     [RDATA_WF_SHORT; RDATA_WF_SHORT; RDATA_WF_BYTE; RDATA_WF_BINARY]
     [RDATA_ZF_CERTIFICATE_TYPE; RDATA_ZF_SHORT; RDATA_ZF_ALGORITHM; RDATA_ZF_BASE64];
    mkdescriptor TYPE_A6 None 1 1
     [RDATA_WF_BINARY]
     [RDATA_ZF_UNKNOWN];
    mkdescriptor TYPE_DNAME (Some (str "DNAME")) 1 1
     [RDATA_WF_UNCOMPRESSED_DNAME]
     [RDATA_ZF_DNAME];
    unknown_type 40;
    mkdescriptor TYPE_OPT (Some (str "OPT")) 1 1
     [RDATA_WF_BINARY]
     [RDATA_ZF_UNKNOWN] ].

Definition rrtype_descriptors_42 : list rrtype_descriptor :=
  [ mkdescriptor TYPE_APL (Some (str "APL")) 0 MAXRDATALEN
     (replicate (Z.to_nat MAXRDATALEN) RDATA_WF_APL)
     (replicate (Z.to_nat MAXRDATALEN) RDATA_ZF_APL);
    mkdescriptor TYPE_DS (Some (str "DS")) 4 4
     [RDATA_WF_SHORT; RDATA_WF_BYTE; RDATA_WF_BYTE; RDATA_WF_BINARY]
     [RDATA_ZF_SHORT; RDATA_ZF_ALGORITHM; RDATA_ZF_BYTE; RDATA_ZF_HEX];
    mkdescriptor TYPE_SSHFP (Some (str "SSHFP")) 3 3
     [RDATA_WF_BYTE; RDATA_WF_BYTE; RDATA_WF_BINARY]
     [RDATA_ZF_BYTE; RDATA_ZF_BYTE; RDATA_ZF_HEX];
    mkdescriptor TYPE_IPSECKEY (Some (str "IPSECKEY")) 4 5
     [RDATA_WF_BYTE; RDATA_WF_BYTE; RDATA_WF_BYTE; RDATA_WF_IPSECGATEWAY;
      RDATA_WF_BINARY]
     [RDATA_ZF_BYTE; RDATA_ZF_BYTE; RDATA_ZF_BYTE; RDATA_ZF_IPSECGATEWAY;
      RDATA_ZF_BASE64];
    mkdescriptor TYPE_RRSIG (Some (str "RRSIG")) 9 9
     [RDATA_WF_SHORT; RDATA_WF_BYTE; RDATA_WF_BYTE; RDATA_WF_LONG; RDATA_WF_LONG;
      RDATA_WF_LONG; RDATA_WF_SHORT; RDATA_WF_LITERAL_DNAME; RDATA_WF_BINARY]
     [RDATA_ZF_RRTYPE; RDATA_ZF_ALGORITHM; RDATA_ZF_BYTE; RDATA_ZF_PERIOD;
      RDATA_ZF_TIME; RDATA_ZF_TIME; RDATA_ZF_SHORT; RDATA_ZF_LITERAL_DNAME;
      RDATA_ZF_BASE64];
    mkdescriptor TYPE_NSEC (Some (str "NSEC")) 2 2
     [RDATA_WF_LITERAL_DNAME; RDATA_WF_BINARY]
     [RDATA_ZF_LITERAL_DNAME; RDATA_ZF_NSEC];
    mkdescriptor TYPE_DNSKEY (Some (str "DNSKEY")) 4 4
     [RDATA_WF_SHORT; RDATA_WF_BYTE; RDATA_WF_BYTE; RDATA_WF_BINARY]
     [RDATA_ZF_SHORT; RDATA_ZF_BYTE; RDATA_ZF_ALGORITHM; RDATA_ZF_BASE64];
    mkdescriptor TYPE_DHCID (Some (str "DHCID")) 1 1
     [RDATA_WF_BINARY]
     [RDATA_ZF_BASE64];
    mkdescriptor TYPE_NSEC3 (Some (str "NSEC3")) 6 6
     [RDATA_WF_BYTE; RDATA_WF_BYTE; RDATA_WF_SHORT; RDATA_WF_BINARYWITHLENGTH;
      RDATA_WF_BINARYWITHLENGTH; RDATA_WF_BINARY]
     [RDATA_ZF_BYTE; RDATA_ZF_BYTE; RDATA_ZF_SHORT; RDATA_ZF_HEX_LEN; RDATA_ZF_BASE32;
      RDATA_ZF_NSEC];
    mkdescriptor TYPE_NSEC3PARAM (Some (str "NSEC3PARAM")) 4 4
     [RDATA_WF_BYTE; RDATA_WF_BYTE; RDATA_WF_SHORT; RDATA_WF_BINARYWITHLENGTH]
     [RDATA_ZF_BYTE; RDATA_ZF_BYTE; RDATA_ZF_SHORT; RDATA_ZF_HEX_LEN];
    mkdescriptor TYPE_TLSA (Some (str "TLSA")) 4 4
     [RDATA_WF_BYTE; RDATA_WF_BYTE; RDATA_WF_BYTE; RDATA_WF_BINARY]
     [RDATA_ZF_BYTE; RDATA_ZF_BYTE; RDATA_ZF_BYTE; RDATA_ZF_HEX] ] ++
  (unknown_type <$> seqZ 53 6) ++
  [ mkdescriptor TYPE_CDS (Some (str "CDS")) 4 4
     [RDATA_WF_SHORT; RDATA_WF_BYTE; RDATA_WF_BYTE; RDATA_WF_BINARY]
     [RDATA_ZF_SHORT; RDATA_ZF_ALGORITHM; RDATA_ZF_BYTE; RDATA_ZF_HEX];
    mkdescriptor TYPE_CDNSKEY (Some (str "CDNSKEY")) 4 4
     [RDATA_WF_SHORT; RDATA_WF_BYTE; RDATA_WF_BYTE; RDATA_WF_BINARY]
     [RDATA_ZF_SHORT; RDATA_ZF_BYTE; RDATA_ZF_ALGORITHM; RDATA_ZF_BASE64];
    mkdescriptor TYPE_OPENPGPKEY (Some (str "OPENPGPKEY")) 1 1
     [RDATA_WF_BINARY]
     [RDATA_ZF_BASE64];
    mkdescriptor TYPE_CSYNC (Some (str "CSYNC")) 3 3
     [RDATA_WF_LONG; RDATA_WF_SHORT; RDATA_WF_BINARY]
     [RDATA_ZF_LONG; RDATA_ZF_SHORT; RDATA_ZF_NSEC] ].

Definition rrtype_descriptors_63 : list rrtype_descriptor :=
  (unknown_type <$> seqZ 63 36) ++
  [ mkdescriptor TYPE_SPF (Some (str "SPF")) 1 MAXRDATALEN
     (replicate (Z.to_nat MAXRDATALEN) RDATA_WF_TEXT)
     (replicate (Z.to_nat MAXRDATALEN) RDATA_ZF_TEXT) ] ++
  (unknown_type <$> seqZ 100 4).

Definition rrtype_descriptors_104 : list rrtype_descriptor :=
  [ mkdescriptor TYPE_NID (Some (str "NID")) 2 2
     [RDATA_WF_SHORT; RDATA_WF_ILNP64]
     [RDATA_ZF_SHORT; RDATA_ZF_ILNP64];
    mkdescriptor TYPE_L32 (Some (str "L32")) 2 2
     [RDATA_WF_SHORT; RDATA_WF_A]
     [RDATA_ZF_SHORT; RDATA_ZF_A];
    mkdescriptor TYPE_L64 (Some (str "L64")) 2 2
     [RDATA_WF_SHORT; RDATA_WF_ILNP64]
     [RDATA_ZF_SHORT; RDATA_ZF_ILNP64];
    mkdescriptor TYPE_LP (Some (str "LP")) 2 2
     [RDATA_WF_SHORT; RDATA_WF_UNCOMPRESSED_DNAME]
     [RDATA_ZF_SHORT; RDATA_ZF_DNAME];
    mkdescriptor TYPE_EUI48 (Some (str "EUI48")) 1 1
     [RDATA_WF_EUI48]
     [RDATA_ZF_EUI48];
    mkdescriptor TYPE_EUI64 (Some (str "EUI64")) 1 1
     [RDATA_WF_EUI64]
     [RDATA_ZF_EUI64] ] ++
  (unknown_type <$> seqZ 110 71).

Definition rrtype_descriptors_181 : list rrtype_descriptor :=
  (unknown_type <$> seqZ 181 75) ++
  [ mkdescriptor TYPE_URI (Some (str "URI")) 3 3
     [RDATA_WF_SHORT; RDATA_WF_SHORT; RDATA_WF_LONG_TEXT]
     [RDATA_ZF_SHORT; RDATA_ZF_SHORT; RDATA_ZF_LONG_TEXT];
    mkdescriptor TYPE_CAA (Some (str "CAA")) 3 3
     [RDATA_WF_BYTE; RDATA_WF_TEXT; RDATA_WF_LONG_TEXT]
     [RDATA_ZF_BYTE; RDATA_ZF_TAG; RDATA_ZF_LONG_TEXT];
    mkdescriptor TYPE_AVC (Some (str "AVC")) 1 1
     [RDATA_WF_TEXTS]
     [RDATA_ZF_TEXTS] ].

Definition rrtype_descriptors_259 : list rrtype_descriptor :=
  [ mkdescriptor TYPE_DLV (Some (str "DLV")) 4 4
     [RDATA_WF_SHORT; RDATA_WF_BYTE; RDATA_WF_BYTE; RDATA_WF_BINARY]
     [RDATA_ZF_SHORT; RDATA_ZF_ALGORITHM; RDATA_ZF_BYTE; RDATA_ZF_HEX] ].

Definition rrtype_descriptors : list rrtype_descriptor :=
  rrtype_descriptors_0 ++ rrtype_descriptors_23 ++ rrtype_descriptors_42 ++
  rrtype_descriptors_63 ++ rrtype_descriptors_104 ++ rrtype_descriptors_181 ++
  rrtype_descriptors_259.

Definition descriptor_at (i : Z) : rrtype_descriptor :=
  default (unknown_type 0) (rrtype_descriptors !! Z.to_nat i).

Definition rrtype_descriptor_by_type (type : Z) : rrtype_descriptor :=
  if type <? RRTYPE_DESCRIPTORS_LENGTH then descriptor_at type
  else if type =? TYPE_DLV then descriptor_at PSEUDO_TYPE_DLV
  else descriptor_at 0.

(** [strcasecmp(a, b) == 0] in the C locale. *)
Definition strcaseeq (a b : list Z) : bool :=
  bool_decide (DNAME_NORMALIZE <$> a = DNAME_NORMALIZE <$> b).
Definition strncaseeq (a b : list Z) (n : nat) : bool := strcaseeq (take n a) (take n b).

Definition descriptor_named (name : list Z) (d : rrtype_descriptor) : bool :=
  match d_name d with
  | Some n => strcaseeq n name
  | None => false
  end.

(** The entry for DLV comes last in the table, and is tried last. *)
Definition rrtype_descriptor_by_name (name : list Z) : option rrtype_descriptor :=
  match List.find (descriptor_named name)
          (take (Z.to_nat RRTYPE_DESCRIPTORS_LENGTH) rrtype_descriptors) with
  | Some d => Some d
  | None => if descriptor_named name (descriptor_at PSEUDO_TYPE_DLV)
            then Some (descriptor_at PSEUDO_TYPE_DLV) else None
  end.

(** An index past the initialised formats reads a zero. *)
Definition rdata_atom_wireformat_type (type index : Z) : res rdata_wireformat :=
  let descriptor := rrtype_descriptor_by_type type in
  rassert (index <? d_maximum descriptor);;
  mret (default RDATA_WF_COMPRESSED_DNAME (d_wireformat descriptor !! Z.to_nat index)).

Definition rdata_atom_is_domain (type index : Z) : bool :=
  let descriptor := rrtype_descriptor_by_type type in
  if d_maximum descriptor <=? index then false
  else match default RDATA_WF_COMPRESSED_DNAME (d_wireformat descriptor !! Z.to_nat index) with
       | RDATA_WF_COMPRESSED_DNAME | RDATA_WF_UNCOMPRESSED_DNAME => true
       | _ => false
       end.

(** * Names of types and classes *)

(** "%d" of a number below [10^fuel]. *)
Fixpoint print_dec (fuel : nat) (n : Z) : list Z :=
  match fuel with
  | O => []
  | S fuel => (if n <? 10 then [] else print_dec fuel (n / 10)) ++ [48 + n mod 10]
  end.

(** [strtol] in base 10 of a text that starts with a digit: the value, cut to
    the largest [long], and the rest. *)
Fixpoint scan_dec (acc : Z) (s : list Z) : Z * list Z :=
  match s with
  | c :: s' => if isdigit c then scan_dec (acc * 10 + (c - 48)) s' else (acc, s)
  | [] => (acc, [])
  end.
Definition strtol (s : list Z) : Z * list Z :=
  let '(v, rest) := scan_dec 0 s in (Z.min v (2 ^ 63 - 1), rest).

Definition rrtype_to_string (rrtype : Z) : list Z :=
  match d_name (rrtype_descriptor_by_type rrtype) with
  | Some name => name
  | None => str "TYPE" ++ print_dec 5 rrtype
  end.

(** The tests made before the table is searched: [Some] where the code
    returns. *)
Definition rrtype_frequent (name : list Z) : option Z :=
  let c i := DNAME_NORMALIZE (zget name i) in
  if c 0 =? 114 then
    if strcaseeq (drop 1 name) (str "RSIG") then Some TYPE_RRSIG else None
  else if c 0 =? 110 then
    if c 1 =? 115 then
      if c 2 =? 0 then Some TYPE_NS
      else if c 2 =? 101 then
        if strcaseeq (drop 2 name) (str "EC") then Some TYPE_NSEC
        else if strcaseeq (drop 2 name) (str "EC3") then Some TYPE_NSEC3
        else if strcaseeq (drop 2 name) (str "EC3PARAM") then Some TYPE_NSEC3PARAM
        else None
      else None
    else None
  else if c 0 =? 100 then
    if c 1 =? 115 then if c 2 =? 0 then Some TYPE_DS else None
    else if c 1 =? 110 then
      if strcaseeq (drop 2 name) (str "SKEY") then Some TYPE_DNSKEY else None
    else None
  else if c 0 =? 97 then
    if c 1 =? 0 then Some TYPE_A
    else if c 1 =? 97 then
      if strcaseeq (drop 2 name) (str "AA") then Some TYPE_AAAA else None
    else None
  else if c 0 =? 115 then
    if strcaseeq (drop 1 name) (str "OA") then Some TYPE_SOA else None
  else if c 0 =? 116 then
    if strcaseeq (drop 1 name) (str "XT") then Some TYPE_TXT else None
  else if isdigit (zget name 0) then Some 0
  else if c 0 =? 105 then if c 1 =? 110 then Some 0 else None
  else None.

(** The notation for a value without a name; 0 when it is not one. *)
Definition unknown_from_string (prefix name : list Z) : Z :=
  let n := length prefix in
  if zlength name <? zlength prefix + 1 then 0
  else if negb (strncaseeq name prefix n) then 0
  else if negb (isdigit (zget name (zlength prefix))) then 0
  else
    let '(v, end_) := strtol (drop n name) in
    if negb (zget end_ 0 =? 0) then 0
    else if (v <? 0) || (65535 <? v) then 0
    else u16 v.

Definition rrtype_from_string (name : list Z) : Z :=
  match rrtype_frequent name with
  | Some t => t
  | None =>
      match rrtype_descriptor_by_name name with
      | Some entry => d_type entry
      | None => unknown_from_string (str "TYPE") name
      end
  end.

Definition dns_rrclasses : list (Z * list Z) :=
  [(CLASS_IN, str "IN"); (CLASS_CS, str "CS"); (CLASS_CH, str "CH"); (CLASS_HS, str "HS")].

Definition lookup_by_name (table : list (Z * list Z)) (name : list Z) : option (Z * list Z) :=
  List.find (fun e => strcaseeq name e.2) table.
Definition lookup_by_id (table : list (Z * list Z)) (id : Z) : option (Z * list Z) :=
  List.find (fun e => e.1 =? id) table.

Definition rrclass_to_string (rrclass : Z) : list Z :=
  match lookup_by_id dns_rrclasses rrclass with
  | Some entry => entry.2
  | None => str "CLASS" ++ print_dec 5 rrclass
  end.

Definition rrclass_from_string (name : list Z) : Z :=
  match lookup_by_name dns_rrclasses name with
  | Some entry => u16 entry.1
  | None => unknown_from_string (str "CLASS") name
  end.

(** * Decimal numbers *)

Lemma isdigit_dec d : 0 <= d < 10 -> isdigit (48 + d) = true.
Proof. unfold isdigit. lia. Qed.

Lemma scan_dec_app s acc rest :
  Forall (fun c => isdigit c = true) s -> isdigit (zget rest 0) = false ->
  scan_dec acc (s ++ rest) = ((scan_dec acc s).1, rest).
Proof.
  intros Hs Hr. revert acc. induction Hs as [|c s Hc _ IH]; intros acc; simpl.
  - destruct rest as [|c rest]; [done|]. simpl. rewrite zget_0 in Hr. by rewrite Hr.
  - by rewrite Hc, IH.
Qed.

Lemma scan_dec_snoc s acc d :
  Forall (fun c => isdigit c = true) s -> 0 <= d < 10 ->
  scan_dec acc (s ++ [48 + d]) = ((scan_dec acc s).1 * 10 + d, []).
Proof.
  intros Hs Hd. revert acc. induction Hs as [|c s Hc _ IH]; intros acc; simpl.
  - rewrite isdigit_dec by done. f_equal. lia.
  - by rewrite Hc, IH.
Qed.

Lemma print_dec_digits fuel : forall n, 0 <= n ->
  Forall (fun c => isdigit c = true) (print_dec fuel n).
Proof.
  induction fuel as [|fuel IH]; intros n Hn; cbn [print_dec]; [constructor|].
  apply Forall_app. split; [case_match; [constructor|apply IH; dlia]|].
  repeat constructor. apply isdigit_dec. dlia.
Qed.

(** What is printed reads back. *)
Lemma scan_print_dec fuel : forall n, 0 <= n < 10 ^ Z.of_nat fuel -> (0 < fuel)%nat ->
  scan_dec 0 (print_dec fuel n) = (n, []).
Proof.
  induction fuel as [|fuel IH]; intros n Hn Hf; [lia|]. cbn [print_dec].
  destruct (Z.ltb_spec n 10) as [Hs|Hs].
  - cbn [app scan_dec]. rewrite Z.mod_small, isdigit_dec by lia. f_equal. lia.
  - rewrite scan_dec_snoc by (try apply print_dec_digits; dlia).
    destruct fuel as [|fuel]; [simpl in Hn; lia|].
    rewrite IH; [|split; [dlia|]|lia].
    + simpl. f_equal. dlia.
    + apply Z.div_lt_upper_bound; [lia|]. rewrite Nat2Z.inj_succ, Z.pow_succ_r in Hn by lia. lia.
Qed.

Lemma print_dec_nonempty fuel n : (0 < fuel)%nat -> exists c s, print_dec fuel n = c :: s.
Proof.
  intros. destruct fuel; [lia|]. simpl. destruct (if n <? 10 then _ else _); eauto.
Qed.

(** * Unknown types and classes *)

Lemma zget_app_here l r : zget (l ++ r) (zlength l) = zget r 0.
Proof. rewrite zget_app_r by lia. f_equal. lia. Qed.

Lemma unknown_roundtrip prefix n : 0 <= n < 65536 ->
  unknown_from_string prefix (prefix ++ print_dec 5 n) = n.
Proof.
  intros Hn. unfold unknown_from_string, strncaseeq, strcaseeq, strtol.
  destruct (print_dec_nonempty 5 n ltac:(lia)) as (c & s & E).
  pose proof (print_dec_digits 5 n ltac:(lia)) as Hd.
  rewrite drop_app_length, take_app_length, zget_app_here, firstn_all.
  rewrite bool_decide_true by done.
  rewrite scan_print_dec by lia. rewrite E in *. apply Forall_cons in Hd as [Hc _].
  rewrite zget_0, Hc, (proj2 (Z.ltb_ge _ _)).
  2:{ zlist. pose proof (zlength_nonneg s). lia. }
  rewrite Z.min_l by lia. simpl.
  rewrite (proj2 (Z.ltb_ge n 0)), (proj2 (Z.ltb_ge 65535 n)) by lia. by apply u16_small.
Qed.

(** No name of the table starts with this prefix. *)
Definition not_prefixed (prefix : list Z) (d : rrtype_descriptor) : bool :=
  match d_name d with
  | Some n => negb (strncaseeq n prefix (length prefix))
  | None => true
  end.

Lemma strcaseeq_prefix n prefix s :
  strcaseeq n (prefix ++ s) = true -> strncaseeq n prefix (length prefix) = true.
Proof.
  unfold strncaseeq, strcaseeq. rewrite !bool_decide_eq_true, firstn_all.
  intros H. rewrite fmap_app in H. rewrite fmap_take, H.
  rewrite <-(length_fmap DNAME_NORMALIZE prefix). apply take_app_length.
Qed.

Lemma not_named prefix s l : forallb (not_prefixed prefix) l = true ->
  List.find (descriptor_named (prefix ++ s)) l = None.
Proof.
  intros Hl. destruct (List.find _ l) as [d|] eqn:E; [|done].
  apply find_some in E as [Hin Hn]. rewrite forallb_forall in Hl. specialize (Hl d Hin).
  unfold not_prefixed, descriptor_named in *. destruct (d_name d); [|done].
  by rewrite (strcaseeq_prefix _ _ _ Hn) in Hl.
Qed.

Lemma by_name_unknown s : rrtype_descriptor_by_name (str "TYPE" ++ s) = None.
Proof.
  unfold rrtype_descriptor_by_name. rewrite not_named by (by vm_compute).
  assert (H : List.find (descriptor_named (str "TYPE" ++ s)) [descriptor_at PSEUDO_TYPE_DLV] = None)
    by (apply not_named; by vm_compute).
  cbn [List.find] in H. by destruct (descriptor_named (str "TYPE" ++ s) (descriptor_at _)).
Qed.

Lemma rrclass_roundtrip c : 0 <= c < 65536 -> rrclass_from_string (rrclass_to_string c) = c.
Proof.
  intros Hc. destruct (decide (c ∈ seqZ 1 4)) as [Hk|Hk].
  - assert (Hall : forallb (fun c => rrclass_from_string (rrclass_to_string c) =? c) (seqZ 1 4) = true)
      by (by vm_compute).
    rewrite forallb_forall in Hall. by apply Z.eqb_eq, Hall, list_elem_of_In.
  - rewrite elem_of_seqZ in Hk. unfold rrclass_to_string, lookup_by_id, dns_rrclasses, CLASS_IN,
      CLASS_CS, CLASS_CH, CLASS_HS. cbn [List.find fst].
    rewrite !(proj2 (Z.eqb_neq _ c)) by lia.
    unfold rrclass_from_string.
    change (lookup_by_name dns_rrclasses (str "CLASS" ++ print_dec 5 c)) with (@None (Z * list Z)).
    by apply unknown_roundtrip.
Qed.

(** C16 (round trip): the name printed for a type or a class is read back as
    that number, for every 16-bit value: the tests for frequent names, the
    tables and the TYPE and CLASS notations agree. *)
Theorem rrtype_rrclass_roundtrip t : 0 <= t < 65536 ->
  rrtype_from_string (rrtype_to_string t) = t /\
  rrclass_from_string (rrclass_to_string t) = t.
Proof.
  intros Ht. split; [|by apply rrclass_roundtrip].
  destruct (decide (t < RRTYPE_DESCRIPTORS_LENGTH \/ t = TYPE_DLV)) as [Hk|Hk].
  - assert (Hall : forallb (fun t => rrtype_from_string (rrtype_to_string t) =? t)
      (TYPE_DLV :: seqZ 0 RRTYPE_DESCRIPTORS_LENGTH) = true) by (by vm_compute).
    rewrite forallb_forall in Hall. apply Z.eqb_eq, Hall, list_elem_of_In.
    destruct Hk as [Hk| ->]; [|constructor]. apply elem_of_cons. right. apply elem_of_seqZ. lia.
  - apply Decidable.not_or in Hk as [Hk Hd]; [|tauto..].
    unfold rrtype_to_string, rrtype_descriptor_by_type.
    rewrite (proj2 (Z.ltb_ge _ _)), (proj2 (Z.eqb_neq _ _)) by lia.
    change (d_name (descriptor_at 0)) with (@None (list Z)). cbn match.
    unfold rrtype_from_string. rewrite by_name_unknown.
    change (rrtype_frequent (str "TYPE" ++ print_dec 5 t)) with
      (if strcaseeq (drop 1 (str "TYPE" ++ print_dec 5 t)) (str "XT") then Some TYPE_TXT else None).
    change (strcaseeq (drop 1 (str "TYPE" ++ print_dec 5 t)) (str "XT")) with false. cbn match.
    by apply unknown_roundtrip.
Qed.

Lemma rrtype_rrclass_witness :
  rrtype_from_string (rrtype_to_string 32769) = 32769 /\
  rrclass_from_string (rrclass_to_string 32769) = 32769.
Proof. apply rrtype_rrclass_roundtrip. lia. Defined.

Lemma seqZ_forall (P : Z -> bool) n : forallb P (seqZ 0 n) = true -> forall i, 0 <= i < n -> P i = true.
Proof.
  intros H i Hi. rewrite forallb_forall in H. apply H, list_elem_of_In, elem_of_seqZ. lia.
Qed.

Lemma descriptor_at_type i : 0 <= i < RRTYPE_DESCRIPTORS_LENGTH -> d_type (descriptor_at i) = i.
Proof.
  intros Hi. apply Z.eqb_eq. revert i Hi.
  apply (seqZ_forall (fun i => d_type (descriptor_at i) =? i)). by vm_compute.
Qed.

Lemma table_lookup i : 0 <= i < 260 -> rrtype_descriptors !! Z.to_nat i = Some (descriptor_at i).
Proof.
  intros Hi. unfold descriptor_at.
  destruct (lookup_lt_is_Some_2 rrtype_descriptors (Z.to_nat i)) as [d Hd].
  { change (length rrtype_descriptors) with 260%nat. lia. }
  by rewrite Hd.
Qed.

Lemma descriptor_by_type_cases type : 0 <= type ->
  exists i, 0 <= i < 260 /\ rrtype_descriptor_by_type type = descriptor_at i /\
    (d_type (descriptor_at i) = type \/ i = 0 /\ rrtype_descriptor_by_name (rrtype_to_string type) = None).
Proof.
  intros Ht. unfold rrtype_to_string, rrtype_descriptor_by_type.
  destruct (Z.ltb_spec type RRTYPE_DESCRIPTORS_LENGTH) as [Hl|Hl].
  { exists type. split; [unfold RRTYPE_DESCRIPTORS_LENGTH, TYPE_AVC in *; lia|].
    split; [done|]. left. by apply descriptor_at_type. }
  destruct (Z.eqb_spec type TYPE_DLV) as [->|].
  { exists PSEUDO_TYPE_DLV. split; [done|]. split; [done|]. by left. }
  exists 0. split; [done|]. split; [done|]. right. split; [done|]. apply by_name_unknown.
Qed.

(** The size columns of an entry. *)
Definition sizes_ok (d : rrtype_descriptor) : bool :=
  (0 <=? d_minimum d) && (d_minimum d <=? d_maximum d) && (d_maximum d <=? MAXRDATALEN) &&
  (zlength (d_wireformat d) =? d_maximum d) && (zlength (d_zoneformat d) =? d_maximum d).

Lemma table_sizes i : 0 <= i < 260 -> sizes_ok (descriptor_at i) = true.
Proof. apply (seqZ_forall (fun i => sizes_ok (descriptor_at i))). by vm_compute. Qed.

Lemma by_name_found name e : rrtype_descriptor_by_name name = Some e ->
  descriptor_named name e = true /\ rrtype_descriptor_by_type (d_type e) = e.
Proof.
  unfold rrtype_descriptor_by_name. destruct (List.find _ _) as [d|] eqn:E.
  - intros [= <-]. apply find_some in E as [Hin Hn]. split; [done|].
    apply list_elem_of_In, list_elem_of_lookup in Hin as [i Hi].
    apply lookup_take_Some in Hi as [Hi Hlt].
    assert (0 <= Z.of_nat i < RRTYPE_DESCRIPTORS_LENGTH) as Hr by lia.
    pose proof (table_lookup (Z.of_nat i) ltac:(unfold RRTYPE_DESCRIPTORS_LENGTH, TYPE_AVC in *; lia)) as Hat.
    rewrite Nat2Z.id, Hi in Hat. injection Hat as ->. rewrite descriptor_at_type by done.
    unfold rrtype_descriptor_by_type. by rewrite (proj2 (Z.ltb_lt _ _)) by lia.
  - destruct (descriptor_named name _) eqn:D; [|done]. by intros [= <-].
Qed.

Lemma by_name_not_found name : rrtype_descriptor_by_name name = None ->
  Forall (fun e => descriptor_named name e = false) rrtype_descriptors.
Proof.
  unfold rrtype_descriptor_by_name. destruct (List.find _ _) eqn:E; [done|].
  destruct (descriptor_named name (descriptor_at PSEUDO_TYPE_DLV)) eqn:D; [done|]. intros _.
  rewrite <-(take_drop (Z.to_nat RRTYPE_DESCRIPTORS_LENGTH) rrtype_descriptors).
  apply Forall_app. split.
  - apply Forall_forall. intros e He%list_elem_of_In. by apply (find_none _ _ E).
  - change (drop (Z.to_nat RRTYPE_DESCRIPTORS_LENGTH) rrtype_descriptors)
      with [descriptor_at PSEUDO_TYPE_DLV]. by repeat constructor.
Qed.

(** The table is what the code that indexes it relies on: the
    descriptor found for a type is its own or that of an unknown type, the
    formats cover the fields a record of the type may have, and a descriptor
    found by name has that name, whatever the case of its letters. *)
Theorem rrtype_table_invariant type name :
  0 <= type ->
  let d := rrtype_descriptor_by_type type in
  (d_type d = type \/ d = unknown_type 0 /\ rrtype_descriptor_by_name (rrtype_to_string type) = None) /\
  0 <= d_minimum d <= d_maximum d /\ d_maximum d <= MAXRDATALEN /\
  zlength (d_wireformat d) = d_maximum d /\ zlength (d_zoneformat d) = d_maximum d /\
  match rrtype_descriptor_by_name name with
  | Some e => exists n, d_name e = Some n /\ strcaseeq n name = true /\
                        rrtype_descriptor_by_type (d_type e) = e
  | None => Forall (fun e => descriptor_named name e = false) rrtype_descriptors
  end.
Proof.
  intros Ht d. destruct (descriptor_by_type_cases type Ht) as (i & Hi & Hd & Htype).
  subst d. rewrite Hd. pose proof (table_sizes i Hi) as Hs. unfold sizes_ok in Hs. bool_simpl.
  split_and!; try done.
  - destruct Htype as [?|[-> ?]]; [by left|by right].
  - destruct (rrtype_descriptor_by_name name) as [e|] eqn:E; [|by apply by_name_not_found].
    apply by_name_found in E as [Hn Ht']. unfold descriptor_named in Hn.
    destruct (d_name e) as [n|]; [|done]. by exists n.
Qed.

Lemma rrtype_table_witness :
  let d := rrtype_descriptor_by_type 46 in
  (d_type d = 46 \/ d = unknown_type 0 /\ rrtype_descriptor_by_name (rrtype_to_string 46) = None) /\
  0 <= d_minimum d <= d_maximum d /\ d_maximum d <= MAXRDATALEN /\
  zlength (d_wireformat d) = d_maximum d /\ zlength (d_zoneformat d) = d_maximum d /\
  match rrtype_descriptor_by_name (str "Soa") with
  | Some e => exists n, d_name e = Some n /\ strcaseeq n (str "Soa") = true /\
                        rrtype_descriptor_by_type (d_type e) = e
  | None => Forall (fun e => descriptor_named (str "Soa") e = false) rrtype_descriptors
  end.
Proof. by apply rrtype_table_invariant. Defined.
