(* ===== verification/Packet.v ===== *)
(** Model of the message header and of the low-level packet parsers
    (src/packet.h, src/packet.c): the header fields, skipping names and
    records, reading the question, finding the serial of a notify. *)

From S2P Require Import Prelude Buffer Dname Dns.

Definition QHEADERSZ : Z := 12.

(** * The header

    [*buffer_at(packet, i)] as a value and as a place. *)
Definition byte_at (i : Z) : Buf Z :=
  p ← buffer_at i;
  b ← st_get;
  st_assert (p <? zlength (_data b));;
  mret (zget (_data b) p).
Definition byte_update (i : Z) (f : Z -> Z) : Buf unit :=
  x ← byte_at i;
  st_modify (fun b => set_data (<[Z.to_nat i := u8 (f x)]> (_data b)) b).

Definition flag_get (i mask : Z) : Buf Z := x ← byte_at i; mret (Z.land x mask).
Definition flag_set (i mask : Z) : Buf unit := byte_update i (fun x => Z.lor x mask).
Definition flag_clear (i mask : Z) : Buf unit := byte_update i (fun x => Z.land x (Z.lnot mask)).

Definition RD_MASK : Z := 0x01.
Definition TC_MASK : Z := 0x02.
Definition AA_MASK : Z := 0x04.
Definition OPCODE_MASK : Z := 0x78.
Definition OPCODE_SHIFT : Z := 3.
Definition QR_MASK : Z := 0x80.
Definition RCODE_MASK : Z := 0x0f.
Definition CD_MASK : Z := 0x10.
Definition AD_MASK : Z := 0x20.
Definition Z_MASK : Z := 0x40.
Definition RA_MASK : Z := 0x80.

Definition RD : Buf Z := flag_get 2 RD_MASK.
Definition RD_SET : Buf unit := flag_set 2 RD_MASK.
Definition RD_CLR : Buf unit := flag_clear 2 RD_MASK.
Definition TC : Buf Z := flag_get 2 TC_MASK.
Definition TC_SET : Buf unit := flag_set 2 TC_MASK.
Definition TC_CLR : Buf unit := flag_clear 2 TC_MASK.
Definition AA : Buf Z := flag_get 2 AA_MASK.
Definition AA_SET : Buf unit := flag_set 2 AA_MASK.
Definition AA_CLR : Buf unit := flag_clear 2 AA_MASK.
Definition OPCODE : Buf Z :=
  x ← byte_at 2; mret (Z.shiftr (Z.land x OPCODE_MASK) OPCODE_SHIFT).
Definition OPCODE_SET (opcode : Z) : Buf unit :=
  byte_update 2 (fun x => Z.lor (Z.land x (Z.lnot OPCODE_MASK)) (Z.shiftl opcode OPCODE_SHIFT)).
Definition QR : Buf Z := flag_get 2 QR_MASK.
Definition QR_SET : Buf unit := flag_set 2 QR_MASK.
Definition QR_CLR : Buf unit := flag_clear 2 QR_MASK.
Definition RCODE : Buf Z := flag_get 3 RCODE_MASK.
Definition RCODE_SET (rcode : Z) : Buf unit :=
  byte_update 3 (fun x => Z.lor (Z.land x (Z.lnot RCODE_MASK)) rcode).
Definition CD : Buf Z := flag_get 3 CD_MASK.
Definition CD_SET : Buf unit := flag_set 3 CD_MASK.
Definition CD_CLR : Buf unit := flag_clear 3 CD_MASK.
Definition AD : Buf Z := flag_get 3 AD_MASK.
Definition AD_SET : Buf unit := flag_set 3 AD_MASK.
Definition AD_CLR : Buf unit := flag_clear 3 AD_MASK.
Definition Z_SET : Buf unit := flag_set 3 Z_MASK.
Definition Z_CLR : Buf unit := flag_clear 3 Z_MASK.
Definition RA_SET : Buf unit := flag_set 3 RA_MASK.
Definition RA_CLR : Buf unit := flag_clear 3 RA_MASK.

Definition ID : Buf Z := buffer_read_u16_at 0.
Definition ID_SET (id : Z) : Buf unit := buffer_write_u16_at 0 id.
Definition FLAGS : Buf Z := buffer_read_u16_at 2.
Definition FLAGS_SET (f : Z) : Buf unit := buffer_write_u16_at 2 f.
Definition QDCOUNT : Buf Z := buffer_read_u16_at 4.
Definition QDCOUNT_SET (c : Z) : Buf unit := buffer_write_u16_at 4 c.
Definition ANCOUNT : Buf Z := buffer_read_u16_at 6.
Definition ANCOUNT_SET (c : Z) : Buf unit := buffer_write_u16_at 6 c.
Definition NSCOUNT : Buf Z := buffer_read_u16_at 8.
Definition NSCOUNT_SET (c : Z) : Buf unit := buffer_write_u16_at 8 c.
Definition ARCOUNT : Buf Z := buffer_read_u16_at 10.
Definition ARCOUNT_SET (c : Z) : Buf unit := buffer_write_u16_at 10 c.

(** * Skipping *)

(** The rest of the buffer bounds the number of rounds. *)
Definition packet_skip_dname : Buf bool :=
  b0 ← st_get;
  st_iter (S (Z.to_nat (_limit b0 - _position b0))) (fun _ : unit =>
    a ← buffer_available 1;
    if negb a then mret (inr false) else
    label_size ← buffer_read_u8;
    if label_size =? 0 then mret (inr true)
    else if negb (Z.land label_size 0xc0 =? 0) then
      a ← buffer_available 1;
      if negb a then mret (inr false) else
      buffer_skip 1;;
      mret (inr true)
    else
      a ← buffer_available label_size;
      if negb a then mret (inr false) else
      buffer_skip label_size;;
      mret (inl tt)) tt.

Definition packet_skip_rr (question_section : bool) : Buf bool :=
  r ← packet_skip_dname;
  if negb r then mret false else
  if question_section then
    a ← buffer_available 4;
    if negb a then mret false else
    buffer_skip 4;; mret true
  else
    a ← buffer_available 10;
    if negb a then mret false else
    buffer_skip 8;;
    rdata_size ← buffer_read_u16;
    a ← buffer_available rdata_size;
    if negb a then mret false else
    buffer_skip rdata_size;; mret true.

(** * The question *)

(** [*src] of a pointer into the buffer. *)
Definition peek (src : Z) : Buf Z :=
  b ← st_get;
  st_assert ((0 <=? src) && (src <? zlength (_data b)));;
  mret (zget (_data b) src).

(** One round of the copying loop: [dst] holds the bytes stored so far. *)
Definition read_query_name_step (query_name end_ : Z) (st : list Z * Z) :
    Buf (list Z * Z + list Z * option Z) :=
  let '(dst, src) := st in
  c ← peek src;
  if c =? 0 then mret (inr (dst ++ [c], Some (src + 1))) else
  if negb (Z.land c 0xc0 =? 0) || (end_ <? src + c + 2) ||
     (query_name + MAXDOMAINLEN <? src + c + 2)
  then mret (inr (dst, None))
  else
    b ← st_get;
    mret (inl (dst ++ zslice (_data b) src (c + 1), src + c + 1)).

(** The bytes stored through [dst], and the type and class when the result
    is 1. *)
Definition packet_read_query_section : Buf (list Z * option (Z * Z)) :=
  query_name ← buffer_current;
  end_ ← buffer_end;
  r ← st_iter (S (Z.to_nat MAXDOMAINLEN)) (read_query_name_step query_name end_) ([], query_name);
  match r with
  | (dst, None) => mret (dst, None)
  | (dst, Some src) =>
      let len := src - query_name in
      if (MAXDOMAINLEN <? len) || (end_ <? src + 2 * 2) then mret (dst, None) else
      begin ← buffer_begin;
      buffer_set_position (src - begin);;
      qtype ← buffer_read_u16;
      qclass ← buffer_read_u16;
      mret (dst, Some (qtype, qclass))
  end.

(** * The serial of a notify *)

(** The loop over the questions: whether all of them could be skipped.
    [QDCOUNT] is read in each round, and no round changes it. *)
Fixpoint skip_questions (n : nat) : Buf bool :=
  match n with
  | O => mret true
  | S n =>
      r ← packet_skip_rr true;
      if negb r then mret false else skip_questions n
  end.

(** The loop over the records that follow. *)
Fixpoint find_soa (n : nat) : Buf (option Z) :=
  match n with
  | O => mret None
  | S n =>
      r ← packet_skip_dname;
      if negb r then mret None else
      a ← buffer_available 10;
      if negb a then mret None else
      type ← buffer_read_u16;
      if type =? TYPE_SOA then
        class ← buffer_read_u16;
        if negb (class =? CLASS_IN) then mret None else
        buffer_skip 4;;
        rdata_size ← buffer_read_u16;
        a ← buffer_available rdata_size;
        if negb a then mret None else
        r ← packet_skip_dname;
        if negb r then mret None else
        r ← packet_skip_dname;
        if negb r then mret None else
        a ← buffer_available 4;
        if negb a then mret None else
        serial ← buffer_read_u32;
        mret (Some serial)
      else
        buffer_skip 6;;
        rdata_size ← buffer_read_u16;
        a ← buffer_available rdata_size;
        if negb a then mret None else
        buffer_skip rdata_size;;
        find_soa n
  end.

Definition packet_find_notify_serial : Buf (option Z) :=
  saved_position ← buffer_position;
  ancount ← ANCOUNT;
  nscount ← NSCOUNT;
  arcount ← ARCOUNT;
  let rrcount := ancount + nscount + arcount in
  buffer_set_position QHEADERSZ;;
  qdcount ← QDCOUNT;
  ok ← skip_questions (Z.to_nat qdcount);
  if negb ok then buffer_set_position saved_position;; mret None else
  r ← find_soa (Z.to_nat rrcount);
  buffer_set_position saved_position;;
  mret r.
