(* ===== verification/PacketProofs.v ===== *)
(** Theorems about the packet parsers of Packet.v: which bytes they accept,
    where they leave the position, and that they end inside the packet. *)

From S2P Require Import Prelude Buffer Dname DnameProofs DnamePacket Dns Packet.

(** * Skipping a name *)

Section skipping.
Context (data : list Z) (limit : Z).

(** The encoding at [p] ends at [q]: labels up to a zero or a byte with one
    of the two top bits set, which takes one more byte. *)
Inductive skip_name : Z -> Z -> Prop :=
  | skip_root p : p < limit -> zget data p = 0 -> skip_name p (p + 1)
  | skip_pointer p : 64 <= zget data p -> p + 2 <= limit -> skip_name p (p + 2)
  | skip_label p q : 1 <= zget data p < 64 -> p + 1 + zget data p <= limit ->
      skip_name (p + 1 + zget data p) q -> skip_name p q.

Lemma skip_name_det p q : skip_name p q -> forall q', skip_name p q' -> q' = q.
Proof using. induction 1; inversion 1; subst; try lia; auto. Qed.

Lemma skip_name_range p q : skip_name p q -> p < q <= limit.
Proof using. induction 1; lia. Qed.

(** A name with a meaning is skipped to its end. *)
Lemma pkt_name_skip ptrs n p ls q : pkt_name ptrs data limit n p ls q -> skip_name p q.
Proof using.
  induction 1; [by constructor|by eapply skip_label|constructor; lia].
Qed.

(** A record after its owner's name: type, class, and where the data is. *)
Definition rr_fields (p type class rdata rdata_end : Z) : Prop :=
  exists q, skip_name p q /\ rdata = q + 10 /\ rdata_end = rdata + read_uint16 data (q + 8) /\
    rdata_end <= limit /\ type = read_uint16 data q /\ class = read_uint16 data (q + 2).

Inductive questions : nat -> Z -> Z -> Prop :=
  | questions_nil p : questions 0 p p
  | questions_cons n p q r : skip_name p q -> q + 4 <= limit ->
      questions n (q + 4) r -> questions (S n) p r.

Lemma questions_det n p q : questions n p q -> forall q', questions n p q' -> q' = q.
Proof using.
  induction 1 as [|n p q r Hs Hq Hr IH]; inversion 1 as [|? ? q2 ? Hs2]; subst; [done|].
  apply IH. by rewrite <-(skip_name_det _ _ Hs _ Hs2).
Qed.

(** The serial of the first SOA record among [n] records at [p]. *)
Inductive soa_serial : nat -> Z -> Z -> Prop :=
  | soa_here n p rdata rdata_end q r :
      rr_fields p TYPE_SOA CLASS_IN rdata rdata_end ->
      skip_name rdata q -> skip_name q r -> r + 4 <= limit ->
      soa_serial (S n) p (read_uint32 data r)
  | soa_later n p type class rdata rdata_end serial :
      type <> TYPE_SOA -> rr_fields p type class rdata rdata_end ->
      soa_serial n rdata_end serial -> soa_serial (S n) p serial.
End skipping.

(** What a parser does to the buffer: move the position. *)
Definition moved (b b' : buffer) (q : Z) : Prop := b' = set_pos q b /\ 0 <= q <= _limit b.

Lemma moved_ok b b' q : buffer_ok b -> moved b b' q -> buffer_ok b'.
Proof. intros Hb [-> Hq]. by apply buffer_ok_set_pos. Qed.

Lemma moved_set_pos b p q : 0 <= p <= _limit b -> moved (set_pos q b) (set_pos p b) p.
Proof. intros. by split. Qed.

#[export] Hint Resolve moved_ok : wp.
#[export] Hint Extern 1 (buffer_ok (set_pos _ _)) =>
  apply buffer_ok_set_pos; [done|buf_simpl; lia] : wp.

Ltac bok := by auto with wp.

(** A proof that starts at the position of the buffer. *)
Lemma wp_at_start {A} b (m : Buf A) (Q : A -> buffer -> Prop) :
  wp m Q (set_pos (_position b) b) -> wp m Q b.
Proof. by destruct b. Qed.

(** One round at position [p]. *)
Lemma wp_packet_skip_dname b (Q : bool -> buffer -> Prop) :
  buffer_ok b ->
  (forall q, skip_name (_data b) (_limit b) (_position b) q ->
     0 <= q <= _limit b -> Q true (set_pos q b)) ->
  (forall q, 0 <= q <= _limit b ->
     (forall q', ~ skip_name (_data b) (_limit b) (_position b) q') -> Q false (set_pos q b)) ->
  wp packet_skip_dname Q b.
Proof.
  intros Hb Htrue Hfalse. unfold packet_skip_dname. do 2 wp_step.
  apply (wp_iter (fun _ s => exists p, moved b s p /\
      forall q, skip_name (_data b) (_limit b) p q <->
                skip_name (_data b) (_limit b) (_position b) q)
    (fun _ s => Z.to_nat (_limit s - _position s))); [|exists (_position b)|lia].
  2:{ split; [|done]. split; [by destruct b|by destruct Hb]. }
  intros [] s (p & [-> Hp] & Hsame).
  assert (Hno : (forall q, ~ skip_name (_data b) (_limit b) p q) ->
    forall q', ~ skip_name (_data b) (_limit b) (_position b) q').
  { intros H q' Hq%Hsame. by apply (H q'). }
  assert (buffer_ok (set_pos p b)) by bok.
  wp_step. apply wp_buffer_available; [done|]. buf_simpl. wp_step; bool_simpl.
  { wp_step. apply Hfalse, Hno; [lia|]. intros q Hq%skip_name_range. lia. }
  wp_step. apply wp_buffer_read_u8; [done|buf_simpl; lia|]. buf_simpl. intros Hc.
  wp_step; bool_simpl.
  { wp_step. apply Htrue; [|lia]. apply Hsame, skip_root; [lia|done]. }
  assert (buffer_ok (set_pos (p + 1) b)) by bok.
  rewrite (proj1 (land_c0 _ Hc)). unfold byte in Hc.
  wp_step; bool_simpl; wp_step; apply wp_buffer_available; try done; buf_simpl;
    (wp_step; bool_simpl;
      [wp_step; apply Hfalse, Hno; [lia|]; inversion 1; subst; lia|]);
    wp_step; (apply wp_buffer_skip; [done|buf_simpl; lia|]); buf_simpl; wp_step.
  - replace (p + 1 + 1) with (p + 2) by lia. apply Htrue; [|lia].
    apply Hsame, skip_pointer; lia.
  - split; [|buf_simpl; lia]. exists (p + 1 + zget (_data b) p). split; [by split; [|lia]|].
    intros q. rewrite <-Hsame. split.
    + intros. by apply skip_label; [lia..|].
    + inversion 1; subst; [lia..|done].
Qed.

(** Skipping from a position of [b]. *)
Lemma wp_skip_from b p (Q : bool -> buffer -> Prop) :
  buffer_ok b -> 0 <= p <= _limit b ->
  (forall q, skip_name (_data b) (_limit b) p q -> 0 <= q <= _limit b -> Q true (set_pos q b)) ->
  (forall q, 0 <= q <= _limit b ->
     (forall q', ~ skip_name (_data b) (_limit b) p q') -> Q false (set_pos q b)) ->
  wp packet_skip_dname Q (set_pos p b).
Proof. intros. apply wp_packet_skip_dname; [bok|buf_simpl; auto..]. Qed.

(** * Parsers at a position

    A parser only moves the position; these rules keep the buffer it started
    with in sight. *)
Section at_position.
Context (b : buffer) (Hb : buffer_ok b).

Lemma wp_available_from p n (Q : bool -> buffer -> Prop) :
  0 <= p <= _limit b -> Q (n <=? _limit b - p) (set_pos p b) ->
  wp (buffer_available n) Q (set_pos p b).
Proof using Hb. intros. by apply wp_buffer_available; [bok|]. Qed.

Lemma wp_skip_bytes_from p n (Q : unit -> buffer -> Prop) :
  0 <= p <= _limit b -> 0 <= p + n <= _limit b -> Q tt (set_pos (p + n) b) ->
  wp (buffer_skip n) Q (set_pos p b).
Proof using Hb. intros. by apply wp_buffer_skip; [bok|buf_simpl..]. Qed.

Lemma wp_read_u16_from p (Q : Z -> buffer -> Prop) :
  0 <= p -> p + 2 <= _limit b ->
  (0 <= read_uint16 (_data b) p < 65536 -> Q (read_uint16 (_data b) p) (set_pos (p + 2) b)) ->
  wp buffer_read_u16 Q (set_pos p b).
Proof using Hb. intros. by apply wp_buffer_read_u16; [bok|buf_simpl..]. Qed.

Lemma wp_read_u32_from p (Q : Z -> buffer -> Prop) :
  0 <= p -> p + 4 <= _limit b -> Q (read_uint32 (_data b) p) (set_pos (p + 4) b) ->
  wp buffer_read_u32 Q (set_pos p b).
Proof using Hb. intros. apply wp_buffer_read_u32; [bok|buf_simpl; auto..]. Qed.

Lemma wp_set_position_from p q (Q : unit -> buffer -> Prop) :
  q <= _limit b -> Q tt (set_pos q b) -> wp (buffer_set_position q) Q (set_pos p b).
Proof using. intros. by apply wp_buffer_set_position; buf_simpl. Qed.

Lemma wp_skip_question p (Q : bool -> buffer -> Prop) :
  0 <= p <= _limit b ->
  (forall q, skip_name (_data b) (_limit b) p q -> q + 4 <= _limit b -> 0 <= q ->
     Q true (set_pos (q + 4) b)) ->
  (forall q, 0 <= q <= _limit b ->
     (forall q', skip_name (_data b) (_limit b) p q' -> _limit b < q' + 4) ->
     Q false (set_pos q b)) ->
  wp (packet_skip_rr true) Q (set_pos p b).
Proof using Hb.
  intros Hp Htrue Hfalse. unfold packet_skip_rr. wp_step. apply wp_skip_from; [done..| |].
  - intros q Hq Hr. wp_step; [done|]. wp_step. apply wp_available_from; [done|].
    wp_step; bool_simpl.
    + wp_step. apply Hfalse; [done|]. intros q' Hq'.
      rewrite (skip_name_det _ _ _ _ Hq _ Hq'). lia.
    + wp_step. apply wp_skip_bytes_from; [lia..|]. wp_step. apply Htrue; [done|lia..].
  - intros q Hq Hn. wp_step; [|done]. wp_step. apply Hfalse; [done|].
    intros q' Hq'. by destruct (Hn q').
Qed.
End at_position.

(** * The questions and the records *)

Lemma wp_skip_questions b n (Q : bool -> buffer -> Prop) : buffer_ok b -> forall p,
  0 <= p <= _limit b ->
  (forall q, questions (_data b) (_limit b) n p q -> 0 <= q <= _limit b -> Q true (set_pos q b)) ->
  (forall q, 0 <= q <= _limit b ->
     (forall q', ~ questions (_data b) (_limit b) n p q') -> Q false (set_pos q b)) ->
  wp (skip_questions n) Q (set_pos p b).
Proof.
  intros Hb. induction n as [|n IH]; intros p Hp Htrue Hfalse; simpl.
  { wp_step. apply Htrue; [constructor|done]. }
  wp_step. apply wp_skip_question; [done..| |].
  - intros q Hq Hr Hq0. wp_step; [done|]. apply IH; [lia|..].
    + intros r Hn. by apply Htrue, (questions_cons _ _ _ _ q).
    + intros r Hr' Hn. apply Hfalse; [done|]. intros q'. inversion 1 as [|? ? q2 ? Hs2]; subst.
      rewrite (skip_name_det _ _ _ _ Hq _ Hs2) in *. by eapply Hn.
  - intros q Hq Hn. wp_step; [|done]. wp_step. apply Hfalse; [done|].
    intros q'. inversion 1 as [|? ? q2 ? Hs2]; subst. specialize (Hn _ Hs2). lia.
Qed.

Lemma rr_fields_det data limit p type class rdata rdata_end :
  rr_fields data limit p type class rdata rdata_end ->
  forall type' class' rdata' rdata_end', rr_fields data limit p type' class' rdata' rdata_end' ->
  type' = type /\ class' = class /\ rdata' = rdata /\ rdata_end' = rdata_end.
Proof.
  intros (q & Hq & -> & -> & _ & -> & ->) ???? (q' & Hq' & -> & -> & _ & -> & ->).
  by rewrite (skip_name_det _ _ _ _ Hq _ Hq').
Qed.

(** Where [find_soa] looks for the first record. *)
Lemma soa_serial_inv data limit n p serial : soa_serial data limit (S n) p serial ->
  exists type class rdata rdata_end, rr_fields data limit p type class rdata rdata_end /\
    if decide (type = TYPE_SOA) then
      class = CLASS_IN /\ exists q r, skip_name data limit rdata q /\ skip_name data limit q r /\
        r + 4 <= limit /\ serial = read_uint32 data r
    else soa_serial data limit n rdata_end serial.
Proof.
  inversion 1 as [? ? rdata rdata_end q r Hf Hq Hr Hl|? ? ty class rdata rdata_end ? Hne Hf Hs]; subst.
  - exists TYPE_SOA, CLASS_IN, rdata, rdata_end. split; [done|].
    rewrite decide_True by done. eauto 10.
  - exists ty, class, rdata, rdata_end. split; [done|]. by rewrite decide_False.
Qed.

(** A search that stops without an answer. *)
Lemma no_soa b n p type class rdata rdata_end :
  rr_fields (_data b) (_limit b) p type class rdata rdata_end ->
  (if decide (type = TYPE_SOA) then
     class = CLASS_IN -> forall q r, skip_name (_data b) (_limit b) rdata q ->
       skip_name (_data b) (_limit b) q r -> _limit b < r + 4
   else forall s, ~ soa_serial (_data b) (_limit b) n rdata_end s) ->
  forall s, ~ soa_serial (_data b) (_limit b) (S n) p s.
Proof.
  intros Hf Hno s (ty & cl & rd & re & Hf' & Hs)%soa_serial_inv.
  destruct (rr_fields_det _ _ _ _ _ _ _ Hf _ _ _ _ Hf') as (-> & -> & -> & ->).
  case_decide; [|by eapply Hno]. destruct Hs as (Hc & q & r & Hq & Hr & Hl & _).
  specialize (Hno Hc q r Hq Hr). lia.
Qed.

Lemma no_rr b n p : (forall type class rdata rdata_end,
    ~ rr_fields (_data b) (_limit b) p type class rdata rdata_end) ->
  forall s, ~ soa_serial (_data b) (_limit b) (S n) p s.
Proof. intros Hno s (ty & cl & rd & re & Hf & _)%soa_serial_inv. by eapply Hno. Qed.

(** A record that the end of the message cuts off. *)
Lemma no_rr_cut b n p q : buffer_ok b -> skip_name (_data b) (_limit b) p q ->
  _limit b < q + 10 + read_uint16 (_data b) (q + 8) ->
  forall s, ~ soa_serial (_data b) (_limit b) (S n) p s.
Proof.
  intros Hb Hq Hcut. apply no_rr. intros ty cl rd re (q' & Hq' & -> & -> & ? & _).
  rewrite (skip_name_det _ _ _ _ Hq _ Hq') in *. lia.
Qed.

Lemma soa_serial_later b n p type class rdata rdata_end s :
  rr_fields (_data b) (_limit b) p type class rdata rdata_end -> type <> TYPE_SOA ->
  soa_serial (_data b) (_limit b) n rdata_end s <-> soa_serial (_data b) (_limit b) (S n) p s.
Proof.
  intros Hf Ht. split; [by apply (soa_later _ _ _ _ type class rdata)|].
  intros (ty & cl & rd & re & Hf' & Hs')%soa_serial_inv.
  destruct (rr_fields_det _ _ _ _ _ _ _ Hf _ _ _ _ Hf') as (-> & -> & -> & ->).
  by rewrite decide_False in Hs'.
Qed.

Definition soa_post (b : buffer) (n : nat) (p : Z) (r : option Z) (b' : buffer) : Prop :=
  (exists q, b' = set_pos q b /\ 0 <= q <= _limit b) /\
  forall s, r = Some s <-> soa_serial (_data b) (_limit b) n p s.

Lemma soa_post_none b n p q : 0 <= q <= _limit b ->
  (forall s, ~ soa_serial (_data b) (_limit b) n p s) -> soa_post b n p None (set_pos q b).
Proof. intros Hq Hn. split; [by eexists|]. intros s. split; [done|]. by intros ?%Hn. Qed.

(** The body of a SOA record, from its class on. *)
Lemma wp_soa_body b n p q : buffer_ok b ->
  0 <= q -> q + 10 <= _limit b -> skip_name (_data b) (_limit b) p q ->
  read_uint16 (_data b) q = TYPE_SOA ->
  wp (class ← buffer_read_u16;
      if negb (class =? CLASS_IN) then mret None else
      buffer_skip 4;;
      rdata_size ← buffer_read_u16;
      a ← buffer_available rdata_size;
      if negb a then mret None else
      r ← packet_skip_dname;
      if negb r then mret None else
      r ← packet_skip_dname;
      if negb r then mret None else
      a ← buffer_available 4;
      if negb a then mret None else
      serial ← buffer_read_u32;
      mret (Some serial)) (soa_post b (S n) p) (set_pos (q + 2) b).
Proof.
  intros Hb Hq0 Hlim Hq Htype.
  wp_step. apply wp_read_u16_from; [done|lia..|]. intros Hc. wp_step.
  { wp_step. apply soa_post_none; [lia|]. intros s (ty & cl & rd & re & Hf & Hs)%soa_serial_inv.
    destruct Hf as (q' & Hq' & _ & _ & _ & -> & ->). rewrite (skip_name_det _ _ _ _ Hq _ Hq') in Hs.
    rewrite decide_True in Hs by done. bool_simpl. by destruct Hs. }
  bool_simpl. wp_step. apply wp_skip_bytes_from; [done|lia..|].
  wp_step. apply wp_read_u16_from; [done|lia..|].
  replace (q + 2 + 2 + 4) with (q + 8) by lia. intros Hs.
  wp_step. apply wp_available_from; [done|lia|]. wp_step; bool_simpl.
  { wp_step. apply soa_post_none; [lia|]. by apply (no_rr_cut _ _ _ q); [..|lia]. }
  replace (q + 8 + 2) with (q + 10) by lia.
  assert (Hf : rr_fields (_data b) (_limit b) p TYPE_SOA CLASS_IN (q + 10)
    (q + 10 + read_uint16 (_data b) (q + 8))) by (exists q; split_and!; [done..|lia|done|done]).
  assert (Hfail : forall r, 0 <= r <= _limit b ->
    (forall q1 r1, skip_name (_data b) (_limit b) (q + 10) q1 ->
       skip_name (_data b) (_limit b) q1 r1 -> _limit b < r1 + 4) ->
    soa_post b (S n) p None (set_pos r b)).
  { intros r Hr Hno. apply soa_post_none; [done|]. eapply no_soa; [done|]. by rewrite decide_True. }
  wp_step. apply wp_skip_from; [done|lia| |]; intros q1 Hq1 Hr1.
  2:{ wp_step; [|done]. wp_step. apply Hfail; [lia|]. by intros ?? ?%Hr1. }
  wp_step; [done|]. wp_step. apply wp_skip_from; [done|lia| |]; intros q2 Hq2 Hr2.
  2:{ wp_step; [|done]. wp_step. apply Hfail; [lia|]. intros q1' r1' HA HB.
      rewrite (skip_name_det _ _ _ _ Hq1 _ HA) in HB. by destruct (Hr2 r1'). }
  wp_step; [done|]. wp_step. apply wp_available_from; [done|lia|]. wp_step; bool_simpl; wp_step.
  { apply Hfail; [lia|]. intros q1' r1' HA HB. rewrite (skip_name_det _ _ _ _ Hq1 _ HA) in HB.
    rewrite (skip_name_det _ _ _ _ Hq2 _ HB). lia. }
  apply wp_read_u32_from; [done|lia..|]. wp_step. split; [eexists; split; [done|lia]|].
  assert (Hyes : soa_serial (_data b) (_limit b) (S n) p (read_uint32 (_data b) q2))
    by (by eapply soa_here; [..|lia]).
  intros s. split; [by intros [= <-]|]. intros (ty & cl & rd & re & Hf' & Hs')%soa_serial_inv.
  destruct (rr_fields_det _ _ _ _ _ _ _ Hf _ _ _ _ Hf') as (-> & -> & -> & ->).
  rewrite decide_True in Hs' by done. destruct Hs' as (_ & q1' & r1' & HA & HB & _ & ->).
  rewrite (skip_name_det _ _ _ _ Hq1 _ HA) in HB. by rewrite (skip_name_det _ _ _ _ Hq2 _ HB).
Qed.

Lemma wp_find_soa b n : buffer_ok b -> forall p, 0 <= p <= _limit b ->
  wp (find_soa n) (soa_post b n p) (set_pos p b).
Proof.
  intros Hb. induction n as [|n IH]; intros p Hp; simpl.
  { wp_step. apply soa_post_none; [done|]. by inversion 1. }
  wp_step. apply wp_skip_from; [done..| |]; intros q Hq Hr.
  2:{ wp_step; [|done]. wp_step. apply soa_post_none; [lia|]. apply no_rr.
      intros ty cl rd re (q' & Hq' & _). by apply Hr in Hq'. }
  wp_step; [done|]. wp_step. apply wp_available_from; [done..|]. wp_step; bool_simpl.
  { wp_step. apply soa_post_none; [lia|]. apply (no_rr_cut _ _ _ q); [done..|].
    pose proof (read_uint16_range (_data b) (q + 8) (ok_bytes b Hb)). lia. }
  wp_step. apply wp_read_u16_from; [done|lia..|]. intros Ht. wp_step; bool_simpl.
  { by apply wp_soa_body; [done|lia..| |]. }
  wp_step. apply wp_skip_bytes_from; [done|lia..|].
  wp_step. apply wp_read_u16_from; [done|lia..|].
  replace (q + 2 + 6) with (q + 8) by lia. intros Hs.
  wp_step. apply wp_available_from; [done|lia|]. wp_step; bool_simpl.
  { wp_step. apply soa_post_none; [lia|]. by apply (no_rr_cut _ _ _ q); [..|lia]. }
  replace (q + 8 + 2) with (q + 10) by lia.
  assert (Hf : rr_fields (_data b) (_limit b) p (read_uint16 (_data b) q)
    (read_uint16 (_data b) (q + 2)) (q + 10) (q + 10 + read_uint16 (_data b) (q + 8)))
    by (exists q; split_and!; [done..|lia|done|done]).
  wp_step. apply wp_skip_bytes_from; [done|lia..|].
  eapply wp_mono; [apply IH; lia|]. intros r b' [Hpos Hser]. split; [done|].
  intros s. rewrite Hser. by eapply soa_serial_later.
Qed.

(** The header counters. *)
Lemma wp_read_u16_header b i (Q : Z -> buffer -> Prop) :
  buffer_ok b -> i + 2 <= _limit b -> Q (read_uint16 (_data b) i) b ->
  wp (buffer_read_u16_at i) Q b.
Proof. intros. by apply wp_buffer_read_u16_at. Qed.

(** The search for the serial of a notify.  For every
    message with a header it ends without a failed assertion, leaves the
    buffer as it was, position included, and returns exactly the serial of
    the first SOA record after the question section; nothing when a question
    or an earlier record is cut off, or the first SOA is not of class IN. *)
Theorem packet_find_notify_serial_correct b :
  buffer_ok b -> QHEADERSZ <= _limit b ->
  let d := _data b in
  let rrcount := read_uint16 d 6 + read_uint16 d 8 + read_uint16 d 10 in
  wp packet_find_notify_serial (fun r b' => b' = b /\
    forall serial, r = Some serial <->
      exists p, questions d (_limit b) (Z.to_nat (read_uint16 d 4)) QHEADERSZ p /\
                soa_serial d (_limit b) (Z.to_nat rrcount) p serial) b.
Proof.
  intros Hb Hlim d rrcount. unfold QHEADERSZ in *.
  assert (Hrestore : forall (r : option Z) q, 0 <= q <= _limit b ->
    (forall serial, r = Some serial <-> exists p,
       questions d (_limit b) (Z.to_nat (read_uint16 d 4)) 12 p /\
       soa_serial d (_limit b) (Z.to_nat rrcount) p serial) ->
    wp (buffer_set_position (_position b);; mret r) (fun r b' => b' = b /\
      forall serial, r = Some serial <-> exists p,
        questions d (_limit b) (Z.to_nat (read_uint16 d 4)) 12 p /\
        soa_serial d (_limit b) (Z.to_nat rrcount) p serial) (set_pos q b)).
  { intros r q Hq Hr. wp_step. apply wp_set_position_from; [destruct Hb; lia|].
    wp_step. split; [by destruct b|done]. }
  unfold packet_find_notify_serial, buffer_position, ANCOUNT, NSCOUNT, ARCOUNT, QDCOUNT, QHEADERSZ.
  do 5 wp_step. apply wp_read_u16_header; [done|lia|].
  wp_step. apply wp_read_u16_header; [done|lia|]. wp_step. apply wp_read_u16_header; [done|lia|].
  wp_step. apply wp_buffer_set_position; [done|].
  wp_step. apply wp_read_u16_header; [apply buffer_ok_set_pos; [done|lia]|buf_simpl; lia|]. buf_simpl.
  fold d rrcount. wp_step. apply wp_skip_questions; [done|lia|..]; intros q Hq Hr.
  - wp_step; [done|]. wp_step.
    eapply wp_mono; [by apply wp_find_soa|]. intros r b' [(q' & -> & Hq') Hs].
    apply Hrestore; [done|]. intros serial. rewrite Hs. split; [by eauto|].
    intros (q2 & Hq2 & ?). by rewrite <-(questions_det _ _ _ _ _ Hq _ Hq2).
  - wp_step; [|done]. apply Hrestore; [done|]. intros serial. split; [done|].
    intros (q2 & ?%Hr & _). done.
Qed.

(** A question, a SOA record for the root with serial 7. *)
Lemma packet_find_notify_serial_witness :
  let d := [0; 1; 36; 0; 0; 1; 0; 1; 0; 0; 0; 0] ++ [0; 0; 6; 0; 1] ++
           [0; 0; 6; 0; 1; 0; 0; 0; 0; 0; 6; 0; 0; 0; 0; 0; 7] in
  let b := mkbuffer 0 (zlength d) (zlength d) d true in
  let rrcount := read_uint16 d 6 + read_uint16 d 8 + read_uint16 d 10 in
  wp packet_find_notify_serial (fun r b' => b' = b /\
    forall serial, r = Some serial <->
      exists p, questions d (_limit b) (Z.to_nat (read_uint16 d 4)) QHEADERSZ p /\
                soa_serial d (_limit b) (Z.to_nat rrcount) p serial) b /\
  packet_find_notify_serial b = Ok (Some 7, b).
Proof.
  intros d b rrcount. split; [|by vm_compute].
  apply packet_find_notify_serial_correct; [by apply (bool_decide_unpack _)|by vm_compute].
Defined.

(** * Reading the question *)

Section question.
Context (b : buffer) (Hb : buffer_ok b).
Abbreviation D := (_data b).
Abbreviation L := (_limit b).
Abbreviation p0 := (_position b).

(** A name without pointers. *)
Definition plain (p : Z) (ls : list (list Z)) (q : Z) : Prop :=
  exists n, pkt_name false D L n p ls q.

Lemma plain_inv p ls q : plain p ls q ->
  (zget D p = 0 /\ ls = [] /\ q = p + 1) \/
  (1 <= zget D p < 64 /\ p + zget D p + 2 <= L /\
   exists ls', ls = zslice D (p + 1) (zget D p) :: ls' /\ plain (p + zget D p + 1) ls' q).
Proof using.
  intros [n Hn]. inversion Hn as [? ? ?|m ? ls' ? Hc Hl Hm|]; subst; [by left| |done].
  right. replace (p + zget D p + 1) with (p + 1 + zget D p) by lia.
  pose proof (pkt_name_below _ _ _ _ _ _ _ Hm). split; [done|]. split; [lia|].
  exists ls'. split; [done|]. by exists m.
Qed.

Lemma plain_det p ls q ls' q' : plain p ls q -> plain p ls' q' -> ls' = ls /\ q' = q.
Proof using. intros [n Hn] [n' Hn']. by destruct (pkt_name_det _ _ _ _ _ _ _ Hn _ _ _ Hn'). Qed.

Record query_I (st : list Z * Z) (s : buffer) : Prop := {
  qi_state : s = b;
  qi_labels : exists ls, Forall label_ok ls /\ st.1 = stem ls /\
    (forall rest q, plain st.2 rest q -> plain p0 (ls ++ rest) q) /\
    (forall all q, plain p0 all q -> exists rest, all = ls ++ rest /\ plain st.2 rest q);
  qi_src : st.2 = p0 + zlength st.1;
  qi_len : zlength st.1 <= 254;
  qi_in : st.2 < L;
}.

Definition query_post (r : list Z * option Z) (s : buffer) : Prop :=
  s = b /\ zlength r.1 <= MAXDOMAINLEN /\
  match r.2 with
  | Some src => exists ls, plain p0 ls src /\ name_ok ls /\ r.1 = wire ls /\
      src = p0 + zlength r.1 /\ src <= L
  | None => forall ls q, plain p0 ls q -> ~ name_ok ls
  end.

Lemma wp_peek src (Q : Z -> buffer -> Prop) :
  0 <= src < L -> (byte (zget D src) -> Q (zget D src) b) -> wp (peek src) Q b.
Proof using Hb.
  intros Hs HQ. unfold peek. do 3 wp_step. destruct Hb.
  apply wp_assert; [lia|]. wp_step. auto.
Qed.

Lemma read_query_step st s : query_I st s ->
  wp (read_query_name_step p0 L st) (fun r s' =>
    match r with
    | inl st' => query_I st' s' /\
        (Z.to_nat (255 - zlength st'.1) < Z.to_nat (255 - zlength st.1))%nat
    | inr x => query_post x s'
    end) s.
Proof using Hb.
  destruct st as [dst src]. intros [-> (ls & Hls & Hdst & Hfwd & Hback) Hsrc Hlen Hin]. simpl in *.
  unfold read_query_name_step. wp_step.
  pose proof (zlength_nonneg dst). destruct Hb.
  apply wp_peek; [lia|]. intros Hc. wp_step; bool_simpl.
  { wp_step. split_and!; [done|unfold MAXDOMAINLEN; simpl; zlist; rewrite ?zlength_nil; lia|].
    exists ls. simpl. rewrite wire_stem, Hdst, H0. split_and!; [|split; [done|]|done|..].
    - rewrite <-(app_nil_r ls). apply Hfwd. exists 1%nat. by constructor.
    - rewrite wire_stem, <-Hdst. unfold MAXDOMAINLEN. zlist. rewrite ?zlength_nil. lia.
    - subst. zlist. rewrite ?zlength_nil. lia.
    - lia. }
  rewrite (proj1 (land_c0 _ Hc)). unfold byte in Hc. wp_step.
  { wp_step. split_and!; [done|unfold MAXDOMAINLEN; simpl; lia|]. simpl.
    intros all q Hall [_ Hok]. destruct (Hback _ _ Hall) as (rest & -> & Hrest).
    destruct (plain_inv _ _ _ Hrest) as [(? & _)|(Hc2 & Hl2 & ls' & -> & _)]; [done|].
    apply orb_prop in H1 as [[?|?]%orb_prop|Hlong]; bool_simpl; [lia..|].
    rewrite wire_app, zlength_app, zlength_wire_cons, zslice_length, <-Hdst in Hok by lia.
    pose proof (zlength_wire ls'). lia. }
  bool_simpl. do 3 wp_step.
  assert (Hl : zlength (zslice D (src + 1) (zget D src)) = zget D src)
    by (apply zslice_length; lia).
  rewrite (zslice_S D src) by lia.
  assert (zlength (dst ++ zget D src :: zslice D (src + 1) (zget D src)) =
          zlength dst + zget D src + 1) as Hlen' by (zlist; lia).
  unfold MAXDOMAINLEN in *. split; [|simpl; lia]. constructor; simpl; try done; try lia.
  exists (ls ++ [zslice D (src + 1) (zget D src)]). split_and!.
  - apply Forall_app. split; [done|]. repeat constructor; auto; lia.
  - by rewrite stem_snoc, Hl, Hdst.
  - intros rest q [n Hn]. rewrite <-app_assoc. apply Hfwd. exists (S n). constructor; [lia..|].
    by replace (src + 1 + zget D src) with (src + zget D src + 1) by lia.
  - intros all q Hall. destruct (Hback _ _ Hall) as (rest & -> & Hrest).
    destruct (plain_inv _ _ _ Hrest) as [(? & _)|(_ & _ & ls' & -> & Hp)]; [done|].
    exists ls'. by rewrite <-app_assoc.
Qed.
End question.

Lemma wp_read_query_section b :
  buffer_ok b -> _position b < _limit b ->
  wp packet_read_query_section (fun '(dst, r) b' =>
    zlength dst <= MAXDOMAINLEN /\
    match r with
    | Some (qtype, qclass) => exists ls q,
        plain b (_position b) ls q /\ name_ok ls /\
        dst = wire ls /\ q + 4 <= _limit b /\ b' = set_pos (q + 4) b /\
        qtype = read_uint16 (_data b) q /\ qclass = read_uint16 (_data b) (q + 2)
    | None => b' = b /\ forall ls q,
        plain b (_position b) ls q -> name_ok ls -> _limit b < q + 4
    end) b.
Proof.
  intros Hb Hp. pose proof Hb as []. unfold packet_read_query_section, buffer_current, buffer_end.
  do 3 wp_step. apply wp_buffer_at; [lia|]. do 3 wp_step. apply wp_buffer_at; [lia|]. wp_step.
  eapply wp_mono.
  { apply (wp_iter (query_I b) (fun st _ => Z.to_nat (255 - zlength st.1)) _ (query_post b)).
    - intros st s HI. eapply wp_mono; [by apply read_query_step|]. by intros [?|?] ?.
    - constructor; simpl; rewrite ?zlength_nil; [done| |lia..].
      exists []. split_and!; [done|done|done|]. intros all q Hall. by exists all.
    - simpl. rewrite zlength_nil. unfold MAXDOMAINLEN. lia. }
  intros [dst [src|]] s (-> & Hlen & Hpost); simpl in *.
  2:{ wp_step. split_and!; [done..|]. intros ls q Hn Hok. by destruct (Hpost ls q). }
  destruct Hpost as (ls & Hpl & Hok & -> & Hsrc & Hin). wp_step.
  { wp_step. split_and!; [done..|]. intros ls' q Hn _.
    destruct (plain_det b _ _ _ ls' q Hpl Hn) as [-> ->].
    apply orb_prop in H as [?|?]; bool_simpl; lia. }
  bool_simpl. pose proof (zlength_wire ls). wp_step. apply wp_buffer_at; [lia|].
  rewrite Z.sub_0_r. wp_step. apply wp_buffer_set_position; [lia|].
  wp_step. apply wp_read_u16_from; [done|lia..|]. intros _.
  wp_step. apply wp_read_u16_from; [done|lia..|]. intros _. wp_step. split; [done|].
  exists ls, src. split_and!; try done. f_equal. lia.
Qed.

(** C14 (functional): reading the question section from inside a message.  At
    most [MAXDOMAINLEN] bytes are stored; the call succeeds exactly when the
    bytes at the position are an uncompressed name of legal length followed by
    a type and a class inside the message, and then it stores the name and
    returns both, leaving the position behind them; otherwise the buffer does
    not change. *)
Theorem packet_read_query_section_correct b :
  buffer_ok b -> _position b < _limit b ->
  wp packet_read_query_section (fun '(dst, r) b' =>
    zlength dst <= MAXDOMAINLEN /\
    match r with
    | Some (qtype, qclass) => exists ls q,
        plain b (_position b) ls q /\ name_ok ls /\
        dst = wire ls /\ q + 4 <= _limit b /\ b' = set_pos (q + 4) b /\
        qtype = read_uint16 (_data b) q /\ qclass = read_uint16 (_data b) (q + 2)
    | None => b' = b /\ forall ls q,
        plain b (_position b) ls q -> name_ok ls -> _limit b < q + 4
    end) b.
Proof. apply wp_read_query_section. Qed.

(** The question "a. A IN". *)
Lemma packet_read_query_section_witness :
  let b := mkbuffer 1 8 8 [9; 1; 97; 0; 0; 1; 0; 1] true in
  wp packet_read_query_section (fun '(dst, r) b' =>
    zlength dst <= MAXDOMAINLEN /\
    match r with
    | Some (qtype, qclass) => exists ls q,
        plain b (_position b) ls q /\ name_ok ls /\
        dst = wire ls /\ q + 4 <= _limit b /\ b' = set_pos (q + 4) b /\
        qtype = read_uint16 (_data b) q /\ qclass = read_uint16 (_data b) (q + 2)
    | None => b' = b /\ forall ls q,
        plain b (_position b) ls q -> name_ok ls -> _limit b < q + 4
    end) b /\
  packet_read_query_section b = Ok (([1; 97; 0], Some (1, 1)), set_pos 8 b).
Proof.
  intros b. split; [|by vm_compute].
  apply packet_read_query_section_correct; [by apply (bool_decide_unpack _)|by vm_compute].
Defined.
