(* ===== verification/Contents.v ===== *)
(** What a buffer contains: [holds d p bs] says that the bytes [bs] are at
    place [p] of the data, [emit bs b] is the buffer after [bs] has been
    written at its position.  The encoders are proved with the second and the
    parsers with the first; both split along [++]. *)

From S2P Require Import Prelude Buffer Dname DnameProofs DnamePacket Dns Packet PacketProofs.

(** * Bytes at a place *)
Definition holds (d : list Z) (p : Z) (bs : list Z) : Prop :=
  0 <= p /\ bs `prefix_of` drop (Z.to_nat p) d.

Lemma holds_app d p x y :
  holds d p (x ++ y) <-> holds d p x /\ holds d (p + zlength x) y.
Proof.
  unfold holds. pose proof (zlength_nonneg x). split.
  - intros [Hp [k Hk]]. rewrite <-app_assoc in Hk. split; [by split; [|exists (y ++ k)]|].
    split; [lia|]. exists k. unfold zlength. replace (Z.to_nat _) with (Z.to_nat p + length x)%nat by lia.
    by rewrite <-drop_drop, Hk, drop_app_length.
  - intros [[Hp [k Hk]] [_ [k' Hk']]]. split; [done|]. exists k'.
    unfold zlength in Hk'. replace (Z.to_nat (p + _)) with (Z.to_nat p + length x)%nat in Hk' by lia.
    rewrite <-drop_drop, Hk, drop_app_length in Hk'. by rewrite Hk, Hk', app_assoc.
Qed.

Lemma holds_cons d p c y : holds d p (c :: y) <-> holds d p [c] /\ holds d (p + 1) y.
Proof. apply (holds_app d p [c] y). Qed.

Lemma holds_length d p bs : holds d p bs -> bs <> [] -> p + zlength bs <= zlength d.
Proof.
  intros [Hp [k Hk]] Hne. apply (f_equal length) in Hk. rewrite length_drop, length_app in Hk.
  unfold zlength. destruct bs; [done|]. simpl in *. lia.
Qed.

Lemma holds_slice d p bs : holds d p bs -> zslice d p (zlength bs) = bs.
Proof.
  intros [Hp [k Hk]]. unfold zslice, zlength. by rewrite Hk, Nat2Z.id, take_app_length.
Qed.

Lemma holds_byte d p c : holds d p [c] -> zget d p = c.
Proof.
  intros [Hp [k Hk]]. unfold zget. rewrite <-(Nat.add_0_r (Z.to_nat p)), <-lookup_drop.
  by rewrite Hk.
Qed.

Lemma holds_zget d p bs i : holds d p bs -> 0 <= i < zlength bs -> zget d (p + i) = zget bs i.
Proof.
  unfold zlength. intros [Hp [k Hk]] Hi. unfold zget.
  replace (Z.to_nat (p + i)) with (Z.to_nat p + Z.to_nat i)%nat by lia.
  rewrite <-lookup_drop, Hk, lookup_app_l by lia. done.
Qed.

Lemma holds_u16 d p v : Forall byte d -> 0 <= v < 65536 -> holds d p (write_uint16 v) ->
  read_uint16 d p = v.
Proof.
  intros Hd Hv Hh. rewrite read_uint16_eq by done. rewrite write_uint16_eq in Hh.
  apply holds_cons in Hh as [H1 H2]. apply holds_byte in H1, H2. rewrite H1, H2. dlia.
Qed.

Lemma holds_u32 d p v : Forall byte d -> 0 <= v < 4294967296 -> holds d p (write_uint32 v) ->
  read_uint32 d p = v.
Proof.
  intros Hd Hv Hh. rewrite read_uint32_eq by done. rewrite write_uint32_eq in Hh.
  apply holds_cons in Hh as [H1 Hh]. apply holds_cons in Hh as [H2 Hh].
  apply holds_cons in Hh as [H3 H4]. apply holds_byte in H1, H2, H3, H4.
  replace (p + 2) with (p + 1 + 1) by lia. replace (p + 3) with (p + 1 + 1 + 1) by lia.
  rewrite H1, H2, H3, H4. dlia.
Qed.

Lemma zslice_ext d d' k n : 0 <= k -> k + n <= zlength d -> k + n <= zlength d' ->
  (forall i, k <= i < k + n -> zget d i = zget d' i) -> zslice d k n = zslice d' k n.
Proof.
  unfold zslice, zlength. intros Hk Hd Hd' He. apply list_eq. intros i.
  destruct (decide (i < Z.to_nat n)%nat) as [Hi|Hi].
  - rewrite !lookup_take_lt, !lookup_drop by done. specialize (He (k + Z.of_nat i) ltac:(lia)).
    unfold zget in He. replace (Z.to_nat (k + Z.of_nat i)) with (Z.to_nat k + i)%nat in He by lia.
    destruct (lookup_lt_is_Some_2 d (Z.to_nat k + i)) as [x Hx]; [lia|].
    destruct (lookup_lt_is_Some_2 d' (Z.to_nat k + i)) as [y Hy]; [lia|].
    rewrite Hx, Hy in *. simpl in He. by subst.
  - by rewrite !lookup_take_ge by lia.
Qed.

(** * Writing at the position *)

Lemma inserts_split {A} (pre mid post bs : list A) k : k = length pre -> length bs = length mid ->
  list_inserts k bs (pre ++ mid ++ post) = pre ++ bs ++ post.
Proof.
  intros -> Hm. rewrite <-(Nat.add_0_r (length pre)), list_inserts_app_r.
  by rewrite list_inserts_0_r.
Qed.

Lemma data_split (d : list Z) k n : 0 <= k -> 0 <= n -> k + n <= zlength d ->
  exists pre mid post, d = pre ++ mid ++ post /\ Z.to_nat k = length pre /\
    Z.to_nat n = length mid /\ mid = zslice d k n.
Proof.
  intros Hk Hn Hl. unfold zlength in *.
  exists (take (Z.to_nat k) d), (zslice d k n), (drop (Z.to_nat n) (drop (Z.to_nat k) d)).
  unfold zslice. rewrite !length_take, length_drop, !take_drop. split_and!; [done|lia|lia|done].
Qed.

Definition emit (bs : list Z) (b : buffer) : buffer :=
  set_pos (_position b + zlength bs)
    (set_data (list_inserts (Z.to_nat (_position b)) bs (_data b)) b).

Lemma emit_app x y b : 0 <= _position b -> emit y (emit x b) = emit (x ++ y) b.
Proof.
  intros Hp. unfold emit. cbn. rewrite zlength_app, list_inserts_app_l.
  replace (Z.to_nat (_position b + zlength x)) with (length x + Z.to_nat (_position b))%nat
    by (unfold zlength; lia).
  unfold set_pos, set_data. cbn. f_equal. lia.
Qed.

Lemma emit_nil b : emit [] b = b.
Proof. unfold emit. rewrite zlength_nil, Z.add_0_r. by destruct b. Qed.

Lemma emit_ok x b : buffer_ok b -> Forall byte x -> _position b + zlength x <= _limit b ->
  buffer_ok (emit x b).
Proof.
  intros Hb Hx Hl. pose proof Hb as []. pose proof (zlength_nonneg x). unfold emit.
  apply buffer_ok_set_pos; [|buf_simpl; lia].
  apply buffer_ok_set_data; [done|by rewrite zlength_inserts|auto with wp].
Qed.

Lemma emit_holds x b : buffer_ok b -> _position b + zlength x <= _limit b ->
  holds (_data (emit x b)) (_position b) x.
Proof.
  intros [] Hl. pose proof (zlength_nonneg x). split; [lia|]. unfold emit. cbn.
  exists (drop (Z.to_nat (_position b) + length x) (_data b)). apply list_eq. intros i.
  rewrite lookup_drop. unfold zlength in *. destruct (decide (i < length x)%nat).
  - rewrite list_lookup_inserts by lia. rewrite lookup_app_l by lia. f_equal. lia.
  - rewrite list_lookup_inserts_ge, lookup_app_r, lookup_drop by lia. f_equal. lia.
Qed.

(** What was there before stays. *)
Lemma emit_before x b i : buffer_ok b -> 0 <= i < _position b ->
  zget (_data (emit x b)) i = zget (_data b) i.
Proof. intros [] Hi. unfold emit. cbn. apply zget_inserts_out; lia. Qed.

Lemma holds_before x b p bs : buffer_ok b -> _position b + zlength x <= _limit b ->
  holds (_data b) p bs -> p + zlength bs <= _position b ->
  holds (_data (emit x b)) p bs.
Proof.
  intros [] Hl [Hp [k Hk]] Hend. split; [done|].
  exists (drop (Z.to_nat p + length bs) (_data (emit x b))). apply list_eq. intros i.
  rewrite lookup_drop. unfold zlength in *. destruct (decide (i < length bs)%nat) as [Hi|Hi].
  - rewrite lookup_app_l by done. unfold emit. cbn.
    rewrite list_lookup_inserts_lt by lia. rewrite <-lookup_drop, Hk. by rewrite lookup_app_l.
  - rewrite lookup_app_r, lookup_drop by lia. f_equal. lia.
Qed.

Section writing.
Context (b : buffer) (Hb : buffer_ok b).

Lemma wp_emit data (Q : unit -> buffer -> Prop) :
  _position b + zlength data <= _limit b -> Q tt (emit data b) -> wp (buffer_write data) Q b.
Proof using Hb. intros. by apply wp_buffer_write. Qed.

Lemma wp_emit_u8 c (Q : unit -> buffer -> Prop) :
  _position b + 1 <= _limit b -> Q tt (emit [c] b) -> wp (buffer_write_u8 c) Q b.
Proof using Hb.
  intros Hl HQ. unfold buffer_write_u8, buffer_write_u8_at, buffer_advance. do 3 wp_step.
  apply wp_buffer_write_at; [done|by rewrite zlength_cons, zlength_nil|]. by wp_step.
Qed.

Lemma wp_emit_u16 v (Q : unit -> buffer -> Prop) :
  _position b + 2 <= _limit b -> Q tt (emit (write_uint16 v) b) -> wp (buffer_write_u16 v) Q b.
Proof using Hb.
  intros Hl HQ. unfold buffer_write_u16, buffer_write_u16_at, buffer_advance. do 3 wp_step.
  by apply wp_buffer_write_at; [done..|]; wp_step.
Qed.

Lemma wp_emit_u32 v (Q : unit -> buffer -> Prop) :
  _position b + 4 <= _limit b -> Q tt (emit (write_uint32 v) b) -> wp (buffer_write_u32 v) Q b.
Proof using Hb.
  intros Hl HQ. unfold buffer_write_u32, buffer_write_u32_at, buffer_advance. do 3 wp_step.
  by apply wp_buffer_write_at; [done..|]; wp_step.
Qed.

(** Skipping leaves the old bytes. *)
Lemma wp_emit_skip n (Q : unit -> buffer -> Prop) :
  0 <= n -> _position b + n <= _limit b ->
  Q tt (emit (zslice (_data b) (_position b) n) b) -> wp (buffer_skip n) Q b.
Proof using Hb.
  intros Hn Hl HQ. pose proof Hb as []. apply wp_buffer_skip; [done|lia|].
  unfold emit in HQ. rewrite zslice_length in HQ by lia.
  destruct (data_split (_data b) (_position b) n) as (pre & mid & post & Hd & Hpre & Hmid & Hz);
    [lia..|].
  rewrite <-Hz in HQ. rewrite Hd, inserts_split, <-Hd in HQ by done. by destruct b.
Qed.
End writing.

Lemma zlength_u16 v : zlength (write_uint16 v) = 2.
Proof. done. Qed.
Lemma zlength_u32 v : zlength (write_uint32 v) = 4.
Proof. done. Qed.

(** Writing after what has been written. *)
Section appending.
Context (b : buffer) (Hb : buffer_ok b) (acc : list Z) (Hacc : Forall byte acc).

Lemma emit_ok_here n : 0 <= n -> _position b + zlength acc + n <= _limit b -> buffer_ok (emit acc b).
Proof using Hb Hacc. intros. apply emit_ok; [done..|lia]. Qed.

Lemma emit_here x : emit x (emit acc b) = emit (acc ++ x) b.
Proof using Hb. apply emit_app. destruct Hb. lia. Qed.

Lemma wp_more x (Q : unit -> buffer -> Prop) :
  _position b + zlength acc + zlength x <= _limit b -> Q tt (emit (acc ++ x) b) ->
  wp (buffer_write x) Q (emit acc b).
Proof using Hb Hacc.
  intros Hl HQ. pose proof (zlength_nonneg x).
  apply wp_emit; [by apply (emit_ok_here (zlength x))|done|by rewrite emit_here].
Qed.

Lemma wp_more_u8 c (Q : unit -> buffer -> Prop) :
  _position b + zlength acc + 1 <= _limit b -> Q tt (emit (acc ++ [c]) b) ->
  wp (buffer_write_u8 c) Q (emit acc b).
Proof using Hb Hacc.
  intros Hl HQ. apply wp_emit_u8; [by apply (emit_ok_here 1)|done|by rewrite emit_here].
Qed.

Lemma wp_more_u16 v (Q : unit -> buffer -> Prop) :
  _position b + zlength acc + 2 <= _limit b -> Q tt (emit (acc ++ write_uint16 v) b) ->
  wp (buffer_write_u16 v) Q (emit acc b).
Proof using Hb Hacc.
  intros Hl HQ. apply wp_emit_u16; [by apply (emit_ok_here 2)|done|by rewrite emit_here].
Qed.

Lemma wp_more_u32 v (Q : unit -> buffer -> Prop) :
  _position b + zlength acc + 4 <= _limit b -> Q tt (emit (acc ++ write_uint32 v) b) ->
  wp (buffer_write_u32 v) Q (emit acc b).
Proof using Hb Hacc.
  intros Hl HQ. apply wp_emit_u32; [by apply (emit_ok_here 4)|done|by rewrite emit_here].
Qed.

Lemma wp_more_skip n (Q : unit -> buffer -> Prop) :
  0 <= n -> _position b + zlength acc + n <= _limit b ->
  (forall old, zlength old = n -> Forall byte old -> Q tt (emit (acc ++ old) b)) ->
  wp (buffer_skip n) Q (emit acc b).
Proof using Hb Hacc.
  intros Hn Hl HQ. pose proof (emit_ok_here n Hn Hl) as Hok. pose proof Hok as [].
  apply wp_emit_skip; [done|done|done|]. rewrite emit_here. unfold emit in *. buf_simpl.
  pose proof (zlength_nonneg acc). apply HQ; [apply zslice_length; lia|auto].
Qed.
End appending.

(** Side conditions of the rules: lengths and bytes of what was written. *)
Ltac emit_len :=
  rewrite ?zlength_app, ?zlength_u16, ?zlength_u32 in *; zlist; rewrite ?(@zlength_nil Z) in *; lia.
Ltac emit_bytes := repeat (apply Forall_app; split); auto with wp.

(** Storing a number in the middle of what was written. *)
Lemma patch_emit x old y v b : buffer_ok b ->
  zlength old = 2 -> _position b + zlength (x ++ old ++ y) <= _limit b ->
  set_data (list_inserts (Z.to_nat (_position b + zlength x)) (write_uint16 v)
              (_data (emit (x ++ old ++ y) b))) (emit (x ++ old ++ y) b) =
  emit (x ++ write_uint16 v ++ y) b.
Proof.
  intros [] Hold Hl. assert (Hw : zlength (write_uint16 v) = 2) by done.
  generalize dependent (write_uint16 v). intros w Hw.
  pose proof (zlength_nonneg (x ++ old ++ y)).
  destruct (data_split (_data b) (_position b) (zlength (x ++ old ++ y)))
    as (pre & mid & post & Hd & Hpre & Hmid & _); [lia..|].
  unfold emit, set_pos, set_data. cbn. rewrite !zlength_app, Hold, Hw, Hd. f_equal.
  unfold zlength in *. rewrite !length_app in *.
  rewrite !(inserts_split pre mid post) by (rewrite ?length_app; lia).
  rewrite <-!app_assoc, (app_assoc pre x), (inserts_split (pre ++ x)), <-!app_assoc;
    [done|rewrite length_app; lia|lia].
Qed.

Lemma emit_pos x b : _position (emit x b) = _position b + zlength x.
Proof. done. Qed.

Lemma wp_patch x old y v at_ b (Q : unit -> buffer -> Prop) :
  buffer_ok b -> Forall byte (x ++ old ++ y) -> zlength old = 2 ->
  _position b + zlength (x ++ old ++ y) <= _limit b -> at_ = _position b + zlength x ->
  Q tt (emit (x ++ write_uint16 v ++ y) b) ->
  wp (buffer_write_u16_at at_ v) Q (emit (x ++ old ++ y) b).
Proof.
  intros Hb Hbytes Hold Hl -> HQ. unfold buffer_write_u16_at.
  pose proof (zlength_nonneg y).
  apply wp_buffer_write_at; [by apply emit_ok|unfold emit; buf_simpl; emit_len|].
  by rewrite patch_emit.
Qed.

(** * Names in a buffer *)

Lemma wire_bytes ls : name_ok ls -> Forall byte (wire ls).
Proof.
  intros [Hls _]. induction Hls as [|l ls [Hl Hb] _ IH]; cbn [wire].
  - by repeat constructor.
  - constructor; [unfold byte; lia|]. by apply Forall_app.
Qed.

Lemma holds_pkt_name ptrs d limit ls : forall p, Forall label_ok ls ->
  holds d p (wire ls) -> p + zlength (wire ls) <= limit ->
  exists n, pkt_name ptrs d limit n p ls (p + zlength (wire ls)).
Proof.
  induction ls as [|l ls IH]; intros p Hls Hh Hl.
  - exists 1%nat. apply pkt_root; [change (zlength (wire [])) with 1 in Hl; lia|].
    by apply holds_byte in Hh.
  - apply Forall_cons in Hls as [[Hl1 Hl2] Hls]. cbn [wire] in Hh.
    apply holds_cons in Hh as [Hc Hh]. apply holds_byte in Hc.
    apply holds_app in Hh as [Hlab Hh]. apply holds_slice in Hlab.
    rewrite zlength_wire_cons in *. pose proof (zlength_wire ls).
    destruct (IH (p + 1 + zlength l)) as [n Hn]; [done|done|lia|]. exists (S n).
    rewrite <-Hlab at 1. rewrite <-Hc at 1.
    replace (p + (zlength l + 1 + zlength (wire ls))) with (p + 1 + zlength l + zlength (wire ls)) by lia.
    constructor; [lia|lia|]. by rewrite Hc.
Qed.

Lemma wp_name_at b p n ls q (Q : option dname_type -> buffer -> Prop) :
  buffer_ok b -> _limit b <= MAX_PACKET_SIZE -> 0 <= p <= _limit b -> pkt_name true (_data b) (_limit b) n p ls q ->
  name_ok ls -> Q (Some (of_labels (normalize ls))) (set_pos q b) ->
  wp (dname_make_from_packet true true) Q (set_pos p b).
Proof.
  intros Hb Hmax Hp Hn Hok HQ. unfold dname_make_from_packet. wp_step. eapply wp_mono.
  { apply dname_make_wire_from_packet_spec; [bok|done]. }
  intros [buf|] b'; cbn [_data _limit _position set_pos].
  - intros (n' & ls' & q' & Hn' & _ & -> & -> & _).
    destruct (pkt_name_det _ _ _ _ _ _ _ Hn _ _ _ Hn') as (-> & -> & ->).
    apply (wp_lift _ (Some (of_labels (normalize ls)))).
    + rewrite <-(app_nil_r (wire ls)). by apply dname_make_wire.
    + by rewrite set_pos_set_pos.
  - intros [_ Hno]. by destruct (Hno n ls _ Hn).
Qed.

Lemma wp_name_from b p ls (Q : option dname_type -> buffer -> Prop) :
  buffer_ok b -> _limit b <= MAX_PACKET_SIZE -> holds (_data b) p (wire ls) -> name_ok ls ->
  p + zlength (wire ls) <= _limit b ->
  Q (Some (of_labels (normalize ls))) (set_pos (p + zlength (wire ls)) b) ->
  wp (dname_make_from_packet true true) Q (set_pos p b).
Proof.
  intros Hb Hmax Hh Hok Hl HQ. pose proof (zlength_wire ls). pose proof (proj1 Hh) as Hp.
  destruct (holds_pkt_name true (_data b) (_limit b) ls p (proj1 Hok) Hh Hl) as [n Hn].
  by apply (wp_name_at b p n ls (p + zlength (wire ls))); [..|lia| | |].
Qed.
