(* ===== verification/Namedb.v ===== *)
(** Model of the name database (src/namedb.h, src/namedb.c): domains, record
    sets and zones in a store of their own, the domain table with its search,
    insertion and deletion, and the lookups the query code makes.  The build
    modelled has no NSEC3 support.

    A pointer to a domain, a record set or a zone is a key of the store. *)

From S2P Require Import Prelude Buffer Dname Dns.

(** * Data *)

(** [domain_type*] where the wire format is a domain name, counted bytes
    otherwise. *)
Inductive rdata_atom := Atom_domain (domain : Z) | Atom_data (data : list Z).

Record rr := mkrr {
  rr_owner : Z;
  rdatas : list rdata_atom;
  ttl : Z;
  rr_type : Z;
  klass : Z;
}.
Definition rdata_count (r : rr) : Z := zlength (rdatas r).

Record rrset := mkrrset { rrset_zone : Z; rrs : list rr }.
Definition rr_count (r : rrset) : Z := zlength (rrs r).

(** The record sets of a domain are a list linked by [next]; [in_tree] tells
    a domain of the table from a temporary one ([rnode] is not NULL). *)
Record domain := mkdomain {
  in_tree : bool;
  domain_dname : dname_type;
  parent : option Z;
  wildcard_child_closest_match : Z;
  domain_rrsets : list Z;
  number : Z;
  usage : Z;
  is_existing : bool;
  is_apex : bool;
}.

(** [expires]: the zone is a secondary one, its pattern has [request_xfr]. *)
Record zone := mkzone {
  apex : option Z;
  soa_rrset : option Z;
  soa_nx_rrset : option Z;
  ns_rrset : option Z;
  is_secure : bool;
  is_ok : bool;
  expires : bool;
}.

(** * The tree of names

    What the domain table asks of the tree its names are kept in, be it the
    radix tree or the red-black tree. *)
Class NameTree := {
  name_tree : Type;
  tree_create : name_tree;
  tree_insert : name_tree -> dname_type -> Z -> name_tree;
  tree_delete : name_tree -> dname_type -> name_tree;
  tree_search : name_tree -> dname_type -> option Z;
  tree_find_less_equal : name_tree -> dname_type -> bool * option Z;
  tree_previous : name_tree -> dname_type -> option Z;
  tree_next : name_tree -> dname_type -> option Z;
}.

Section namedb.
Context `{T : NameTree}.

(** The list linked by [numlist_next], the root first. *)
Record namedb := mkdb {
  domains : gmap Z domain;
  rrsets : gmap Z rrset;
  zones : gmap Z zone;
  nametree : name_tree;
  numlist : list Z;
  zonetree : name_tree;
}.

Definition Db := (ST namedb).

(** * Reading through pointers *)

Definition points_to {A} (o : option A) : res A :=
  match o with Some a => Ok a | None => Assert_failed end.

Definition domain_at (db : namedb) (d : Z) : res domain := points_to (domains db !! d).
Definition rrset_at (db : namedb) (r : Z) : res rrset := points_to (rrsets db !! r).
Definition zone_at (db : namedb) (z : Z) : res zone := points_to (zones db !! z).

Definition first_rr (r : rrset) : res rr := points_to (rrs r !! 0%nat).
Definition rrset_rrtype (r : rrset) : res Z := a ← first_rr r; mret (rr_type a).
Definition rrset_rrclass (r : rrset) : res Z := a ← first_rr r; mret (klass a).

Definition zone_is_secure (db : namedb) (z : Z) : res bool := a ← zone_at db z; mret (is_secure a).

Definition rdata_atom_domain (a : rdata_atom) : res Z :=
  match a with Atom_domain d => Ok d | Atom_data _ => Assert_failed end.
Definition rdata_atom_data (a : rdata_atom) : res (list Z) :=
  match a with Atom_domain _ => Assert_failed | Atom_data bytes => Ok bytes end.

Definition rr_rrsig_type_covered (r : rr) : res Z :=
  rassert (rr_type r =? TYPE_RRSIG);;
  a ← points_to (rdatas r !! 0%nat);
  bytes ← rdata_atom_data a;
  rassert (zlength bytes =? 2);;
  mret (read_uint16 bytes 0).

(** * Record sets of a domain *)

(** The first record set of the list for which the test holds. *)
Fixpoint find_in_rrsets (db : namedb) (test : rrset -> res bool) (l : list Z) : res (option Z) :=
  match l with
  | [] => Ok None
  | r :: l =>
      rs ← rrset_at db r;
      t ← test rs;
      if (t : bool) then Ok (Some r) else find_in_rrsets db test l
  end.

Definition domain_find_rrset (db : namedb) (d : domain) (z type : Z) : res (option Z) :=
  find_in_rrsets db (fun r =>
    if rrset_zone r =? z then t ← rrset_rrtype r; mret (t =? type) else mret false)
    (domain_rrsets d).

Definition domain_find_any_rrset (db : namedb) (d : domain) (z : Z) : res (option Z) :=
  find_in_rrsets db (fun r => mret (rrset_zone r =? z)) (domain_rrsets d).

Definition domain_find_non_cname_rrset (db : namedb) (d : domain) (z : Z) : res (option Z) :=
  find_in_rrsets db (fun r =>
    if rrset_zone r =? z then
      t ← rrset_rrtype r;
      mret (negb (t =? TYPE_CNAME) && negb (t =? TYPE_RRSIG) && negb (t =? TYPE_NXT) &&
            negb (t =? TYPE_SIG) && negb (t =? TYPE_NSEC) && negb (t =? TYPE_NSEC3))
    else mret false)
    (domain_rrsets d).

(** * Walking towards the root

    A chain of parents is no longer than a name has labels. *)
Definition parent_fuel : nat := 256.

Definition namedb_find_zone (db : namedb) (dname : dname_type) : option Z :=
  tree_search (zonetree db) dname.

Definition domain_find_zone (db : namedb) (d : option Z) : res (option Z) :=
  iter parent_fuel (fun d : option Z =>
    match d with
    | None => mret (inr None)
    | Some p =>
        d ← domain_at db p;
        if is_apex d then
          r ← find_in_rrsets db (fun r => t ← rrset_rrtype r; mret (t =? TYPE_SOA)) (domain_rrsets d);
          match r with
          | Some r => rs ← rrset_at db r; mret (inr (Some (rrset_zone rs)))
          | None => mret (inr (namedb_find_zone db (domain_dname d)))
          end
        else mret (inl (parent d))
    end) d.

Definition domain_find_parent_zone (db : namedb) (z : Z) : res (option Z) :=
  a ← zone_at db z;
  top ← points_to (apex a);
  d ← domain_at db top;
  r ← find_in_rrsets db (fun r =>
        if negb (rrset_zone r =? z) then t ← rrset_rrtype r; mret (t =? TYPE_NS) else mret false)
        (domain_rrsets d);
  match r with
  | Some r => rs ← rrset_at db r; mret (Some (rrset_zone rs))
  | None => match parent d with
            | Some _ => domain_find_zone db (parent d)
            | None => mret None
            end
  end.

(** The domain and its NS record set. *)
Definition domain_find_ns_rrsets (db : namedb) (d : option Z) (z : Z) : res (option (Z * Z)) :=
  a ← zone_at db z;
  iter parent_fuel (fun d : option Z =>
    match d with
    | None => mret (inr None)
    | Some p =>
        if bool_decide (Some p = apex a) then mret (inr None)
        else
          d ← domain_at db p;
          ns ← domain_find_rrset db d z TYPE_NS;
          match ns with
          | Some r => mret (inr (Some (p, r)))
          | None => mret (inl (parent d))
          end
    end) d.

Definition find_dname_above (db : namedb) (d z : Z) : res (option Z) :=
  a ← zone_at db z;
  d ← domain_at db d;
  iter parent_fuel (fun d : option Z =>
    match d with
    | None => mret (inr None)
    | Some p =>
        if bool_decide (Some p = apex a) then mret (inr None)
        else
          d ← domain_at db p;
          r ← domain_find_rrset db d z TYPE_DNAME;
          match r with
          | Some _ => mret (inr (Some p))
          | None => mret (inl (parent d))
          end
    end) (parent d).

Definition domain_is_glue (db : namedb) (d z : Z) : res bool :=
  ns ← domain_find_ns_rrsets db (Some d) z;
  match ns with
  | None => mret false
  | Some (p, _) =>
      d ← domain_at db p;
      soa ← domain_find_rrset db d z TYPE_SOA;
      mret (match soa with None => true | Some _ => false end)
  end.

Definition domain_wildcard_child (db : namedb) (d : Z) : res (option Z) :=
  a ← domain_at db d;
  let wildcard_child := wildcard_child_closest_match a in
  w ← domain_at db wildcard_child;
  mret (if negb (wildcard_child =? d) && label_is_wildcard (dname_name (domain_dname w))
        then Some wildcard_child else None).

(** * Changing the store *)

Definition set_domains (m : gmap Z domain) (db : namedb) : namedb :=
  mkdb m (rrsets db) (zones db) (nametree db) (numlist db) (zonetree db).
Definition set_rrset_store (m : gmap Z rrset) (db : namedb) : namedb :=
  mkdb (domains db) m (zones db) (nametree db) (numlist db) (zonetree db).
Definition put_domain (p : Z) (d : domain) (db : namedb) : namedb :=
  set_domains (<[p := d]> (domains db)) db.
Definition set_nametree (t : name_tree) (db : namedb) : namedb :=
  mkdb (domains db) (rrsets db) (zones db) t (numlist db) (zonetree db).
Definition set_numlist (l : list Z) (db : namedb) : namedb :=
  mkdb (domains db) (rrsets db) (zones db) (nametree db) l (zonetree db).

Definition set_wildcard (w : Z) (d : domain) : domain :=
  mkdomain (in_tree d) (domain_dname d) (parent d) w (domain_rrsets d) (number d) (usage d)
    (is_existing d) (is_apex d).
Definition set_rrsets (l : list Z) (d : domain) : domain :=
  mkdomain (in_tree d) (domain_dname d) (parent d) (wildcard_child_closest_match d) l (number d)
    (usage d) (is_existing d) (is_apex d).
Definition set_number (n : Z) (d : domain) : domain :=
  mkdomain (in_tree d) (domain_dname d) (parent d) (wildcard_child_closest_match d)
    (domain_rrsets d) n (usage d) (is_existing d) (is_apex d).
Definition set_existing (d : domain) : domain :=
  mkdomain (in_tree d) (domain_dname d) (parent d) (wildcard_child_closest_match d)
    (domain_rrsets d) (number d) (usage d) true (is_apex d).

Definition get_domain (p : Z) : Db domain := db ← st_get; lift (domain_at db p).

(** * The domain table *)

Definition wildcard_label : list Z := [1; 42].

(** The database as [domain_table_create] makes it. *)
Definition domain_table_create : res namedb :=
  origin ← dname_make [0] false;
  origin ← points_to origin;
  let root := mkdomain true origin None 0 [] 1 1 false false in
  mret (mkdb {[0 := root]} ∅ ∅ (tree_insert tree_create origin 0) [0] tree_create).

(** A new block is at a place not in use: the first after all that are. *)
Definition allocate {A} (m : gmap Z A) : Z := map_fold (fun p _ q => Z.max p q) (-1) m + 1.

Definition allocate_domain_info (dname : dname_type) (parent_ : Z) : Db Z :=
  db ← st_get;
  p ← lift (domain_at db parent_);
  dn ← lift (dname_partial_copy dname (label_count (domain_dname p) + 1));
  dn ← lift (points_to dn);
  last ← lift (points_to (last (numlist db)));
  l ← lift (domain_at db last);
  let result := allocate (domains db) in
  st_put (set_numlist (numlist db ++ [result])
    (put_domain result (mkdomain true dn (Some parent_) result [] (number l + 1) 0 false false) db));;
  mret result.

Definition domain_table_search (db : namedb) (dname : dname_type) : res (bool * Z * Z) :=
  let '(exact, closest_match) := tree_find_less_equal (nametree db) dname in
  closest_match ← points_to closest_match;
  if (exact : bool) then mret (true, closest_match, closest_match)
  else
    c ← domain_at db closest_match;
    label_match_count ← dname_label_match_count (domain_dname c) dname;
    rassert (label_match_count <? label_count dname);;
    closest_encloser ← iter parent_fuel (fun p =>
      d ← domain_at db p;
      if label_match_count <? label_count (domain_dname d)
      then q ← points_to (parent d); mret (inl q)
      else mret (inr p)) closest_match;
    mret (false, closest_match, closest_encloser).

Definition domain_table_find (db : namedb) (dname : dname_type) : res (option Z) :=
  r ← domain_table_search db dname;
  let '(exact, _, closest_encloser) := r in
  mret (if (exact : bool) then Some closest_encloser else None).

(** [d], new below [parent_] or new among its existing children, may be the
    one before the wildcard. *)
Definition update_wildcard (parent_ d : Z) : Db unit :=
  a ← get_domain d;
  c1 ← lift (label_compare (dname_name (domain_dname a)) wildcard_label);
  if c1 <=? 0 then
    p ← get_domain parent_;
    w ← get_domain (wildcard_child_closest_match p);
    c2 ← lift (dname_compare (domain_dname a) (domain_dname w));
    if 0 <? c2 then st_modify (put_domain parent_ (set_wildcard d p)) else mret tt
  else mret tt.

Definition domain_table_insert (dname : dname_type) : Db Z :=
  db ← st_get;
  r ← lift (domain_table_search db dname);
  let '(exact, _, closest_encloser) := r in
  if (exact : bool) then mret closest_encloser
  else
    e ← get_domain closest_encloser;
    st_assert (label_count (domain_dname e) <? label_count dname);;
    st_iter parent_fuel (fun closest_encloser =>
      result ← allocate_domain_info dname closest_encloser;
      d ← get_domain result;
      st_modify (fun db => set_nametree (tree_insert (nametree db) (domain_dname d) result) db);;
      update_wildcard closest_encloser result;;
      if label_count (domain_dname d) <? label_count dname then mret (inl result)
      else mret (inr result)) closest_encloser.

Definition domain_previous (db : namedb) (d : domain) : option Z :=
  tree_previous (nametree db) (domain_dname d).
Definition domain_next (db : namedb) (d : domain) : option Z :=
  tree_next (nametree db) (domain_dname d).

(** Every round moves to an earlier name of the tree. *)
Definition domain_previous_existing_child (db : namedb) (d : domain) : res (option Z) :=
  iter (S (size (domains db))) (fun p : option Z =>
    match p with
    | None => mret (inr None)
    | Some p =>
        a ← domain_at db p;
        if is_existing a then mret (inr (Some p))
        else if bool_decide (Some p = parent d) then mret (inr (parent d))
        else mret (inl (domain_previous db a))
    end) (domain_previous db d).

Definition domain_add_rrset (p r : Z) : Db unit :=
  d ← get_domain p;
  st_modify (put_domain p (set_rrsets (domain_rrsets d ++ [r]) d));;
  st_iter parent_fuel (fun p : option Z =>
    match p with
    | None => mret (inr tt)
    | Some p =>
        d ← get_domain p;
        if is_existing d then mret (inr tt)
        else
          st_modify (put_domain p (set_existing d));;
          match parent d with
          | Some q => update_wildcard q p
          | None => mret tt
          end;;
          mret (inl (parent d))
    end) (Some p).

(** Numbers and places in the list are exchanged with the last domain. *)
Definition numlist_make_last (p : Z) : Db unit :=
  db ← st_get;
  last ← lift (points_to (last (numlist db)));
  if p =? last then mret tt
  else
    d ← get_domain p;
    l ← get_domain last;
    st_modify (put_domain p (set_number (number l) d));;
    st_modify (put_domain last (set_number (number d) l));;
    st_modify (fun db => set_numlist
      ((fun x => if x =? p then last else if x =? last then p else x) <$> numlist db) db).

Definition numlist_pop_last : Db unit :=
  st_modify (fun db => set_numlist (removelast (numlist db)) db).

Definition domain_can_be_deleted (db : namedb) (d : domain) : res bool :=
  match domain_rrsets d with
  | _ :: _ => mret false
  | [] =>
      if negb (usage d =? 0) then mret false
      else match domain_next db d with
           | None => mret true
           | Some n =>
               n ← domain_at db n;
               sub ← dname_is_subdomain (domain_dname n) (domain_dname d);
               mret (negb sub)
           end
  end.

Definition do_deldomain (p : Z) : Db unit :=
  d ← get_domain p;
  q ← lift (points_to (parent d));
  numlist_make_last p;;
  numlist_pop_last;;
  db ← st_get;
  par ← get_domain q;
  (if wildcard_child_closest_match par =? p then
     w ← lift (domain_previous_existing_child db d);
     w ← lift (points_to w);
     st_modify (put_domain q (set_wildcard w par))
   else mret tt);;
  st_modify (fun db => set_nametree (tree_delete (nametree db) (domain_dname d)) db);;
  st_modify (fun db => set_domains (delete p (domains db)) db).

(** The parent is read from the recycled block, which still holds it. *)
Definition domain_table_deldomain (p : Z) : Db unit :=
  st_iter parent_fuel (fun p =>
    d ← get_domain p;
    db ← st_get;
    c ← lift (domain_can_be_deleted db d);
    if (c : bool) then
      do_deldomain p;;
      q ← lift (points_to (parent d));
      mret (inl q)
    else mret (inr tt)) p.
End namedb.
