(* ===== verification/NamedbProofs.v ===== *)
(** Theorems about the name database of Namedb.v: the table against its
    specification as a finite map closed under parents, for every tree of
    names that keeps the promises of [NameTreeLaws]. *)

From S2P Require Import Prelude Buffer Dname DnameProofs DnamePacket Dns Namedb.

(** * What a tree of names promises *)
Abbreviation name := (list (list Z)).

(** The entry before a name in the canonical order. *)
Definition greatest_below (m : gmap name Z) (ls : name) (r : option Z) : Prop :=
  match r with
  | Some p => exists k, m !! k = Some p /\ name_cmp k ls < 0 /\
                forall k' p', m !! k' = Some p' -> name_cmp k' ls < 0 -> name_cmp k' k <= 0
  | None => forall k p, m !! k = Some p -> 0 <= name_cmp k ls
  end.

(** The entry after it. *)
Definition least_above (m : gmap name Z) (ls : name) (r : option Z) : Prop :=
  match r with
  | Some p => exists k, m !! k = Some p /\ 0 < name_cmp k ls /\
                forall k' p', m !! k' = Some p' -> 0 < name_cmp k' ls -> name_cmp k k' <= 0
  | None => forall k p, m !! k = Some p -> name_cmp k ls <= 0
  end.

Class NameTreeLaws (T : NameTree) := {
  contents : name_tree -> gmap name Z;
  contents_create : contents tree_create = ∅;
  contents_insert t ls p : name_ok ls -> contents t !! ls = None ->
    contents (tree_insert t (of_labels ls) p) = <[ls := p]> (contents t);
  contents_delete t ls : name_ok ls ->
    contents (tree_delete t (of_labels ls)) = delete ls (contents t);
  contents_search t ls : name_ok ls -> tree_search t (of_labels ls) = contents t !! ls;
  find_exact t ls p : name_ok ls -> contents t !! ls = Some p ->
    tree_find_less_equal t (of_labels ls) = (true, Some p);
  find_below t ls : name_ok ls -> contents t !! ls = None ->
    exists r, tree_find_less_equal t (of_labels ls) = (false, r) /\
      greatest_below (contents t) ls r;
  contents_previous t ls : name_ok ls ->
    greatest_below (contents t) ls (tree_previous t (of_labels ls));
  contents_next t ls : name_ok ls ->
    least_above (contents t) ls (tree_next t (of_labels ls));
}.

(** * The canonical order and suffixes *)

Lemma name_cmp_flip a b : name_cmp a b < 0 <-> 0 < name_cmp b a.
Proof. apply cmp_swap. Qed.

Lemma name_cmp_refl a : name_cmp a a = 0.
Proof. by apply (cmp_eq (cmp:=name_cmp)). Qed.

(** Between a prefix of [q] and [q] there are only lists with that prefix. *)
Lemma lex_prefix_between {A} (cmp : A -> A -> Z) `{!LawfulCompare cmp} (s m q : list A) :
  s `prefix_of` q -> lex cmp s m <= 0 -> lex cmp m q <= 0 -> s `prefix_of` m.
Proof.
  revert m q. induction s as [|x s IH]; intros m q Hq Hs Hm; [apply prefix_nil|].
  destruct Hq as [k ->]. cbn [app] in Hm.
  destruct m as [|y m]; simpl in *.
  { unfold zlength in Hs. cbn [length] in Hs. lia. }
  assert (E : cmp x y = 0).
  { destruct (Z.eqb_spec (cmp x y) 0) as [|E]; [done|].
    assert (0 < cmp y x) by (apply (cmp_swap (cmp:=cmp)); lia).
    destruct (Z.eqb_spec (cmp y x) 0); lia. }
  rewrite E in Hs. simpl in Hs. apply (cmp_eq (cmp:=cmp)) in E as ->.
  rewrite (proj2 (cmp_eq (cmp:=cmp) y y) eq_refl) in Hm. simpl in Hm.
  apply prefix_cons, (IH m (s ++ k)); [by exists k|done..].
Qed.

Lemma lex_prefix {A} (cmp : A -> A -> Z) `{!LawfulCompare cmp} (s k : list A) :
  lex cmp s (s ++ k) <= 0.
Proof.
  induction s as [|x s IH]; simpl.
  - destruct k; unfold zlength; cbn [length]; lia.
  - by rewrite (proj2 (cmp_eq (cmp:=cmp) x x) eq_refl).
Qed.

Lemma suffix_reverse {A} (a b : list A) : a `suffix_of` b <-> reverse a `prefix_of` reverse b.
Proof.
  split; intros [k E].
  - subst b. rewrite reverse_app. by exists (reverse k).
  - exists (reverse k). apply (inj reverse). by rewrite reverse_app, reverse_involutive.
Qed.

Lemma suffix_between s m q :
  s `suffix_of` q -> name_cmp s m <= 0 -> name_cmp m q <= 0 -> s `suffix_of` m.
Proof. rewrite !suffix_reverse. apply lex_prefix_between. apply _. Qed.

Lemma suffix_le s q : s `suffix_of` q -> name_cmp s q <= 0.
Proof. rewrite suffix_reverse. intros [k E]. unfold name_cmp. rewrite E. apply lex_prefix, _. Qed.

Lemma common_prefix_take {A} `{EqDecision A} (l r : list A) :
  take (common_prefix l r) l = take (common_prefix l r) r.
Proof.
  revert r. induction l as [|x l IH]; intros [|y r]; simpl; try done.
  case_decide as E; [|done]. subst. simpl. by rewrite IH.
Qed.

Lemma common_prefix_le {A} `{EqDecision A} (l r : list A) :
  (common_prefix l r <= length l)%nat /\ (common_prefix l r <= length r)%nat.
Proof.
  revert r. induction l as [|x l IH]; intros [|y r]; simpl; try lia.
  case_decide; simpl; [|lia]. destruct (IH r). lia.
Qed.

Lemma common_prefix_max {A} `{EqDecision A} (s l r : list A) :
  s `prefix_of` l -> s `prefix_of` r -> (length s <= common_prefix l r)%nat.
Proof.
  intros [k ->] [k' ->]. induction s as [|x s IH]; simpl; [lia|].
  rewrite decide_True by done. simpl in IH. lia.
Qed.

(** The suffix two names share. *)
Definition shared (a b : name) : name := drop (length a - Z.to_nat (common_labels a b)) a.

Lemma shared_reverse a b :
  reverse (shared a b) = take (common_prefix (reverse a) (reverse b)) (reverse a).
Proof.
  unfold shared, common_labels. rewrite Nat2Z.id.
  destruct (common_prefix_le (reverse a) (reverse b)) as [Hn _]. rewrite length_reverse in Hn.
  generalize dependent (common_prefix (reverse a) (reverse b)). intros n Hn.
  rewrite <-(take_drop (length a - n) a) at 3.
  rewrite reverse_app, take_app_length' by (rewrite length_reverse, length_drop; lia). done.
Qed.

Lemma shared_suffix_l a b : shared a b `suffix_of` a.
Proof. apply suffix_drop. Qed.

Lemma shared_suffix_r a b : shared a b `suffix_of` b.
Proof.
  rewrite suffix_reverse, shared_reverse, common_prefix_take. apply prefix_take.
Qed.

Lemma length_shared a b : length (shared a b) = Z.to_nat (common_labels a b).
Proof.
  unfold shared, common_labels. rewrite length_drop, Nat2Z.id.
  pose proof (common_prefix_le (reverse a) (reverse b)). rewrite length_reverse in *. lia.
Qed.

Lemma shared_max s a b : s `suffix_of` a -> s `suffix_of` b -> s `suffix_of` shared a b.
Proof.
  intros Ha Hb. apply suffix_reverse. rewrite shared_reverse.
  pose proof Ha as Ha'. rewrite suffix_reverse in Ha', Hb.
  pose proof (common_prefix_max _ _ _ Ha' Hb). destruct Ha' as [k E]. rewrite E in *.
  exists (take (common_prefix (reverse s ++ k) (reverse b) - length (reverse s)) k).
  by rewrite take_app_ge.
Qed.

(** * The table as a map closed under parents *)
Section proofs.
Context `{T : NameTree} {L : NameTreeLaws T}.

Abbreviation names db := (contents (nametree db)).

(** The names below [ls] by one label that come no later than the wildcard. *)
Definition before_wildcard (c : list Z) : Prop := label_cmp c [42] <= 0.

(** [w] is the domain of [ls] or of a child not after the wildcard, and no
    such child that exists comes after it. *)
Definition wildcard_right (db : namedb) (ls : name) (w : Z) : Prop := exists lw,
  names db !! lw = Some w /\
  (lw = ls \/ exists c, lw = c :: ls /\ before_wildcard c) /\
  forall c p d, names db !! (c :: ls) = Some p -> domains db !! p = Some d -> is_existing d = true ->
    before_wildcard c -> name_cmp (c :: ls) lw <= 0.

Record domain_ok (db : namedb) (ls : name) (p : Z) (d : domain) : Prop := {
  domain_name_ok : name_ok ls;
  domain_named : domain_dname d = of_labels ls;
  domain_in_tree : in_tree d = true;
  domain_parent : match ls with
                  | [] => parent d = None
                  | _ :: up => exists q, parent d = Some q /\ names db !! up = Some q
                  end;
  domain_wildcard : wildcard_right db ls (wildcard_child_closest_match d);
}.

Record db_ok (db : namedb) : Prop := {
  db_root : is_Some (names db !! []);
  db_domain ls p : names db !! ls = Some p ->
    exists d, domains db !! p = Some d /\ domain_ok db ls p d;
  db_injective ls ls' p : names db !! ls = Some p -> names db !! ls' = Some p -> ls = ls';
  db_numlist p : p ∈ numlist db <-> exists ls, names db !! ls = Some p;
  db_numlist_nodup : NoDup (numlist db);
  db_numbers i p d : numlist db !! i = Some p -> domains db !! p = Some d ->
    number d = Z.of_nat i + 1;
}.

Context (db : namedb) (Hdb : db_ok db).

Lemma domain_lookup ls p : names db !! ls = Some p ->
  exists d, domain_at db p = Ok d /\ domain_ok db ls p d.
Proof using Hdb.
  intros H. destruct (db_domain db Hdb _ _ H) as (d & Hd & Hok). exists d.
  unfold domain_at. by rewrite Hd.
Qed.

(** Every suffix of a name of the table is in the table. *)
Lemma names_suffix ls p k : names db !! ls = Some p -> k `suffix_of` ls ->
  exists q, names db !! k = Some q.
Proof using Hdb.
  intros H [j ->]. revert p H. induction j as [|l j IH]; intros p H; [by exists p|].
  destruct (domain_lookup _ _ H) as (d & _ & [_ _ _ (q & _ & Hq) _]). by apply (IH q).
Qed.

Lemma domain_label_count ls p d : domain_ok db ls p d -> label_count (domain_dname d) = zlength ls + 1.
Proof using. intros []. by rewrite domain_named0. Qed.

(** Walking up from a name to one of its suffixes. *)
Lemma walk_up ls p k fuel : names db !! ls = Some p -> k `suffix_of` ls ->
  (length ls < fuel + length k)%nat ->
  exists q, names db !! k = Some q /\
    iter fuel (fun p =>
      d ← domain_at db p;
      if zlength k + 1 <? label_count (domain_dname d)
      then q ← points_to (parent d); mret (inl q)
      else mret (inr p)) p = Ok q.
Proof using Hdb.
  intros H [j ->]. rewrite length_app. revert p j H.
  induction fuel as [|fuel IH]; intros p j H Hl; [lia|].
  destruct (domain_lookup _ _ H) as (d & Hd & Hok). cbn [iter].
  rewrite Hd. cbn [mbind res_bind]. rewrite (domain_label_count _ _ _ Hok).
  destruct j as [|l j].
  { cbn [app]. rewrite Z.ltb_irrefl. by exists p. }
  rewrite (proj2 (Z.ltb_lt _ _)) by (rewrite zlength_app, zlength_cons; pose proof (zlength_nonneg j); lia).
  destruct Hok as [_ _ _ (q & -> & Hq) _]. cbn. apply (IH q j); [done|]. simpl in Hl. lia.
Qed.

Lemma name_ok_fuel ls : name_ok ls -> (length ls < parent_fuel)%nat.
Proof using.
  intros Hok%name_ok_count. unfold zlength, parent_fuel in *. lia.
Qed.

(** The longest suffix of [ls] in the table. *)
Definition encloser (ls k : name) : Prop :=
  k `suffix_of` ls /\ is_Some (names db !! k) /\
  forall j, j `suffix_of` ls -> is_Some (names db !! j) -> j `suffix_of` k.

(** The entry before [ls] shares with it all there is to share. *)
Lemma encloser_below ls m p : names db !! m = Some p -> name_cmp m ls < 0 ->
  (forall k p, names db !! k = Some p -> name_cmp k ls < 0 -> name_cmp k m <= 0) ->
  names db !! ls = None -> encloser ls (shared m ls).
Proof using Hdb.
  intros Hm Hlt Hmax Hno. split_and!; [apply shared_suffix_r|..].
  - destruct (names_suffix _ _ _ Hm (shared_suffix_l m ls)) as [q ->]. by eexists.
  - intros j Hj [q Hq]. apply shared_max; [|done]. apply (suffix_between _ _ ls); [done|..].
    + apply (Hmax _ _ Hq). pose proof (suffix_le _ _ Hj).
      destruct (decide (name_cmp j ls = 0)) as [E|]; [|lia].
      apply (cmp_eq (cmp:=name_cmp)) in E as ->. congruence.
    + lia.
Qed.

Lemma domain_table_search_spec ls : name_ok ls ->
  exists exact match_ m e k,
    domain_table_search db (of_labels ls) = Ok (exact, match_, e) /\
    names db !! m = Some match_ /\ names db !! k = Some e /\ encloser ls k /\
    (if exact then m = ls else names db !! ls = None) /\ name_cmp m ls <= 0 /\
    forall j p, names db !! j = Some p -> name_cmp j ls <= 0 -> name_cmp j m <= 0.
Proof using Hdb L.
  intros Hok. unfold domain_table_search. destruct (names db !! ls) as [p|] eqn:E.
  - rewrite (find_exact _ ls p) by done. cbn.
    exists true, p, ls, p, ls. rewrite name_cmp_refl. by split_and!.
  - destruct (find_below (nametree db) ls) as (r & -> & Hr); [done..|].
    destruct r as [p|].
    2:{ exfalso. destruct (db_root db Hdb) as [q Hq].
        pose proof (Hr _ _ Hq). pose proof (suffix_le [] ls (suffix_nil _)).
        destruct ls as [|l ls]; [congruence|].
        assert (name_cmp [] (l :: ls) = 0) as E0 by lia.
        by apply (cmp_eq (cmp:=name_cmp)) in E0. }
    destruct Hr as (m & Hm & Hlt & Hmax). cbn [mbind res_bind points_to].
    destruct (domain_lookup _ _ Hm) as (d & Hd & Hdok). rewrite Hd. cbn [mbind res_bind].
    pose proof Hdok as [Hmok Hdn _ _ _]. rewrite Hdn.
    rewrite dname_label_match_count_spec by done. cbn [mbind res_bind label_count of_labels].
    pose proof (encloser_below ls m p Hm Hlt Hmax E) as Henc.
    pose proof (length_shared m ls) as Hlen. destruct Henc as (Hsuf & Hin & Hlong).
    assert (Hc : 1 + common_labels m ls = zlength (shared m ls) + 1).
    { unfold zlength. rewrite Hlen. unfold common_labels. lia. }
    rewrite Hc. rewrite (proj2 (Z.ltb_lt _ _)).
    2:{ destruct Hsuf as [[|x k] Hk]; [cbn [app] in Hk; rewrite Hk in E; by destruct Hin; simplify_eq/=; congruence|].
        rewrite Hk at 2. rewrite zlength_app, zlength_cons. pose proof (zlength_nonneg k). lia. }
    cbn [rassert mbind res_bind].
    destruct (walk_up m p (shared m ls) parent_fuel Hm (shared_suffix_l _ _)) as (q & Hq & ->).
    { pose proof (name_ok_fuel m Hmok). lia. }
    exists false, p, m, q, (shared m ls). cbn [mbind res_bind mret res_ret].
    split_and!; try done; [lia|].
    intros j p' Hj Hle. apply (Hmax _ _ Hj).
    destruct (decide (name_cmp j ls = 0)) as [E0|]; [|lia].
    apply (cmp_eq (cmp:=name_cmp)) in E0 as ->. congruence.
Qed.

(** * Insertion *)

Lemma allocate_fresh {A} (m : gmap Z A) : m !! allocate m = None.
Proof using.
  unfold allocate. set (f := fun (p : Z) (_ : A) (q : Z) => Z.max p q).
  enough (H : forall p a, m !! p = Some a -> p <= map_fold f (-1) m).
  { apply eq_None_not_Some. intros [a Ha]. apply H in Ha. lia. }
  apply (map_fold_weak_ind (fun r m => forall p a, m !! p = Some a -> p <= r)); [done|].
  unfold f. intros i x m' r _ IH p a [[-> _]|[_ Hp]]%lookup_insert_Some; [lia|].
  apply IH in Hp. lia.
Qed.


(** What changes in a domain that stays: the domain before its wildcard. *)
Definition kept (d d' : domain) : Prop := d' = set_wildcard (wildcard_child_closest_match d') d.

Lemma kept_refl d : kept d d.
Proof using. by destruct d. Qed.

Lemma kept_trans d1 d2 d3 : kept d1 d2 -> kept d2 d3 -> kept d1 d3.
Proof using. unfold kept. intros -> ->. by destruct d1. Qed.

(** The old domains are where they were, and only the table has changed. *)
Record grown (db db' : namedb) : Prop := {
  grown_names k q : names db !! k = Some q -> names db' !! k = Some q;
  grown_domains q d : domains db !! q = Some d ->
    exists d', domains db' !! q = Some d' /\ kept d d';
  grown_rest : rrsets db' = rrsets db /\ zones db' = zones db /\ zonetree db' = zonetree db;
}.

Lemma grown_refl db0 : grown db0 db0.
Proof using. split; [done| |done]. intros q d Hd. exists d. by split; [|apply kept_refl]. Qed.

Lemma grown_trans db1 db2 db3 : grown db1 db2 -> grown db2 db3 -> grown db1 db3.
Proof using.
  intros [N1 D1 (R1 & Z1 & T1)] [N2 D2 (R2 & Z2 & T2)]. split; [eauto| |by rewrite R2, Z2, T2].
  intros q d Hd. destruct (D1 _ _ Hd) as (d1 & H1 & K1). destruct (D2 _ _ H1) as (d2 & H2 & K2).
  exists d2. split; [done|]. by eapply kept_trans.
Qed.

Section insert_one.
Context (l : list Z) (k : name) (e : Z) (de : domain) (lastp : Z) (dl : domain).
Context (Hok : name_ok (l :: k)) (He : names db !! k = Some e) (Hde : domains db !! e = Some de).
Context (Hnew : names db !! (l :: k) = None).
Context (Hlast : last (numlist db) = Some lastp) (Hdl : domains db !! lastp = Some dl).

Definition new_pointer : Z := allocate (domains db).
Definition new_domain : domain :=
  mkdomain true (of_labels (l :: k)) (Some e) new_pointer [] (number dl + 1) 0 false false.
Definition added : namedb :=
  set_nametree (tree_insert (nametree db) (of_labels (l :: k)) new_pointer)
    (set_numlist (numlist db ++ [new_pointer]) (put_domain new_pointer new_domain db)).
Definition inserted (w : Z) : namedb := put_domain e (set_wildcard w de) added.

Lemma new_pointer_fresh : domains db !! new_pointer = None.
Proof using. apply allocate_fresh. Qed.

Lemma new_pointer_unused j p : names db !! j = Some p -> p <> new_pointer.
Proof using Hdb.
  intros H ->. destruct (db_domain db Hdb _ _ H) as (d & Hd & _).
  by rewrite new_pointer_fresh in Hd.
Qed.

Lemma inserted_names w : names (inserted w) = <[l :: k := new_pointer]> (names db).
Proof using Hok Hnew. by apply contents_insert. Qed.

Lemma inserted_new w : domains (inserted w) !! new_pointer = Some new_domain.
Proof using Hdb He.
  cbn. rewrite lookup_insert_ne by (by apply (new_pointer_unused k)). by rewrite lookup_insert_eq.
Qed.

Lemma inserted_old w p d : domains db !! p = Some d ->
  domains (inserted w) !! p = Some (if decide (p = e) then set_wildcard w de else d).
Proof using Hdb He.
  intros Hd. cbn. destruct (decide (p = e)) as [->|]; [by rewrite lookup_insert_eq|].
  rewrite lookup_insert_ne by done. rewrite lookup_insert_ne; [done|].
  intros <-. by rewrite new_pointer_fresh in Hd.
Qed.

(** A domain that exists was there before. *)
Lemma inserted_existing w i p d : names (inserted w) !! i = Some p -> domains (inserted w) !! p = Some d ->
  is_existing d = true -> exists d0, names db !! i = Some p /\ domains db !! p = Some d0 /\ is_existing d0 = true.
Proof using Hdb Hok He Hde Hnew.
  rewrite inserted_names. intros [[<- <-]|[_ Hp]]%lookup_insert_Some Hd Hex.
  - rewrite inserted_new in Hd. by injection Hd as <-.
  - destruct (db_domain db Hdb _ _ Hp) as (d0 & Hd0 & _). exists d0. split_and!; [done..|].
    rewrite (inserted_old w p d0 Hd0) in Hd. case_decide as E; [subst p|congruence].
    assert (d0 = de) as -> by congruence. by injection Hd as <-.
Qed.

Lemma wildcard_other w ls v : wildcard_right db ls v -> wildcard_right (inserted w) ls v.
Proof using Hdb Hok He Hde Hnew.
  intros (lw & Hlw & Hshape & Hmax). exists lw. split_and!; [|done|].
  - rewrite inserted_names, lookup_insert_ne; [done|]. intros <-. congruence.
  - intros c p' d' Hp Hd Hex. destruct (inserted_existing w _ _ _ Hp Hd Hex) as (d0 & Hp0 & Hd0 & Hex0).
    by apply (Hmax c p' d0).
Qed.

Lemma inserted_domain_ok w : wildcard_right (inserted w) k w ->
  forall ls p, names (inserted w) !! ls = Some p ->
    exists d, domains (inserted w) !! p = Some d /\ domain_ok (inserted w) ls p d.
Proof using Hdb Hok He Hde Hnew.
  intros Hw ls p. rewrite inserted_names in *. intros H.
  apply lookup_insert_Some in H as [[<- <-]|[Hne H]].
  - exists new_domain. split; [apply inserted_new|]. split; try done.
    + exists e. split; [done|]. rewrite inserted_names, lookup_insert_ne; [done|].
      intros Ek. apply (f_equal length) in Ek. simpl in Ek. lia.
    + exists (l :: k). rewrite inserted_names. split_and!; [by rewrite lookup_insert_eq|by left|].
      intros c p' d' Hp Hd Hex. rewrite <-(inserted_names w) in Hp.
      destruct (inserted_existing w _ _ _ Hp Hd Hex) as (_ & Hc & _).
      destruct (names_suffix _ _ (l :: k) Hc) as [q Hq]; [by exists [c]|congruence].
  - destruct (db_domain db Hdb _ _ H) as (d & Hd & Hdok).
    rewrite (inserted_old w p d Hd). eexists. split; [done|].
    pose proof Hdok as [Hname Hdn Htree Hpar _].
    assert (Hpar' : match ls with
                    | [] => parent d = None
                    | _ :: up => exists q, parent d = Some q /\ names (inserted w) !! up = Some q
                    end).
    { destruct ls as [|c up]; [done|]. destruct Hpar as (q & Hq & Hup). exists q. split; [done|].
      rewrite inserted_names. rewrite lookup_insert_ne; [done|]. intros <-. congruence. }
    destruct (decide (p = e)) as [->|Hpe].
    + assert (d = de) as -> by congruence. assert (ls = k) as -> by (by eapply (db_injective db)).
      by split.
    + split; try done. apply wildcard_other, (domain_wildcard _ _ _ _ Hdok).
Qed.

Lemma inserted_ok w : wildcard_right (inserted w) k w -> db_ok (inserted w).
Proof using Hdb Hok He Hde Hnew Hlast Hdl.
  intros Hw. pose proof Hdb as [Hroot _ Hinj Hnl Hnd Hnum].
  split; rewrite ?inserted_names.
  - rewrite lookup_insert_ne by done. apply Hroot.
  - rewrite <-(inserted_names w). by apply inserted_domain_ok.
  - intros ls ls' p. rewrite !lookup_insert_Some.
    intros [[<- <-]|[_ H1]] [[<- E]|[_ H2]]; [done|..].
    + by destruct (new_pointer_unused _ _ H2).
    + subst p. by destruct (new_pointer_unused _ _ H1).
    + by eapply Hinj.
  - intros p. cbn. rewrite elem_of_app, list_elem_of_singleton, Hnl. split.
    + intros [[ls Hls]| ->]; [|exists (l :: k); by rewrite lookup_insert_eq].
      exists ls. rewrite lookup_insert_ne; [done|]. intros <-. congruence.
    + intros [ls [[_ <-]|[_ H]]%lookup_insert_Some]; [by right|left; by exists ls].
  - cbn. apply NoDup_app. split_and!; [done| |apply NoDup_singleton].
    intros x Hx Hx'. apply list_elem_of_singleton in Hx'. apply Hnl in Hx as [ls Hls].
    by apply (new_pointer_unused _ _ Hls).
  - intros i p d Hi. cbn [numlist inserted put_domain set_domains added set_nametree set_numlist] in Hi.
    apply lookup_app_Some in Hi as [Hi|[Hlen Hi]].
    + assert (Hp : exists ls, names db !! ls = Some p) by (apply Hnl; by eapply list_elem_of_lookup_2).
      destruct Hp as [ls Hls]. destruct (db_domain db Hdb _ _ Hls) as (d0 & Hd0 & _).
      rewrite (inserted_old w p d0 Hd0). intros [= <-].
      case_decide as E; [subst p; exact (Hnum i e de Hi Hde)|by apply (Hnum i p)].
    + apply list_lookup_singleton_Some in Hi as [Hi <-]. rewrite inserted_new. intros [= <-].
      cbn. rewrite last_lookup in Hlast. rewrite (Hnum _ _ _ Hlast Hdl).
      assert (length (numlist db) <> 0%nat).
      { intros E. apply lookup_lt_Some in Hlast. lia. }
      lia.
Qed.

Lemma inserted_grown w : grown db (inserted w).
Proof using Hdb Hok He Hde Hnew.
  split; [|intros q d Hd|done].
  - intros j q Hj. rewrite inserted_names, lookup_insert_ne; [done|]. intros <-. congruence.
  - rewrite (inserted_old w q d Hd). eexists. split; [done|].
    case_decide as E; [|apply kept_refl]. subst q. assert (d = de) as -> by congruence. done.
Qed.
End insert_one.
End proofs.

Section table.
Context `{T : NameTree} {L : NameTreeLaws T}.

Abbreviation names db := (contents (nametree db)).

Lemma wp_get_domain db p d (Q : domain -> namedb -> Prop) :
  domains db !! p = Some d -> Q d db -> wp (get_domain p) Q db.
Proof using.
  intros Hd HQ. unfold get_domain. wp_step. wp_step.
  apply (wp_lift _ d); [|done]. unfold domain_at. by rewrite Hd.
Qed.

Lemma label_compare_wildcard l k : label_ok l ->
  label_compare (wire (l :: k)) wildcard_label = Ok (label_cmp l [42]).
Proof using. intros. apply (label_compare_spec l [42] (wire k) []); [done|by apply (bool_decide_unpack _)]. Qed.

(** The test for the domain before the wildcard, after [l :: k] was added. *)
Lemma wp_update_wildcard db l k e de dl lastp (Q : unit -> namedb -> Prop) :
  db_ok db -> name_ok (l :: k) -> names db !! k = Some e -> domains db !! e = Some de ->
  names db !! (l :: k) = None -> last (numlist db) = Some lastp -> domains db !! lastp = Some dl ->
  (forall w, wildcard_right (inserted db l k e de dl w) k w ->
     Q tt (inserted db l k e de dl w)) ->
  wp (update_wildcard e (new_pointer db)) Q (added db l k e dl).
Proof using L.
  intros Hdb Hok He Hde Hnew Hlast Hdl HQ.
  assert (Hlab : label_ok l) by (destruct Hok as [Hf _]; by apply Forall_cons in Hf as [? _]).
  destruct (db_domain db Hdb _ _ He) as (de' & Hde' & [_ _ _ _ Hwild]).
  rewrite Hde in Hde'. injection Hde' as <-. destruct Hwild as (lw & Hlw & Hshape & Hmax).
  destruct (db_domain db Hdb _ _ Hlw) as (dw & Hdw & [Hlwok Hdwn _ _ _]).
  assert (Hne : e <> new_pointer db) by (by eapply new_pointer_unused).
  assert (Hwne : wildcard_child_closest_match de <> new_pointer db) by (by eapply new_pointer_unused).
  assert (Hlk : lw <> l :: k) by congruence.
  assert (Hsame : added db l k e dl = inserted db l k e de dl (wildcard_child_closest_match de)).
  { unfold inserted, added, put_domain, set_domains, set_nametree, set_numlist. cbn. f_equal.
    symmetry. apply insert_id. rewrite lookup_insert_ne, Hde by done. by destruct de. }
  assert (Hstay : wildcard_right (inserted db l k e de dl (wildcard_child_closest_match de)) k
    (wildcard_child_closest_match de)).
  { apply (wildcard_other db Hdb); try done. by exists lw. }
  unfold update_wildcard. wp_step.
  eapply wp_get_domain; [cbn; by rewrite lookup_insert_eq|]. cbn [domain_dname new_domain of_labels dname_name].
  wp_step. apply (wp_lift _ (label_cmp l [42])); [by apply label_compare_wildcard|].
  wp_step; bool_simpl.
  2:{ wp_step. rewrite Hsame. by apply HQ. }
  wp_step. eapply wp_get_domain; [cbn; by rewrite lookup_insert_ne|].
  wp_step. eapply wp_get_domain; [cbn; by rewrite lookup_insert_ne|].
  wp_step. apply (wp_lift _ (name_cmp (l :: k) lw)); [rewrite Hdwn; by apply dname_compare_spec|].
  wp_step; bool_simpl; wp_step.
  2:{ rewrite Hsame. by apply HQ. }
  apply (HQ (new_pointer db)). exists (l :: k). split_and!.
  - rewrite inserted_names by done. by rewrite lookup_insert_eq.
  - right. by exists l.
  - intros c p' d' Hp Hd Hex Hb.
    destruct (inserted_existing db Hdb l k e de dl Hok He Hde Hnew _ _ _ _ Hp Hd Hex) as (d0 & Hc & Hd0 & Hex0).
    pose proof (Hmax _ _ _ Hc Hd0 Hex0 Hb). destruct (decide (name_cmp (c :: k) lw = 0)) as [E|E].
    + apply (cmp_eq (cmp:=name_cmp)) in E as ->. pose proof (name_cmp_flip lw (l :: k)). lia.
    + pose proof (cmp_trans (cmp:=name_cmp) (c :: k) lw (l :: k)).
      pose proof (name_cmp_flip lw (l :: k)). lia.
Qed.

Lemma dname_copy_of_label j l k : name_ok (j ++ l :: k) ->
  dname_partial_copy (of_labels (j ++ l :: k)) (zlength k + 2) = Ok (Some (of_labels (l :: k))).
Proof using.
  intros Hok. pose proof (zlength_nonneg k). pose proof (zlength_nonneg j).
  rewrite dname_partial_copy_spec; [|done|rewrite zlength_app, zlength_cons; lia].
  do 3 f_equal. replace (_ - _)%nat with (length j); [apply drop_app_length|].
  rewrite length_app. unfold zlength. simpl. lia.
Qed.

Lemma last_domain db : db_ok db ->
  exists p d, last (numlist db) = Some p /\ domains db !! p = Some d.
Proof using.
  intros [[r Hr] Hdom _ Hnl _ _]. assert (Hin : r ∈ numlist db) by (apply Hnl; by exists []).
  destruct (last (numlist db)) as [p|] eqn:E.
  - apply last_Some in E as [l' E].
    assert (Hp : p ∈ numlist db) by (rewrite E; apply elem_of_app; right; by apply list_elem_of_singleton).
    apply Hnl in Hp as [ls Hls]. destruct (Hdom _ _ Hls) as (d & Hd & _). by exists p, d.
  - apply last_None in E. rewrite E in Hin. by apply elem_of_nil in Hin.
Qed.

Lemma wp_allocate db j l k e de (Q : Z -> namedb -> Prop) :
  db_ok db -> name_ok (j ++ l :: k) -> names db !! k = Some e -> domains db !! e = Some de ->
  (forall p d, last (numlist db) = Some p -> domains db !! p = Some d ->
     Q (new_pointer db) (set_numlist (numlist db ++ [new_pointer db])
       (put_domain (new_pointer db) (new_domain db l k e d) db))) ->
  wp (allocate_domain_info (of_labels (j ++ l :: k)) e) Q db.
Proof using.
  intros Hdb Hok He Hde HQ.
  destruct (db_domain db Hdb _ _ He) as (de' & Hde' & Hdok). rewrite Hde in Hde'. injection Hde' as <-.
  destruct (last_domain db Hdb) as (p & d & Hp & Hd).
  unfold allocate_domain_info. do 3 wp_step.
  apply (wp_lift _ de); [unfold domain_at; by rewrite Hde|]. wp_step.
  apply (wp_lift _ (Some (of_labels (l :: k)))).
  { rewrite (domain_label_count db _ _ _ Hdok).
    replace (zlength k + 1 + 1) with (zlength k + 2) by lia. by apply dname_copy_of_label. }
  wp_step. apply (wp_lift _ (of_labels (l :: k))); [done|]. wp_step.
  apply (wp_lift _ p); [by rewrite Hp|]. wp_step.
  apply (wp_lift _ d); [unfold domain_at; by rewrite Hd|]. do 3 wp_step. by apply (HQ p d).
Qed.

(** The new domains do not exist yet and hold nothing. *)
Definition new_empty (db db' : namedb) : Prop := forall k p d,
  names db !! k = None -> names db' !! k = Some p -> domains db' !! p = Some d ->
  is_existing d = false /\ is_apex d = false /\ domain_rrsets d = [] /\ usage d = 0.

Lemma new_empty_inserted db db1 l k e de dl w :
  db_ok db1 -> name_ok (l :: k) -> names db1 !! k = Some e -> domains db1 !! e = Some de ->
  names db1 !! (l :: k) = None -> new_empty db db1 -> new_empty db (inserted db1 l k e de dl w).
Proof using.
  intros Hdb Hok He Hde Hnew Hempty i p d Hi. rewrite inserted_names by done.
  intros [[_ <-]|[_ Hp]]%lookup_insert_Some Hd.
  - rewrite (inserted_new db1 Hdb l k e de dl He) in Hd. by injection Hd as <-.
  - destruct (db_domain db1 Hdb _ _ Hp) as (d0 & Hd0 & _).
    rewrite (inserted_old db1 Hdb l k e de dl He w p d0 Hd0) in Hd. injection Hd as <-.
    case_decide as E; [subst p|by eapply Hempty].
    assert (d0 = de) as -> by congruence. exact (Hempty i e de Hi Hp Hde).
Qed.

(** The names of [db'] are those of [db] and the suffixes of [ls]. *)
Record filled (db db' : namedb) (ls : name) : Prop := {
  filled_ok : db_ok db';
  filled_grown : grown db db';
  filled_names k : is_Some (names db' !! k) <-> is_Some (names db !! k) \/ k `suffix_of` ls;
  filled_new : new_empty db db';
}.


Lemma wp_insert_loop db ls fuel : forall db1 j l k e,
  ls = j ++ l :: k -> name_ok ls -> db_ok db1 -> grown db db1 ->
  names db1 !! k = Some e -> names db1 !! (l :: k) = None ->
  (forall i, is_Some (names db1 !! i) <-> is_Some (names db !! i) \/ i `suffix_of` k) ->
  new_empty db db1 -> (length j < fuel)%nat ->
  wp (st_iter fuel (fun closest_encloser =>
        result ← allocate_domain_info (of_labels ls) closest_encloser;
        d ← get_domain result;
        st_modify (fun db => set_nametree (tree_insert (nametree db) (domain_dname d) result) db);;
        update_wildcard closest_encloser result;;
        if label_count (domain_dname d) <? label_count (of_labels ls) then mret (inl result)
        else mret (inr result)) e)
     (fun p db' => filled db db' ls /\ names db' !! ls = Some p) db1.
Proof using L.
  induction fuel as [|fuel IH]; intros db1 j l k e Hls Hok Hdb1 Hg He Hnew Hfill Hempty Hlen; [lia|].
  destruct (db_domain db1 Hdb1 _ _ He) as (de & Hde & _).
  assert (Hlk : name_ok (l :: k)) by (rewrite Hls in Hok; by apply name_ok_suffix in Hok).
  cbn [st_iter]. wp_step. wp_step. rewrite Hls.
  eapply wp_allocate; [done|by rewrite <-Hls|done..|]. intros lastp dl Hlast Hdl.
  wp_step. eapply wp_get_domain; [cbn; by rewrite lookup_insert_eq|]. do 3 wp_step.
  eapply wp_mono; [by eapply wp_update_wildcard with (l:=l) (k:=k)
    (Q:=fun _ db' => exists w, db' = inserted db1 l k e de dl w /\
       wildcard_right db' k w); eauto|].
  intros [] ? (w & -> & Hw).
  pose proof (inserted_ok db1 Hdb1 l k e de lastp dl Hlk He Hde Hnew Hlast Hdl w Hw) as Hok2.
  pose proof (inserted_grown db1 Hdb1 l k e de dl Hlk He Hde Hnew w) as Hg2.
  pose proof (new_empty_inserted db db1 l k e de dl w Hdb1 Hlk He Hde Hnew Hempty) as Hempty2.
  assert (Hfill2 : forall i, is_Some (names (inserted db1 l k e de dl w) !! i) <->
    is_Some (names db !! i) \/ i `suffix_of` l :: k).
  { intros i. rewrite inserted_names by done.
    rewrite lookup_insert_is_Some, Hfill. split.
    - intros [<-|[_ [|]]]; [by right|by left|right; by apply suffix_cons_r].
    - intros [Hi|Hi].
      + destruct (decide (l :: k = i)); [by left|right]. split; [done|by left].
      + destruct Hi as [[|x r] Hr]; [by left|]. simpl in Hr. injection Hr as -> ->.
        right. split; [|right; by exists r]. intros E. apply (f_equal length) in E.
        simpl in E. rewrite length_app in E. lia. }
  cbn [domain_dname new_domain label_count of_labels]. wp_step; bool_simpl; wp_step.
  - destruct j as [|x j' _] using rev_ind.
    { simpl in *. rewrite zlength_cons in *. lia. }
    rewrite <-app_assoc in Hls. cbn [app] in Hls. rewrite <-app_assoc. cbn [app]. rewrite <-Hls.
    apply (IH _ j' x (l :: k)); try done.
    + by eapply grown_trans.
    + rewrite inserted_names by done. by rewrite lookup_insert_eq.
    + rewrite inserted_names by done. apply eq_None_not_Some.
      rewrite lookup_insert_is_Some. intros [E|[_ Hs]].
      { apply (f_equal length) in E. simpl in E. lia. }
      destruct Hs as [q Hq].
      destruct (names_suffix db1 Hdb1 _ _ (l :: k) Hq) as [q' Hq']; [by exists [x]|congruence].
    + rewrite length_app in Hlen. simpl in Hlen. lia.
  - rewrite zlength_app in *. pose proof (zlength_nonneg j).
    assert (j = []) as -> by (apply nil_length_inv; unfold zlength in *; lia). cbn [app] in *.
    split; [split; [done|by eapply grown_trans|done|done]|].
    rewrite inserted_names by done. by rewrite lookup_insert_eq.
Qed.

Lemma wp_domain_table_insert db ls : db_ok db -> name_ok ls ->
  wp (domain_table_insert (of_labels ls))
     (fun p db' => filled db db' ls /\ names db' !! ls = Some p) db.
Proof using L.
  intros Hdb Hok.
  destruct (domain_table_search_spec db Hdb ls Hok)
    as (exact & m & lm & e & k & Hs & Hm & He & (Hsuf & Hin & Hlong) & Hex & _).
  unfold domain_table_insert. wp_step. wp_step. wp_step.
  apply (wp_lift _ (exact, m, e)); [done|].
  assert (Hfill : forall i, is_Some (names db !! i) <-> is_Some (names db !! i) \/ i `suffix_of` k).
  { intros i. split; [by left|]. intros [|Hi]; [done|].
    destruct (names_suffix db Hdb _ _ i He Hi) as [q ->]. by eexists. }
  wp_step; subst.
  - wp_step. assert (k = ls) as ->.
    { destruct Hsuf as [[|x r] ->]; [done|]. destruct (Hlong ((x :: r) ++ k)) as [y Hy]; [done|rewrite <-Hex; by eexists|].
      apply (f_equal length) in Hy. rewrite !length_app in Hy. simpl in Hy. lia. }
    split; [|done]. split; [done|apply grown_refl|done|]. intros i q d Hi Hq. congruence.
  - destruct (db_domain db Hdb _ _ He) as (de & Hde & Hdok).
    wp_step. eapply wp_get_domain; [done|]. wp_step.
    destruct Hsuf as [r ->]. destruct r as [|l j _] using rev_ind.
    { simpl in *. congruence. }
    rewrite <-app_assoc in *. cbn [app] in *. pose proof (zlength_nonneg j).
    apply wp_assert.
    { rewrite (domain_label_count _ _ _ _ Hdok). cbn [label_count of_labels].
      rewrite zlength_app, zlength_cons. apply Z.ltb_lt. lia. }
    apply (wp_insert_loop db (j ++ l :: k) parent_fuel db j l k); try done.
    + apply grown_refl.
    + apply eq_None_not_Some. intros Hlk.
      destruct (Hlong (l :: k)) as [y Hy]; [by exists j|done|].
      apply (f_equal length) in Hy. rewrite length_app in Hy. simpl in Hy. lia.
    + intros i q d Hi Hq. congruence.
    + pose proof (name_ok_fuel _ Hok) as Hf. rewrite length_app in Hf. simpl in Hf. lia.
Qed.

(** * The wildcard child *)

Lemma name_cmp_cons a b k : name_cmp (a :: k) (b :: k) = label_cmp a b.
Proof using.
  unfold name_cmp. rewrite !reverse_cons. generalize (reverse k) as r. intros r.
  induction r as [|x r IH]; simpl.
  - unfold label_cmp. by destruct (Z.eqb_spec (lex Z.sub a b) 0).
  - by rewrite (proj2 (cmp_eq (cmp:=label_cmp) x x) eq_refl).
Qed.

Lemma label_is_wildcard_wire c k : label_ok c ->
  label_is_wildcard (wire (c :: k)) = bool_decide (c = [42]).
Proof using.
  intros [Hc _]. unfold label_is_wildcard. cbn [wire].
  destruct c as [|x c]; [unfold zlength in Hc; simpl in Hc; lia|].
  cbn [app]. rewrite zget_0, zget_cons, zget_0 by lia. apply eq_true_iff_eq.
  rewrite bool_decide_eq_true, andb_true_iff, !Z.eqb_eq, zlength_cons. split.
  - intros [H ->]. destruct c; [done|]. rewrite zlength_cons in H. pose proof (zlength_nonneg c). lia.
  - intros [= -> ->]. done.
Qed.

Lemma domain_wildcard_child_spec db k p : db_ok db -> names db !! k = Some p ->
  exists r, domain_wildcard_child db p = Ok r /\
    (forall q, r = Some q -> names db !! ([42] :: k) = Some q) /\
    (forall q d, names db !! ([42] :: k) = Some q -> domains db !! q = Some d -> is_existing d = true -> r = Some q).
Proof using.
  intros Hdb Hp. destruct (domain_lookup db Hdb _ _ Hp) as (d & Hd & Hdok).
  destruct (domain_wildcard _ _ _ _ Hdok) as (lw & Hlw & Hshape & Hmax).
  destruct (domain_lookup db Hdb _ _ Hlw) as (dw & Hdw & [Hlwok Hdwn _ _ _]).
  unfold domain_wildcard_child. rewrite Hd. cbn [mbind res_bind]. rewrite Hdw.
  cbn [mbind res_bind mret res_ret]. rewrite Hdwn. cbn [dname_name of_labels].
  eexists. split; [done|]. destruct Hshape as [->|(c & -> & Hc)].
  - assert (wildcard_child_closest_match d = p) as -> by congruence.
    rewrite Z.eqb_refl. cbn. split; [done|]. intros q e Hq He Hex.
    assert (H0 : name_cmp ([42] :: k) k <= 0) by (by eapply Hmax).
    pose proof (suffix_le k ([42] :: k) (ex_intro _ [[42]] eq_refl)).
    pose proof (name_cmp_flip k ([42] :: k)).
    assert (name_cmp k ([42] :: k) = 0) as E by lia.
    apply (cmp_eq (cmp:=name_cmp)) in E. apply (f_equal length) in E. simpl in E. lia.
  - assert (Hne : wildcard_child_closest_match d <> p).
    { intros E. rewrite E in Hlw. pose proof (db_injective db Hdb _ _ _ Hlw Hp) as E'.
      apply (f_equal length) in E'. simpl in E'. lia. }
    rewrite (proj2 (Z.eqb_neq _ _) Hne). cbn [negb andb].
    assert (label_ok c) by (destruct Hlwok as [Hf _]; by apply Forall_cons in Hf as [? _]).
    rewrite label_is_wildcard_wire by done. case_bool_decide as E.
    { subst c. split; [intros q; congruence|intros q e; congruence]. }
    split; [done|]. intros q e Hq He Hex. exfalso.
    assert (H0 : name_cmp ([42] :: k) (c :: k) <= 0) by (by eapply Hmax).
    rewrite name_cmp_cons in H0. unfold before_wildcard in Hc.
    pose proof (cmp_swap (cmp:=label_cmp) c [42]).
    assert (label_cmp c [42] = 0) as E' by lia. by apply (cmp_eq (cmp:=label_cmp)) in E'.
Qed.

(** * Existing domains *)

(** What the table's invariant says of a domain does not depend on its record
    sets, and a domain may cease to exist. *)
Definition same_core (d d' : domain) : Prop :=
  in_tree d' = in_tree d /\ domain_dname d' = domain_dname d /\ parent d' = parent d /\
  wildcard_child_closest_match d' = wildcard_child_closest_match d /\ number d' = number d /\
  (is_existing d' = true -> is_existing d = true).

Lemma db_ok_core db m : db_ok db ->
  (forall p d, domains db !! p = Some d -> exists d', m !! p = Some d' /\ same_core d d') ->
  (forall p d', m !! p = Some d' -> exists d, domains db !! p = Some d) ->
  db_ok (set_domains m db).
Proof using.
  intros [Hroot Hdom Hinj Hnl Hnd Hnum] Hm Hm'. split; try done.
  - intros ls p Hp. destruct (Hdom _ _ Hp) as (d & Hd & [H1 H2 H3 H4 (lw & Hlw & Hshape & Hmax)]).
    destruct (Hm _ _ Hd) as (d' & Hd' & E1 & E2 & E3 & E4 & E5 & _). exists d'. split; [done|].
    split; rewrite ?E1, ?E2, ?E3, ?E4; try done. exists lw. split_and!; [done..|].
    intros c q e' Hq He' Hex. destruct (Hm' _ _ He') as [e He].
    destruct (Hm _ _ He) as (e1 & He1 & _ & _ & _ & _ & _ & E6). assert (e1 = e') as -> by (cbn in He'; congruence).
    by eapply Hmax; [| |apply E6].
  - intros i p d' Hi Hd'. cbn in Hd'. destruct (Hm' _ _ Hd') as [d Hd].
    destruct (Hm _ _ Hd) as (d1 & Hd1 & _ & _ & _ & _ & E5 & _).
    assert (d1 = d') as -> by congruence. rewrite E5. by eapply Hnum.
Qed.

Lemma db_ok_put db p d d' : db_ok db -> domains db !! p = Some d -> same_core d d' ->
  db_ok (put_domain p d' db).
Proof using.
  intros Hdb Hd Hsame. apply db_ok_core; [done|..].
  - intros q e He. destruct (decide (q = p)) as [->|].
    + exists d'. rewrite lookup_insert_eq. split; [done|]. congruence.
    + exists e. rewrite lookup_insert_ne by done. by repeat split.
  - intros q e [[-> _]|[_ He]]%lookup_insert_Some; by eexists.
Qed.

Section existing.
Context (db : namedb) (l : list Z) (k : name) (p q : Z) (d e : domain).
Context (Hdb : db_ok db) (Hp : names db !! (l :: k) = Some p) (Hq : names db !! k = Some q).
Context (Hd : domains db !! p = Some d) (He : domains db !! q = Some e).

(** [p] exists, and the pointer of its parent is [v]. *)
Abbreviation repointed v := (put_domain q (set_wildcard v e) (put_domain p (set_existing d) db)).

Lemma child_ne_parent : p <> q.
Proof using Hdb Hp Hq.
  intros E. pose proof Hp as Hp'. rewrite E in Hp'. pose proof (db_injective db Hdb _ _ _ Hp' Hq) as Ek.
  apply (f_equal length) in Ek. simpl in Ek. lia.
Qed.

Lemma repointed_lookup v r f : domains db !! r = Some f -> domains (repointed v) !! r =
  Some (if r =? q then set_wildcard v e else if r =? p then set_existing d else f).
Proof using.
  intros Hf. cbn. destruct (Z.eqb_spec r q) as [->|Hrq]; [by rewrite lookup_insert_eq|].
  rewrite lookup_insert_ne by done. destruct (Z.eqb_spec r p) as [->|Hrp]; [by rewrite lookup_insert_eq|].
  by rewrite lookup_insert_ne.
Qed.

Lemma repointed_existing v r i f : names db !! i = Some r -> domains (repointed v) !! r = Some f ->
  is_existing f = true -> r <> p -> exists g, domains db !! r = Some g /\ is_existing g = true.
Proof using Hdb He.
  intros Hi Hf Hx Hrp. destruct (db_domain db Hdb _ _ Hi) as (g & Hg & _).
  rewrite (repointed_lookup _ _ _ Hg) in Hf. exists g. split; [done|]. injection Hf as <-.
  rewrite (proj2 (Z.eqb_neq r p)) in Hx by done. destruct (Z.eqb_spec r q) as [->|]; [|done].
  assert (g = e) as -> by congruence. done.
Qed.

(** The pointer may be to the old place or further on. *)
Lemma repointed_parent v lw lv : names db !! lv = Some v ->
  (lv = k \/ exists c, lv = c :: k /\ before_wildcard c) ->
  (forall c r f, names db !! (c :: k) = Some r -> domains db !! r = Some f -> is_existing f = true ->
     before_wildcard c -> name_cmp (c :: k) lw <= 0) ->
  name_cmp lw lv <= 0 -> (before_wildcard l -> name_cmp (l :: k) lv <= 0) -> wildcard_right (repointed v) k v.
Proof using Hdb Hp He.
  intros Hv Hsh Hmax Hle Hl. exists lv. split_and!; [done..|]. intros c r f Hc Hf Hx Hb.
  destruct (decide (r = p)) as [->|Hrp].
  { pose proof (db_injective db Hdb _ _ _ Hc Hp) as E. injection E as ->. by apply Hl. }
  destruct (repointed_existing _ _ _ _ Hc Hf Hx Hrp) as (g & Hg & Hx'). pose proof (Hmax _ _ _ Hc Hg Hx' Hb).
  destruct (Z.eq_dec (name_cmp lw lv) 0) as [E0|]; [apply (cmp_eq (cmp:=name_cmp)) in E0; by subst lv|].
  destruct (Z.eq_dec (name_cmp (c :: k) lw) 0) as [E0|]; [apply (cmp_eq (cmp:=name_cmp)) in E0; by rewrite E0|].
  pose proof (cmp_trans (cmp:=name_cmp) (c :: k) lw lv). lia.
Qed.

Lemma repointed_other v ls r f g : names db !! ls = Some r -> r <> q -> domain_ok db ls r f ->
  in_tree g = in_tree f /\ domain_dname g = domain_dname f /\ parent g = parent f /\
    wildcard_child_closest_match g = wildcard_child_closest_match f -> domain_ok (repointed v) ls r g.
Proof using Hdb Hp Hq He.
  intros Hr Hrq [H1 H2 H3 H4 (lf & Hlf & Hsh & Hmax)] (G1 & G2 & G3 & G4).
  split; rewrite ?G1, ?G2, ?G3, ?G4; try done. exists lf. split_and!; [done..|].
  intros c u f' Hc Hf' Hx Hb. destruct (decide (u = p)) as [->|Hup].
  - pose proof (db_injective db Hdb _ _ _ Hc Hp) as E. injection E as -> ->. congruence.
  - destruct (repointed_existing _ _ _ _ Hc Hf' Hx Hup) as (f0 & Hf0 & Hx'). by eapply Hmax.
Qed.

Lemma repointed_ok v : wildcard_right (repointed v) k v -> db_ok (repointed v).
Proof using Hdb Hp Hq Hd He.
  intros Hv. pose proof Hdb as [Hroot Hdom Hinj Hnl Hnd Hnum]. split; try done.
  - intros ls r Hr. destruct (Hdom _ _ Hr) as (f & Hf & Hok). rewrite (repointed_lookup _ _ _ Hf).
    eexists. split; [done|]. destruct (Z.eqb_spec r q) as [->|Hrq].
    + assert (ls = k) as -> by (by eapply Hinj). assert (f = e) as -> by congruence. by destruct Hok.
    + apply (repointed_other v ls r f); [done..|]. destruct (Z.eqb_spec r p) as [->|]; [|done].
      by assert (f = d) as -> by congruence.
  - intros i r f' Hi Hf'. destruct (proj1 (Hnl r)) as [ls Hr]; [by eapply list_elem_of_lookup_2|].
    destruct (Hdom _ _ Hr) as (f & Hf & _). rewrite (repointed_lookup _ _ _ Hf) in Hf'. injection Hf' as <-.
    destruct (Z.eqb_spec r q) as [->|]; [by apply (Hnum i q e)|].
    destruct (Z.eqb_spec r p) as [->|]; [by apply (Hnum i p d)|by apply (Hnum i r f)].
Qed.

(** The pointer of the parent is right again after a domain has come to
    exist. *)
Lemma wp_update_wildcard_existing (Q : unit -> namedb -> Prop) :
  (forall w, db_ok (repointed w) -> Q tt (repointed w)) ->
  wp (update_wildcard q p) Q (put_domain p (set_existing d) db).
Proof using Hdb Hp Hq Hd He.
  intros HQ. pose proof child_ne_parent as Hpq.
  destruct (db_domain db Hdb _ _ Hp) as (d0 & Hd0 & [Hok Hdn _ _ _]). assert (d0 = d) as -> by congruence.
  destruct (db_domain db Hdb _ _ Hq) as (e0 & He0 & [_ _ _ _ (lw & Hlw & Hshape & Hmax)]).
  assert (e0 = e) as -> by congruence.
  destruct (db_domain db Hdb _ _ Hlw) as (w & Hw & [Hlwok Hwn _ _ _]).
  assert (Hlab : label_ok l) by (destruct Hok as [Hf _]; by apply Forall_cons in Hf as [? _]).
  assert (Hsame : put_domain p (set_existing d) db = repointed (wildcard_child_closest_match e)).
  { unfold put_domain, set_domains. cbn. f_equal. symmetry. apply insert_id.
    rewrite lookup_insert_ne, He by done. by destruct e. }
  assert (Hstay : (before_wildcard l -> name_cmp (l :: k) lw <= 0) -> Q tt (put_domain p (set_existing d) db)).
  { intros Hl. rewrite Hsame. apply HQ, repointed_ok, (repointed_parent _ lw lw); try done. by rewrite name_cmp_refl. }
  unfold update_wildcard. wp_step. eapply wp_get_domain; [cbn; by rewrite lookup_insert_eq|]. wp_step.
  apply (wp_lift _ (label_cmp l [42])); [cbn; rewrite Hdn; by apply label_compare_wildcard|].
  wp_step; bool_simpl; [|wp_step; apply Hstay; unfold before_wildcard; lia].
  wp_step. eapply wp_get_domain; [cbn; by rewrite lookup_insert_ne|]. wp_step.
  assert (Hw1 : exists w1, domains (put_domain p (set_existing d) db) !! wildcard_child_closest_match e = Some w1 /\
    domain_dname w1 = of_labels lw).
  { cbn. destruct (decide (p = wildcard_child_closest_match e)) as [E|].
    - rewrite <-E in *. rewrite lookup_insert_eq. eexists. split; [done|]. cbn. by assert (w = d) as -> by congruence.
    - rewrite lookup_insert_ne by done. by exists w. }
  destruct Hw1 as (w1 & Hw1 & Hwn1). eapply wp_get_domain; [exact Hw1|]. wp_step.
  apply (wp_lift _ (name_cmp (l :: k) lw)); [cbn; rewrite Hdn, Hwn1; by apply dname_compare_spec|].
  wp_step; bool_simpl; wp_step; [|apply Hstay; lia].
  apply HQ, repointed_ok, (repointed_parent p lw (l :: k)); try done; [right; by exists l| |by rewrite name_cmp_refl].
  pose proof (name_cmp_flip lw (l :: k)). lia.
Qed.
End existing.

(** An existing domain has existing ancestors, [k] and above. *)
Definition closed_from (db : namedb) (k : name) : Prop := forall l j p q d e,
  l :: j `suffix_of` k -> names db !! (l :: j) = Some p -> names db !! j = Some q ->
  domains db !! p = Some d -> domains db !! q = Some e ->
  is_existing d = true -> is_existing e = true.
Definition existing_closed (db : namedb) : Prop := forall k, closed_from db k.

Lemma set_existing_idem d : is_existing d = true -> set_existing d = d.
Proof using. destruct d. cbn. by intros ->. Qed.

Lemma existing_above db k p d : db_ok db -> closed_from db k ->
  names db !! k = Some p -> domains db !! p = Some d -> is_existing d = true ->
  forall j q e, j `suffix_of` k -> names db !! j = Some q -> domains db !! q = Some e ->
  is_existing e = true.
Proof using.
  intros Hdb Hc Hp Hd Hex j q e [r ->]. revert Hc p d Hp Hd Hex.
  induction r as [|l r IH]; intros Hc p d Hp Hd Hex Hq He; [cbn [app] in Hp; congruence|].
  destruct (db_domain db Hdb _ _ Hp) as (d0 & Hd0 & [_ _ _ (u & Hu & Hup) _]).
  destruct (db_domain db Hdb _ _ Hup) as (du & Hdu & _).
  apply (IH (fun l' j' p' q' d' e' Hs => Hc l' j' p' q' d' e' (suffix_cons_r _ _ _ Hs)) u du Hup Hdu);
    [|done..]. by apply (Hc l (r ++ j) p u d du).
Qed.

(** [db'] is [db] with the suffixes of [k] marked as existing, and with other
    domains before wildcards. *)
Definition marked (db db' : namedb) (k : name) : Prop :=
  db' = set_domains (domains db') db /\ db_ok db' /\
  forall j q d, names db !! j = Some q -> domains db !! q = Some d ->
    exists w, domains db' !! q = Some (set_wildcard w (if bool_decide (j `suffix_of` k) then set_existing d else d)).

Lemma set_wildcard_id d : set_wildcard (wildcard_child_closest_match d) d = d.
Proof using. by destruct d. Qed.

Lemma marked_already db k p d : db_ok db -> closed_from db k ->
  names db !! k = Some p -> domains db !! p = Some d -> is_existing d = true -> marked db db k.
Proof using.
  intros Hdb Hc Hp Hd Hex. split_and!; [by destruct db|done|].
  intros j q e Hj He. exists (wildcard_child_closest_match e). rewrite He.
  case_bool_decide; [|by rewrite set_wildcard_id].
  by rewrite set_existing_idem, set_wildcard_id by (by eapply existing_above with (k:=k)).
Qed.

Lemma marked_closed db db' k : existing_closed db -> db_ok db -> marked db db' k ->
  existing_closed db'.
Proof using.
  intros Hc Hdb (Hdb' & _ & Hm) i l j p q d' e' Hi Hp Hq Hd' He' Hex.
  rewrite Hdb' in Hp, Hq. cbn in Hp, Hq.
  destruct (db_domain db Hdb _ _ Hp) as (d & Hd & _). destruct (db_domain db Hdb _ _ Hq) as (e & He & _).
  destruct (Hm _ _ _ Hp Hd) as [w Hw]. destruct (Hm _ _ _ Hq He) as [w' Hw'].
  rewrite Hw in Hd'. rewrite Hw' in He'. injection Hd' as <-. injection He' as <-. destruct (decide (j `suffix_of` k)) as [Hj|Hj].
  - by rewrite bool_decide_true.
  - rewrite bool_decide_false by done.
    rewrite bool_decide_false in Hex by (by intros ?%suffix_cons_l). exact (Hc i l j p q d e Hi Hp Hq Hd He Hex).
Qed.

(** Marking the domain at [l :: up], then those above it. *)
Lemma marked_step db l up p q d e w db' : db_ok db -> names db !! (l :: up) = Some p -> names db !! up = Some q ->
  domains db !! p = Some d -> domains db !! q = Some e ->
  marked (put_domain q (set_wildcard w e) (put_domain p (set_existing d) db)) db' up -> marked db db' (l :: up).
Proof using.
  intros Hdb Hp Hq Hd He (E & Hok & Hm). split_and!; [by rewrite E|done|].
  intros j r f Hj Hf. pose proof (repointed_lookup db p q d e w r f Hf) as Hr.
  destruct (Hm j r _ Hj Hr) as [v ->]. exists v. f_equal.
  assert (Hiff : j <> l :: up -> j `suffix_of` up <-> j `suffix_of` l :: up).
  { intros Hne. split; [apply suffix_cons_r|]. intros [[|x i] Hi]; simpl in Hi; [by subst j|].
    injection Hi as -> ->. by exists i. }
  destruct (Z.eqb_spec r q) as [->|Hrq].
  - assert (f = e) as -> by congruence. pose proof (db_injective db Hdb _ _ _ Hj Hq) as ->.
    rewrite (bool_decide_true (up `suffix_of` up)) by (by exists []).
    by rewrite (bool_decide_true (up `suffix_of` l :: up)) by (by exists [l]).
  - destruct (Z.eqb_spec r p) as [->|Hrp].
    + assert (f = d) as -> by congruence. pose proof (db_injective db Hdb _ _ _ Hj Hp) as ->.
      rewrite (bool_decide_true (l :: up `suffix_of` l :: up)) by (by exists []). by case_bool_decide.
    + rewrite (bool_decide_ext (j `suffix_of` up) (j `suffix_of` l :: up)); [by case_bool_decide|].
      apply Hiff. intros ->. congruence.
Qed.

Lemma closed_from_put db l up p q d e w : db_ok db -> names db !! (l :: up) = Some p -> names db !! up = Some q ->
  domains db !! q = Some e ->
  closed_from db (l :: up) -> closed_from (put_domain q (set_wildcard w e) (put_domain p (set_existing d) db)) up.
Proof using.
  intros Hdb Hp Hq He Hc x j r u f g Hs Hr Hu Hf Hg Hx.
  assert (Hother : forall i t h, i `suffix_of` up -> names db !! i = Some t ->
    domains (put_domain q (set_wildcard w e) (put_domain p (set_existing d) db)) !! t = Some h ->
    exists h', domains db !! t = Some h' /\ is_existing h' = is_existing h).
  { intros i t h Hi Ht Hh. cbn in Hh. apply lookup_insert_Some in Hh as [[<- <-]|[_ Hh]]; [by exists e|].
    rewrite lookup_insert_ne in Hh; [by exists h|]. intros <-.
    rewrite (db_injective db Hdb _ _ _ Ht Hp) in Hi. by apply suffix_cons_not in Hi. }
  destruct (Hother _ _ _ Hs Hr Hf) as (f' & Hf' & Ef). destruct (Hother j u g) as (g' & Hg' & Eg); [by eapply suffix_cons_l|done..|].
  rewrite <-Eg. apply (Hc x j r u f' g'); try done; [by apply suffix_cons_r|by rewrite Ef].
Qed.

(** No pointer depends on whether the root exists. *)
Lemma existing_root db p d : db_ok db -> names db !! [] = Some p -> domains db !! p = Some d ->
  db_ok (put_domain p (set_existing d) db).
Proof using.
  intros Hdb Hp Hd. pose proof Hdb as [Hroot Hdom Hinj Hnl Hnd Hnum].
  assert (Hlook : forall r f, domains db !! r = Some f ->
    domains (put_domain p (set_existing d) db) !! r = Some (if r =? p then set_existing d else f)).
  { intros r f Hf. cbn. destruct (Z.eqb_spec r p) as [->|Hrp]; [by rewrite lookup_insert_eq|by rewrite lookup_insert_ne]. }
  split; try done.
  - intros ls r Hr. destruct (Hdom _ _ Hr) as (f & Hf & [H1 H2 H3 H4 (lf & Hlf & Hsh & Hmax)]). rewrite (Hlook _ _ Hf).
    eexists. split; [done|].
    assert (Hw : wildcard_right (put_domain p (set_existing d) db) ls (wildcard_child_closest_match f)).
    { exists lf. split_and!; [done..|]. intros c u f' Hc Hf' Hx Hb. cbn in Hf'. rewrite lookup_insert_ne in Hf'; [by eapply Hmax|].
      intros <-. by pose proof (Hinj _ _ _ Hp Hc). }
    destruct (Z.eqb_spec r p) as [->|]; [|by split]. assert (f = d) as -> by congruence. by split.
  - intros i r f' Hi Hf'. destruct (proj1 (Hnl r)) as [ls Hr]; [by eapply list_elem_of_lookup_2|].
    destruct (Hdom _ _ Hr) as (f & Hf & _). rewrite (Hlook _ _ Hf) in Hf'. injection Hf' as <-.
    destruct (Z.eqb_spec r p) as [->|]; [by apply (Hnum i p d)|by apply (Hnum i r f)].
Qed.

Lemma wp_mark_existing fuel : forall k db p,
  db_ok db -> closed_from db k -> names db !! k = Some p -> (S (length k) < fuel)%nat ->
  forall Q : unit -> namedb -> Prop, (forall db', marked db db' k -> Q tt db') ->
  wp (st_iter fuel (fun p : option Z =>
    match p with
    | None => mret (inr tt)
    | Some p =>
        d ← get_domain p;
        if is_existing d then mret (inr tt)
        else
          st_modify (put_domain p (set_existing d));;
          match parent d with
          | Some q => update_wildcard q p
          | None => mret tt
          end;;
          mret (inl (parent d))
    end) (Some p)) Q db.
Proof using.
  induction fuel as [|fuel IH]; intros k db p Hdb Hc Hp Hlen Q HQ; [lia|].
  destruct (db_domain db Hdb _ _ Hp) as (d & Hd & Hdok). cbn [st_iter].
  wp_step. wp_step. eapply wp_get_domain; [done|]. wp_step.
  { do 2 wp_step. apply HQ. by eapply marked_already. }
  do 3 wp_step. destruct k as [|l up].
  - rewrite (domain_parent _ _ _ _ Hdok). do 2 wp_step.
    destruct fuel as [|fuel]; [simpl in Hlen; lia|]. cbn [st_iter]. do 2 wp_step. apply HQ.
    split_and!; [done|by apply existing_root|]. intros j q e Hj He. exists (wildcard_child_closest_match e).
    cbn. destruct (decide (q = p)) as [->|].
    + rewrite lookup_insert_eq. rewrite (db_injective db Hdb _ _ _ Hj Hp), bool_decide_true by (by exists []).
      assert (e = d) as -> by congruence. by destruct d.
    + rewrite lookup_insert_ne by done. rewrite bool_decide_false; [by rewrite set_wildcard_id|].
      intros ->%suffix_nil_inv. congruence.
  - destruct (domain_parent _ _ _ _ Hdok) as (q & Hq & Hup). rewrite Hq.
    destruct (db_domain db Hdb _ _ Hup) as (e & He & _).
    apply (wp_update_wildcard_existing db l up p q d e); [done..|]. intros w Hdb1. cbn beta. wp_step.
    apply (IH up); [done|by eapply closed_from_put|done|simpl in Hlen; lia|].
    intros db' Hm. apply HQ. by eapply marked_step.
Qed.

Lemma wp_domain_add_rrset db k p d r : db_ok db -> existing_closed db ->
  names db !! k = Some p -> domains db !! p = Some d ->
  wp (domain_add_rrset p r) (fun _ db' =>
    marked (put_domain p (set_rrsets (domain_rrsets d ++ [r]) d) db) db' k /\ existing_closed db') db.
Proof using.
  intros Hdb Hc Hp Hd. destruct (db_domain db Hdb _ _ Hp) as (d0 & Hd0 & Hdok).
  assert (d0 = d) as -> by congruence.
  assert (Hdb1 : db_ok (put_domain p (set_rrsets (domain_rrsets d ++ [r]) d) db))
    by (apply (db_ok_put db p d); [done..|]; by repeat split).
  assert (Hc1 : existing_closed (put_domain p (set_rrsets (domain_rrsets d ++ [r]) d) db)).
  { intros i x j q u e f Hs Hq Hu. cbn. intros He Hf Hex.
    apply lookup_insert_Some in He as [[<- <-]|[_ He]], Hf as [[<- <-]|[_ Hf]].
    - done.
    - by apply (Hc i x j p u d f).
    - by apply (Hc i x j q p e d).
    - by apply (Hc i x j q u e f). }
  unfold domain_add_rrset. wp_step. eapply wp_get_domain; [done|]. do 2 wp_step.
  apply (wp_mark_existing parent_fuel k); [done|apply Hc1|done| |].
  - pose proof (name_ok_count k (domain_name_ok _ _ _ _ Hdok)). unfold zlength, parent_fuel in *. lia.
  - intros db' Hm. split; [done|]. by eapply marked_closed.
Qed.

Lemma filled_closed db db' ls : db_ok db -> existing_closed db -> filled db db' ls ->
  existing_closed db'.
Proof using.
  intros Hdb Hc [_ Hg _ Hempty] i l j p q d e Hi Hp Hq Hd He Hex.
  destruct (names db !! (l :: j)) as [p0|] eqn:E.
  - destruct (names_suffix db Hdb _ _ j E) as [q0 Hq0]; [by exists [l]|].
    assert (p0 = p) as -> by (apply (grown_names _ _ Hg) in E; congruence).
    assert (q0 = q) as -> by (pose proof (grown_names _ _ Hg _ _ Hq0); congruence).
    destruct (db_domain db Hdb _ _ E) as (d0 & Hd0 & _).
    destruct (db_domain db Hdb _ _ Hq0) as (e0 & He0 & _).
    destruct (grown_domains _ _ Hg _ _ Hd0) as (d1 & Hd1 & Kd).
    destruct (grown_domains _ _ Hg _ _ He0) as (e1 & He1 & Ke).
    assert (d1 = d) as -> by congruence. assert (e1 = e) as -> by congruence.
    unfold kept in Kd, Ke. rewrite Kd in Hex. rewrite Ke.
    exact (Hc i l j p q d0 e0 Hi E Hq0 Hd0 He0 Hex).
  - by rewrite (proj1 (Hempty _ _ _ E Hp Hd)) in Hex.
Qed.

(** The table as it is created. *)
Lemma created_ok : exists db, domain_table_create = Ok db /\ db_ok db /\ existing_closed db /\
  names db = {[ [] := 0 ]}.
Proof using L.
  assert (Hroot : name_ok []) by by apply (bool_decide_unpack _).
  exists (mkdb {[0 := mkdomain true (of_labels []) None 0 [] 1 1 false false]} ∅ ∅
    (tree_insert tree_create (of_labels []) 0) [0] tree_create). split; [reflexivity|].
  assert (Hn : contents (tree_insert tree_create (of_labels []) 0) = {[ [] := 0 ]}).
  { rewrite contents_insert, contents_create; [done|done|by rewrite contents_create]. }
  cbn [nametree]. split_and!.
  - split; cbn [nametree domains numlist].
    + rewrite Hn. by eexists.
    + rewrite Hn. intros ls p [<- <-]%lookup_singleton_Some. eexists.
      split; [apply lookup_singleton_eq|]. split; try done. exists []. cbn [nametree].
      rewrite Hn. split_and!; [done|by left|]. intros c p d.
      by intros [E _]%lookup_singleton_Some.
    + rewrite Hn. by intros ls ls' p [<- _]%lookup_singleton_Some [<- _]%lookup_singleton_Some.
    + rewrite Hn. intros p. rewrite list_elem_of_singleton. split.
      * intros ->. by exists [].
      * by intros [ls [_ <-]%lookup_singleton_Some].
    + apply NoDup_singleton.
    + intros i p d [-> <-]%list_lookup_singleton_Some. rewrite lookup_singleton_eq. by intros [= <-].
  - intros i l j p q d e _. cbn [nametree]. rewrite Hn. by intros [E _]%lookup_singleton_Some.
  - exact Hn.
Qed.
End table.
