(* ===== verification/NamedbTable.v ===== *)
(** Properties of the domain table of Namedb.v, and a reference tree of names
    that keeps the promises of [NameTreeLaws]. *)

From S2P Require Import Prelude Buffer Dname DnameProofs DnamePacket Dns Namedb NamedbProofs.

(** * A reference tree: an association list *)

(** The labels of a name in wire format. *)
Fixpoint unwire (fuel : nat) (w : list Z) : name :=
  match fuel, w with
  | S fuel, c :: w =>
      if c =? 0 then [] else take (Z.to_nat c) w :: unwire fuel (drop (Z.to_nat c) w)
  | _, _ => []
  end.
Definition labels_of (d : dname_type) : name := unwire (length (dname_name d)) (dname_name d).

#[global] Arguments labels_of : simpl never.

Fixpoint assoc (t : list (name * Z)) (ls : name) : option Z :=
  match t with
  | [] => None
  | (k, p) :: t => if decide (k = ls) then Some p else assoc t ls
  end.

(** The greatest key below [ls], and the least above. *)
Definition better (sign : Z) (ls : name) (e : name * Z) (best : option name) : option name :=
  if sign * name_cmp e.1 ls <? 0 then
    match best with
    | Some k => if 0 <? sign * name_cmp e.1 k then Some e.1 else best
    | None => Some e.1
    end
  else best.
Definition nearest (sign : Z) (t : list (name * Z)) (ls : name) : option name :=
  foldr (better sign ls) None t.

#[export] Instance list_tree : NameTree := {|
  name_tree := list (name * Z);
  tree_create := [];
  tree_insert t n p := (labels_of n, p) :: t;
  tree_delete t n := filter (fun e => e.1 <> labels_of n) t;
  tree_search t n := assoc t (labels_of n);
  tree_find_less_equal t n :=
    match assoc t (labels_of n) with
    | Some p => (true, Some p)
    | None => (false, nearest 1 t (labels_of n) ≫= assoc t)
    end;
  tree_previous t n := nearest 1 t (labels_of n) ≫= assoc t;
  tree_next t n := nearest (-1) t (labels_of n) ≫= assoc t;
|}.

Lemma unwire_wire ls : forall fuel, Forall label_ok ls -> (length ls < fuel)%nat ->
  unwire fuel (wire ls) = ls.
Proof.
  induction ls as [|l ls IH]; intros [|fuel] Hok Hf; try (simpl in Hf; lia); [done|].
  apply Forall_cons in Hok as [[Hl _] Hok]. cbn [wire unwire].
  rewrite (proj2 (Z.eqb_neq _ 0)) by lia. unfold zlength. rewrite Nat2Z.id.
  rewrite take_app_length, drop_app_length. f_equal. apply IH; [done|]. simpl in Hf. lia.
Qed.

Lemma labels_of_labels ls : name_ok ls -> labels_of (of_labels ls) = ls.
Proof.
  intros [Hls _]. apply unwire_wire; [done|]. cbn [dname_name of_labels].
  pose proof (wire_count ls Hls). unfold zlength in *. lia.
Qed.

Lemma assoc_map t ls : assoc t ls = (list_to_map t : gmap name Z) !! ls.
Proof.
  induction t as [|[k p] t IH]; [done|]. cbn. case_decide as E.
  - subst. by rewrite lookup_insert_eq.
  - by rewrite lookup_insert_ne.
Qed.

Lemma assoc_filter t ls k :
  assoc (filter (fun e => e.1 <> ls) t) k = if decide (ls = k) then None else assoc t k.
Proof.
  induction t as [|[j p] t IH]; [by case_decide|]. destruct (decide (j = ls)) as [->|Hne].
  - rewrite filter_cons_False by (intros H; by apply H). rewrite IH. cbn.
    by repeat case_decide.
  - rewrite filter_cons_True by done. cbn. rewrite IH.
    repeat case_decide; congruence.
Qed.

(** The order of names, or its converse. *)
Definition signed (sign : Z) (a b : name) : Z := sign * name_cmp a b.

Lemma signed_lawful sign : sign = 1 \/ sign = -1 -> LawfulCompare (signed sign).
Proof.
  unfold signed. intros Hs. split.
  - intros a b. rewrite <-(cmp_eq (cmp:=name_cmp)). lia.
  - intros a b. pose proof (name_cmp_flip a b). pose proof (name_cmp_flip b a). lia.
  - intros a b c. pose proof (cmp_trans (cmp:=name_cmp) a b c). pose proof (cmp_trans (cmp:=name_cmp) c b a).
    pose proof (name_cmp_flip a b). pose proof (name_cmp_flip b a). pose proof (name_cmp_flip b c).
    pose proof (name_cmp_flip c b). pose proof (name_cmp_flip a c). pose proof (name_cmp_flip c a). lia.
Qed.

Lemma nearest_spec sign t ls : sign = 1 \/ sign = -1 ->
  match nearest sign t ls with
  | Some k => is_Some (assoc t k) /\ signed sign k ls < 0 /\
      forall k', is_Some (assoc t k') -> signed sign k' ls < 0 -> signed sign k' k <= 0
  | None => forall k', is_Some (assoc t k') -> 0 <= signed sign k' ls
  end.
Proof.
  intros Hs. pose proof (signed_lawful sign Hs) as Hlaw.
  induction t as [|[j p] t IH]; [by intros k' []|].
  assert (Hin : forall k, is_Some (assoc ((j, p) :: t) k) <-> k = j \/ is_Some (assoc t k)).
  { intros k. cbn. case_decide; [subst; split; [by left|by eexists]|].
    split; [by right|]. intros [->|]; done. }
  assert (Hrefl : forall k, signed sign k k = 0) by (intros k; by apply (cmp_eq (cmp:=signed sign))).
  cbn [nearest foldr]. change (foldr (better sign ls) None t) with (nearest sign t ls).
  unfold better at 1. cbn [fst]. fold (signed sign j ls).
  destruct (Z.ltb_spec (signed sign j ls) 0) as [Hj|Hj].
  - destruct (nearest sign t ls) as [k|].
    + destruct IH as (Hk & Hlt & Hmax). fold (signed sign j k).
      destruct (Z.ltb_spec 0 (signed sign j k)) as [Hjk|Hjk].
      * split_and!; [apply Hin; by left|done|]. intros k' [->|Hk']%Hin Hlt'; [by rewrite Hrefl|].
        specialize (Hmax _ Hk' Hlt'). pose proof (cmp_swap (cmp:=signed sign) k j).
        destruct (decide (signed sign k' k = 0)) as [E|].
        { apply (cmp_eq (cmp:=signed sign)) in E as ->. lia. }
        pose proof (cmp_trans (cmp:=signed sign) k' k j). lia.
      * split_and!; [apply Hin; by right|done|]. intros k' [->|Hk']%Hin Hlt'; [done|by apply Hmax].
    + split_and!; [apply Hin; by left|done|]. intros k' [->|Hk']%Hin Hlt'; [by rewrite Hrefl|].
      specialize (IH _ Hk'). lia.
  - destruct (nearest sign t ls) as [k|].
    + destruct IH as (Hk & Hlt & Hmax). split_and!; [apply Hin; by right|done|].
      intros k' [->|Hk']%Hin Hlt'; [lia|by apply Hmax].
    + intros k' [->|Hk']%Hin; [done|by apply IH].
Qed.

Lemma nearest_below t ls :
  greatest_below (list_to_map t) ls (nearest 1 t ls ≫= assoc t).
Proof.
  pose proof (nearest_spec 1 t ls ltac:(by left)) as H. unfold signed in H. destruct (nearest 1 t ls) as [k|]; cbn.
  - destruct H as ([p Hp] & Hlt & Hmax). rewrite Hp. exists k. rewrite <-assoc_map.
    split_and!; [done|lia|]. intros k' p' Hk' Hlt'. rewrite <-assoc_map in Hk'.
    specialize (Hmax k' ltac:(by eexists)). lia.
  - intros k p Hk. rewrite <-assoc_map in Hk. specialize (H k ltac:(by eexists)). lia.
Qed.

Lemma nearest_above t ls :
  least_above (list_to_map t) ls (nearest (-1) t ls ≫= assoc t).
Proof.
  pose proof (nearest_spec (-1) t ls ltac:(by right)) as H. unfold signed in H. destruct (nearest (-1) t ls) as [k|]; cbn.
  - destruct H as ([p Hp] & Hlt & Hmax). rewrite Hp. exists k. rewrite <-assoc_map.
    split_and!; [done|lia|]. intros k' p' Hk' Hlt'. rewrite <-assoc_map in Hk'.
    specialize (Hmax k' ltac:(by eexists)). pose proof (name_cmp_flip k' k). lia.
  - intros k p Hk. rewrite <-assoc_map in Hk. specialize (H k ltac:(by eexists)). lia.
Qed.

#[export] Instance list_tree_laws : NameTreeLaws list_tree.
Proof.
  refine {| contents := fun t : @name_tree list_tree => list_to_map t : gmap name Z |}; cbn.
  - done.
  - intros t ls p Hok _. by rewrite labels_of_labels.
  - intros t ls Hok. rewrite labels_of_labels by done. apply map_eq. intros k.
    rewrite <-assoc_map, assoc_filter. case_decide as E.
    + subst. by rewrite lookup_delete_eq.
    + by rewrite lookup_delete_ne, assoc_map.
  - intros t ls Hok. by rewrite labels_of_labels, assoc_map.
  - intros t ls p Hok Hp. by rewrite labels_of_labels, assoc_map, Hp.
  - intros t ls Hok Hno. rewrite labels_of_labels, assoc_map, Hno by done.
    eexists. split; [done|]. apply nearest_below.
  - intros t ls Hok. rewrite labels_of_labels by done. apply nearest_below.
  - intros t ls Hok. rewrite labels_of_labels by done. apply nearest_above.
Defined.

(** * The table against its specification *)
Section properties.
Context `{T : NameTree} {L : NameTreeLaws T}.

Abbreviation names db := (contents (nametree db)).

(** What every operation on the table may rely on. *)
Definition table_ok (db : namedb) : Prop := db_ok db /\ existing_closed db.

(** C22 (functional): the search in the table.  For every name it ends and
    finds the entry that comes last among those not after the name in the
    canonical order, and the longest suffix of the name that is in the table;
    [exact] tells whether the name itself is there. *)
Theorem domain_table_search_correct (db : namedb) (ls : name) :
  table_ok db -> name_ok ls ->
  exists closest_match closest_encloser m k,
    domain_table_search db (of_labels ls) =
      Ok (bool_decide (is_Some (names db !! ls)), closest_match, closest_encloser) /\
    names db !! m = Some closest_match /\ name_cmp m ls <= 0 /\
    (forall j p, names db !! j = Some p -> name_cmp j ls <= 0 -> name_cmp j m <= 0) /\
    names db !! k = Some closest_encloser /\ k `suffix_of` ls /\
    (forall j p, names db !! j = Some p -> j `suffix_of` ls -> j `suffix_of` k).
Proof.
  intros [Hdb _] Hok.
  destruct (domain_table_search_spec db Hdb ls Hok)
    as (exact & m & lm & e & k & Hs & Hm & He & (Hsuf & _ & Hlong) & Hex & Hle & Hmax).
  exists m, e, lm, k. split_and!; try done.
  - rewrite Hs. do 3 f_equal. destruct exact; symmetry.
    + apply bool_decide_eq_true. subst. by eexists.
    + apply bool_decide_eq_false. rewrite Hex. by intros [].
  - intros j p Hj Hsj. by apply Hlong; [|eexists].
Qed.

(** C23 (invariant): the table is created right and insertion keeps it right.
    Afterwards the names are those of before and every suffix of the new one;
    the domains of before are where they were and keep all but the domain
    before their wildcard; numbers stay the places in the list, which is what
    the compression table of a query is indexed by. *)
Theorem domain_table_insert_correct :
  (exists db, domain_table_create = Ok db /\ table_ok db /\ names db = {[ [] := 0 ]}) /\
  (forall db ls, table_ok db -> name_ok ls ->
     exists p db', domain_table_insert (of_labels ls) db = Ok (p, db') /\
       table_ok db' /\ names db' !! ls = Some p /\
       (forall k, is_Some (names db' !! k) <-> is_Some (names db !! k) \/ k `suffix_of` ls) /\
       (forall k q d, names db !! k = Some q -> domains db !! q = Some d ->
          names db' !! k = Some q /\
          exists w, domains db' !! q = Some (set_wildcard w d)) /\
       (forall i q d, numlist db' !! i = Some q -> domains db' !! q = Some d ->
          number d = Z.of_nat i + 1)).
Proof.
  split.
  - destruct created_ok as (db & Hc & Hdb & Hex & Hn). by exists db.
  - intros db ls [Hdb Hex] Hok.
    destruct (wp_elim _ _ _ (wp_domain_table_insert db ls Hdb Hok)) as (p & db' & Hrun & Hf & Hp).
    exists p, db'. pose proof Hf as [Hdb' Hg Hnames _]. split_and!; try done.
    + split; [done|by apply (filled_closed db db' ls)].
    + intros k q d Hq Hd. split; [by apply (grown_names _ _ Hg)|].
      destruct (grown_domains _ _ Hg _ _ Hd) as (d' & Hd' & K).
      exists (wildcard_child_closest_match d'). by rewrite Hd', <-K.
    + apply (db_numbers _ Hdb').
Qed.

(** C24 (functional): the wildcard child.  The domain kept in
    [wildcard_child_closest_match] answers the question it is kept for: what is
    given is the name "*" below the domain, and it is given when that name has
    data at or below it. *)
Theorem domain_wildcard_child_correct (db : namedb) (k : name) (p : Z) :
  table_ok db -> names db !! k = Some p ->
  exists r, domain_wildcard_child db p = Ok r /\
    (forall q, r = Some q -> names db !! ([42] :: k) = Some q) /\
    (forall q d, names db !! ([42] :: k) = Some q -> domains db !! q = Some d -> is_existing d = true -> r = Some q).
Proof. intros [Hdb _]. by apply domain_wildcard_child_spec. Qed.

(** C25 (invariant): adding a record set.  It comes last in the list of its
    domain, the domain and all above it exist from then on, nothing else
    changes but domains before wildcards, and the table stays right. *)
Theorem domain_add_rrset_correct (db : namedb) (k : name) (p r : Z) (d : domain) :
  table_ok db -> names db !! k = Some p -> domains db !! p = Some d ->
  exists db', domain_add_rrset p r db = Ok (tt, db') /\ table_ok db' /\ names db' = names db /\
    numlist db' = numlist db /\
    forall j q e, names db !! j = Some q -> domains db !! q = Some e ->
      let e := if q =? p then set_rrsets (domain_rrsets e ++ [r]) e else e in
      exists w, domains db' !! q = Some (set_wildcard w (if bool_decide (j `suffix_of` k) then set_existing e else e)).
Proof.
  intros [Hdb Hex] Hp Hd.
  destruct (wp_elim _ _ _ (wp_domain_add_rrset db k p d r Hdb Hex Hp Hd))
    as ([] & db' & Hrun & (Hsame & Hdb' & Hm) & Hex').
  exists db'. split; [done|]. split; [done|]. split; [by rewrite Hsame|]. split; [by rewrite Hsame|].
  intros j q e Hq He. apply Hm; [done|]. cbn. destruct (Z.eqb_spec q p) as [->|].
  - rewrite lookup_insert_eq. congruence.
  - by rewrite lookup_insert_ne.
Qed.
End properties.

(** * Concrete tables *)

(** Inserting names, and giving some of them a record set. *)
Fixpoint build (ns : list (name * bool)) : Db unit :=
  match ns with
  | [] => mret tt
  | (ls, data) :: ns =>
      p ← domain_table_insert (of_labels ls);
      (if (data : bool) then domain_add_rrset p 0 else mret tt);;
      build ns
  end.

Definition sample_db (ns : list (name * bool)) : namedb :=
  match db ← domain_table_create; build ns db with
  | Ok (_, db) => db
  | _ => mkdb ∅ ∅ ∅ [] [] []
  end.

Lemma build_ok ns : Forall (fun e => name_ok e.1) ns -> table_ok (sample_db ns).
Proof.
  intros Hns. unfold sample_db. destruct created_ok as (db & -> & Hdb & Hex & _).
  assert (Hok : table_ok db) by done. clear Hdb Hex. cbn [mbind res_bind].
  assert (exists db', build ns db = Ok (tt, db') /\ table_ok db') as (db' & -> & ?); [|done].
  revert db Hok. induction ns as [|[ls data] ns IH]; intros db [Hdb Hex]; [by exists db|].
  apply Forall_cons in Hns as [Hls Hns]. cbn [build]. cbn in Hls.
  destruct (wp_elim _ _ _ (wp_domain_table_insert db ls Hdb Hls)) as (p & db1 & Hrun & Hf & Hp).
  assert (Hex1 : existing_closed db1) by (by eapply filled_closed).
  destruct Hf as [Hdb1 _ _ _]. unfold mbind, ST_bind. rewrite Hrun.
  destruct data; [|by apply IH].
  destruct (db_domain _ Hdb1 _ _ Hp) as (d & Hd & _).
  destruct (wp_elim _ _ _ (wp_domain_add_rrset db1 ls p d 0 Hdb1 Hex1 Hp Hd))
    as ([] & db2 & -> & (_ & Hdb2 & _) & Hex2). by apply IH.
Qed.

Definition sample_names : list (name * bool) :=
  [([[97]; [112]], true); ([[42]; [112]], false); ([[120]; [98]; [112]], true)].

Lemma domain_table_search_witness :
  exists closest_match closest_encloser m k,
    domain_table_search (sample_db sample_names) (of_labels [[121]; [98]; [112]]) =
      Ok (false, closest_match, closest_encloser) /\
    contents (nametree (sample_db sample_names)) !! m = Some closest_match /\
    contents (nametree (sample_db sample_names)) !! k = Some closest_encloser /\
    k `suffix_of` [[121]; [98]; [112]].
Proof.
  destruct (domain_table_search_correct (sample_db sample_names) [[121]; [98]; [112]])
    as (m & e & lm & k & H1 & H2 & _ & _ & H3 & H4 & _);
    [apply build_ok; by apply (bool_decide_unpack _)|by apply (bool_decide_unpack _)|].
  exists m, e, lm, k. split; [|split; [exact H2|split; [exact H3|exact H4]]].
  rewrite H1. reflexivity.
Defined.

Lemma domain_table_insert_witness :
  exists p db', domain_table_insert (of_labels [[121]; [98]; [112]]) (sample_db sample_names) = Ok (p, db') /\
    table_ok db'.
Proof.
  destruct (proj2 domain_table_insert_correct (sample_db sample_names) [[121]; [98]; [112]])
    as (p & db' & H1 & H2 & _);
    [apply build_ok; by apply (bool_decide_unpack _)|by apply (bool_decide_unpack _)|].
  exists p, db'. split; [exact H1|exact H2].
Defined.

Definition existing_wildcard : list (name * bool) := [([[97]; [112]], true); ([[42]; [112]], true)].

Lemma domain_wildcard_child_witness :
  assoc (nametree (sample_db existing_wildcard)) [[112]] = Some 1 /\
  domain_wildcard_child (sample_db existing_wildcard) 1 = Ok (Some 3).
Proof.
  split; [reflexivity|]. destruct (domain_wildcard_child_correct (sample_db existing_wildcard) [[112]] 1) as (r & H1 & _ & H2).
  - apply build_ok. by apply (bool_decide_unpack _).
  - reflexivity.
  - rewrite H1. f_equal. eapply H2; reflexivity.
Defined.

Definition sample_wildcard : domain :=
  mkdomain true (of_labels [[42]; [112]]) (Some 1) 3 [] 4 0 false false.

Lemma domain_add_rrset_witness :
  exists db' w, domains (sample_db sample_names) !! 3 = Some sample_wildcard /\
    domain_add_rrset 3 7 (sample_db sample_names) = Ok (tt, db') /\
    domains db' !! 3 = Some (set_wildcard w (set_existing (set_rrsets [7] sample_wildcard))).
Proof.
  assert (Hd : domains (sample_db sample_names) !! 3 = Some sample_wildcard) by reflexivity.
  assert (Hp : contents (nametree (sample_db sample_names)) !! [[42]; [112]] = Some 3) by reflexivity.
  destruct (domain_add_rrset_correct (sample_db sample_names) [[42]; [112]] 3 7 sample_wildcard)
    as (db' & H1 & _ & _ & _ & H2);
    [apply build_ok; by apply (bool_decide_unpack _)|exact Hp|exact Hd|].
  destruct (H2 [[42]; [112]] 3 sample_wildcard Hp Hd) as [w Hw].
  exists db', w. split; [exact Hd|]. split; [exact H1|]. exact Hw.
Defined.

