(* ===== verification/Rbtree.v ===== *)
(** Model of the red-black tree (src/rbtree.c): nodes in memory, linked by
    pointers to parent and children, with the one node that stands for none. *)

From S2P Require Import Prelude Dname Namedb.

(** * Nodes *)
Inductive rbcolor := BLACK | RED.
#[export] Instance rbcolor_eq_dec : EqDecision rbcolor.
Proof. solve_decision. Defined.
Definition is_red (c : rbcolor) : bool := match c with RED => true | BLACK => false end.

Section rbtree.
(** Keys, and what the nodes are the first member of. *)
Context {K V : Type} (cmp : K -> K -> res Z).

Record rbnode := mkrbnode {
  rb_parent : Z;
  rb_left : Z;
  rb_right : Z;
  rb_item : option (K * V);
  rb_color : rbcolor;
}.

(** [&rbtree_null_node]. *)
Definition RBTREE_NULL : Z := -1.
Definition rbtree_null_node : rbnode := mkrbnode RBTREE_NULL RBTREE_NULL RBTREE_NULL None BLACK.

(** A tree, with the memory its nodes are in. *)
Record rbtree := mkrbtree { rb_nodes : gmap Z rbnode; rb_root : Z; rb_count : Z }.
Abbreviation Rb := (ST rbtree).

Definition rbtree_create : rbtree := mkrbtree {[RBTREE_NULL := rbtree_null_node]} RBTREE_NULL 0.

(** ** Through pointers *)
Definition load {A} (field : rbnode -> A) (p : Z) : Rb A :=
  t ← st_get; n ← lift (points_to (rb_nodes t !! p)); mret (field n).
Definition store_node (p : Z) (n : rbnode) (t : rbtree) : rbtree :=
  mkrbtree (<[p := n]> (rb_nodes t)) (rb_root t) (rb_count t).
Definition update (p : Z) (f : rbnode -> rbnode) : Rb unit :=
  n ← load (fun n => n) p; st_modify (store_node p (f n)).

Definition with_parent (q : Z) (n : rbnode) := mkrbnode q (rb_left n) (rb_right n) (rb_item n) (rb_color n).
Definition with_left (q : Z) (n : rbnode) := mkrbnode (rb_parent n) q (rb_right n) (rb_item n) (rb_color n).
Definition with_right (q : Z) (n : rbnode) := mkrbnode (rb_parent n) (rb_left n) q (rb_item n) (rb_color n).
Definition with_color (c : rbcolor) (n : rbnode) := mkrbnode (rb_parent n) (rb_left n) (rb_right n) (rb_item n) c.
Definition set_root (p : Z) : Rb unit := st_modify (fun t => mkrbtree (rb_nodes t) p (rb_count t)).
Definition set_count (f : Z -> Z) : Rb unit := st_modify (fun t => mkrbtree (rb_nodes t) (rb_root t) (f (rb_count t))).
Definition root_of : Rb Z := t ← st_get; mret (rb_root t).
Definition is_null (p : Z) : bool := p =? RBTREE_NULL.

(** [node->key], which the comparison reads. *)
Definition key_at (p : Z) : Rb K := i ← load rb_item p; i ← lift (points_to i); mret i.1.

(** No loop goes through more nodes than there are. *)
Definition rounds (t : rbtree) : nat := S (size (rb_nodes t)).

(** * Rotations *)
Definition rbtree_rotate_left (node : Z) : Rb unit :=
  right ← load rb_right node;
  rl ← load rb_left right;
  update node (with_right rl);;
  rl ← load rb_left right;
  (if negb (is_null rl) then update rl (with_parent node) else mret tt);;
  parent ← load rb_parent node;
  update right (with_parent parent);;
  parent ← load rb_parent node;
  (if negb (is_null parent) then
     pl ← load rb_left parent;
     if node =? pl then update parent (with_left right) else update parent (with_right right)
   else set_root right);;
  update right (with_left node);;
  update node (with_parent right).

Definition rbtree_rotate_right (node : Z) : Rb unit :=
  left ← load rb_left node;
  lr ← load rb_right left;
  update node (with_left lr);;
  lr ← load rb_right left;
  (if negb (is_null lr) then update lr (with_parent node) else mret tt);;
  parent ← load rb_parent node;
  update left (with_parent parent);;
  parent ← load rb_parent node;
  (if negb (is_null parent) then
     pr ← load rb_right parent;
     if node =? pr then update parent (with_right left) else update parent (with_left left)
   else set_root left);;
  update left (with_right node);;
  update node (with_parent left).

(** * Insertion *)

(** One round of the loop, the parent being red. *)
Definition insert_fixup_step (node : Z) : Rb Z :=
  parent ← load rb_parent node;
  grand ← load rb_parent parent;
  gl ← load rb_left grand;
  if parent =? gl then
    uncle ← load rb_right grand;
    c ← load rb_color uncle;
    if is_red c then
      update parent (with_color BLACK);;
      update uncle (with_color BLACK);;
      update grand (with_color RED);;
      mret grand
    else
      pr ← load rb_right parent;
      node ← (if node =? pr then rbtree_rotate_left parent;; mret parent else mret node);
      parent ← load rb_parent node;
      update parent (with_color BLACK);;
      grand ← load rb_parent parent;
      update grand (with_color RED);;
      rbtree_rotate_right grand;;
      mret node
  else
    uncle ← load rb_left grand;
    c ← load rb_color uncle;
    if is_red c then
      update parent (with_color BLACK);;
      update uncle (with_color BLACK);;
      update grand (with_color RED);;
      mret grand
    else
      pl ← load rb_left parent;
      node ← (if node =? pl then rbtree_rotate_right parent;; mret parent else mret node);
      parent ← load rb_parent node;
      update parent (with_color BLACK);;
      grand ← load rb_parent parent;
      update grand (with_color RED);;
      rbtree_rotate_left grand;;
      mret node.

Definition rbtree_insert_fixup (node : Z) : Rb unit :=
  t ← st_get;
  st_iter (rounds t) (fun node =>
    root ← root_of;
    if node =? root then mret (inr tt) else
    parent ← load rb_parent node;
    c ← load rb_color parent;
    if is_red c then node ← insert_fixup_step node; mret (inl node)
    else mret (inr tt)) node;;
  root ← root_of;
  update root (with_color BLACK).

(** The parent for the new node, and the last comparison; [None] for a
    duplicate. *)
Definition insert_search (data : Z) : Rb (option (Z * Z)) :=
  t ← st_get;
  root ← root_of;
  st_iter (rounds t) (fun st : Z * Z * Z =>
    let '(node, parent, r) := st in
    if is_null node then mret (inr (Some (parent, r))) else
    a ← key_at data;
    b ← key_at node;
    r ← lift (cmp a b);
    if r =? 0 then mret (inr None)
    else if r <? 0 then l ← load rb_left node; mret (inl (l, node, r))
    else l ← load rb_right node; mret (inl (l, node, r))) (root, RBTREE_NULL, 0).

(** [None] for a null pointer. *)
Definition rbtree_insert (data : Z) : Rb (option Z) :=
  found ← insert_search data;
  match found with
  | None => mret None
  | Some (parent, r) =>
      update data (with_parent parent);;
      update data (with_right RBTREE_NULL);;
      update data (with_left RBTREE_NULL);;
      update data (with_color RED);;
      set_count (fun n => n + 1);;
      (if negb (is_null parent) then
         if r <? 0 then update parent (with_left data) else update parent (with_right data)
       else set_root data);;
      rbtree_insert_fixup data;;
      mret (Some data)
  end.

(** * Searching *)
(** The loop, for a number of rounds. *)
Definition find_rounds (n : nat) (key : K) : Rb (bool * option Z) :=
  root ← root_of;
  st_iter n (fun st : Z * option Z =>
    let '(node, result) := st in
    if is_null node then mret (inr (false, result)) else
    b ← key_at node;
    r ← lift (cmp key b);
    if r =? 0 then mret (inr (true, Some node))
    else if r <? 0 then l ← load rb_left node; mret (inl (l, result))
    else l ← load rb_right node; mret (inl (l, Some node))) (root, None).
Definition rbtree_find_less_equal (key : K) : Rb (bool * option Z) := t ← st_get; find_rounds (rounds t) key.

Definition rbtree_search (key : K) : Rb (option Z) :=
  '(exact, node) ← rbtree_find_less_equal key;
  mret (if (exact : bool) then node else None).

(** The node reached by following [field] as long as it leads somewhere. *)
Definition follow (field : rbnode -> Z) (node : Z) : Rb Z :=
  t ← st_get;
  st_iter (rounds t) (fun node =>
    next ← load field node;
    if is_null next then mret (inr node) else mret (inl next)) node.

Definition rbtree_first : Rb Z := root ← root_of; follow rb_left root.
Definition rbtree_last : Rb Z := root ← root_of; follow rb_right root.

(** Up from [node] as long as it is the child that [field] gives. *)
Definition climb (field : rbnode -> Z) (node : Z) : Rb Z :=
  t ← st_get;
  parent ← load rb_parent node;
  st_iter (rounds t) (fun st : Z * Z =>
    let '(node, parent) := st in
    if is_null parent then mret (inr parent) else
    child ← load field parent;
    if node =? child then up ← load rb_parent parent; mret (inl (parent, up))
    else mret (inr parent)) (node, parent).

Definition rbtree_next (node : Z) : Rb Z :=
  right ← load rb_right node;
  if negb (is_null right) then follow rb_left right else climb rb_right node.
Definition rbtree_previous (node : Z) : Rb Z :=
  left ← load rb_left node;
  if negb (is_null left) then follow rb_right left else climb rb_left node.

(** * Deletion *)
Definition change_parent_ptr (parent old new : Z) : Rb unit :=
  if is_null parent then
    root ← root_of;
    st_assert (root =? old);;
    set_root new
  else
    l ← load rb_left parent;
    r ← load rb_right parent;
    st_assert ((l =? old) || (r =? old) || (l =? new) || (r =? new));;
    (if l =? old then update parent (with_left new) else mret tt);;
    r ← load rb_right parent;
    if r =? old then update parent (with_right new) else mret tt.

Definition change_child_ptr (child old new : Z) : Rb unit :=
  if is_null child then mret tt else
  p ← load rb_parent child;
  st_assert ((p =? old) || (p =? new));;
  if p =? old then update child (with_parent new) else mret tt.

(** On the colors, and on the pointers, of two nodes. *)
Definition swap_int8 (x y : Z) : Rb unit :=
  t ← load rb_color x;
  u ← load rb_color y;
  update x (with_color u);;
  update y (with_color t).
Definition swap_np (field : rbnode -> Z) (with_field : Z -> rbnode -> rbnode) (x y : Z) : Rb unit :=
  t ← load field x;
  u ← load field y;
  update x (with_field u);;
  update y (with_field t).

(** [to_delete] and [smright] change places. *)
Definition swap_places (to_delete smright : Z) : Rb unit :=
  swap_int8 to_delete smright;;
  p ← load rb_parent to_delete;
  change_parent_ptr p to_delete smright;;
  r ← load rb_right to_delete;
  (if negb (r =? smright) then p ← load rb_parent smright; change_parent_ptr p smright to_delete else mret tt);;
  l ← load rb_left smright;
  change_child_ptr l smright to_delete;;
  change_child_ptr l smright to_delete;;
  r ← load rb_right smright;
  change_child_ptr r smright to_delete;;
  change_child_ptr r smright to_delete;;
  l ← load rb_left to_delete;
  change_child_ptr l to_delete smright;;
  r ← load rb_right to_delete;
  (if negb (r =? smright) then change_child_ptr r to_delete smright else mret tt);;
  (if r =? smright then update to_delete (with_right to_delete);; update smright (with_parent smright) else mret tt);;
  swap_np rb_parent with_parent to_delete smright;;
  swap_np rb_left with_left to_delete smright;;
  swap_np rb_right with_right to_delete smright.

(** The other child of [parent]. *)
Definition sibling_of (child parent : Z) : Rb Z :=
  r ← load rb_right parent;
  if r =? child then load rb_left parent else load rb_right parent.

(** The colors of a node and its children. *)
Definition colors (p : Z) : Rb (rbcolor * rbcolor * rbcolor) :=
  c ← load rb_color p;
  l ← load rb_left p;
  r ← load rb_right p;
  cl ← load rb_color l;
  cr ← load rb_color r;
  mret (c, cl, cr).

(** The first loop of the repair: done at the root, or left with the node that
    is one black short, its parent and its sibling. *)
Definition delete_go_up (child child_parent : Z) : Rb (option (Z * Z * Z)) :=
  t ← st_get;
  sibling ← sibling_of child child_parent;
  st_iter (rounds t) (fun st : Z * Z * Z =>
    let '(child, child_parent, sibling) := st in
    if is_null child_parent then mret (inr None) else
    c ← load rb_color sibling;
    sibling ← (if is_red c then
                 update child_parent (with_color RED);;
                 update sibling (with_color BLACK);;
                 r ← load rb_right child_parent;
                 (if r =? child then rbtree_rotate_right child_parent else rbtree_rotate_left child_parent);;
                 sibling_of child child_parent
               else mret sibling);
    cp ← load rb_color child_parent;
    '(c, cl, cr) ← colors sibling;
    if negb (is_red cp) && negb (is_red c) && negb (is_red cl) && negb (is_red cr) then
      (if negb (is_null sibling) then update sibling (with_color RED) else mret tt);;
      up ← load rb_parent child_parent;
      sibling ← sibling_of child_parent up;
      mret (inl (child_parent, up, sibling))
    else mret (inr (Some (child, child_parent, sibling)))) (child, child_parent, sibling).

(** The red child of the sibling is brought to its outer side. *)
Definition delete_turn (child child_parent sibling : Z) : Rb Z :=
  r ← load rb_right child_parent;
  l ← load rb_left child_parent;
  '(c, cl, cr) ← colors sibling;
  if (r =? child) && negb (is_red c) && is_red cr && negb (is_red cl) then
    update sibling (with_color RED);;
    sr ← load rb_right sibling;
    update sr (with_color BLACK);;
    rbtree_rotate_left sibling;;
    sibling_of child child_parent
  else if (l =? child) && negb (is_red c) && is_red cl && negb (is_red cr) then
    update sibling (with_color RED);;
    sl ← load rb_left sibling;
    update sl (with_color BLACK);;
    rbtree_rotate_right sibling;;
    sibling_of child child_parent
  else mret sibling.

Definition delete_finish (child child_parent sibling : Z) : Rb unit :=
  cp ← load rb_color child_parent;
  '(c, cl, cr) ← colors sibling;
  if is_red cp && negb (is_red c) && negb (is_red cl) && negb (is_red cr) then
    (if negb (is_null sibling) then update sibling (with_color RED) else mret tt);;
    update child_parent (with_color BLACK)
  else
    st_assert (negb (is_null sibling));;
    sibling ← delete_turn child child_parent sibling;
    cp ← load rb_color child_parent;
    update sibling (with_color cp);;
    update child_parent (with_color BLACK);;
    r ← load rb_right child_parent;
    if r =? child then
      sl ← load rb_left sibling;
      c ← load rb_color sl;
      st_assert (is_red c);;
      update sl (with_color BLACK);;
      rbtree_rotate_right child_parent
    else
      sr ← load rb_right sibling;
      c ← load rb_color sr;
      st_assert (is_red c);;
      update sr (with_color BLACK);;
      rbtree_rotate_left child_parent.

Definition rbtree_delete_fixup (child child_parent : Z) : Rb unit :=
  r ← delete_go_up child child_parent;
  match r with
  | None => mret tt
  | Some (child, child_parent, sibling) => delete_finish child child_parent sibling
  end.

(** The node to delete has at most one child afterwards. *)
Definition make_one_child (to_delete : Z) : Rb unit :=
  l ← load rb_left to_delete;
  r ← load rb_right to_delete;
  if negb (is_null l) && negb (is_null r) then
    smright ← follow rb_left r;
    swap_places to_delete smright
  else mret tt.

(** It is replaced with its child, which is returned. *)
Definition unlink_node (to_delete : Z) : Rb Z :=
  l ← load rb_left to_delete;
  r ← load rb_right to_delete;
  st_assert (is_null l || is_null r);;
  let child := if negb (is_null l) then l else r in
  parent ← load rb_parent to_delete;
  change_parent_ptr parent to_delete child;;
  parent ← load rb_parent to_delete;
  change_child_ptr child to_delete parent;;
  mret child.

Definition recolor_child (to_delete child : Z) : Rb unit :=
  c ← load rb_color to_delete;
  if is_red c then mret tt
  else
    cc ← load rb_color child;
    if is_red cc then (if negb (is_null child) then update child (with_color BLACK) else mret tt)
    else parent ← load rb_parent to_delete; rbtree_delete_fixup child parent.

Definition unlink_completely (to_delete : Z) : Rb unit :=
  update to_delete (with_parent RBTREE_NULL);;
  update to_delete (with_left RBTREE_NULL);;
  update to_delete (with_right RBTREE_NULL);;
  update to_delete (with_color BLACK).

Definition rbtree_delete (key : K) : Rb (option Z) :=
  found ← rbtree_search key;
  match found with
  | None => mret None
  | Some to_delete =>
      set_count (fun n => n - 1);;
      make_one_child to_delete;;
      child ← unlink_node to_delete;
      recolor_child to_delete child;;
      unlink_completely to_delete;;
      mret (Some to_delete)
  end.
End rbtree.
