(* ===== verification/RbtreeShape.v ===== *)
(** The red-black tree of Rbtree.v as a tree: how nodes in memory represent
    one, and that rotations, colors and new leaves change what they should. *)

From S2P Require Import Prelude Dname DnamePacket Namedb Rbtree.

(** * Trees, and trees with a hole *)
Section shape.
Context {K V : Type}.

Inductive tree := Leaf | Node (c : rbcolor) (l : tree) (p : Z) (i : K * V) (r : tree).
Definition ptr (t : tree) : Z := match t with Leaf => RBTREE_NULL | Node _ _ p _ _ => p end.
Definition color (t : tree) : rbcolor := match t with Leaf => BLACK | Node c _ _ _ _ => c end.

(** The nodes in order. *)
Fixpoint elems (t : tree) : list (Z * (K * V)) :=
  match t with Leaf => [] | Node _ l p i r => elems l ++ (p, i) :: elems r end.

(** The hole is the left or the right child of the node. *)
Inductive frame := InLeft (c : rbcolor) (p : Z) (i : K * V) (r : tree) | InRight (c : rbcolor) (l : tree) (p : Z) (i : K * V).
Definition fptr (f : frame) : Z := match f with InLeft _ p _ _ | InRight _ _ p _ => p end.
Definition fcolor (f : frame) : rbcolor := match f with InLeft c _ _ _ | InRight c _ _ _ => c end.
Definition sibling (f : frame) : tree := match f with InLeft _ _ _ r => r | InRight _ l _ _ => l end.
Definition plug (t : tree) (f : frame) : tree :=
  match f with InLeft c p i r => Node c t p i r | InRight c l p i => Node c l p i t end.

(** The innermost node first. *)
Definition context := list frame.
Definition fill (ctx : context) (t : tree) : tree := foldl plug t ctx.
Definition top_from (outer : Z) (ctx : context) : Z := match ctx with [] => outer | f :: _ => fptr f end.
Abbreviation top := (top_from RBTREE_NULL).
Fixpoint root_from (ctx : context) (hole : Z) : Z := match ctx with [] => hole | f :: ctx => root_from ctx (fptr f) end.

Definition before1 (f : frame) : list (Z * (K * V)) := match f with InLeft _ _ _ _ => [] | InRight _ l p i => elems l ++ [(p, i)] end.
Definition after1 (f : frame) : list (Z * (K * V)) := match f with InLeft _ p i r => (p, i) :: elems r | InRight _ _ _ _ => [] end.
Fixpoint before (ctx : context) := match ctx with [] => [] | f :: ctx => before ctx ++ before1 f end.
Fixpoint after (ctx : context) := match ctx with [] => [] | f :: ctx => after1 f ++ after ctx end.
Definition around_hole (ctx : context) : list (Z * (K * V)) := before ctx ++ after ctx.

Lemma elems_plug t f : elems (plug t f) = before1 f ++ elems t ++ after1 f.
Proof using. destruct f; cbn; by rewrite <-?app_assoc, ?app_nil_r. Qed.
Lemma elems_fill ctx : forall t, elems (fill ctx t) = before ctx ++ elems t ++ after ctx.
Proof using.
  induction ctx as [|f ctx IH]; intros t; cbn; [by rewrite app_nil_r|].
  change (foldl plug (plug t f) ctx) with (fill ctx (plug t f)). by rewrite IH, elems_plug, <-!app_assoc.
Qed.
Lemma fill_app a b t : fill (a ++ b) t = fill b (fill a t).
Proof using. apply foldl_app. Qed.
Lemma ptr_fill ctx t : ptr (fill ctx t) = root_from ctx (ptr t).
Proof using. revert t. induction ctx as [|f ctx IH]; intros t; [done|]. etransitivity; [apply (IH (plug t f))|by destruct f]. Qed.

(** * In memory *)
Fixpoint tree_at (h : gmap Z (@rbnode K V)) (parent : Z) (t : tree) : Prop :=
  match t with
  | Leaf => True
  | Node c l p i r => h !! p = Some (mkrbnode parent (ptr l) (ptr r) (Some i) c) /\ tree_at h p l /\ tree_at h p r
  end.

(** The node of the frame, and its other child. *)
Definition frame_at (h : gmap Z (@rbnode K V)) (parent hole : Z) (f : frame) : Prop :=
  match f with
  | InLeft c p i r => h !! p = Some (mkrbnode parent hole (ptr r) (Some i) c) /\ tree_at h p r
  | InRight c l p i => h !! p = Some (mkrbnode parent (ptr l) hole (Some i) c) /\ tree_at h p l
  end.
Fixpoint context_at (h : gmap Z (@rbnode K V)) (outer hole : Z) (ctx : context) : Prop :=
  match ctx with
  | [] => True
  | f :: ctx => frame_at h (top_from outer ctx) hole f /\ context_at h outer (fptr f) ctx
  end.

Abbreviation addresses l := (map fst l).
Abbreviation ptrs t := (addresses (elems t)).
Abbreviation cptrs ctx := (addresses (around_hole ctx)).

(** The tree with the focus [t] in its context. *)
Record zipped (s : @rbtree K V) (ctx : context) (t : tree) : Prop := {
  z_null : rb_nodes s !! RBTREE_NULL = Some rbtree_null_node;
  z_tree : tree_at (rb_nodes s) (top ctx) t;
  z_context : context_at (rb_nodes s) RBTREE_NULL (ptr t) ctx;
  z_root : rb_root s = root_from ctx (ptr t);
  z_distinct : NoDup (RBTREE_NULL :: ptrs t ++ cptrs ctx);
}.

Lemma around_perm f ctx t : elems (plug t f) ++ around_hole ctx ≡ₚ elems t ++ around_hole (f :: ctx).
Proof using. unfold around_hole. rewrite elems_plug. destruct f; cbn [before after before1 after1]; solve_Permutation. Qed.

Lemma cptrs_cons f ctx : cptrs (f :: ctx) ≡ₚ fptr f :: ptrs (sibling f) ++ cptrs ctx.
Proof using. unfold around_hole. cbn. rewrite !map_app. destruct f; cbn; rewrite ?map_app; cbn; solve_Permutation. Qed.

Lemma zipped_plug s ctx t f : zipped s (f :: ctx) t <-> zipped s ctx (plug t f).
Proof using.
  assert (Hperm : ptrs (plug t f) ++ cptrs ctx ≡ₚ ptrs t ++ cptrs (f :: ctx)) by (rewrite <-!map_app; by rewrite around_perm).
  split; intros [H1 H2 H3 H4 H5]; split; try done.
  - destruct f; cbn in *; naive_solver.
  - cbn in H3. by destruct f, H3.
  - rewrite H4. by destruct f.
  - by rewrite Hperm.
  - cbn in *. destruct f; cbn in *; naive_solver.
  - cbn. split; [|by destruct f]. destruct f; cbn in *; naive_solver.
  - rewrite H4. by destruct f.
  - by rewrite <-Hperm.
Qed.
Lemma zipped_fill ctx' s ctx t : zipped s (ctx' ++ ctx) t <-> zipped s ctx (fill ctx' t).
Proof using. revert t. induction ctx' as [|f ctx' IH]; intros t; [done|]. cbn [app]. by rewrite zipped_plug, IH. Qed.

(** ** Frames *)
Lemma tree_at_frame h h' t : forall parent, (forall p, p ∈ ptrs t -> h' !! p = h !! p) -> tree_at h parent t -> tree_at h' parent t.
Proof using.
  induction t as [|c l IHl p i r IHr]; intros parent Hf; [done|]. cbn. intros (H1 & H2 & H3). cbn in Hf. rewrite map_app in Hf.
  split_and!; [rewrite Hf; [done|set_solver]|apply IHl; [set_solver|done]|apply IHr; [set_solver|done]].
Qed.
Lemma context_at_frame h h' outer ctx : forall hole, (forall p, p ∈ cptrs ctx -> h' !! p = h !! p) ->
  context_at h outer hole ctx -> context_at h' outer hole ctx.
Proof using.
  induction ctx as [|f ctx IH]; intros hole Hf; [done|]. unfold around_hole in Hf. cbn [context_at before after] in *.
  rewrite !map_app in Hf. intros [H1 H2]. split; [|apply IH; [|done]].
  - destruct f; cbn in *; destruct H1 as [H1 H3]; (split; [rewrite Hf; [done|set_solver]|]);
      (eapply tree_at_frame; [|done]; intros q Hq; apply Hf; set_solver).
  - intros q Hq. apply Hf. unfold around_hole in Hq. rewrite map_app in Hq. set_solver.
Qed.

Lemma node_at h parent t : h !! RBTREE_NULL = Some rbtree_null_node -> tree_at h parent t -> exists n, h !! ptr t = Some n /\ rb_color n = color t.
Proof using. destruct t as [|c l p i r]; cbn; [by eexists|intros _ (H & _)]. by eexists. Qed.

(** ** Reading and writing *)
Lemma wp_load {A} (field : @rbnode K V -> A) p n (s : @rbtree K V) (Q : A -> @rbtree K V -> Prop) :
  rb_nodes s !! p = Some n -> Q (field n) s -> wp (load field p) Q s.
Proof using. intros Hp HQ. unfold load. wp_step. wp_step. wp_step. apply (wp_lift _ n); [by rewrite Hp|]. by wp_step. Qed.
Lemma wp_update_node p f n (s : @rbtree K V) (Q : unit -> @rbtree K V -> Prop) :
  rb_nodes s !! p = Some n -> Q tt (store_node p (f n) s) -> wp (update p f) Q s.
Proof using. intros Hp HQ. unfold update. wp_step. eapply wp_load; [done|]. by wp_step. Qed.
Lemma wp_root_of (s : @rbtree K V) (Q : Z -> @rbtree K V -> Prop) : Q (rb_root s) s -> wp root_of Q s.
Proof using. intros HQ. unfold root_of. by do 2 wp_step. Qed.
Lemma wp_set_root p (s : @rbtree K V) (Q : unit -> @rbtree K V -> Prop) : Q tt (mkrbtree (rb_nodes s) p (rb_count s)) -> wp (set_root p) Q s.
Proof using. intros HQ. unfold set_root. by wp_step. Qed.

Lemma insert_frame {A} (h : gmap Z A) p n q : q <> p -> <[p := n]> h !! q = h !! q.
Proof using. intros H. by rewrite lookup_insert_ne. Qed.

(** The nodes of the tree alone may change. *)
Definition whole (ctx : context) (t : tree) : list (Z * (K * V)) := elems (fill ctx t).
Record changed (s s' : @rbtree K V) (es : list (Z * (K * V))) : Prop := {
  ch_count : rb_count s' = rb_count s;
  ch_dom : dom (rb_nodes s') = dom (rb_nodes s);
  ch_rest q : q ∉ addresses es -> rb_nodes s' !! q = rb_nodes s !! q;
}.
Lemma changed_refl s es : changed s s es.
Proof using. done. Qed.
Lemma changed_trans s1 s2 s3 es : changed s1 s2 es -> changed s2 s3 es -> changed s1 s3 es.
Proof using. intros [A1 A2 A3] [B1 B2 B3]. split; [congruence|congruence|]. intros q Hq. by rewrite B3, A3. Qed.

Lemma elem_whole x ctx t : x ∈ addresses (whole ctx t) <-> x ∈ ptrs t \/ x ∈ cptrs ctx.
Proof using. unfold whole, around_hole. rewrite elems_fill, !map_app. set_solver. Qed.
Lemma whole_plug ctx f t : whole (f :: ctx) t = whole ctx (plug t f).
Proof using. done. Qed.

Lemma ptr_elem t : t <> Leaf -> ptr t ∈ ptrs t.
Proof using. destruct t; [done|]. intros _. cbn. rewrite map_app. set_solver. Qed.
Lemma top_elem ctx : ctx <> [] -> top ctx ∈ cptrs ctx.
Proof using. destruct ctx as [|f ctx]; [done|]. intros _. unfold around_hole. cbn. rewrite !map_app. destruct f; cbn; rewrite ?map_app; set_solver. Qed.

(** ** A child gets a parent, a parent a child *)
Definition parented (t : tree) (q : Z) (s : @rbtree K V) : @rbtree K V :=
  match t, rb_nodes s !! ptr t with Node _ _ _ _ _, Some n => store_node (ptr t) (with_parent q n) s | _, _ => s end.
Definition with_hole (f : frame) (q : Z) (n : @rbnode K V) : @rbnode K V :=
  match f with InLeft _ _ _ _ => with_left q n | InRight _ _ _ _ => with_right q n end.
Definition linked (ctx : context) (q : Z) (s : @rbtree K V) : @rbtree K V :=
  match ctx with
  | [] => mkrbtree (rb_nodes s) q (rb_count s)
  | f :: _ => match rb_nodes s !! fptr f with Some n => store_node (fptr f) (with_hole f q n) s | None => s end
  end.

Lemma lookup_parented t q s x : ~ x ∈ ptrs t -> rb_nodes (parented t q s) !! x = rb_nodes s !! x.
Proof using.
  intros Hx. unfold parented. destruct t as [|c l p i r]; [done|]. destruct (rb_nodes s !! _); [|done]. cbn. apply insert_frame.
  intros ->. by apply Hx, (ptr_elem (Node c l p i r)).
Qed.
Lemma lookup_linked ctx q s x : ~ x ∈ cptrs ctx -> rb_nodes (linked ctx q s) !! x = rb_nodes s !! x.
Proof using.
  intros Hx. unfold linked. destruct ctx as [|f ctx]; [done|]. destruct (rb_nodes s !! _); [|done]. cbn. apply insert_frame.
  intros ->. by apply Hx, (top_elem (f :: ctx)).
Qed.
Lemma root_parented t q s : rb_root (parented t q s) = rb_root s /\ rb_count (parented t q s) = rb_count s.
Proof using. unfold parented. destruct t; [done|]. by destruct (rb_nodes s !! _). Qed.
Lemma count_linked ctx q s : rb_count (linked ctx q s) = rb_count s.
Proof using. unfold linked. destruct ctx as [|f ctx]; [done|]. by destruct (rb_nodes s !! _). Qed.
Lemma root_linked ctx q s : rb_root (linked ctx q s) = match ctx with [] => q | _ => rb_root s end.
Proof using. unfold linked. destruct ctx as [|f ctx]; [done|]. by destruct (rb_nodes s !! _). Qed.
Lemma dom_parented t q s : dom (rb_nodes (parented t q s)) = dom (rb_nodes s).
Proof using.
  unfold parented. destruct t; [done|]. destruct (rb_nodes s !! _) eqn:E; [|done]. cbn. apply elem_of_dom_2 in E. rewrite dom_insert_L. set_solver.
Qed.
Lemma dom_linked ctx q s : dom (rb_nodes (linked ctx q s)) = dom (rb_nodes s).
Proof using.
  unfold linked. destruct ctx as [|f ctx]; [done|]. destruct (rb_nodes s !! _) eqn:E; [|done]. cbn. apply elem_of_dom_2 in E. rewrite dom_insert_L. set_solver.
Qed.
Lemma dom_store p n n' (s : @rbtree K V) : rb_nodes s !! p = Some n -> dom (rb_nodes (store_node p n' s)) = dom (rb_nodes s).
Proof using. intros E. cbn. apply elem_of_dom_2 in E. rewrite dom_insert_L. set_solver. Qed.

(** What only nodes of the tree are written to changes nothing else. *)
Lemma changed_store s0 s es p n n' : changed s0 s es -> p ∈ addresses es -> rb_nodes s0 !! p = Some n -> changed s0 (store_node p n' s) es.
Proof using.
  intros [H1 H2 H3] Hp Hn. split; [done| |].
  - cbn. rewrite dom_insert_L, H2. apply elem_of_dom_2 in Hn. set_solver.
  - intros x Hx. cbn. rewrite insert_frame; [by apply H3|]. by intros ->.
Qed.
Lemma changed_parented s0 s es t q : changed s0 s es -> ptrs t ⊆ addresses es -> changed s0 (parented t q s) es.
Proof using.
  intros [H1 H2 H3] Ht. destruct (root_parented t q s) as [_ Hc]. split; [by rewrite Hc|by rewrite dom_parented|].
  intros x Hx. rewrite lookup_parented; [by apply H3|]. intros Hx'. by apply Hx, Ht.
Qed.
Lemma changed_linked s0 s es ctx q : changed s0 s es -> cptrs ctx ⊆ addresses es -> changed s0 (linked ctx q s) es.
Proof using.
  intros [H1 H2 H3] Ht. split; [by rewrite count_linked|by rewrite dom_linked|].
  intros x Hx. rewrite lookup_linked; [by apply H3|]. intros Hx'. by apply Hx, Ht.
Qed.

Lemma tree_at_parented t q s parent : NoDup (ptrs t) -> tree_at (rb_nodes s) parent t -> tree_at (rb_nodes (parented t q s)) q t.
Proof using.
  destruct t as [|c l p i r]; [done|]. intros Hd (H1 & H2 & H3). unfold parented. cbn [ptr]. rewrite H1. cbn in *.
  rewrite map_app in Hd. cbn in Hd. rewrite <-Permutation_middle in Hd. apply NoDup_cons in Hd as [Hd _].
  split_and!; [by rewrite lookup_insert_eq|..]; (eapply tree_at_frame; [|done]); intros x Hx; apply insert_frame; set_solver.
Qed.
Lemma context_at_linked ctx outer hole q s : NoDup (cptrs ctx) -> context_at (rb_nodes s) outer hole ctx ->
  context_at (rb_nodes (linked ctx q s)) outer q ctx.
Proof using.
  destruct ctx as [|f ctx]; [done|]. intros Hd [H1 H2]. unfold linked.
  rewrite cptrs_cons in Hd. apply NoDup_cons in Hd as [Hf _].
  assert (Hn : exists n, rb_nodes s !! fptr f = Some n) by (destruct f; cbn in *; destruct H1; by eexists).
  destruct Hn as [n Hn]. rewrite Hn. cbn [context_at]. split.
  - destruct f as [c p i r|c l p i]; cbn in *; destruct H1 as [H1 H3]; rewrite H1 in Hn; injection Hn as <-; rewrite lookup_insert_eq;
      (split; [done|]); (eapply tree_at_frame; [|done]); intros x Hx; apply insert_frame; set_solver.
  - eapply context_at_frame; [|done]. intros x Hx. cbn. apply insert_frame. set_solver.
Qed.

(** ** Painting the focus *)
Lemma wp_paint (s : @rbtree K V) ctx c c' l p i r (Q : unit -> @rbtree K V -> Prop) : zipped s ctx (Node c l p i r) ->
  (forall s', zipped s' ctx (Node c' l p i r) -> changed s s' (whole ctx (Node c l p i r)) -> Q tt s') ->
  wp (update p (with_color c')) Q s.
Proof using.
  intros [H1 H2 H3 H4 H5] HQ. cbn in H2. destruct H2 as (Hp & Hl & Hr). eapply wp_update_node; [done|]. apply HQ.
  - pose proof H5 as Hn. cbn in Hn. rewrite map_app in Hn. cbn in Hn.
    assert (E : RBTREE_NULL :: (ptrs l ++ p :: ptrs r) ++ cptrs ctx ≡ₚ p :: RBTREE_NULL :: ptrs l ++ ptrs r ++ cptrs ctx) by solve_Permutation.
    rewrite E in Hn. apply NoDup_cons in Hn as [Hn _]. split; cbn.
    + rewrite insert_frame; [done|set_solver].
    + split_and!; [by rewrite lookup_insert_eq|..]; (eapply tree_at_frame; [|done]); intros q Hq; apply insert_frame; set_solver.
    + eapply context_at_frame; [|done]. intros q Hq. apply insert_frame. set_solver.
    + done.
    + exact H5.
  - split; [done|by eapply dom_store|]. intros q Hq. cbn. apply insert_frame. intros ->. apply Hq, elem_whole. left. cbn.
    rewrite map_app. set_solver.
Qed.

(** ** Pointers to the focus *)
Lemma wp_parent_child t q (s : @rbtree K V) parent (Q : unit -> @rbtree K V -> Prop) : tree_at (rb_nodes s) parent t ->
  ~ (RBTREE_NULL ∈ ptrs t) -> Q tt (parented t q s) ->
  wp (if negb (is_null (ptr t)) then update (ptr t) (with_parent q) else mret tt) Q s.
Proof using.
  intros Ht Hn HQ. unfold is_null. destruct t as [|c l p i r]; [done|]. cbn in Hn. rewrite map_app in Hn. cbn [ptr].
  rewrite (proj2 (Z.eqb_neq p RBTREE_NULL)) by set_solver. cbn [negb]. destruct Ht as (H1 & _). eapply wp_update_node; [done|].
  unfold parented in HQ. cbn [ptr] in HQ. by rewrite H1 in HQ.
Qed.

Lemma top_not_null ctx : NoDup (RBTREE_NULL :: cptrs ctx) -> is_null (top ctx) = bool_decide (ctx = []).
Proof using.
  intros [H _]%NoDup_cons. unfold is_null. destruct ctx as [|f ctx]; [done|]. rewrite bool_decide_false by done. apply Z.eqb_neq.
  intros E. apply H. rewrite <-E. by apply top_elem.
Qed.

(** The pointer to [hole] in the parent, or in the tree itself, which the code
    finds by looking at the left or at the right child. *)
Section relink.
Context (s : @rbtree K V) (ctx : context) (hole q : Z) (Q : unit -> @rbtree K V -> Prop).
Context (Hat : context_at (rb_nodes s) RBTREE_NULL hole ctx) (Hd : NoDup (RBTREE_NULL :: cptrs ctx)).
Context (Hhole : hole <> RBTREE_NULL) (Hout : ~ (hole ∈ cptrs ctx)) (HQ : Q tt (linked ctx q s)).

Lemma hole_not_sibling f ctx' : ctx = f :: ctx' -> ptr (sibling f) <> hole.
Proof using Hhole Hout.
  intros Ec E. assert (Hno : ~ (hole ∈ cptrs (f :: ctx'))) by congruence. rewrite cptrs_cons in Hno. destruct (sibling f) as [|c l p i r] eqn:Ef; [done|]. apply Hno.
  apply elem_of_cons. right. apply elem_of_app. left. rewrite <-E. by apply ptr_elem.
Qed.

Lemma wp_relink_left :
  wp (if negb (is_null (top ctx)) then
        pl ← load rb_left (top ctx);
        if hole =? pl then update (top ctx) (with_left q) else update (top ctx) (with_right q)
      else set_root q) Q s.
Proof using All.
  rewrite (top_not_null ctx Hd). pose proof hole_not_sibling as Hsib. destruct ctx as [|f ctx'] eqn:Ec.
  { rewrite bool_decide_true by done. by apply wp_set_root. }
  rewrite bool_decide_false by done. cbn [negb top_from]. specialize (Hsib f ctx' eq_refl).
  destruct Hat as [H1 _]. unfold linked in HQ. wp_step.
  destruct f as [c p i r|c l p i]; cbn in H1, Hsib, HQ |- *; destruct H1 as [H1 _]; rewrite H1 in HQ; (eapply wp_load; [exact H1|]); cbn [rb_left].
  - rewrite Z.eqb_refl. by eapply wp_update_node.
  - rewrite (proj2 (Z.eqb_neq _ _)) by congruence. by eapply wp_update_node.
Qed.
Lemma wp_relink_right :
  wp (if negb (is_null (top ctx)) then
        pr ← load rb_right (top ctx);
        if hole =? pr then update (top ctx) (with_right q) else update (top ctx) (with_left q)
      else set_root q) Q s.
Proof using All.
  rewrite (top_not_null ctx Hd). pose proof hole_not_sibling as Hsib. destruct ctx as [|f ctx'] eqn:Ec.
  { rewrite bool_decide_true by done. by apply wp_set_root. }
  rewrite bool_decide_false by done. cbn [negb top_from]. specialize (Hsib f ctx' eq_refl).
  destruct Hat as [H1 _]. unfold linked in HQ. wp_step.
  destruct f as [c p i r|c l p i]; cbn in H1, Hsib, HQ |- *; destruct H1 as [H1 _]; rewrite H1 in HQ; (eapply wp_load; [exact H1|]); cbn [rb_right].
  - rewrite (proj2 (Z.eqb_neq _ _)) by congruence. by eapply wp_update_node.
  - rewrite Z.eqb_refl. by eapply wp_update_node.
Qed.
End relink.

Lemma nodup_perm (l l' : list Z) : l ≡ₚ l' -> NoDup l -> NoDup l'.
Proof using. by intros ->. Qed.

(** Two nodes, three subtrees and a context that share no address. *)
Record apart (ctx : context) (p q : Z) (a b d : tree) : Prop := {
  ap_null : p <> RBTREE_NULL /\ q <> RBTREE_NULL /\ p <> q;
  ap_p : ~ (p ∈ ptrs a ++ ptrs b ++ ptrs d ++ cptrs ctx);
  ap_q : ~ (q ∈ ptrs a ++ ptrs b ++ ptrs d ++ cptrs ctx);
  ap_none : ~ (RBTREE_NULL ∈ ptrs a ++ ptrs b ++ ptrs d ++ cptrs ctx);
  ap_rest : NoDup (ptrs a ++ ptrs b ++ ptrs d ++ cptrs ctx);
}.
Lemma nodup_apart ctx p q a b d : NoDup (RBTREE_NULL :: p :: q :: ptrs a ++ ptrs b ++ ptrs d ++ cptrs ctx) <-> apart ctx p q a b d.
Proof using. rewrite !NoDup_cons. split; [intros (? & ? & ? & ?); split; set_solver|]. intros [(? & ? & ?) ? ? ? ?]. set_solver. Qed.

Lemma nodup_parts (A B C D : list Z) : NoDup (A ++ B ++ C ++ D) ->
  (NoDup A /\ NoDup B /\ NoDup C /\ NoDup D) /\
  forall x, (x ∈ A -> ~ x ∈ B /\ ~ x ∈ C /\ ~ x ∈ D) /\ (x ∈ B -> ~ x ∈ C /\ ~ x ∈ D) /\ (x ∈ C -> ~ x ∈ D).
Proof using. rewrite !NoDup_app. intros (? & ? & ? & ? & ? & ? & ?). split; [done|]. intros x. set_solver. Qed.

(** An address of one of the parts is none of the others. *)
Lemma apart_elem ctx p q a b d x : apart ctx p q a b d ->
  (x ∈ ptrs a \/ x ∈ ptrs b \/ x ∈ ptrs d \/ x ∈ cptrs ctx -> x <> RBTREE_NULL /\ x <> p /\ x <> q) /\
  (x ∈ ptrs a -> ~ x ∈ ptrs b /\ ~ x ∈ ptrs d /\ ~ x ∈ cptrs ctx) /\ (x ∈ ptrs b -> ~ x ∈ ptrs d /\ ~ x ∈ cptrs ctx) /\
  (x ∈ ptrs d -> ~ x ∈ cptrs ctx).
Proof using.
  intros [_ Nop Noq Nnull Nrest]. rewrite !elem_of_app in Nop, Noq, Nnull. destruct (nodup_parts _ _ _ _ Nrest) as [_ Hparts].
  specialize (Hparts x). split; [|tauto]. intros Hx. split_and!; intros ->; tauto.
Qed.

End shape.

Abbreviation top := (top_from RBTREE_NULL).
Abbreviation addresses l := (map fst l).
Abbreviation ptrs t := (addresses (elems t)).
Abbreviation cptrs ctx := (addresses (around_hole ctx)).

(** The lookup of a pointer through the changes of other nodes. *)
Ltac at_ptr := cbn [rb_nodes store_node]; first
  [ eassumption
  | reflexivity
  | rewrite lookup_insert_eq; reflexivity
  | rewrite insert_frame by (tauto || congruence); at_ptr
  | rewrite lookup_parented by tauto; at_ptr
  | rewrite lookup_linked by tauto; at_ptr ].

(** * Rotations *)
Section rotate.
Context {K V : Type}.
Abbreviation tree := (@tree K V).
Implicit Types (t a b d : tree) (s : @rbtree K V).

Lemma within_rotation ctx t p q A B D : ptrs t = A ++ p :: B ++ q :: D ->
  p ∈ addresses (whole ctx t) /\ q ∈ addresses (whole ctx t) /\ B ⊆ addresses (whole ctx t) /\ cptrs ctx ⊆ addresses (whole ctx t).
Proof using.
  intros E. assert (H : forall x, x ∈ A ++ p :: B ++ q :: D -> x ∈ addresses (whole ctx t)) by (intros x Hx; apply elem_whole; left; by rewrite E).
  split_and!; [apply H; set_solver|apply H; set_solver|intros x Hx; apply H; set_solver|intros x Hx; apply elem_whole; by right].
Qed.

Lemma wp_rotate_left s ctx c a p i c2 b q j d (Q : unit -> @rbtree K V -> Prop) :
  zipped s ctx (Node c a p i (Node c2 b q j d)) ->
  (forall s', zipped s' ctx (Node c2 (Node c a p i b) q j d) ->
     changed s s' (whole ctx (Node c a p i (Node c2 b q j d))) -> Q tt s') ->
  wp (rbtree_rotate_left p) Q s.
Proof using.
  intros [H1 H2 H3 H4 H5] HQ. cbn in H2. destruct H2 as (Hp & Ha & Hq & Hb & Hd).
  assert (N : apart ctx p q a b d).
  { apply nodup_apart. eapply nodup_perm; [|exact H5]. cbn. rewrite !map_app. cbn. rewrite map_app. cbn. solve_Permutation. }
  pose proof N as [(Np & Nq & Npq) Nop Noq Nnull Nrest]. rewrite !elem_of_app in Nop, Noq, Nnull.
  destruct (nodup_parts _ _ _ _ Nrest) as [(_ & NDb & _ & NDc) _].
  assert (Nctx : NoDup (RBTREE_NULL :: cptrs ctx)) by (apply NoDup_cons; tauto).
  assert (Hel := fun x => apart_elem ctx p q a b d x N).
  unfold rbtree_rotate_left. wp_step. eapply wp_load; [at_ptr|]. cbn [rb_right]. wp_step. eapply wp_load; [at_ptr|]. cbn [rb_left].
  wp_step. eapply wp_update_node; [at_ptr|]. wp_step. eapply wp_load; [at_ptr|]. cbn [rb_left].
  wp_step. apply (wp_parent_child b p _ q); [eapply tree_at_frame; [|exact Hb]; intros x Hx; specialize (Hel x); at_ptr|tauto|].
  wp_step. eapply wp_load; [at_ptr|]. cbn [rb_parent with_right]. wp_step. eapply wp_update_node; [at_ptr|].
  wp_step. eapply wp_load; [at_ptr|]. cbn [rb_parent with_right].
  wp_step. apply (wp_relink_left _ ctx p q); [|done|done|tauto|].
  { eapply context_at_frame; [|exact H3]. intros x Hx. specialize (Hel x). at_ptr. }
  wp_step. eapply wp_update_node; [at_ptr|]. eapply wp_update_node; [at_ptr|]. apply HQ.
  - split.
    + at_ptr.
    + cbn [tree_at ptr]. split_and!; [at_ptr|at_ptr| | |].
      * eapply tree_at_frame; [|exact Ha]. intros x Hx. specialize (Hel x). at_ptr.
      * eapply tree_at_frame; [|apply (tree_at_parented b p (store_node p (mkrbnode (top ctx) (ptr a) (ptr b) (Some i) c) s) q NDb)].
        -- intros x Hx. specialize (Hel x). at_ptr.
        -- eapply tree_at_frame; [|exact Hb]. intros x Hx. specialize (Hel x). at_ptr.
      * eapply tree_at_frame; [|exact Hd]. intros x Hx. specialize (Hel x). at_ptr.
    + eapply context_at_frame; [|eapply (context_at_linked ctx RBTREE_NULL p q _ NDc)].
      * intros x Hx. specialize (Hel x). cbn [rb_nodes store_node]. rewrite !insert_frame by tauto. reflexivity.
      * eapply context_at_frame; [|exact H3]. intros x Hx. specialize (Hel x). at_ptr.
    + cbn. rewrite root_linked. destruct ctx as [|f ctx]; [done|]. cbn. rewrite (proj1 (root_parented _ _ _)). exact H4.
    + eapply nodup_perm; [|exact H5]. cbn. rewrite !map_app. cbn. rewrite !map_app. cbn. solve_Permutation.
  - destruct (within_rotation ctx (Node c a p i (Node c2 b q j d)) p q (ptrs a) (ptrs b) (ptrs d)) as (? & ? & ? & ?).
    { cbn. rewrite !map_app. cbn. by rewrite map_app. }
    repeat first [apply changed_refl | eapply changed_store | eapply changed_parented | eapply changed_linked]; eassumption.
Qed.
Lemma wp_rotate_right s ctx c a p i c2 b q j d (Q : unit -> @rbtree K V -> Prop) :
  zipped s ctx (Node c (Node c2 d q j b) p i a) ->
  (forall s', zipped s' ctx (Node c2 d q j (Node c b p i a)) ->
     changed s s' (whole ctx (Node c (Node c2 d q j b) p i a)) -> Q tt s') ->
  wp (rbtree_rotate_right p) Q s.
Proof using.
  intros [H1 H2 H3 H4 H5] HQ. cbn in H2. destruct H2 as (Hp & (Hq & Hd & Hb) & Ha).
  assert (N : apart ctx p q a b d).
  { apply nodup_apart. eapply nodup_perm; [|exact H5]. cbn. rewrite !map_app. cbn. solve_Permutation. }
  pose proof N as [(Np & Nq & Npq) Nop Noq Nnull Nrest]. rewrite !elem_of_app in Nop, Noq, Nnull.
  destruct (nodup_parts _ _ _ _ Nrest) as [(_ & NDb & _ & NDc) _].
  assert (Nctx : NoDup (RBTREE_NULL :: cptrs ctx)) by (apply NoDup_cons; tauto).
  assert (Hel := fun x => apart_elem ctx p q a b d x N).
  unfold rbtree_rotate_right. wp_step. eapply wp_load; [at_ptr|]. cbn [rb_left]. wp_step. eapply wp_load; [at_ptr|]. cbn [rb_right].
  wp_step. eapply wp_update_node; [at_ptr|]. wp_step. eapply wp_load; [at_ptr|]. cbn [rb_right].
  wp_step. apply (wp_parent_child b p _ q); [eapply tree_at_frame; [|exact Hb]; intros x Hx; specialize (Hel x); at_ptr|tauto|].
  wp_step. eapply wp_load; [at_ptr|]. cbn [rb_parent with_left]. wp_step. eapply wp_update_node; [at_ptr|].
  wp_step. eapply wp_load; [at_ptr|]. cbn [rb_parent with_left].
  wp_step. apply (wp_relink_right _ ctx p q); [|done|done|tauto|].
  { eapply context_at_frame; [|exact H3]. intros x Hx. specialize (Hel x). at_ptr. }
  wp_step. eapply wp_update_node; [at_ptr|]. eapply wp_update_node; [at_ptr|]. apply HQ.
  - split.
    + at_ptr.
    + cbn [tree_at ptr]. split_and!; [at_ptr| |at_ptr| |].
      * eapply tree_at_frame; [|exact Hd]. intros x Hx. specialize (Hel x). at_ptr.
      * eapply tree_at_frame; [|apply (tree_at_parented b p (store_node p (mkrbnode (top ctx) (ptr b) (ptr a) (Some i) c) s) q NDb)].
        -- intros x Hx. specialize (Hel x). at_ptr.
        -- eapply tree_at_frame; [|exact Hb]. intros x Hx. specialize (Hel x). at_ptr.
      * eapply tree_at_frame; [|exact Ha]. intros x Hx. specialize (Hel x). at_ptr.
    + eapply context_at_frame; [|eapply (context_at_linked ctx RBTREE_NULL p q _ NDc)].
      * intros x Hx. specialize (Hel x). cbn [rb_nodes store_node]. rewrite !insert_frame by tauto. reflexivity.
      * eapply context_at_frame; [|exact H3]. intros x Hx. specialize (Hel x). at_ptr.
    + cbn. rewrite root_linked. destruct ctx as [|f ctx]; [done|]. cbn. rewrite (proj1 (root_parented _ _ _)). exact H4.
    + eapply nodup_perm; [|exact H5]. cbn. rewrite !map_app. cbn. rewrite !map_app. cbn. solve_Permutation.
  - destruct (within_rotation ctx (Node c (Node c2 d q j b) p i a) q p (ptrs d) (ptrs b) (ptrs a)) as (? & ? & ? & ?).
    { cbn. rewrite !map_app. cbn. by rewrite <-app_assoc. }
    repeat first [apply changed_refl | eapply changed_store | eapply changed_parented | eapply changed_linked]; eassumption.
Qed.
End rotate.
