(* ===== verification/RbtreeBalance.v ===== *)
(** Balance of the trees of Rbtree.v: the red-black invariant, what it says
    of the height, and insertion's repair. *)

From S2P Require Import Prelude Dname DnamePacket Namedb Rbtree RbtreeShape.

(** * The invariant *)
Section balance.
Context {K V : Type}.
Abbreviation tree := (@tree K V).
Abbreviation context := (@context K V).
Abbreviation frame := (@frame K V).
Implicit Types (t l r a b d u : tree) (ctx : context) (f g : frame).

(** No red node below a red one, and [n] black nodes on every path. *)
Fixpoint rb (n : nat) (t : tree) : Prop :=
  match t with
  | Leaf => n = 0%nat
  | Node RED l _ _ r => color l = BLACK /\ color r = BLACK /\ rb n l /\ rb n r
  | Node BLACK l _ _ r => exists m, n = S m /\ rb m l /\ rb m r
  end.

(** The color above the hole; the root has to be black. *)
Definition color_above (ctx : context) : rbcolor := match ctx with [] => RED | f :: _ => fcolor f end.

(** A black tree of height [n] in the hole makes a whole one. *)
Fixpoint ctx_ok (n : nat) (ctx : context) : Prop :=
  match ctx with
  | [] => True
  | f :: ctx => rb n (sibling f) /\
      match fcolor f with
      | RED => color (sibling f) = BLACK /\ color_above ctx = BLACK /\ ctx_ok n ctx
      | BLACK => ctx_ok (S n) ctx
      end
  end.
Definition rb_root_ok (t : tree) : Prop := color t = BLACK /\ exists n, rb n t.

Lemma rb_fill ctx : forall n t, rb n t -> ctx_ok n ctx -> color t = BLACK \/ color_above ctx = BLACK -> rb_root_ok (fill ctx t).
Proof using.
  induction ctx as [|f ctx IH]; intros n t Ht Hctx Hc.
  { destruct Hc; [|done]. split; [done|by exists n]. }
  change (rb_root_ok (fill ctx (plug t f))). destruct Hctx as [Hs Hf]. destruct (fcolor f) eqn:Ef.
  - apply (IH (S n)); [|done|left; by destruct f]. destruct f; cbn in *; subst; by exists n.
  - destruct Hf as (Hcs & Ha & Hf). cbn in Hc. assert (Ht' : color t = BLACK) by (destruct Hc; congruence).
    apply (IH n); [|done|by right]. destruct f; cbn in *; subst; done.
Qed.

(** A tree of the invariant comes apart at any place. *)
Lemma rb_unfill ctx : forall t, rb_root_ok (fill ctx t) -> exists n, rb n t /\ ctx_ok n ctx /\ (color t = BLACK \/ color_above ctx = BLACK).
Proof using.
  induction ctx as [|f ctx IH]; intros t H.
  { destruct H as [Hc [n Hn]]. exists n. split_and!; [done|done|by left]. }
  change (rb_root_ok (fill ctx (plug t f))) in H. destruct (IH _ H) as (n & Hn & Hctx & Hc).
  destruct f as [[] p i r|[] l p i]; cbn in Hn.
  - destruct Hn as (m & -> & Hl & Hr). exists m. cbn. split_and!; [done..|by right].
  - destruct Hn as (Hcl & Hcr & Hl & Hr). exists n. cbn. split_and!; try done; [|by left]. by destruct Hc.
  - destruct Hn as (m & -> & Hl & Hr). exists m. cbn. split_and!; [done..|by right].
  - destruct Hn as (Hcl & Hcr & Hl & Hr). exists n. cbn. split_and!; try done; [|by left]. by destruct Hc.
Qed.

(** ** Height *)
Lemma rb_enough_nodes n t : rb n t -> (2 ^ n <= S (length (elems t)))%nat.
Proof using.
  revert n. induction t as [|[] l IHl p i r IHr]; intros n; cbn [rb elems].
  - intros ->. cbn. lia.
  - intros (m & -> & Hl & Hr). apply IHl in Hl. apply IHr in Hr. rewrite length_app. cbn [length]. cbn [Nat.pow]. lia.
  - intros (_ & _ & Hl & _). apply IHl in Hl. rewrite length_app. cbn [length]. lia.
Qed.

(** Above a tree of height [n], in a tree of height [m], there are twice as
    many nodes as black ones at most. *)
Lemma rb_depth ctx : forall n t, rb n t -> ctx_ok n ctx -> color t = BLACK \/ color_above ctx = BLACK ->
  exists m, rb m (fill ctx t) /\
    (length ctx + 2 * n + (if color_above ctx is RED then 0 else 1) <= 2 * m)%nat.
Proof using.
  induction ctx as [|f ctx IH]; intros n t Ht Hctx Hc.
  { exists n. split; [done|]. cbn. lia. }
  change (fill (f :: ctx) t) with (fill ctx (plug t f)). destruct Hctx as [Hs Hf]. cbn [color_above length]. destruct (fcolor f) eqn:Ef.
  - destruct (IH (S n) (plug t f)) as (m & Hm & Hle); [destruct f; cbn in *; subst; by exists n|done|left; by destruct f|].
    exists m. split; [done|]. destruct (color_above ctx); lia.
  - destruct Hf as (Hcs & Ha & Hf). cbn in Hc. assert (Ht' : color t = BLACK) by (destruct Hc; congruence).
    destruct (IH n (plug t f)) as (m & Hm & Hle); [destruct f; cbn in *; subst; done|done|by right|].
    exists m. split; [done|]. rewrite Ha in Hle. lia.
Qed.
Lemma rb_path ctx t : rb_root_ok (fill ctx t) -> (length ctx <= 2 * Nat.log2 (S (length (whole ctx t))))%nat.
Proof using.
  intros H. destruct (rb_unfill ctx t H) as (n & Hn & Hctx & Hc). destruct (rb_depth ctx n t Hn Hctx Hc) as (m & Hm & Hle).
  apply rb_enough_nodes in Hm. apply Nat.log2_le_mono in Hm. rewrite Nat.log2_pow2 in Hm by lia. unfold whole. destruct (color_above ctx); lia.
Qed.

(** * Reading around the focus *)
Lemma zipped_node s ctx c l p i r : zipped s ctx (Node c l p i r) ->
  rb_nodes s !! p = Some (mkrbnode (top_from RBTREE_NULL ctx) (ptr l) (ptr r) (Some i) c).
Proof using. intros H. by destruct (z_tree _ _ _ H). Qed.
Definition frame_node (ctx : context) (f : frame) (hole : Z) : @rbnode K V :=
  match f with
  | InLeft c p i r => mkrbnode (top_from RBTREE_NULL ctx) hole (ptr r) (Some i) c
  | InRight c l p i => mkrbnode (top_from RBTREE_NULL ctx) (ptr l) hole (Some i) c
  end.
Lemma zipped_frame s ctx f t : zipped s (f :: ctx) t -> rb_nodes s !! fptr f = Some (frame_node ctx f (ptr t)).
Proof using. intros H. destruct (z_context _ _ _ H) as [H' _]. by destruct f, H'. Qed.

(** The focus moves to the parent, or to the sibling. *)
Definition across (f : frame) (t : tree) : frame :=
  match f with InLeft c p i _ => InRight c t p i | InRight c _ p i => InLeft c p i t end.
Lemma zipped_across s ctx f t : zipped s (f :: ctx) t -> zipped s (across f t :: ctx) (sibling f).
Proof using. rewrite !zipped_plug. by destruct f. Qed.
Lemma zipped_color s ctx t : zipped s ctx t -> exists n, rb_nodes s !! ptr t = Some n /\ rb_color n = color t.
Proof using. intros [? ? _ _ _]. by eapply node_at. Qed.
Lemma whole_across f ctx t : whole (across f t :: ctx) (sibling f) = whole (f :: ctx) t.
Proof using. rewrite !whole_plug. by destruct f. Qed.

(** Pointers of different parts differ. *)
Lemma focus_not_null s ctx t : zipped s ctx t -> t <> Leaf -> ptr t <> RBTREE_NULL.
Proof using.
  intros H Ht E. pose proof (z_distinct _ _ _ H) as [Hn _]%NoDup_cons. apply Hn. rewrite <-E. apply elem_of_app. left. by apply ptr_elem.
Qed.
Lemma focus_not_sibling s ctx f t : zipped s (f :: ctx) t -> t <> Leaf -> ptr t <> ptr (sibling f).
Proof using.
  intros H Ht E. pose proof (z_distinct _ _ _ H) as Hd. rewrite cptrs_cons in Hd. apply NoDup_cons in Hd as [Hn Hd].
  apply NoDup_app in Hd as (_ & Hd & _). specialize (Hd _ (ptr_elem _ Ht)). apply Hd. rewrite E.
  destruct (sibling f) as [|c l p i r] eqn:El; [by apply (focus_not_null _ _ _ H) in E|].
  pose proof (ptr_elem (Node c l p i r)). set_solver.
Qed.
Lemma focus_not_root s ctx t : zipped s ctx t -> t <> Leaf -> ptr t = rb_root s <-> ctx = [].
Proof using.
  intros H Ht. rewrite (z_root _ _ _ H). split; [|by intros ->]. destruct ctx as [|f ctx]; [done|]. intros E. exfalso.
  assert (Hin : root_from (f :: ctx) (ptr t) ∈ cptrs (f :: ctx)).
  { cbn [root_from]. clear H E. revert f. induction ctx as [|g ctx IH]; intros f; [apply (top_elem [f]); done|].
    specialize (IH g). cbn [root_from] in *. rewrite cptrs_cons. set_solver. }
  pose proof (z_distinct _ _ _ H) as Hd. apply NoDup_cons in Hd as [_ Hd]. apply NoDup_app in Hd as (_ & Hd & _).
  apply (Hd (ptr t)); [by apply ptr_elem|]. by rewrite E.
Qed.
End balance.
