(* ===== verification/RbtreeInsert.v ===== *)
(** Insertion into the trees of Rbtree.v: the repair of two red nodes keeps
    the nodes in their order and restores the red-black invariant. *)

From S2P Require Import Prelude Dname DnamePacket Namedb Rbtree RbtreeShape RbtreeBalance.

(** * A tree in the middle of an operation *)
Section focus.
Context {K V : Type}.
Abbreviation tree := (@tree K V).
Abbreviation context := (@context K V).
Abbreviation frame := (@frame K V).
Implicit Types (t l r a b d u : tree) (ctx : context) (f : frame) (s : @rbtree K V).

(** Since [s0] only the nodes of the tree, which are [es], were written. *)
Record focused (s0 : @rbtree K V) (es : list (Z * (K * V))) s ctx t : Prop := {
  fo_zipped : zipped s ctx t;
  fo_changed : changed s0 s es;
  fo_whole : whole ctx t = es;
}.

Lemma focused_plug s0 es s f ctx t : focused s0 es s (f :: ctx) t <-> focused s0 es s ctx (plug t f).
Proof using. split; intros [H1 H2 H3]; (split; [by apply zipped_plug|done|done]). Qed.
Lemma focused_out s0 es s f ctx t : focused s0 es s (f :: ctx) t -> focused s0 es s ctx (plug t f).
Proof using. apply focused_plug. Qed.
Lemma focused_in s0 es s f ctx t : focused s0 es s ctx (plug t f) -> focused s0 es s (f :: ctx) t.
Proof using. apply focused_plug. Qed.
Lemma focused_fill s0 es s ctx' ctx t : focused s0 es s (ctx' ++ ctx) t <-> focused s0 es s ctx (fill ctx' t).
Proof using.
  unfold whole. split; intros [H1 H2 H3]; (split; [by apply zipped_fill|done|]); unfold whole in *; by rewrite fill_app in *.
Qed.
Lemma focused_across s0 es s ctx f t : focused s0 es s (f :: ctx) t <-> focused s0 es s (across f t :: ctx) (sibling f).
Proof using. rewrite !focused_plug. by destruct f. Qed.

Section steps.
Context (s0 : @rbtree K V) (es : list (Z * (K * V))) (s : @rbtree K V) (ctx : context) (Q : unit -> @rbtree K V -> Prop).

Lemma wp_focused_paint c c' l p i r : focused s0 es s ctx (Node c l p i r) ->
  (forall s', focused s0 es s' ctx (Node c' l p i r) -> Q tt s') -> wp (update p (with_color c')) Q s.
Proof using.
  intros [H1 H2 H3] HQ. eapply wp_paint; [done|]. intros s' Hz Hc. apply HQ. split; [done| |].
  - eapply changed_trans; [done|]. by rewrite <-H3.
  - rewrite <-H3. unfold whole. by rewrite !elems_fill.
Qed.
Lemma wp_focused_rotate_left c a p i c2 b q j d : focused s0 es s ctx (Node c a p i (Node c2 b q j d)) ->
  (forall s', focused s0 es s' ctx (Node c2 (Node c a p i b) q j d) -> Q tt s') -> wp (rbtree_rotate_left p) Q s.
Proof using.
  intros [H1 H2 H3] HQ. eapply wp_rotate_left; [done|]. intros s' Hz Hc. apply HQ. split; [done| |].
  - eapply changed_trans; [done|]. by rewrite <-H3.
  - rewrite <-H3. unfold whole. rewrite !elems_fill. cbn. by repeat (rewrite <-app_assoc; cbn).
Qed.
Lemma wp_focused_rotate_right c a p i c2 b q j d : focused s0 es s ctx (Node c (Node c2 a q j b) p i d) ->
  (forall s', focused s0 es s' ctx (Node c2 a q j (Node c b p i d)) -> Q tt s') -> wp (rbtree_rotate_right p) Q s.
Proof using.
  intros [H1 H2 H3] HQ. eapply wp_rotate_right; [done|]. intros s' Hz Hc. apply HQ. split; [done| |].
  - eapply changed_trans; [done|]. by rewrite <-H3.
  - rewrite <-H3. unfold whole. rewrite !elems_fill. cbn. by repeat (rewrite <-app_assoc; cbn).
Qed.
End steps.

(** Reading the node in focus, the node above it, and a color. *)
Lemma wp_focused_node {A} (field : @rbnode K V -> A) s0 es s ctx c l p i r (Q : A -> @rbtree K V -> Prop) :
  focused s0 es s ctx (Node c l p i r) -> Q (field (mkrbnode (top ctx) (ptr l) (ptr r) (Some i) c)) s -> wp (load field p) Q s.
Proof using. intros [H _ _] HQ. eapply wp_load; [by eapply zipped_node|done]. Qed.
Lemma wp_focused_frame {A} (field : @rbnode K V -> A) s0 es s ctx f t (Q : A -> @rbtree K V -> Prop) :
  focused s0 es s (f :: ctx) t -> Q (field (frame_node ctx f (ptr t))) s -> wp (load field (fptr f)) Q s.
Proof using. intros [H _ _] HQ. eapply wp_load; [by eapply zipped_frame|done]. Qed.
Lemma wp_focused_color s0 es s ctx t (Q : rbcolor -> @rbtree K V -> Prop) :
  focused s0 es s ctx t -> Q (color t) s -> wp (load rb_color (ptr t)) Q s.
Proof using. intros [H _ _] HQ. destruct (zipped_color _ _ _ H) as (n & Hn & Hc). eapply wp_load; [done|]. by rewrite Hc. Qed.

(** * The repair *)

(** One round's rotations, the red parent being a left child. *)
Lemma wp_fixup_right s0 es s ctx a p i b q j d g k u (Q : Z -> @rbtree K V -> Prop) :
  focused s0 es s (InLeft RED q j d :: InLeft BLACK g k u :: ctx) (Node RED a p i b) ->
  (forall s', focused s0 es s' (InLeft BLACK q j (Node RED d g k u) :: ctx) (Node RED a p i b) -> Q p s') ->
  wp (parent ← load rb_parent p; update parent (with_color BLACK);; grand ← load rb_parent parent;
      update grand (with_color RED);; rbtree_rotate_right grand;; mret p) Q s.
Proof using.
  intros H HQ. wp_step. eapply wp_focused_node; [done|]. cbn [rb_parent top_from fptr].
  wp_step. eapply wp_focused_paint; [by apply focused_plug in H|]. intros s1 H1.
  wp_step. eapply wp_focused_node; [done|]. cbn [rb_parent top_from fptr].
  wp_step. eapply wp_focused_paint; [by apply focused_plug in H1|]. intros s2 H2.
  wp_step. eapply wp_focused_rotate_right; [done|]. intros s3 H3. wp_step. apply HQ. by apply focused_plug.
Qed.
Lemma wp_fixup_left s0 es s ctx a p i b q j d g k u (Q : Z -> @rbtree K V -> Prop) :
  focused s0 es s (InRight RED d q j :: InRight BLACK u g k :: ctx) (Node RED a p i b) ->
  (forall s', focused s0 es s' (InRight BLACK (Node RED u g k d) q j :: ctx) (Node RED a p i b) -> Q p s') ->
  wp (parent ← load rb_parent p; update parent (with_color BLACK);; grand ← load rb_parent parent;
      update grand (with_color RED);; rbtree_rotate_left grand;; mret p) Q s.
Proof using.
  intros H HQ. wp_step. eapply wp_focused_node; [done|]. cbn [rb_parent top_from fptr].
  wp_step. eapply wp_focused_paint; [by apply focused_plug in H|]. intros s1 H1.
  wp_step. eapply wp_focused_node; [done|]. cbn [rb_parent top_from fptr].
  wp_step. eapply wp_focused_paint; [by apply focused_plug in H1|]. intros s2 H2.
  wp_step. eapply wp_focused_rotate_left; [done|]. intros s3 H3. wp_step. apply HQ. by apply focused_plug.
Qed.

Lemma frame_parent ctx f hole : rb_parent (frame_node ctx f hole) = top ctx.
Proof using. by destruct f. Qed.

(** The tree with a red node in focus, which may be below a red one. *)
Record repairing (s0 : @rbtree K V) (es : list (Z * (K * V))) (k : nat) (node : Z) s : Prop := {
  re_parts : exists ctx l i r n, k = length ctx /\ focused s0 es s ctx (Node RED l node i r) /\ rb n (Node RED l node i r) /\ ctx_ok n ctx;
}.

(** Painting, whatever the tree and the side. *)
Definition paint (c : rbcolor) (t : tree) : tree := match t with Leaf => Leaf | Node _ l p i r => Node c l p i r end.
Definition repaint (c : rbcolor) (f : frame) : frame := match f with InLeft _ p i r => InLeft c p i r | InRight _ l p i => InRight c l p i end.

Lemma wp_focused_paint_focus s0 es s ctx t c (Q : unit -> @rbtree K V -> Prop) : focused s0 es s ctx t -> t <> Leaf ->
  (forall s', focused s0 es s' ctx (paint c t) -> Q tt s') -> wp (update (ptr t) (with_color c)) Q s.
Proof using. destruct t as [|c' l p i r]; [done|]. intros H _ HQ. by eapply wp_focused_paint. Qed.
Lemma wp_focused_paint_frame s0 es s f ctx t c (Q : unit -> @rbtree K V -> Prop) : focused s0 es s (f :: ctx) t ->
  (forall s', focused s0 es s' (repaint c f :: ctx) t -> Q tt s') -> wp (update (fptr f) (with_color c)) Q s.
Proof using.
  intros H HQ. replace (fptr f) with (ptr (plug t f)) by (by destruct f). eapply wp_focused_paint_focus; [by apply focused_out|by destruct f|].
  intros s' H'. apply HQ, focused_in. by destruct f.
Qed.

(** A red uncle. *)
Lemma wp_recolor s0 es s f h ctx l p i r n : focused s0 es s (f :: h :: ctx) (Node RED l p i r) ->
  fcolor f = RED -> color (sibling h) = RED -> rb n (Node RED l p i r) -> ctx_ok n (f :: h :: ctx) ->
  wp (update (fptr f) (with_color BLACK);; update (ptr (sibling h)) (with_color BLACK);; update (fptr h) (with_color RED);; mret (fptr h))
     (fun node s' => exists k', (k' < S (S (length ctx)))%nat /\ repairing s0 es k' node s') s.
Proof using.
  intros H Ef Eu Ht Hctx. destruct Hctx as [Hs Hctx]. rewrite Ef in Hctx. destruct Hctx as (Hcs & Hch & Hu & Hctx).
  cbn [color_above] in Hch. rewrite Hch in Hctx.
  wp_step. eapply wp_focused_paint_frame; [exact H|]. intros s1 H1. apply focused_out in H1.
  apply (proj1 (focused_across _ _ _ _ _ _)) in H1.
  wp_step. eapply (wp_focused_paint_focus _ _ _ _ _ _ _ H1); [by destruct (sibling h)|]. intros s2 H2.
  apply focused_out in H2.
  assert (Hend : exists t', rb (S n) (paint RED t') /\ t' = plug (paint BLACK (sibling h)) (across h (plug (Node RED l p i r) (repaint BLACK f)))
                   /\ ptr t' = fptr h).
  { eexists. split_and!; [|done|by destruct h]. destruct (sibling h) as [|uc ul up ui ur] eqn:Eh; [done|]. cbn in Eu. subst uc.
    destruct Hu as (U1 & U2 & U3 & U4).
    assert (Hf : rb (S n) (plug (Node RED l p i r) (repaint BLACK f))) by (destruct f; by exists n).
    assert (Hu' : rb (S n) (Node BLACK ul up ui ur)) by (by exists n).
    destruct h; cbn [across plug paint] in *; (split_and!; [|..|done]); try done; by destruct f. }
  destruct Hend as (t' & Hrb & Et & Hp). rewrite <-Et in H2. wp_step. rewrite <-Hp.
  eapply wp_focused_paint_focus; [exact H2|rewrite Et; by destruct h|]. intros s3 H3. wp_step.
  destruct t' as [|tc tl tp ti tr]; [by destruct h|]. cbn [ptr paint] in *. exists (length ctx). split; [lia|]. split.
  exists ctx, tl, ti, tr, (S n). done.
Qed.

(** ** One round *)
Lemma wp_fixup_above s0 es s f h ctx c a p i b (k : Z -> Z -> @ST (@rbtree K V) Z) (Q : Z -> @rbtree K V -> Prop) :
  focused s0 es s (f :: h :: ctx) (Node c a p i b) -> wp (k (fptr f) (fptr h)) Q s ->
  wp (parent ← load rb_parent p; grand ← load rb_parent parent; k parent grand) Q s.
Proof using.
  intros H HQ. wp_step. eapply wp_focused_node; [exact H|]. cbn [rb_parent top_from].
  wp_step. eapply wp_focused_frame; [exact H|]. by rewrite frame_parent.
Qed.

Lemma wp_step_in_left s0 es s f g k u ctx a p i b n :
  focused s0 es s (f :: InLeft BLACK g k u :: ctx) (Node RED a p i b) -> fcolor f = RED ->
  rb n (Node RED a p i b) -> ctx_ok n (f :: InLeft BLACK g k u :: ctx) ->
  wp (insert_fixup_step p) (fun node s' => exists k', (k' < S (S (length ctx)))%nat /\ repairing s0 es k' node s') s.
Proof using.
  intros H Hf Hrb Hctx. unfold insert_fixup_step. eapply (wp_fixup_above _ _ _ _ _ _ _ _ _ _ _ (fun parent grand => _)); [exact H|].
  pose proof (focused_out _ _ _ _ _ _ H) as Hp. assert (Ept : ptr (plug (Node RED a p i b) f) = fptr f) by (by destruct f).
  assert (Hne : p <> ptr (sibling f)) by (eapply (focus_not_sibling _ _ f (Node RED a p i b)); [apply H|done]).
  wp_step. eapply (wp_focused_frame rb_left _ _ _ _ _ _ _ Hp). cbn [frame_node rb_left]. rewrite Ept, Z.eqb_refl.
  wp_step. eapply (wp_focused_frame rb_right _ _ _ _ _ _ _ Hp). cbn [frame_node rb_right].
  wp_step. eapply (wp_focused_color _ _ _ _ u); [exact (proj1 (focused_across _ _ _ _ _ _) Hp)|].
  destruct (color u) eqn:Eu; cbn [is_red]; [|by eapply (wp_recolor _ _ _ _ (InLeft BLACK g k u))].
  destruct Hctx as [Hs Hc]. rewrite Hf in Hc. destruct Hc as (Hcs & _ & Hu & Hc). cbn [fcolor] in Hc. destruct Hrb as (Ca & Cb & Ra & Rb).
  wp_step. eapply wp_focused_frame; [exact H|]. wp_step.
  destruct f as [c q j d|c d q j]; cbn [frame_node rb_right fcolor ptr sibling fptr] in *; subst c.
  - rewrite (proj2 (Z.eqb_neq _ _)) by done. wp_step.
    eapply wp_fixup_right; [exact H|]. intros s' H'. exists (S (length ctx)). split; [lia|]. split.
    eexists _, _, _, _, n. split_and!; [|exact H'|done|]; [done|]. cbn. done.
  - rewrite Z.eqb_refl. wp_step. eapply wp_focused_rotate_left; [exact Hp|]. intros s1 H1. wp_step.
    eapply wp_fixup_right; [apply focused_in, H1|]. intros s' H'. exists (S (length ctx)). split; [lia|]. split.
    eexists _, _, _, _, n. split_and!; [|exact H'|done|]; [done|]. cbn. done.
Qed.

Lemma wp_step_in_right s0 es s f g k u ctx a p i b n :
  focused s0 es s (f :: InRight BLACK u g k :: ctx) (Node RED a p i b) -> fcolor f = RED ->
  rb n (Node RED a p i b) -> ctx_ok n (f :: InRight BLACK u g k :: ctx) ->
  wp (insert_fixup_step p) (fun node s' => exists k', (k' < S (S (length ctx)))%nat /\ repairing s0 es k' node s') s.
Proof using.
  intros H Hf Hrb Hctx. unfold insert_fixup_step. eapply (wp_fixup_above _ _ _ _ _ _ _ _ _ _ _ (fun parent grand => _)); [exact H|].
  pose proof (focused_out _ _ _ _ _ _ H) as Hp. assert (Ept : ptr (plug (Node RED a p i b) f) = fptr f) by (by destruct f).
  assert (Hne : p <> ptr (sibling f)) by (eapply (focus_not_sibling _ _ f (Node RED a p i b)); [apply H|done]).
  assert (Hne2 : fptr f <> ptr u) by (rewrite <-Ept; eapply (focus_not_sibling _ _ (InRight BLACK u g k)); [apply Hp|by destruct f]).
  wp_step. eapply (wp_focused_frame rb_left _ _ _ _ _ _ _ Hp). cbn [frame_node rb_left]. rewrite (proj2 (Z.eqb_neq _ _)) by done.
  wp_step. eapply (wp_focused_frame rb_left _ _ _ _ _ _ _ Hp). cbn [frame_node rb_left].
  wp_step. eapply (wp_focused_color _ _ _ _ u); [exact (proj1 (focused_across _ _ _ _ _ _) Hp)|].
  destruct (color u) eqn:Eu; cbn [is_red]; [|by eapply (wp_recolor _ _ _ _ (InRight BLACK u g k))].
  destruct Hctx as [Hs Hc]. rewrite Hf in Hc. destruct Hc as (Hcs & _ & Hu & Hc). cbn [fcolor] in Hc. destruct Hrb as (Ca & Cb & Ra & Rb).
  wp_step. eapply wp_focused_frame; [exact H|]. wp_step.
  destruct f as [c q j d|c d q j]; cbn [frame_node rb_left fcolor ptr sibling fptr] in *; subst c.
  - rewrite Z.eqb_refl. wp_step. eapply wp_focused_rotate_right; [exact Hp|]. intros s1 H1. wp_step.
    eapply wp_fixup_left; [apply focused_in, H1|]. intros s' H'. exists (S (length ctx)). split; [lia|]. split.
    eexists _, _, _, _, n. split_and!; [|exact H'|done|]; [done|]. cbn. done.
  - rewrite (proj2 (Z.eqb_neq _ _)) by done. wp_step.
    eapply wp_fixup_left; [exact H|]. intros s' H'. exists (S (length ctx)). split; [lia|]. split.
    eexists _, _, _, _, n. split_and!; [|exact H'|done|]; [done|]. cbn. done.
Qed.

(** ** The loop *)
Lemma length_context ctx t : (length ctx + length (elems t) <= length (whole ctx t))%nat.
Proof using.
  unfold whole. revert t. induction ctx as [|f ctx IH]; intros t; [done|]. specialize (IH (plug t f)). cbn [length].
  etransitivity; [|exact IH]. rewrite elems_plug. destruct f; cbn; rewrite ?length_app; cbn; lia.
Qed.
Lemma zipped_whole s ctx t : zipped s ctx t <-> zipped s [] (fill ctx t).
Proof using. rewrite <-zipped_fill. by rewrite app_nil_r. Qed.
Lemma tree_at_some (nodes : gmap Z (@rbnode K V)) t x : forall parent, tree_at nodes parent t -> x ∈ ptrs t -> is_Some (nodes !! x).
Proof using.
  induction t as [|c l IHl p i r IHr]; intros parent; [set_solver|]. intros (H & Hl & Hr). cbn. rewrite map_app. cbn.
  rewrite elem_of_app, elem_of_cons. intros [Hx|[-> |Hx]]; [by eapply IHl|by eexists|by eapply IHr].
Qed.

(** There are nodes enough. *)
Lemma enough_rounds s ctx t : zipped s ctx t -> (S (length (whole ctx t)) < rounds s)%nat.
Proof using.
  intros H%zipped_whole. pose proof (z_distinct _ _ _ H) as Hd. cbn in Hd. rewrite app_nil_r in Hd. unfold rounds.
  assert (Hin : (list_to_set (RBTREE_NULL :: ptrs (fill ctx t)) : gset Z) ⊆ dom (rb_nodes s)).
  { intros x. rewrite elem_of_list_to_set, elem_of_cons. intros [-> |Hx]; apply elem_of_dom.
    - rewrite (z_null _ _ _ H). by eexists.
    - eapply tree_at_some; [apply (z_tree _ _ _ H)|done]. }
  apply subseteq_size in Hin. rewrite size_list_to_set in Hin by done. rewrite size_dom in Hin. cbn in Hin. rewrite length_map in Hin.
  unfold whole. lia.
Qed.

Lemma wp_insert_fixup s ctx l node i r n (Q : unit -> @rbtree K V -> Prop) :
  zipped s ctx (Node RED l node i r) -> rb n (Node RED l node i r) -> ctx_ok n ctx ->
  (forall s' t, zipped s' [] t -> rb_root_ok t -> elems t = whole ctx (Node RED l node i r) -> changed s s' (elems t) -> Q tt s') ->
  wp (rbtree_insert_fixup node) Q s.
Proof using.
  intros H Hrb Hctx HQ. unfold rbtree_insert_fixup. wp_step. wp_step. wp_step.
  set (es := whole ctx (Node RED l node i r)) in *.
  assert (Hstart : repairing s es (length ctx) node s).
  { split. exists ctx, l, i, r, n. split_and!; try done. }
  eapply wp_iter_down; [|exact Hstart|].
  2:{ pose proof (enough_rounds _ _ _ H). pose proof (length_context ctx (Node RED l node i r)). lia. }
  clearbody es. clear H Hrb Hctx l i r n ctx Hstart.
  intros k x s1 [(ctx & l & i & r & n & -> & H & Hrb & Hctx)]. wp_step. apply wp_root_of.
  assert (Hroot := focus_not_root _ _ _ (fo_zipped _ _ _ _ _ H) ltac:(done)). cbn [ptr] in Hroot.
  destruct (Z.eqb_spec x (rb_root s1)) as [E|E].
  { apply Hroot in E as ->. wp_step. wp_step. apply wp_root_of. rewrite (z_root _ _ _ (fo_zipped _ _ _ _ _ H)). cbn [root_from ptr].
    eapply wp_focused_paint; [exact H|]. intros s2 [H1 H2 H3]. apply (HQ s2 (Node BLACK l x i r)); [done| |done|by rewrite <-H3 in H2].
    destruct Hrb as (_ & _ & Hl & Hr). split; [done|]. by exists (S n), n. }
  destruct ctx as [|f ctx]; [exfalso; by apply E, Hroot|]. wp_step. eapply wp_focused_node; [exact H|]. cbn [rb_parent top_from].
  wp_step. eapply wp_focused_frame; [exact H|]. replace (rb_color _) with (fcolor f) by (by destruct f).
  destruct (fcolor f) eqn:Ef; cbn [is_red].
  { assert (Hok : rb_root_ok (fill (f :: ctx) (Node RED l x i r))) by (eapply rb_fill; [exact Hrb|exact Hctx|by right]).
    destruct H as [H1 H2 H3]. apply zipped_whole in H1. wp_step. wp_step. apply wp_root_of.
    rewrite (z_root _ _ _ H1). cbn [root_from]. unfold whole in H3. destruct (fill (f :: ctx) (Node RED l x i r)) as [|c l' y i' r'] eqn:ET.
    { apply (f_equal elems) in ET. rewrite elems_fill in ET. apply (f_equal length) in ET. cbn in ET. rewrite !length_app in ET. cbn in ET. lia. }
    eapply wp_focused_paint; [by split|]. intros s2 [H4 H5 H6]. destruct Hok as [Hc Hok]. cbn in Hc. subst c.
    apply (HQ s2 (Node BLACK l' y i' r')); [done|by split|done|]. by rewrite <-H3 in H5. }
  destruct ctx as [|h ctx]; [destruct Hctx as [_ Hc]; rewrite Ef in Hc; naive_solver|]. wp_step.
  assert (Hh : fcolor h = BLACK) by (destruct Hctx as [_ Hc]; rewrite Ef in Hc; naive_solver).
  eapply wp_mono; [|by intros y s2 Hy; wp_step; exact Hy].
  destruct h as [c g k u|c u g k]; cbn in Hh; subst c; [by eapply wp_step_in_left|by eapply wp_step_in_right].
Qed.
End focus.
