(* ===== verification/RbtreeOrder.v ===== *)
(** Searching in the trees of Rbtree.v, and what insertion does: the tree is
    an ordered list of its nodes. *)

From Stdlib Require Import Sorting.Sorted.
From S2P Require Import Prelude Dname DnamePacket Namedb Rbtree RbtreeShape RbtreeBalance RbtreeInsert.

(** * A leaf becomes a node *)
Section leaf.
Context {K V : Type}.
Implicit Types (s : @rbtree K V) (ctx : @context K V).

Definition recount (f : Z -> Z) s : @rbtree K V := mkrbtree (rb_nodes s) (rb_root s) (f (rb_count s)).
Lemma zipped_recount f s ctx t : zipped s ctx t -> zipped (recount f s) ctx t.
Proof using. by intros []. Qed.

(** [r] tells the side of the hole. *)
Definition side ctx (r : Z) : Prop :=
  match ctx with [] => True | InLeft _ _ _ _ :: _ => r < 0 | InRight _ _ _ _ :: _ => 0 < r end.

Definition new_leaf ctx (data : Z) (i : K * V) s : @rbtree K V :=
  linked ctx data (store_node data (mkrbnode (top ctx) RBTREE_NULL RBTREE_NULL (Some i) RED) s).

Lemma new_leaf_zipped s ctx data i : zipped s ctx Leaf -> data <> RBTREE_NULL -> data ∉ cptrs ctx ->
  zipped (new_leaf ctx data i s) ctx (Node RED Leaf data i Leaf).
Proof using.
  intros [H1 _ H3 H4 H5] Hn Hd. cbn in H5. pose proof H5 as [Hnull Hctx]%NoDup_cons. unfold new_leaf. split.
  - rewrite lookup_linked by done. cbn. by rewrite insert_frame.
  - cbn. split; [|done]. rewrite lookup_linked by done. cbn. by rewrite lookup_insert_eq.
  - cbn [ptr]. eapply context_at_linked; [done|]. eapply context_at_frame; [|exact H3]. intros x Hx. cbn. apply insert_frame. by intros ->.
  - rewrite root_linked. cbn. by destruct ctx.
  - cbn. apply NoDup_cons. split; [|by apply NoDup_cons]. rewrite elem_of_cons. intros [E|E]; [by symmetry in E|done].
Qed.

Lemma wp_link s ctx data i r (Q : unit -> @rbtree K V -> Prop) : zipped s ctx Leaf -> data <> RBTREE_NULL -> data ∉ cptrs ctx -> side ctx r ->
  Q tt (new_leaf ctx data i s) ->
  wp (if negb (is_null (top ctx)) then if r <? 0 then update (top ctx) (with_left data) else update (top ctx) (with_right data)
      else set_root data) Q (store_node data (mkrbnode (top ctx) RBTREE_NULL RBTREE_NULL (Some i) RED) s).
Proof using.
  intros [_ _ H3 _ H5] Hn Hd Hr HQ. rewrite (top_not_null ctx) by exact H5. unfold new_leaf, linked in HQ.
  destruct ctx as [|f ctx]; [rewrite bool_decide_true by done; by apply wp_set_root|]. rewrite bool_decide_false by done. cbn [negb top_from].
  assert (Hf : data <> fptr f) by (intros ->; by apply Hd, (top_elem (f :: ctx))).
  destruct f as [c p j u|c u p j]; cbn in Hr, Hf, H3, HQ |- *; destruct H3 as [[Hp _] _]; rewrite insert_frame, Hp in HQ by done.
  - rewrite (proj2 (Z.ltb_lt _ _)) by lia. eapply wp_update_node; [|exact HQ]. cbn. by rewrite insert_frame.
  - rewrite (proj2 (Z.ltb_ge _ _)) by lia. eapply wp_update_node; [|exact HQ]. cbn. by rewrite insert_frame.
Qed.
End leaf.

(** * Order *)
Section order.
(** What a key is to the comparison. *)
Context {K V N : Type} (kof : K -> N) (ncmp : N -> N -> Z).
Implicit Types (s : @rbtree K V) (ctx : @context K V) (t : @tree K V).

Definition key_of (e : Z * (K * V)) : N := kof e.2.1.
Definition below (k : N) (e : Z * (K * V)) : Prop := ncmp (key_of e) k < 0.
Definition above (k : N) (e : Z * (K * V)) : Prop := ncmp k (key_of e) < 0.
Definition precedes (e e' : Z * (K * V)) : Prop := ncmp (key_of e) (key_of e') < 0.
Lemma sorted_app (A B : list (Z * (K * V))) : StronglySorted precedes (A ++ B) <->
  StronglySorted precedes A /\ StronglySorted precedes B /\ forall x y, x ∈ A -> y ∈ B -> precedes x y.
Proof using.
  induction A as [|x A IH]; cbn.
  - split; [intros; split_and!; [constructor|done|set_solver]|naive_solver].
  - split.
    + intros [H1 H2]%StronglySorted_inv. apply IH in H1 as (H1 & H3 & H4). rewrite Forall_app in H2. destruct H2 as [H2 H5].
      rewrite Forall_forall in H5. split_and!; [by constructor|done|]. intros y z [-> |Hy]%elem_of_cons Hz; [by apply H5|by apply H4].
    + intros (H1 & H3 & H4). apply StronglySorted_inv in H1 as [H1 H2]. constructor.
      * apply IH. split_and!; [done|done|]. intros y z Hy Hz. apply H4; [by apply elem_of_cons; right|done].
      * rewrite Forall_app. split; [done|]. apply Forall_forall. intros y Hy. apply H4; [by apply elem_of_cons; left|done].
Qed.

Context `{!LawfulCompare ncmp}.
Lemma ncmp_lt_trans a b c : ncmp a b < 0 -> ncmp b c < 0 -> ncmp a c < 0.
Proof using LawfulCompare0. apply cmp_trans. Qed.
Lemma ncmp_flip a b : 0 < ncmp a b <-> ncmp b a < 0.
Proof using LawfulCompare0. symmetry. apply cmp_swap. Qed.
Lemma ncmp_irrefl a : ~ ncmp a a < 0.
Proof using LawfulCompare0. assert (ncmp a a = 0) by (by apply (cmp_eq (cmp:=ncmp))). lia. Qed.

(** The way down for a key: what is left of the focus is below it, what is
    right of it above. *)
Record toward (k : N) ctx : Prop := { to_below : Forall (below k) (before ctx); to_above : Forall (above k) (after ctx) }.

Lemma toward_left k ctx c l p i r : StronglySorted precedes (whole ctx (Node c l p i r)) -> toward k ctx ->
  ncmp k (kof i.1) < 0 -> toward k (InLeft c p i r :: ctx).
Proof using LawfulCompare0.
  unfold whole. rewrite elems_fill. cbn. intros Hs [H1 H2] Hk. split; cbn; [by rewrite app_nil_r|]. apply sorted_app in Hs as (_ & Hs & _).
  rewrite <-app_assoc in Hs. apply sorted_app in Hs as (_ & Hs & _). cbn in Hs. apply StronglySorted_inv in Hs as [_ Hs].
  apply Forall_cons. split; [done|]. apply Forall_app in Hs as [Hs _]. apply Forall_app. split; [|done].
  eapply Forall_impl; [exact Hs|]. intros e He. by eapply ncmp_lt_trans.
Qed.
Lemma toward_right k ctx c l p i r : StronglySorted precedes (whole ctx (Node c l p i r)) -> toward k ctx ->
  0 < ncmp k (kof i.1) -> toward k (InRight c l p i :: ctx).
Proof using LawfulCompare0.
  unfold whole. rewrite elems_fill. cbn. intros Hs [H1 H2] Hk%ncmp_flip. split; cbn; [|done].
  apply sorted_app in Hs as (_ & Hs & _). rewrite <-app_assoc in Hs. cbn in Hs. apply sorted_app in Hs as (_ & _ & Hs).
  apply Forall_app. split; [done|]. apply Forall_app. split; [|by repeat constructor].
  apply Forall_forall. intros e He. eapply ncmp_lt_trans; [|exact Hk]. apply (Hs e (p, i)); [done|set_solver].
Qed.

(** ** The tree as a list *)
Context (ok : K -> Prop).

Definition ordered (es : list (Z * (K * V))) : Prop := StronglySorted precedes es /\ Forall (fun e => ok e.2.1) es.

(** The red-black tree [s] with the nodes [es]. *)
Record holds s (es : list (Z * (K * V))) : Prop := {
  ho_tree : exists t, zipped s [] t /\ rb_root_ok t /\ elems t = es;
  ho_ordered : ordered es;
  ho_count : rb_count s = zlength es;
}.

Lemma holds_key s es e : holds s es -> e ∈ es -> ok e.2.1.
Proof using. intros [_ [_ H] _] He. rewrite Forall_forall in H. by apply H. Qed.

(** Where a key is in the list. *)
Inductive located (k : N) (es : list (Z * (K * V))) : bool -> option Z -> Prop :=
  | at_node lo p i hi : es = lo ++ (p, i) :: hi -> kof i.1 = k -> Forall (below k) lo -> Forall (above k) hi -> located k es true (Some p)
  | between lo hi : es = lo ++ hi -> Forall (below k) lo -> Forall (above k) hi -> located k es false (fst <$> last lo).

Lemma wp_key_at s p n i (Q : K -> @rbtree K V -> Prop) : rb_nodes s !! p = Some n -> rb_item n = Some i -> Q i.1 s -> wp (key_at p) Q s.
Proof using.
  intros Hp Hi HQ. unfold key_at. wp_step. eapply wp_load; [done|]. rewrite Hi. wp_step. by apply (wp_lift _ i).
Qed.

(** What has been descended to. *)
Record descending s T (k : N) (m : nat) ctx t : Prop := {
  de_zipped : zipped s ctx t;
  de_fill : fill ctx t = T;
  de_toward : toward k ctx;
  de_measure : m = length (elems t);
}.

Lemma descending_node s T k m ctx c l p i r : ordered (elems T) -> descending s T k m ctx (Node c l p i r) ->
  rb_nodes s !! p = Some (mkrbnode (top ctx) (ptr l) (ptr r) (Some i) c) /\ ok i.1 /\
  (ncmp k (kof i.1) = 0 -> located k (elems T) true (Some p)) /\
  (ncmp k (kof i.1) < 0 -> exists m', (m' < m)%nat /\ descending s T k m' (InLeft c p i r :: ctx) l) /\
  (0 < ncmp k (kof i.1) -> exists m', (m' < m)%nat /\ descending s T k m' (InRight c l p i :: ctx) r).
Proof using LawfulCompare0.
  intros [Hs Hok] [H1 H2 H3 H4]. subst T m. split_and!.
  - by eapply zipped_node.
  - rewrite elems_fill in Hok. cbn in Hok. rewrite !Forall_app, Forall_cons in Hok. apply Hok.
  - intros E. apply (cmp_eq (cmp:=ncmp)) in E. destruct H3 as [Hb Ha]. rewrite elems_fill in Hs |- *. cbn in Hs |- *.
    apply sorted_app in Hs as (_ & Hs & _). rewrite <-app_assoc in Hs. cbn in Hs. apply sorted_app in Hs as (_ & Hs & Hlt).
    apply StronglySorted_inv in Hs as [_ Hs]. apply Forall_app in Hs as [Hs _].
    apply (at_node _ _ (before ctx ++ elems l) p i (elems r ++ after ctx)); [by rewrite <-!app_assoc|done| |].
    + apply Forall_app. split; [done|]. apply Forall_forall. intros e He. unfold below. rewrite E. apply (Hlt e (p, i)); [done|set_solver].
    + apply Forall_app. split; [|done]. eapply Forall_impl; [exact Hs|]. intros e He. unfold above. by rewrite E.
  - intros Hk. exists (length (elems l)). split; [cbn; rewrite length_app; cbn; lia|]. split; [by apply (zipped_plug _ _ _ (InLeft c p i r))|done| |done].
    by eapply toward_left.
  - intros Hk. exists (length (elems r)). split; [cbn; rewrite length_app; cbn; lia|]. split; [by apply (zipped_plug _ _ _ (InRight c l p i))|done| |done].
    by eapply toward_right.
Qed.

Lemma descending_leaf s T k m ctx : descending s T k m ctx Leaf -> located k (elems T) false (fst <$> last (before ctx)).
Proof using. intros [_ <- [Hb Ha] _]. apply (between _ _ (before ctx) (after ctx)); [|done|done]. by rewrite elems_fill. Qed.

Lemma is_null_ptr s ctx t : zipped s ctx t -> is_null (ptr t) = if t is Leaf then true else false.
Proof using. intros H. destruct t as [|c l p i r]; [done|]. apply Z.eqb_neq. by apply (focus_not_null _ _ _ H). Qed.

(** ** Searching *)
Context (cmp : K -> K -> res Z) (Hcmp : forall a b, ok a -> ok b -> cmp a b = Ok (ncmp (kof a) (kof b))).

Lemma wp_find_rounds s es key rounds : holds s es -> ok key -> (2 * Nat.log2 (S (length es)) < rounds)%nat ->
  wp (find_rounds cmp rounds key) (fun r s' => s' = s /\ located (kof key) es r.1 r.2) s.
Proof using Hcmp LawfulCompare0.
  intros [(T & HT & Hok & <-) Hord _] Hk Hr. unfold find_rounds. wp_step. apply wp_root_of.
  set (bound := (2 * Nat.log2 (S (length (elems T))))%nat) in *.
  assert (Hdepth : forall m ctx t, descending s T (kof key) m ctx t -> (length ctx <= bound)%nat).
  { intros m ctx t [_ H _ _]. pose proof (rb_path ctx t) as Hp. unfold whole in Hp. rewrite H in Hp. by apply Hp. }
  eapply (wp_iter_down (fun k st s1 => s1 = s /\ exists ctx t m, k = (bound - length ctx)%nat /\ st = (ptr t, fst <$> last (before ctx)) /\
      descending s T (kof key) m ctx t)) with (k := bound); [|split; [done|]; exists [], T, (length (elems T))|exact Hr].
  2:{ split_and!; [cbn; lia|by rewrite (z_root _ _ _ HT)|by split]. }
  intros k st s1 [-> (ctx & t & m & -> & -> & Hd)]. rewrite (is_null_ptr s ctx t) by apply Hd.
  destruct t as [|c l p i r]; [wp_step; split; [done|]; by eapply descending_leaf|].
  destruct (descending_node _ _ _ _ _ _ _ _ _ _ Hord Hd) as (Hp & Hi & Heq & Hlt & Hgt). cbn [ptr].
  wp_step. eapply wp_key_at; [done|done|]. wp_step. apply (wp_lift _ (ncmp (kof key) (kof i.1))); [by apply Hcmp|].
  destruct (Z.eqb_spec (ncmp (kof key) (kof i.1)) 0); [wp_step; split; [done|]; by apply Heq|].
  destruct (Z.ltb_spec (ncmp (kof key) (kof i.1)) 0); wp_step; (eapply wp_load; [done|]); cbn [rb_left rb_right]; wp_step.
  - destruct Hlt as (m' & _ & Hd'); [done|]. pose proof (Hdepth _ _ _ Hd') as Hlen. cbn in Hlen. eexists. split; [|split; [done|]].
    2:{ eexists _, l, m'. split_and!; [done| |exact Hd']. cbn. by rewrite app_nil_r. }
    cbn. lia.
  - destruct Hgt as (m' & _ & Hd'); [lia|]. pose proof (Hdepth _ _ _ Hd') as Hlen. cbn in Hlen. eexists. split; [|split; [done|]].
    2:{ eexists _, r, m'. split_and!; [done| |exact Hd']. cbn. by rewrite app_assoc, last_snoc. }
    cbn. lia.
Qed.

Lemma log2_bound n : (2 * Nat.log2 (S n) <= S n)%nat.
Proof using.
  assert (H : forall k, (2 * k <= 2 ^ k)%nat).
  { induction k as [|[|k] IH]; [cbn; lia|cbn; lia|]. rewrite Nat.pow_succ_r'. assert (2 <= 2 ^ S k)%nat by (rewrite Nat.pow_succ_r'; pose proof (Nat.pow_nonzero 2 k); lia). lia. }
  etransitivity; [apply H|]. apply Nat.log2_spec. lia.
Qed.
Lemma holds_rounds s es : holds s es -> (2 * Nat.log2 (S (length es)) < rounds s)%nat.
Proof using. intros [(T & HT & _ & <-) _ _]. apply enough_rounds in HT. unfold whole in HT. cbn in HT. pose proof (log2_bound (length (elems T))). lia. Qed.

Lemma wp_find_less_equal s es key : holds s es -> ok key ->
  wp (rbtree_find_less_equal cmp key) (fun r s' => s' = s /\ located (kof key) es r.1 r.2) s.
Proof using Hcmp LawfulCompare0.
  intros Hs Hk. unfold rbtree_find_less_equal. wp_step. wp_step. apply wp_find_rounds; [done|done|by apply holds_rounds].
Qed.

Lemma find_rounds_more n m key s r : (n <= m)%nat -> find_rounds cmp n key s = Ok r -> find_rounds cmp m key s = Ok r.
Proof using. intros Hm. unfold find_rounds, root_of, mbind, ST_bind. cbn. by apply st_iter_more. Qed.

(** C4 (bounds): a search ends after twice as many comparisons as the
    logarithm of the number of nodes plus one, one more at most, and finds the
    node with the key or the place where it would be. *)
Theorem rbtree_search_bound s es key : holds s es -> ok key ->
  exists r, find_rounds cmp (S (2 * Nat.log2 (S (length es)))) key s = Ok (r, s) /\ rbtree_find_less_equal cmp key s = Ok (r, s) /\
    located (kof key) es r.1 r.2.
Proof using Hcmp LawfulCompare0.
  intros Hs Hk. assert (Hw := wp_find_rounds s es key (S (2 * Nat.log2 (S (length es)))) Hs Hk ltac:(lia)).
  apply wp_elim in Hw as (r & s' & E & -> & Hr). exists r. split_and!; [done| |done]. unfold rbtree_find_less_equal, mbind, ST_bind. cbn.
  eapply find_rounds_more; [|exact E]. by apply holds_rounds.
Qed.

(** ** Insertion *)
Lemma wp_insert_search s T data n i : zipped s [] T -> ordered (elems T) -> rb_nodes s !! data = Some n -> rb_item n = Some i -> ok i.1 ->
  wp (insert_search cmp data) (fun r s' => s' = s /\
    match r with
    | None => exists p, located (kof i.1) (elems T) true (Some p)
    | Some (parent, r) => exists ctx, zipped s ctx Leaf /\ fill ctx Leaf = T /\ toward (kof i.1) ctx /\ parent = top ctx /\ side ctx r
    end) s.
Proof using Hcmp LawfulCompare0.
  intros HT Hord Hn Hi Hk. unfold insert_search. wp_step. wp_step. wp_step. apply wp_root_of.
  eapply (wp_iter_down (fun m st s1 => s1 = s /\ exists ctx t r, st = (ptr t, top ctx, r) /\ side ctx r /\ descending s T (kof i.1) m ctx t))
    with (k := length (elems T)).
  2:{ split; [done|]. exists [], T, 0. split_and!; [by rewrite (z_root _ _ _ HT)|done|]. by split. }
  2:{ apply enough_rounds in HT. unfold whole in HT. cbn in HT. lia. }
  intros m st s1 [-> (ctx & t & r0 & -> & Hr0 & Hd)]. rewrite (is_null_ptr s ctx t) by apply Hd.
  destruct t as [|c l p j r]; [wp_step; split; [done|]; exists ctx; destruct Hd; by split_and!|].
  destruct (descending_node _ _ _ _ _ _ _ _ _ _ Hord Hd) as (Hp & Hj & Heq & Hlt & Hgt). cbn [ptr].
  wp_step. eapply wp_key_at; [done|done|]. wp_step. eapply wp_key_at; [done|done|].
  wp_step. apply (wp_lift _ (ncmp (kof i.1) (kof j.1))); [by apply Hcmp|].
  destruct (Z.eqb_spec (ncmp (kof i.1) (kof j.1)) 0); [wp_step; split; [done|]; exists p; by apply Heq|].
  destruct (Z.ltb_spec (ncmp (kof i.1) (kof j.1)) 0); wp_step; (eapply wp_load; [done|]); cbn [rb_left rb_right]; wp_step.
  - destruct Hlt as (m' & Hm & Hd'); [done|]. exists m'. split_and!; [done..|]. exists (InLeft c p j r :: ctx), l, (ncmp (kof i.1) (kof j.1)). split_and!; [reflexivity|done|exact Hd'].
  - destruct Hgt as (m' & Hm & Hd'); [lia|]. exists m'. split_and!; [done..|]. exists (InRight c l p j :: ctx), r, (ncmp (kof i.1) (kof j.1)). split_and!; [reflexivity|cbn; lia|exact Hd'].
Qed.

(** Only nodes of the list were written to, and there are the same nodes. *)
Record kept s s' (es : list (Z * (K * V))) : Prop := {
  ke_dom : dom (rb_nodes s') = dom (rb_nodes s);
  ke_rest q : q ∉ addresses es -> rb_nodes s' !! q = rb_nodes s !! q;
}.

Lemma ordered_insert lo hi p i : ordered (lo ++ hi) -> ok i.1 -> Forall (below (kof i.1)) lo -> Forall (above (kof i.1)) hi ->
  ordered (lo ++ (p, i) :: hi).
Proof using LawfulCompare0.
  intros [Hs Hok] Hi Hlo Hhi. apply sorted_app in Hs as (H1 & H2 & H3). apply Forall_app in Hok as [O1 O2].
  rewrite Forall_forall in Hlo. split; [|by rewrite Forall_app, Forall_cons].
  apply sorted_app. split_and!; [done|by constructor|]. intros x y Hx [-> |Hy]%elem_of_cons; [by apply (Hlo x)|by apply H3].
Qed.

Lemma wp_insert s es data n i : holds s es -> rb_nodes s !! data = Some n -> rb_item n = Some i -> ok i.1 ->
  data <> RBTREE_NULL -> data ∉ addresses es ->
  wp (rbtree_insert cmp data) (fun r s' =>
    match r with
    | None => s' = s /\ exists p, located (kof i.1) es true (Some p)
    | Some p => p = data /\ exists lo hi, es = lo ++ hi /\ Forall (below (kof i.1)) lo /\ Forall (above (kof i.1)) hi /\
        holds s' (lo ++ (data, i) :: hi) /\ kept s s' (lo ++ (data, i) :: hi)
    end) s.
Proof using Hcmp LawfulCompare0.
  intros [(T & HT & Hrb & <-) Hord Hcount] Hn Hi Hk Hnull Hnew. unfold rbtree_insert.
  wp_step. eapply wp_mono; [by eapply wp_insert_search|]. intros [[parent r]|] s1 [-> Hfound]; [|by wp_step].
  destruct Hfound as (ctx & Hz & <- & [Hlo Hhi] & -> & Hside).
  assert (Hnctx : data ∉ cptrs ctx).
  { intros H. apply Hnew. rewrite elems_fill. cbn. exact H. }
  do 4 (wp_step; eapply wp_update_node; [first [exact Hn|cbn; apply lookup_insert_eq]|]). wp_step. unfold set_count. wp_step.
  match goal with |- wp _ _ ?st => replace st with (store_node data (mkrbnode (top ctx) RBTREE_NULL RBTREE_NULL (Some i) RED) (recount (fun n => n + 1) s)) end.
  2:{ unfold store_node, recount, with_color, with_left, with_right, with_parent. cbn. by rewrite Hi, !insert_insert_eq. }
  wp_step. eapply wp_link; [by apply zipped_recount|done|done|done|].
  wp_step. apply rb_unfill in Hrb as (m & Hm & Hctx & _). cbn in Hm. subst m.
  eapply (wp_insert_fixup _ ctx Leaf data i Leaf 0); [by apply new_leaf_zipped; [apply zipped_recount|..]|done|done|].
  intros s' t Hz' Hrb' He Hch. wp_step. split; [done|]. exists (before ctx), (after ctx).
  unfold whole in He. rewrite elems_fill in He. rewrite elems_fill in Hord, Hcount. cbn in He, Hord, Hcount.
  assert (Hdom : dom (rb_nodes (new_leaf ctx data i (recount (fun n => n + 1) s))) = dom (rb_nodes s)).
  { unfold new_leaf. rewrite dom_linked. by eapply (dom_store _ _ _ (recount _ s)). }
  split_and!; [by rewrite elems_fill|done|done| |].
  - split; [by exists t|by apply ordered_insert|]. rewrite (ch_count _ _ _ Hch). unfold new_leaf. rewrite count_linked. cbn.
    rewrite Hcount. unfold zlength. rewrite !length_app. cbn. lia.
  - split; [by rewrite (ch_dom _ _ _ Hch)|]. intros q Hq. rewrite <-He in Hq. rewrite (ch_rest _ _ _ Hch q Hq). rewrite He, map_app in Hq. cbn in Hq.
    unfold new_leaf. rewrite lookup_linked; [cbn; apply insert_frame; set_solver|]. unfold around_hole. rewrite map_app. set_solver.
Qed.

(** C2 (functional): insertion.  A node with a key that is in the tree is
    refused and nothing changes; any other comes between the nodes below and
    above it, the tree is a red-black tree again, and only its nodes are
    written to. *)
Theorem rbtree_insert_correct s es data n i : holds s es -> rb_nodes s !! data = Some n -> rb_item n = Some i -> ok i.1 ->
  data <> RBTREE_NULL -> ~ (data ∈ addresses es) ->
  exists r s', rbtree_insert cmp data s = Ok (r, s') /\
    match r with
    | None => s' = s /\ exists p, located (kof i.1) es true (Some p)
    | Some p => p = data /\ exists lo hi, es = lo ++ hi /\ Forall (below (kof i.1)) lo /\ Forall (above (kof i.1)) hi /\
        holds s' (lo ++ (data, i) :: hi) /\ kept s s' (lo ++ (data, i) :: hi)
    end.
Proof using Hcmp LawfulCompare0. intros. by apply wp_elim, (wp_insert s es data n i). Qed.
End order.
