(* ===== verification/RbtreeWalk.v ===== *)
(** Walking through the trees of Rbtree.v: the first and the last node, and
    the node after and before one. *)

From S2P Require Import Prelude Dname DnamePacket Namedb Rbtree RbtreeShape RbtreeBalance RbtreeInsert RbtreeOrder.

Section walk.
Context {K V : Type}.
Implicit Types (s : @rbtree K V) (ctx : @context K V) (t l r : @tree K V) (f : @frame K V).

(** Frames all of one side. *)
Definition on_left f : Prop := match f with InLeft _ _ _ _ => True | InRight _ _ _ _ => False end.
Definition on_right f : Prop := match f with InLeft _ _ _ _ => False | InRight _ _ _ _ => True end.

(** * To the end *)
Lemma wp_follow_left s ctx c l p i r (Q : Z -> @rbtree K V -> Prop) : zipped s ctx (Node c l p i r) ->
  (forall lefts c' q j r', zipped s (lefts ++ ctx) (Node c' Leaf q j r') -> fill lefts (Node c' Leaf q j r') = Node c l p i r ->
     Forall on_left lefts -> Q q s) ->
  wp (follow rb_left p) Q s.
Proof using.
  intros H HQ. unfold follow. wp_step. wp_step.
  eapply (wp_iter_down (fun m q s1 => s1 = s /\ exists lefts c' l' j r', m = length (elems l') /\
    zipped s (lefts ++ ctx) (Node c' l' q j r') /\ fill lefts (Node c' l' q j r') = Node c l p i r /\ Forall on_left lefts))
    with (k := length (elems l)).
  2:{ split; [done|]. by exists [], c, l, i, r. }
  2:{ pose proof (enough_rounds _ _ _ H) as Hr. pose proof (length_context ctx (Node c l p i r)) as Hl. cbn [elems] in Hl. rewrite length_app in Hl. lia. }
  intros m q s1 [-> (lefts & c' & l' & j & r' & -> & Hz & Hf & Hl)]. wp_step. eapply wp_load; [by eapply zipped_node|]. cbn [rb_left].
  rewrite (is_null_ptr s (InLeft c' q j r' :: lefts ++ ctx) l') by (by apply zipped_plug).
  destruct l' as [|c2 l2 p2 i2 r2]; wp_step; [by eapply HQ|]. exists (length (elems l2)). split; [cbn; rewrite length_app; cbn; lia|].
  split; [done|]. exists (InLeft c' q j r' :: lefts), c2, l2, i2, r2. split_and!; [done|by apply (zipped_plug _ _ _ (InLeft c' q j r'))|done|].
  by constructor.
Qed.
Lemma wp_follow_right s ctx c l p i r (Q : Z -> @rbtree K V -> Prop) : zipped s ctx (Node c l p i r) ->
  (forall rights c' l' q j, zipped s (rights ++ ctx) (Node c' l' q j Leaf) -> fill rights (Node c' l' q j Leaf) = Node c l p i r ->
     Forall on_right rights -> Q q s) ->
  wp (follow rb_right p) Q s.
Proof using.
  intros H HQ. unfold follow. wp_step. wp_step.
  eapply (wp_iter_down (fun m q s1 => s1 = s /\ exists rights c' l' j r', m = length (elems r') /\
    zipped s (rights ++ ctx) (Node c' l' q j r') /\ fill rights (Node c' l' q j r') = Node c l p i r /\ Forall on_right rights))
    with (k := length (elems r)).
  2:{ split; [done|]. by exists [], c, l, i, r. }
  2:{ pose proof (enough_rounds _ _ _ H) as Hr. pose proof (length_context ctx (Node c l p i r)) as Hl. cbn [elems] in Hl. rewrite length_app in Hl. cbn [length] in Hl. lia. }
  intros m q s1 [-> (rights & c' & l' & j & r' & -> & Hz & Hf & Hl)]. wp_step. eapply wp_load; [by eapply zipped_node|]. cbn [rb_right].
  rewrite (is_null_ptr s (InRight c' l' q j :: rights ++ ctx) r') by (by apply zipped_plug).
  destruct r' as [|c2 l2 p2 i2 r2]; wp_step; [by eapply HQ|]. exists (length (elems r2)). split; [cbn; rewrite length_app; cbn; lia|].
  split; [done|]. exists (InRight c' l' q j :: rights), c2, l2, i2, r2. split_and!; [done|by apply (zipped_plug _ _ _ (InRight c' l' q j))|done|].
  by constructor.
Qed.

Lemma before_lefts ctx : Forall on_left ctx -> before ctx = [].
Proof using. induction 1 as [|[] ctx Hf _ IH]; [done| |done]. cbn. by rewrite IH. Qed.
Lemma after_rights ctx : Forall on_right ctx -> after ctx = [].
Proof using. by induction 1 as [|[] ctx Hf _ IH]. Qed.

(** The first of the list, or the null pointer. *)
Definition hd_ptr (es : list (Z * (K * V))) : Z := from_option fst RBTREE_NULL (head es).
Definition last_ptr (es : list (Z * (K * V))) : Z := from_option fst RBTREE_NULL (last es).

Lemma wp_first_of s ctx t (Q : Z -> @rbtree K V -> Prop) : zipped s ctx t -> t <> Leaf -> Q (hd_ptr (elems t)) s -> wp (follow rb_left (ptr t)) Q s.
Proof using.
  destruct t as [|c l p i r]; [done|]. intros H _ HQ. cbn [ptr]. eapply wp_follow_left; [done|]. intros lefts c' q j r' _ Hf Hl.
  rewrite <-Hf, elems_fill, before_lefts in HQ by done. exact HQ.
Qed.
Lemma wp_last_of s ctx t (Q : Z -> @rbtree K V -> Prop) : zipped s ctx t -> t <> Leaf -> Q (last_ptr (elems t)) s -> wp (follow rb_right (ptr t)) Q s.
Proof using.
  destruct t as [|c l p i r]; [done|]. intros H _ HQ. cbn [ptr]. eapply wp_follow_right; [done|]. intros rights c' l' q j _ Hf Hr.
  rewrite <-Hf, elems_fill, after_rights, app_nil_r in HQ by done. cbn in HQ. unfold last_ptr in HQ. rewrite app_assoc, last_snoc in HQ. exact HQ.
Qed.

(** * Up *)
Lemma frame_not_null s f ctx t : zipped s (f :: ctx) t -> is_null (fptr f) = false.
Proof using.
  intros H. apply Z.eqb_neq. intros Ef. pose proof (z_distinct _ _ _ H) as [Hn _]%NoDup_cons. rewrite <-Ef in Hn. apply Hn, elem_of_app.
  right. by apply (top_elem (f :: ctx)).
Qed.
Lemma wp_climb_right s ctx t (Q : Z -> @rbtree K V -> Prop) : zipped s ctx t -> t <> Leaf -> Q (hd_ptr (after ctx)) s ->
  wp (climb rb_right (ptr t)) Q s.
Proof using.
  intros H Ht HQ. unfold climb. wp_step. wp_step.
  assert (Hpar : forall ctx' t', zipped s ctx' t' -> t' <> Leaf -> forall Q', Q' (top ctx') s -> wp (load rb_parent (ptr t')) Q' s).
  { intros ctx' [|c l p i r] Hz Hne Q' HQ'; [done|]. by eapply wp_load; [eapply zipped_node|]. }
  wp_step. eapply Hpar; [done|done|].
  eapply (wp_iter_down (fun m st s1 => s1 = s /\ exists ctx' t', m = length ctx' /\ st = (ptr t', top ctx') /\ zipped s ctx' t' /\ t' <> Leaf /\
    hd_ptr (after ctx') = hd_ptr (after ctx))) with (k := length ctx).
  2:{ split; [done|]. by exists ctx, t. }
  2:{ pose proof (enough_rounds _ _ _ H). pose proof (length_context ctx t). lia. }
  clear H Ht t. intros m st s1 [-> (ctx' & t & -> & -> & H & Ht & E)]. destruct ctx' as [|f ctx']; [wp_step; by rewrite <-E in HQ|].
  cbn [top_from]. rewrite (frame_not_null _ _ _ _ H). pose proof (focus_not_sibling _ _ _ _ H Ht) as Hne.
  wp_step. eapply wp_load; [by eapply zipped_frame|]. destruct f as [c p i r|c l p i]; cbn [frame_node rb_right sibling fptr] in *.
  - rewrite (proj2 (Z.eqb_neq _ _)) by done. wp_step. by rewrite <-E in HQ.
  - rewrite Z.eqb_refl. wp_step. apply zipped_plug in H. eapply (Hpar _ _ H); [done|]. wp_step. exists (length ctx'). split; [cbn; lia|].
    split; [done|]. by exists ctx', (Node c l p i t).
Qed.
Lemma wp_climb_left s ctx t (Q : Z -> @rbtree K V -> Prop) : zipped s ctx t -> t <> Leaf -> Q (last_ptr (before ctx)) s ->
  wp (climb rb_left (ptr t)) Q s.
Proof using.
  intros H Ht HQ. unfold climb. wp_step. wp_step.
  assert (Hpar : forall ctx' t', zipped s ctx' t' -> t' <> Leaf -> forall Q', Q' (top ctx') s -> wp (load rb_parent (ptr t')) Q' s).
  { intros ctx' [|c l p i r] Hz Hne Q' HQ'; [done|]. by eapply wp_load; [eapply zipped_node|]. }
  wp_step. eapply Hpar; [done|done|].
  eapply (wp_iter_down (fun m st s1 => s1 = s /\ exists ctx' t', m = length ctx' /\ st = (ptr t', top ctx') /\ zipped s ctx' t' /\ t' <> Leaf /\
    last_ptr (before ctx') = last_ptr (before ctx))) with (k := length ctx).
  2:{ split; [done|]. by exists ctx, t. }
  2:{ pose proof (enough_rounds _ _ _ H). pose proof (length_context ctx t). lia. }
  clear H Ht t. intros m st s1 [-> (ctx' & t & -> & -> & H & Ht & E)]. destruct ctx' as [|f ctx']; [wp_step; by rewrite <-E in HQ|].
  cbn [top_from]. rewrite (frame_not_null _ _ _ _ H). pose proof (focus_not_sibling _ _ _ _ H Ht) as Hne.
  wp_step. eapply wp_load; [by eapply zipped_frame|]. destruct f as [c p i r|c l p i]; cbn [frame_node rb_left sibling fptr before before1] in *.
  - rewrite Z.eqb_refl. rewrite app_nil_r in E. wp_step. apply zipped_plug in H. eapply (Hpar _ _ H); [done|]. wp_step. exists (length ctx').
    split; [cbn; lia|]. split; [done|]. by exists ctx', (Node c t p i r).
  - rewrite (proj2 (Z.eqb_neq _ _)) by done. wp_step. rewrite <-E in HQ. unfold last_ptr in HQ. by rewrite app_assoc, last_snoc in HQ.
Qed.
End walk.

(** * In the list *)
Section order.
Context {K V N : Type} (kof : K -> N) (ncmp : N -> N -> Z) (ok : K -> Prop).
Implicit Types (s : @rbtree K V) (es lo hi : list (Z * (K * V))).
Abbreviation holds := (holds kof ncmp ok).

(** The node of the list is in focus. *)
Lemma holds_focus s es lo p i hi : holds s es -> es = lo ++ (p, i) :: hi ->
  exists ctx c l r, zipped s ctx (Node c l p i r) /\ rb_root_ok (fill ctx (Node c l p i r)) /\ lo = before ctx ++ elems l /\ hi = elems r ++ after ctx.
Proof using.
  intros [(T & HT & Hok & <-) _ _] He. revert T lo hi He HT Hok.
  enough (Hgen : forall t ctx lo hi, elems t = lo ++ (p, i) :: hi -> zipped s ctx t -> exists ctx' c l r, zipped s ctx' (Node c l p i r) /\
    fill ctx' (Node c l p i r) = fill ctx t /\ before ctx ++ lo = before ctx' ++ elems l /\ hi ++ after ctx = elems r ++ after ctx').
  { intros T lo hi He HT Hok. destruct (Hgen T [] lo hi He HT) as (ctx' & c & l & r & H1 & H & H2 & H3). cbn in H, H2, H3. rewrite app_nil_r in H3.
    rewrite <-H in Hok. eauto 10. }
  induction t as [|c l IHl q j r IHr]; intros ctx lo hi He Hz; cbn in He; [by destruct lo|].
  apply app_eq_inv in He as [(lo' & El & He)|(hi' & -> & He)].
  - destruct lo' as [|e lo']; cbn in He.
    + injection He as <- <- ->. rewrite app_nil_r in El. exists ctx, c, l, r. by rewrite El.
    + injection He as <- ->. destruct (IHl (InLeft c q j r :: ctx) lo lo' El) as (ctx' & c' & l' & r' & H1 & H & H2 & H3); [by apply zipped_plug|].
      exists ctx', c', l', r'. split_and!; [done|by rewrite H|rewrite <-H2; cbn; by rewrite app_nil_r|rewrite <-H3; cbn; by rewrite <-app_assoc].
  - destruct hi' as [|e hi']; cbn in He.
    + injection He as <- <- <-. exists ctx, c, l, r. by rewrite app_nil_r.
    + injection He as <- E2. destruct (IHr (InRight c l q j :: ctx) hi' hi E2) as (ctx' & c' & l' & r' & H1 & H & H2 & H3); [by apply zipped_plug|].
      exists ctx', c', l', r'. split_and!; [done|by rewrite H| |done]. rewrite <-H2. cbn. by rewrite <-!app_assoc.
Qed.

Lemma wp_rbtree_first s es (Q : Z -> @rbtree K V -> Prop) : holds s es -> Q (hd_ptr es) s -> wp rbtree_first Q s.
Proof using.
  intros [(T & HT & _ & <-) _ _] HQ. unfold rbtree_first. wp_step. apply wp_root_of. rewrite (z_root _ _ _ HT). cbn [root_from].
  destruct T as [|c l p i r]; [|by eapply wp_first_of]. unfold follow. wp_step. wp_step. unfold rounds. cbn [st_iter].
  wp_step. wp_step. eapply wp_load; [apply (z_null _ _ _ HT)|]. change (is_null (rb_left rbtree_null_node)) with true. cbv iota. wp_step. by wp_step.
Qed.
Lemma wp_rbtree_last s es (Q : Z -> @rbtree K V -> Prop) : holds s es -> Q (last_ptr es) s -> wp rbtree_last Q s.
Proof using.
  intros [(T & HT & _ & <-) _ _] HQ. unfold rbtree_last. wp_step. apply wp_root_of. rewrite (z_root _ _ _ HT). cbn [root_from].
  destruct T as [|c l p i r]; [|by eapply wp_last_of]. unfold follow. wp_step. wp_step. unfold rounds. cbn [st_iter].
  wp_step. wp_step. eapply wp_load; [apply (z_null _ _ _ HT)|]. change (is_null (rb_right rbtree_null_node)) with true. cbv iota. wp_step. by wp_step.
Qed.

Lemma wp_rbtree_next s es lo p i hi (Q : Z -> @rbtree K V -> Prop) : holds s es -> es = lo ++ (p, i) :: hi -> Q (hd_ptr hi) s -> wp (rbtree_next p) Q s.
Proof using.
  intros Hs He HQ. destruct (holds_focus _ _ _ _ _ _ Hs He) as (ctx & c & l & r & Hz & _ & -> & ->).
  unfold rbtree_next. wp_step. eapply wp_load; [by eapply zipped_node|]. cbn [rb_right].
  rewrite (is_null_ptr s (InRight c l p i :: ctx) r) by (by apply zipped_plug). destruct r as [|c' l' q j r'].
  - eapply (wp_climb_right _ _ _ _ Hz); [done|exact HQ].
  - eapply (wp_first_of s (InRight c l p i :: ctx)); [by apply zipped_plug|done|]. revert HQ. unfold hd_ptr. cbn [elems]. by destruct (elems l').
Qed.
Lemma wp_rbtree_previous s es lo p i hi (Q : Z -> @rbtree K V -> Prop) : holds s es -> es = lo ++ (p, i) :: hi -> Q (last_ptr lo) s ->
  wp (rbtree_previous p) Q s.
Proof using.
  intros Hs He HQ. destruct (holds_focus _ _ _ _ _ _ Hs He) as (ctx & c & l & r & Hz & _ & -> & ->).
  unfold rbtree_previous. wp_step. eapply wp_load; [by eapply zipped_node|]. cbn [rb_left].
  rewrite (is_null_ptr s (InLeft c p i r :: ctx) l) by (by apply zipped_plug). destruct l as [|c' l' q j r'].
  - eapply (wp_climb_left _ _ _ _ Hz); [done|]. cbn in HQ. by rewrite app_nil_r in HQ.
  - eapply (wp_last_of s (InLeft c p i r :: ctx)); [by apply zipped_plug|done|]. revert HQ. unfold last_ptr. cbn [elems].
    rewrite last_app. by destruct (last (elems l' ++ _)) eqn:E; [|apply last_None in E; destruct (elems l')].
Qed.
(** C5 (functional): the walk through the tree goes through the nodes in
    order, from the first to the null node and from the last back. *)
Theorem rbtree_walk_correct s es : holds s es ->
  rbtree_first s = Ok (hd_ptr es, s) /\ rbtree_last s = Ok (last_ptr es, s) /\
  forall lo p i hi, es = lo ++ (p, i) :: hi -> rbtree_next p s = Ok (hd_ptr hi, s) /\ rbtree_previous p s = Ok (last_ptr lo, s).
Proof using.
  intros Hs. assert (Hrun : forall (m : @ST (@rbtree K V) Z) v, wp m (fun a s' => a = v /\ s' = s) s -> m s = Ok (v, s)).
  { intros m v H. by apply wp_elim in H as (a & s' & E & -> & ->). }
  split_and!; [by apply Hrun, (wp_rbtree_first s es)|by apply Hrun, (wp_rbtree_last s es)|].
  intros lo p i hi He. split; apply Hrun; [by eapply wp_rbtree_next|by eapply wp_rbtree_previous].
Qed.
End order.
