(* ===== verification/RbtreeRepair.v ===== *)
(** The repair after a deletion from the trees of Rbtree.v, of a place that is
    one black node short. *)

From S2P Require Import Prelude Dname DnamePacket Namedb Rbtree RbtreeShape RbtreeBalance RbtreeInsert RbtreeOrder RbtreeWalk.

Section repair.
Context {K V : Type}.
Abbreviation tree := (@tree K V).
Abbreviation context := (@context K V).
Abbreviation frame := (@frame K V).
Implicit Types (t l r a b u : tree) (ctx : context) (f : frame) (s : @rbtree K V).

(** * Reading *)

(** A tree that is not empty is opposite the hole. *)
Definition opposite n f : Prop := rb (S n) (sibling f).
Lemma opposite_node n f : opposite n f -> exists c a q j b, sibling f = Node c a q j b.
Proof using. unfold opposite. destruct (sibling f) as [|c a q j b]; [done|]. by exists c, a, q, j, b. Qed.
Lemma opposite_differs s0 es s f ctx t n : focused s0 es s (f :: ctx) t -> opposite n f -> ptr t <> ptr (sibling f).
Proof using.
  intros H Hn. destruct (opposite_node _ _ Hn) as (c & a & q & j & b & E). apply focused_across in H.
  pose proof (focus_not_sibling _ _ _ _ (fo_zipped _ _ _ _ _ H)) as Hne. rewrite E in *. intros Et. apply Hne; [done|]. rewrite <-Et. by destruct f.
Qed.

Lemma wp_sibling_of s0 es s f ctx t n (Q : Z -> @rbtree K V -> Prop) : focused s0 es s (f :: ctx) t -> opposite n f ->
  Q (ptr (sibling f)) s -> wp (sibling_of (ptr t) (fptr f)) Q s.
Proof using.
  intros H Hn HQ. pose proof (opposite_differs _ _ _ _ _ _ _ H Hn) as Hne. unfold sibling_of. wp_step. eapply wp_focused_frame; [exact H|].
  destruct f as [c p i u|c u p i]; cbn [frame_node rb_right sibling] in *.
  - rewrite (proj2 (Z.eqb_neq _ _)) by done. by eapply wp_focused_frame.
  - rewrite Z.eqb_refl. by eapply wp_focused_frame.
Qed.
Lemma wp_sibling_of_none s0 es s ctx t p (Q : Z -> @rbtree K V -> Prop) : focused s0 es s ctx t -> (forall q, Q q s) ->
  wp (sibling_of p RBTREE_NULL) Q s.
Proof using.
  intros [[Hz _ _ _ _] _ _] HQ. unfold sibling_of. wp_step. eapply wp_load; [exact Hz|]. destruct (_ =? p); by eapply wp_load.
Qed.
(** Above the root there is nothing to be read. *)
Lemma wp_sibling_above s0 es s ctx t n (Q : Z -> @rbtree K V -> Prop) : focused s0 es s ctx t -> ctx_ok (S n) ctx ->
  (forall q, (forall f ctx', ctx = f :: ctx' -> q = ptr (sibling f)) -> Q q s) -> wp (sibling_of (ptr t) (top ctx)) Q s.
Proof using.
  intros H Hctx HQ. destruct ctx as [|f ctx]; [eapply wp_sibling_of_none; [exact H|]; intros q; by apply HQ|].
  eapply wp_sibling_of; [exact H|apply Hctx|]. apply HQ. by intros f' ctx' [= <- <-].
Qed.

Lemma wp_colors s0 es s ctx c a q j b (Q : rbcolor * rbcolor * rbcolor -> @rbtree K V -> Prop) : focused s0 es s ctx (Node c a q j b) ->
  Q (c, color a, color b) s -> wp (colors q) Q s.
Proof using.
  intros H HQ. unfold colors. wp_step. eapply wp_focused_node; [exact H|]. wp_step. eapply wp_focused_node; [exact H|].
  wp_step. eapply wp_focused_node; [exact H|]. cbn [rb_left rb_right rb_color].
  wp_step. eapply (wp_focused_color _ _ _ (InLeft c q j b :: ctx) a); [exact (focused_in _ _ _ (InLeft c q j b) _ _ H)|].
  wp_step. eapply (wp_focused_color _ _ _ (InRight c a q j :: ctx) b); [exact (focused_in _ _ _ (InRight c a q j) _ _ H)|]. by wp_step.
Qed.

(** * What is short, and what is repaired *)
Record short (s0 : @rbtree K V) es n ctx t s : Prop := {
  sh_focused : focused s0 es s ctx t;
  sh_rb : rb n t;
  sh_black : color t = BLACK;
  sh_ctx : ctx_ok (S n) ctx;
}.
Definition repaired (s0 : @rbtree K V) es s : Prop := exists t, zipped s [] t /\ rb_root_ok t /\ elems t = es /\ changed s0 s es.

Lemma repaired_by s0 es s ctx t n : focused s0 es s ctx t -> rb n t -> ctx_ok n ctx -> color t = BLACK \/ color_above ctx = BLACK ->
  repaired s0 es s.
Proof using.
  intros [H1 H2 H3] Ht Hctx Hc. exists (fill ctx t). split_and!; [by apply (proj1 (zipped_whole _ _ _))|by eapply rb_fill|done|done].
Qed.

(** ** Finishing *)

(** Two black children: the sibling takes the red of the parent. *)
Lemma wp_move_red s0 es s f c a q j b ctx t n : short s0 es n (f :: ctx) t s -> sibling f = Node c a q j b -> c = BLACK ->
  fcolor f = RED -> color a = BLACK -> color b = BLACK ->
  wp (update q (with_color RED);; update (fptr f) (with_color BLACK)) (fun _ s' => repaired s0 es s') s.
Proof using.
  intros [H Ht Hb [Hs Hc]] Es -> Ef Ha Hb'. rewrite Ef in Hc. destruct Hc as (_ & Hab & Hctx). rewrite Es in Hs. destruct Hs as (m & [= <-] & Hra & Hrb).
  apply focused_across in H. rewrite Es in H. wp_step. eapply wp_focused_paint; [exact H|]. intros s1 H1.
  assert (Ep : fptr f = fptr (across f t)) by (by destruct f). rewrite Ep. eapply wp_focused_paint_frame; [exact H1|]. intros s2 H2.
  apply focused_out in H2. eapply (repaired_by _ _ _ _ _ (S n)); [exact H2| |done|by right].
  destruct f; cbn; exists n; by split_and!.
Qed.

(** The outer child of the sibling is red: one rotation. *)
Lemma wp_turn_right s0 es s cf a q j b p i ctx t n : short s0 es n (InRight cf (Node BLACK a q j b) p i :: ctx) t s -> color a = RED ->
  wp (cp ← load rb_color p; update q (with_color cp);; update p (with_color BLACK);;
      r ← load rb_right p;
      if r =? ptr t then
        sl ← load rb_left q; c ← load rb_color sl; st_assert (is_red c);; update sl (with_color BLACK);; rbtree_rotate_right p
      else
        sr ← load rb_right q; c ← load rb_color sr; st_assert (is_red c);; update sr (with_color BLACK);; rbtree_rotate_left p)
     (fun _ s' => repaired s0 es s') s.
Proof using.
  intros [H Ht Hb [Hs Hc]] Ha. cbn [sibling fcolor] in Hs, Hc. destruct Hs as (m & [= <-] & Hra & Hrb).
  wp_step. eapply (wp_focused_frame rb_color _ _ _ _ _ _ _ H). cbn [frame_node rb_color]. apply focused_across in H. cbn [across sibling] in H.
  wp_step. eapply wp_focused_paint; [exact H|]. intros s1 H1.
  wp_step. eapply (wp_focused_paint_frame _ _ _ (InLeft cf p i t)); [exact H1|]. intros s2 H2. cbn [repaint] in H2.
  wp_step. eapply (wp_focused_frame rb_right _ _ _ _ _ _ _ H2). cbn [frame_node rb_right]. rewrite Z.eqb_refl.
  wp_step. eapply wp_focused_node; [exact H2|]. cbn [rb_left].
  apply (focused_in _ _ _ (InLeft cf q j b)) in H2. wp_step. eapply wp_focused_color; [exact H2|]. rewrite Ha. wp_step. apply wp_assert; [done|].
  wp_step. eapply wp_focused_paint_focus; [exact H2|by destruct a|]. intros s3 H3. apply focused_out, focused_out in H3. cbn [plug] in H3.
  eapply wp_focused_rotate_right; [exact H3|]. intros s4 H4.
  assert (Hra' : rb (S n) (paint BLACK a)).
  { destruct a as [|ca al ap ai ar]; [done|]. cbn in Ha. subst ca. destruct Hra as (_ & _ & ? & ?). by exists n. }
  assert (Hca : color (paint BLACK a) = BLACK) by (by destruct a).
  destruct cf.
  - eapply (repaired_by _ _ _ _ _ (S (S n))); [exact H4| |done|by left]. exists (S n). split_and!; [done..|]. by exists n.
  - destruct Hc as (_ & Hab & Hctx). eapply (repaired_by _ _ _ _ _ (S n)); [exact H4| |done|by right]. cbn. split_and!; try done. by exists n.
Qed.
Lemma wp_turn_left s0 es s cf p i a q j b ctx t n : short s0 es n (InLeft cf p i (Node BLACK a q j b) :: ctx) t s -> color b = RED ->
  wp (cp ← load rb_color p; update q (with_color cp);; update p (with_color BLACK);;
      r ← load rb_right p;
      if r =? ptr t then
        sl ← load rb_left q; c ← load rb_color sl; st_assert (is_red c);; update sl (with_color BLACK);; rbtree_rotate_right p
      else
        sr ← load rb_right q; c ← load rb_color sr; st_assert (is_red c);; update sr (with_color BLACK);; rbtree_rotate_left p)
     (fun _ s' => repaired s0 es s') s.
Proof using.
  intros [H Ht Hb [Hs Hc]] Ha. cbn [sibling fcolor] in Hs, Hc.
  pose proof (opposite_differs _ _ _ (InLeft cf p i (Node BLACK a q j b)) _ _ _ H Hs) as Hne. cbn [sibling ptr] in Hne. destruct Hs as (m & [= <-] & Hra & Hrb).
  wp_step. eapply (wp_focused_frame rb_color _ _ _ _ _ _ _ H). cbn [frame_node rb_color]. apply focused_across in H. cbn [across sibling] in H.
  wp_step. eapply wp_focused_paint; [exact H|]. intros s1 H1.
  wp_step. eapply (wp_focused_paint_frame _ _ _ (InRight cf t p i)); [exact H1|]. intros s2 H2. cbn [repaint] in H2.
  wp_step. eapply (wp_focused_frame rb_right _ _ _ _ _ _ _ H2). cbn [frame_node rb_right ptr]. rewrite (proj2 (Z.eqb_neq _ _)) by congruence.
  wp_step. eapply wp_focused_node; [exact H2|]. cbn [rb_right].
  apply (focused_in _ _ _ (InRight cf a q j)) in H2. wp_step. eapply wp_focused_color; [exact H2|]. rewrite Ha. wp_step. apply wp_assert; [done|].
  wp_step. eapply wp_focused_paint_focus; [exact H2|by destruct b|]. intros s3 H3. apply focused_out, focused_out in H3. cbn [plug] in H3.
  eapply wp_focused_rotate_left; [exact H3|]. intros s4 H4.
  assert (Hrb' : rb (S n) (paint BLACK b)).
  { destruct b as [|cb bl bp bi br]; [done|]. cbn in Ha. subst cb. destruct Hrb as (_ & _ & ? & ?). by exists n. }
  assert (Hcb : color (paint BLACK b) = BLACK) by (by destruct b).
  destruct cf.
  - eapply (repaired_by _ _ _ _ _ (S (S n))); [exact H4| |done|by left]. exists (S n). split_and!; [done| |done]. by exists n.
  - destruct Hc as (_ & Hab & Hctx). eapply (repaired_by _ _ _ _ _ (S n)); [exact H4| |done|by right]. cbn. split_and!; try done. by exists n.
Qed.

(** The inner child is red: it is brought to the outer side before. *)
Lemma wp_outer_right s0 es s cf a q j b p i ctx t n (Q : Z -> @rbtree K V -> Prop) :
  short s0 es n (InRight cf (Node BLACK a q j b) p i :: ctx) t s -> color a = RED \/ color b = RED ->
  (forall s' a' q' j' b', color a' = RED -> short s0 es n (InRight cf (Node BLACK a' q' j' b') p i :: ctx) t s' -> Q q' s') ->
  wp (delete_turn (ptr t) p q) Q s.
Proof using.
  intros [H Ht Hb Hc] Hab HQ. unfold delete_turn. pose proof (opposite_differs _ _ _ (InRight cf (Node BLACK a q j b) p i) _ _ _ H (proj1 Hc)) as Hne.
  wp_step. eapply (wp_focused_frame rb_right _ _ _ _ _ _ _ H). cbn [frame_node rb_right].
  wp_step. eapply (wp_focused_frame rb_left _ _ _ _ _ _ _ H). cbn [frame_node rb_left ptr sibling] in *.
  rewrite Z.eqb_refl, (proj2 (Z.eqb_neq q (ptr t))) by done. pose proof (proj1 (focused_across _ _ _ _ _ _) H) as H1. cbn [across sibling] in H1.
  wp_step. eapply wp_colors; [exact H1|]. destruct (color a) eqn:Ea; cbn [is_red andb negb].
  2:{ rewrite andb_false_r. wp_step. by eapply HQ. }
  destruct Hab as [|Eb]; [done|]. rewrite Eb. cbn [is_red andb negb]. destruct b as [|cb b1 k m b2]; [done|]. cbn [color] in Eb. subst cb.
  wp_step. eapply wp_focused_paint; [exact H1|]. intros s1 H2. wp_step. eapply wp_focused_node; [exact H2|]. cbn [rb_right].
  apply (focused_in _ _ _ (InRight RED a q j)) in H2. wp_step. eapply wp_focused_paint; [exact H2|]. intros s2 H3. apply focused_out in H3. cbn [plug] in H3.
  wp_step. eapply wp_focused_rotate_left; [exact H3|]. intros s3 H4. apply (proj2 (focused_across _ _ _ _ (InRight cf (Node BLACK (Node RED a q j b1) k m b2) p i) _)) in H4.
  destruct Hc as [(mm & [= <-] & Hra & Hb1 & _ & Hrb1 & Hrb2) Hc].
  assert (Hs : short s0 es n (InRight cf (Node BLACK (Node RED a q j b1) k m b2) p i :: ctx) t s3).
  { split; [done..|]. split; [|exact Hc]. cbn. exists n. by split_and!. }
  eapply (wp_sibling_of _ _ _ _ _ _ n _ H4); [apply Hs|]. eapply HQ; [|exact Hs]. done.
Qed.
Lemma wp_outer_left s0 es s cf a q j b p i ctx t n (Q : Z -> @rbtree K V -> Prop) :
  short s0 es n (InLeft cf p i (Node BLACK a q j b) :: ctx) t s -> color a = RED \/ color b = RED ->
  (forall s' a' q' j' b', color b' = RED -> short s0 es n (InLeft cf p i (Node BLACK a' q' j' b') :: ctx) t s' -> Q q' s') ->
  wp (delete_turn (ptr t) p q) Q s.
Proof using.
  intros [H Ht Hb Hc] Hab HQ. unfold delete_turn. pose proof (opposite_differs _ _ _ (InLeft cf p i (Node BLACK a q j b)) _ _ _ H (proj1 Hc)) as Hne.
  wp_step. eapply (wp_focused_frame rb_right _ _ _ _ _ _ _ H). cbn [frame_node rb_right].
  wp_step. eapply (wp_focused_frame rb_left _ _ _ _ _ _ _ H). cbn [frame_node rb_left ptr sibling] in *.
  rewrite Z.eqb_refl, (proj2 (Z.eqb_neq q (ptr t))) by done. pose proof (proj1 (focused_across _ _ _ _ _ _) H) as H1. cbn [across sibling] in H1.
  wp_step. eapply wp_colors; [exact H1|]. destruct (color b) eqn:Eb; cbn [is_red andb negb].
  2:{ rewrite andb_false_r. wp_step. by eapply HQ. }
  destruct Hab as [Ea|]; [|done]. rewrite Ea. cbn [is_red andb negb]. destruct a as [|ca a1 k m a2]; [done|]. cbn [color] in Ea. subst ca.
  wp_step. eapply wp_focused_paint; [exact H1|]. intros s1 H2. wp_step. eapply wp_focused_node; [exact H2|]. cbn [rb_left].
  apply (focused_in _ _ _ (InLeft RED q j b)) in H2. wp_step. eapply wp_focused_paint; [exact H2|]. intros s2 H3. apply focused_out in H3. cbn [plug] in H3.
  wp_step. eapply wp_focused_rotate_right; [exact H3|]. intros s3 H4. apply (proj2 (focused_across _ _ _ _ (InLeft cf p i (Node BLACK a1 k m (Node RED a2 q j b))) _)) in H4.
  destruct Hc as [(mm & [= <-] & (Ha1 & Ha2 & Hra1 & Hra2) & Hrb) Hc].
  assert (Hs : short s0 es n (InLeft cf p i (Node BLACK a1 k m (Node RED a2 q j b)) :: ctx) t s3).
  { split; [done..|]. split; [|exact Hc]. cbn. exists n. by split_and!. }
  eapply (wp_sibling_of _ _ _ _ _ _ n _ H4); [apply Hs|]. eapply HQ; [|exact Hs]. done.
Qed.

(** ** The end of the repair *)
Lemma wp_delete_finish s0 es s f ctx t n a q j b : short s0 es n (f :: ctx) t s -> sibling f = Node BLACK a q j b ->
  ~ (fcolor f = BLACK /\ color a = BLACK /\ color b = BLACK) ->
  wp (delete_finish (ptr t) (fptr f) q) (fun _ s' => repaired s0 es s') s.
Proof using.
  intros H Es Hnot. pose proof (sh_focused _ _ _ _ _ _ H) as Hf. unfold delete_finish.
  wp_step. eapply wp_focused_frame; [exact Hf|]. replace (rb_color _) with (fcolor f) by (by destruct f).
  apply focused_across in Hf. rewrite Es in Hf. pose proof (focus_not_null _ _ _ (fo_zipped _ _ _ _ _ Hf) ltac:(done)) as Hq. cbn [ptr] in Hq.
  assert (Enull : is_null q = false) by (by apply Z.eqb_neq).
  wp_step. eapply wp_colors; [exact Hf|]. destruct (is_red (fcolor f) && _ && _ && _) eqn:Ec.
  { rewrite Enull. cbn [negb]. assert (fcolor f = RED /\ color a = BLACK /\ color b = BLACK) as (E1 & E2 & E3) by (by destruct (fcolor f), (color a), (color b)).
    by eapply wp_move_red. }
  assert (Hab : color a = RED \/ color b = RED) by (destruct (fcolor f), (color a), (color b); naive_solver).
  rewrite Enull. wp_step. apply wp_assert; [done|]. wp_step. destruct f as [c p i u|c u p i]; cbn [sibling fptr] in *; subst u.
  - eapply wp_outer_left; [exact H|exact Hab|]. intros s1 a' q' j' b' Hb' H1. by eapply wp_turn_left.
  - eapply wp_outer_right; [exact H|exact Hab|]. intros s1 a' q' j' b' Ha' H1. by eapply wp_turn_right.
Qed.

(** ** Going up *)

(** A red sibling makes way for a black one. *)
Lemma wp_black_sibling s0 es s f ctx t n (Q : Z -> @rbtree K V -> Prop) : short s0 es n (f :: ctx) t s ->
  (forall s' f' ctx' a q j b, fptr f' = fptr f -> short s0 es n (f' :: ctx') t s' -> sibling f' = Node BLACK a q j b ->
     fcolor f' = RED \/ length ctx' = length ctx -> Q q s') ->
  wp (c ← load rb_color (ptr (sibling f));
      if is_red c then
        update (fptr f) (with_color RED);; update (ptr (sibling f)) (with_color BLACK);;
        r ← load rb_right (fptr f);
        (if r =? ptr t then rbtree_rotate_right (fptr f) else rbtree_rotate_left (fptr f));;
        sibling_of (ptr t) (fptr f)
      else mret (ptr (sibling f))) Q s.
Proof using.
  intros [H Ht Hb Hc] HQ. pose proof (opposite_differs _ _ _ _ _ _ _ H (proj1 Hc)) as Hne.
  pose proof (proj1 (focused_across _ _ _ _ _ _) H) as Ha. wp_step. eapply wp_focused_color; [exact Ha|].
  destruct (sibling f) as [|c a q j b] eqn:Es; [by destruct Hc as [Hs _]; rewrite Es in Hs|]. cbn [color ptr] in *. destruct c; cbn [is_red].
  { wp_step. by eapply HQ; [|split|exact Es|right]. }
  destruct Hc as [Hs Hc]. rewrite Es in Hs, Hc. destruct (fcolor f) eqn:Ef; [|by destruct Hc]. destruct Hs as (Ca & Cb & Ra & Rb).
  wp_step. eapply wp_focused_paint_frame; [exact H|]. intros s1 H1. apply focused_across in H1.
  replace (sibling (repaint RED f)) with (Node RED a q j b) in H1 by (by destruct f).
  wp_step. eapply wp_focused_paint; [exact H1|]. intros s2 H2. destruct f as [c p i u|c u p i]; cbn [sibling fcolor] in Es, Ef; subst u c; cbn in H2.
  - apply focused_out in H2. cbn [plug] in H2. wp_step. eapply wp_focused_node; [exact H2|]. cbn [rb_right fptr ptr].
    rewrite (proj2 (Z.eqb_neq _ _)) by congruence. wp_step. eapply wp_focused_rotate_left; [exact H2|]. intros s3 H3.
    apply (focused_in _ _ _ (InLeft BLACK q j b)), (focused_in _ _ _ (InLeft RED p i a)) in H3.
    destruct a as [|[] a1 k m a2]; [done| |done].
    assert (Hs : short s0 es n (InLeft RED p i (Node BLACK a1 k m a2) :: InLeft BLACK q j b :: ctx) t s3) by (by split).
    eapply (wp_sibling_of _ _ _ _ _ _ n _ H3); [apply Hs|]. eapply HQ; [|exact Hs|done|by left]. done.
  - apply focused_out in H2. cbn [plug] in H2. wp_step. eapply wp_focused_node; [exact H2|]. cbn [rb_right fptr ptr].
    rewrite Z.eqb_refl. wp_step. eapply wp_focused_rotate_right; [exact H2|]. intros s3 H3.
    apply (focused_in _ _ _ (InRight BLACK a q j)), (focused_in _ _ _ (InRight RED b p i)) in H3.
    destruct b as [|[] b1 k m b2]; [done| |done].
    assert (Hs : short s0 es n (InRight RED (Node BLACK b1 k m b2) p i :: InRight BLACK a q j :: ctx) t s3) by (by split).
    eapply (wp_sibling_of _ _ _ _ _ _ n _ H3); [apply Hs|]. eapply HQ; [|exact Hs|done|by left]. done.
Qed.

(** Where going up stops. *)
Definition stopped (s0 : @rbtree K V) es (r : option (Z * Z * Z)) s : Prop :=
  match r with
  | None => repaired s0 es s
  | Some (child, parent, sib) => exists f ctx t n a j b, child = ptr t /\ parent = fptr f /\ short s0 es n (f :: ctx) t s /\
      sibling f = Node BLACK a sib j b /\ ~ (fcolor f = BLACK /\ color a = BLACK /\ color b = BLACK)
  end.

Lemma wp_go_up s0 es s ctx t n : short s0 es n ctx t s -> wp (delete_go_up (ptr t) (top ctx)) (stopped s0 es) s.
Proof using.
  intros H. unfold delete_go_up. wp_step. wp_step. wp_step. eapply (wp_sibling_above _ _ _ _ _ n); [apply H|apply H|]. intros sib Hsib.
  eapply (wp_iter_down (fun m st s1 => exists ctx t n sib, m = length ctx /\ st = (ptr t, top ctx, sib) /\ short s0 es n ctx t s1 /\
    (forall f ctx', ctx = f :: ctx' -> sib = ptr (sibling f)))) with (k := length ctx).
  2:{ by exists ctx, t, n, sib. }
  2:{ pose proof (enough_rounds _ _ _ (fo_zipped _ _ _ _ _ (sh_focused _ _ _ _ _ _ H))). pose proof (length_context ctx t). lia. }
  clear H Hsib ctx t n sib s. intros m st s (ctx & t & n & sib & -> & -> & H & Hsib). destruct ctx as [|f ctx].
  { change (is_null (top [])) with true. cbv iota. wp_step. destruct H as [H Ht Hb _]. eapply (repaired_by _ _ _ [] t n); [done|done|done|by left]. }
  cbn [top_from]. rewrite (Hsib f ctx eq_refl), (frame_not_null _ _ _ _ (fo_zipped _ _ _ _ _ (sh_focused _ _ _ _ _ _ H))). clear Hsib.
  apply wp_assoc. wp_step. eapply wp_black_sibling; [exact H|]. intros s1 f1 ctx1 a q j b Ep H1 Es Hred. clear H s. rewrite <-Ep. clear Ep.
  pose proof (sh_focused _ _ _ _ _ _ H1) as Hf. wp_step. eapply wp_focused_frame; [exact Hf|]. replace (rb_color _) with (fcolor f1) by (by destruct f1).
  apply focused_across in Hf. rewrite Es in Hf. wp_step. eapply wp_colors; [exact Hf|].
  destruct (_ && _ && _ && _) eqn:Ec.
  2:{ wp_step. exists f1, ctx1, t, n, a, j, b. split_and!; [done|done|done|done|]. intros (E1 & E2 & E3). by rewrite E1, E2, E3 in Ec. }
  assert (fcolor f1 = BLACK /\ color a = BLACK /\ color b = BLACK) as (E1 & E2 & E3) by (by destruct (fcolor f1), (color a), (color b)).
  destruct Hred as [|El]; [congruence|]. unfold is_null.
  rewrite (proj2 (Z.eqb_neq _ _)) by (exact (focus_not_null _ _ _ (fo_zipped _ _ _ _ _ Hf) ltac:(done))). cbn [negb].
  wp_step. eapply wp_focused_paint; [exact Hf|]. intros s2 H2.
  assert (Hup : exists u, ptr u = fptr f1 /\ short s0 es (S n) ctx1 u s2).
  { destruct H1 as [_ Ht Hb [Hs Hc]]. rewrite Es in Hs. destruct Hs as (mm & [= <-] & Ra & Rb). rewrite E1 in Hc. apply focused_out in H2.
    eexists. split; [|split; [exact H2| | |exact Hc]]; destruct f1; cbn in *; subst; try done; exists n; by split_and!. }
  destruct Hup as (u & <- & Hu). pose proof (sh_focused _ _ _ _ _ _ Hu) as Hfu.
  assert (Hpar : forall Q, Q (top ctx1) s2 -> wp (load rb_parent (ptr u)) Q s2).
  { intros Q HQ. destruct u as [|cu lu pu iu ru]; [by destruct Hu|]. by eapply wp_focused_node. }
  wp_step. apply Hpar. wp_step. eapply (wp_sibling_above _ _ _ _ _ (S n)); [exact Hfu|apply Hu|]. intros sib' Hsib'.
  wp_step. exists (length ctx1). split; [cbn; lia|]. by exists ctx1, u, (S n), sib'.
Qed.

Lemma wp_delete_fixup s0 es s ctx t n : short s0 es n ctx t s -> wp (rbtree_delete_fixup (ptr t) (top ctx)) (fun _ s' => repaired s0 es s') s.
Proof using.
  intros H. unfold rbtree_delete_fixup. wp_step. eapply wp_mono; [by eapply wp_go_up|].
  intros [[[child parent] sib]|] s1 Hs; [|by wp_step]. destruct Hs as (f & ctx1 & t1 & n1 & a & j & b & -> & -> & H1 & Es & Hnot).
  by eapply wp_delete_finish.
Qed.
End repair.
