(* ===== verification/RbtreeSwap.v ===== *)
(** What deletion from the trees of Rbtree.v does to the pointers: two nodes
    change places, and a node with one child at most is cut out. *)

From S2P Require Import Prelude Dname DnamePacket Namedb Rbtree RbtreeShape RbtreeBalance RbtreeInsert RbtreeOrder RbtreeWalk.

Section swap.
Context {K V : Type}.
Abbreviation tree := (@tree K V).
Abbreviation context := (@context K V).
Abbreviation frame := (@frame K V).
Implicit Types (t l r a b u : tree) (ctx : context) (f : frame) (s : @rbtree K V).

(** * Pointers to and from a place *)
Lemma wp_change_child t old new s (Q : unit -> @rbtree K V -> Prop) : tree_at (rb_nodes s) old t -> RBTREE_NULL ∉ ptrs t ->
  Q tt (parented t new s) -> wp (change_child_ptr (ptr t) old new) Q s.
Proof using.
  intros Ht Hn HQ. unfold change_child_ptr, is_null. destruct t as [|c l p i r]; [by change (wp (mret tt) Q s)|]. cbn in Hn. rewrite map_app in Hn. cbn [ptr].
  rewrite (proj2 (Z.eqb_neq p RBTREE_NULL)) by set_solver. destruct Ht as (H & _). wp_step. eapply wp_load; [exact H|]. cbn [rb_parent].
  rewrite Z.eqb_refl. wp_step. apply wp_assert; [done|]. eapply wp_update_node; [exact H|]. unfold parented in HQ. cbn [ptr] in HQ. by rewrite H in HQ.
Qed.
Lemma wp_changed_child t old new s (Q : unit -> @rbtree K V -> Prop) : tree_at (rb_nodes s) new t -> RBTREE_NULL ∉ ptrs t -> old <> new ->
  Q tt s -> wp (change_child_ptr (ptr t) old new) Q s.
Proof using.
  intros Ht Hn Hne HQ. unfold change_child_ptr, is_null. destruct t as [|c l p i r]; [by change (wp (mret tt) Q s)|]. cbn in Hn. rewrite map_app in Hn. cbn [ptr].
  rewrite (proj2 (Z.eqb_neq p RBTREE_NULL)) by set_solver. destruct Ht as (H & _). wp_step. eapply wp_load; [exact H|]. cbn [rb_parent].
  rewrite Z.eqb_refl, orb_true_r. wp_step. apply wp_assert; [done|]. rewrite (proj2 (Z.eqb_neq new old)) by done. by wp_step.
Qed.

Lemma wp_change_parent_frame f ctx outer hole new s (Q : unit -> @rbtree K V -> Prop) : context_at (rb_nodes s) outer hole (f :: ctx) ->
  fptr f <> RBTREE_NULL -> ptr (sibling f) <> hole -> Q tt (linked (f :: ctx) new s) -> wp (change_parent_ptr (fptr f) hole new) Q s.
Proof using.
  intros [H _] Hf Hs HQ. unfold change_parent_ptr, is_null. rewrite (proj2 (Z.eqb_neq _ _)) by done. unfold linked in HQ.
  destruct f as [c p i u|c u p i]; cbn [fptr sibling frame_at with_hole] in *; destruct H as [H _]; rewrite H in HQ.
  - wp_step. eapply wp_load; [exact H|]. cbn [rb_left]. wp_step. eapply wp_load; [exact H|]. rewrite Z.eqb_refl. wp_step. apply wp_assert; [done|].
    wp_step. eapply wp_update_node; [exact H|]. wp_step. eapply wp_load; [apply lookup_insert_eq|]. cbn [rb_right with_left].
    rewrite (proj2 (Z.eqb_neq _ _)) by done. by wp_step.
  - wp_step. eapply wp_load; [exact H|]. cbn [rb_left]. wp_step. eapply wp_load; [exact H|]. cbn [rb_right].
    rewrite Z.eqb_refl, (proj2 (Z.eqb_neq _ _)) by done. wp_step. apply wp_assert; [done|].
    wp_step. wp_step. wp_step. eapply wp_load; [exact H|]. cbn [rb_right]. rewrite Z.eqb_refl. by eapply wp_update_node.
Qed.
Lemma wp_change_parent ctx hole new s (Q : unit -> @rbtree K V -> Prop) : context_at (rb_nodes s) RBTREE_NULL hole ctx ->
  NoDup (RBTREE_NULL :: cptrs ctx) -> hole <> RBTREE_NULL -> hole ∉ cptrs ctx -> (ctx = [] -> rb_root s = hole) ->
  Q tt (linked ctx new s) -> wp (change_parent_ptr (top ctx) hole new) Q s.
Proof using.
  intros H Hd Hh Hout Hroot HQ. destruct ctx as [|f ctx].
  - unfold change_parent_ptr. change (is_null (top [])) with true. cbv iota. wp_step. apply wp_root_of. rewrite Hroot by done.
    rewrite Z.eqb_refl. wp_step. apply wp_assert; [done|]. by apply wp_set_root.
  - eapply wp_change_parent_frame; [exact H| | |exact HQ].
    + apply NoDup_cons in Hd as [Hd _]. intros E. apply Hd. rewrite <-E. by apply (top_elem (f :: ctx)).
    + eapply (hole_not_sibling (f :: ctx)); [done|exact Hout|done].
Qed.

Lemma wp_change_child_at x n i old new s (Q : unit -> @rbtree K V -> Prop) : rb_nodes s !! x = Some n -> rb_parent n = old -> x <> RBTREE_NULL ->
  Q tt (parented (Node BLACK Leaf x i Leaf) new s) -> wp (change_child_ptr x old new) Q s.
Proof using.
  intros H Hp Hx HQ. unfold change_child_ptr, is_null. rewrite (proj2 (Z.eqb_neq x RBTREE_NULL)) by done. wp_step. eapply wp_load; [exact H|].
  rewrite Hp, Z.eqb_refl. wp_step. apply wp_assert; [done|]. eapply wp_update_node; [exact H|]. unfold parented in HQ. cbn [ptr] in HQ. by rewrite H in HQ.
Qed.
Lemma wp_change_child_none old new s (Q : unit -> @rbtree K V -> Prop) : Q tt s -> wp (change_child_ptr RBTREE_NULL old new) Q s.
Proof using. intros HQ. unfold change_child_ptr. change (is_null RBTREE_NULL) with true. cbv iota. by wp_step. Qed.

Lemma context_root h outer ctx : ctx <> [] -> forall hole, context_at h outer hole ctx ->
  exists n : @rbnode K V, h !! root_from ctx hole = Some n /\ rb_parent n = outer.
Proof using.
  induction ctx as [|f ctx IH]; [done|]. intros _ hole [H1 H2]. destruct ctx as [|g ctx]; [|by apply (IH ltac:(done) (fptr f))].
  cbn. destruct f; cbn in *; destruct H1 as [H1 _]; by eexists.
Qed.

(** * Lookups, where only the lookups before count *)
Lemma parented_cong t q s1 s2 x : rb_nodes s1 !! x = rb_nodes s2 !! x -> rb_nodes (parented t q s1) !! x = rb_nodes (parented t q s2) !! x.
Proof using.
  intros H. unfold parented. destruct t as [|c l p i r]; [done|]. cbn [ptr]. destruct (decide (x = p)) as [->|Hne].
  - rewrite H. destruct (rb_nodes s2 !! p) eqn:E; [cbn; by rewrite !lookup_insert_eq|]. by rewrite H, E.
  - destruct (rb_nodes s1 !! p), (rb_nodes s2 !! p); cbn; by rewrite ?insert_frame.
Qed.
Lemma linked_cong ctx q s1 s2 x : rb_nodes s1 !! x = rb_nodes s2 !! x -> rb_nodes (linked ctx q s1) !! x = rb_nodes (linked ctx q s2) !! x.
Proof using.
  intros H. unfold linked. destruct ctx as [|f ctx]; [done|]. destruct (decide (x = fptr f)) as [->|Hne].
  - rewrite H. destruct (rb_nodes s2 !! fptr f) eqn:E; [cbn; by rewrite !lookup_insert_eq|]. by rewrite H, E.
  - destruct (rb_nodes s1 !! fptr f), (rb_nodes s2 !! fptr f); cbn; by rewrite ?insert_frame.
Qed.

(** The context within a tree: its outermost node gets another parent. *)
Lemma root_from_elem f ctx hole : root_from (f :: ctx) hole ∈ cptrs (f :: ctx).
Proof using.
  cbn [root_from]. revert f. induction ctx as [|g ctx IH]; intros f; [by apply (top_elem [f])|].
  specialize (IH g). cbn [root_from] in *. rewrite cptrs_cons. set_solver.
Qed.
Lemma tree_at_fill h outer ctx : forall t, tree_at h outer (fill ctx t) <-> tree_at h (top_from outer ctx) t /\ context_at h outer (ptr t) ctx.
Proof using.
  induction ctx as [|f ctx IH]; intros t; [cbn; tauto|]. change (fill (f :: ctx) t) with (fill ctx (plug t f)). rewrite IH.
  destruct f; cbn [plug ptr top_from context_at frame_at tree_at fptr]; tauto.
Qed.
Lemma context_at_parented ctx outer hole q s t : ctx <> [] -> NoDup (cptrs ctx) -> t <> Leaf -> ptr t = root_from ctx hole ->
  context_at (rb_nodes s) outer hole ctx -> context_at (rb_nodes (parented t q s)) q hole ctx.
Proof using.
  intros Hne Hd Ht. revert hole Hne Hd. induction ctx as [|f ctx IH]; intros hole Hne Hd Hp; [done|]. clear Hne. intros [H1 H2].
  cbn [root_from] in Hp. rewrite cptrs_cons in Hd. apply NoDup_cons in Hd as [Hf Hd]. apply NoDup_app in Hd as (_ & Hdisj & Hd).
  assert (Hrest : forall x, x <> ptr t -> rb_nodes (parented t q s) !! x = rb_nodes s !! x).
  { intros x Hx. unfold parented. destruct t as [|c l p i r]; [done|]. destruct (rb_nodes s !! _); [|done]. by apply insert_frame. }
  destruct ctx as [|g ctx].
  - cbn [root_from] in Hp. cbn [context_at top_from]. split; [|done].
    assert (Hn : rb_nodes (parented t q s) !! fptr f = with_parent q <$> rb_nodes s !! fptr f).
    { unfold parented. destruct t as [|c l p i r]; [done|]. rewrite Hp. destruct (rb_nodes s !! fptr f) eqn:E; [cbn; by rewrite lookup_insert_eq|by rewrite E]. }
    destruct f; cbn in *; destruct H1 as [H1 H3]; rewrite Hn, H1; (split; [done|]); (eapply tree_at_frame; [|exact H3]); intros x Hx; apply Hrest; set_solver.
  - cbn [root_from] in Hp. assert (Hin : ptr t ∈ cptrs (g :: ctx)) by (rewrite Hp; apply (root_from_elem g ctx (fptr f))).
    split; [|by apply IH]. cbn [top_from] in *.
    destruct f; cbn in *; destruct H1 as [H1 H3]; rewrite Hrest by (intros E; apply Hf; rewrite E; set_solver); (split; [done|]);
      (eapply tree_at_frame; [|exact H3]); intros x Hx; apply Hrest; intros E; subst; by apply (Hdisj (ptr t)).
Qed.
Lemma context_at_app h outer (a b : context) : forall hole, context_at h outer hole (a ++ b) <->
  context_at h (top_from outer b) hole a /\ context_at h outer (root_from a hole) b.
Proof using.
  induction a as [|f a IH]; intros hole; [cbn; tauto|]. cbn [app context_at root_from]. rewrite IH.
  replace (top_from outer (a ++ b)) with (top_from (top_from outer b) a) by (by destruct a). tauto.
Qed.
Lemma root_from_app (a b : context) hole : root_from (a ++ b) hole = root_from b (root_from a hole).
Proof using. revert hole. induction a as [|f a IH]; intros hole; [done|]. cbn. apply IH. Qed.

Lemma before_app (a b : context) : before (a ++ b) = before b ++ before a.
Proof using. induction a as [|f a IH]; cbn; [by rewrite app_nil_r|]. by rewrite IH, <-app_assoc. Qed.
Lemma after_app (a b : context) : after (a ++ b) = after a ++ after b.
Proof using. induction a as [|f a IH]; cbn; [done|]. by rewrite IH, <-app_assoc. Qed.

(** * Changing places *)

(** Two nodes, two subtrees and two contexts that share no address. *)
Record scattered (p q : Z) (A B C D : list Z) : Prop := {
  sc_null : p <> RBTREE_NULL /\ q <> RBTREE_NULL /\ p <> q;
  sc_p : ~ (p ∈ A) /\ ~ (p ∈ B) /\ ~ (p ∈ C) /\ ~ (p ∈ D);
  sc_q : ~ (q ∈ A) /\ ~ (q ∈ B) /\ ~ (q ∈ C) /\ ~ (q ∈ D);
  sc_none : ~ (RBTREE_NULL ∈ A) /\ ~ (RBTREE_NULL ∈ B) /\ ~ (RBTREE_NULL ∈ C) /\ ~ (RBTREE_NULL ∈ D);
  sc_nodup : NoDup A /\ NoDup B /\ NoDup C /\ NoDup D;
  sc_elem x : (x ∈ A -> ~ (x ∈ B) /\ ~ (x ∈ C) /\ ~ (x ∈ D)) /\ (x ∈ B -> ~ (x ∈ A) /\ ~ (x ∈ C) /\ ~ (x ∈ D)) /\
    (x ∈ C -> ~ (x ∈ A) /\ ~ (x ∈ B) /\ ~ (x ∈ D)) /\ (x ∈ D -> ~ (x ∈ A) /\ ~ (x ∈ B) /\ ~ (x ∈ C));
  sc_other x : x ∈ A \/ x ∈ B \/ x ∈ C \/ x ∈ D -> x <> RBTREE_NULL /\ x <> p /\ x <> q;
}.
Lemma nodup_scattered p q A B C D : NoDup (RBTREE_NULL :: p :: q :: A ++ B ++ C ++ D) -> scattered p q A B C D.
Proof using.
  rewrite !NoDup_cons. intros (H1 & H2 & H3 & H4). rewrite !elem_of_cons, !elem_of_app in H1. rewrite !elem_of_cons, !elem_of_app in H2.
  rewrite !elem_of_app in H3. destruct (nodup_parts _ _ _ _ H4) as [Hn He].
  split; [split_and!; intros E; naive_solver|tauto|tauto|tauto|done| |].
  - intros x. specialize (He x). tauto.
  - intros x Hx. split_and!; intros ->; tauto.
Qed.

Section places.
Context (s : @rbtree K V) (ctx lefts : context) (c c2 : rbcolor) (l r2 : tree) (p q : Z) (i j : K * V).
Context (H : zipped s (lefts ++ InRight c l p i :: ctx) (Node c2 Leaf q j r2)).

Lemma places_scattered : scattered p q (ptrs l) (ptrs r2) (cptrs lefts) (cptrs ctx).
Proof using H.
  apply nodup_scattered. eapply nodup_perm; [|exact (z_distinct _ _ _ H)]. unfold around_hole. cbn.
  rewrite before_app, after_app. cbn. rewrite !map_app. cbn. solve_Permutation.
Qed.

Lemma places_at : rb_nodes s !! p = Some (mkrbnode (top ctx) (ptr l) (root_from lefts q) (Some i) c) /\ tree_at (rb_nodes s) p l /\
  rb_nodes s !! q = Some (mkrbnode (top_from p lefts) RBTREE_NULL (ptr r2) (Some j) c2) /\ tree_at (rb_nodes s) q r2 /\
  context_at (rb_nodes s) p q lefts /\ context_at (rb_nodes s) RBTREE_NULL p ctx.
Proof using H.
  destruct H as [_ H2 H3 _ _]. apply context_at_app in H3 as [H3 [[H4 H5] H6]]. cbn in H2. destruct H2 as (H7 & _ & H8).
  cbn [top_from fptr ptr] in *. replace (top_from _ (lefts ++ _)) with (top_from p lefts) in * by (by destruct lefts). by split_and!.
Qed.

Lemma places_root : rb_root s = root_from ctx p.
Proof using H. rewrite (z_root _ _ _ H). by rewrite root_from_app. Qed.

Lemma places_within : let W := addresses (whole (lefts ++ InRight c l p i :: ctx) (Node c2 Leaf q j r2)) in
  p ∈ W /\ q ∈ W /\ ptrs l ⊆ W /\ ptrs r2 ⊆ W /\ cptrs lefts ⊆ W /\ cptrs ctx ⊆ W.
Proof using H.
  intros W. assert (E : forall x, x ∈ W <-> x ∈ (q :: ptrs r2) \/ x ∈ (cptrs lefts ++ p :: ptrs l ++ cptrs ctx)).
  { intros x. unfold W. rewrite elem_whole. cbn [elems]. unfold around_hole. rewrite before_app, after_app. cbn. rewrite !map_app. cbn. set_solver. }
  split_and!; [apply E; set_solver|apply E; set_solver|intros x Hx; apply E; set_solver..].
Qed.

(** The nodes as they are after the exchange. *)
Lemma places_swapped s' : rb_nodes s' !! RBTREE_NULL = Some rbtree_null_node ->
  rb_nodes s' !! q = Some (mkrbnode (top ctx) (ptr l) (root_from lefts p) (Some j) c) -> tree_at (rb_nodes s') q l ->
  rb_nodes s' !! p = Some (mkrbnode (top_from q lefts) RBTREE_NULL (ptr r2) (Some i) c2) -> tree_at (rb_nodes s') p r2 ->
  context_at (rb_nodes s') q p lefts -> context_at (rb_nodes s') RBTREE_NULL q ctx -> rb_root s' = root_from ctx q ->
  zipped s' (lefts ++ InRight c l q j :: ctx) (Node c2 Leaf p i r2).
Proof using H.
  intros Hn Hq Hl Hp Hr Hlefts Hctx Hroot. split; [done| | | |].
  - cbn. replace (top_from _ (lefts ++ _)) with (top_from q lefts) by (by destruct lefts). done.
  - apply context_at_app. cbn [top_from fptr ptr context_at frame_at]. by split_and!.
  - rewrite root_from_app. exact Hroot.
  - eapply nodup_perm; [|exact (z_distinct _ _ _ H)]. unfold around_hole. cbn.
    rewrite !before_app, !after_app. cbn. rewrite !map_app. cbn. solve_Permutation.
Qed.

(** ** The code *)
Lemma wp_swap_int8 x y n m s1 (Q : unit -> @rbtree K V -> Prop) : rb_nodes s1 !! x = Some n -> rb_nodes s1 !! y = Some m -> x <> y ->
  Q tt (store_node y (with_color (rb_color n) m) (store_node x (with_color (rb_color m) n) s1)) -> wp (swap_int8 x y) Q s1.
Proof using.
  intros Hx Hy Hne HQ. unfold swap_int8. wp_step. eapply wp_load; [done|]. wp_step. eapply wp_load; [done|].
  wp_step. eapply wp_update_node; [done|]. eapply wp_update_node; [at_ptr|done].
Qed.
Lemma wp_swap_np field with_field x y n m s1 (Q : unit -> @rbtree K V -> Prop) : rb_nodes s1 !! x = Some n -> rb_nodes s1 !! y = Some m -> x <> y ->
  Q tt (store_node y (with_field (field n) m) (store_node x (with_field (field m) n) s1)) -> wp (swap_np field with_field x y) Q s1.
Proof using.
  intros Hx Hy Hne HQ. unfold swap_np. wp_step. eapply wp_load; [done|]. wp_step. eapply wp_load; [done|].
  wp_step. eapply wp_update_node; [done|]. eapply wp_update_node; [at_ptr|done].
Qed.

(** All pointers of the two nodes. *)
Definition exchanged x y n m s1 : @rbtree K V :=
  store_node y (mkrbnode (rb_parent n) (rb_left n) (rb_right n) (rb_item m) (rb_color m))
    (store_node x (mkrbnode (rb_parent m) (rb_left m) (rb_right m) (rb_item n) (rb_color n)) s1).
Lemma wp_swap_fields x y n m s1 (Q : unit -> @rbtree K V -> Prop) : rb_nodes s1 !! x = Some n -> rb_nodes s1 !! y = Some m -> x <> y ->
  Q tt (exchanged x y n m s1) ->
  wp (swap_np rb_parent with_parent x y;; swap_np rb_left with_left x y;; swap_np rb_right with_right x y) Q s1.
Proof using.
  intros Hx Hy Hne HQ. wp_step. eapply wp_swap_np; [done|done|done|]. wp_step. eapply wp_swap_np; [at_ptr|at_ptr|done|].
  eapply wp_swap_np; [at_ptr|at_ptr|done|]. unfold with_parent, with_left, with_right. cbn [rb_parent rb_left rb_right rb_item rb_color].
  match goal with |- Q tt ?st => replace st with (exchanged x y n m s1); [done|] end.
  unfold exchanged, store_node. cbn. f_equal. apply map_eq. intros z.
  destruct (decide (z = y)) as [->|]; [|destruct (decide (z = x)) as [->|]]; by repeat first [rewrite lookup_insert_eq | rewrite insert_frame by done].
Qed.

(** *** The two are not parent and child *)
Section apart.
Context (g : frame) (lefts' : context) (El : lefts = g :: lefts') (Hsib : ptr (sibling g) <> q).

(** The root of the subtree, as far as its parent counts. *)
Abbreviation rt := (root_from lefts q).
Abbreviation T := (Node BLACK Leaf rt i Leaf).
Definition np : @rbnode K V := mkrbnode (top ctx) (ptr l) rt (Some i) c2.
Definition nq : @rbnode K V := mkrbnode (fptr g) RBTREE_NULL (ptr r2) (Some j) c.
Definition around_apart : @rbtree K V :=
  parented T q (parented l q (parented r2 p (linked lefts p (linked ctx q (store_node q nq (store_node p np s)))))).

Lemma apart_facts : scattered p q (ptrs l) (ptrs r2) (cptrs lefts) (cptrs ctx) /\ rt ∈ cptrs lefts /\ root_from lefts p = rt /\
  (forall x, top_from x lefts = fptr g) /\ fptr g ∈ cptrs lefts /\ (forall x, x ∈ ptrs T -> x ∈ cptrs lefts).
Proof using H El.
  assert (Hrt : rt ∈ cptrs lefts) by (rewrite El; apply root_from_elem). split_and!; [exact places_scattered|exact Hrt|by rewrite El|by rewrite El| |].
  - rewrite El. by apply (top_elem (g :: lefts')).
  - intros x Hx. cbn in Hx. by apply list_elem_of_singleton in Hx as ->.
Qed.

Ltac apart_setup :=
  destruct apart_facts as (Hsc & Hrt & Eroot & Htop & Hg & HT);
  pose proof Hsc as [(Np & Nq & Npq) Sp Sq Sn (ND1 & ND2 & ND3 & ND4) _ _];
  assert (Hel := sc_elem _ _ _ _ _ _ Hsc); assert (Hot := sc_other _ _ _ _ _ _ Hsc);
  destruct places_at as (Hp & Hl & Hq & Hr & Hlefts & Hctx); rewrite Htop in Hq;
  assert (~ (p ∈ ptrs T) /\ ~ (q ∈ ptrs T) /\ ~ (RBTREE_NULL ∈ ptrs T)) as (TP & TQ & TN) by
    (pose proof (HT p); pose proof (HT q); pose proof (HT RBTREE_NULL); tauto).
Lemma apart_zipped s' : s' = exchanged p q np nq around_apart -> zipped s' (lefts ++ InRight c l q j :: ctx) (Node c2 Leaf p i r2).
Proof using H El Hsib.
  intros ->. apart_setup. unfold exchanged, around_apart. cbn [rb_parent rb_left rb_right rb_item rb_color np nq]. eapply places_swapped.
  - pose proof (z_null _ _ _ H). at_ptr.
  - rewrite Eroot. at_ptr.
  - eapply tree_at_frame; [|eapply (tree_at_parented l q s p); [done|exact Hl]].
    intros x Hx. specialize (Hel x). specialize (Hot x). specialize (HT x). cbn [rb_nodes store_node]. rewrite !insert_frame by tauto.
    rewrite lookup_parented by tauto. apply parented_cong. at_ptr.
  - rewrite Htop. at_ptr.
  - eapply tree_at_frame; [|eapply (tree_at_parented r2 p s q); [done|exact Hr]].
    intros x Hx. specialize (Hel x). specialize (Hot x). specialize (HT x). cbn [rb_nodes store_node]. rewrite !insert_frame by tauto.
    rewrite !lookup_parented by tauto. apply parented_cong. at_ptr.
  - eapply context_at_frame; [|eapply (context_at_parented lefts p p q (linked lefts p s) T)]; [|by rewrite El|done|done|by rewrite Eroot|by eapply context_at_linked].
    intros x Hx. specialize (Hel x). specialize (Hot x). cbn [rb_nodes store_node]. rewrite !insert_frame by tauto.
    apply parented_cong. rewrite !lookup_parented by tauto. apply linked_cong. at_ptr.
  - eapply context_at_frame; [|eapply (context_at_linked ctx _ p q s); [done|exact Hctx]].
    intros x Hx. specialize (Hel x). specialize (Hot x). specialize (HT x). cbn [rb_nodes store_node]. rewrite !insert_frame by tauto.
    rewrite !lookup_parented by tauto. rewrite lookup_linked by tauto. apply linked_cong. at_ptr.
  - cbn [rb_root store_node]. rewrite !(proj1 (root_parented _ _ _)), !root_linked. cbn [rb_root store_node]. rewrite El.
    pose proof places_root as Er. destruct ctx as [|f ctx']; [done|]. cbn. by rewrite Er.
Qed.
Lemma apart_changed : changed s (exchanged p q np nq around_apart) (whole (lefts ++ InRight c l p i :: ctx) (Node c2 Leaf q j r2)).
Proof using H El Hsib.
  apart_setup. destruct places_within as (? & ? & ? & ? & ? & ?).
  repeat first [apply changed_refl | eapply changed_store | eapply changed_parented | eapply changed_linked]; try eassumption. set_solver.
Qed.

Lemma wp_swap_apart (Q : unit -> @rbtree K V -> Prop) :
  (forall s', zipped s' (lefts ++ InRight c l q j :: ctx) (Node c2 Leaf p i r2) ->
     changed s s' (whole (lefts ++ InRight c l p i :: ctx) (Node c2 Leaf q j r2)) -> Q tt s') ->
  wp (swap_places p q) Q s.
Proof using H El Hsib.
  intros HQ. apart_setup. pose proof (Hot _ (or_intror (or_intror (or_introl Hrt)))) as (Rn & Rp & Rq).
  pose proof (Hot _ (or_intror (or_intror (or_introl Hg)))) as (Gn & Gp & Gq). unfold swap_places.
  wp_step. eapply wp_swap_int8; [at_ptr|at_ptr|done|]. change (store_node q _ (store_node p _ s)) with (store_node q nq (store_node p np s)).
  wp_step. eapply wp_load; [at_ptr|]. cbn [rb_parent np].
  wp_step. apply wp_change_parent; [|apply NoDup_cons; tauto|done|tauto| |].
  { eapply context_at_frame; [|exact Hctx]. intros x Hx. specialize (Hel x). specialize (Hot x). at_ptr. }
  { intros Ectx. cbn. rewrite places_root. by rewrite Ectx. }
  wp_step. eapply wp_load; [at_ptr|]. cbn [rb_right np]. rewrite (proj2 (Z.eqb_neq rt q)) by done. cbn [negb].
  wp_step. wp_step. eapply wp_load; [at_ptr|]. cbn [rb_parent nq].
  eapply (wp_change_parent_frame g lefts' p q); [|done|done|].
  { rewrite <-El. eapply context_at_frame; [|exact Hlefts]. intros x Hx. specialize (Hel x). specialize (Hot x). at_ptr. }
  rewrite <-El. wp_step. eapply wp_load; [at_ptr|]. cbn [rb_left nq].
  wp_step. apply wp_change_child_none. wp_step. apply wp_change_child_none.
  wp_step. eapply wp_load; [at_ptr|]. cbn [rb_right nq]. wp_step. apply wp_change_child; [|tauto|].
  { eapply tree_at_frame; [|exact Hr]. intros x Hx. specialize (Hel x). specialize (Hot x). at_ptr. }
  wp_step. apply wp_changed_child; [|tauto|done|].
  { eapply tree_at_parented; [done|]. eapply tree_at_frame; [|exact Hr]. intros x Hx. specialize (Hel x). specialize (Hot x). at_ptr. }
  wp_step. eapply wp_load; [at_ptr|]. cbn [rb_left np]. wp_step. apply wp_change_child; [|tauto|].
  { eapply tree_at_frame; [|exact Hl]. intros x Hx. specialize (Hel x). specialize (Hot x). at_ptr. }
  wp_step. eapply wp_load; [at_ptr|]. cbn [rb_right np]. rewrite (proj2 (Z.eqb_neq rt q)) by done. cbn [negb].
  destruct (context_root (rb_nodes (linked lefts p s)) p lefts ltac:(by rewrite El) p) as (n & Hn & Hnp); [by eapply context_at_linked|]. rewrite Eroot in Hn.
  wp_step. eapply (wp_change_child_at rt n i); [|done|done|].
  { specialize (Hel rt). rewrite !lookup_parented by tauto. rewrite <-Hn. apply linked_cong. at_ptr. }
  wp_step. wp_step. eapply wp_swap_fields; [at_ptr|at_ptr|done|]. apply HQ; [by apply apart_zipped|apply apart_changed].
Qed.
End apart.

(** *** The one is the right child of the other *)
Section adjacent.
Context (El : lefts = []).
Definition np1 : @rbnode K V := mkrbnode (top ctx) (ptr l) p (Some i) c2.
Definition nq1 : @rbnode K V := mkrbnode q RBTREE_NULL (ptr r2) (Some j) c.
Definition around_adjacent : @rbtree K V :=
  store_node q nq1 (store_node p np1 (parented l q (parented r2 p (linked ctx q
    (store_node q (with_parent p nq1) (store_node p (with_right q np1) s)))))).

Lemma adjacent_zipped s' : s' = exchanged p q np1 nq1 around_adjacent -> zipped s' (lefts ++ InRight c l q j :: ctx) (Node c2 Leaf p i r2).
Proof using H El.
  intros ->. pose proof places_scattered as Hsc. pose proof Hsc as [(Np & Nq & Npq) Sp Sq Sn (ND1 & ND2 & _ & ND4) _ _].
  assert (Hel := sc_elem _ _ _ _ _ _ Hsc). assert (Hot := sc_other _ _ _ _ _ _ Hsc).
  destruct places_at as (Hp & Hl & Hq & Hr & _ & Hctx). rewrite El in Hp, Hq. cbn [root_from top_from] in Hp, Hq.
  unfold exchanged, around_adjacent. cbn [rb_parent rb_left rb_right rb_item rb_color np1 nq1]. eapply places_swapped; rewrite ?El; cbn [root_from top_from].
  - pose proof (z_null _ _ _ H). at_ptr.
  - at_ptr.
  - eapply tree_at_frame; [|eapply (tree_at_parented l q s p); [done|exact Hl]].
    intros x Hx. specialize (Hel x). specialize (Hot x). cbn [rb_nodes store_node]. rewrite !insert_frame by tauto. apply parented_cong. at_ptr.
  - at_ptr.
  - eapply tree_at_frame; [|eapply (tree_at_parented r2 p s q); [done|exact Hr]].
    intros x Hx. specialize (Hel x). specialize (Hot x). cbn [rb_nodes store_node]. rewrite !insert_frame by tauto.
    rewrite lookup_parented by tauto. apply parented_cong. at_ptr.
  - done.
  - eapply context_at_frame; [|eapply (context_at_linked ctx _ p q s); [done|exact Hctx]].
    intros x Hx. specialize (Hel x). specialize (Hot x). cbn [rb_nodes store_node]. rewrite !insert_frame by tauto.
    rewrite !lookup_parented by tauto. apply linked_cong. at_ptr.
  - cbn [rb_root store_node]. rewrite !(proj1 (root_parented _ _ _)), !root_linked. cbn [rb_root store_node].
    pose proof places_root as Er. destruct ctx as [|f ctx']; [done|]. cbn. by rewrite Er.
Qed.
Lemma adjacent_changed : changed s (exchanged p q np1 nq1 around_adjacent) (whole (lefts ++ InRight c l p i :: ctx) (Node c2 Leaf q j r2)).
Proof using H El.
  destruct places_at as (Hp & _ & Hq & _). destruct places_within as (? & ? & ? & ? & ? & ?).
  repeat first [apply changed_refl | eapply changed_store | eapply changed_parented | eapply changed_linked]; eassumption.
Qed.

Lemma wp_swap_adjacent (Q : unit -> @rbtree K V -> Prop) :
  (forall s', zipped s' (lefts ++ InRight c l q j :: ctx) (Node c2 Leaf p i r2) ->
     changed s s' (whole (lefts ++ InRight c l p i :: ctx) (Node c2 Leaf q j r2)) -> Q tt s') ->
  wp (swap_places p q) Q s.
Proof using H El.
  intros HQ. pose proof places_scattered as Hsc. pose proof Hsc as [(Np & Nq & Npq) Sp Sq Sn (ND1 & ND2 & _ & ND4) _ _].
  assert (Hel := sc_elem _ _ _ _ _ _ Hsc). assert (Hot := sc_other _ _ _ _ _ _ Hsc).
  destruct places_at as (Hp & Hl & Hq & Hr & _ & Hctx). rewrite El in Hp, Hq. cbn [root_from top_from] in Hp, Hq. unfold swap_places.
  wp_step. eapply wp_swap_int8; [at_ptr|at_ptr|done|].
  change (store_node q _ (store_node p _ s)) with (store_node q (with_parent p nq1) (store_node p (with_right q np1) s)).
  wp_step. eapply wp_load; [at_ptr|]. cbn [rb_parent np1 with_right].
  wp_step. apply wp_change_parent; [|apply NoDup_cons; tauto|done|tauto| |].
  { eapply context_at_frame; [|exact Hctx]. intros x Hx. specialize (Hel x). specialize (Hot x). at_ptr. }
  { intros Ectx. cbn. rewrite places_root. by rewrite Ectx. }
  wp_step. eapply wp_load; [at_ptr|]. cbn [rb_right np1 with_right]. rewrite Z.eqb_refl. cbn [negb].
  wp_step. wp_step. wp_step. eapply wp_load; [at_ptr|]. cbn [rb_left nq1 with_parent].
  wp_step. apply wp_change_child_none. wp_step. apply wp_change_child_none.
  wp_step. eapply wp_load; [at_ptr|]. cbn [rb_right nq1 with_parent]. wp_step. apply wp_change_child; [|tauto|].
  { eapply tree_at_frame; [|exact Hr]. intros x Hx. specialize (Hel x). specialize (Hot x). at_ptr. }
  wp_step. apply wp_changed_child; [|tauto|done|].
  { eapply tree_at_parented; [done|]. eapply tree_at_frame; [|exact Hr]. intros x Hx. specialize (Hel x). specialize (Hot x). at_ptr. }
  wp_step. eapply wp_load; [at_ptr|]. cbn [rb_left np1 with_right]. wp_step. apply wp_change_child; [|tauto|].
  { eapply tree_at_frame; [|exact Hl]. intros x Hx. specialize (Hel x). specialize (Hot x). at_ptr. }
  wp_step. eapply wp_load; [at_ptr|]. cbn [rb_right np1 with_right]. rewrite Z.eqb_refl. cbn [negb]. wp_step. wp_step.
  wp_step. wp_step. eapply wp_update_node; [at_ptr|]. eapply wp_update_node; [at_ptr|].
  apply (wp_swap_fields p q np1 nq1); [at_ptr|at_ptr|done|]. apply HQ; [by apply adjacent_zipped|apply adjacent_changed].
Qed.
End adjacent.
End places.
End swap.
