(* ===== verification/RbtreeDelete.v ===== *)
(** Deletion from the trees of Rbtree.v: the node leaves the list, and the
    tree stays a red-black tree. *)

From Stdlib Require Import Sorting.Sorted.
From S2P Require Import Prelude Dname DnamePacket Namedb Rbtree RbtreeShape RbtreeBalance RbtreeInsert RbtreeOrder RbtreeWalk RbtreeRepair RbtreeSwap.

Section delete.
Context {K V : Type}.
Abbreviation tree := (@tree K V).
Abbreviation context := (@context K V).
Implicit Types (t l r u : tree) (ctx : context) (s : @rbtree K V) (es lo hi : list (Z * (K * V))).

(** * Cutting out *)

(** A node with one child at most. *)
Definition only_child l r u : Prop := l = Leaf /\ u = r \/ r = Leaf /\ u = l.

Lemma only_child_perm l r u : only_child l r u -> elems u = elems l ++ elems r.
Proof using. intros [[-> ->]|[-> ->]]; cbn; by rewrite ?app_nil_r. Qed.

Lemma wp_cut s ctx c l p i r u (Q : Z -> @rbtree K V -> Prop) : zipped s ctx (Node c l p i r) -> only_child l r u ->
  (forall s', zipped s' ctx u -> changed s s' (whole ctx u) -> rb_nodes s' !! p = rb_nodes s !! p -> Q (ptr u) s') ->
  wp (unlink_node p) Q s.
Proof using.
  intros H Hu HQ. pose proof (zipped_node _ _ _ _ _ _ _ H) as Hp.
  pose proof (is_null_ptr s (InLeft c p i r :: ctx) l (proj2 (zipped_plug _ _ _ (InLeft c p i r)) H)) as El.
  pose proof (is_null_ptr s (InRight c l p i :: ctx) r (proj2 (zipped_plug _ _ _ (InRight c l p i)) H)) as Er.
  assert (Hchild : is_null (ptr l) || is_null (ptr r) = true /\ (if negb (is_null (ptr l)) then ptr l else ptr r) = ptr u).
  { rewrite El, Er. destruct Hu as [[-> ->]|[-> ->]]; [done|]. by destruct l. }
  destruct Hchild as [Hassert Eu]. destruct H as [H1 H2 H3 H4 H5].
  assert (Hat : tree_at (rb_nodes s) p u) by (destruct H2 as (_ & Hl & Hr); by destruct Hu as [[-> ->]|[-> ->]]).
  assert (Hn : NoDup (p :: RBTREE_NULL :: ptrs u ++ cptrs ctx)).
  { eapply nodup_perm; [|exact H5]. rewrite (only_child_perm _ _ _ Hu). cbn. rewrite !map_app. cbn. solve_Permutation. }
  apply NoDup_cons in Hn as [Np Hn]. pose proof Hn as [Nn Hd]%NoDup_cons. apply NoDup_app in Hd as (ND1 & Hdisj & ND2).
  rewrite elem_of_cons, elem_of_app in Np. rewrite elem_of_app in Nn.
  unfold unlink_node. wp_step. eapply wp_load; [exact Hp|]. wp_step. eapply wp_load; [exact Hp|]. cbn [rb_left rb_right].
  wp_step. apply wp_assert; [done|]. rewrite Eu. cbv zeta. wp_step. eapply wp_load; [exact Hp|]. cbn [rb_parent].
  wp_step. apply wp_change_parent; [exact H3|apply NoDup_cons; tauto|tauto|tauto|by intros -> |].
  wp_step. eapply wp_load; [at_ptr|]. cbn [rb_parent].
  wp_step. apply wp_change_child; [|tauto|].
  { eapply tree_at_frame; [|exact Hat]. intros x Hx. specialize (Hdisj x). at_ptr. }
  wp_step.
  assert (Hw : forall x, x ∈ addresses (whole ctx u) <-> x ∈ ptrs u \/ x ∈ cptrs ctx) by (intros x; apply elem_whole).
  apply HQ.
  - split.
    + at_ptr.
    + eapply tree_at_parented; [done|]. eapply tree_at_frame; [|exact Hat]. intros x Hx. specialize (Hdisj x). at_ptr.
    + eapply context_at_frame; [|eapply (context_at_linked ctx _ p (ptr u) s); [done|exact H3]].
      intros x Hx. specialize (Hdisj x). rewrite lookup_parented by tauto. done.
    + rewrite (proj1 (root_parented _ _ _)), root_linked, H4. by destruct ctx.
    + done.
  - eapply changed_parented; [eapply changed_linked; [apply changed_refl|]|]; intros x Hx; apply Hw; tauto.
  - rewrite lookup_parented by tauto. by rewrite lookup_linked by tauto.
Qed.

(** ** The node is as if it had never been in a tree *)
Definition detached (i : K * V) : @rbnode K V := mkrbnode RBTREE_NULL RBTREE_NULL RBTREE_NULL (Some i) BLACK.
Lemma zipped_store s ctx t p n : zipped s ctx t -> p <> RBTREE_NULL -> ~ (p ∈ addresses (whole ctx t)) -> zipped (store_node p n s) ctx t.
Proof using.
  intros [H1 H2 H3 H4 H5] Hn Hp. rewrite elem_whole in Hp. split; [by cbn; rewrite insert_frame| | |done|done].
  - eapply tree_at_frame; [|exact H2]. intros x Hx. cbn. apply insert_frame. intros ->. tauto.
  - eapply context_at_frame; [|exact H3]. intros x Hx. cbn. apply insert_frame. intros ->. tauto.
Qed.
Lemma wp_detach s p n i (Q : unit -> @rbtree K V -> Prop) : rb_nodes s !! p = Some n -> rb_item n = Some i -> Q tt (store_node p (detached i) s) ->
  wp (unlink_completely p) Q s.
Proof using.
  intros Hp Hi HQ. unfold unlink_completely. do 3 (wp_step; eapply wp_update_node; [first [exact Hp|apply lookup_insert_eq]|]). eapply wp_update_node; [apply lookup_insert_eq|].
  match goal with |- Q tt ?st => replace st with (store_node p (detached i) s); [done|] end.
  unfold store_node, detached, with_parent, with_left, with_right, with_color. cbn. by rewrite Hi, !insert_insert_eq.
Qed.

(** * Colors *)
Lemma ctx_ok_exchange c l p i q j (a b : context) : forall m, ctx_ok m (a ++ InRight c l p i :: b) -> ctx_ok m (a ++ InRight c l q j :: b).
Proof using.
  induction a as [|f a IH]; intros m; [done|]. cbn [app ctx_ok]. intros [H1 H2]. split; [done|]. destruct (fcolor f); [by apply IH|].
  destruct H2 as (H2 & H3 & H4). split_and!; [done|by destruct a|by apply IH].
Qed.
Lemma rb_leafless n l r u : rb n l -> rb n r -> only_child l r u -> rb 0 u /\ n = 0%nat.
Proof using. by intros Hl Hr [[-> ->]|[-> ->]]; cbn in *; subst. Qed.
Lemma rb_zero_black u : rb 0 u -> color u = BLACK -> u = Leaf.
Proof using. destruct u as [|[] l p i r]; cbn; [done| |done]. by intros (m & [=] & _). Qed.

(** What is cut out makes its place one black short at most. *)
Lemma cut_colors n ctx c l p i r u : rb n (Node c l p i r) -> only_child l r u -> ctx_ok n ctx ->
  (color (Node c l p i r) = BLACK \/ color_above ctx = BLACK) ->
  match c with
  | RED => rb n u /\ color u = BLACK
  | BLACK => n = 1%nat /\ rb 0 u /\ (color u = RED -> rb 1 (paint BLACK u) /\ color (paint BLACK u) = BLACK)
  end.
Proof using.
  intros Hrb Hu Hctx Hc. destruct c; cbn in Hrb.
  - destruct Hrb as (m & -> & Hl & Hr). destruct (rb_leafless _ _ _ _ Hl Hr Hu) as [H0 ->]. split_and!; [done|done|].
    destruct u as [|[] ul up ui ur]; cbn in *; try done. intros _. destruct H0 as (_ & _ & ? & ?). split; [by exists 0%nat|done].
  - destruct Hrb as (C1 & C2 & Hl & Hr). destruct (rb_leafless _ _ _ _ Hl Hr Hu) as [H0 ->]. split; [done|]. by destruct Hu as [[_ ->]|[_ ->]].
Qed.

Lemma wp_recolored s0 es s ctx c l p i r u n : focused s0 es s ctx u -> rb n (Node c l p i r) -> only_child l r u -> ctx_ok n ctx ->
  (color (Node c l p i r) = BLACK \/ color_above ctx = BLACK) -> rb_nodes s !! p = Some (mkrbnode (top ctx) (ptr l) (ptr r) (Some i) c) ->
  wp (recolor_child p (ptr u)) (fun _ s' => repaired s0 es s') s.
Proof using.
  intros H Hrb Hu Hctx Hc Hp. unfold recolor_child. wp_step. eapply wp_load; [exact Hp|]. cbn [rb_color]. pose proof (cut_colors _ _ _ _ _ _ _ _ Hrb Hu Hctx Hc) as Hcol. destruct c; cbn [is_red].
  - destruct Hcol as (-> & H0 & Hred). wp_step. eapply wp_focused_color; [exact H|]. destruct (color u) eqn:Eu; cbn [is_red].
    + wp_step. eapply wp_load; [exact Hp|]. cbn [rb_parent]. apply (wp_delete_fixup s0 es s ctx u 0). by split.
    + rewrite (is_null_ptr _ _ _ (fo_zipped _ _ _ _ _ H)). destruct (Hred eq_refl) as [H1 H2].
      destruct u as [|uc ul up ui ur]; [done|]. cbn [negb]. eapply wp_focused_paint_focus; [exact H|done|]. intros s' H'.
      eapply repaired_by; [exact H'|exact H1|done|by left].
  - destruct Hcol as [H0 H1]. wp_step. eapply repaired_by; [exact H|exact H0|done|by left].
Qed.

(** * Down to one child *)

(** [p] may be cut out of [es]. *)
Record removable s es p i ctx c l r u n : Prop := {
  rm_zipped : zipped s ctx (Node c l p i r);
  rm_child : only_child l r u;
  rm_rb : rb n (Node c l p i r);
  rm_ctx : ctx_ok n ctx;
  rm_color : color (Node c l p i r) = BLACK \/ color_above ctx = BLACK;
  rm_left : whole ctx u = es;
}.

Lemma wp_one_child s ctx c l p i r : zipped s ctx (Node c l p i r) -> rb_root_ok (fill ctx (Node c l p i r)) ->
  wp (make_one_child p) (fun _ s' => changed s s' (whole ctx (Node c l p i r)) /\
        exists ctx' c' l' r' u n, removable s' (before ctx ++ elems l ++ elems r ++ after ctx) p i ctx' c' l' r' u n) s.
Proof using.
  intros H Hok. unfold make_one_child. wp_step. eapply wp_load; [by eapply zipped_node|]. wp_step. eapply wp_load; [by eapply zipped_node|]. cbn [rb_left rb_right].
  rewrite (is_null_ptr s (InLeft c p i r :: ctx) l) by (by apply zipped_plug). rewrite (is_null_ptr s (InRight c l p i :: ctx) r) by (by apply zipped_plug).
  assert (Hdone : forall u, only_child l r u -> changed s s (whole ctx (Node c l p i r)) /\
    exists ctx' c' l' r' u n, removable s (before ctx ++ elems l ++ elems r ++ after ctx) p i ctx' c' l' r' u n).
  { intros u Hu. split; [done|]. destruct (rb_unfill _ _ Hok) as (n & H1 & H2 & H3). exists ctx, c, l, r, u, n. split; try done.
    unfold whole. by rewrite elems_fill, (only_child_perm _ _ _ Hu), <-app_assoc. }
  destruct l as [|lc ll lp li lr] eqn:El; [change (negb true && _) with false; cbv iota; wp_step; eapply Hdone; by left|]. rewrite <-El in *.
  destruct r as [|rc rl rp ri rr] eqn:Er; [change (negb false && negb true) with false; cbv iota; wp_step; eapply Hdone; by right|]. rewrite <-Er in *.
  change (negb false && negb false) with true. cbv iota. clear Hdone. wp_step. pose proof (proj2 (zipped_plug _ _ _ (InRight c l p i)) H) as Hr. rewrite Er in Hr |- *.
  cbn [ptr]. eapply wp_follow_left; [exact Hr|]. intros lefts c2 q j r2 Hz Hf Hl. rewrite <-Er in *. clear Er Hr rc rl rp ri rr.
  assert (Hw : whole (lefts ++ InRight c l p i :: ctx) (Node c2 Leaf q j r2) = whole ctx (Node c l p i r)).
  { unfold whole. rewrite fill_app, Hf. done. }
  assert (Hrb : rb_root_ok (fill (lefts ++ InRight c l p i :: ctx) (Node c2 Leaf q j r2))) by (rewrite fill_app, Hf; exact Hok).
  destruct (rb_unfill _ _ Hrb) as (n & R1 & R2 & R3).
  assert (Hend : forall s', zipped s' (lefts ++ InRight c l q j :: ctx) (Node c2 Leaf p i r2) ->
    changed s s' (whole (lefts ++ InRight c l p i :: ctx) (Node c2 Leaf q j r2)) -> changed s s' (whole ctx (Node c l p i r)) /\
    exists ctx' c' l' r' u n, removable s' (before ctx ++ elems l ++ elems r ++ after ctx) p i ctx' c' l' r' u n).
  { intros s' Hz' Hch. split; [by rewrite <-Hw|]. exists (lefts ++ InRight c l q j :: ctx), c2, Leaf, r2, r2, n.
    split; [done|by left|exact R1|by eapply ctx_ok_exchange|destruct R3 as [R3|R3]; [by left|right; by destruct lefts]|].
    unfold whole. rewrite elems_fill, before_app, after_app, (before_lefts lefts Hl), <-Hf, elems_fill, (before_lefts lefts Hl). cbn.
    by repeat (rewrite <-app_assoc; cbn). }
  destruct lefts as [|g lefts'].
  - eapply (wp_swap_adjacent s ctx [] c c2 l r2 p q i j); [exact Hz|done|exact Hend].
  - eapply (wp_swap_apart s ctx (g :: lefts') c c2 l r2 p q i j); [exact Hz|done| |exact Hend].
    apply focus_not_sibling in Hz; [|done]. cbn [ptr] in Hz. congruence.
Qed.
End delete.

(** * Deletion *)
Section order.
Context {K V N : Type} (kof : K -> N) (ncmp : N -> N -> Z) (ok : K -> Prop).
Implicit Types (s : @rbtree K V) (es lo hi : list (Z * (K * V))).
Abbreviation holds := (holds kof ncmp ok).
Abbreviation located := (located kof ncmp).

Lemma ordered_delete lo e hi : ordered kof ncmp ok (lo ++ e :: hi) -> ordered kof ncmp ok (lo ++ hi).
Proof using.
  intros [Hs Hok]. apply sorted_app in Hs as (H1 & H2 & H3). apply StronglySorted_inv in H2 as [H2 _]. split.
  - apply sorted_app. split_and!; [done|done|]. intros x y Hx Hy. apply H3; [done|by apply elem_of_cons; right].
  - rewrite Forall_app, Forall_cons in Hok. apply Forall_app. tauto.
Qed.

(** What follows when the node is found. *)
Lemma wp_removed s es lo p i hi : holds s es -> es = lo ++ (p, i) :: hi ->
  wp (make_one_child p;; child ← unlink_node p; recolor_child p child;; unlink_completely p;; mret (Some p))
     (fun r s' => r = Some p /\ holds s' (lo ++ hi) /\ kept s s' es /\ rb_nodes s' !! p = Some (detached i)) (recount (fun n => n - 1) s).
Proof using.
  intros Hs He. destruct (holds_focus _ _ _ _ _ _ _ _ _ Hs He) as (ctx & c & l & r & Hz & Hok & Elo & Ehi). destruct Hs as [(T & HT & _ & ET) Hord Hcount].
  assert (Hw : whole ctx (Node c l p i r) = es).
  { unfold whole. rewrite elems_fill, He, Elo, Ehi. cbn. by repeat (rewrite <-app_assoc; cbn). }
  assert (Hd : NoDup (RBTREE_NULL :: addresses es)) by (pose proof (z_distinct _ _ _ HT) as Hd; cbn in Hd; by rewrite app_nil_r, ET in Hd).
  assert (Hp : p <> RBTREE_NULL /\ ~ (p ∈ addresses (lo ++ hi))).
  { rewrite He in Hd. revert Hd. rewrite !map_app. cbn. rewrite <-Permutation_middle, !NoDup_cons. set_solver. }
  assert (Hsub : forall q, ~ (q ∈ addresses es) -> q <> p /\ ~ (q ∈ addresses (lo ++ hi))).
  { intros q. rewrite He, !map_app. cbn. set_solver. }
  wp_step. eapply wp_mono; [eapply wp_one_child; [by apply zipped_recount|exact Hok]|].
  intros [] s1 (Hch1 & ctx1 & c1 & l1 & r1 & u & n & [Z1 Hu R1 R2 R3 Ew]). rewrite Hw in Hch1.
  assert (Ew' : whole ctx1 u = lo ++ hi) by (rewrite Ew, Elo, Ehi; by rewrite <-!app_assoc). clear Ew.
  wp_step. eapply wp_cut; [exact Z1|exact Hu|]. intros s2 Z2 Hch2 Hp2. rewrite (zipped_node _ _ _ _ _ _ _ Z1) in Hp2. rewrite Ew' in Hch2.
  wp_step. eapply wp_mono; [eapply (wp_recolored s2 (lo ++ hi)); [by split|exact R1|exact Hu|exact R2|exact R3|exact Hp2]|].
  intros [] s3 (t3 & Z3 & Hok3 & E3 & Hch3). wp_step. eapply wp_detach; [rewrite (ch_rest _ _ _ Hch3) by apply Hp; exact Hp2|done|].
  wp_step. split_and!; [done| | |apply lookup_insert_eq].
  - split; [|rewrite He in Hord; by eapply ordered_delete|].
    + exists t3. split_and!; [|done|done]. apply zipped_store; [done|apply Hp|]. unfold whole. cbn. rewrite E3. apply Hp.
    + cbn. rewrite (ch_count _ _ _ Hch3), (ch_count _ _ _ Hch2), (ch_count _ _ _ Hch1). cbn. rewrite Hcount, He. unfold zlength. rewrite !length_app. cbn. lia.
  - assert (Hdom : dom (rb_nodes s3) = dom (rb_nodes s)) by (rewrite (ch_dom _ _ _ Hch3), (ch_dom _ _ _ Hch2); apply (ch_dom _ _ _ Hch1)).
    assert (Hin : p ∈ dom (rb_nodes s)) by (pose proof (ch_dom _ _ _ Hch1) as Hd1; cbn in Hd1; rewrite <-Hd1; apply elem_of_dom; rewrite (zipped_node _ _ _ _ _ _ _ Z1); by eexists).
    split; [cbn; rewrite dom_insert_L, Hdom; set_solver|]. intros q Hq. destruct (Hsub q Hq) as [Hqp Hq']. cbn. rewrite insert_frame by done.
    rewrite (ch_rest _ _ _ Hch3), (ch_rest _ _ _ Hch2) by done. by apply (ch_rest _ _ _ Hch1).
Qed.

Context `{!LawfulCompare ncmp} (cmp : K -> K -> res Z) (Hcmp : forall a b, ok a -> ok b -> cmp a b = Ok (ncmp (kof a) (kof b))).
Lemma wp_delete s es key : holds s es -> ok key ->
  wp (rbtree_delete cmp key) (fun r s' =>
    match r with
    | None => s' = s /\ exists q, located (kof key) es false q
    | Some p => exists lo i hi, es = lo ++ (p, i) :: hi /\ kof i.1 = kof key /\ holds s' (lo ++ hi) /\ kept s s' es /\
        rb_nodes s' !! p = Some (detached i)
    end) s.
Proof using Hcmp LawfulCompare0.
  intros Hs Hk. unfold rbtree_delete, rbtree_search. wp_step. wp_step. eapply wp_mono; [by eapply wp_find_less_equal|].
  intros [exact r] s1 [-> Hloc]. cbn in Hloc. wp_step. destruct exact; [|wp_step; split; [done|]; by exists r].
  inversion Hloc as [lo p i hi He Hkey Hlo Hhi|]. subst r. clear Hloc Hlo Hhi. unfold set_count. wp_step. wp_step.
  eapply wp_mono; [by eapply wp_removed|]. intros r s1 (-> & H1 & H2 & H3). exists lo, i, hi. by split_and!.
Qed.

(** C1 (functional): deletion.  The node with the key leaves the list and is
    as if it had never been in a tree; the others keep their places, the tree
    is a red-black tree again, only its nodes are written to, and no assertion
    fails.  Nothing changes when there is no such node. *)
Theorem rbtree_delete_correct s es key : holds s es -> ok key ->
  exists r s', rbtree_delete cmp key s = Ok (r, s') /\
    match r with
    | None => s' = s /\ exists q, located (kof key) es false q
    | Some p => exists lo i hi, es = lo ++ (p, i) :: hi /\ kof i.1 = kof key /\ holds s' (lo ++ hi) /\ kept s s' es /\
        rb_nodes s' !! p = Some (detached i)
    end.
Proof using Hcmp LawfulCompare0. intros. by apply wp_elim, wp_delete. Qed.
End order.
