(* ===== verification/RbtreeNames.v ===== *)
(** The red-black tree as the tree of names that the database asks for: the
    promises of [NameTreeLaws], kept by the code of src/rbtree.c. *)

From Stdlib Require Import Sorting.Sorted.
From S2P Require Import Prelude Dname DnameProofs DnamePacket Namedb NamedbProofs NamedbTable Rbtree RbtreeShape RbtreeBalance RbtreeInsert RbtreeOrder RbtreeWalk RbtreeRepair RbtreeSwap RbtreeDelete.

Abbreviation names := (@rbtree dname_type Z).
Abbreviation entry := (Z * (dname_type * Z))%type.

(** * Keys *)
Definition is_name (d : dname_type) : Prop := exists ls, name_ok ls /\ d = of_labels ls.
Lemma is_name_labels d : is_name d <-> name_ok (labels_of d) /\ d = of_labels (labels_of d).
Proof. split; [intros (ls & Hok & ->); by rewrite !labels_of_labels|intros [Hok Hd]; by eexists]. Qed.
#[export] Instance label_ok_dec l : Decision (label_ok l).
Proof. unfold label_ok, byte. apply _. Defined.
#[export] Instance name_ok_dec ls : Decision (name_ok ls).
Proof. unfold name_ok. apply _. Defined.
#[export] Instance dname_eq_dec : EqDecision dname_type.
Proof. solve_decision. Defined.
#[export] Instance is_name_dec d : Decision (is_name d).
Proof. refine (cast_if (decide (name_ok (labels_of d) /\ d = of_labels (labels_of d)))); by rewrite is_name_labels. Defined.

Lemma compare_names a b : is_name a -> is_name b -> dname_compare a b = Ok (name_cmp (labels_of a) (labels_of b)).
Proof. intros (la & Ha & ->) (lb & Hb & ->). by rewrite !labels_of_labels, dname_compare_spec. Qed.

Abbreviation name_list := (holds labels_of name_cmp is_name).

(** * The nodes in order, read from memory *)
Fixpoint read_tree (fuel : nat) (h : gmap Z (@rbnode dname_type Z)) (p : Z) : tree :=
  match fuel with
  | O => Leaf
  | S fuel =>
      match h !! p with
      | Some n => match rb_item n with
                  | Some i => Node (rb_color n) (read_tree fuel h (rb_left n)) p i (read_tree fuel h (rb_right n))
                  | None => Leaf
                  end
      | None => Leaf
      end
  end.
Definition listing (s : names) : list entry := elems (read_tree (rounds s) (rb_nodes s) (rb_root s)).

Lemma read_tree_at h t : h !! RBTREE_NULL = Some rbtree_null_node -> forall fuel parent, tree_at h parent t -> (length (elems t) < fuel)%nat ->
  read_tree fuel h (ptr t) = t.
Proof.
  intros Hn. induction t as [|c l IHl p i r IHr]; intros [|fuel] parent Ht Hf; try (cbn in Hf; lia); cbn [ptr read_tree]; [by rewrite Hn|].
  destruct Ht as (Hp & Hl & Hr). rewrite Hp. cbn [rb_item rb_color rb_left rb_right]. cbn [elems] in Hf. rewrite length_app in Hf. cbn in Hf.
  rewrite (IHl fuel p), (IHr fuel p); [done|done|lia|done|lia].
Qed.
Lemma name_list_listing s es : name_list s es -> listing s = es.
Proof.
  intros [(T & HT & _ & <-) _ _]. unfold listing. rewrite (z_root _ _ _ HT). cbn [root_from]. f_equal.
  eapply read_tree_at; [apply HT|apply HT|]. apply enough_rounds in HT. unfold whole in HT. cbn in HT. lia.
Qed.

Record names_tree := mknames { nt_tree : names; nt_holds : name_list nt_tree (listing nt_tree) }.

(** What the database calls, the node being that of the domain [p]. *)
Definition item_at (node : Z) : @ST names (option Z) := i ← load rb_item node; mret (snd <$> i).

Definition insert_name (n : dname_type) (p : Z) : @ST names (option Z) :=
  t ← st_get;
  let node := fresh (dom (rb_nodes t)) in
  st_modify (store_node node (mkrbnode 0 0 0 (Some (n, p)) BLACK));;
  rbtree_insert dname_compare node.
Definition search_name (n : dname_type) : @ST names (option Z) :=
  node ← rbtree_search dname_compare n;
  match node with Some q => item_at q | None => mret None end.
Definition find_name (n : dname_type) : @ST names (bool * option Z) :=
  '(exact, node) ← rbtree_find_less_equal dname_compare n;
  match node with Some q => p ← item_at q; mret (exact, p) | None => mret (exact, None) end.
(** A name that is not in the tree has neighbours, too. *)
Definition previous_name (n : dname_type) : @ST names (option Z) :=
  '(exact, node) ← rbtree_find_less_equal dname_compare n;
  match node with
  | Some q => if (exact : bool) then prev ← rbtree_previous q; item_at prev else item_at q
  | None => mret None
  end.
Definition next_name (n : dname_type) : @ST names (option Z) :=
  '(_, node) ← rbtree_find_less_equal dname_compare n;
  match node with
  | Some q => next ← rbtree_next q; item_at next
  | None => first ← rbtree_first; item_at first
  end.

(** The value, and the state. *)
Definition value_of {A} (m : @ST names A) (d : A) (t : names_tree) : A := match m (nt_tree t) with Ok (a, _) => a | _ => d end.
Definition state_after {A} (m : @ST names A) (s : names) : names := match m s with Ok (_, s') => s' | _ => s end.

Lemma value_wp {A} (m : @ST names A) d t (Q : A -> Prop) : wp m (fun a _ => Q a) (nt_tree t) -> Q (value_of m d t).
Proof. intros H. apply wp_elim in H as (a & s' & E & HQ). unfold value_of. by rewrite E. Qed.
Lemma state_wp {A} (m : @ST names A) s (Q : names -> Prop) : wp m (fun _ s' => Q s') s -> Q (state_after m s).
Proof. intros H. apply wp_elim in H as (a & s' & E & HQ). unfold state_after. by rewrite E. Qed.

(** * The map the list is *)
Definition name_of (e : entry) : name := labels_of e.2.1.
Definition mapping (es : list entry) : gmap name Z := list_to_map ((fun e => (name_of e, e.2.2)) <$> es).

Lemma name_of_key (e : entry) : key_of labels_of e = name_of e.
Proof. done. Qed.
Lemma mapping_lookup es ls p : ordered labels_of name_cmp is_name es -> mapping es !! ls = Some p <-> exists e, e ∈ es /\ name_of e = ls /\ e.2.2 = p.
Proof.
  intros [Hs _]. unfold mapping. rewrite <-elem_of_list_to_map.
  - rewrite list_elem_of_fmap. split; [intros (e & [= -> ->] & He); by exists e|intros (e & He & <- & <-); by exists e].
  - rewrite <-list_fmap_compose. induction Hs as [|e es Hs IH Hlt]; cbn; constructor; [|done].
    rewrite list_elem_of_fmap. intros (e' & E & He'). rewrite Forall_forall in Hlt. specialize (Hlt e' He'). unfold precedes in Hlt.
    rewrite !name_of_key in Hlt. cbn in E. rewrite E, name_cmp_refl in Hlt. lia.
Qed.

Lemma located_at (es : list entry) ls q : located labels_of name_cmp ls es true (Some q) ->
  exists (lo : list entry) i (hi : list entry), es = lo ++ (q, i) :: hi /\ labels_of i.1 = ls /\ Forall (below labels_of name_cmp ls) lo /\ Forall (above labels_of name_cmp ls) hi.
Proof. intros H. inversion H; subst; try done. eauto 10. Qed.
Lemma located_between (es : list entry) ls r : located labels_of name_cmp ls es false r ->
  exists lo hi : list entry, r = fst <$> last lo /\ es = lo ++ hi /\ Forall (below labels_of name_cmp ls) lo /\ Forall (above labels_of name_cmp ls) hi.
Proof. intros H. inversion H; subst. eauto 10. Qed.
Lemma located_node (es : list entry) ls exact r : located labels_of name_cmp ls es exact r -> exact = true -> exists q, r = Some q.
Proof. intros H E. inversion H; subst; [by eexists|done]. Qed.

Lemma mapping_at (lo : list entry) q i hi : ordered labels_of name_cmp is_name (lo ++ (q, i) :: hi) -> mapping (lo ++ (q, i) :: hi) !! labels_of i.1 = Some i.2.
Proof. intros H. apply mapping_lookup; [done|]. exists (q, i). split_and!; [set_solver|done|done]. Qed.
Lemma mapping_none (lo hi : list entry) ls : ordered labels_of name_cmp is_name (lo ++ hi) -> Forall (below labels_of name_cmp ls) lo -> Forall (above labels_of name_cmp ls) hi ->
  mapping (lo ++ hi) !! ls = None.
Proof.
  intros Ho Hlo Hhi. destruct (mapping (lo ++ hi) !! ls) as [p|] eqn:E; [|done]. apply mapping_lookup in E as (e & He & Hn & _); [|done].
  rewrite Forall_forall in Hlo, Hhi. apply elem_of_app in He as [He|He]; [apply Hlo in He|apply Hhi in He]; unfold below, above in He;
    rewrite name_of_key, Hn, name_cmp_refl in He; lia.
Qed.

(** The neighbours of a name in the list. *)
Lemma last_below (es lo hi : list entry) ls : ordered labels_of name_cmp is_name es -> es = lo ++ hi -> Forall (below labels_of name_cmp ls) lo ->
  (forall e, e ∈ hi -> 0 <= name_cmp (name_of e) ls) -> greatest_below (mapping es) ls ((fun e => e.2.2) <$> last lo).
Proof.
  intros Ho -> Hlo Hhi. destruct lo as [|e lo _] using rev_ind.
  - cbn. intros k p Hk. apply mapping_lookup in Hk as (e & He & <- & _); [|done]. by apply Hhi.
  - rewrite last_snoc. cbn. apply Forall_app in Hlo as [Hlo [He _]%Forall_cons]. exists (name_of e). split_and!.
    + apply mapping_lookup; [done|]. exists e. set_solver.
    + exact He.
    + intros k p Hk Hlt. apply mapping_lookup in Hk as (e' & He' & <- & _); [|done]. destruct Ho as [Hs _]. rewrite !elem_of_app, list_elem_of_singleton in He'.
      destruct He' as [[He'| ->]|He'].
      * apply sorted_app in Hs as (Hs & _ & _). apply sorted_app in Hs as (_ & _ & Hs). specialize (Hs e' e He' ltac:(set_solver)). apply Z.lt_le_incl, Hs.
      * rewrite name_cmp_refl. lia.
      * apply Hhi in He'. lia.
Qed.
Lemma head_above (es lo hi : list entry) ls : ordered labels_of name_cmp is_name es -> es = lo ++ hi -> Forall (above labels_of name_cmp ls) hi ->
  (forall e, e ∈ lo -> name_cmp (name_of e) ls <= 0) -> least_above (mapping es) ls ((fun e => e.2.2) <$> head hi).
Proof.
  intros Ho -> Hhi Hlo. destruct hi as [|e hi].
  - cbn. intros k p Hk. rewrite app_nil_r in *. apply mapping_lookup in Hk as (e & He & <- & _); [|done]. by apply Hlo.
  - cbn. apply Forall_cons in Hhi as [He Hhi]. unfold above in He. rewrite name_of_key in He. apply name_cmp_flip in He. exists (name_of e). split_and!.
    + apply mapping_lookup; [done|]. exists e. set_solver.
    + done.
    + intros k p Hk Hlt. apply mapping_lookup in Hk as (e' & He' & <- & _); [|done]. destruct Ho as [Hs _]. rewrite elem_of_app, elem_of_cons in He'.
      destruct He' as [He'|[-> |He']].
      * apply Hlo in He'. lia.
      * rewrite name_cmp_refl. lia.
      * apply sorted_app in Hs as (_ & Hs & _). apply StronglySorted_inv in Hs as [_ Hs]. rewrite Forall_forall in Hs. specialize (Hs e' He').
        apply Z.lt_le_incl, Hs.
Qed.

(** * What the operations give *)
Section operations.
Context (s : names) (es : list entry) (Hs : name_list s es).

Lemma wp_item_at q (Q : option Z -> names -> Prop) : (forall e, e ∈ es -> e.1 = q -> Q (Some e.2.2) s) -> q ∈ addresses es -> wp (item_at q) Q s.
Proof using Hs.
  intros HQ Hq. apply list_elem_of_fmap in Hq as ([q' i] & -> & He). apply list_elem_of_split in He as (lo & hi & He).
  destruct (holds_focus _ _ _ _ _ _ _ _ _ Hs He) as (ctx & c & l & r & Hz & _). unfold item_at. wp_step.
  eapply wp_load; [by eapply zipped_node|]. wp_step. apply (HQ (q', i)); [rewrite He; set_solver|done].
Qed.
Lemma wp_item_null (Q : option Z -> names -> Prop) : Q None s -> wp (item_at RBTREE_NULL) Q s.
Proof using Hs. intros HQ. destruct Hs as [(T & HT & _) _ _]. unfold item_at. wp_step. eapply wp_load; [apply HT|]. by wp_step. Qed.
Lemma distinct_entries e e' : e ∈ es -> e' ∈ es -> e.1 = e'.1 -> e = e'.
Proof using Hs.
  intros He He' E. destruct Hs as [(T & HT & _ & ET) _ _]. pose proof (z_distinct _ _ _ HT) as Hd. cbn in Hd. rewrite app_nil_r, ET in Hd.
  apply NoDup_cons in Hd as [_ Hd]. apply list_elem_of_lookup in He as [a Ha]. apply list_elem_of_lookup in He' as [b Hb].
  assert (a = b) as ->; [|congruence]. eapply NoDup_lookup; [exact Hd| |]; rewrite list_lookup_fmap; [by rewrite Ha|rewrite Hb; cbn; by rewrite E].
Qed.
Lemma wp_item_of e (Q : option Z -> names -> Prop) : e ∈ es -> Q (Some e.2.2) s -> wp (item_at e.1) Q s.
Proof using Hs.
  intros He HQ. apply wp_item_at; [|by apply list_elem_of_fmap_2]. intros e' He' E. by rewrite (distinct_entries _ _ He' He E).
Qed.

Context (ls : name) (Hls : name_ok ls).
Abbreviation n := (of_labels ls).
Lemma key_ok : is_name n /\ labels_of n = ls.
Proof using Hls. split; [by exists ls|by apply labels_of_labels]. Qed.

Lemma wp_search_name : wp (search_name n) (fun r s' => s' = s /\ r = mapping es !! ls) s.
Proof using Hs Hls.
  destruct key_ok as [Hk El]. pose proof (ho_ordered _ _ _ _ _ Hs) as Ho. unfold search_name, rbtree_search. wp_step. wp_step.
  eapply wp_mono; [eapply (wp_find_less_equal _ _ _ _ compare_names); [exact Hs|exact Hk]|]. intros [exact r] s1 [-> H]. rewrite El in H. cbn in H. wp_step. destruct exact.
  - destruct (located_node _ _ _ _ H eq_refl) as [q ->]. apply located_at in H as (lo & i & hi & E & <- & _).
    apply (wp_item_of (q, i)); [rewrite E; set_solver|]. split; [done|]. symmetry. rewrite E in *. by apply mapping_at.
  - apply located_between in H as (lo & hi & -> & E & Hlo & Hhi). wp_step. split; [done|]. symmetry. rewrite E in *. by apply mapping_none.
Qed.

Lemma wp_find_name : wp (find_name n) (fun r s' => s' = s /\
  match mapping es !! ls with
  | Some p => r = (true, Some p)
  | None => r.1 = false /\ greatest_below (mapping es) ls r.2
  end) s.
Proof using Hs Hls.
  destruct key_ok as [Hk El]. pose proof (ho_ordered _ _ _ _ _ Hs) as Ho. unfold find_name. wp_step.
  eapply wp_mono; [eapply (wp_find_less_equal _ _ _ _ compare_names); [exact Hs|exact Hk]|]. intros [exact r] s1 [-> H]. rewrite El in H. cbn in H. destruct exact.
  - destruct (located_node _ _ _ _ H eq_refl) as [q ->]. apply located_at in H as (lo & i & hi & E & <- & _). wp_step.
    apply (wp_item_of (q, i)); [rewrite E; set_solver|]. wp_step. split; [done|]. rewrite E in *. by rewrite mapping_at.
  - apply located_between in H as (lo & hi & -> & E & Hlo & Hhi). assert (Hnone : mapping es !! ls = None) by (rewrite E in *; by apply mapping_none). rewrite Hnone.
    assert (Hg : greatest_below (mapping es) ls ((fun e => e.2.2) <$> last lo)).
    { eapply last_below; [exact Ho|exact E|exact Hlo|]. rewrite Forall_forall in Hhi. intros e He. apply Hhi in He. unfold above in He.
      rewrite name_of_key, name_cmp_flip in He. lia. }
    destruct (last lo) as [e|] eqn:El'; cbn [fmap option_fmap option_map] in *; [|by wp_step]. wp_step. apply wp_item_of; [|by wp_step].
    rewrite E. apply elem_of_app. left. apply last_Some in El' as [? ->]. set_solver.
Qed.

Lemma wp_item_ptr (e : option entry) (Q : option Z -> names -> Prop) : (forall e', e = Some e' -> e' ∈ es) -> Q ((fun e => e.2.2) <$> e) s ->
  wp (item_at (from_option fst RBTREE_NULL e)) Q s.
Proof using Hs. intros He HQ. destruct e as [e|]; [apply wp_item_of; [by apply He|done]|by apply wp_item_null]. Qed.

Lemma wp_previous_name : wp (previous_name n) (fun r s' => s' = s /\ greatest_below (mapping es) ls r) s.
Proof using Hs Hls.
  destruct key_ok as [Hk El]. pose proof (ho_ordered _ _ _ _ _ Hs) as Ho. unfold previous_name. wp_step.
  eapply wp_mono; [eapply (wp_find_less_equal _ _ _ _ compare_names); [exact Hs|exact Hk]|]. intros [exact r] s1 [-> H]. rewrite El in H. cbn in H. destruct exact.
  - destruct (located_node _ _ _ _ H eq_refl) as [q ->]. apply located_at in H as (lo & i & hi & E & <- & Hlo & Hhi).
    wp_step. eapply (wp_rbtree_previous _ _ _ _ _ _ q i hi); [exact Hs|exact E|].
    apply wp_item_ptr; [intros e He; rewrite E; apply last_Some in He as [? ->]; set_solver|]. split; [done|].
    eapply last_below; [exact Ho|exact E|exact Hlo|]. rewrite Forall_forall in Hhi. intros e [-> |He]%elem_of_cons.
    + unfold name_of. cbn. by rewrite name_cmp_refl.
    + apply Hhi in He. unfold above in He. rewrite name_of_key, name_cmp_flip in He. lia.
  - apply located_between in H as (lo & hi & -> & E & Hlo & Hhi).
    assert (Hg : greatest_below (mapping es) ls ((fun e => e.2.2) <$> last lo)).
    { eapply last_below; [exact Ho|exact E|exact Hlo|]. rewrite Forall_forall in Hhi. intros e He. apply Hhi in He. unfold above in He.
      rewrite name_of_key, name_cmp_flip in He. lia. }
    destruct (last lo) as [e|] eqn:El'; cbn [fmap option_fmap option_map] in *; [|by wp_step]. apply wp_item_of; [|done].
    rewrite E. apply elem_of_app. left. apply last_Some in El' as [? ->]. set_solver.
Qed.

Lemma wp_next_name : wp (next_name n) (fun r s' => s' = s /\ least_above (mapping es) ls r) s.
Proof using Hs Hls.
  destruct key_ok as [Hk El]. pose proof (ho_ordered _ _ _ _ _ Hs) as Ho. unfold next_name. wp_step.
  eapply wp_mono; [eapply (wp_find_less_equal _ _ _ _ compare_names); [exact Hs|exact Hk]|]. intros [exact r] s1 [-> H]. rewrite El in H. cbn in H.
  assert (Hend : forall lo hi, es = lo ++ hi -> Forall (above labels_of name_cmp ls) hi -> (forall e, e ∈ lo -> name_cmp (name_of e) ls <= 0) ->
    wp (item_at (hd_ptr hi)) (fun r s' => s' = s /\ least_above (mapping es) ls r) s).
  { intros lo hi E Hhi Hlo. apply wp_item_ptr; [intros e He; rewrite E; destruct hi; [done|]; injection He as ->; set_solver|]. split; [done|].
    by eapply head_above. }
  assert (Hbelow : forall lo, Forall (below labels_of name_cmp ls) lo -> forall e, e ∈ lo -> name_cmp (name_of e) ls <= 0).
  { intros lo Hlo e He. rewrite Forall_forall in Hlo. apply Z.lt_le_incl, (Hlo e He). }
  destruct exact.
  - destruct (located_node _ _ _ _ H eq_refl) as [q ->]. apply located_at in H as (lo & i & hi & E & Ei & Hlo & Hhi).
    wp_step. eapply (wp_rbtree_next _ _ _ _ _ _ q i hi); [exact Hs|exact E|]. apply (Hend (lo ++ [(q, i)])); [by rewrite <-app_assoc|done|].
    intros e [He|He]%elem_of_app; [by eapply Hbelow|]. apply list_elem_of_singleton in He as ->. unfold name_of. cbn. rewrite Ei, name_cmp_refl. done.
  - apply located_between in H as (lo & hi & -> & E & Hlo & Hhi). destruct lo as [|e lo _] using rev_ind.
    + cbn [last fmap option_fmap option_map]. wp_step. eapply wp_rbtree_first; [exact Hs|]. cbn in E. replace (hd_ptr es) with (hd_ptr hi) by (by rewrite E).
      apply (Hend []); [done|done|set_solver].
    + rewrite last_snoc. cbn [fmap option_fmap option_map]. wp_step. destruct e as [q i]. eapply (wp_rbtree_next _ _ _ _ _ lo q i hi); [exact Hs|by rewrite E, <-app_assoc|].
      apply (Hend (lo ++ [(q, i)])); [done|done|by apply Hbelow].
Qed.

Lemma wp_insert_name p : wp (insert_name n p) (fun _ s' => exists es', name_list s' es' /\
    (mapping es !! ls = None -> mapping es' = <[ls := p]> (mapping es))) s.
Proof using Hs Hls.
  destruct key_ok as [Hk El]. unfold insert_name. wp_step. wp_step.
  set (a := fresh (dom (rb_nodes s))). set (nd := mkrbnode 0 0 0 (Some (n, p)) BLACK).
  assert (Ha : ~ (a ∈ dom (rb_nodes s))) by apply is_fresh. wp_step. wp_step.
  destruct Hs as [(T & HT & Hok & ET) Ho Hc].
  assert (Hin : forall x, x ∈ RBTREE_NULL :: addresses es -> x ∈ dom (rb_nodes s)).
  { intros x [-> |Hx]%elem_of_cons; apply elem_of_dom; [rewrite (z_null _ _ _ HT); by eexists|]. rewrite <-ET in Hx. eapply tree_at_some; [apply (z_tree _ _ _ HT)|done]. }
  assert (Hnull : a <> RBTREE_NULL) by (intros E; apply Ha; rewrite E; apply Hin; set_solver).
  assert (Hnew : ~ (a ∈ addresses es)) by (intros E; apply Ha, Hin; set_solver).
  assert (Hs' : name_list (store_node a nd s) es).
  { split; [|done|done]. exists T. split_and!; [|done|done]. apply zipped_store; [done|done|]. unfold whole. cbn. by rewrite ET. }
  eapply wp_mono; [eapply (wp_insert _ _ _ _ compare_names _ _ a nd (n, p) Hs'); [apply lookup_insert_eq|done|exact Hk|done|done]|].
  cbn [fst]. rewrite El. intros [q|] s' H.
  - destruct H as (-> & lo & hi & E & Hlo & Hhi & Hs2 & _). exists (lo ++ (a, (n, p)) :: hi). split; [done|]. intros _.
    pose proof (ho_ordered _ _ _ _ _ Hs2) as Ho2. apply map_eq. intros k. apply option_eq. intros v. rewrite mapping_lookup by done.
    destruct (decide (ls = k)) as [<-|Hne].
    + rewrite lookup_insert_eq. split; [|intros [= <-]; exists (a, (n, p)); split_and!; [set_solver|done|done]].
      intros (e & He & Hn & <-). rewrite elem_of_app, elem_of_cons in He. rewrite Forall_forall in Hlo, Hhi.
      destruct He as [He|[-> |He]]; [apply Hlo in He|done|apply Hhi in He]; unfold below, above in He; rewrite name_of_key, Hn, name_cmp_refl in He; lia.
    + rewrite lookup_insert_ne by done. rewrite E, mapping_lookup by (by rewrite <-E). split; intros (e & He & Hn & Hv); exists e; (split_and!; [|done|done]).
      * rewrite elem_of_app, elem_of_cons in He. rewrite elem_of_app. destruct He as [He|[-> |He]]; [by left| |by right]. destruct Hne. rewrite <-Hn. symmetry. exact El.
      * set_solver.
  - destruct H as (-> & q & H). exists es. split; [done|]. intros Hno. apply located_at in H as (lo & i & hi & -> & Ei & _).
    rewrite <-Ei, mapping_at in Hno by done. done.
Qed.

Lemma wp_delete_name : wp (rbtree_delete dname_compare n) (fun _ s' => exists es', name_list s' es' /\ mapping es' = delete ls (mapping es)) s.
Proof using Hs Hls.
  destruct key_ok as [Hk El]. pose proof (ho_ordered _ _ _ _ _ Hs) as Ho.
  eapply wp_mono; [eapply (wp_delete _ _ _ _ compare_names _ _ _ Hs Hk)|]. rewrite El. intros [q|] s' H.
  - destruct H as (lo & i & hi & E & Ei & Hs' & _). exists (lo ++ hi). split; [done|]. pose proof (ho_ordered _ _ _ _ _ Hs') as Ho2.
    apply map_eq. intros k. apply option_eq. intros v. rewrite mapping_lookup by done.
    destruct (decide (ls = k)) as [<-|Hne].
    + rewrite lookup_delete_eq. split; [|done]. intros (e & He & Hn & _). exfalso. rewrite E in Ho. destruct Ho as [Hsort _].
      apply sorted_app in Hsort as (_ & Hsort & Hlt). apply StronglySorted_inv in Hsort as [_ Hgt]. rewrite Forall_forall in Hgt.
      assert (Eq : name_of (q, i) = ls) by exact Ei.
      apply elem_of_app in He as [He|He].
      * assert (H : name_cmp (name_of e) (name_of (q, i)) < 0) by (apply (Hlt e (q, i)); [done|set_solver]). rewrite Hn, Eq, name_cmp_refl in H. lia.
      * assert (H : name_cmp (name_of (q, i)) (name_of e) < 0) by exact (Hgt e He). rewrite Hn, Eq, name_cmp_refl in H. lia.
    + rewrite lookup_delete_ne by done. rewrite E, mapping_lookup by (by rewrite <-E). split; intros (e & He & Hn & Hv); exists e; (split_and!; [|done|done]).
      * set_solver.
      * rewrite elem_of_app, elem_of_cons in He. rewrite elem_of_app. destruct He as [He|[-> |He]]; [by left| |by right]. destruct Hne. rewrite <-Hn. symmetry. exact Ei.
  - destruct H as (-> & q & H). exists es. split; [done|]. apply located_between in H as (lo & hi & _ & -> & Hlo & Hhi).
    rewrite delete_id; [done|]. by apply mapping_none.
Qed.
End operations.

(** * The instance *)
Definition no_names : names := rbtree_create.
Lemma create_holds : name_list no_names (listing no_names).
Proof.
  assert (H : name_list no_names []).
  { split; [|split; constructor|done]. exists Leaf. split_and!; [split; try done; repeat constructor; set_solver|split; [done|by exists 0%nat]|done]. }
  by rewrite (name_list_listing _ _ H).
Qed.
Lemma insert_holds t d p : is_name d -> let s := state_after (insert_name d p) (nt_tree t) in name_list s (listing s).
Proof.
  intros (ls & Hls & ->). apply (state_wp _ _ (fun s => name_list s (listing s))). eapply wp_mono; [apply (wp_insert_name _ _ (nt_holds t) ls Hls p)|].
  intros r s' (es' & H & _). by rewrite (name_list_listing _ _ H).
Qed.
Lemma delete_holds t d : is_name d -> let s := state_after (rbtree_delete dname_compare d) (nt_tree t) in name_list s (listing s).
Proof.
  intros (ls & Hls & ->). apply (state_wp _ _ (fun s => name_list s (listing s))). eapply wp_mono; [apply (wp_delete_name _ _ (nt_holds t) ls Hls)|].
  intros r s' (es' & H & _). by rewrite (name_list_listing _ _ H).
Qed.

(** Nothing is asked of what is no name. *)
#[export] Instance rbtree_names : NameTree := {|
  name_tree := names_tree;
  tree_create := mknames no_names create_holds;
  tree_insert t d p := match decide (is_name d) with left H => mknames _ (insert_holds t d p H) | right _ => t end;
  tree_delete t d := match decide (is_name d) with left H => mknames _ (delete_holds t d H) | right _ => t end;
  tree_search t d := value_of (search_name d) None t;
  tree_find_less_equal t d := value_of (find_name d) (false, None) t;
  tree_previous t d := value_of (previous_name d) None t;
  tree_next t d := value_of (next_name d) None t;
|}.

Definition tree_contents (t : names_tree) : gmap name Z := mapping (listing (nt_tree t)).

(** The code of src/rbtree.c keeps the promises that the database's theorems
    rely on. *)
#[export] Instance rbtree_names_laws : NameTreeLaws rbtree_names.
Proof.
  refine {| contents := tree_contents : @name_tree rbtree_names -> _ |}; unfold tree_contents;
    cbn [tree_create tree_insert tree_delete tree_search tree_find_less_equal tree_previous tree_next rbtree_names name_tree].
  - done.
  - intros t ls p Hls Hno. destruct (decide (is_name (of_labels ls))) as [H|H]; [|by destruct H; exists ls]. cbn [nt_tree].
    apply (state_wp _ _ (fun s => mapping (listing s) = _)). eapply wp_mono; [apply (wp_insert_name _ _ (nt_holds t) ls Hls p)|].
    intros r s' (es' & Hs' & Hm). rewrite (name_list_listing _ _ Hs'). by apply Hm.
  - intros t ls Hls. destruct (decide (is_name (of_labels ls))) as [H|H]; [|by destruct H; exists ls]. cbn [nt_tree].
    apply (state_wp _ _ (fun s => mapping (listing s) = _)). eapply wp_mono; [apply (wp_delete_name _ _ (nt_holds t) ls Hls)|].
    intros r s' (es' & Hs' & Hm). by rewrite (name_list_listing _ _ Hs').
  - intros t ls Hls. apply (value_wp _ _ _ (fun r => r = _)). eapply wp_mono; [apply (wp_search_name _ _ (nt_holds t) ls Hls)|]. by intros r s' [_ ->].
  - intros t ls p Hls Hp. apply (value_wp _ _ _ (fun r => r = _)). eapply wp_mono; [apply (wp_find_name _ _ (nt_holds t) ls Hls)|].
    intros r s' [_ Hr]. by rewrite Hp in Hr.
  - intros t ls Hls Hno. apply (value_wp _ _ _ (fun r => exists q, r = (false, q) /\ _ q)). eapply wp_mono; [apply (wp_find_name _ _ (nt_holds t) ls Hls)|].
    intros [b r] s' [_ Hr]. rewrite Hno in Hr. destruct Hr as [Hb Hg]. cbn in Hb, Hg. subst b. by exists r.
  - intros t ls Hls. apply (value_wp _ _ _ (fun r => greatest_below _ _ r)). eapply wp_mono; [apply (wp_previous_name _ _ (nt_holds t) ls Hls)|]. by intros r s' [_ ?].
  - intros t ls Hls. apply (value_wp _ _ _ (fun r => least_above _ _ r)). eapply wp_mono; [apply (wp_next_name _ _ (nt_holds t) ls Hls)|]. by intros r s' [_ ?].
Defined.

(** C3 (refinement): the tree of names is a map from names to domains.  On
    every tree that the operations have made, insertion, deletion, search, the
    search for the name or the one before it, and the neighbours of a name
    that is or is not there are those of the map. *)
Theorem rbtree_names_refine (t : names_tree) (ls : name) (p : Z) : name_ok ls ->
  (tree_contents t !! ls = None -> tree_contents (tree_insert t (of_labels ls) p) = <[ls := p]> (tree_contents t)) /\
  tree_contents (tree_delete t (of_labels ls)) = delete ls (tree_contents t) /\
  tree_search t (of_labels ls) = tree_contents t !! ls /\
  match tree_contents t !! ls with
  | Some q => tree_find_less_equal t (of_labels ls) = (true, Some q)
  | None => exists r, tree_find_less_equal t (of_labels ls) = (false, r) /\ greatest_below (tree_contents t) ls r
  end /\
  greatest_below (tree_contents t) ls (tree_previous t (of_labels ls)) /\
  least_above (tree_contents t) ls (tree_next t (of_labels ls)).
Proof.
  intros Hls. split_and!.
  - intros Hno. by apply (contents_insert (NameTreeLaws := rbtree_names_laws)).
  - by apply (contents_delete (NameTreeLaws := rbtree_names_laws)).
  - by apply (contents_search (NameTreeLaws := rbtree_names_laws)).
  - destruct (tree_contents t !! ls) as [q|] eqn:E; [by apply (find_exact (NameTreeLaws := rbtree_names_laws))|].
    by apply (find_below (NameTreeLaws := rbtree_names_laws)).
  - by apply (contents_previous (NameTreeLaws := rbtree_names_laws)).
  - by apply (contents_next (NameTreeLaws := rbtree_names_laws)).
Qed.
