(* ===== verification/RbtreeSamples.v ===== *)
(** Concrete red-black trees, where the theorems of the files before apply. *)

From Stdlib Require Import Sorting.Sorted.
From S2P Require Import Prelude Dname DnameProofs Namedb NamedbProofs Rbtree RbtreeShape RbtreeBalance RbtreeInsert RbtreeOrder RbtreeWalk RbtreeRepair RbtreeSwap RbtreeDelete RbtreeNames.

(** Numbers as keys: 2, 4, 6 and 8 in the tree, 5 beside it. *)
Definition by_value (a b : Z) : res Z := Ok (a - b).
Definition any (k : Z) : Prop := True.
Definition four : @tree Z unit :=
  Node BLACK (Node BLACK Leaf 1 (2, tt) Leaf) 2 (4, tt) (Node BLACK Leaf 3 (6, tt) (Node RED Leaf 4 (8, tt) Leaf)).
Definition four_nodes : gmap Z (@rbnode Z unit) :=
  {[ -1 := rbtree_null_node;
     1 := mkrbnode 2 (-1) (-1) (Some (2, tt)) BLACK; 2 := mkrbnode (-1) 1 3 (Some (4, tt)) BLACK;
     3 := mkrbnode 2 (-1) 4 (Some (6, tt)) BLACK; 4 := mkrbnode 3 (-1) (-1) (Some (8, tt)) RED;
     5 := mkrbnode 0 0 0 (Some (5, tt)) BLACK ]}.
Definition four_tree : rbtree := mkrbtree four_nodes 2 4.

Lemma by_value_ok a b : any a -> any b -> by_value a b = Ok (Z.sub (id a) (id b)).
Proof. done. Qed.
Lemma four_holds : holds id Z.sub any four_tree (elems four).
Proof.
  split; [exists four; split_and!; [|split; [done|by exists 2%nat, 1%nat; split_and!; try (exists 0%nat)]|done]| |done].
  - split; try by vm_compute. apply (bool_decide_unpack _). by vm_compute.
  - split; [|by repeat constructor]. repeat constructor; by vm_compute.
Qed.

Lemma rbtree_search_bound_witness : exists r, find_rounds by_value 5 8 four_tree = Ok (r, four_tree) /\
  rbtree_find_less_equal by_value 8 four_tree = Ok (r, four_tree) /\ located id Z.sub 8 (elems four) r.1 r.2.
Proof. exact (rbtree_search_bound id Z.sub any by_value by_value_ok four_tree (elems four) 8 four_holds I). Defined.

Lemma rbtree_insert_witness : exists r s', rbtree_insert by_value 5 four_tree = Ok (r, s') /\
  match r with
  | None => s' = four_tree /\ exists p, located id Z.sub 5 (elems four) true (Some p)
  | Some p => p = 5 /\ exists lo hi, elems four = lo ++ hi /\ Forall (below id Z.sub 5) lo /\ Forall (above id Z.sub 5) hi /\
      holds id Z.sub any s' (lo ++ (5, (5, tt)) :: hi) /\ kept four_tree s' (lo ++ (5, (5, tt)) :: hi)
  end.
Proof.
  refine (rbtree_insert_correct id Z.sub any by_value by_value_ok four_tree (elems four) 5 (mkrbnode 0 0 0 (Some (5, tt)) BLACK) (5, tt) four_holds _ _ _ _ _);
    [by vm_compute|done|done|done|]. apply (bool_decide_unpack _). by vm_compute.
Defined.

Lemma rbtree_delete_witness : exists r s', rbtree_delete by_value 4 four_tree = Ok (r, s') /\
  match r with
  | None => s' = four_tree /\ exists q, located id Z.sub 4 (elems four) false q
  | Some p => exists lo i hi, elems four = lo ++ (p, i) :: hi /\ id i.1 = 4 /\ holds id Z.sub any s' (lo ++ hi) /\
      kept four_tree s' (elems four) /\ rb_nodes s' !! p = Some (detached i)
  end.
Proof. exact (rbtree_delete_correct id Z.sub any by_value by_value_ok four_tree (elems four) 4 four_holds I). Defined.

Lemma rbtree_walk_witness : rbtree_first four_tree = Ok (1, four_tree) /\ rbtree_last four_tree = Ok (4, four_tree) /\
  rbtree_next 2 four_tree = Ok (3, four_tree) /\ rbtree_previous 2 four_tree = Ok (1, four_tree).
Proof.
  destruct (rbtree_walk_correct id Z.sub any four_tree (elems four) four_holds) as (H1 & H2 & H3). split; [exact H1|]. split; [exact H2|].
  exact (H3 [(1, (2, tt))] 2 (4, tt) [(3, (6, tt)); (4, (8, tt))] eq_refl).
Defined.

(** What the code does there: the root that goes has its place taken by the
    next node, and a black leaf that goes makes for a rotation. *)
Definition run_on {A} (m : @ST (@rbtree Z unit) A) (s : rbtree) : rbtree := match m s with Ok (_, s') => s' | _ => s end.
Example four_without_4 : let s := run_on (rbtree_delete by_value 4) four_tree in
  rb_root s = 3 /\ rb_count s = 3 /\ rb_nodes s !! 3 = Some (mkrbnode (-1) 1 4 (Some (6, tt)) BLACK) /\
  rb_nodes s !! 4 = Some (mkrbnode 3 (-1) (-1) (Some (8, tt)) BLACK).
Proof. by vm_compute. Qed.
Example four_without_2 : let s := run_on (rbtree_delete by_value 2) four_tree in
  rb_root s = 3 /\ rb_count s = 3 /\ rb_nodes s !! 3 = Some (mkrbnode (-1) 2 4 (Some (6, tt)) BLACK) /\
  rb_nodes s !! 2 = Some (mkrbnode 3 (-1) (-1) (Some (4, tt)) BLACK).
Proof. by vm_compute. Qed.

(** A tree of one name. *)
Definition com : name := [[99; 111; 109]].
Definition one_name : names_tree := tree_insert tree_create (of_labels com) 7.
Lemma rbtree_names_witness :
  (tree_contents one_name !! [] = None -> tree_contents (tree_insert one_name (of_labels []) 3) = <[[] := 3]> (tree_contents one_name)) /\
  tree_contents (tree_delete one_name (of_labels [])) = delete [] (tree_contents one_name) /\
  tree_search one_name (of_labels []) = tree_contents one_name !! [] /\
  match tree_contents one_name !! [] with
  | Some q => tree_find_less_equal one_name (of_labels []) = (true, Some q)
  | None => exists r, tree_find_less_equal one_name (of_labels []) = (false, r) /\ greatest_below (tree_contents one_name) [] r
  end /\
  greatest_below (tree_contents one_name) [] (tree_previous one_name (of_labels [])) /\
  least_above (tree_contents one_name) [] (tree_next one_name (of_labels [])).
Proof. apply (rbtree_names_refine one_name [] 3). split; [constructor|done]. Defined.
