(* ===== verification/Edns.v ===== *)
(** Model of EDNS (src/edns.h, src/edns.c): the OPT record of a query, the
    options it carries, and the space the answer reserves for its own OPT
    record. *)

From S2P Require Import Prelude Buffer Dns.

Definition OPT_LEN : Z := 9.
Definition OPT_RDATA : Z := 2.
Definition OPT_HDR : Z := 4.
Definition NSID_CODE : Z := 3.
Definition DNSSEC_OK_MASK : Z := 0x8000.

(** The prepared pieces of the OPT record of an answer. *)
Record edns_data := mkedns_data {
  ed_ok : list Z;
  ed_error : list Z;
  ed_rdata_none : list Z;
  ed_rdata_nsid : list Z;
  ed_nsid : list Z;
}.

Inductive edns_status := EDNS_NOT_PRESENT | EDNS_OK | EDNS_ERROR.
#[export] Instance edns_status_eq_dec : EqDecision edns_status.
Proof. solve_decision. Defined.

Record edns_record := mkedns_record {
  edns_st : edns_status;
  edns_position : Z;
  edns_maxlen : Z;
  opt_reserved_space : Z;
  dnssec_ok : Z;
  edns_nsid : bool;
}.

Definition edns_init_data (max_length : Z) : edns_data :=
  let hi := u8 (Z.shiftr (Z.land TYPE_OPT 0xff00) 8) in
  let lo := u8 (Z.land TYPE_OPT 0x00ff) in
  let size_hi := u8 (Z.shiftr (Z.land max_length 0xff00) 8) in
  let size_lo := u8 (Z.land max_length 0x00ff) in
  mkedns_data [0; hi; lo; size_hi; size_lo; 0; 0; 0; 0]
              [0; hi; lo; size_hi; size_lo; 1; 0; 0; 0]
              [0; 0] [0; 0] [0; 0; 0; 0].

Definition edns_init_nsid (data : edns_data) (nsid_len : Z) : edns_data :=
  mkedns_data (ed_ok data) (ed_error data) (ed_rdata_none data)
    [u8 (Z.shiftr (Z.land (u32 (OPT_HDR + nsid_len)) 0xff00) 8);
     u8 (Z.land (u32 (OPT_HDR + nsid_len)) 0x00ff)]
    [u8 (Z.shiftr (Z.land NSID_CODE 0xff00) 8); u8 (Z.land NSID_CODE 0x00ff);
     u8 (Z.shiftr (Z.land nsid_len 0xff00) 8); u8 (Z.land nsid_len 0x00ff)].

Definition edns_init_record : edns_record := mkedns_record EDNS_NOT_PRESENT 0 0 0 0 false.

(** [nsid_len] is the field of the server state. *)
Definition edns_handle_option (optcode optlen : Z) (edns : edns_record) (nsid_len : Z) :
    Buf edns_record :=
  if optcode =? NSID_CODE then
    if 0 <? nsid_len then
      buffer_skip optlen;;
      mret (mkedns_record (edns_st edns) (edns_position edns) (edns_maxlen edns)
              (u64 (opt_reserved_space edns + (OPT_HDR + nsid_len))) (dnssec_ok edns) true)
    else buffer_skip optlen;; mret edns
  else buffer_skip optlen;; mret edns.

(** The option loop: the record, and what is left of the rdata or [None]
    where the code returns 0. *)
Definition edns_option_step (nsid_len : Z) (st : edns_record * Z) :
    Buf (edns_record * Z + edns_record * option Z) :=
  let '(edns, opt_rdlen) := st in
  if 4 <=? opt_rdlen then
    optcode ← buffer_read_u16;
    optlen ← buffer_read_u16;
    if opt_rdlen <? 4 + optlen then mret (inr (edns, None)) else
    let opt_rdlen := u16 (opt_rdlen - (4 + optlen)) in
    edns ← edns_handle_option optcode optlen edns nsid_len;
    mret (inl (edns, opt_rdlen))
  else mret (inr (edns, Some opt_rdlen)).

Definition edns_set_position (p : Z) (e : edns_record) : edns_record :=
  mkedns_record (edns_st e) p (edns_maxlen e) (opt_reserved_space e) (dnssec_ok e) (edns_nsid e).
Definition edns_set_error (e : edns_record) : edns_record :=
  mkedns_record EDNS_ERROR (edns_position e) (edns_maxlen e) (opt_reserved_space e)
    (dnssec_ok e) (edns_nsid e).
Definition edns_set_ok (maxlen flags : Z) (e : edns_record) : edns_record :=
  mkedns_record EDNS_OK (edns_position e) maxlen (opt_reserved_space e) flags (edns_nsid e).

(** The record after the call and the return value. *)
Definition edns_parse_record (edns : edns_record) (nsid_len : Z) : Buf (edns_record * bool) :=
  position ← buffer_position;
  let edns := edns_set_position position edns in
  a ← buffer_available (OPT_LEN + OPT_RDATA);
  if negb a then mret (edns, false) else
  opt_owner ← buffer_read_u8;
  opt_type ← buffer_read_u16;
  if negb (opt_owner =? 0) || negb (opt_type =? TYPE_OPT) then
    buffer_set_position (edns_position edns);;
    mret (edns, false)
  else
  opt_class ← buffer_read_u16;
  _ ← buffer_read_u8;
  opt_version ← buffer_read_u8;
  opt_flags ← buffer_read_u16;
  opt_rdlen ← buffer_read_u16;
  if negb (opt_version =? 0) then mret (edns_set_error edns, true) else
  if 0 <? opt_rdlen then
    a ← buffer_available opt_rdlen;
    if negb a then mret (edns, false) else
    r ← st_iter (S (Z.to_nat opt_rdlen)) (edns_option_step nsid_len) (edns, opt_rdlen);
    match r with
    | (edns, None) => mret (edns, false)
    | (edns, Some opt_rdlen) =>
        if negb (opt_rdlen =? 0) then mret (edns, false)
        else mret (edns_set_ok opt_class (Z.land opt_flags DNSSEC_OK_MASK) edns, true)
    end
  else mret (edns_set_ok opt_class (Z.land opt_flags DNSSEC_OK_MASK) edns, true).

Definition edns_reserved_space (edns : edns_record) : Z :=
  if decide (edns_st edns = EDNS_NOT_PRESENT) then 0
  else u64 (OPT_LEN + OPT_RDATA + opt_reserved_space edns).
