(* ===== verification/EdnsProofs.v ===== *)
(** Theorems about the OPT record parser of Edns.v. *)

From S2P Require Import Prelude Buffer Dns PacketProofs Edns.

(** * What an OPT record says *)
Section opt.
Context (data : list Z) (limit : Z).

(** The option codes between [p] and [q]. *)
Inductive options : Z -> Z -> list Z -> Prop :=
  | options_nil p : options p p []
  | options_cons p q os :
      p + 4 + read_uint16 data (p + 2) <= q ->
      options (p + 4 + read_uint16 data (p + 2)) q os ->
      options p q (read_uint16 data p :: os).

Lemma options_det p q os : options p q os -> forall os', options p q os' -> Forall byte data ->
  os' = os.
Proof using.
  induction 1 as [p|p q os Hq Ho IH]; intros os' H' Hd;
    assert (Hr := read_uint16_range data (p + 2) Hd).
  - inversion H' as [|? ? os2 Hq2 Ho2]; subst; [done|lia].
  - inversion H' as [|? ? os2 Hq2 Ho2]; subst; [lia|]. f_equal. by apply IH.
Qed.

Record opt_record (p class flags : Z) (codes : list Z) (q : Z) : Prop := {
  opt_owner_root : zget data p = 0;
  opt_type_opt : read_uint16 data (p + 1) = TYPE_OPT;
  opt_class_is : class = read_uint16 data (p + 3);
  opt_version_0 : zget data (p + 6) = 0;
  opt_flags_is : flags = read_uint16 data (p + 7);
  opt_end : q = p + 11 + read_uint16 data (p + 9);
  opt_in : q <= limit;
  opt_options : options (p + 11) q codes;
}.

(** An OPT record of another version. *)
Definition opt_bad_version (p : Z) : Prop :=
  p + 11 <= limit /\ zget data p = 0 /\ read_uint16 data (p + 1) = TYPE_OPT /\
  zget data (p + 6) <> 0.
End opt.

(** The effect of the options: space for an NSID is added once for each. *)
Definition add_option (nsid_len : Z) (e : edns_record) (code : Z) : edns_record :=
  if (code =? NSID_CODE) && (0 <? nsid_len) then
    mkedns_record (edns_st e) (edns_position e) (edns_maxlen e)
      (u64 (opt_reserved_space e + (OPT_HDR + nsid_len))) (dnssec_ok e) true
  else e.

Lemma foldl_add_status nsid_len codes : forall e,
  edns_st (foldl (add_option nsid_len) e codes) = edns_st e.
Proof.
  induction codes as [|c codes IH]; intros e; [done|]. simpl. rewrite IH.
  unfold add_option. by case_match.
Qed.

Section parse.
Context (b : buffer) (Hb : buffer_ok b) (nsid_len : Z).
Abbreviation D := (_data b).
Abbreviation L := (_limit b).

Lemma wp_edns_handle_option code len e p (Q : edns_record -> buffer -> Prop) :
  0 <= p -> 0 <= len -> p + len <= L ->
  Q (add_option nsid_len e code) (set_pos (p + len) b) ->
  wp (edns_handle_option code len e nsid_len) Q (set_pos p b).
Proof using Hb.
  intros Hp Hl Hlim HQ. unfold edns_handle_option, add_option in *.
  destruct (code =? NSID_CODE), (0 <? nsid_len); cbn [andb] in HQ;
    wp_step; (apply wp_skip_bytes_from; [done|lia..|]); by wp_step.
Qed.

(** The loop at [p] with the options [os] handled. *)
Record option_I (p0 q : Z) (e0 : edns_record) (st : edns_record * Z) (s : buffer) : Prop := {
  oi_pos : 0 <= _position s;
  oi_state : s = set_pos (_position s) b;
  oi_left : q = _position s + st.2;
  oi_range : 0 <= st.2 < 65536;
  oi_done : exists os, st.1 = foldl (add_option nsid_len) e0 os /\
    (forall os', options D (_position s) q os' -> options D p0 q (os ++ os')) /\
    (forall all, options D p0 q all -> exists os', all = os ++ os' /\ options D (_position s) q os');
}.

Definition option_post (p0 q : Z) (e0 : edns_record) (r : edns_record * option Z) (s : buffer) : Prop :=
  edns_st r.1 = edns_st e0 /\
  (exists p, s = set_pos p b /\ 0 <= p <= L) /\
  match r.2 with
  | Some 0 => exists os, options D p0 q os /\ r.1 = foldl (add_option nsid_len) e0 os /\ s = set_pos q b
  | _ => forall os, ~ options D p0 q os
  end.

Lemma option_step p0 q e0 st s : q <= L -> option_I p0 q e0 st s ->
  wp (edns_option_step nsid_len st) (fun r s' =>
    match r with
    | inl st' => option_I p0 q e0 st' s' /\ (Z.to_nat st'.2 < Z.to_nat st.2)%nat
    | inr x => option_post p0 q e0 x s'
    end) s.
Proof using Hb.
  destruct st as [e left]. intros Hq [Hp Hs Hleft Hrange (os & He & Hfwd & Hback)]. simpl in *.
  set (p := _position s) in *. clearbody p. subst s.
  unfold edns_option_step. wp_step; bool_simpl.
  2:{ wp_step. split; [simpl; by rewrite He, foldl_add_status|].
      split; [exists p; split; [done|lia]|]. simpl.
      assert (Hno : left <> 0 -> forall all, ~ options D p0 q all).
      { intros Hne all Hall. destruct (Hback _ Hall) as (os' & _ & Ho).
        inversion Ho as [|? ? ? Hl]; subst; [lia|].
        pose proof (read_uint16_range D (p + 2) (ok_bytes b Hb)). lia. }
      destruct left as [|left|left]; [|by apply Hno..].
      exists os. split_and!; [|done|f_equal; lia].
      rewrite <-(app_nil_r os). apply Hfwd. replace q with p by lia. constructor. }
  wp_step. apply wp_read_u16_from; [done|lia..|]. intros Hc.
  wp_step. apply wp_read_u16_from; [done|lia..|]. intros Hl. wp_step; bool_simpl.
  { wp_step. split; [simpl; by rewrite He, foldl_add_status|].
    split; [exists (p + 2 + 2); split; [done|lia]|]. simpl. intros all Hall.
    destruct (Hback _ Hall) as (os' & _ & Ho). inversion Ho; subst; lia. }
  wp_step. apply wp_edns_handle_option; [lia..|]. wp_step.
  rewrite u16_small by lia. split; [|simpl; lia]. constructor; simpl; try done; try lia.
  replace (p + 2 + 2 + read_uint16 D (p + 2)) with (p + 4 + read_uint16 D (p + 2)) by lia.
  exists (os ++ [read_uint16 D p]). split_and!.
  - by rewrite foldl_app, <-He.
  - intros os' Ho. rewrite <-app_assoc. apply Hfwd. constructor; [lia|done].
  - intros all Hall. destruct (Hback _ Hall) as (os' & -> & Ho).
    inversion Ho as [|? ? os2 ? Ho2]; subst; [lia|]. exists os2. by rewrite <-app_assoc.
Qed.
End parse.

Lemma wp_option_loop b nsid_len q e n : buffer_ok b -> forall p, 0 <= p -> p + n = q -> q <= _limit b ->
  0 <= n < 65536 ->
  wp (st_iter (S (Z.to_nat n)) (edns_option_step nsid_len) (e, n))
    (option_post b nsid_len p q e) (set_pos p b).
Proof.
  intros Hb p Hp Hn Hq Hrange.
  apply (wp_iter (option_I b nsid_len p q e) (fun st _ => Z.to_nat st.2)); [|constructor|simpl; lia].
  - intros st s HI. eapply wp_mono; [by apply option_step|]. by intros [?|?] ?.
  - done.
  - done.
  - simpl. lia.
  - done.
  - exists []. simpl. split_and!; [done|done|]. intros all Hall. by exists all.
Qed.

Lemma wp_read_u8_from b p (Q : Z -> buffer -> Prop) :
  buffer_ok b -> 0 <= p -> p + 1 <= _limit b ->
  Q (zget (_data b) p) (set_pos (p + 1) b) -> wp buffer_read_u8 Q (set_pos p b).
Proof. intros. apply wp_buffer_read_u8; [bok|buf_simpl; auto..]. Qed.

(** What [edns_parse_record] returns and leaves. *)
Definition parsed (b : buffer) (nsid_len : Z) (e e' : edns_record) (r : bool) (b' : buffer) : Prop :=
  let p := _position b in
  let e0 := edns_set_position p e in
  (exists class flags codes q, opt_record (_data b) (_limit b) p class flags codes q /\
     r = true /\ b' = set_pos q b /\
     e' = edns_set_ok class (Z.land flags DNSSEC_OK_MASK) (foldl (add_option nsid_len) e0 codes)) \/
  (opt_bad_version (_data b) (_limit b) p /\ r = true /\ e' = edns_set_error e0) \/
  (r = false /\ edns_st e' = edns_st e /\ (exists p', b' = set_pos p' b /\ 0 <= p' <= _limit b) /\
   ~ opt_bad_version (_data b) (_limit b) p /\
   forall class flags codes q, ~ opt_record (_data b) (_limit b) p class flags codes q).

(** The options after the fixed part of the record. *)
Lemma wp_opt_rdata b nsid_len e p n class flags : buffer_ok b ->
  0 <= p -> p <= _limit b -> 0 <= n < 65536 ->
  wp (if 0 <? n then
        a ← buffer_available n;
        if negb a then mret (e, false) else
        r ← st_iter (S (Z.to_nat n)) (edns_option_step nsid_len) (e, n);
        match r with
        | (edns, None) => mret (edns, false)
        | (edns, Some opt_rdlen) =>
            if negb (opt_rdlen =? 0) then mret (edns, false)
            else mret (edns_set_ok class flags edns, true)
        end
      else mret (edns_set_ok class flags e, true))
    (fun '(e', r) b' =>
      (exists codes, options (_data b) p (p + n) codes /\ p + n <= _limit b /\ r = true /\
         b' = set_pos (p + n) b /\
         e' = edns_set_ok class flags (foldl (add_option nsid_len) e codes)) \/
      (r = false /\ edns_st e' = edns_st e /\ (exists p', b' = set_pos p' b /\ 0 <= p' <= _limit b) /\
       forall codes, options (_data b) p (p + n) codes -> _limit b < p + n)) (set_pos p b).
Proof.
  intros Hb Hp Hlim Hn. wp_step; bool_simpl.
  2:{ wp_step. left. exists []. assert (n = 0) as -> by lia. rewrite !Z.add_0_r.
      split_and!; [constructor|done..]. }
  wp_step. apply wp_available_from; [done|lia|]. wp_step; bool_simpl.
  { wp_step. right. split_and!; [done|done|exists p; split; [done|lia]|intros; lia]. }
  wp_step. eapply wp_mono; [by apply (wp_option_loop b nsid_len (p + n)); [..|lia|]|].
  intros [e' r] b' (Hst & Hpos & Hr). simpl in *.
  destruct r as [[|r|r]|]; cbn [Z.eqb negb]; wp_step.
  - destruct Hr as (os & Ho & -> & ->). left. exists os. split_and!; [done|lia|done..].
  - right. split_and!; [done..|]. by intros codes ?%Hr.
  - right. split_and!; [done..|]. by intros codes ?%Hr.
  - right. split_and!; [done..|]. by intros codes ?%Hr.
Qed.

(** C17 (functional): parsing the OPT record of a query.  The call ends inside
    the packet for every input.  It succeeds exactly on a record with the root
    as owner, type OPT, version 0 and well-delimited options, stores the UDP
    size and the DO bit, marks the NSID option and adds up the space for it
    (once for each NSID option), and on any other version of an OPT record
    reports an error; everything else is left to be refused by the caller. *)
Theorem edns_parse_record_correct b nsid_len e :
  buffer_ok b ->
  wp (edns_parse_record e nsid_len) (fun '(e', r) b' => parsed b nsid_len e e' r b') b.
Proof.
  intros Hb. pose proof Hb as []. unfold edns_parse_record, buffer_position.
  wp_run. apply wp_buffer_available; [done|].
  wp_step; bool_simpl; unfold OPT_LEN, OPT_RDATA in *.
  { wp_step. right. right. split_and!; [done|done|exists (_position b); split; [by destruct b|done]|..].
    - intros [? _]. lia.
    - intros class flags codes q [].
      pose proof (read_uint16_range (_data b) (_position b + 9) ok_bytes). lia. }
  apply wp_at_start.
  set (p := _position b) in *.
  wp_step. apply wp_read_u8_from; [done|lia..|].
  wp_step. apply wp_read_u16_from; [done|lia..|]. intros _. wp_step.
  { wp_step. apply wp_set_position_from; [simpl; lia|]. wp_step. right. right.
    split_and!; [done|done|exists p; split; [done|lia]|..].
    - intros (_ & H1 & H2 & _). fold p in H1, H2. by rewrite H1, H2 in H0.
    - intros class flags codes q [H1 H2]. fold p in H1, H2. by rewrite H1, H2 in H0. }
  wp_step. apply wp_read_u16_from; [done|lia..|]. intros _.
  wp_step. apply wp_read_u8_from; [done|lia..|]. wp_step. apply wp_read_u8_from; [done|lia..|].
  wp_step. apply wp_read_u16_from; [done|lia..|]. intros _.
  wp_step. apply wp_read_u16_from; [done|lia..|].
  replace (p + 1 + 2 + 2 + 1 + 1 + 2) with (p + 9) by lia.
  replace (p + 1 + 2 + 2 + 1 + 1) with (p + 7) by lia.
  replace (p + 1 + 2 + 2 + 1) with (p + 6) by lia.
  replace (p + 1 + 2) with (p + 3) by lia. replace (p + 9 + 2) with (p + 11) by lia.
  intros Hlen. bool_simpl. wp_step; bool_simpl.
  { wp_step. right. left. split_and!; [|done..]. split_and!; fold p; [lia|done..]. }
  eapply wp_mono; [apply (wp_opt_rdata b nsid_len (edns_set_position p e) (p + 11)); [done|lia..]|].
  intros [e' r] b' [(codes & Ho & Hq & -> & -> & ->)|(-> & He & Hpos & Hno)].
  - left. do 2 eexists. exists codes, (p + 11 + read_uint16 (_data b) (p + 9)).
    split; [constructor; done|]. by split_and!.
  - right. right. split_and!; [done|done|done| |].
    + intros (_ & _ & _ & Hv). done.
    + intros class flags codes q [? ? ? ? ? -> ? Ho]. specialize (Hno codes Ho). subst p. lia.
Qed.

(** A query with the DO bit set and two NSID options, a space of 8 for the NSID. *)
Lemma edns_parse_record_witness :
  let d := [0; 0; 41; 16; 0; 0; 0; 128; 0; 0; 8; 0; 3; 0; 0; 0; 3; 0; 0] in
  let b := mkbuffer 0 (zlength d) (zlength d) d true in
  wp (edns_parse_record edns_init_record 8)
    (fun '(e', r) b' => parsed b 8 edns_init_record e' r b') b /\
  edns_parse_record edns_init_record 8 b =
    Ok ((mkedns_record EDNS_OK 0 4096 24 0x8000 true, true), set_pos 19 b).
Proof.
  intros d b. split; [|by vm_compute].
  apply edns_parse_record_correct. by apply (bool_decide_unpack _).
Defined.

