(* ===== verification/Tsig.v ===== *)
(** Model of transaction signatures (src/tsig.h, src/tsig.c): the tables of
    keys and algorithms, the signature record kept for a transaction, hashing,
    signing and verifying, and the TSIG record in a packet.  The HMAC
    functions come from a cryptographic library; they are an interface. *)

From S2P Require Import Prelude Buffer Dname Dns Packet.

Definition TSIG_ERROR_NOERROR : Z := 0.
Definition TSIG_ERROR_BADSIG : Z := 16.
Definition TSIG_ERROR_BADKEY : Z := 17.
Definition TSIG_ERROR_BADTIME : Z := 18.

(** [data] selects the algorithm inside the library. *)
Record tsig_algorithm := mkalgorithm {
  short_name : list Z;
  wireformat_name : dname_type;
  maximum_digest_size : Z;
  alg_data : Z;
}.

Record tsig_key := mkkey {
  tk_name : dname_type;
  tk_data : list Z;
}.

(** What the library provides: contexts that take the message piece by piece. *)
Class Hmac := {
  hmac_context : Type;
  hmac_create_context : tsig_algorithm -> hmac_context;
  hmac_init_context : hmac_context -> tsig_algorithm -> tsig_key -> hmac_context;
  hmac_update : hmac_context -> list Z -> hmac_context;
  hmac_final : hmac_context -> list Z;
}.

(** Documented behaviour: only the bytes given since the initialisation count,
    and the digest has a size the algorithm announces. *)
Class HmacLaws `(H : Hmac) : Prop := {
  hmac_update_app c x y : hmac_update (hmac_update c x) y = hmac_update c (x ++ y);
  hmac_init_fresh c c' alg key : hmac_init_context c alg key = hmac_init_context c' alg key;
  hmac_final_size c alg key x :
    0 <= maximum_digest_size alg ->
    zlength (hmac_final (hmac_update (hmac_init_context c alg key) x)) <= maximum_digest_size alg;
  hmac_final_bytes c : Forall byte (hmac_final c);
}.

Inductive tsig_status := TSIG_NOT_PRESENT | TSIG_OK | TSIG_ERROR.
#[export] Instance tsig_status_eq_dec : EqDecision tsig_status.
Proof. solve_decision. Defined.

(** [mac_data]: nothing, bytes of its own, or the bytes of [prior_mac_data]. *)
Inductive mac_pointer := Mac_null | Mac_own (bytes : list Z) | Mac_prior.

Section tsig.
Context `{H : Hmac}.

Record tsig_record := mktsig {
  ts_status : tsig_status;
  ts_position : Z;
  response_count : Z;
  updates_since_last_prepare : Z;
  ts_context : option hmac_context;
  ts_algorithm : option tsig_algorithm;
  ts_key : option tsig_key;
  prior_mac_size : Z;
  prior_mac_data : list Z;
  key_name : option dname_type;
  algorithm_name : option dname_type;
  signed_time_high : Z;
  signed_time_low : Z;
  signed_time_fudge : Z;
  mac_size : Z;
  mac_data : mac_pointer;
  original_query_id : Z;
  error_code : Z;
  other_size : Z;
  other_data : option (list Z);
}.

(** The static tables: the contents of the key tree and the list of
    algorithms, the last added first. *)
Record tsig_tables := mktables {
  key_table : list tsig_key;
  algorithm_table : list tsig_algorithm;
  max_algo_digest_size : Z;
}.

Definition tsig_init : tsig_tables := mktables [] [] 0.

(** [rbtree_search] with [tree_dname_compare]. *)
Fixpoint find_key (keys : list tsig_key) (name : dname_type) : res (option tsig_key) :=
  match keys with
  | [] => mret None
  | k :: keys =>
      c ← dname_compare name (tk_name k);
      if c =? 0 then mret (Some k) else find_key keys name
  end.
Definition tsig_find_key (t : tsig_tables) (name : dname_type) : res (option tsig_key) :=
  find_key (key_table t) name.

(** [rbtree_insert] keeps what is there. *)
Definition tsig_add_key (t : tsig_tables) (key : tsig_key) : res tsig_tables :=
  found ← tsig_find_key t (tk_name key);
  match found with
  | Some _ => mret t
  | None => mret (mktables (key :: key_table t) (algorithm_table t) (max_algo_digest_size t))
  end.

Fixpoint remove_key (keys : list tsig_key) (name : dname_type) : res (list tsig_key) :=
  match keys with
  | [] => mret []
  | k :: keys =>
      c ← dname_compare name (tk_name k);
      if c =? 0 then mret keys
      else rest ← remove_key keys name; mret (k :: rest)
  end.
Definition tsig_del_key (t : tsig_tables) (key : option tsig_key) : res tsig_tables :=
  match key with
  | None => mret t
  | Some key =>
      keys ← remove_key (key_table t) (tk_name key);
      mret (mktables keys (algorithm_table t) (max_algo_digest_size t))
  end.

Definition tsig_add_algorithm (t : tsig_tables) (algorithm : tsig_algorithm) : tsig_tables :=
  mktables (key_table t) (algorithm :: algorithm_table t)
    (if max_algo_digest_size t <? maximum_digest_size algorithm
     then maximum_digest_size algorithm else max_algo_digest_size t).

(** Both strings present. *)
Fixpoint tsig_strlowercmp (str1 str2 : list Z) : Z :=
  match str1, str2 with
  | c1 :: s1, c2 :: s2 =>
      if negb (DNAME_NORMALIZE c1 =? DNAME_NORMALIZE c2) then
        if DNAME_NORMALIZE c1 <? DNAME_NORMALIZE c2 then -1 else 1
      else tsig_strlowercmp s1 s2
  | [], [] => 0
  | [], _ => -1
  | _, [] => 1
  end.

Fixpoint algorithm_by_name (algorithms : list tsig_algorithm) (name : list Z) : option tsig_algorithm :=
  match algorithms with
  | [] => None
  | a :: rest =>
      if tsig_strlowercmp name (short_name a) =? 0 then Some a
      else if bool_decide (take 5 (short_name a) = str "hmac-") &&
              (tsig_strlowercmp name (drop 5 (short_name a)) =? 0) then Some a
      else algorithm_by_name rest name
  end.
Definition tsig_get_algorithm_by_name (t : tsig_tables) (name : list Z) : option tsig_algorithm :=
  algorithm_by_name (algorithm_table t) name.

(** * The record *)

(** A record of a cleared structure. *)
Definition tsig_zero : tsig_record :=
  mktsig TSIG_NOT_PRESENT 0 0 0 None None None 0 [] None None 0 0 0 0 Mac_null 0 0 0 None.

Definition tsig_init_record (t : tsig_record) (algorithm : option tsig_algorithm)
    (key : option tsig_key) : tsig_record :=
  mktsig TSIG_NOT_PRESENT 0 0 (updates_since_last_prepare t) None algorithm key 0 []
    (key_name t) (algorithm_name t) (signed_time_high t) (signed_time_low t) (signed_time_fudge t)
    (mac_size t) (mac_data t) (original_query_id t) TSIG_ERROR_NOERROR (other_size t) (other_data t).

Definition set_error (e : Z) (t : tsig_record) : tsig_record :=
  mktsig (ts_status t) (ts_position t) (response_count t) (updates_since_last_prepare t)
    (ts_context t) (ts_algorithm t) (ts_key t) (prior_mac_size t) (prior_mac_data t)
    (key_name t) (algorithm_name t) (signed_time_high t) (signed_time_low t) (signed_time_fudge t)
    (mac_size t) (mac_data t) (original_query_id t) e (other_size t) (other_data t).
Definition set_other (size : Z) (data : option (list Z)) (t : tsig_record) : tsig_record :=
  mktsig (ts_status t) (ts_position t) (response_count t) (updates_since_last_prepare t)
    (ts_context t) (ts_algorithm t) (ts_key t) (prior_mac_size t) (prior_mac_data t)
    (key_name t) (algorithm_name t) (signed_time_high t) (signed_time_low t) (signed_time_fudge t)
    (mac_size t) (mac_data t) (original_query_id t) (error_code t) size data.
Definition set_mac (size : Z) (data : mac_pointer) (t : tsig_record) : tsig_record :=
  mktsig (ts_status t) (ts_position t) (response_count t) (updates_since_last_prepare t)
    (ts_context t) (ts_algorithm t) (ts_key t) (prior_mac_size t) (prior_mac_data t)
    (key_name t) (algorithm_name t) (signed_time_high t) (signed_time_low t) (signed_time_fudge t)
    size data (original_query_id t) (error_code t) (other_size t) (other_data t).
Definition set_context (c : hmac_context) (t : tsig_record) : tsig_record :=
  mktsig (ts_status t) (ts_position t) (response_count t) (updates_since_last_prepare t)
    (Some c) (ts_algorithm t) (ts_key t) (prior_mac_size t) (prior_mac_data t)
    (key_name t) (algorithm_name t) (signed_time_high t) (signed_time_low t) (signed_time_fudge t)
    (mac_size t) (mac_data t) (original_query_id t) (error_code t) (other_size t) (other_data t).
Definition set_counts (responses updates : Z) (t : tsig_record) : tsig_record :=
  mktsig (ts_status t) (ts_position t) responses updates
    (ts_context t) (ts_algorithm t) (ts_key t) (prior_mac_size t) (prior_mac_data t)
    (key_name t) (algorithm_name t) (signed_time_high t) (signed_time_low t) (signed_time_fudge t)
    (mac_size t) (mac_data t) (original_query_id t) (error_code t) (other_size t) (other_data t).
Definition set_prior (size : Z) (data : list Z) (t : tsig_record) : tsig_record :=
  mktsig (ts_status t) (ts_position t) (response_count t) (updates_since_last_prepare t)
    (ts_context t) (ts_algorithm t) (ts_key t) size data
    (key_name t) (algorithm_name t) (signed_time_high t) (signed_time_low t) (signed_time_fudge t)
    (mac_size t) (mac_data t) (original_query_id t) (error_code t) (other_size t) (other_data t).
Definition set_time (high low fudge : Z) (t : tsig_record) : tsig_record :=
  mktsig (ts_status t) (ts_position t) (response_count t) (updates_since_last_prepare t)
    (ts_context t) (ts_algorithm t) (ts_key t) (prior_mac_size t) (prior_mac_data t)
    (key_name t) (algorithm_name t) high low fudge
    (mac_size t) (mac_data t) (original_query_id t) (error_code t) (other_size t) (other_data t).
Definition set_names (key_ algorithm_ : option dname_type) (t : tsig_record) : tsig_record :=
  mktsig (ts_status t) (ts_position t) (response_count t) (updates_since_last_prepare t)
    (ts_context t) (ts_algorithm t) (ts_key t) (prior_mac_size t) (prior_mac_data t)
    key_ algorithm_ (signed_time_high t) (signed_time_low t) (signed_time_fudge t)
    (mac_size t) (mac_data t) (original_query_id t) (error_code t) (other_size t) (other_data t).
Definition set_status (s : tsig_status) (t : tsig_record) : tsig_record :=
  mktsig s (ts_position t) (response_count t) (updates_since_last_prepare t)
    (ts_context t) (ts_algorithm t) (ts_key t) (prior_mac_size t) (prior_mac_data t)
    (key_name t) (algorithm_name t) (signed_time_high t) (signed_time_low t) (signed_time_fudge t)
    (mac_size t) (mac_data t) (original_query_id t) (error_code t) (other_size t) (other_data t).
Definition set_query_id (id : Z) (t : tsig_record) : tsig_record :=
  mktsig (ts_status t) (ts_position t) (response_count t) (updates_since_last_prepare t)
    (ts_context t) (ts_algorithm t) (ts_key t) (prior_mac_size t) (prior_mac_data t)
    (key_name t) (algorithm_name t) (signed_time_high t) (signed_time_low t) (signed_time_fudge t)
    (mac_size t) (mac_data t) id (error_code t) (other_size t) (other_data t).

(** A pointer that is followed. *)
Definition nonnull {A} (p : option A) : res A :=
  match p with
  | Some a => Ok a
  | None => Assert_failed
  end.

Definition hash (data : list Z) (t : tsig_record) : res tsig_record :=
  c ← nonnull (ts_context t); mret (set_context (hmac_update c data) t).

(** The [other_size] bytes at [other_data]. *)
Definition other_bytes (t : tsig_record) : res (list Z) :=
  let o := default [] (other_data t) in
  rassert (other_size t <=? zlength o);;
  mret (take (Z.to_nat (other_size t)) o).

(** Numbers are hashed in network order. *)
Definition tsig_digest_variables (t : tsig_record) (tsig_timers_only : bool) : res tsig_record :=
  t ← (if negb tsig_timers_only then
         kn ← nonnull (key_name t);
         t ← hash (dname_name kn) t;
         t ← hash (write_uint16 CLASS_ANY) t;
         t ← hash (write_uint32 0) t;
         an ← nonnull (algorithm_name t);
         hash (dname_name an) t
       else mret t);
  t ← hash (write_uint16 (signed_time_high t)) t;
  t ← hash (write_uint32 (signed_time_low t)) t;
  t ← hash (write_uint16 (signed_time_fudge t)) t;
  if negb tsig_timers_only then
    t ← hash (write_uint16 (error_code t)) t;
    t ← hash (write_uint16 (other_size t)) t;
    o ← other_bytes t;
    hash o t
  else mret t.

Fixpoint find_algorithm (algorithms : list tsig_algorithm) (name : dname_type) :
    res (option tsig_algorithm) :=
  match algorithms with
  | [] => mret None
  | a :: rest =>
      c ← dname_compare name (wireformat_name a);
      if c =? 0 then mret (Some a) else find_algorithm rest name
  end.

(** The part after the assertions that [algorithm] and [key] are not set, so
    the test for a change of either is never true.  [now] is [time(NULL)]. *)
Definition tsig_from_query (tables : tsig_tables) (now : Z) (t : tsig_record) :
    res (tsig_record * bool) :=
  rassert (bool_decide (ts_status t = TSIG_OK));;
  rassert (match ts_algorithm t with None => true | Some _ => false end);;
  rassert (match ts_key t with None => true | Some _ => false end);;
  kn ← nonnull (key_name t);
  key ← tsig_find_key tables kn;
  an ← nonnull (algorithm_name t);
  algorithm ← find_algorithm (algorithm_table tables) an;
  match algorithm, key with
  | Some algorithm, Some key =>
      let signed_time := Z.lor (Z.shiftl (signed_time_high t) 32) (signed_time_low t) in
      let current_time := u64 now in
      if (current_time <? u64 (signed_time - signed_time_fudge t)) ||
         (u64 (signed_time + signed_time_fudge t) <? current_time)
      then
        let current_time_high := u16 (Z.shiftr current_time 32) in
        let current_time_low := u32 current_time in
        mret (set_other 6 (Some (write_uint16 current_time_high ++ write_uint32 current_time_low))
                (set_error TSIG_ERROR_BADTIME t), false)
      else
        mret (mktsig (ts_status t) (ts_position t) 0 (updates_since_last_prepare t)
                (ts_context t) (Some algorithm) (Some key) 0 (prior_mac_data t)
                (key_name t) (algorithm_name t) (signed_time_high t) (signed_time_low t)
                (signed_time_fudge t) (mac_size t) (mac_data t) (original_query_id t)
                (error_code t) (other_size t) (other_data t), true)
  | _, _ => mret (set_error TSIG_ERROR_BADKEY t, false)
  end.

Definition tsig_init_query (t : tsig_record) (original_query_id : Z) : res tsig_record :=
  algorithm ← nonnull (ts_algorithm t);
  key ← nonnull (ts_key t);
  mret (mktsig (ts_status t) (ts_position t) 0 (updates_since_last_prepare t)
          (ts_context t) (ts_algorithm t) (ts_key t) 0 (prior_mac_data t)
          (Some (tk_name key)) (Some (wireformat_name algorithm))
          (signed_time_high t) (signed_time_low t) (signed_time_fudge t)
          0 Mac_null original_query_id TSIG_ERROR_NOERROR 0 None).

(** The bytes of the prior MAC; the place for it is allocated with the
    context, and holds what [hmac_final] stored. *)
Definition prior_mac (t : tsig_record) : res (list Z) :=
  rassert (prior_mac_size t <=? zlength (prior_mac_data t));;
  mret (take (Z.to_nat (prior_mac_size t)) (prior_mac_data t)).

Definition tsig_prepare (t : tsig_record) : res tsig_record :=
  t ← match ts_context t with
      | Some _ => mret t
      | None =>
          algorithm ← nonnull (ts_algorithm t);
          mret (set_prior (prior_mac_size t) [] (set_context (hmac_create_context algorithm) t))
      end;
  algorithm ← nonnull (ts_algorithm t);
  key ← nonnull (ts_key t);
  c ← nonnull (ts_context t);
  let t := set_context (hmac_init_context c algorithm key) t in
  t ← (if 0 <? prior_mac_size t then
         t ← hash (write_uint16 (u16 (prior_mac_size t))) t;
         m ← prior_mac t;
         hash m t
       else mret t);
  mret (set_counts (response_count t) 0 t).

Definition tsig_update (t : tsig_record) (length : Z) : Buf tsig_record :=
  limit ← buffer_limit;
  st_assert (length <=? limit);;
  t ← lift (hash (write_uint16 (original_query_id t)) t);
  at_ ← buffer_at 2;
  packet ← st_get;
  st_assert ((2 <=? length) && (length <=? zlength (_data packet)));;
  t ← lift (hash (zslice (_data packet) at_ (length - 2)) t);
  qr ← QR;
  let responses := if negb (qr =? 0) then response_count t + 1 else response_count t in
  mret (set_counts responses (updates_since_last_prepare t + 1) t).

(** [hmac_final] into [prior_mac_data]. *)
Definition tsig_final (t : tsig_record) : res tsig_record :=
  c ← nonnull (ts_context t);
  let digest := hmac_final c in
  mret (set_prior (zlength digest) digest t).

Definition tsig_sign (now : Z) (t : tsig_record) : res tsig_record :=
  let current_time := u64 now in
  let t := set_time (u16 (Z.shiftr current_time 32)) (u32 current_time) 300 t in
  t ← tsig_digest_variables t (1 <? response_count t);
  t ← tsig_final t;
  mret (set_mac (u16 (prior_mac_size t)) Mac_prior t).

(** The [mac_size] bytes at [mac_data]. *)
Definition mac_bytes (t : tsig_record) : res (list Z) :=
  let m := match mac_data t with
           | Mac_null => []
           | Mac_own bytes => bytes
           | Mac_prior => prior_mac_data t
           end in
  rassert (mac_size t <=? zlength m);;
  mret (take (Z.to_nat (mac_size t)) m).

Definition tsig_verify (t : tsig_record) : res (tsig_record * bool) :=
  t ← tsig_digest_variables t (1 <? response_count t);
  t ← tsig_final t;
  if negb (mac_size t =? prior_mac_size t) then mret (set_error TSIG_ERROR_BADSIG t, false) else
  m ← mac_bytes t;
  p ← prior_mac t;
  if bool_decide (m = p) then mret (t, true)
  else mret (set_error TSIG_ERROR_BADSIG t, false).

(** * The record in a packet *)

(** [region_alloc_init(rr_region, buffer_current(packet), size)]. *)
Definition copy_current (size : Z) : Buf (list Z) :=
  cur ← buffer_current;
  packet ← st_get;
  mret (zslice (_data packet) cur size).

(** The failure exits put the position back. *)
Definition tsig_parse_fail (t : tsig_record) (r : bool) : Buf (tsig_record * bool) :=
  buffer_set_position (ts_position t);; mret (t, r).

(** From the rdata on, with the type and class known to be TSIG and ANY. *)
Definition tsig_parse_rdata (t : tsig_record) : Buf (tsig_record * bool) :=
  an ← dname_make_from_packet true true;
  let t := set_names (key_name t) an t in
  a ← buffer_available 10;
  if negb (match an with Some _ => true | None => false end) || negb a then tsig_parse_fail t false else
  high ← buffer_read_u16;
  low ← buffer_read_u32;
  fudge ← buffer_read_u16;
  size ← buffer_read_u16;
  let t := set_mac size (mac_data t) (set_time high low fudge t) in
  a ← buffer_available size;
  if negb a then
    buffer_set_position (ts_position t);; mret (set_mac 0 (mac_data t) t, false)
  else
  mac ← copy_current size;
  let t := set_mac size (Mac_own mac) t in
  buffer_skip size;;
  a ← buffer_available 6;
  if negb a then tsig_parse_fail t false else
  id ← buffer_read_u16;
  error ← buffer_read_u16;
  osize ← buffer_read_u16;
  let t := set_other osize (other_data t) (set_error error (set_query_id id t)) in
  a ← buffer_available osize;
  if negb a || (16 <? osize) then
    let t := set_other 0 (other_data t) t in tsig_parse_fail t false
  else
  other ← copy_current osize;
  let t := set_other osize (Some other) t in
  buffer_skip osize;;
  mret (set_status TSIG_OK t, true).

Definition tsig_parse_rr (t : tsig_record) : Buf (tsig_record * bool) :=
  position ← buffer_position;
  let t := mktsig TSIG_NOT_PRESENT position (response_count t) (updates_since_last_prepare t)
    (ts_context t) (ts_algorithm t) (ts_key t) (prior_mac_size t) (prior_mac_data t)
    None None (signed_time_high t) (signed_time_low t) (signed_time_fudge t)
    (mac_size t) Mac_null (original_query_id t) (error_code t) (other_size t) None in
  kn ← dname_make_from_packet true true;
  let t := set_names kn None t in
  if negb (match kn with Some _ => true | None => false end) then tsig_parse_fail t false else
  a ← buffer_available 10;
  if negb a then tsig_parse_fail t false else
  type ← buffer_read_u16;
  klass ← buffer_read_u16;
  if negb (type =? TYPE_TSIG) || negb (klass =? CLASS_ANY) then tsig_parse_fail t true else
  ttl ← buffer_read_u32;
  rdlen ← buffer_read_u16;
  let t := set_error RCODE_FORMAT (set_status TSIG_ERROR t) in
  a ← buffer_available rdlen;
  if negb (ttl =? 0) || negb a then tsig_parse_fail t false else
  tsig_parse_rdata t.

(** Records before the last: [i] counts up to [rrcount - 1]. *)
Fixpoint skip_records (n : nat) (i qdcount : Z) : Buf bool :=
  match n with
  | O => mret true
  | S n =>
      r ← packet_skip_rr (i <? qdcount);
      if negb r then mret false else skip_records n (i + 1) qdcount
  end.

Definition tsig_find_rr (t : tsig_record) : Buf (tsig_record * bool) :=
  saved_position ← buffer_position;
  qdcount ← QDCOUNT;
  ancount ← ANCOUNT;
  nscount ← NSCOUNT;
  arcount ← ARCOUNT;
  let rrcount := qdcount + ancount + nscount + arcount in
  if arcount =? 0 then mret (set_status TSIG_NOT_PRESENT t, true) else
  buffer_set_position QHEADERSZ;;
  ok ← skip_records (Z.to_nat (rrcount - 1)) 0 qdcount;
  if negb ok then buffer_set_position saved_position;; mret (t, false) else
  result ← tsig_parse_rr t;
  buffer_set_position saved_position;;
  mret result.

Definition write_name (name : option dname_type) : Buf unit :=
  match name with
  | Some n => buffer_write (take (Z.to_nat (name_size n)) (dname_name n))
  | None => buffer_write_u8 0
  end.

Definition tsig_append_rr (t : tsig_record) : Buf unit :=
  write_name (key_name t);;
  buffer_write_u16 TYPE_TSIG;;
  buffer_write_u16 CLASS_ANY;;
  buffer_write_u32 0;;
  rdlength_pos ← buffer_position;
  buffer_skip 2;;
  write_name (algorithm_name t);;
  buffer_write_u16 (signed_time_high t);;
  buffer_write_u32 (signed_time_low t);;
  buffer_write_u16 (signed_time_fudge t);;
  buffer_write_u16 (mac_size t);;
  m ← lift (mac_bytes t);
  buffer_write m;;
  buffer_write_u16 (original_query_id t);;
  buffer_write_u16 (error_code t);;
  buffer_write_u16 (other_size t);;
  o ← lift (other_bytes t);
  buffer_write o;;
  position ← buffer_position;
  buffer_write_u16_at rdlength_pos (u16 (position - rdlength_pos - 2)).

Definition tsig_reserved_space (tables : tsig_tables) (t : tsig_record) : Z :=
  if decide (ts_status t = TSIG_NOT_PRESENT) then 0
  else
    match key_name t with Some n => name_size n | None => 1 end + 2 + 2 + 4 + 2 +
    match algorithm_name t with Some n => name_size n | None => 1 end + 2 + 4 + 2 + 2 +
    max_algo_digest_size tables + 2 + 2 + 2 + other_size t.

(** [memset] of the MAC to zero, through the pointer. *)
Definition tsig_error_reply (t : tsig_record) : tsig_record :=
  let zero m := replicate (Z.to_nat (mac_size t)) 0 ++ drop (Z.to_nat (mac_size t)) m in
  let t := match mac_data t with
           | Mac_null => t
           | Mac_own bytes => set_mac (mac_size t) (Mac_own (zero bytes)) t
           | Mac_prior => set_prior (prior_mac_size t) (zero (prior_mac_data t)) t
           end in
  set_mac 0 (mac_data t) t.
End tsig.
