(* ===== verification/TsigProofs.v ===== *)
(** Theorems about the signatures of Tsig.v: what is hashed, when a signature
    is accepted, and the TSIG record written and read back. *)

From S2P Require Import Prelude Buffer Dname DnameProofs DnamePacket Dns Packet PacketProofs Contents Tsig.

Section proofs.
Context `{H : Hmac} {HL : HmacLaws H}.

(** * What is hashed (RFC 2845, 3.4) *)

(** The fields of a record that the model can speak of: the names are real
    names, the numbers have their widths, and the other data is there. *)
Record tsig_ok (t : tsig_record) (kn an : list (list Z)) (other : list Z) : Prop := {
  tk_key : key_name t = Some (of_labels kn) /\ name_ok kn;
  tk_alg : algorithm_name t = Some (of_labels an) /\ name_ok an;
  tk_other : other_data t = Some other \/ other_data t = None /\ other = [];
  tk_other_size : other_size t = zlength other /\ Forall byte other;
  tk_high : 0 <= signed_time_high t < 65536;
  tk_low : 0 <= signed_time_low t < 4294967296;
  tk_fudge : 0 <= signed_time_fudge t < 65536;
  tk_id : 0 <= original_query_id t < 65536;
  tk_error : 0 <= error_code t < 65536;
}.

Definition timers (t : tsig_record) : list Z :=
  write_uint16 (signed_time_high t) ++ write_uint32 (signed_time_low t) ++
  write_uint16 (signed_time_fudge t).

Definition variables (t : tsig_record) (kn an : list (list Z)) (other : list Z)
    (timers_only : bool) : list Z :=
  if timers_only then timers t
  else wire kn ++ write_uint16 CLASS_ANY ++ write_uint32 0 ++ wire an ++ timers t ++
       write_uint16 (error_code t) ++ write_uint16 (other_size t) ++ other.

(** The MAC of a message under a key. *)
Definition tsig_mac (alg : tsig_algorithm) (key : tsig_key) (msg : list Z) : list Z :=
  hmac_final (hmac_update (hmac_init_context (hmac_create_context alg) alg key) msg).

(** The MAC of the request comes first when there is one. *)
Definition prior_part (mac : list Z) : list Z :=
  if bool_decide (mac = []) then [] else write_uint16 (zlength mac) ++ mac.

Lemma hash_spec c data t : ts_context t = Some c ->
  hash data t = Ok (set_context (hmac_update c data) t).
Proof. intros E. unfold hash. by rewrite E. Qed.

Lemma other_bytes_spec t kn an other : tsig_ok t kn an other -> other_bytes t = Ok other.
Proof.
  intros [_ _ Ho [Hs _] _ _ _ _ _]. unfold other_bytes. rewrite Hs.
  destruct Ho as [->|[-> ->]]; [|done]. cbn [default].
  rewrite Z.leb_refl. cbn [rassert mbind res_bind mret res_ret]. f_equal.
  apply take_ge. unfold zlength. lia.
Qed.

Lemma hash_ctx c data t : hash data (set_context c t) = Ok (set_context (hmac_update c data) t).
Proof. done. Qed.

(** The fields of a record do not depend on its context. *)
Ltac ctx_fields :=
  repeat match goal with
  | |- context [?f (set_context ?c ?t)] => change (f (set_context c t)) with (f t)
  end.

(** The next piece given to the library. *)
Ltac hash_step := ctx_fields; rewrite hash_ctx; cbn [mbind res_bind].

Lemma digest_variables_spec t kn an other c timers_only :
  tsig_ok t kn an other ->
  tsig_digest_variables (set_context c t) timers_only =
    Ok (set_context (hmac_update c (variables t kn an other timers_only)) t).
Proof.
  intros Hok. pose proof (other_bytes_spec t kn an other Hok) as Ho.
  destruct Hok as [[Hk _] [Ha _] _ _ _ _ _ _ _].
  unfold tsig_digest_variables, variables, timers.
  destruct timers_only; cbn [negb mbind res_bind mret res_ret].
  - do 3 hash_step. by rewrite !hmac_update_app, ?app_assoc.
  - ctx_fields. rewrite Hk. cbn [nonnull mbind res_bind dname_name of_labels].
    do 3 hash_step. ctx_fields. rewrite Ha. cbn [nonnull mbind res_bind dname_name of_labels].
    do 6 hash_step. change (other_bytes (set_context ?c t)) with (other_bytes t).
    ctx_fields. rewrite Ho. cbn [mbind res_bind]. hash_step.
    by rewrite !hmac_update_app, ?app_assoc.
Qed.
(** * Preparing, hashing the message, signing and verifying *)

(** What signing and verifying need besides: an algorithm, a key, and the MAC
    of the last message. *)
Record tsig_ready (t : tsig_record) (alg : tsig_algorithm) (key : tsig_key) (prior : list Z) : Prop := {
  tr_alg : ts_algorithm t = Some alg;
  tr_key : ts_key t = Some key;
  tr_prior : prior_mac_size t = zlength prior /\ zlength prior < 65536;
  tr_data : take (length prior) (prior_mac_data t) = prior;
  tr_ctx : ts_context t = None -> prior = [];
}.

Lemma init_created c alg key :
  hmac_init_context c alg key = hmac_init_context (hmac_create_context alg) alg key.
Proof. apply hmac_init_fresh. Qed.

(** The record after [tsig_prepare] differs from the one before in its context
    and its counter only. *)
Lemma tsig_prepare_spec t alg key prior : tsig_ready t alg key prior ->
  exists c data, tsig_prepare t =
      Ok (set_context c (set_prior (zlength prior) data (set_counts (response_count t) 0 t))) /\
    forall x, hmac_final (hmac_update c x) = tsig_mac alg key (prior_part prior ++ x).
Proof.
  intros [Ha Hk [Hs Hlt] Hd Hc]. unfold tsig_prepare, tsig_mac, prior_part, prior_mac.
  destruct (ts_context t) as [c0|] eqn:E.
  - cbn [mbind res_bind mret res_ret]. rewrite Ha, Hk, E. cbn [nonnull mbind res_bind].
    change (prior_mac_size (set_context ?c t)) with (prior_mac_size t). rewrite Hs.
    destruct prior as [|m prior].
    + exists (hmac_init_context c0 alg key), (prior_mac_data t). split.
      * change (zlength []) with 0. cbn [Z.ltb Z.compare mbind res_bind mret res_ret].
        do 2 f_equal. unfold set_prior. cbn. destruct t; cbn in *. by subst.
      * intros x. by rewrite init_created.
    + rewrite (proj2 (Z.ltb_lt 0 _)) by (unfold zlength; simpl; lia).
      rewrite hash_ctx. cbn [mbind res_bind].
      change (prior_mac_size (set_context ?c t)) with (prior_mac_size t).
      change (prior_mac_data (set_context ?c t)) with (prior_mac_data t).
      rewrite Hs, (proj2 (Z.leb_le _ _)).
      2:{ apply (f_equal length) in Hd. rewrite length_take in Hd. unfold zlength. lia. }
      unfold zlength at 2. rewrite Nat2Z.id, Hd, u16_small by (pose proof (zlength_nonneg (m :: prior)); lia).
      cbn [rassert mbind res_bind mret res_ret]. rewrite hash_ctx. cbn [mbind res_bind].
      do 2 eexists. split; [by destruct t; cbn in *; subst|].
      intros x. by rewrite !hmac_update_app, init_created.
  - rewrite (Hc eq_refl) in *. rewrite Ha. cbn [nonnull mbind res_bind mret res_ret].
    change (ts_algorithm (set_prior ?n ?d ?u)) with (ts_algorithm t). rewrite Ha.
    change (ts_key (set_prior ?n ?d ?u)) with (ts_key t). rewrite Hk. cbn [nonnull mbind res_bind].
    exists (hmac_init_context (hmac_create_context alg) alg key), []. split; [|done].
    change (prior_mac_size (set_context ?c ?u)) with (prior_mac_size t). by rewrite Hs.
Qed.
(** The message: the prior MAC, the original id, and the packet from there on. *)
Definition message (prior : list Z) (id : Z) (data : list Z) (len : Z) : list Z :=
  prior_part prior ++ write_uint16 id ++ zslice data 2 (len - 2).

Definition is_response (data : list Z) : bool := negb (Z.land (zget data 2) QR_MASK =? 0).

(** Responses are counted. *)
Definition counted (t : tsig_record) (data : list Z) : Z :=
  if is_response data then response_count t + 1 else response_count t.

Lemma wp_QR b (Q : Z -> buffer -> Prop) : buffer_ok b -> QHEADERSZ <= _limit b ->
  Q (Z.land (zget (_data b) 2) QR_MASK) b -> wp QR Q b.
Proof.
  intros [] Hl HQ. unfold QHEADERSZ in *. unfold QR, flag_get, byte_at. wp_run.
  apply wp_buffer_at; [lia|]. wp_run. apply wp_assert; [lia|]. by wp_run.
Qed.

Lemma wp_tsig_update t c len b (Q : tsig_record -> buffer -> Prop) :
  buffer_ok b -> QHEADERSZ <= len <= _limit b ->
  Q (set_counts (counted t (_data b)) (updates_since_last_prepare t + 1)
       (set_context (hmac_update c
          (write_uint16 (original_query_id t) ++ zslice (_data b) 2 (len - 2))) t)) b ->
  wp (tsig_update (set_context c t) len) Q b.
Proof.
  intros Hb Hl HQ. pose proof Hb as []. unfold QHEADERSZ in *.
  unfold tsig_update, buffer_limit. wp_run. apply wp_assert; [lia|].
  wp_run. eapply wp_lift; [apply hash_ctx|]. wp_run. apply wp_buffer_at; [lia|].
  wp_run. apply wp_assert; [lia|]. wp_run. eapply wp_lift; [apply hash_ctx|].
  wp_run. apply wp_QR; [done|unfold QHEADERSZ; lia|]. wp_run.
  rewrite hmac_update_app. exact HQ.
Qed.

Lemma wp_hash_message t alg key prior len b (Q : tsig_record -> buffer -> Prop) :
  buffer_ok b -> QHEADERSZ <= len <= _limit b -> tsig_ready t alg key prior ->
  (forall c data,
     (forall x, hmac_final (hmac_update c x) =
                tsig_mac alg key (message prior (original_query_id t) (_data b) len ++ x)) ->
     Q (set_context c (set_prior (zlength prior) data (set_counts (counted t (_data b)) 1 t))) b) ->
  wp (t ← lift (tsig_prepare t); tsig_update t len) Q b.
Proof.
  intros Hb Hl Hr HQ. destruct (tsig_prepare_spec _ _ _ _ Hr) as (c & data & E & Hfinal).
  wp_step. eapply wp_lift; [exact E|]. apply wp_tsig_update; [done..|].
  apply (HQ _ data). intros x. rewrite hmac_update_app, Hfinal. unfold message. by rewrite !app_assoc.
Qed.

(** Only the timers are hashed from the second response on. *)
Definition timers_only (t : tsig_record) (data : list Z) : bool := 1 <? counted t data.

Lemma tsig_ok_more t kn an other n d r u :
  tsig_ok t kn an other -> tsig_ok (set_prior n d (set_counts r u t)) kn an other.
Proof. by intros []. Qed.

Lemma tsig_ok_time t kn an other now : tsig_ok t kn an other ->
  tsig_ok (set_time (u16 (Z.shiftr (u64 now) 32)) (u32 (u64 now)) 300 t) kn an other.
Proof.
  intros []. by constructor; cbn.
Qed.

Lemma tsig_sign_spec now t kn an other c : tsig_ok t kn an other ->
  let t' := set_time (u16 (Z.shiftr (u64 now) 32)) (u32 (u64 now)) 300 t in
  let digest := hmac_final (hmac_update c (variables t' kn an other (1 <? response_count t))) in
  exists c', tsig_sign now (set_context c t) =
    Ok (set_mac (u16 (zlength digest)) Mac_prior
          (set_prior (zlength digest) digest (set_context c' t'))).
Proof.
  intros Hok t' digest. unfold tsig_sign.
  change (set_time ?h ?l ?f (set_context c t)) with (set_context c (set_time h l f t)).
  rewrite (digest_variables_spec _ kn an other) by (by apply tsig_ok_time).
  cbn [mbind res_bind]. eexists. reflexivity.
Qed.

Lemma take_all_z {A} (l : list A) : take (Z.to_nat (zlength l)) l = l.
Proof. unfold zlength. by rewrite Nat2Z.id, firstn_all. Qed.

Lemma mac_bytes_own t mac : mac_data t = Mac_own mac -> mac_size t = zlength mac ->
  mac_bytes t = Ok mac.
Proof.
  intros Hm Hs. unfold mac_bytes. rewrite Hm, Hs, Z.leb_refl.
  cbn [rassert mbind res_bind mret res_ret]. by rewrite take_all_z.
Qed.

Lemma prior_mac_full t : prior_mac_size t = zlength (prior_mac_data t) ->
  prior_mac t = Ok (prior_mac_data t).
Proof.
  intros Hs. unfold prior_mac. rewrite Hs, Z.leb_refl.
  cbn [rassert mbind res_bind mret res_ret]. by rewrite take_all_z.
Qed.

Lemma tsig_verify_spec t kn an other c mac :
  tsig_ok t kn an other -> mac_data t = Mac_own mac -> mac_size t = zlength mac ->
  let digest := hmac_final (hmac_update c (variables t kn an other (1 <? response_count t))) in
  exists t', tsig_verify (set_context c t) = Ok (t', bool_decide (mac = digest)) /\
    error_code t' = if bool_decide (mac = digest) then error_code t else TSIG_ERROR_BADSIG.
Proof.
  intros Hok Hm Hs digest. unfold tsig_verify.
  change (response_count (set_context c t)) with (response_count t).
  rewrite (digest_variables_spec _ kn an other) by done. cbn [mbind res_bind].
  unfold tsig_final. cbn [set_context ts_context nonnull mbind res_bind mret res_ret].
  fold digest. change (mac_size (set_prior _ _ _)) with (mac_size t).
  change (prior_mac_size (set_prior ?n _ _)) with n. rewrite Hs.
  destruct (Z.eqb_spec (zlength mac) (zlength digest)) as [E|E]; cbn [negb].
  - rewrite (mac_bytes_own _ mac), prior_mac_full by done.
    cbn [mbind res_bind]. change (prior_mac_data (set_prior _ digest _)) with digest.
    case_bool_decide; eexists; done.
  - rewrite bool_decide_false by congruence. eexists. done.
Qed.
(** * The record in the packet (RFC 2845, 2.3) *)

Definition rdata_bytes (t : tsig_record) (an : list (list Z)) (mac other : list Z) : list Z :=
  wire an ++ write_uint16 (signed_time_high t) ++ write_uint32 (signed_time_low t) ++
  write_uint16 (signed_time_fudge t) ++ write_uint16 (mac_size t) ++ mac ++
  write_uint16 (original_query_id t) ++ write_uint16 (error_code t) ++
  write_uint16 (other_size t) ++ other.

Definition fixed_bytes (kn : list (list Z)) : list Z :=
  wire kn ++ write_uint16 TYPE_TSIG ++ write_uint16 CLASS_ANY ++ write_uint32 0.

Definition rr_bytes (t : tsig_record) (kn an : list (list Z)) (mac other : list Z) : list Z :=
  fixed_bytes kn ++ write_uint16 (zlength (rdata_bytes t an mac other)) ++
  rdata_bytes t an mac other.

Lemma rdata_length t an mac other :
  zlength (rdata_bytes t an mac other) = zlength (wire an) + 16 + zlength mac + zlength other.
Proof. unfold rdata_bytes. rewrite !zlength_app, !zlength_u16, zlength_u32. lia. Qed.

Lemma fixed_length kn : zlength (fixed_bytes kn) = zlength (wire kn) + 8.
Proof. unfold fixed_bytes. rewrite !zlength_app, !zlength_u16, zlength_u32. lia. Qed.

Lemma rr_length t kn an mac other :
  zlength (rr_bytes t kn an mac other) =
    zlength (wire kn) + 10 + zlength (rdata_bytes t an mac other).
Proof. unfold rr_bytes. rewrite !zlength_app, fixed_length, zlength_u16. lia. Qed.

Lemma wp_write_name b acc ls (Q : unit -> buffer -> Prop) :
  buffer_ok b -> Forall byte acc -> _position b + zlength acc + zlength (wire ls) <= _limit b ->
  Q tt (emit (acc ++ wire ls) b) -> wp (write_name (Some (of_labels ls))) Q (emit acc b).
Proof.
  intros Hb Hacc Hl HQ. unfold write_name. cbn [name_size dname_name of_labels].
  rewrite take_all_z. by apply wp_more.
Qed.

Lemma wp_tsig_append t kn an mac other b (Q : unit -> buffer -> Prop) :
  buffer_ok b -> tsig_ok t kn an other -> mac_bytes t = Ok mac -> Forall byte mac ->
  _position b + zlength (rr_bytes t kn an mac other) <= _limit b ->
  zlength (rdata_bytes t an mac other) < 65536 ->
  Q tt (emit (rr_bytes t kn an mac other) b) -> wp (tsig_append_rr t) Q b.
Proof.
  intros Hb Hok Hm Hmb Hl Hrd HQ. pose proof (other_bytes_spec t kn an other Hok) as Ho.
  destruct Hok as [[Hk Hkn] [Ha Han] _ [Hos Hob] _ _ _ _ _]. pose proof Hb as [].
  rewrite rr_length, rdata_length in Hl. pose proof (wire_bytes kn Hkn). pose proof (wire_bytes an Han).
  pose proof (zlength_nonneg mac). pose proof (zlength_nonneg other).
  pose proof (zlength_wire kn). pose proof (zlength_wire an). unfold tsig_append_rr. rewrite Hk, Ha.
  rewrite <-(emit_nil b). wp_step.
  apply wp_write_name; [done|apply Forall_nil_2|emit_len|]. cbn [app].
  wp_step. apply wp_more_u16; [done|emit_bytes|emit_len|].
  wp_step. apply wp_more_u16; [done|emit_bytes|emit_len|].
  wp_step. apply wp_more_u32; [done|emit_bytes|emit_len|].
  unfold buffer_position. wp_run. apply wp_more_skip; [done|emit_bytes|lia|emit_len|].
  intros old Hold Hob2. wp_run. apply wp_write_name; [done|emit_bytes|emit_len|].
  wp_step. apply wp_more_u16; [done|emit_bytes|emit_len|].
  wp_step. apply wp_more_u32; [done|emit_bytes|emit_len|].
  wp_step. apply wp_more_u16; [done|emit_bytes|emit_len|].
  wp_step. apply wp_more_u16; [done|emit_bytes|emit_len|].
  wp_step. eapply wp_lift; [exact Hm|]. wp_step. apply wp_more; [done|emit_bytes|emit_len|].
  wp_step. apply wp_more_u16; [done|emit_bytes|emit_len|].
  wp_step. apply wp_more_u16; [done|emit_bytes|emit_len|].
  wp_step. apply wp_more_u16; [done|emit_bytes|emit_len|].
  wp_step. eapply wp_lift; [exact Ho|]. wp_step. apply wp_more; [done|emit_bytes|emit_len|].
  match goal with |- wp _ _ (emit ?l b) =>
    replace l with (fixed_bytes kn ++ old ++ rdata_bytes t an mac other)
      by (by unfold fixed_bytes, rdata_bytes; rewrite <-!app_assoc) end.
  wp_run. rewrite !emit_pos.
  apply wp_patch; [done|unfold fixed_bytes, rdata_bytes; emit_bytes|done| |rewrite fixed_length; emit_len|].
  { rewrite !zlength_app, fixed_length, rdata_length. lia. }
  replace (u16 _) with (zlength (rdata_bytes t an mac other)); [exact HQ|].
  rewrite <-(u16_small (zlength (rdata_bytes _ _ _ _))) by (rewrite rdata_length in *; lia).
  f_equal. rewrite !zlength_app, fixed_length, Hold, !zlength_u16, zlength_u32. lia.
Qed.
(** The record the parser makes of what the other side wrote. *)
Definition received (r s : tsig_record) (p : Z) (kn an : list (list Z)) (mac other : list Z) : tsig_record :=
  mktsig TSIG_OK p (response_count r) (updates_since_last_prepare r)
    (ts_context r) (ts_algorithm r) (ts_key r) (prior_mac_size r) (prior_mac_data r)
    (Some (of_labels (normalize kn))) (Some (of_labels (normalize an)))
    (signed_time_high s) (signed_time_low s) (signed_time_fudge s)
    (zlength mac) (Mac_own mac) (original_query_id s) (error_code s) (zlength other) (Some other).

Lemma wp_copy_current b p bs (Q : list Z -> buffer -> Prop) :
  holds (_data b) p bs -> p + zlength bs <= _limit b -> Q bs (set_pos p b) ->
  wp (copy_current (zlength bs)) Q (set_pos p b).
Proof.
  intros Hh Hl HQ. pose proof (zlength_nonneg bs). unfold copy_current, buffer_current. wp_run.
  apply wp_buffer_at; [buf_simpl; lia|]. wp_run. buf_simpl. by rewrite (holds_slice _ _ _ Hh).
Qed.

(** Reading a number that is there. *)
Lemma wp_u16_there b p v (Q : Z -> buffer -> Prop) :
  buffer_ok b -> holds (_data b) p (write_uint16 v) -> 0 <= v < 65536 -> p + 2 <= _limit b ->
  Q v (set_pos (p + 2) b) -> wp buffer_read_u16 Q (set_pos p b).
Proof.
  intros Hb Hh Hv Hl HQ. pose proof (proj1 Hh). apply wp_read_u16_from; [done..|]. intros _.
  by rewrite (holds_u16 _ _ v (ok_bytes b Hb) Hv Hh).
Qed.

Lemma wp_u32_there b p v (Q : Z -> buffer -> Prop) :
  buffer_ok b -> holds (_data b) p (write_uint32 v) -> 0 <= v < 4294967296 -> p + 4 <= _limit b ->
  Q v (set_pos (p + 4) b) -> wp buffer_read_u32 Q (set_pos p b).
Proof.
  intros Hb Hh Hv Hl HQ. pose proof (proj1 Hh). apply wp_read_u32_from; [done..|].
  by rewrite (holds_u32 _ _ v (ok_bytes b Hb) Hv Hh).
Qed.

Lemma wp_available_there b p n (Q : bool -> buffer -> Prop) :
  buffer_ok b -> 0 <= p -> 0 <= n -> p + n <= _limit b -> Q true (set_pos p b) ->
  wp (buffer_available n) Q (set_pos p b).
Proof.
  intros Hb Hp Hn Hl HQ. apply wp_available_from; [done|lia|].
  by rewrite (proj2 (Z.leb_le _ _)) by lia.
Qed.
Section parsing.
Context (s : tsig_record) (kn an : list (list Z)) (mac other : list Z) (b : buffer).
Context (Hb : buffer_ok b) (Hmax : _limit b <= MAX_PACKET_SIZE).
Context (Hok : tsig_ok s kn an other) (Hmac : mac_size s = zlength mac) (Hm16 : zlength mac < 65536).
Context (Hother : zlength other <= 16).

Ltac there := first [done | apply zlength_nonneg | lia].

Lemma wp_tsig_parse_rdata r p p0 (Q : tsig_record * bool -> buffer -> Prop) :
  holds (_data b) p (rdata_bytes s an mac other) ->
  p + zlength (rdata_bytes s an mac other) <= _limit b ->
  ts_position r = p0 -> key_name r = Some (of_labels (normalize kn)) ->
  Q (received r s p0 kn an mac other, true)
    (set_pos (p + zlength (rdata_bytes s an mac other)) b) ->
  wp (tsig_parse_rdata r) Q (set_pos p b).
Proof using Hb Hmax Hok Hmac Hm16 Hother.
  intros Hh Hl Hp Hk HQ. pose proof (proj1 Hh). rewrite rdata_length in *.
  unfold rdata_bytes in Hh. rewrite !holds_app, ?zlength_u16, ?zlength_u32 in Hh. destruct_and! Hh.
  destruct Hok as [_ [_ Han] _ [Hos _] Hhi Hlo Hfu Hid Herr].
  pose proof (zlength_wire an). pose proof (zlength_nonneg mac). pose proof (zlength_nonneg other).
  unfold tsig_parse_rdata. wp_step. apply (wp_name_from _ _ an); [there..|]. wp_run.
  apply wp_available_there; [there..|]. cbn [negb orb]. cbv iota. wp_run.
  eapply wp_u16_there; [there..|]. wp_run. eapply wp_u32_there; [there..|]. wp_run.
  eapply wp_u16_there; [there..|]. wp_run. eapply wp_u16_there; [there..|]. wp_run.
  rewrite Hmac. apply wp_available_there; [there..|]. cbn [negb]. cbv iota. wp_run.
  apply wp_copy_current; [there..|]. wp_run. apply wp_skip_bytes_from; [there..|]. wp_run.
  apply wp_available_there; [there..|]. cbn [negb]. cbv iota. wp_run.
  eapply wp_u16_there; [there..|]. wp_run. eapply wp_u16_there; [there..|]. wp_run.
  eapply wp_u16_there; [there..|]. wp_run. rewrite Hos. apply wp_available_there; [there..|].
  rewrite (proj2 (Z.ltb_ge 16 _)) by done. cbn [negb orb]. cbv iota. wp_run.
  apply wp_copy_current; [there..|]. wp_run. apply wp_skip_bytes_from; [there..|]. wp_run.
  match goal with |- Q _ (set_pos ?x b) =>
    replace x with (p + (zlength (wire an) + 16 + zlength mac + zlength other)) by lia end.
  destruct r. cbn in *. by subst.
Qed.
Lemma wp_tsig_parse r p (Q : tsig_record * bool -> buffer -> Prop) :
  holds (_data b) p (rr_bytes s kn an mac other) ->
  p + zlength (rr_bytes s kn an mac other) <= _limit b ->
  zlength (rdata_bytes s an mac other) < 65536 ->
  Q (received r s p kn an mac other, true)
    (set_pos (p + zlength (rr_bytes s kn an mac other)) b) ->
  wp (tsig_parse_rr r) Q (set_pos p b).
Proof using Hb Hmax Hok Hmac Hm16 Hother.
  intros Hh Hl Hrd HQ. pose proof (proj1 Hh). rewrite rr_length in *.
  unfold rr_bytes, fixed_bytes in Hh. rewrite <-!app_assoc in Hh.
  rewrite !holds_app, ?zlength_u16, ?zlength_u32 in Hh. destruct_and! Hh.
  destruct Hok as [[_ Hkn] _ _ _ _ _ _ _ _].
  pose proof (zlength_wire kn). pose proof (zlength_nonneg (rdata_bytes s an mac other)).
  unfold tsig_parse_rr, buffer_position. wp_run. apply (wp_name_from _ _ kn); [there..|].
  cbn [negb]. cbv iota. wp_run. apply wp_available_there; [there..|]. cbn [negb]. cbv iota. wp_run.
  eapply (wp_u16_there _ _ TYPE_TSIG); [there..|]. wp_run.
  eapply (wp_u16_there _ _ CLASS_ANY); [there..|]. cbn [Z.eqb Pos.eqb negb orb TYPE_TSIG CLASS_ANY].
  cbv iota. wp_run. eapply (wp_u32_there _ _ 0); [there..|]. wp_run.
  eapply wp_u16_there; [there..|]. wp_run. apply wp_available_there; [there..|].
  cbn [Z.eqb negb orb]. cbv iota.
  apply (wp_tsig_parse_rdata _ _ p); [done|lia|done|done|].
  match goal with |- Q _ (set_pos ?x b) =>
    replace x with (p + (zlength (wire kn) + 10 + zlength (rdata_bytes s an mac other))) by lia end.
  exact HQ.
Qed.
End parsing.

Lemma mac_bytes_size t mac : 0 <= mac_size t -> mac_bytes t = Ok mac -> mac_size t = zlength mac.
Proof.
  intros Hs. unfold mac_bytes.
  generalize (match mac_data t with
              | Mac_null => [] | Mac_own bytes => bytes | Mac_prior => prior_mac_data t end).
  intros m. destruct (Z.leb_spec (mac_size t) (zlength m)) as [Hl|]; [|done].
  intros [= <-]. unfold zlength in *. rewrite length_take. lia.
Qed.

Lemma reserved_length tables t kn an mac other :
  tsig_ok t kn an other -> ts_status t <> TSIG_NOT_PRESENT ->
  zlength mac <= max_algo_digest_size tables ->
  zlength (rr_bytes t kn an mac other) <= tsig_reserved_space tables t.
Proof.
  intros [[Hk _] [Ha _] _ [Hs _] _ _ _ _ _] Hst Hm. unfold tsig_reserved_space.
  rewrite decide_False, Hk, Ha, Hs, rr_length, rdata_length by done. cbn. lia.
Qed.

(** * Signing a packet and checking it *)

(** What the server does to sign a response (query.c, [query_add_optional]),
    and to check a query (query.c, [process_tsig]) or an answer. *)
Definition sign_packet (now : Z) (t : tsig_record) : Buf tsig_record :=
  pos ← buffer_position;
  t ← (t ← lift (tsig_prepare t); tsig_update t pos);
  t ← lift (tsig_sign now t);
  tsig_append_rr t;;
  mret t.

Definition check_packet (t : tsig_record) : Buf (tsig_record * bool) :=
  '(t, ok) ← tsig_parse_rr t;
  if negb ok then mret (t, false) else
  buffer_set_limit (ts_position t);;
  limit ← buffer_limit;
  t ← (t ← lift (tsig_prepare t); tsig_update t limit);
  lift (tsig_verify t).

Lemma received_ready r s p kn an mac other alg key prior :
  tsig_ready r alg key prior -> tsig_ready (received r s p kn an mac other) alg key prior.
Proof. by intros []. Qed.

Lemma received_ok r s p kn an mac other : tsig_ok s kn an other ->
  tsig_ok (received r s p kn an mac other) (normalize kn) (normalize an) other.
Proof.
  intros [[_ Hk] [_ Ha] _ [_ Ho] ? ? ? ? ?].
  constructor; cbn; auto using name_ok_normalize; by left.
Qed.

Lemma variables_received r s p kn an mac other kn' an' n d c u tm : tsig_ok s kn an other ->
  variables (set_prior n d (set_counts c u (received r s p kn an mac other))) kn' an' other tm =
  variables s kn' an' other tm.
Proof.
  intros [_ _ _ [Hs _] _ _ _ _ _]. unfold variables. rewrite Hs. by destruct tm.
Qed.

(** What the MAC of a packet must be. *)
Definition expected_mac (alg : tsig_algorithm) (key : tsig_key) (prior : list Z) (t s : tsig_record)
    (kn an : list (list Z)) (other data : list Z) (len : Z) : list Z :=
  tsig_mac alg key (message prior (original_query_id s) data len ++
    variables s kn an other (timers_only t data)).

Lemma wp_check_packet r s kn an mac other alg key prior p b (Q : tsig_record * bool -> buffer -> Prop) :
  buffer_ok b -> _limit b <= MAX_PACKET_SIZE -> QHEADERSZ <= p ->
  tsig_ok s kn an other -> mac_size s = zlength mac -> zlength other <= 16 ->
  tsig_ready r alg key prior ->
  holds (_data b) p (rr_bytes s kn an mac other) ->
  p + zlength (rr_bytes s kn an mac other) <= _limit b ->
  (forall r', let valid := bool_decide (mac =
       expected_mac alg key prior r s (normalize kn) (normalize an) other (_data b) p) in
     error_code r' = (if valid then error_code s else TSIG_ERROR_BADSIG) ->
     Q (r', valid) (set_pos p (set_lim p b))) ->
  wp (check_packet r) Q (set_pos p b).
Proof.
  intros Hb Hmax Hp Hok Hm Ho Hr Hh Hl HQ. pose proof Hb as []. unfold MAX_PACKET_SIZE, QHEADERSZ in *.
  pose proof (rr_length s kn an mac other) as Hlen. pose proof (rdata_length s an mac other) as Hrd.
  pose proof (zlength_wire kn). pose proof (zlength_wire an).
  pose proof (zlength_nonneg other). pose proof (zlength_nonneg mac).
  unfold check_packet. wp_step.
  eapply (wp_tsig_parse s kn an mac other b); try done; try lia. cbn [negb]. cbv iota.
  unfold buffer_set_limit, buffer_limit. wp_run. apply wp_assert; [cbn; lia|]. wp_run.
  assert (Hlim : forall q, p < q ->
    (if _limit (set_lim p (set_pos q b)) <? _position (set_lim p (set_pos q b))
     then set_pos (_limit (set_lim p (set_pos q b))) (set_lim p (set_pos q b))
     else set_lim p (set_pos q b)) = set_pos p (set_lim p b)).
  { intros q Hq. cbn. by rewrite (proj2 (Z.ltb_lt _ _)). }
  cbn [received ts_position]. rewrite Hlim by lia.
  assert (Hb' : buffer_ok (set_pos p (set_lim p b))).
  { constructor; cbn; try done; lia. }
  change (_limit (set_pos p (set_lim p b))) with p.
  apply (wp_unbind _ (fun t => tsig_update t p)).
  apply (wp_hash_message _ alg key prior); [done|cbn; unfold QHEADERSZ; lia|by apply received_ready|].
  intros c data Hfinal.
  destruct (tsig_verify_spec (set_prior (zlength prior) data
    (set_counts (counted (received r s p kn an mac other) (_data b)) 1
      (received r s p kn an mac other))) (normalize kn) (normalize an) other c mac)
    as (t' & Hv & He).
  { by apply tsig_ok_more, received_ok. } { done. } { done. }
  rewrite Hfinal, variables_received in Hv, He by done. eapply wp_lift; [exact Hv|]. exact (HQ t' He).
Qed.
(** The MAC depends on the packet in front of the record only. *)
Lemma expected_mac_before alg key prior t t' s2 kn an other d d' p :
  response_count t = response_count t' -> QHEADERSZ <= p ->
  p <= zlength d -> p <= zlength d' ->
  (forall i, 0 <= i < p -> zget d' i = zget d i) ->
  expected_mac alg key prior t s2 kn an other d p = expected_mac alg key prior t' s2 kn an other d' p.
Proof.
  intros Hc Hp Hd Hd' He. unfold QHEADERSZ in *. unfold expected_mac, message, timers_only, counted, is_response.
  by rewrite Hc, He, (zslice_ext d d' 2 (p - 2)) by (lia || (intros; symmetry; apply He; lia)).
Qed.

(** Signing appends the record with the MAC that the message must have. *)
Lemma wp_sign_packet now s kn an other alg key prior b (Q : tsig_record -> buffer -> Prop) :
  buffer_ok b -> _limit b <= MAX_PACKET_SIZE -> QHEADERSZ <= _position b ->
  tsig_ok s kn an other -> tsig_ready s alg key prior -> 0 <= maximum_digest_size alg ->
  _position b + zlength (wire kn) + zlength (wire an) + 26 + maximum_digest_size alg +
    zlength other <= _limit b ->
  (forall s2 mac, tsig_ok s2 kn an other -> mac_size s2 = zlength mac -> Forall byte mac ->
     mac = expected_mac alg key prior s s2 kn an other (_data b) (_position b) ->
     _position b + zlength (rr_bytes s2 kn an mac other) <= _limit b ->
     Q s2 (emit (rr_bytes s2 kn an mac other) b)) ->
  wp (sign_packet now s) Q b.
Proof.
  intros Hb Hmax Hp Hok Hr Hd Hl HQ. pose proof Hb as []. unfold MAX_PACKET_SIZE, QHEADERSZ in *.
  pose proof (zlength_wire kn). pose proof (zlength_wire an). pose proof (zlength_nonneg other).
  unfold sign_packet, buffer_position. do 5 wp_step.
  apply (wp_hash_message _ alg key prior); [done|unfold QHEADERSZ; lia|done|].
  intros c data Hfinal. wp_step.
  set (u := set_prior (zlength prior) data (set_counts (counted s (_data b)) 1 s)).
  destruct (tsig_sign_spec now u kn an other c) as [c' Hs]; [by apply tsig_ok_more|].
  eapply wp_lift; [exact Hs|]. clear Hs. rewrite Hfinal.
  set (u' := set_time _ _ _ u). set (mac := tsig_mac alg key _).
  assert (Hmb : Forall byte mac) by (apply hmac_final_bytes).
  assert (Hmac : zlength mac <= maximum_digest_size alg) by (by apply hmac_final_size).
  pose proof (zlength_nonneg mac). rewrite u16_small by lia.
  set (s2 := set_mac _ _ _).
  assert (Hok2 : tsig_ok s2 kn an other)
    by (by destruct (tsig_ok_time u kn an other now (tsig_ok_more _ _ _ _ _ _ _ _ Hok))).
  assert (Hm2 : mac_bytes s2 = Ok mac).
  { unfold mac_bytes. cbn -[mac]. rewrite Z.leb_refl. cbn -[mac]. by rewrite take_all_z. }
  wp_step. apply (wp_tsig_append s2 kn an mac other); try done.
  - rewrite rr_length, rdata_length. lia.
  - rewrite rdata_length. lia.
  - wp_step. apply HQ; [done..|]. rewrite rr_length, rdata_length. lia.
Qed.


(** C21 (bounds): the space reserved for the record is enough.  When it is
    there, [tsig_append_rr] writes no more than that, changes nothing in front
    of it, and [tsig_parse_rr] reads from it the names (in lower case), times,
    MAC, id, error and other data that were written. *)
Theorem tsig_append_reserved tables t r kn an mac other b :
  buffer_ok b -> _limit b <= MAX_PACKET_SIZE -> tsig_ok t kn an other ->
  ts_status t <> TSIG_NOT_PRESENT -> 0 <= mac_size t -> mac_bytes t = Ok mac ->
  Forall byte mac -> zlength mac <= max_algo_digest_size tables -> zlength other <= 16 ->
  _position b + tsig_reserved_space tables t <= _limit b ->
  wp (tsig_append_rr t;;
      end_ ← buffer_position;
      buffer_set_position (_position b);;
      r ← tsig_parse_rr r;
      mret (end_, r))
     (fun '(end_, (r', ok)) b' =>
        end_ <= _position b + tsig_reserved_space tables t /\ _position b' = end_ /\
        ok = true /\ r' = received r t (_position b) kn an mac other /\
        forall i, 0 <= i < _position b -> zget (_data b') i = zget (_data b) i) b.
Proof.
  intros Hb Hmax Hok Hst Hs0 Hm Hmb Hmsize Ho Hl. pose proof Hb as [].
  pose proof (reserved_length tables t kn an mac other Hok Hst Hmsize) as Hres.
  pose proof (rdata_length t an mac other). pose proof (rr_length t kn an mac other).
  pose proof (zlength_wire kn). pose proof (zlength_wire an). pose proof (zlength_nonneg other).
  pose proof (zlength_nonneg mac). unfold MAX_PACKET_SIZE in *.
  wp_step. apply (wp_tsig_append t kn an mac other); [done..|lia|lia|].
  set (b2 := emit _ b). unfold buffer_position. wp_run.
  assert (Hb2 : buffer_ok b2).
  { apply emit_ok; [done| |lia]. destruct Hok as [[_ Hk] [_ Ha] _ [_ Hob] _ _ _ _ _].
    pose proof (wire_bytes kn Hk). pose proof (wire_bytes an Ha).
    unfold rr_bytes, fixed_bytes, rdata_bytes. emit_bytes. }
  pose proof (mac_bytes_size t mac Hs0 Hm).
  apply wp_buffer_set_position; [unfold b2, emit; buf_simpl; lia|]. wp_step.
  eapply (wp_tsig_parse t kn an mac other b2); try done; try lia.
  { apply emit_holds; [done|lia]. }
  { unfold b2, emit. buf_simpl. lia. }
  wp_step. unfold b2 at 1. rewrite emit_pos. split_and!; [lia|done|done|done|].
  intros. by apply emit_before.
Qed.
End proofs.

(** * A concrete HMAC

    Not a secure one: the digest is the sum of the bytes.  It shows that the
    laws of the interface can hold, and lets the witnesses run. *)
#[export] Instance sum_hmac : Hmac := {|
  hmac_context := Z * list Z;
  hmac_create_context alg := (maximum_digest_size alg, []);
  hmac_init_context c alg key := (maximum_digest_size alg, tk_data key);
  hmac_update c x := (c.1, c.2 ++ x);
  hmac_final c := take (Z.to_nat c.1) [u8 (foldr Z.add 0 c.2)];
|}.

#[export] Instance sum_hmac_laws : HmacLaws sum_hmac.
Proof.
  split; intros; cbn.
  - by rewrite app_assoc.
  - done.
  - unfold zlength. rewrite length_take. lia.
  - apply Forall_take. repeat constructor; apply u8_range.
Qed.

(** A response of twelve bytes, signed under the key "k." with "alg.". *)
Definition sample_key : tsig_key := mkkey (of_labels [[107]]) [1; 2; 3].
Definition sample_algorithm : tsig_algorithm := mkalgorithm [97] (of_labels [[97; 108; 103]]) 16 0.
Definition sample_tsig : tsig_record :=
  mktsig TSIG_OK 0 0 0 None (Some sample_algorithm) (Some sample_key) 0 []
    (Some (of_labels [[107]])) (Some (of_labels [[97; 108; 103]])) 0 5 300 0 Mac_null 77 0 0 None.
Definition sample_packet : buffer :=
  mkbuffer 12 100 100 ([0; 77; 132; 0] ++ replicate 96 0) false.

Lemma sample_ok : tsig_ok sample_tsig [[107]] [[97; 108; 103]] [].
Proof.
  constructor; cbn; try (split; [done|by apply (bool_decide_unpack _)]); try lia.
  by right.
Qed.
Lemma sample_ready : tsig_ready sample_tsig sample_algorithm sample_key [].
Proof. by constructor. Qed.

(** The record of [sample_packet] signed at the time 7, and the packet. *)
Definition sample_sent : tsig_record :=
  mktsig TSIG_OK 0 0 0 None (Some sample_algorithm) (Some sample_key) 0 []
    (Some (of_labels [[107]])) (Some (of_labels [[97; 108; 103]])) 0 7 300 1 (Mac_own [173]) 77 0 0 None.
Definition sample_signed : buffer :=
  mkbuffer 47 100 100
    ([0; 77; 132; 0; 0; 0; 0; 0; 0; 0; 0; 0] ++
     rr_bytes sample_sent [[107]] [[97; 108; 103]] [173] [] ++ replicate 53 0) false.

Lemma sample_sent_ok : tsig_ok sample_sent [[107]] [[97; 108; 103]] [].
Proof.
  constructor.
  - split; [by vm_compute|by apply (bool_decide_unpack _)].
  - split; [by vm_compute|by apply (bool_decide_unpack _)].
  - by right.
  - by split; [vm_compute|].
  - by vm_compute.
  - by vm_compute.
  - by vm_compute.
  - by vm_compute.
  - by vm_compute.
Qed.



Lemma tsig_append_witness :
  let tables := tsig_add_algorithm tsig_init sample_algorithm in
  wp (tsig_append_rr sample_sent;;
      end_ ← buffer_position;
      buffer_set_position (_position sample_packet);;
      r ← tsig_parse_rr sample_tsig;
      mret (end_, r))
     (fun '(end_, (r', ok)) b' =>
        end_ <= _position sample_packet + tsig_reserved_space tables sample_sent /\
        _position b' = end_ /\ ok = true /\
        r' = received sample_tsig sample_sent (_position sample_packet) [[107]] [[97; 108; 103]] [173] [] /\
        forall i, 0 <= i < _position sample_packet ->
          zget (_data b') i = zget (_data sample_packet) i) sample_packet.
Proof.
  intros tables. apply tsig_append_reserved; try done; try (by vm_compute).
  - by apply (bool_decide_unpack _).
  - apply sample_sent_ok.
  - by apply (bool_decide_unpack _).
Defined.
