(* ===== verification/Query.v ===== *)
(** Model of the query under way (src/query.h) and of what writes its answer:
    name compression (src/query.c), records and record sets (src/packet.c)
    and the collected answer (src/answer.h, src/answer.c).  The build modelled
    has INET6, MINIMAL_RESPONSES, RATELIMIT and USE_RADIX_TREE, and no NSEC3
    and no BIND8_STATS. *)

From S2P Require Import Prelude Buffer Dname Dns Packet Namedb Edns Tsig.

Definition MAXRRSPP : Z := 10240.
Definition MAX_COMPRESSED_DNAMES : Z := MAXRRSPP.
Definition MAX_COMPRESSION_OFFSET : Z := 16383.
Definition IPV4_MINIMAL_RESPONSE_SIZE : Z := 1480.
Definition IPV6_MINIMAL_RESPONSE_SIZE : Z := 1220.
Definition EXTRA_DOMAIN_NUMBERS : Z := 1024.

Definition QUESTION_SECTION : Z := 0.
Definition ANSWER_SECTION : Z := 1.
Definition AUTHORITY_SECTION : Z := 2.
Definition OPTIONAL_AUTHORITY_SECTION : Z := 3.
Definition ADDITIONAL_A_SECTION : Z := 4.
Definition ADDITIONAL_AAAA_SECTION : Z := 5.
Definition ADDITIONAL_OTHER_SECTION : Z := 6.
Definition RR_SECTION_COUNT : Z := 7.

Inductive query_state := QUERY_PROCESSED | QUERY_DISCARDED | QUERY_IN_AXFR.
#[export] Instance query_state_eq_dec : EqDecision query_state.
Proof. solve_decision. Defined.

(** [struct sockaddr_storage]: the family, the bytes of the address in
    network order and the port. *)
Record sockaddr := mksockaddr { sa_inet6 : bool; sa_addr : list Z; sa_port : Z }.

Section query.
Context `{T : NameTree} `{H : Hmac}.

Record query := mkquery {
  addr : sockaddr;
  maxlen : Z;
  reserved_space : Z;
  edns : edns_record;
  tsig : tsig_record;
  tsig_prepare_it : bool;
  tsig_update_it : bool;
  tsig_sign_it : bool;
  tcp : bool;
  packet : buffer;
  qname : option dname_type;
  qtype : Z;
  qclass : Z;
  query_zone : option Z;
  delegation_domain : option Z;
  delegation_rrset : option Z;
  query_opcode : Z;
  cname_count : Z;
  compressed_dnames : list Z;
  compressed_dname_offsets : list Z;
  compressed_dname_offsets_size : Z;
  number_temporary_domains : Z;
  axfr_is_done : bool;
  axfr_zone : option Z;
  axfr_current_domain : option Z;
  axfr_current_rrset : option Z;
  axfr_current_rr : Z;
  wildcard_domain : option Z;
}.

Definition set_addr (v : sockaddr) (q : query) : query :=
  mkquery v (maxlen q) (reserved_space q) (edns q) (tsig q) (tsig_prepare_it q) (tsig_update_it q)
    (tsig_sign_it q) (tcp q) (packet q) (qname q) (qtype q) (qclass q) (query_zone q)
    (delegation_domain q) (delegation_rrset q) (query_opcode q) (cname_count q)
    (compressed_dnames q) (compressed_dname_offsets q) (compressed_dname_offsets_size q)
    (number_temporary_domains q) (axfr_is_done q) (axfr_zone q) (axfr_current_domain q)
    (axfr_current_rrset q) (axfr_current_rr q) (wildcard_domain q).
Definition set_maxlen (v : Z) (q : query) : query :=
  mkquery (addr q) v (reserved_space q) (edns q) (tsig q) (tsig_prepare_it q) (tsig_update_it q)
    (tsig_sign_it q) (tcp q) (packet q) (qname q) (qtype q) (qclass q) (query_zone q)
    (delegation_domain q) (delegation_rrset q) (query_opcode q) (cname_count q)
    (compressed_dnames q) (compressed_dname_offsets q) (compressed_dname_offsets_size q)
    (number_temporary_domains q) (axfr_is_done q) (axfr_zone q) (axfr_current_domain q)
    (axfr_current_rrset q) (axfr_current_rr q) (wildcard_domain q).
Definition set_reserved_space (v : Z) (q : query) : query :=
  mkquery (addr q) (maxlen q) v (edns q) (tsig q) (tsig_prepare_it q) (tsig_update_it q)
    (tsig_sign_it q) (tcp q) (packet q) (qname q) (qtype q) (qclass q) (query_zone q)
    (delegation_domain q) (delegation_rrset q) (query_opcode q) (cname_count q)
    (compressed_dnames q) (compressed_dname_offsets q) (compressed_dname_offsets_size q)
    (number_temporary_domains q) (axfr_is_done q) (axfr_zone q) (axfr_current_domain q)
    (axfr_current_rrset q) (axfr_current_rr q) (wildcard_domain q).
Definition set_edns (v : edns_record) (q : query) : query :=
  mkquery (addr q) (maxlen q) (reserved_space q) v (tsig q) (tsig_prepare_it q) (tsig_update_it q)
    (tsig_sign_it q) (tcp q) (packet q) (qname q) (qtype q) (qclass q) (query_zone q)
    (delegation_domain q) (delegation_rrset q) (query_opcode q) (cname_count q)
    (compressed_dnames q) (compressed_dname_offsets q) (compressed_dname_offsets_size q)
    (number_temporary_domains q) (axfr_is_done q) (axfr_zone q) (axfr_current_domain q)
    (axfr_current_rrset q) (axfr_current_rr q) (wildcard_domain q).
Definition set_tsig (v : tsig_record) (q : query) : query :=
  mkquery (addr q) (maxlen q) (reserved_space q) (edns q) v (tsig_prepare_it q) (tsig_update_it q)
    (tsig_sign_it q) (tcp q) (packet q) (qname q) (qtype q) (qclass q) (query_zone q)
    (delegation_domain q) (delegation_rrset q) (query_opcode q) (cname_count q)
    (compressed_dnames q) (compressed_dname_offsets q) (compressed_dname_offsets_size q)
    (number_temporary_domains q) (axfr_is_done q) (axfr_zone q) (axfr_current_domain q)
    (axfr_current_rrset q) (axfr_current_rr q) (wildcard_domain q).
Definition set_tsig_prepare_it (v : bool) (q : query) : query :=
  mkquery (addr q) (maxlen q) (reserved_space q) (edns q) (tsig q) v (tsig_update_it q)
    (tsig_sign_it q) (tcp q) (packet q) (qname q) (qtype q) (qclass q) (query_zone q)
    (delegation_domain q) (delegation_rrset q) (query_opcode q) (cname_count q)
    (compressed_dnames q) (compressed_dname_offsets q) (compressed_dname_offsets_size q)
    (number_temporary_domains q) (axfr_is_done q) (axfr_zone q) (axfr_current_domain q)
    (axfr_current_rrset q) (axfr_current_rr q) (wildcard_domain q).
Definition set_tsig_update_it (v : bool) (q : query) : query :=
  mkquery (addr q) (maxlen q) (reserved_space q) (edns q) (tsig q) (tsig_prepare_it q) v
    (tsig_sign_it q) (tcp q) (packet q) (qname q) (qtype q) (qclass q) (query_zone q)
    (delegation_domain q) (delegation_rrset q) (query_opcode q) (cname_count q)
    (compressed_dnames q) (compressed_dname_offsets q) (compressed_dname_offsets_size q)
    (number_temporary_domains q) (axfr_is_done q) (axfr_zone q) (axfr_current_domain q)
    (axfr_current_rrset q) (axfr_current_rr q) (wildcard_domain q).
Definition set_tsig_sign_it (v : bool) (q : query) : query :=
  mkquery (addr q) (maxlen q) (reserved_space q) (edns q) (tsig q) (tsig_prepare_it q)
    (tsig_update_it q) v (tcp q) (packet q) (qname q) (qtype q) (qclass q) (query_zone q)
    (delegation_domain q) (delegation_rrset q) (query_opcode q) (cname_count q)
    (compressed_dnames q) (compressed_dname_offsets q) (compressed_dname_offsets_size q)
    (number_temporary_domains q) (axfr_is_done q) (axfr_zone q) (axfr_current_domain q)
    (axfr_current_rrset q) (axfr_current_rr q) (wildcard_domain q).
Definition set_tcp (v : bool) (q : query) : query :=
  mkquery (addr q) (maxlen q) (reserved_space q) (edns q) (tsig q) (tsig_prepare_it q)
    (tsig_update_it q) (tsig_sign_it q) v (packet q) (qname q) (qtype q) (qclass q) (query_zone q)
    (delegation_domain q) (delegation_rrset q) (query_opcode q) (cname_count q)
    (compressed_dnames q) (compressed_dname_offsets q) (compressed_dname_offsets_size q)
    (number_temporary_domains q) (axfr_is_done q) (axfr_zone q) (axfr_current_domain q)
    (axfr_current_rrset q) (axfr_current_rr q) (wildcard_domain q).
Definition set_packet (v : buffer) (q : query) : query :=
  mkquery (addr q) (maxlen q) (reserved_space q) (edns q) (tsig q) (tsig_prepare_it q)
    (tsig_update_it q) (tsig_sign_it q) (tcp q) v (qname q) (qtype q) (qclass q) (query_zone q)
    (delegation_domain q) (delegation_rrset q) (query_opcode q) (cname_count q)
    (compressed_dnames q) (compressed_dname_offsets q) (compressed_dname_offsets_size q)
    (number_temporary_domains q) (axfr_is_done q) (axfr_zone q) (axfr_current_domain q)
    (axfr_current_rrset q) (axfr_current_rr q) (wildcard_domain q).
Definition set_qname (v : option dname_type) (q : query) : query :=
  mkquery (addr q) (maxlen q) (reserved_space q) (edns q) (tsig q) (tsig_prepare_it q)
    (tsig_update_it q) (tsig_sign_it q) (tcp q) (packet q) v (qtype q) (qclass q) (query_zone q)
    (delegation_domain q) (delegation_rrset q) (query_opcode q) (cname_count q)
    (compressed_dnames q) (compressed_dname_offsets q) (compressed_dname_offsets_size q)
    (number_temporary_domains q) (axfr_is_done q) (axfr_zone q) (axfr_current_domain q)
    (axfr_current_rrset q) (axfr_current_rr q) (wildcard_domain q).
Definition set_qtype (v : Z) (q : query) : query :=
  mkquery (addr q) (maxlen q) (reserved_space q) (edns q) (tsig q) (tsig_prepare_it q)
    (tsig_update_it q) (tsig_sign_it q) (tcp q) (packet q) (qname q) v (qclass q) (query_zone q)
    (delegation_domain q) (delegation_rrset q) (query_opcode q) (cname_count q)
    (compressed_dnames q) (compressed_dname_offsets q) (compressed_dname_offsets_size q)
    (number_temporary_domains q) (axfr_is_done q) (axfr_zone q) (axfr_current_domain q)
    (axfr_current_rrset q) (axfr_current_rr q) (wildcard_domain q).
Definition set_qclass (v : Z) (q : query) : query :=
  mkquery (addr q) (maxlen q) (reserved_space q) (edns q) (tsig q) (tsig_prepare_it q)
    (tsig_update_it q) (tsig_sign_it q) (tcp q) (packet q) (qname q) (qtype q) v (query_zone q)
    (delegation_domain q) (delegation_rrset q) (query_opcode q) (cname_count q)
    (compressed_dnames q) (compressed_dname_offsets q) (compressed_dname_offsets_size q)
    (number_temporary_domains q) (axfr_is_done q) (axfr_zone q) (axfr_current_domain q)
    (axfr_current_rrset q) (axfr_current_rr q) (wildcard_domain q).
Definition set_query_zone (v : option Z) (q : query) : query :=
  mkquery (addr q) (maxlen q) (reserved_space q) (edns q) (tsig q) (tsig_prepare_it q)
    (tsig_update_it q) (tsig_sign_it q) (tcp q) (packet q) (qname q) (qtype q) (qclass q) v
    (delegation_domain q) (delegation_rrset q) (query_opcode q) (cname_count q)
    (compressed_dnames q) (compressed_dname_offsets q) (compressed_dname_offsets_size q)
    (number_temporary_domains q) (axfr_is_done q) (axfr_zone q) (axfr_current_domain q)
    (axfr_current_rrset q) (axfr_current_rr q) (wildcard_domain q).
Definition set_delegation_domain (v : option Z) (q : query) : query :=
  mkquery (addr q) (maxlen q) (reserved_space q) (edns q) (tsig q) (tsig_prepare_it q)
    (tsig_update_it q) (tsig_sign_it q) (tcp q) (packet q) (qname q) (qtype q) (qclass q)
    (query_zone q) v (delegation_rrset q) (query_opcode q) (cname_count q) (compressed_dnames q)
    (compressed_dname_offsets q) (compressed_dname_offsets_size q) (number_temporary_domains q)
    (axfr_is_done q) (axfr_zone q) (axfr_current_domain q) (axfr_current_rrset q)
    (axfr_current_rr q) (wildcard_domain q).
Definition set_delegation_rrset (v : option Z) (q : query) : query :=
  mkquery (addr q) (maxlen q) (reserved_space q) (edns q) (tsig q) (tsig_prepare_it q)
    (tsig_update_it q) (tsig_sign_it q) (tcp q) (packet q) (qname q) (qtype q) (qclass q)
    (query_zone q) (delegation_domain q) v (query_opcode q) (cname_count q) (compressed_dnames q)
    (compressed_dname_offsets q) (compressed_dname_offsets_size q) (number_temporary_domains q)
    (axfr_is_done q) (axfr_zone q) (axfr_current_domain q) (axfr_current_rrset q)
    (axfr_current_rr q) (wildcard_domain q).
Definition set_query_opcode (v : Z) (q : query) : query :=
  mkquery (addr q) (maxlen q) (reserved_space q) (edns q) (tsig q) (tsig_prepare_it q)
    (tsig_update_it q) (tsig_sign_it q) (tcp q) (packet q) (qname q) (qtype q) (qclass q)
    (query_zone q) (delegation_domain q) (delegation_rrset q) v (cname_count q)
    (compressed_dnames q) (compressed_dname_offsets q) (compressed_dname_offsets_size q)
    (number_temporary_domains q) (axfr_is_done q) (axfr_zone q) (axfr_current_domain q)
    (axfr_current_rrset q) (axfr_current_rr q) (wildcard_domain q).
Definition set_cname_count (v : Z) (q : query) : query :=
  mkquery (addr q) (maxlen q) (reserved_space q) (edns q) (tsig q) (tsig_prepare_it q)
    (tsig_update_it q) (tsig_sign_it q) (tcp q) (packet q) (qname q) (qtype q) (qclass q)
    (query_zone q) (delegation_domain q) (delegation_rrset q) (query_opcode q) v
    (compressed_dnames q) (compressed_dname_offsets q) (compressed_dname_offsets_size q)
    (number_temporary_domains q) (axfr_is_done q) (axfr_zone q) (axfr_current_domain q)
    (axfr_current_rrset q) (axfr_current_rr q) (wildcard_domain q).
Definition set_compressed_dnames (v : list Z) (q : query) : query :=
  mkquery (addr q) (maxlen q) (reserved_space q) (edns q) (tsig q) (tsig_prepare_it q)
    (tsig_update_it q) (tsig_sign_it q) (tcp q) (packet q) (qname q) (qtype q) (qclass q)
    (query_zone q) (delegation_domain q) (delegation_rrset q) (query_opcode q) (cname_count q) v
    (compressed_dname_offsets q) (compressed_dname_offsets_size q) (number_temporary_domains q)
    (axfr_is_done q) (axfr_zone q) (axfr_current_domain q) (axfr_current_rrset q)
    (axfr_current_rr q) (wildcard_domain q).
Definition set_compressed_dname_offsets (v : list Z) (q : query) : query :=
  mkquery (addr q) (maxlen q) (reserved_space q) (edns q) (tsig q) (tsig_prepare_it q)
    (tsig_update_it q) (tsig_sign_it q) (tcp q) (packet q) (qname q) (qtype q) (qclass q)
    (query_zone q) (delegation_domain q) (delegation_rrset q) (query_opcode q) (cname_count q)
    (compressed_dnames q) v (compressed_dname_offsets_size q) (number_temporary_domains q)
    (axfr_is_done q) (axfr_zone q) (axfr_current_domain q) (axfr_current_rrset q)
    (axfr_current_rr q) (wildcard_domain q).
Definition set_number_temporary_domains (v : Z) (q : query) : query :=
  mkquery (addr q) (maxlen q) (reserved_space q) (edns q) (tsig q) (tsig_prepare_it q)
    (tsig_update_it q) (tsig_sign_it q) (tcp q) (packet q) (qname q) (qtype q) (qclass q)
    (query_zone q) (delegation_domain q) (delegation_rrset q) (query_opcode q) (cname_count q)
    (compressed_dnames q) (compressed_dname_offsets q) (compressed_dname_offsets_size q) v
    (axfr_is_done q) (axfr_zone q) (axfr_current_domain q) (axfr_current_rrset q)
    (axfr_current_rr q) (wildcard_domain q).
Definition set_axfr_is_done (v : bool) (q : query) : query :=
  mkquery (addr q) (maxlen q) (reserved_space q) (edns q) (tsig q) (tsig_prepare_it q)
    (tsig_update_it q) (tsig_sign_it q) (tcp q) (packet q) (qname q) (qtype q) (qclass q)
    (query_zone q) (delegation_domain q) (delegation_rrset q) (query_opcode q) (cname_count q)
    (compressed_dnames q) (compressed_dname_offsets q) (compressed_dname_offsets_size q)
    (number_temporary_domains q) v (axfr_zone q) (axfr_current_domain q) (axfr_current_rrset q)
    (axfr_current_rr q) (wildcard_domain q).
Definition set_axfr_zone (v : option Z) (q : query) : query :=
  mkquery (addr q) (maxlen q) (reserved_space q) (edns q) (tsig q) (tsig_prepare_it q)
    (tsig_update_it q) (tsig_sign_it q) (tcp q) (packet q) (qname q) (qtype q) (qclass q)
    (query_zone q) (delegation_domain q) (delegation_rrset q) (query_opcode q) (cname_count q)
    (compressed_dnames q) (compressed_dname_offsets q) (compressed_dname_offsets_size q)
    (number_temporary_domains q) (axfr_is_done q) v (axfr_current_domain q) (axfr_current_rrset q)
    (axfr_current_rr q) (wildcard_domain q).
Definition set_axfr_current_domain (v : option Z) (q : query) : query :=
  mkquery (addr q) (maxlen q) (reserved_space q) (edns q) (tsig q) (tsig_prepare_it q)
    (tsig_update_it q) (tsig_sign_it q) (tcp q) (packet q) (qname q) (qtype q) (qclass q)
    (query_zone q) (delegation_domain q) (delegation_rrset q) (query_opcode q) (cname_count q)
    (compressed_dnames q) (compressed_dname_offsets q) (compressed_dname_offsets_size q)
    (number_temporary_domains q) (axfr_is_done q) (axfr_zone q) v (axfr_current_rrset q)
    (axfr_current_rr q) (wildcard_domain q).
Definition set_axfr_current_rrset (v : option Z) (q : query) : query :=
  mkquery (addr q) (maxlen q) (reserved_space q) (edns q) (tsig q) (tsig_prepare_it q)
    (tsig_update_it q) (tsig_sign_it q) (tcp q) (packet q) (qname q) (qtype q) (qclass q)
    (query_zone q) (delegation_domain q) (delegation_rrset q) (query_opcode q) (cname_count q)
    (compressed_dnames q) (compressed_dname_offsets q) (compressed_dname_offsets_size q)
    (number_temporary_domains q) (axfr_is_done q) (axfr_zone q) (axfr_current_domain q) v
    (axfr_current_rr q) (wildcard_domain q).
Definition set_axfr_current_rr (v : Z) (q : query) : query :=
  mkquery (addr q) (maxlen q) (reserved_space q) (edns q) (tsig q) (tsig_prepare_it q)
    (tsig_update_it q) (tsig_sign_it q) (tcp q) (packet q) (qname q) (qtype q) (qclass q)
    (query_zone q) (delegation_domain q) (delegation_rrset q) (query_opcode q) (cname_count q)
    (compressed_dnames q) (compressed_dname_offsets q) (compressed_dname_offsets_size q)
    (number_temporary_domains q) (axfr_is_done q) (axfr_zone q) (axfr_current_domain q)
    (axfr_current_rrset q) v (wildcard_domain q).
Definition set_wildcard_domain (v : option Z) (q : query) : query :=
  mkquery (addr q) (maxlen q) (reserved_space q) (edns q) (tsig q) (tsig_prepare_it q)
    (tsig_update_it q) (tsig_sign_it q) (tcp q) (packet q) (qname q) (qtype q) (qclass q)
    (query_zone q) (delegation_domain q) (delegation_rrset q) (query_opcode q) (cname_count q)
    (compressed_dnames q) (compressed_dname_offsets q) (compressed_dname_offsets_size q)
    (number_temporary_domains q) (axfr_is_done q) (axfr_zone q) (axfr_current_domain q)
    (axfr_current_rrset q) (axfr_current_rr q) v.

Abbreviation Qry := (ST query).

(** An operation on the packet of the query. *)
Definition on_packet {A} (m : Buf A) : Qry A := fun q =>
  match m (packet q) with
  | Ok (a, b) => Ok (a, set_packet b q)
  | Assert_failed => Assert_failed
  | No_fuel => No_fuel
  end.

(** * Name compression *)

(** The array of offsets is indexed by the number of a domain. *)
Definition offset_at (n : Z) : Qry Z :=
  q ← st_get;
  st_assert ((0 <=? n) && (n <? zlength (compressed_dname_offsets q)));;
  mret (zget (compressed_dname_offsets q) n).
Definition offset_put (n offset : Z) : Qry unit :=
  q ← st_get;
  st_assert ((0 <=? n) && (n <? zlength (compressed_dname_offsets q)));;
  st_put (set_compressed_dname_offsets
            (<[Z.to_nat n := offset]> (compressed_dname_offsets q)) q).

Definition query_get_dname_offset (db : namedb) (domain : Z) : Qry Z :=
  d ← lift (domain_at db domain);
  offset_at (number d).

(** [compressed_dnames] holds the [compressed_dname_count] domains in use, the
    last one first. *)
Definition query_put_dname_offset (db : namedb) (domain offset : Z) : Qry unit :=
  d ← lift (domain_at db domain);
  st_assert (0 <? number d);;
  if MAX_COMPRESSION_OFFSET <? offset then mret tt else
  q ← st_get;
  if MAX_COMPRESSED_DNAMES <=? zlength (compressed_dnames q) then mret tt else
  offset_put (number d) offset;;
  st_modify (fun q => set_compressed_dnames (domain :: compressed_dnames q) q).

Fixpoint clear_dname_offsets (db : namedb) (dnames : list Z) (max_offset : Z) : Qry unit :=
  match dnames with
  | [] => mret tt
  | p :: rest =>
      d ← lift (domain_at db p);
      offset ← offset_at (number d);
      if max_offset <=? offset then
        offset_put (number d) 0;;
        st_modify (set_compressed_dnames rest);;
        clear_dname_offsets db rest max_offset
      else mret tt
  end.
Definition query_clear_dname_offsets (db : namedb) (max_offset : Z) : Qry unit :=
  q ← st_get; clear_dname_offsets db (compressed_dnames q) max_offset.

Fixpoint clear_compression_offsets (db : namedb) (dnames : list Z) : Qry unit :=
  match dnames with
  | [] => mret tt
  | p :: rest =>
      d ← lift (domain_at db p);
      offset_put (number d) 0;;
      clear_compression_offsets db rest
  end.
Definition query_clear_compression_tables (db : namedb) : Qry unit :=
  q ← st_get;
  clear_compression_offsets db (reverse (compressed_dnames q));;
  st_modify (set_compressed_dnames []).

(** [offset] is a [uint16_t] throughout. *)
Definition query_add_compression_domain (db : namedb) (domain offset : Z) : Qry unit :=
  st_iter parent_fuel (fun '(domain, offset) =>
    d ← lift (domain_at db domain);
    match parent d with
    | None => mret (inr tt)
    | Some up =>
        query_put_dname_offset db domain offset;;
        len ← lift (label_length (dname_name (domain_dname d)));
        mret (inl (up, u16 (offset + (len + 1))))
    end) (domain, offset).

(** The subtraction is on [size_t]. *)
Definition query_overflow : Qry bool :=
  q ← st_get;
  mret (u64 (maxlen q - reserved_space q) <? _position (packet q)).

(** * Writing records (packet.c) *)

(** The loop of [encode_dname]: write labels up to the root or to a domain
    with an offset. *)
Definition encode_labels (db : namedb) (domain : Z) : Qry Z :=
  st_iter parent_fuel (fun domain =>
    d ← lift (domain_at db domain);
    match parent d with
    | None => mret (inr domain)
    | Some up =>
        offset ← query_get_dname_offset db domain;
        if negb (offset =? 0) then mret (inr domain) else
        position ← on_packet buffer_position;
        query_put_dname_offset db domain (u16 position);;
        len ← lift (label_length (dname_name (domain_dname d)));
        on_packet (buffer_write (take (Z.to_nat (len + 1)) (dname_name (domain_dname d))));;
        mret (inl up)
    end) domain.

Definition encode_dname (db : namedb) (domain : Z) : Qry unit :=
  domain ← encode_labels db domain;
  d ← lift (domain_at db domain);
  match parent d with
  | Some _ =>
      offset ← query_get_dname_offset db domain;
      st_assert (offset <=? MAX_COMPRESSION_OFFSET);;
      on_packet (buffer_write_u16 (Z.lor 0xc000 offset))
  | None => on_packet (buffer_write_u8 0)
  end.

(** The whole name, without compression. *)
Definition write_dname (dname : dname_type) : Buf unit :=
  buffer_write (take (Z.to_nat (name_size dname)) (dname_name dname)).

Fixpoint encode_rdata (db : namedb) (type j : Z) (atoms : list rdata_atom) : Qry unit :=
  match atoms with
  | [] => mret tt
  | a :: atoms =>
      wf ← lift (rdata_atom_wireformat_type type j);
      match wf with
      | RDATA_WF_COMPRESSED_DNAME => p ← lift (rdata_atom_domain a); encode_dname db p
      | RDATA_WF_UNCOMPRESSED_DNAME =>
          p ← lift (rdata_atom_domain a);
          d ← lift (domain_at db p);
          on_packet (write_dname (domain_dname d))
      | _ => bytes ← lift (rdata_atom_data a); on_packet (buffer_write bytes)
      end;;
      encode_rdata db type (j + 1) atoms
  end.

(** One record is written, or none of it. *)
Definition packet_encode_rr (db : namedb) (owner : Z) (r : rr) (ttl_ : Z) : Qry bool :=
  truncation_mark ← on_packet buffer_position;
  encode_dname db owner;;
  on_packet (buffer_write_u16 (rr_type r));;
  on_packet (buffer_write_u16 (klass r));;
  on_packet (buffer_write_u32 ttl_);;
  rdlength_pos ← on_packet buffer_position;
  on_packet (buffer_skip 2);;
  encode_rdata db (rr_type r) 0 (rdatas r);;
  over ← query_overflow;
  if negb over then
    position ← on_packet buffer_position;
    on_packet (buffer_write_u16_at rdlength_pos (u16 (position - rdlength_pos - 2)));;
    mret true
  else
    on_packet (buffer_set_position truncation_mark);;
    query_clear_dname_offsets db truncation_mark;;
    over ← query_overflow;
    st_assert (negb over);;
    mret false.

(** The records of [rs] that pass the test, up to the first that does not
    fit: how many, and whether all did. *)
Fixpoint encode_rrs (db : namedb) (owner : Z) (test : rr -> res bool) (ttl_of : rr -> Z)
    (rs : list rr) (added : Z) : Qry (Z * bool) :=
  match rs with
  | [] => mret (added, true)
  | r :: rs =>
      t ← lift (test r);
      if (t : bool) then
        ok ← packet_encode_rr db owner r (ttl_of r);
        if (ok : bool) then encode_rrs db owner test ttl_of rs (u16 (added + 1))
        else mret (added, false)
      else encode_rrs db owner test ttl_of rs added
  end.

Definition all_rrs (_ : rr) : res bool := Ok true.

(** What the process keeps between record sets: the static counter of
    [packet_encode_rrset], and [done] of its caller. *)
Record encoding := mkencoding { round_robin_off : Z; enc_done : bool }.

(** The signatures that cover the record set. *)
Definition encode_rrsigs (db : namedb) (owner : Z) (rs : rrset) (added : Z) : Qry (Z * bool) :=
  q ← st_get;
  if dnssec_ok (edns q) =? 0 then mret (added, true) else
  secure ← lift (zone_is_secure db (rrset_zone rs));
  if negb secure then mret (added, true) else
  type ← lift (rrset_rrtype rs);
  if type =? TYPE_RRSIG then mret (added, true) else
  d ← lift (domain_at db owner);
  sig ← lift (domain_find_rrset db d (rrset_zone rs) TYPE_RRSIG);
  match sig with
  | None => mret (added, true)
  | Some sig =>
      sig ← lift (rrset_at db sig);
      first ← lift (first_rr rs);
      encode_rrs db owner (fun r => t ← rr_rrsig_type_covered r; mret (t =? type))
        (fun r => if type =? TYPE_SOA then ttl first else ttl r) (rrs sig) added
  end.

(** [round_robin] is the global of that name. *)
Definition packet_encode_rrset (db : namedb) (round_robin : bool) (owner : Z) (rs : rrset)
    (section minimal_respsize : Z) (e : encoding) : Qry (Z * encoding) :=
  let minimize_response := OPTIONAL_AUTHORITY_SECTION <=? section in
  let truncate_rrset := (section =? ANSWER_SECTION) || (section =? AUTHORITY_SECTION) in
  q ← st_get;
  let do_robin := round_robin && (section =? ANSWER_SECTION) &&
                  negb (qtype q =? TYPE_AXFR) && negb (qtype q =? TYPE_IXFR) in
  st_assert (0 <? rr_count rs);;
  truncation_mark ← on_packet buffer_position;
  let '(start, e) :=
    if do_robin then
      (Z.to_nat (u16 (round_robin_off e mod rr_count rs)), mkencoding (round_robin_off e + 1) (enc_done e))
    else (0%nat, e) in
  '(added, all) ← encode_rrs db owner all_rrs ttl (drop start (rrs rs)) 0;
  '(added, all) ← (if (all : bool) then encode_rrs db owner all_rrs ttl (take start (rrs rs)) added
                   else mret (added, false));
  '(added, all_added) ← (if (all : bool) then encode_rrsigs db owner rs added else mret (added, false));
  position ← on_packet buffer_position;
  '(added, e) ← (if (negb all_added || (minimal_respsize <? position)) && negb (tcp q) && minimize_response then
         on_packet (buffer_set_position truncation_mark);;
         query_clear_dname_offsets db truncation_mark;;
         mret (0, mkencoding (round_robin_off e) true)
       else mret (added, e));
  if negb all_added && truncate_rrset then
    on_packet (buffer_set_position truncation_mark);;
    query_clear_dname_offsets db truncation_mark;;
    on_packet TC_SET;;
    mret (0, e)
  else mret (added, e).

(** * The collected answer (answer.c) *)

Record answer_entry := mkentry { a_section : Z; a_domain : Z; a_rrset : Z }.

(** The entries in use, [rrset_count] of them. *)
Definition answer := list answer_entry.
Definition answer_init : answer := [].

(** The loop that looks for the record set: the new entries and the value
    returned. *)
Fixpoint answer_raise (db : namedb) (a : answer) (section : Z) (domain : domain) (rrset : Z) :
    res (option (answer * bool)) :=
  match a with
  | [] => Ok None
  | e :: a =>
      d ← domain_at db (a_domain e);
      if (a_rrset e =? rrset) && (number d =? number domain) then
        if section <? a_section e then Ok (Some (mkentry section (a_domain e) (a_rrset e) :: a, true))
        else Ok (Some (e :: a, false))
      else
        r ← answer_raise db a section domain rrset;
        mret (match r with Some (a, v) => Some (e :: a, v) | None => None end)
  end.

Definition answer_add_rrset (db : namedb) (a : answer) (section domain rrset : Z) :
    res (answer * bool) :=
  rassert ((ANSWER_SECTION <=? section) && (section <? RR_SECTION_COUNT));;
  d ← domain_at db domain;
  r ← answer_raise db a section d rrset;
  match r with
  | Some r => mret r
  | None =>
      if MAXRRSPP <=? zlength a then mret (a, false)
      else mret (a ++ [mkentry section domain rrset], true)
  end.

(** The record sets of one section, until the packet is truncated. *)
Fixpoint encode_section (db : namedb) (round_robin : bool) (section minimal_respsize : Z)
    (a : answer) (count : Z) (e : encoding) : Qry (Z * encoding) :=
  tc ← on_packet TC;
  if negb (tc =? 0) then mret (count, e) else
  match a with
  | [] => mret (count, e)
  | x :: a =>
      if a_section x =? section then
        rs ← lift (rrset_at db (a_rrset x));
        '(added, e) ← packet_encode_rrset db round_robin (a_domain x) rs section minimal_respsize e;
        encode_section db round_robin section minimal_respsize a (u16 (count + added)) e
      else encode_section db round_robin section minimal_respsize a count e
  end.

Fixpoint encode_sections (db : namedb) (round_robin : bool) (minimal_respsize : Z) (a : answer)
    (sections : list Z) (counts : list Z) (e : encoding) : Qry (list Z * encoding) :=
  match sections with
  | [] => mret (counts, e)
  | section :: sections =>
      tc ← on_packet TC;
      if negb (tc =? 0) then mret (counts, e) else
      '(count, e) ← encode_section db round_robin section minimal_respsize a 0 e;
      let counts := <[Z.to_nat section := count]> counts in
      if enc_done e then
        q ← st_get;
        (if (section =? ADDITIONAL_A_SECTION) && (zget counts ADDITIONAL_A_SECTION =? 0) &&
            match delegation_domain q with Some _ => true | None => false end
         then on_packet TC_SET else mret tt);;
        mret (counts, e)
      else encode_sections db round_robin minimal_respsize a sections counts e
  end.

Definition encode_answer (db : namedb) (round_robin : bool) (a : answer) (off : Z) : Qry Z :=
  q ← st_get;
  let minimal_respsize :=
    if sa_inet6 (addr q) then IPV6_MINIMAL_RESPONSE_SIZE else IPV4_MINIMAL_RESPONSE_SIZE in
  '(counts, e) ← encode_sections db round_robin minimal_respsize a
        [ANSWER_SECTION; AUTHORITY_SECTION; OPTIONAL_AUTHORITY_SECTION; ADDITIONAL_A_SECTION;
         ADDITIONAL_AAAA_SECTION; ADDITIONAL_OTHER_SECTION]
        (replicate (Z.to_nat RR_SECTION_COUNT) 0) (mkencoding off false);
  on_packet (ANCOUNT_SET (zget counts ANSWER_SECTION));;
  on_packet (NSCOUNT_SET (u16 (zget counts AUTHORITY_SECTION + zget counts OPTIONAL_AUTHORITY_SECTION)));;
  on_packet (ARCOUNT_SET (u16 (zget counts ADDITIONAL_A_SECTION + zget counts ADDITIONAL_AAAA_SECTION
                               + zget counts ADDITIONAL_OTHER_SECTION)));;
  mret (round_robin_off e).
End query.
