(* ===== verification/QueryProofs.v ===== *)
(** Theorems about name compression and the writing of records (Query.v). *)

From S2P Require Import Prelude Buffer Dname DnameProofs DnamePacket Dns Packet PacketProofs Contents Namedb NamedbProofs Edns Tsig Query.

(** * Names that stay readable *)

(** The bytes at [p] denote the labels [ls], reading only bytes in [A]; the
    name's own encoding ends at [q]. *)
Inductive name_in (A : Z -> Prop) (d : list Z) : Z -> name -> Z -> Prop :=
  | in_root p : A p -> zget d p = 0 -> name_in A d p [] (p + 1)
  | in_label p ls q : 1 <= zget d p < 64 -> (forall i, p <= i <= p + zget d p -> A i) ->
      name_in A d (p + 1 + zget d p) ls q ->
      name_in A d p (zslice d (p + 1) (zget d p) :: ls) q
  | in_pointer p ls q : 192 <= zget d p -> A p -> A (p + 1) ->
      name_in A d ((zget d p - 192) * 256 + zget d (p + 1)) ls q -> name_in A d p ls (p + 2).

Lemma name_in_start A d p ls q : name_in A d p ls q -> A p.
Proof. destruct 1 as [| p ls q H1 H2|]; [done|apply H2; lia|done]. Qed.

Lemma name_in_mono (A A' : Z -> Prop) d d' p ls q :
  (forall x, A x -> A' x /\ zget d x = zget d' x /\ 0 <= x < zlength d /\ x < zlength d') ->
  name_in A d p ls q -> name_in A' d' p ls q.
Proof.
  intros HA. induction 1 as [p H1 H2|p ls q H1 H2 H3 IH|p ls q H1 H2 H3 H4 IH].
  - destruct (HA _ H1) as (? & E & _). apply in_root; [done|by rewrite <-E].
  - destruct (HA p) as (_ & E & Hr & Hr'); [apply H2; lia|]. 
    destruct (HA (p + zget d p)) as (_ & _ & Hx & Hx'); [apply H2; lia|]. rewrite E in *.
    rewrite (zslice_ext d d' (p + 1) (zget d' p)); try lia.
    2:{ intros i Hi. apply HA, H2. lia. }
    apply in_label; [done| |done]. intros i Hi. apply HA, H2. lia.
  - destruct (HA _ H2) as (? & E1 & _), (HA _ H3) as (? & E2 & _). rewrite E1, E2 in *.
    by eapply in_pointer.
Qed.

(** What the message format says of such a name. *)
Lemma name_in_pkt A d lim p ls q : (forall x, A x -> x < lim) -> name_in A d p ls q ->
  exists n, pkt_name true d lim n p ls q.
Proof.
  intros HA. induction 1 as [p H1 H2|p ls q H1 H2 H3 [n IH]|p ls q H1 H2 H3 H4 [n IH]].
  - exists 1%nat. apply pkt_root; [by apply HA|done].
  - exists (S n). apply pkt_label; [done| |done].
    assert (p + zget d p < lim) by (apply HA, H2; lia). lia.
  - exists (S n). apply HA in H3. pose proof (HA _ (name_in_start _ _ _ _ _ H4)).
    eapply pkt_pointer; [done..|lia|done|done].
Qed.

(** The bytes below [lim], without those whose value is still to come. *)
Definition upto (hole : Z -> Prop) (lim : Z) : Z -> Prop := fun x => 0 <= x < lim /\ ~ hole x.

(** The bytes at [o] denote [ls], up to the case of letters. *)
Definition den (hole : Z -> Prop) (d : list Z) (lim o : Z) (ls : name) : Prop :=
  exists ls' e, name_in (upto hole lim) d o ls' e /\ normalize ls' = normalize ls.

Definition agree (lim : Z) (d d' : list Z) : Prop := forall i, 0 <= i < lim -> zget d i = zget d' i.

Lemma upto_mono (hole hole' : Z -> Prop) d d' lim lim' :
  (forall x, hole' x -> x < lim -> hole x) -> agree lim d d' -> lim <= lim' ->
  lim <= zlength d -> lim <= zlength d' ->
  forall x, upto hole lim x ->
    upto hole' lim' x /\ zget d x = zget d' x /\ 0 <= x < zlength d /\ x < zlength d'.
Proof.
  intros Hh Hag Hle Hl Hl' x [Hx Hn]. split_and!; try lia; [|by apply Hag].
  split; [lia|]. intros H'. apply Hn, Hh; [done|lia].
Qed.

Lemma den_mono hole hole' d d' lim lim' o ls :
  den hole d lim o ls -> (forall x, hole' x -> x < lim -> hole x) -> agree lim d d' -> lim <= lim' ->
  lim <= zlength d -> lim <= zlength d' -> den hole' d' lim' o ls.
Proof.
  intros (ls' & e & Hn & E) Hh Hag Hle Hl Hl'. exists ls', e. split; [|done].
  eapply name_in_mono; [by eapply upto_mono|done].
Qed.

Lemma den_below hole d lim o ls : den hole d lim o ls -> 0 <= o < lim.
Proof. intros (ls' & e & Hn%name_in_start & _). apply Hn. Qed.

Lemma emit_agree x b : buffer_ok b -> agree (_position b) (_data b) (_data (emit x b)).
Proof. intros Hb i Hi. symmetry. by apply emit_before. Qed.

Lemma agree_trans lim lim' d1 d2 d3 : lim <= lim' -> agree lim d1 d2 -> agree lim' d2 d3 ->
  agree lim d1 d3.
Proof. intros Hl H1 H2 i Hi. rewrite H1 by done. apply H2. lia. Qed.

(** * The state that changes *)
Section proofs.
Context `{T : NameTree} `{H : Hmac}.

Abbreviation Qry := (ST query).

(** [q] with another packet and another compression table. *)
Definition upd (q : query) (b : buffer) (dn offs : list Z) : query :=
  set_compressed_dname_offsets offs (set_compressed_dnames dn (set_packet b q)).

Lemma upd_same q : upd q (packet q) (compressed_dnames q) (compressed_dname_offsets q) = q.
Proof using. by destruct q. Qed.

Section rules.
Context (db : namedb) (q : query) (b : buffer) (dn offs : list Z).
Abbreviation st := (upd q b dn offs).

Lemma wp_on_packet {A} (m : Buf A) (Q : A -> query -> Prop) :
  wp m (fun a b' => Q a (upd q b' dn offs)) b -> wp (on_packet m) Q st.
Proof using. unfold wp, on_packet. cbn. by destruct (m b) as [[a b']| |]. Qed.

Lemma wp_offset_at n (Q : Z -> query -> Prop) :
  0 <= n < zlength offs -> Q (zget offs n) st -> wp (offset_at n) Q st.
Proof using.
  intros Hn HQ. unfold offset_at. do 3 wp_step.
  apply wp_assert; [by rewrite (proj2 (Z.leb_le _ _)), (proj2 (Z.ltb_lt _ _)) by (cbn; lia)|].
  by wp_step.
Qed.

Lemma wp_offset_put n o (Q : unit -> query -> Prop) :
  0 <= n < zlength offs -> Q tt (upd q b dn (<[Z.to_nat n := o]> offs)) -> wp (offset_put n o) Q st.
Proof using.
  intros Hn HQ. unfold offset_put. do 3 wp_step.
  apply wp_assert; [by rewrite (proj2 (Z.leb_le _ _)), (proj2 (Z.ltb_lt _ _)) by (cbn; lia)|].
  by wp_step.
Qed.

Lemma wp_domain_at {A} p d (f : domain -> Qry A) (Q : A -> query -> Prop) :
  domain_at db p = Ok d -> wp (f d) Q st -> wp (lift (domain_at db p) ≫= f) Q st.
Proof using. intros Hd HQ. wp_step. by apply (wp_lift _ d). Qed.

Lemma wp_get_offset p d (Q : Z -> query -> Prop) :
  domain_at db p = Ok d -> 0 <= number d < zlength offs -> Q (zget offs (number d)) st ->
  wp (query_get_dname_offset db p) Q st.
Proof using.
  intros Hd Hn HQ. unfold query_get_dname_offset. eapply wp_domain_at; [done|].
  by apply wp_offset_at.
Qed.

(** An offset is entered, or the table is full or the offset too large. *)
Lemma wp_put_offset p d o (Q : unit -> query -> Prop) :
  domain_at db p = Ok d -> 0 < number d < zlength offs ->
  Q tt st ->
  (o <= MAX_COMPRESSION_OFFSET -> Q tt (upd q b (p :: dn) (<[Z.to_nat (number d) := o]> offs))) ->
  wp (query_put_dname_offset db p o) Q st.
Proof using.
  intros Hd Hn HQ1 HQ2. unfold query_put_dname_offset. eapply wp_domain_at; [done|].
  wp_step. apply wp_assert; [apply Z.ltb_lt; lia|]. wp_step; bool_simpl; [by wp_step|].
  do 2 wp_step. wp_step; [by wp_step|]. wp_step. apply wp_offset_put; [lia|].
  wp_step. by apply HQ2.
Qed.
End rules.

(** * Entering and removing offsets *)

(** [pushes P lo dn offs dn' offs']: the second table is the first with
    entries added, each for a number that had none, at offsets from [lo]. *)
Inductive pushes (db : namedb) (P : Z -> Z -> Prop) (lo : Z) (dn offs : list Z) :
    list Z -> list Z -> Prop :=
  | pushes_nil : pushes db P lo dn offs dn offs
  | pushes_cons p d o dn' offs' :
      pushes db P lo dn offs dn' offs' ->
      domain_at db p = Ok d -> 0 < number d < zlength offs -> zget offs' (number d) = 0 ->
      lo <= o <= MAX_COMPRESSION_OFFSET -> 0 < o -> P (number d) o ->
      pushes db P lo dn offs (p :: dn') (<[Z.to_nat (number d) := o]> offs').

Lemma pushes_length db P lo dn offs dn' offs' :
  pushes db P lo dn offs dn' offs' -> zlength offs' = zlength offs.
Proof using. induction 1; [done|]. unfold zlength in *. by rewrite length_insert. Qed.

Lemma pushes_mono db (P P' : Z -> Z -> Prop) lo lo' dn offs dn' offs' :
  (forall n o, P n o -> P' n o) -> lo' <= lo ->
  pushes db P lo dn offs dn' offs' -> pushes db P' lo' dn offs dn' offs'.
Proof using. intros HP Hlo. induction 1; econstructor; eauto; lia. Qed.

Lemma pushes_trans db P lo dn offs dn1 offs1 dn2 offs2 :
  pushes db P lo dn offs dn1 offs1 -> pushes db P lo dn1 offs1 dn2 offs2 ->
  pushes db P lo dn offs dn2 offs2.
Proof using.
  intros H1 H2. induction H2; [done|]. econstructor; eauto.
  by rewrite <-(pushes_length _ _ _ _ _ _ _ H1).
Qed.

Lemma zget_insert_ne l i j x : 0 <= i -> 0 <= j -> i <> j ->
  zget (<[Z.to_nat i := x]> l) j = zget l j.
Proof using. intros. unfold zget. by rewrite list_lookup_insert_ne by lia. Qed.

Lemma zget_insert_eq l i x : 0 <= i < zlength l -> zget (<[Z.to_nat i := x]> l) i = x.
Proof using. intros. by rewrite zget_insert, Z.eqb_refl by lia. Qed.

(** What the numbers of the table mean afterwards. *)
Lemma pushes_lookup db P lo dn offs dn' offs' n :
  pushes db P lo dn offs dn' offs' -> 0 <= n < zlength offs ->
  zget offs' n = zget offs n \/ (zget offs n = 0 /\ P n (zget offs' n) /\
    0 < zget offs' n <= MAX_COMPRESSION_OFFSET).
Proof using.
  intros Hp Hn. induction Hp as [|p d o dn' offs' Hp IH Hd Hnum Hz Hlo Ho HP]; [by left|].
  assert (Hl : zlength offs' = zlength offs) by (by eapply pushes_length).
  destruct (decide (n = number d)) as [->|Hne].
  - rewrite zget_insert_eq by lia. right. split_and!; [|done|lia|lia].
    destruct IH as [IH|(IH & _)]; [congruence|done].
  - by rewrite zget_insert_ne by lia.
Qed.

Lemma insert_back (l : list Z) n o : 0 <= n < zlength l -> zget l n = 0 ->
  <[Z.to_nat n := 0]> (<[Z.to_nat n := o]> l) = l.
Proof using.
  intros Hn Hz. rewrite list_insert_insert_eq. apply list_insert_id.
  rewrite zget_lookup by done. by rewrite Hz.
Qed.

(** Truncation to [lo] takes back exactly what was entered since. *)
Lemma wp_clear_offsets db P lo q b dn offs dn' offs' (Q : unit -> query -> Prop) :
  pushes db P lo dn offs dn' offs' ->
  (forall p, p ∈ dn -> exists d, domain_at db p = Ok d /\ 0 <= number d < zlength offs /\
     zget offs (number d) < lo) ->
  Q tt (upd q b dn offs) ->
  wp (query_clear_dname_offsets db lo) Q (upd q b dn' offs').
Proof using.
  intros Hp Hold HQ. unfold query_clear_dname_offsets. do 2 wp_step. cbn [compressed_dnames upd].
  change (compressed_dnames (upd q b dn' offs')) with dn'.
  induction Hp as [|p d o dn' offs' Hp IH Hd Hnum Hz Hlo Ho HP].
  - destruct dn as [|p dn1]; cbn [clear_dname_offsets]; [by wp_step|].
    destruct (Hold p) as (d & Hd & Hn & Hlt); [by left|].
    eapply wp_domain_at; [done|]. wp_step. apply wp_offset_at; [done|].
    wp_step; bool_simpl; [lia|]. by wp_step.
  - assert (Hl : zlength offs' = zlength offs) by (by eapply pushes_length).
    assert (Hl' : zlength (<[Z.to_nat (number d):=o]> offs') = zlength offs)
      by (unfold zlength in *; by rewrite length_insert).
    cbn [clear_dname_offsets].
    eapply wp_domain_at; [done|]. wp_step. apply wp_offset_at; [lia|].
    rewrite zget_insert_eq by lia. wp_step; bool_simpl; [|lia].
    wp_step. apply wp_offset_put; [lia|]. rewrite insert_back by lia.
    do 2 wp_step. exact IH.
Qed.

(** * Writing a name *)

(** The name written at [p], and where its encoding ends. *)
Definition written (hole : Z -> Prop) (d : list Z) (p e : Z) (ls : name) : Prop :=
  exists ls', name_in (upto hole e) d p ls' e /\ normalize ls' = normalize ls.

Lemma written_den hole d p e ls : written hole d p e ls -> den hole d e p ls.
Proof using. intros (ls' & Hn & E). by exists ls', e. Qed.

Lemma written_mono hole hole' d d' p e ls :
  written hole d p e ls -> (forall x, hole' x -> x < e -> hole x) -> agree e d d' ->
  e <= zlength d -> e <= zlength d' -> written hole' d' p e ls.
Proof using.
  intros (ls' & Hn & E) Hh Hag Hl Hl'. exists ls'. split; [|done].
  eapply name_in_mono; [by eapply upto_mono|done].
Qed.

Lemma pointer_bytes o : 0 <= o <= MAX_COMPRESSION_OFFSET ->
  write_uint16 (Z.lor 0xc000 o) = [192 + o / 256; o mod 256].
Proof using.
  intros Ho. unfold MAX_COMPRESSION_OFFSET in Ho. change 0xc000 with (Z.shiftl 3 14).
  rewrite (lor_shiftl_add 3 o 14) by lia. rewrite write_uint16_eq. f_equal; [dlia|]. f_equal. dlia.
Qed.

Section names.
Context (db : namedb) (nm : Z -> name) (hole : Z -> Prop) (d : list Z) (lim : Z).

(** The chain of [p] can be written and denotes [ls]: up to the root, or to a
    domain whose number has an offset where its name already is. *)
Inductive enc_ok (offs : list Z) : Z -> name -> Prop :=
  | enc_root p a : domain_at db p = Ok a -> parent a = None -> enc_ok offs p []
  | enc_hit p a up : domain_at db p = Ok a -> parent a = Some up ->
      0 <= number a < zlength offs ->
      0 < zget offs (number a) <= MAX_COMPRESSION_OFFSET ->
      den hole d lim (zget offs (number a)) (nm (number a)) -> nm (number a) <> [] ->
      enc_ok offs p (nm (number a))
  | enc_miss p a up l ls rest : domain_at db p = Ok a -> parent a = Some up ->
      0 < number a < zlength offs -> zget offs (number a) = 0 ->
      dname_name (domain_dname a) = zlength l :: l ++ rest -> label_ok l ->
      nm (number a) = l :: ls -> enc_ok offs up ls -> enc_ok offs p (l :: ls).

Lemma enc_ok_insert offs n o p ls : 0 <= n -> (length ls < length (nm n))%nat ->
  enc_ok offs p ls -> enc_ok (<[Z.to_nat n := o]> offs) p ls.
Proof using.
  intros Hn Hlen He. induction He as [|p a up Ha Hup Hnum Ho Hden|p a up l ls rest Ha Hup Hnum Hz Hname Hl Hnm He IH].
  - by econstructor.
  - assert (number a <> n) by (intros <-; lia).
    assert (E : zget (<[Z.to_nat n:=o]> offs) (number a) = zget offs (number a))
      by (apply zget_insert_ne; lia).
    eapply enc_hit; [done|done|unfold zlength in *; rewrite length_insert; lia|by rewrite E|by rewrite E|done].
  - assert (number a <> n) by (intros <-; rewrite Hnm in Hlen; lia).
    eapply enc_miss; try done.
    + unfold zlength in *. rewrite length_insert. lia.
    + rewrite zget_insert_ne by lia. done.
    + apply IH. simpl in Hlen. lia.
Qed.

Definition encode_from (fuel : nat) (p : Z) : Qry unit :=
  domain ← st_iter fuel (fun domain =>
    d ← lift (domain_at db domain);
    match parent d with
    | None => mret (inr domain)
    | Some up =>
        offset ← query_get_dname_offset db domain;
        if negb (offset =? 0) then mret (inr domain) else
        position ← on_packet buffer_position;
        query_put_dname_offset db domain (u16 position);;
        len ← lift (label_length (dname_name (domain_dname d)));
        on_packet (buffer_write (take (Z.to_nat (len + 1)) (dname_name (domain_dname d))));;
        mret (inl up)
    end) p;
  d ← lift (domain_at db domain);
  match parent d with
  | Some _ =>
      offset ← query_get_dname_offset db domain;
      st_assert (offset <=? MAX_COMPRESSION_OFFSET);;
      on_packet (buffer_write_u16 (Z.lor 0xc000 offset))
  | None => on_packet (buffer_write_u8 0)
  end.

(** What writing [ls] leaves behind. *)
Definition name_post (q : query) (b : buffer) (dn offs : list Z) (ls : name)
    (Q : unit -> query -> Prop) : Prop :=
  forall bs dn' offs', Forall byte bs -> 0 < zlength bs <= zlength (wire ls) ->
    pushes db (fun n o => den hole (_data (emit bs b)) (_position b + zlength bs) o (nm n) /\ nm n <> [])
      (_position b) dn offs dn' offs' ->
    written hole (_data (emit bs b)) (_position b) (_position b + zlength bs) ls ->
    Q tt (upd q (emit bs b) dn' offs').

(** No hole where the name is written. *)
Definition clear_from (p : Z) : Prop := forall x, hole x -> x < p.

(** One label and the rest of the name. *)
Lemma written_label b l ls bs : buffer_ok b -> label_ok l -> clear_from (_position b) ->
  _position b + zlength (zlength l :: l ++ bs) <= _limit b -> Forall byte bs ->
  written hole (_data (emit (zlength l :: l ++ bs) b)) (_position b + 1 + zlength l)
    (_position b + 1 + zlength l + zlength bs) ls ->
  written hole (_data (emit (zlength l :: l ++ bs) b)) (_position b)
    (_position b + zlength (zlength l :: l ++ bs)) (l :: ls).
Proof using.
  intros Hb Hl Hcl Hlim Hbs (ls' & Hn & E). pose proof (emit_holds _ _ Hb Hlim) as Hh.
  apply holds_cons in Hh as [Hc Hh]. apply holds_app in Hh as [Hlab _].
  apply holds_byte in Hc. apply holds_slice in Hlab. destruct Hl as [Hl _].
  generalize dependent (_data (emit (zlength l :: l ++ bs) b)). intros d' Hn Hc Hlab.
  exists (l :: ls'). split; [|unfold normalize in *; by rewrite !fmap_cons, E].
  pose proof (zlength_nonneg bs). rewrite zlength_cons, zlength_app in *.
  set (e := _position b + 1 + zlength l + zlength bs) in *.
  replace (_position b + (zlength l + zlength bs + 1)) with e by lia. pose proof Hb as [].
  pose proof (in_label (upto hole e) d' (_position b) ls' e) as Hstep. rewrite Hc, Hlab in Hstep.
  apply Hstep; [lia| |done]. intros i Hi. split; [lia|]. intros Hx%Hcl. lia.
Qed.

Lemma label_length_name l rest : label_ok l -> label_length (zlength l :: l ++ rest) = Ok (zlength l).
Proof using. intros. by apply label_head_length. Qed.

Lemma wp_encode_root q b dn offs (Q : unit -> query -> Prop) :
  buffer_ok b -> clear_from (_position b) -> _position b + 1 <= _limit b -> name_post q b dn offs [] Q ->
  wp (on_packet (buffer_write_u8 0)) Q (upd q b dn offs).
Proof using.
  intros Hb Hcl Hl HQ. apply wp_on_packet, wp_emit_u8; [done|done|].
  assert (Hh : zlength [0] = 1) by done. pose proof Hb as [].
  apply HQ; [by repeat constructor|rewrite Hh; by change (zlength (wire [])) with 1|constructor|].
  exists []. split; [|done]. rewrite Hh. apply in_root; [split; [lia|intros Hx%Hcl; lia]|].
  pose proof (emit_holds [0] b Hb ltac:(rewrite Hh; lia)) as Hp. by apply holds_byte in Hp.
Qed.

Lemma wp_encode_pointer q b dn offs o ls (Q : unit -> query -> Prop) :
  buffer_ok b -> clear_from (_position b) -> _position b + 2 <= _limit b ->
  lim <= _position b -> agree lim d (_data b) -> lim <= zlength d ->
  0 < o <= MAX_COMPRESSION_OFFSET -> den hole d lim o ls -> ls <> [] ->
  name_post q b dn offs ls Q ->
  wp (on_packet (buffer_write_u16 (Z.lor 0xc000 o))) Q (upd q b dn offs).
Proof using.
  intros Hb Hcl Hl Hlim Hag Hld Ho Hden Hne HQ. apply wp_on_packet, wp_emit_u16; [done|done|].
  set (bs := write_uint16 (Z.lor 0xc000 o)). pose proof Hb as [].
  assert (Hbs : zlength bs = 2) by done. assert (Hbytes : Forall byte bs) by apply write_uint16_bytes.
  pose proof (emit_holds bs b Hb ltac:(lia)) as Hh.
  assert (Hok : buffer_ok (emit bs b)) by (apply emit_ok; [done|done|lia]). pose proof Hok as [].
  assert (Hpos : _position (emit bs b) = _position b + 2) by (by rewrite emit_pos, Hbs).
  apply HQ; [done| |constructor|].
  - rewrite Hbs. destruct ls as [|l ls]; [done|]. rewrite zlength_wire_cons.
    pose proof (zlength_nonneg l). pose proof (zlength_wire ls). lia.
  - assert (Hden' : den hole (_data (emit bs b)) (_position b + 2) o ls).
    { eapply den_mono; [done|done| |lia|done|lia]. eapply agree_trans; [|done|by apply emit_agree]. lia. }
    destruct Hden' as (ls' & e & Hn & E).
    exists ls'. split; [|done]. rewrite Hbs.
    unfold bs in Hh. rewrite pointer_bytes in Hh by lia. apply holds_cons in Hh as [H1 H2].
    apply holds_byte in H1, H2. rewrite <-(pointer_bytes o) in H1, H2 by lia. fold bs in H1, H2.
    assert (Hin : forall x, _position b <= x < _position b + 2 -> upto hole (_position b + 2) x).
    { intros x Hx. split; [lia|]. intros Hh%Hcl. lia. }
    unfold MAX_COMPRESSION_OFFSET in *.
    apply (in_pointer _ _ _ _ e); [rewrite H1; dlia|apply Hin; lia|apply Hin; lia|].
    rewrite H1, H2. by replace ((192 + o / 256 - 192) * 256 + o mod 256) with o by dlia.
Qed.

(** [dn1] and [offs1] are the table with the offset of the label entered, when
    it can be. *)
Definition entered (dn offs : list Z) (p n pos : Z) (dn1 offs1 : list Z) : Prop :=
  (dn1 = dn /\ offs1 = offs) \/
  (dn1 = p :: dn /\ offs1 = <[Z.to_nat n := pos]> offs /\ pos <= MAX_COMPRESSION_OFFSET).

(** After a label it remains to write the rest. *)
Lemma name_post_label q b dn offs p a l ls (Q : unit -> query -> Prop) dn1 offs1 :
  buffer_ok b -> clear_from (_position b) -> 0 < _position b -> label_ok l ->
  _position b + (zlength l + 1 + zlength (wire ls)) <= _limit b ->
  domain_at db p = Ok a -> 0 < number a < zlength offs -> zget offs (number a) = 0 ->
  nm (number a) = l :: ls -> entered dn offs p (number a) (_position b) dn1 offs1 ->
  name_post q b dn offs (l :: ls) Q ->
  name_post q (emit (zlength l :: l) b) dn1 offs1 ls Q.
Proof using.
  intros Hb Hcl Hp0 Hlab Hl Ha Hnum Hz Hnm Hcase HQ. pose proof (zlength_nonneg l).
  set (x := zlength l :: l). assert (Hx : zlength x = zlength l + 1) by (unfold x; by rewrite zlength_cons).
  assert (Hxb : Forall byte x) by (constructor; [by apply label_len_byte|by destruct Hlab]).
  intros bs dn' offs' Hbs Hlen Hpush Hwr. rewrite emit_pos, Hx in Hpush, Hwr.
  rewrite emit_app in * by lia.
  assert (Hend : _position b + (zlength l + 1) + zlength bs = _position b + zlength (x ++ bs))
    by (rewrite zlength_app; lia).
  rewrite Hend in *.
  assert (Hwl : written hole (_data (emit (x ++ bs) b)) (_position b)
              (_position b + zlength (x ++ bs)) (l :: ls)).
  { apply written_label; [done|done|done| |done|].
    - change (zlength l :: l ++ bs) with (x ++ bs). rewrite zlength_app. lia.
    - change (zlength l :: l ++ bs) with (x ++ bs).
  replace (_position b + 1 + zlength l) with (_position b + (zlength l + 1)) by lia.
  by rewrite Hend. }
  apply HQ; [by apply Forall_app|rewrite zlength_wire_cons, zlength_app; lia| |done].
  assert (Hp2 : pushes db (fun n o => den hole (_data (emit (x ++ bs) b))
        (_position b + zlength (x ++ bs)) o (nm n) /\ nm n <> []) (_position b) dn1 offs1 dn' offs').
  { eapply pushes_mono; [|  |exact Hpush]; [done|lia]. }
  destruct Hcase as [[-> ->]|(-> & -> & Hmax)]; [done|].
  eapply pushes_trans; [|exact Hp2].
  eapply pushes_cons; [constructor|done|done|done|lia|lia|].
  rewrite Hnm. split; [by apply written_den|done].
Qed.

Lemma wp_encode_from fuel : forall p ls q b dn offs (Q : unit -> query -> Prop),
  enc_ok offs p ls -> buffer_ok b -> clear_from (_position b) -> lim <= _position b ->
  agree lim d (_data b) -> lim <= zlength d -> 0 < _position b ->
  _position b + zlength (wire ls) <= _limit b -> _position b + zlength (wire ls) <= 65536 ->
  (length ls < fuel)%nat ->
  name_post q b dn offs ls Q ->
  wp (encode_from fuel p) Q (upd q b dn offs).
Proof using.
  induction fuel as [|fuel IH]; intros p ls q b dn offs Q He Hb Hcl Hlim Hag Hld Hp0 Hl Hw Hf HQ; [lia|].
  unfold encode_from. wp_step. cbn [st_iter].
  destruct He as [p a Ha Hup|p a up Ha Hup Hnum Ho Hden Hne|p a up l ls rest Ha Hup Hnum Hz Hname Hlab Hnm He].
  - wp_step. eapply wp_domain_at; [done|]. rewrite Hup. do 2 wp_step.
    eapply wp_domain_at; [done|]. rewrite Hup. change (zlength (wire [])) with 1 in *.
    by apply wp_encode_root.
  - wp_step. eapply wp_domain_at; [done|]. rewrite Hup. wp_step.
    eapply wp_get_offset; [done|lia|]. wp_step; bool_simpl; [|lia]. do 2 wp_step.
    eapply wp_domain_at; [done|]. rewrite Hup. wp_step. eapply wp_get_offset; [done|lia|].
    wp_step. apply wp_assert; [by apply Z.leb_le; lia|].
    apply wp_encode_pointer with (ls := nm (number a)); try done.
    destruct (nm (number a)) as [|l ls]; [done|]. rewrite zlength_wire_cons in Hl.
    pose proof (zlength_nonneg l). pose proof (zlength_wire ls). lia.
  - rewrite zlength_wire_cons in *. pose proof (zlength_wire ls). pose proof (zlength_nonneg l).
    pose proof Hb as []. set (x := zlength l :: l).
    assert (Hx : zlength x = zlength l + 1) by (unfold x; by rewrite zlength_cons).
    assert (Hxb : Forall byte x).
    { constructor; [by apply label_len_byte|by destruct Hlab]. }
    assert (Htake : take (Z.to_nat (zlength l + 1)) (dname_name (domain_dname a)) = x).
    { rewrite Hname. change (zlength l :: l ++ rest) with (x ++ rest). rewrite take_app_le.
      - apply take_ge. unfold zlength in *. lia.
      - unfold zlength in *. lia. }
    assert (Hok : buffer_ok (emit x b)) by (apply emit_ok; [done|done|lia]).
    assert (Hrest : forall dn1 offs1, entered dn offs p (number a) (_position b) dn1 offs1 ->
      wp (encode_from fuel up) Q (upd q (emit x b) dn1 offs1)).
    { intros dn1 offs1 Hcase. apply (IH up ls); try done.
      - destruct Hcase as [[-> ->]|(-> & -> & _)]; [done|].
        apply enc_ok_insert; [lia|by rewrite Hnm; simpl; lia|done].
      - intros y Hy%Hcl. rewrite emit_pos. lia.
      - rewrite emit_pos. lia.
      - eapply agree_trans; [|done|by apply emit_agree]. lia.
      - rewrite emit_pos. lia.
      - rewrite emit_pos. unfold emit. buf_simpl. lia.
      - rewrite emit_pos. lia.
      - simpl in Hf. lia.
      - by apply (name_post_label q b dn offs p a l ls Q). }
    wp_step. eapply wp_domain_at; [done|]. rewrite Hup. wp_step.
    eapply wp_get_offset; [done|lia|]. rewrite Hz. cbn [Z.eqb negb]. wp_step.
    apply wp_on_packet. unfold buffer_position. do 3 wp_step.
    rewrite u16_small by (pose proof (zlength_nonneg l); lia).
    assert (Hnext : forall dn1 offs1, entered dn offs p (number a) (_position b) dn1 offs1 ->
      wp (len ← lift (label_length (dname_name (domain_dname a)));
          on_packet (buffer_write (take (Z.to_nat (len + 1)) (dname_name (domain_dname a))));;
          mret (inl up : Z + Z))
         (fun r s' => match r with
                      | inl p' => wp (encode_from fuel p') Q s'
                      | inr p' => False
                      end) (upd q b dn1 offs1)).
    { intros dn1 offs1 Hcase. wp_step. apply (wp_lift _ (zlength l)); [rewrite Hname; by apply label_length_name|].
      wp_step. apply wp_on_packet. rewrite Htake. apply wp_emit; [done|lia|]. wp_step. by apply Hrest. }
    wp_step. apply (wp_put_offset _ _ _ _ _ _ a); [done|lia|..].
    + eapply wp_mono; [apply Hnext; by left|]. intros [p'|p'] s' Hs'; [|done]. by apply wp_unbind.
    + intros Hmax. eapply wp_mono; [apply Hnext; by right|].
      intros [p'|p'] s' Hs'; [|done]. by apply wp_unbind.
Qed.
End names.
End proofs.
