(* ===== verification/QueryRecords.v ===== *)
(** Theorems about the records and record sets of an answer (Query.v): what
    the packet contains after they have been written, and what a record that
    does not fit leaves behind. *)

From S2P Require Import Prelude Buffer Dname DnameProofs DnamePacket Dns Packet PacketProofs Contents Namedb NamedbProofs Edns Tsig Query QueryProofs.

(** * Tables of offsets that are right *)
Section records.
Context `{T : NameTree} `{H : Hmac}.

Abbreviation Qry := (ST query).

(** [nm n] is the name of the domain with number [n]. *)
Definition numbered (db : namedb) (nm : Z -> name) : Prop := forall p a,
  domain_at db p = Ok a ->
  name_ok (nm (number a)) /\ domain_dname a = of_labels (nm (number a)).

(** Every offset in use leads to the name of its number.  Number 0 is the name
    of the question; a packet without one is described with an empty name. *)
Definition sound (nm : Z -> name) (hole : Z -> Prop) (d : list Z) (lim : Z) (offs : list Z) : Prop :=
  forall n, 0 <= n < zlength offs -> zget offs n <> 0 -> 0 < n \/ nm n <> [] ->
    0 < zget offs n <= MAX_COMPRESSION_OFFSET /\ nm n <> [] /\ den hole d lim (zget offs n) (nm n).

(** The domains [encode_dname] can write: the parents are the names without
    their first labels, up to the root or to a number with an offset. *)
Inductive encodable (db : namedb) (nm : Z -> name) (offs : list Z) : Z -> Prop :=
  | encodable_root p a : domain_at db p = Ok a -> parent a = None -> nm (number a) = [] ->
      encodable db nm offs p
  | encodable_known p a up : domain_at db p = Ok a -> parent a = Some up ->
      0 <= number a < zlength offs -> zget offs (number a) <> 0 -> 0 < number a \/ nm (number a) <> [] ->
      encodable db nm offs p
  | encodable_step p a up u l : domain_at db p = Ok a -> parent a = Some up ->
      0 < number a < zlength offs -> domain_at db up = Ok u ->
      nm (number a) = l :: nm (number u) -> encodable db nm offs up -> encodable db nm offs p.

Lemma encodable_pushes db nm P lo dn offs dn' offs' p :
  pushes db P lo dn offs dn' offs' -> encodable db nm offs p -> encodable db nm offs' p.
Proof using.
  intros Hp He. pose proof (pushes_length _ _ _ _ _ _ _ Hp) as Hl.
  induction He as [p a Ha Hup Hnm|p a up Ha Hup Hn Ho Hne|p a up u l Ha Hup Hn Hu Hnm He IH].
  - by eapply encodable_root.
  - eapply encodable_known; [done|done|lia| |done].
    destruct (pushes_lookup _ _ _ _ _ _ _ (number a) Hp) as [->|(Hz & _)]; [lia|done..].
  - eapply encodable_step; try done. lia.
Qed.

Lemma encodable_enc_ok db nm hole d lim offs p a : numbered db nm -> sound nm hole d lim offs ->
  encodable db nm offs p -> domain_at db p = Ok a -> enc_ok db nm hole d lim offs p (nm (number a)).
Proof using.
  intros Hdb Hs He. revert a.
  induction He as [p a Ha Hup Hnm|p a up Ha Hup Hn Ho Hne|p a up u l Ha Hup Hn Hu Hnm He IH];
    intros a' Ha'; rewrite Ha in Ha'; injection Ha' as <-.
  - rewrite Hnm. by eapply enc_root.
  - destruct (Hs _ Hn Ho Hne) as (H1 & H2 & H3). by eapply enc_hit.
  - destruct (Z.eq_dec (zget offs (number a)) 0) as [Hz|Ho].
    + destruct (Hdb _ _ Ha) as [[Hok _] Hd]. rewrite Hnm in *. apply Forall_cons in Hok as [Hl _].
      eapply enc_miss; try done; [|by apply IH]. by rewrite Hd.
    + destruct (Hs (number a)) as (H1 & H2 & H3); [lia|done|left; lia|]. eapply enc_hit; try done. lia.
Qed.

Lemma sound_mono nm hole hole' d d' lim lim' offs : sound nm hole d lim offs ->
  (forall x, hole' x -> x < lim -> hole x) -> agree lim d d' -> lim <= lim' ->
  lim <= zlength d -> lim <= zlength d' -> sound nm hole' d' lim' offs.
Proof using.
  intros Hs Hh Hag Hle Hl Hl' n Hn Ho Hne. destruct (Hs n Hn Ho Hne) as (H1 & H2 & H3).
  split_and!; [lia..|done|by eapply den_mono].
Qed.

Lemma sound_pushes nm hole d lim db P lo dn offs dn' offs' : sound nm hole d lim offs ->
  pushes db P lo dn offs dn' offs' -> (forall n o, P n o -> den hole d lim o (nm n) /\ nm n <> []) ->
  sound nm hole d lim offs'.
Proof using.
  intros Hs Hp HP n Hn Ho Hne. rewrite (pushes_length _ _ _ _ _ _ _ Hp) in Hn.
  destruct (pushes_lookup _ _ _ _ _ _ _ n Hp Hn) as [E|(Hz & Hd & Hr)].
  - rewrite E in *. by apply Hs.
  - apply HP in Hd as [Hd Hne2]. done.
Qed.

(** * Writing a name *)
Lemma wp_encode_dname db nm hole q b dn offs p a (Q : unit -> query -> Prop) :
  numbered db nm -> domain_at db p = Ok a -> encodable db nm offs p ->
  sound nm hole (_data b) (_position b) offs -> buffer_ok b -> clear_from hole (_position b) ->
  0 < _position b -> _position b + zlength (wire (nm (number a))) <= Z.min (_limit b) 65536 ->
  (forall bs dn' offs', Forall byte bs -> 0 < zlength bs <= zlength (wire (nm (number a))) ->
     pushes db (fun _ _ => True) (_position b) dn offs dn' offs' ->
     sound nm hole (_data (emit bs b)) (_position b + zlength bs) offs' ->
     written hole (_data (emit bs b)) (_position b) (_position b + zlength bs) (nm (number a)) ->
     Q tt (upd q (emit bs b) dn' offs')) ->
  wp (encode_dname db p) Q (upd q b dn offs).
Proof using.
  intros Hdb Ha He Hs Hb Hcl Hp0 Hl HQ. pose proof Hb as [].
  pose proof (encodable_enc_ok _ _ _ _ _ _ _ _ Hdb Hs He Ha) as Hen.
  destruct (Hdb _ _ Ha) as [Hok _].
  apply (wp_encode_from db nm hole (_data b) (_position b) parent_fuel p (nm (number a))); try done.
  1-3: lia.
  { by apply name_ok_fuel. }
  intros bs dn' offs' Hbs Hlen Hp Hw.
  assert (Hok' : buffer_ok (emit bs b)) by (apply emit_ok; [done|done|lia]). pose proof Hok' as [].
  assert (Hpos : _position (emit bs b) = _position b + zlength bs) by done.
  apply HQ; [done|lia|by eapply pushes_mono|  |done].
  eapply sound_pushes; [|exact Hp|done].
  eapply sound_mono; [done|done|by apply emit_agree|lia..].
Qed.

(** * Writing a record *)

Definition is_compressed (wf : rdata_wireformat) : bool :=
  match wf with RDATA_WF_COMPRESSED_DNAME => true | _ => false end.
Definition is_uncompressed (wf : rdata_wireformat) : bool :=
  match wf with RDATA_WF_UNCOMPRESSED_DNAME => true | _ => false end.

(** The fields from number [j] on have the kinds the descriptor of [type]
    gives them; [sz] is their length without compression. *)
Inductive rdata_ok (db : namedb) (nm : Z -> name) (offs : list Z) (type : Z) :
    Z -> list rdata_atom -> Z -> Prop :=
  | rdata_ok_nil j : rdata_ok db nm offs type j [] 0
  | rdata_ok_compressed j p a atoms sz :
      rdata_atom_wireformat_type type j = Ok RDATA_WF_COMPRESSED_DNAME ->
      domain_at db p = Ok a -> encodable db nm offs p -> rdata_ok db nm offs type (j + 1) atoms sz ->
      rdata_ok db nm offs type j (Atom_domain p :: atoms) (zlength (wire (nm (number a))) + sz)
  | rdata_ok_uncompressed j p a atoms sz :
      rdata_atom_wireformat_type type j = Ok RDATA_WF_UNCOMPRESSED_DNAME ->
      domain_at db p = Ok a -> rdata_ok db nm offs type (j + 1) atoms sz ->
      rdata_ok db nm offs type j (Atom_domain p :: atoms) (zlength (wire (nm (number a))) + sz)
  | rdata_ok_data j wf bytes atoms sz :
      rdata_atom_wireformat_type type j = Ok wf -> is_compressed wf = false ->
      is_uncompressed wf = false -> Forall byte bytes -> rdata_ok db nm offs type (j + 1) atoms sz ->
      rdata_ok db nm offs type j (Atom_data bytes :: atoms) (zlength bytes + sz).

(** The bytes from [p] to [e] are these fields. *)
Inductive rdata_at (db : namedb) (nm : Z -> name) (hole : Z -> Prop) (d : list Z) (type : Z) :
    Z -> Z -> list rdata_atom -> Z -> Prop :=
  | rdata_at_nil j p : rdata_at db nm hole d type j p [] p
  | rdata_at_compressed j p a x atoms e e' :
      rdata_atom_wireformat_type type j = Ok RDATA_WF_COMPRESSED_DNAME ->
      domain_at db x = Ok a -> written hole d p e' (nm (number a)) ->
      rdata_at db nm hole d type (j + 1) e' atoms e ->
      rdata_at db nm hole d type j p (Atom_domain x :: atoms) e
  | rdata_at_uncompressed j p a x atoms e :
      rdata_atom_wireformat_type type j = Ok RDATA_WF_UNCOMPRESSED_DNAME ->
      domain_at db x = Ok a -> holds d p (wire (nm (number a))) ->
      rdata_at db nm hole d type (j + 1) (p + zlength (wire (nm (number a)))) atoms e ->
      rdata_at db nm hole d type j p (Atom_domain x :: atoms) e
  | rdata_at_data j p wf bytes atoms e :
      rdata_atom_wireformat_type type j = Ok wf -> is_compressed wf = false ->
      is_uncompressed wf = false -> holds d p bytes ->
      rdata_at db nm hole d type (j + 1) (p + zlength bytes) atoms e ->
      rdata_at db nm hole d type j p (Atom_data bytes :: atoms) e.

Lemma rdata_ok_pushes db nm P lo dn offs dn' offs' type j atoms sz :
  pushes db P lo dn offs dn' offs' -> rdata_ok db nm offs type j atoms sz ->
  rdata_ok db nm offs' type j atoms sz.
Proof using.
  intros Hp. induction 1; [constructor|apply rdata_ok_compressed; [done|done| |done]|
    by apply rdata_ok_uncompressed|by eapply rdata_ok_data].
  by eapply encodable_pushes.
Qed.

Lemma rdata_ok_nonneg db nm offs type j atoms sz : rdata_ok db nm offs type j atoms sz -> 0 <= sz.
Proof using.
  induction 1; [lia|pose proof (zlength_nonneg (wire (nm (number a)))); lia..|
                pose proof (zlength_nonneg bytes); lia].
Qed.

(** The state while a record is written: [acc] has been appended to [b]. *)
Record progress (db : namedb) (nm : Z -> name) (hole : Z -> Prop) (b : buffer) (dn offs acc dn' offs' : list Z) :
    Prop := mkprogress {
  progress_bytes : Forall byte acc;
  progress_pushes : pushes db (fun _ _ => True) (_position b) dn offs dn' offs';
  progress_sound : sound nm hole (_data (emit acc b)) (_position b + zlength acc) offs';
}.

Section appending.
Context (db : namedb) (nm : Z -> name) (hole : Z -> Prop) (Hdb : numbered db nm).
Context (b : buffer) (Hb : buffer_ok b) (Hp0 : 0 < _position b).

Abbreviation here acc := (_position b + zlength acc).

(** What has been written stays when more is written. *)
Lemma agree_more acc x n : Forall byte acc -> 0 <= n -> here acc + n <= _limit b ->
  agree (here acc) (_data (emit acc b)) (_data (emit (acc ++ x) b)).
Proof using Hb.
  intros Hacc Hn Hl. rewrite <-(emit_here b Hb). apply (emit_agree x (emit acc b)).
  by apply (emit_ok_here b Hb acc Hacc n).
Qed.

Lemma emit_data_length acc : Forall byte acc -> here acc <= _limit b ->
  here acc <= zlength (_data (emit acc b)).
Proof using Hb.
  intros Hacc Hl. pose proof (emit_ok acc b Hb Hacc Hl) as [].
  assert (_position (emit acc b) = here acc) by done. lia.
Qed.

Lemma progress_more dn offs acc dn' offs' x : progress db nm hole b dn offs acc dn' offs' ->
  Forall byte x -> here acc + zlength x <= _limit b ->
  progress db nm hole b dn offs (acc ++ x) dn' offs'.
Proof using Hb.
  intros [Hacc Hp Hs] Hx Hl. pose proof (zlength_nonneg x).
  assert (Hax : Forall byte (acc ++ x)) by (by apply Forall_app).
  split; [done|done|]. eapply sound_mono; [done|done|by eapply agree_more| | |].
  - rewrite zlength_app. lia.
  - apply emit_data_length; [done|lia].
  - etransitivity; [|apply emit_data_length; [done|rewrite zlength_app; lia]]. rewrite zlength_app. lia.
Qed.

Lemma wp_name q dn offs acc dn' offs' p a (Q : unit -> query -> Prop) :
  progress db nm hole b dn offs acc dn' offs' -> clear_from hole (here acc) ->
  domain_at db p = Ok a -> encodable db nm offs' p ->
  here acc + zlength (wire (nm (number a))) <= Z.min (_limit b) 65536 ->
  (forall bs dn1 offs1, 0 < zlength bs <= zlength (wire (nm (number a))) -> Forall byte bs ->
     progress db nm hole b dn offs (acc ++ bs) dn1 offs1 ->
     pushes db (fun _ _ => True) (_position b) dn' offs' dn1 offs1 ->
     written hole (_data (emit (acc ++ bs) b)) (here acc) (here (acc ++ bs)) (nm (number a)) ->
     Q tt (upd q (emit (acc ++ bs) b) dn1 offs1)) ->
  wp (encode_dname db p) Q (upd q (emit acc b) dn' offs').
Proof using Hb Hdb Hp0.
  intros Hpr Hcl Ha He Hl HQ. pose proof Hpr as [Hacc Hp Hs]. pose proof (zlength_nonneg acc).
  pose proof (zlength_nonneg (wire (nm (number a)))).
  apply (wp_encode_dname db nm hole _ _ _ _ _ a); try done.
  - apply (emit_ok_here b Hb acc Hacc 0); lia.
  - rewrite emit_pos. lia.
  - intros bs dn1 offs1 Hbs Hlen Hp1 Hs1 Hw. rewrite emit_pos in *. rewrite (emit_here b Hb) in *.
    rewrite <-Z.add_assoc, <-zlength_app in *.
    assert (Hp1' : pushes db (fun _ _ => True) (_position b) dn' offs' dn1 offs1).
    { eapply pushes_mono; [|  |exact Hp1]; [done|lia]. }
    apply HQ; try done. split; [by apply Forall_app|by eapply pushes_trans|done].
Qed.

Lemma written_more acc x p e ls : written hole (_data (emit acc b)) p e ls -> Forall byte acc ->
  e <= here acc -> Forall byte x -> here acc + zlength x <= _limit b ->
  written hole (_data (emit (acc ++ x) b)) p e ls.
Proof using Hb.
  intros Hw Hacc He Hx Hl. pose proof (zlength_nonneg x).
  eapply written_mono; [done|done| |..].
  - intros i Hi. eapply agree_more; [done|apply (zlength_nonneg x)|done|lia].
  - etransitivity; [done|]. apply emit_data_length; [done|lia].
  - etransitivity; [done|]. etransitivity; [|apply emit_data_length; [by apply Forall_app|]];
      rewrite zlength_app; lia.
Qed.

Lemma holds_more acc x p bs : holds (_data (emit acc b)) p bs -> Forall byte acc ->
  p + zlength bs <= here acc -> here acc + zlength x <= _limit b ->
  holds (_data (emit (acc ++ x) b)) p bs.
Proof using Hb.
  intros Hh Hacc He Hl. rewrite <-(emit_here b Hb). pose proof (zlength_nonneg x).
  apply holds_before; [by apply (emit_ok_here b Hb acc Hacc (zlength x))|done|done|done].
Qed.

(** One field that is copied. *)
Lemma wp_bytes q dn offs acc dn' offs' bytes (Q : unit -> query -> Prop) :
  progress db nm hole b dn offs acc dn' offs' -> Forall byte bytes ->
  here acc + zlength bytes <= _limit b ->
  (progress db nm hole b dn offs (acc ++ bytes) dn' offs' ->
   holds (_data (emit (acc ++ bytes) b)) (here acc) bytes ->
   Q tt (upd q (emit (acc ++ bytes) b) dn' offs')) ->
  wp (on_packet (buffer_write bytes)) Q (upd q (emit acc b) dn' offs').
Proof using Hb.
  intros Hpr Hx Hl HQ. pose proof Hpr as [Hacc _ _]. apply wp_on_packet.
  apply wp_more; [done|done|done|]. apply HQ; [by apply progress_more|].
  rewrite <-(emit_here b Hb). apply emit_holds; [|done].
  apply (emit_ok_here b Hb acc Hacc (zlength bytes)); [auto|done].
Qed.

(** All the fields. *)
Lemma wp_rdata type atoms : forall j sz q dn offs acc dn' offs' (Q : unit -> query -> Prop),
  rdata_ok db nm offs' type j atoms sz -> progress db nm hole b dn offs acc dn' offs' ->
  clear_from hole (here acc) -> here acc + sz <= Z.min (_limit b) 65536 ->
  (forall bs dn1 offs1, zlength bs <= sz -> Forall byte bs ->
     progress db nm hole b dn offs (acc ++ bs) dn1 offs1 ->
     rdata_at db nm hole (_data (emit (acc ++ bs) b)) type j (here acc) atoms (here (acc ++ bs)) ->
     Q tt (upd q (emit (acc ++ bs) b) dn1 offs1)) ->
  wp (encode_rdata db type j atoms) Q (upd q (emit acc b) dn' offs').
Proof using Hb Hdb Hp0.
  induction atoms as [|x atoms IH]; intros j sz q dn offs acc dn' offs' Q Hr Hpr Hcl Hl HQ; cbn [encode_rdata].
  { wp_step. rewrite <-(app_nil_r acc). inversion Hr; subst.
    apply HQ; rewrite ?app_nil_r; [done|done|done|constructor]. }
  assert (Hnext : forall bs sz1 dn1 offs1, Forall byte bs -> zlength bs <= sz1 ->
    rdata_ok db nm offs1 type (j + 1) atoms (sz - sz1) ->
    progress db nm hole b dn offs (acc ++ bs) dn1 offs1 ->
    (forall bs2, Forall byte bs2 -> here (acc ++ bs) + zlength bs2 <= _limit b ->
       rdata_at db nm hole (_data (emit ((acc ++ bs) ++ bs2) b)) type (j + 1) (here (acc ++ bs)) atoms
         (here ((acc ++ bs) ++ bs2)) ->
       rdata_at db nm hole (_data (emit ((acc ++ bs) ++ bs2) b)) type j (here acc) (x :: atoms)
         (here ((acc ++ bs) ++ bs2))) ->
    wp (encode_rdata db type (j + 1) atoms) Q (upd q (emit (acc ++ bs) b) dn1 offs1)).
  { intros bs sz1 dn1 offs1 Hbs Hlen Hr1 Hpr1 Hat. pose proof (rdata_ok_nonneg _ _ _ _ _ _ _ Hr1).
    apply (IH _ (sz - sz1) _ dn offs); try done.
    - intros y Hy%Hcl. rewrite zlength_app. pose proof (zlength_nonneg bs). lia.
    - rewrite zlength_app. lia.
    - intros bs2 dn2 offs2 Hlen2 Hbs2 Hpr2 Hat2. 
      specialize (Hat bs2 Hbs2 ltac:(rewrite zlength_app; lia) Hat2).
      rewrite <-app_assoc in *. apply HQ; [rewrite zlength_app; lia|by apply Forall_app|done|done]. }
  inversion Hr as [|? p a ? sz' Hwf Ha He Hr'|? p a ? sz' Hwf Ha Hr'|? wf bytes ? sz' Hwf Hc Hu Hbytes Hr'];
    subst; clear Hr; pose proof (rdata_ok_nonneg _ _ _ _ _ _ _ Hr');
    wp_step; (eapply wp_lift; [exact Hwf|]); wp_step.
  - wp_step. eapply wp_lift; [done|].
    eapply (wp_name _ dn offs); [done|done|done|done|lia|].
    intros bs dn1 offs1 Hlen Hbs Hpr1 Hp1 Hw. eapply (Hnext bs); [done|apply Hlen| |done|].
    + replace (_ + _ - _) with sz' by lia. by eapply rdata_ok_pushes.
    + intros bs2 Hbs2 Hl2 Hat. eapply rdata_at_compressed; [done|done| |done].
      apply written_more; [done|apply Hpr1|lia|done|lia].
  - wp_step. eapply wp_lift; [done|]. wp_step. eapply wp_lift; [done|]. destruct (Hdb _ _ Ha) as [Hok Hd].
    assert (Hwr : write_dname (domain_dname a) = buffer_write (wire (nm (number a)))).
    { unfold write_dname. rewrite Hd. unfold of_labels. cbn. f_equal. apply take_ge. unfold zlength. lia. }
    rewrite Hwr. eapply wp_bytes; [done|by apply wire_bytes, Hok|lia|]. intros Hpr1 Hh.
    eapply Hnext; [by apply wire_bytes, Hok|reflexivity| |done|].
    + by replace (_ + _ - _) with sz' by lia.
    + intros bs2 Hbs2 Hl2 Hat. eapply rdata_at_uncompressed; [done|done| |].
      * apply holds_more; [done|apply Hpr1|rewrite zlength_app; lia|lia].
      * by rewrite zlength_app, Z.add_assoc in Hat.
  - assert (Hwp : wp (on_packet (buffer_write bytes)) (fun _ s => wp (encode_rdata db type (j + 1) atoms) Q s)
              (upd q (emit acc b) dn' offs')).
    { eapply wp_bytes; [done|done|lia|]. intros Hpr1 Hh.
      eapply Hnext; [done|reflexivity| |done|].
      + by replace (_ + _ - _) with sz' by lia.
      + intros bs2 Hbs2 Hl2 Hat. eapply rdata_at_data; [done|done|done| |].
        * apply holds_more; [done|apply Hpr1|rewrite zlength_app; lia|lia].
        * by rewrite zlength_app, Z.add_assoc in Hat. }
    destruct wf; try discriminate; wp_step; (eapply wp_lift; [done|]); exact Hwp.
Qed.
End appending.

(** No byte of a name is in the header, which is written last. *)
Definition header (x : Z) : Prop := x < QHEADERSZ.

(** The record at [p], up to [e]. *)
Definition rr_at (db : namedb) (nm : Z -> name) (d : list Z) (p e owner : Z) (r : rr) (ttl_ : Z) : Prop :=
  exists k a, domain_at db owner = Ok a /\ written header d p k (nm (number a)) /\
    holds d k (write_uint16 (rr_type r) ++ write_uint16 (klass r) ++ write_uint32 ttl_ ++
               write_uint16 (e - k - 10)) /\
    rdata_at db nm header d (rr_type r) 0 (k + 10) (rdatas r) e.

Lemma name_in_end A d p ls e : name_in A d p ls e -> p < e.
Proof using. induction 1; lia. Qed.

Lemma rdata_at_end db nm hole d type j p atoms e : rdata_at db nm hole d type j p atoms e -> p <= e.
Proof using.
  induction 1 as [|j p a x atoms e e' _ _ (ls & Hn & _) _ IH|j p a x atoms e _ _ _ _ IH|
                  j p wf bytes atoms e _ _ _ _ _ IH]; [lia| | |].
  - apply name_in_end in Hn. lia.
  - pose proof (zlength_nonneg (wire (nm (number a)))). lia.
  - pose proof (zlength_nonneg bytes). lia.
Qed.

Lemma holds_agree d d' p bs : holds d p bs -> p + zlength bs <= zlength d' ->
  (forall i, p <= i < p + zlength bs -> zget d i = zget d' i) -> holds d' p bs.
Proof using.
  intros Hh Hl Hag. pose proof Hh as [Hp _]. pose proof (holds_slice _ _ _ Hh) as Hs.
  pose proof (zlength_nonneg bs). destruct (decide (bs = [])) as [->|Hne]; [by split; [|exists (drop (Z.to_nat p) d')]|].
  pose proof (holds_length _ _ _ Hh Hne). rewrite (zslice_ext d d') in Hs by (try lia; done).
  split; [done|]. unfold zslice in Hs. rewrite <-Hs. apply prefix_take.
Qed.

(** What is known stays known when bytes of the hole change. *)
Section filling.
Context (hole : Z -> Prop) (d d' : list Z) (lim : Z).
Context (Hag : forall x, 0 <= x < lim -> ~ hole x -> zget d x = zget d' x).
Context (Hhead : forall x, header x -> hole x) (Hl : lim <= zlength d) (Hl' : lim <= zlength d').

Lemma fill_name m p ls e : m <= lim -> name_in (upto hole m) d p ls e ->
  name_in (upto header m) d' p ls e.
Proof using Hag Hhead Hl Hl'.
  intros Hm. apply name_in_mono. intros x [Hx Hn].
  split_and!; try lia; [split; [lia|by intros ?%Hhead]|by apply Hag; [lia|]].
Qed.

Lemma fill_sound nm m offs : m <= lim -> sound nm hole d m offs -> sound nm header d' m offs.
Proof using Hag Hhead Hl Hl'.
  intros Hm Hs n Hn Ho Hne. destruct (Hs n Hn Ho Hne) as (H1 & H2 & ls' & e & Hin & E).
  split_and!; [lia..|done|]. exists ls', e. split; [by apply fill_name|done].
Qed.

Lemma fill_written p e ls : e <= lim -> written hole d p e ls -> written header d' p e ls.
Proof using Hag Hhead Hl Hl'. intros He (ls' & Hn & E). exists ls'. split; [by apply fill_name|done]. Qed.

Lemma fill_holds p bs : holds d p bs -> p + zlength bs <= lim ->
  (forall x, p <= x -> ~ hole x) -> holds d' p bs.
Proof using Hag Hl'.
  intros Hh He Hno. pose proof Hh as [Hp _]. apply (holds_agree d); [done|lia|].
  intros i Hi. apply Hag; [lia|apply Hno; lia].
Qed.

Lemma fill_rdata db nm type j p atoms e : rdata_at db nm hole d type j p atoms e ->
  e <= lim -> (forall x, p <= x -> ~ hole x) ->
  rdata_at db nm header d' type j p atoms e.
Proof using Hag Hhead Hl Hl'.
  induction 1 as [|j p a x atoms e e' Hwf Ha Hw Hr IH|j p a x atoms e Hwf Ha Hh Hr IH|
                  j p wf bytes atoms e Hwf Hc Hu Hh Hr IH]; intros He Hno;
    [constructor|pose proof (rdata_at_end _ _ _ _ _ _ _ _ _ Hr) as Hend..].
  - assert (p < e') by (by destruct Hw as (ls & Hn%name_in_end & E)).
    eapply rdata_at_compressed; [done|done| |apply IH; [done|]].
    + apply fill_written; [lia|done].
    + intros y Hy. apply Hno. lia.
  - pose proof (zlength_nonneg (wire (nm (number a)))). eapply rdata_at_uncompressed; [done|done| |].
    + apply fill_holds; [done|lia|done].
    + apply IH; [done|]. intros y Hy. apply Hno. lia.
  - pose proof (zlength_nonneg bytes). eapply rdata_at_data; [done|done|done| |].
    + apply fill_holds; [done|lia|done].
    + apply IH; [done|]. intros y Hy. apply Hno. lia.
Qed.
End filling.

(** * Records *)

(** The entries of the table are numbers of domains. *)
Definition entries_ok (db : namedb) (dn offs : list Z) : Prop := forall p, p ∈ dn ->
  exists a, domain_at db p = Ok a /\ 0 < number a < zlength offs.

(** How far the answer may reach ([size_t]). *)
Definition room (q : query) : Z := u64 (maxlen q - reserved_space q).

(** The state in which the next record is written. *)
Record ready (db : namedb) (nm : Z -> name) (q : query) (b : buffer) (dn offs : list Z) : Prop := {
  ready_ok : buffer_ok b;
  ready_header : QHEADERSZ <= _position b;
  ready_sound : sound nm header (_data b) (_position b) offs;
  ready_entries : entries_ok db dn offs;
  ready_room : _position b <= room q;
}.

(** A record can be written: its length without compression is [sz]. *)
Definition rr_ok (db : namedb) (nm : Z -> name) (offs : list Z) (owner : Z) (r : rr) (sz : Z) : Prop :=
  exists a n, domain_at db owner = Ok a /\ encodable db nm offs owner /\
    rdata_ok db nm offs (rr_type r) 0 (rdatas r) n /\ sz = zlength (wire (nm (number a))) + 10 + n.

(** The length without compression is that of the record alone. *)
Lemma rdata_ok_size db nm offs type j atoms sz : rdata_ok db nm offs type j atoms sz ->
  forall offs' sz', rdata_ok db nm offs' type j atoms sz' -> sz = sz'.
Proof using.
  induction 1 as [|j p a atoms sz Hwf Ha He Hr IH|j p a atoms sz Hwf Ha Hr IH|j wf bytes atoms sz Hwf H1 H2 Hb Hr IH];
    intros offs' sz'; inversion 1; subst; [done|..]; f_equal; first [by eapply IH|congruence].
Qed.

Lemma rr_ok_size db nm offs offs' owner r sz sz' :
  rr_ok db nm offs owner r sz -> rr_ok db nm offs' owner r sz' -> sz = sz'.
Proof using.
  intros (a & n & Ha & _ & Hr & ->) (a' & n' & Ha' & _ & Hr' & ->). rewrite Ha in Ha'. injection Ha' as <-.
  by rewrite (rdata_ok_size _ _ _ _ _ _ _ Hr _ _ Hr').
Qed.

Lemma rr_ok_pushes db nm P lo dn offs dn' offs' owner r sz :
  pushes db P lo dn offs dn' offs' -> rr_ok db nm offs owner r sz -> rr_ok db nm offs' owner r sz.
Proof using.
  intros Hp (a & n & Ha & He & Hr & ->). exists a, n.
  split_and!; [done|by eapply encodable_pushes|by eapply rdata_ok_pushes|done].
Qed.

Lemma wp_overflow q b dn offs (Q : bool -> query -> Prop) :
  Q (room q <? _position b) (upd q b dn offs) -> wp query_overflow Q (upd q b dn offs).
Proof using. intros HQ. unfold query_overflow. by do 2 wp_step. Qed.

Section one.
Context (db : namedb) (nm : Z -> name) (Hdb : numbered db nm).
Context (q : query) (b : buffer) (Hb : buffer_ok b) (Hp0 : QHEADERSZ <= _position b).
Context (dn offs : list Z) (Hs : sound nm header (_data b) (_position b) offs).

Abbreviation here acc := (_position b + zlength acc).

Lemma progress_start : progress db nm header b dn offs [] dn offs.
Proof using Hs. split; [constructor|constructor|]. by rewrite emit_nil, zlength_nil, Z.add_0_r. Qed.

Lemma pos0 : 0 < _position b.
Proof using Hp0. unfold QHEADERSZ in *. lia. Qed.

Lemma progress_hole hole acc dn' offs' : progress db nm header b dn offs acc dn' offs' ->
  here acc <= _limit b -> (forall x, hole x -> header x \/ here acc <= x) ->
  progress db nm hole b dn offs acc dn' offs'.
Proof using Hb.
  intros [Hacc Hp Hs'] Hl Hh. split; [done..|].
  pose proof (emit_data_length b Hb acc Hacc Hl).
  eapply sound_mono; [exact Hs'| |done|lia..]. intros x [Hx|Hx]%Hh Hlt; [done|lia].
Qed.

(** The end of a record, when its length is known. *)
Lemma rr_filled owner a r ttl_ x hdr old y dn' offs' :
  domain_at db owner = Ok a -> hdr = write_uint16 (rr_type r) ++ write_uint16 (klass r) ++ write_uint32 ttl_ ->
  zlength old = 2 -> here ((x ++ hdr) ++ old ++ y) <= _limit b ->
  zlength y < 65536 -> Forall byte x -> Forall byte y ->
  written header (_data (emit x b)) (_position b) (here x) (nm (number a)) ->
  (let hole := fun i => header i \/ here (x ++ hdr) <= i < here (x ++ hdr) + 2 in
   progress db nm hole b dn offs ((x ++ hdr) ++ old ++ y) dn' offs' /\
   rdata_at db nm hole (_data (emit ((x ++ hdr) ++ old ++ y) b)) (rr_type r) 0 (here ((x ++ hdr) ++ old))
     (rdatas r) (here ((x ++ hdr) ++ old ++ y))) ->
  let bs := (x ++ hdr) ++ write_uint16 (zlength y) ++ y in
  progress db nm header b dn offs bs dn' offs' /\
  rr_at db nm (_data (emit bs b)) (_position b) (here bs) owner r ttl_.
Proof using Hb Hp0.
  intros Ha Hhdr Hold Hl Hy Hx Hyb Hw [Hpr Hrd] bs. pose proof pos0. pose proof (zlength_nonneg y).
  assert (Hw2 : zlength (write_uint16 (zlength y)) = 2) by done.
  assert (Hhb : Forall byte hdr) by (subst hdr; repeat (apply Forall_app; split); auto with wp).
  assert (Hh8 : zlength hdr = 8) by (by subst hdr).
  assert (Hbs : Forall byte bs) by (unfold bs; repeat (apply Forall_app; split); auto with wp).
  assert (Hlen : here bs = here ((x ++ hdr) ++ old ++ y)) by (unfold bs; rewrite !zlength_app; lia).
  pose proof Hpr as [Hob _ _]. pose proof (zlength_nonneg x).
  assert (Hok : buffer_ok (emit bs b)) by (apply emit_ok; [done|done|lia]).
  set (hole := fun i => header i \/ here (x ++ hdr) <= i < here (x ++ hdr) + 2) in *.
  assert (Hzd : zlength (_data (emit ((x ++ hdr) ++ old ++ y) b)) = zlength (_data (emit bs b))).
  { unfold emit. buf_simpl. unfold zlength. by rewrite !length_inserts. }
  assert (Hag : forall i, 0 <= i < here bs -> ~ hole i ->
     zget (_data (emit ((x ++ hdr) ++ old ++ y) b)) i = zget (_data (emit bs b)) i).
  { intros i Hi Hno. unfold hole in Hno. unfold bs.
    rewrite <-(patch_emit (x ++ hdr) old y (zlength y) b Hb Hold) by lia. cbn [_data set_data].
    symmetry. pose proof (zlength_nonneg (x ++ hdr)). destruct Hb. apply zget_inserts_out; lia. }
  pose proof Hok as [].
  assert (Hbl : here bs <= zlength (_data (emit bs b))).
  { change (here bs) with (_position (emit bs b)). lia. }
  assert (Hbl' : here bs <= zlength (_data (emit ((x ++ hdr) ++ old ++ y) b))) by lia.
  split.
  - destruct Hpr as [_ Hp Hso]. split; [done|done|]. eapply fill_sound; [done|by left|done|done|lia|].
    by rewrite Hlen.
  - exists (here x), a. split_and!; [done| | |].
    + unfold bs. rewrite <-!app_assoc. apply written_more; [done|done|done|lia| |].
      * repeat (apply Forall_app; split); auto with wp.
      * unfold bs in Hlen. rewrite !zlength_app in *. lia.
    + pose proof (emit_holds bs b Hb ltac:(lia)) as Hh. revert Hh. generalize (_data (emit bs b)). intros d Hh.
      unfold bs in Hh. rewrite <-!app_assoc in Hh. apply holds_app in Hh as [_ Hh]. rewrite app_assoc in Hh.
      apply holds_app in Hh as [Hh _]. rewrite Hhdr, <-!app_assoc in Hh.
      replace (here bs - here x - 10) with (zlength y); [done|]. unfold bs. rewrite !zlength_app. lia.
    + replace (here x + 10) with (here ((x ++ hdr) ++ old)) by (rewrite !zlength_app; lia).
      rewrite Hlen. eapply fill_rdata; [exact Hag|by left|done|done|done|lia|].
      intros i Hi. unfold hole, header. rewrite zlength_app in Hi. pose proof (zlength_nonneg (x ++ hdr)). lia.
Qed.

(** Writing a record: all of it, or nothing is changed that is in use. *)
Lemma wp_encode_rr owner r sz ttl_ (Q : bool -> query -> Prop) :
  rr_ok db nm offs owner r sz -> entries_ok db dn offs ->
  _position b + sz <= Z.min (_limit b) 65536 -> _position b <= room q ->
  (forall bs dn' offs', zlength bs <= sz -> progress db nm header b dn offs bs dn' offs' ->
     rr_at db nm (_data (emit bs b)) (_position b) (here bs) owner r ttl_ -> here bs <= room q ->
     Q true (upd q (emit bs b) dn' offs')) ->
  (forall bs, zlength bs <= sz -> Forall byte bs -> room q < here bs ->
     Q false (upd q (set_pos (_position b) (emit bs b)) dn offs)) ->
  wp (packet_encode_rr db owner r ttl_) Q (upd q b dn offs).
Proof using Hb Hp0 Hs Hdb.
  intros (a & n & Ha & He & Hr & ->) Hent Hl Hroom HQt HQf. unfold packet_encode_rr.
  pose proof (rdata_ok_nonneg _ _ _ _ _ _ _ Hr). pose proof (zlength_nonneg (wire (nm (number a)))). pose proof pos0 as Hp1.
  wp_step. apply wp_on_packet. unfold buffer_position. do 3 wp_step.
  replace (upd q b dn offs) with (upd q (emit [] b) dn offs) by (by rewrite emit_nil).
  wp_step. eapply (wp_name db nm header Hdb b Hb Hp1 q dn offs [] dn offs owner a);
    [exact progress_start|unfold header; intros ??; rewrite zlength_nil; lia|done|done|rewrite zlength_nil; lia|].
  cbn [app]. intros x dn1 offs1 Hxl Hx Hpr1 Hpush1 Hw. rewrite zlength_nil, Z.add_0_r in Hw.
  set (hdr := write_uint16 (rr_type r) ++ write_uint16 (klass r) ++ write_uint32 ttl_).
  assert (Hhb : Forall byte hdr) by (unfold hdr; repeat (apply Forall_app; split); auto with wp).
  assert (Hh8 : zlength hdr = 8) by done.
  wp_step. apply wp_on_packet, wp_more_u16; [done|apply Hx|lia|].
  wp_step. apply wp_on_packet, wp_more_u16; [done|emit_bytes|rewrite zlength_app, zlength_u16; lia|].
  wp_step. apply wp_on_packet, wp_more_u32; [done|emit_bytes|rewrite !zlength_app, !zlength_u16; lia|].
  rewrite <-!app_assoc. fold hdr. assert (Hxh : Forall byte (x ++ hdr)) by (by apply Forall_app).
  assert (Hxhl : zlength (x ++ hdr) = zlength x + 8) by (rewrite zlength_app; lia).
  wp_step. apply wp_on_packet. do 3 wp_step. rewrite emit_pos.
  wp_step. apply wp_on_packet, wp_more_skip; [done|done|lia|lia|]. intros old Hold Hob.
  set (hole := fun i => header i \/ here (x ++ hdr) <= i < here (x ++ hdr) + 2).
  assert (Hpr2 : progress db nm hole b dn offs ((x ++ hdr) ++ old) dn1 offs1).
  { apply progress_more; [done| |done|lia]. apply progress_hole; [|lia|unfold hole; intros i [?|?]; [by left|right; lia]].
    apply progress_more; [done|done|done|lia]. }
  assert (Hr1 : rdata_ok db nm offs1 (rr_type r) 0 (rdatas r) n) by (by eapply rdata_ok_pushes).
  assert (Hol : zlength ((x ++ hdr) ++ old) = zlength x + 10) by (rewrite zlength_app; lia).
  wp_step. eapply (wp_rdata db nm hole Hdb b Hb Hp1 _ _ _ n _ dn offs); [done|done|unfold hole, header; intros ? ?; lia|lia|].
  intros y dn2 offs2 Hy Hyb Hpr3 Hrd. rewrite <-(app_assoc (x ++ hdr) old y) in *.
  assert (Hal : zlength ((x ++ hdr) ++ old ++ y) = zlength x + 10 + zlength y)
    by (rewrite app_assoc, zlength_app; lia).
  wp_step. apply wp_overflow. rewrite emit_pos.
  wp_step; bool_simpl.
  - wp_step. apply wp_on_packet. do 3 wp_step. rewrite emit_pos.
    replace (here ((x ++ hdr) ++ old ++ y) - here (x ++ hdr) - 2) with (zlength y) by lia.
    pose proof (zlength_nonneg y). rewrite u16_small by lia.
    wp_step. apply wp_on_packet. eapply (wp_patch (x ++ hdr) old y); [done|apply Hpr3|done|lia|done|].
    wp_step.
    destruct (rr_filled owner a r ttl_ x hdr old y dn2 offs2) as [Hp Hrr]; try done; [lia..|].
    assert (Hbl : zlength ((x ++ hdr) ++ write_uint16 (zlength y) ++ y) = zlength ((x ++ hdr) ++ old ++ y)).
    { rewrite !zlength_app, zlength_u16. lia. }
    apply HQt; [lia|done|done|lia].
  - pose proof Hpr3 as [Hall Hp3 _].
    assert (Hok : buffer_ok (emit ((x ++ hdr) ++ old ++ y) b)) by (apply emit_ok; [done|done|lia]).
    wp_step. apply wp_on_packet, wp_buffer_set_position; [unfold emit; buf_simpl; destruct Hb; lia|].
    wp_step. eapply wp_clear_offsets; [exact Hp3| |].
    + intros p Hp. destruct (Hent p Hp) as (ap & Hap & Hn). exists ap. split_and!; [done|lia|lia|].
      destruct (Z.eq_dec (zget offs (number ap)) 0) as [->|Hne]; [done|].
      destruct (Hs (number ap) ltac:(lia) Hne ltac:(left; lia)) as (_ & _ & Hd). apply den_below in Hd. lia.
    + wp_step. apply wp_overflow. cbn [_position set_pos]. wp_step.
      apply wp_assert; [rewrite (proj2 (Z.ltb_ge _ _)) by lia; done|].
      wp_step. apply HQf; [lia|done|lia].
Qed.
End one.

(** C28 (packet_encode_rr): a record is written after the header.  The call
    ends without a failed assertion; either the packet then holds the whole
    record, its names readable by following the pointers, and reaches at most
    the room of the answer, or position and compression table are exactly what
    they were.  It is always written when its uncompressed length fits; what
    was in the packet before stays; every offset in the table leads to the
    name of its domain. *)
Theorem packet_encode_rr_correct db nm q owner r sz ttl_ :
  let b := packet q in
  let dn := compressed_dnames q in
  let offs := compressed_dname_offsets q in
  numbered db nm -> ready db nm q b dn offs -> rr_ok db nm offs owner r sz ->
  _position b + sz <= Z.min (_limit b) 65536 ->
  exists ok b' dn' offs', packet_encode_rr db owner r ttl_ q = Ok (ok, upd q b' dn' offs') /\
    (if (ok : bool)
     then rr_at db nm (_data b') (_position b) (_position b') owner r ttl_ /\
          _position b' <= room q /\
          pushes db (fun _ _ => True) (_position b) dn offs dn' offs' /\
          sound nm header (_data b') (_position b') offs'
     else _position b' = _position b /\ dn' = dn /\ offs' = offs /\
          room q < _position b + sz) /\
    forall i, 0 <= i < _position b -> zget (_data b') i = zget (_data b) i.
Proof using.
  intros b dn offs Hdb [Hb Hh Hs He Hroom] Hok Hl.
  assert (Hwp : wp (packet_encode_rr db owner r ttl_) (fun ok q' => exists b' dn' offs', q' = upd q b' dn' offs' /\
    (if (ok : bool)
     then rr_at db nm (_data b') (_position b) (_position b') owner r ttl_ /\
          _position b' <= room q /\
          pushes db (fun _ _ => True) (_position b) dn offs dn' offs' /\
          sound nm header (_data b') (_position b') offs'
     else _position b' = _position b /\ dn' = dn /\ offs' = offs /\
          room q < _position b + sz) /\
    forall i, 0 <= i < _position b -> zget (_data b') i = zget (_data b) i) (upd q b dn offs)).
  { apply (wp_encode_rr db nm Hdb q b Hb Hh dn offs Hs owner r sz); try done.
    - intros bs dn' offs' Hbs [Hby Hp Hs'] Hrr Hin. eexists _, dn', offs'. split; [done|].
      split; [done|]. intros i Hi. by apply emit_before.
    - intros bs Hbs Hby Hout. eexists _, dn, offs. split; [done|].
      split; [split_and!; [done..|lia]|]. intros i Hi. by apply emit_before. }
  unfold b, dn, offs in Hwp. rewrite upd_same in Hwp.
  apply wp_elim in Hwp as (ok & q' & E & b' & dn' & offs' & -> & Hpost). by exists ok, b', dn', offs'.
Qed.

Abbreviation names db := (contents (nametree db)).

(** In a domain table every name can be written. *)
Lemma table_encodable `{!NameTreeLaws T} db nm offs ls p d : db_ok db ->
  (forall k x e, names db !! k = Some x -> domains db !! x = Some e -> nm (number e) = k) ->
  (forall x e, domains db !! x = Some e -> number e < zlength offs) ->
  names db !! ls = Some p -> domains db !! p = Some d -> encodable db nm offs p.
Proof using.
  intros Hdb Hnm Hsz. revert p d. induction ls as [|l ls IH]; intros p d Hp Hd.
  - pose proof (Hnm _ _ _ Hp Hd). destruct (db_domain _ Hdb _ _ Hp) as (d' & Hd' & Hok). simplify_eq.
    eapply encodable_root; [unfold domain_at; by rewrite Hd|apply (domain_parent _ _ _ _ Hok)|done].
  - pose proof (Hnm _ _ _ Hp Hd) as E. destruct (db_domain _ Hdb _ _ Hp) as (d' & Hd' & Hok). simplify_eq.
    destruct (domain_parent _ _ _ _ Hok) as (up & Hup & Hupn).
    destruct (db_domain _ Hdb _ _ Hupn) as (u & Hu & _).
    assert (Hnum : 0 < number d).
    { assert (Hin : p ∈ numlist db) by (apply (db_numlist _ Hdb); eauto).
      apply list_elem_of_lookup in Hin as [i Hi]. rewrite (db_numbers _ Hdb _ _ _ Hi Hd). lia. }
    eapply encodable_step; [unfold domain_at; by rewrite Hd|exact Hup| |unfold domain_at; by rewrite Hu| |by eapply IH].
    + split; [done|by eapply Hsz].
    + by rewrite E, (Hnm _ _ _ Hupn Hu).
Qed.
End records.
