(* ===== verification/QueryRRset.v ===== *)
(** Theorems about record sets and the collected answer (Query.v): which
    records are in the packet, how many are counted, and when the packet is
    marked truncated. *)

From S2P Require Import Prelude Buffer Dname DnameProofs DnamePacket Dns Packet PacketProofs Contents Namedb NamedbProofs Edns Tsig Query QueryProofs QueryRecords.

Section rrset.
Context `{T : NameTree} `{H : Hmac}.
Context (db : namedb) (nm : Z -> name) (Hdb : numbered db nm) (q : query).

Abbreviation Qry := (ST query).
Abbreviation ready := (ready db nm q).

(** * The state between records *)

(** The later packet has the earlier one's contents, the header apart. *)
Record extends (b b' : buffer) : Prop := {
  extends_limit : _limit b' = _limit b;
  extends_pos : _position b <= _position b';
  extends_data : forall i, QHEADERSZ <= i < _position b -> zget (_data b) i = zget (_data b') i;
}.

Definition same_header (b b' : buffer) : Prop :=
  forall i, 0 <= i < QHEADERSZ -> zget (_data b) i = zget (_data b') i.

Record wrote (b : buffer) (dn offs : list Z) (b' : buffer) (dn' offs' : list Z) : Prop := {
  wrote_ready : ready b' dn' offs';
  wrote_extends : extends b b';
  wrote_pushes : pushes db (fun _ _ => True) (_position b) dn offs dn' offs';
}.

Lemma extends_refl b : extends b b.
Proof using. by split. Qed.

Lemma extends_trans b1 b2 b3 : extends b1 b2 -> extends b2 b3 -> extends b1 b3.
Proof using.
  intros [L1 P1 D1] [L2 P2 D2]. split; [congruence|lia|]. intros i Hi. rewrite D1 by done.
  apply D2. lia.
Qed.

Lemma wrote_refl b dn offs : ready b dn offs -> wrote b dn offs b dn offs.
Proof using. split; [done|apply extends_refl|constructor]. Qed.

Lemma wrote_trans b dn offs b1 dn1 offs1 b2 dn2 offs2 :
  wrote b dn offs b1 dn1 offs1 -> wrote b1 dn1 offs1 b2 dn2 offs2 -> wrote b dn offs b2 dn2 offs2.
Proof using.
  intros [? H1 ?] [? H2 ?]. split; [done|by eapply extends_trans|].
  eapply pushes_trans; [done|]. eapply pushes_mono; [| |done]; [done|]. apply H1.
Qed.

Lemma entries_pushes P lo dn offs dn' offs' : pushes db P lo dn offs dn' offs' ->
  entries_ok db dn offs -> entries_ok db dn' offs'.
Proof using.
  intros Hp He. pose proof (pushes_length _ _ _ _ _ _ _ Hp) as Hl. unfold entries_ok. rewrite Hl. clear Hl.
  induction Hp as [|p a o dn' offs' Hp IH Ha Hn Hz Hlo Ho HP]; [done|].
  intros x [->|Hx]%elem_of_cons; [exists a; split; [done|lia]|auto].
Qed.

(** * Records one after the other *)
Inductive records_at (d : list Z) (owner : Z) : Z -> list (rr * Z) -> Z -> Prop :=
  | records_nil p : records_at d owner p [] p
  | records_cons p e1 e r t l : rr_at db nm d p e1 owner r t -> records_at d owner e1 l e ->
      records_at d owner p ((r, t) :: l) e.

Lemma rr_at_end d p e owner r t : rr_at db nm d p e owner r t -> p + 10 < e.
Proof using.
  intros (k & a & _ & (ls & Hn%name_in_end & _) & _ & Hr%rdata_at_end). lia.
Qed.

Lemma records_end d owner p l e : records_at d owner p l e -> p <= e.
Proof using. induction 1 as [|???????H1%rr_at_end]; lia. Qed.

Lemma records_app d owner p l e l' e' : records_at d owner p l e -> records_at d owner e l' e' ->
  records_at d owner p (l ++ l') e'.
Proof using. induction 1; [done|]. intros. econstructor; eauto. Qed.

Section later.
Context (b b' : buffer) (Hb : buffer_ok b) (Hb' : buffer_ok b') (Hex : extends b b').

Lemma extends_ag x : 0 <= x < _position b -> ~ header x -> zget (_data b) x = zget (_data b') x.
Proof using Hex. intros Hx Hh. apply Hex. unfold header in Hh. lia. Qed.

Lemma extends_len : _position b <= zlength (_data b) /\ _position b <= zlength (_data b').
Proof using Hb Hb' Hex. destruct Hb, Hb', Hex. lia. Qed.

Lemma later_sound offs : sound nm header (_data b) (_position b) offs ->
  sound nm header (_data b') (_position b) offs.
Proof using Hb Hb' Hex.
  destruct extends_len. eapply fill_sound; [apply extends_ag|done..].
Qed.

Lemma later_rr p e owner r t : rr_at db nm (_data b) p e owner r t -> QHEADERSZ <= p ->
  e <= _position b -> rr_at db nm (_data b') p e owner r t.
Proof using Hb Hb' Hex.
  intros (k & a & Ha & Hw & Hh & Hr) Hp He. pose proof (rdata_at_end _ _ _ _ _ _ _ _ _ Hr).
  assert (p < k) by (by destruct Hw as (ls & Hn%name_in_end & _)).
  destruct extends_len. exists k, a. split_and!; [done| | |].
  - eapply fill_written; [apply extends_ag|done..|lia|done].
  - eapply fill_holds; [apply extends_ag|done|done| |].
    + rewrite !zlength_app, !zlength_u16, zlength_u32. lia.
    + unfold header. lia.
  - eapply fill_rdata; [apply extends_ag|done..|unfold header; lia].
Qed.

Lemma later_records owner p l e : records_at (_data b) owner p l e -> QHEADERSZ <= p ->
  e <= _position b -> records_at (_data b') owner p l e.
Proof using Hb Hb' Hex.
  induction 1 as [|p e1 e r t l Hr Hl IH]; intros Hp He; [constructor|].
  pose proof (rr_at_end _ _ _ _ _ _ Hr). pose proof (records_end _ _ _ _ _ Hl).
  econstructor; [apply later_rr; [done|done|lia]|apply IH; lia].
Qed.
End later.

(** The packet after the position went back. *)
Lemma ready_back b dn offs b' : ready b dn offs -> buffer_ok b' -> extends b b' ->
  _position b' = _position b -> ready b' dn offs.
Proof using.
  intros [] Hb' Hex Hpos. split; [done|lia| |done|lia]. rewrite Hpos.
  apply (later_sound b b'); done.
Qed.

Lemma wrote_back b dn offs b' : ready b dn offs -> buffer_ok b' -> extends b b' ->
  _position b' = _position b -> wrote b dn offs b' dn offs.
Proof using. intros. split; [by eapply ready_back|done|constructor]. Qed.

(** The whole record set fits behind the room left for the answer: what does
    not fit is noticed after it has been written. *)
Definition fits (b : buffer) (offs : list Z) (owner : Z) (r : rr) : Prop :=
  exists sz, rr_ok db nm offs owner r sz /\ room q + sz <= Z.min (_limit b) 65536.

Lemma fits_pushes P lo b b' dn offs dn' offs' owner r : pushes db P lo dn offs dn' offs' ->
  _limit b' = _limit b -> fits b offs owner r -> fits b' offs' owner r.
Proof using. intros Hp Hl (sz & Hr & Hs). exists sz. rewrite Hl. split; [by eapply rr_ok_pushes|done]. Qed.

Lemma fits_wrote b dn offs b' dn' offs' owner r : wrote b dn offs b' dn' offs' ->
  fits b offs owner r -> fits b' offs' owner r.
Proof using. intros [_ [] Hp]. by eapply fits_pushes. Qed.

Lemma emit_extends b bs : buffer_ok b -> QHEADERSZ <= _position b -> Forall byte bs ->
  _position b + zlength bs <= _limit b ->
  buffer_ok (emit bs b) /\ extends b (emit bs b) /\ same_header b (emit bs b).
Proof using.
  intros Hb Hh Hbs Hl. pose proof (zlength_nonneg bs). split_and!; [by apply emit_ok|split|].
  - done.
  - rewrite emit_pos. lia.
  - intros i Hi. symmetry. apply emit_before; [done|]. unfold QHEADERSZ in *. lia.
  - intros i Hi. symmetry. apply emit_before; [done|]. lia.
Qed.

(** One record, in these terms. *)
Lemma wp_one b dn offs owner r t (Q : bool -> query -> Prop) :
  ready b dn offs -> fits b offs owner r ->
  (forall b' dn' offs', wrote b dn offs b' dn' offs' -> same_header b b' ->
     rr_at db nm (_data b') (_position b) (_position b') owner r t ->
     Q true (upd q b' dn' offs')) ->
  (forall b', wrote b dn offs b' dn offs -> same_header b b' -> _position b' = _position b ->
     (forall offs sz, rr_ok db nm offs owner r sz -> room q < _position b + sz) ->
     Q false (upd q b' dn offs)) ->
  wp (packet_encode_rr db owner r t) Q (upd q b dn offs).
Proof using Hdb.
  intros Hr (sz & Hok & Hsz) HQt HQf. pose proof Hr as [Hb Hh Hs He Hroom].
  assert (Hl : _position b + sz <= _limit b) by lia.
  apply (wp_encode_rr db nm Hdb q b Hb Hh dn offs Hs owner r sz); try done; [lia|..].
  - intros bs dn' offs' Hbs [Hbytes Hp Hs'] Hrr Hin.
    destruct (emit_extends b bs) as (Hok' & Hex & Hsh); [done|done|done|lia|].
    pose proof (zlength_nonneg bs).
    apply HQt; [|done|done]. split; [|done|done]. split; [done|rewrite emit_pos; lia|done| |done].
    by eapply entries_pushes.
  - intros bs Hbs Hbytes Hout. destruct (emit_extends b bs) as (Hok' & Hex & Hsh); [done|done|done|lia|].
    apply HQf; [|exact Hsh|done|intros offs2 sz2 Hok2; rewrite (rr_ok_size _ _ _ _ _ _ _ _ Hok2 Hok); lia]. apply wrote_back; [done| | |done].
    + apply buffer_ok_set_pos; [done|]. destruct Hex, Hb. lia.
    + destruct Hex. by split.
Qed.

(** * Several records *)

Fixpoint res_filter (test : rr -> res bool) (rs : list rr) : res (list rr) :=
  match rs with
  | [] => Ok []
  | r :: rs => t ← test r; l ← res_filter test rs; mret (if (t : bool) then r :: l else l)
  end.

Lemma res_filter_all rs : res_filter all_rrs rs = Ok rs.
Proof using. induction rs as [|r rs IH]; [done|]. cbn. by rewrite IH. Qed.

Lemma same_header_trans b1 b2 b3 : same_header b1 b2 -> same_header b2 b3 -> same_header b1 b3.
Proof using. intros H1 H2 i Hi. rewrite H1 by done. by apply H2. Qed.

Abbreviation with_ttl ttl_of := (fmap (fun r : rr => (r, ttl_of r))).

Lemma wp_rrs owner test ttl_of rs : forall b dn offs added l (Q : Z * bool -> query -> Prop),
  ready b dn offs -> Forall (fits b offs owner) rs -> res_filter test rs = Ok l ->
  0 <= added -> added + zlength l < 65536 ->
  (forall n b' dn' offs', wrote b dn offs b' dn' offs' -> same_header b b' ->
     records_at (_data b') owner (_position b) (take n (with_ttl ttl_of l)) (_position b') ->
     (n <= length l)%nat ->
     Q (added + Z.of_nat n, bool_decide (n = length l)) (upd q b' dn' offs')) ->
  wp (encode_rrs db owner test ttl_of rs added) Q (upd q b dn offs).
Proof using Hdb.
  induction rs as [|r rs IH]; intros b dn offs added l Q Hr Hf Hl Ha Hadd HQ; cbn [encode_rrs].
  { injection Hl as <-. wp_step. specialize (HQ 0%nat b dn offs). rewrite Z.add_0_r in HQ.
    rewrite bool_decide_true in HQ by done. apply HQ; [by apply wrote_refl|done|constructor|done]. }
  apply Forall_cons in Hf as [Hf1 Hf]. cbn [res_filter] in Hl.
  destruct (test r) as [t| |] eqn:Ht; [|done..]. cbn [mbind res_bind] in Hl.
  destruct (res_filter test rs) as [l'| |] eqn:Hl'; [|done..]. cbn [mbind res_bind mret] in Hl.
  injection Hl as <-. wp_step. eapply wp_lift; [done|]. destruct t.
  - rewrite zlength_cons in Hadd. pose proof (zlength_nonneg l').
    wp_step. eapply wp_one; [done|done|..].
    + intros b1 dn1 offs1 Hw1 Hsh1 Hrr. rewrite u16_small by lia.
      eapply (IH b1 dn1 offs1 _ l'); [apply Hw1| |done|lia|lia|].
      { eapply Forall_impl; [done|]. intros. by eapply fits_wrote. }
      intros n b' dn' offs' Hw Hsh Hrec Hn. specialize (HQ (S n) b' dn' offs').
      replace (added + Z.of_nat (S n)) with (added + 1 + Z.of_nat n) in HQ by lia.
      rewrite (bool_decide_ext (S n = length (r :: l')) (n = length l')) in HQ by (simpl; lia).
      apply HQ; [by eapply wrote_trans|by eapply same_header_trans| |simpl; lia].
      cbn [fmap list_fmap take]. econstructor; [|exact Hrec].
      destruct Hr, Hw1 as [[] ? ?], Hw as [[] ? ?].
      apply (later_rr b1 b'); [done|done|done|done|done|done].
    + intros b1 Hw1 Hsh1 Hpos _. wp_step. specialize (HQ 0%nat b1 dn offs). rewrite Z.add_0_r in HQ.
      rewrite bool_decide_false in HQ by done. apply HQ; [done|done| |simpl; lia].
      rewrite Hpos. constructor.
  - by eapply (IH b dn offs added l').
Qed.

(** * A record set *)

(** The signatures that cover the record set, with the TTL they are sent
    with: none without the DO bit or in a zone that is not signed. *)
Definition signatures (owner : Z) (rs : rrset) : res (list (rr * Z)) :=
  if dnssec_ok (edns q) =? 0 then mret [] else
  secure ← zone_is_secure db (rrset_zone rs);
  if negb secure then mret [] else
  type ← rrset_rrtype rs;
  if type =? TYPE_RRSIG then mret [] else
  d ← domain_at db owner;
  sig ← domain_find_rrset db d (rrset_zone rs) TYPE_RRSIG;
  match sig with
  | None => mret []
  | Some sig =>
      sig ← rrset_at db sig;
      first ← first_rr rs;
      l ← res_filter (fun r => t ← rr_rrsig_type_covered r; mret (t =? type)) (rrs sig);
      mret (with_ttl (fun r => if type =? TYPE_SOA then ttl first else ttl r) l)
  end.

(** The RRSIG records of the owner, when they are looked at. *)
Definition rrsig_rrs (owner : Z) (rs : rrset) : res (list rr) :=
  d ← domain_at db owner;
  sig ← domain_find_rrset db d (rrset_zone rs) TYPE_RRSIG;
  match sig with None => mret [] | Some sig => s ← rrset_at db sig; mret (rrs s) end.

Lemma wp_rrsigs owner rs b dn offs added sigs (Q : Z * bool -> query -> Prop) :
  ready b dn offs -> signatures owner rs = Ok sigs ->
  (forall l, rrsig_rrs owner rs = Ok l -> Forall (fits b offs owner) l) ->
  0 <= added -> added + zlength sigs < 65536 ->
  (forall n b' dn' offs', wrote b dn offs b' dn' offs' -> same_header b b' ->
     records_at (_data b') owner (_position b) (take n sigs) (_position b') ->
     (n <= length sigs)%nat ->
     Q (added + Z.of_nat n, bool_decide (n = length sigs)) (upd q b' dn' offs')) ->
  wp (encode_rrsigs db owner rs added) Q (upd q b dn offs).
Proof using Hdb.
  intros Hr Hs Hf Ha Hadd HQ. unfold encode_rrsigs. do 2 wp_step. cbn [edns upd].
  change (edns (upd q b dn offs)) with (edns q).
  assert (Hnone : sigs = [] -> wp (mret (added, true)) Q (upd q b dn offs)).
  { intros ->. wp_step. specialize (HQ 0%nat b dn offs). rewrite Z.add_0_r, bool_decide_true in HQ by done.
    apply HQ; [by apply wrote_refl|done|constructor|done]. }
  unfold signatures in Hs. destruct (_ =? 0); [apply Hnone; by injection Hs as <-|].
  destruct (zone_is_secure db (rrset_zone rs)) as [secure| |] eqn:Hsec; [|done..].
  wp_step. eapply wp_lift; [done|]. cbn [mbind res_bind] in Hs.
  destruct secure; cbn [negb] in *; [|apply Hnone; by injection Hs as <-].
  destruct (rrset_rrtype rs) as [type| |] eqn:Hty; [|done..].
  wp_step. eapply wp_lift; [done|]. cbn [mbind res_bind] in Hs.
  destruct (type =? TYPE_RRSIG); [apply Hnone; by injection Hs as <-|]. unfold rrsig_rrs in Hf.
  destruct (domain_at db owner) as [d| |] eqn:Hd; [|done..].
  wp_step. eapply wp_lift; [done|]. cbn [mbind res_bind] in Hs, Hf.
  destruct (domain_find_rrset db d (rrset_zone rs) TYPE_RRSIG) as [sig| |] eqn:Hsig; [|done..].
  wp_step. eapply wp_lift; [done|]. cbn [mbind res_bind] in Hs, Hf.
  destruct sig as [sig|]; [|apply Hnone; by injection Hs as <-].
  destruct (rrset_at db sig) as [srs| |] eqn:Hsrs; [|done..].
  wp_step. eapply wp_lift; [done|]. cbn [mbind res_bind] in Hs, Hf.
  destruct (first_rr rs) as [first| |] eqn:Hfirst; [|done..].
  wp_step. eapply wp_lift; [done|]. cbn [mbind res_bind] in Hs.
  destruct (res_filter _ (rrs srs)) as [l| |] eqn:Hl; [|done..]. injection Hs as <-.
  rewrite zlength_fmap in Hadd. rewrite length_fmap in HQ.
  eapply wp_rrs; [done|by apply Hf|exact Hl|done|done|exact HQ].
Qed.

(** The order the records of the set are written in. *)
Definition rotated (start : nat) (rs : rrset) : list (rr * Z) :=
  with_ttl ttl (drop start (rrs rs) ++ take start (rrs rs)).

Definition robin_start (round_robin : bool) (rs : rrset) (section : Z) (e : encoding) : nat :=
  if round_robin && (section =? ANSWER_SECTION) && negb (qtype q =? TYPE_AXFR) && negb (qtype q =? TYPE_IXFR)
  then Z.to_nat (u16 (round_robin_off e mod rr_count rs)) else 0%nat.

(** What is left of [all] after the section's rule about record sets that do
    not fit: [k] records, whether the caller is to stop, whether the packet
    has been marked truncated. *)
Record kept_records (section minimal_respsize : Z) (all : list (rr * Z)) (b' : buffer) (k : nat)
    (done : bool) (tc : bool) : Prop := {
  kept_le : (k <= length all)%nat;
  kept_truncated : tc = true -> k = 0%nat /\ (section = ANSWER_SECTION \/ section = AUTHORITY_SECTION);
  kept_required : section = ANSWER_SECTION \/ section = AUTHORITY_SECTION ->
    if tc then k = 0%nat else k = length all;
  kept_done : done = true -> k = 0%nat /\ tcp q = false /\ OPTIONAL_AUTHORITY_SECTION <= section;
  kept_optional : OPTIONAL_AUTHORITY_SECTION <= section -> tcp q = false -> done = false ->
    k = length all /\ _position b' <= minimal_respsize;
}.

(** ** The truncation bit *)
Definition tc_bit (b : buffer) : Z := Z.land (zget (_data b) 2) TC_MASK.

Lemma same_header_tc b b' : same_header b b' -> tc_bit b' = tc_bit b.
Proof using. intros Hs. unfold tc_bit. by rewrite Hs. Qed.

Lemma touch_header b i v : buffer_ok b -> QHEADERSZ <= _position b -> 0 <= i < QHEADERSZ -> byte v ->
  let b' := set_data (<[Z.to_nat i := v]> (_data b)) b in
  buffer_ok b' /\ extends b b' /\ _position b' = _position b.
Proof using.
  intros Hb Hp Hi Hv b'. split_and!; [|split; [done|done|]|done].
  - apply buffer_ok_set_data; [done|unfold zlength; rewrite length_insert; by destruct Hb|].
    apply Forall_insert; [apply Hb|done].
  - intros j Hj. subst b'. cbn. symmetry. apply zget_insert_ne; lia.
Qed.

Lemma wp_byte_update b i f (Q : unit -> buffer -> Prop) : buffer_ok b -> 0 <= i < _limit b ->
  Q tt (set_data (<[Z.to_nat i := u8 (f (zget (_data b) i))]> (_data b)) b) ->
  wp (byte_update i f) Q b.
Proof using.
  intros Hb Hi HQ. unfold byte_update, byte_at. do 2 wp_step. apply wp_buffer_at; [lia|].
  do 3 wp_step. apply wp_assert; [apply Z.ltb_lt; destruct Hb; lia|]. do 2 wp_step. exact HQ.
Qed.

Lemma wp_TC_SET b dn offs (Q : unit -> query -> Prop) : ready b dn offs ->
  (forall b', wrote b dn offs b' dn offs -> _position b' = _position b -> tc_bit b' <> 0 ->
     Q tt (upd q b' dn offs)) ->
  wp (on_packet TC_SET) Q (upd q b dn offs).
Proof using.
  intros Hr HQ. pose proof Hr as [Hb Hh _ _ _]. pose proof Hb as []. unfold QHEADERSZ in Hh.
  apply wp_on_packet, wp_byte_update; [done|lia|].
  set (v := u8 _). destruct (touch_header b 2 v) as (Hok & Hex & Hpos); [done|done|unfold QHEADERSZ; lia|apply u8_range|].
  apply HQ; [by apply wrote_back|done|]. unfold tc_bit. cbn [_data set_data].
  rewrite zget_insert_eq by lia. subst v. intros E. apply (f_equal (fun x => Z.testbit x 1)) in E.
  unfold u8 in E. rewrite Z.land_spec, Z.mod_pow2_bits_low, Z.lor_spec in E by lia.
  rewrite Z.bits_0, orb_true_r in E. done.
Qed.

Lemma wp_TC b dn offs (Q : Z -> query -> Prop) : ready b dn offs ->
  Q (tc_bit b) (upd q b dn offs) -> wp (on_packet TC) Q (upd q b dn offs).
Proof using.
  intros [Hb Hh _ _ _] HQ. pose proof Hb as []. unfold QHEADERSZ in Hh.
  apply wp_on_packet. unfold TC, flag_get, byte_at. do 2 wp_step.
  apply wp_buffer_at; [lia|]. do 3 wp_step. apply wp_assert; [apply Z.ltb_lt; lia|].
  do 2 wp_step. exact HQ.
Qed.

(** Taking the record set back. *)
Lemma wp_take_back {A} b dn offs b1 dn1 offs1 (f : unit -> Qry A) (Q : A -> query -> Prop) :
  ready b dn offs -> wrote b dn offs b1 dn1 offs1 ->
  (forall b', wrote b dn offs b' dn offs -> same_header b1 b' -> _position b' = _position b ->
     wp (f tt) Q (upd q b' dn offs)) ->
  wp (on_packet (buffer_set_position (_position b));; (query_clear_dname_offsets db (_position b) ≫= f)) Q
     (upd q b1 dn1 offs1).
Proof using.
  intros Hr [Hr1 Hex Hp] HQ. pose proof Hr as [Hb Hh Hs He Hroom]. pose proof Hr1 as [Hb1 _ _ _ _].
  pose proof Hb as []. pose proof Hex as [Hl _ _].
  wp_step. apply wp_on_packet, wp_buffer_set_position; [lia|]. wp_step.
  eapply wp_clear_offsets; [exact Hp| |].
  - intros p Hin. destruct (He p Hin) as (a & Ha & Hn). exists a. split_and!; [done|lia|lia|].
    destruct (Z.eq_dec (zget offs (number a)) 0) as [->|Hne]; [unfold QHEADERSZ in Hh; lia|].
    destruct (Hs (number a) ltac:(lia) Hne ltac:(left; lia)) as (_ & _ & Hd). apply den_below in Hd. lia.
  - apply HQ; [|done|done]. apply wrote_back; [done| | |done].
    + apply buffer_ok_set_pos; [done|lia].
    + destruct Hex. by split.
Qed.

(** The records of the set in two parts and the signatures. *)
Lemma wp_parts {A} owner rs l1 l2 sigs b dn offs (f : Z -> bool -> Qry A) (Q : A -> query -> Prop) :
  ready b dn offs -> Forall (fits b offs owner) (l1 ++ l2) -> signatures owner rs = Ok sigs ->
  (forall l, rrsig_rrs owner rs = Ok l -> Forall (fits b offs owner) l) ->
  let all := with_ttl ttl (l1 ++ l2) ++ sigs in
  zlength all < 65536 ->
  (forall n b' dn' offs', wrote b dn offs b' dn' offs' -> same_header b b' ->
     records_at (_data b') owner (_position b) (take n all) (_position b') ->
     (n <= length all)%nat ->
     wp (f (Z.of_nat n) (bool_decide (n = length all))) Q (upd q b' dn' offs')) ->
  wp ('(added, all) ← encode_rrs db owner all_rrs ttl l1 0;
      '(added, all) ← (if (all : bool) then encode_rrs db owner all_rrs ttl l2 added
                       else mret (added, false));
      '(added, all_added) ← (if (all : bool) then encode_rrsigs db owner rs added
                             else mret (added, false));
      f added all_added) Q (upd q b dn offs).
Proof using Hdb.
  intros Hr Hf Hsig Hfs all Hlen HQ. unfold all in *. clear all.
  rewrite zlength_app, zlength_fmap, zlength_app in Hlen.
  pose proof (zlength_nonneg sigs). pose proof (zlength_nonneg l1). pose proof (zlength_nonneg l2).
  rewrite fmap_app, <-app_assoc in HQ. rewrite !length_app, !length_fmap in HQ.
  apply Forall_app in Hf as [Hf1 Hf2].
  wp_step. eapply wp_rrs; [done|done|apply res_filter_all|done|lia|].
  intros n1 b1 dn1 offs1 Hw1 Hsh1 Hrec1 Hn1. cbv beta iota. wp_step. rewrite Z.add_0_l.
  case_bool_decide as E1.
  2:{ repeat (wp_step; cbv beta iota). specialize (HQ n1 b1 dn1 offs1 Hw1 Hsh1).
      rewrite take_app_le, bool_decide_false in HQ by (rewrite ?length_fmap; lia).
      apply HQ; [done|lia]. }
  rewrite take_ge in Hrec1 by (rewrite length_fmap; lia).
  assert (Hfits : forall l, Forall (fits b offs owner) l -> Forall (fits b1 offs1 owner) l).
  { intros l Hl. eapply Forall_impl; [done|]. intros. by eapply fits_wrote. }
  eapply wp_rrs; [apply Hw1|by apply Hfits|apply res_filter_all|lia|unfold zlength in *; lia|].
  intros n2 b2 dn2 offs2 Hw2 Hsh2 Hrec2 Hn2. cbv beta iota. wp_step.
  assert (Hw : wrote b dn offs b2 dn2 offs2) by (by eapply wrote_trans).
  assert (Hsh : same_header b b2) by (by eapply same_header_trans).
  assert (Hrec : records_at (_data b2) owner (_position b) (with_ttl ttl l1 ++ take n2 (with_ttl ttl l2)) (_position b2)).
  { eapply records_app; [|exact Hrec2]. destruct Hr, Hw1 as [[] ? ?], Hw2 as [[] ? ?].
    by apply (later_records b1 b2). }
  case_bool_decide as E2.
  2:{ repeat (wp_step; cbv beta iota). specialize (HQ (n1 + n2)%nat b2 dn2 offs2 Hw Hsh).
      rewrite bool_decide_false, take_app_ge in HQ by (rewrite ?length_fmap; lia).
      rewrite length_fmap, take_app_le in HQ by (rewrite length_fmap; lia).
      replace (n1 + n2 - length l1)%nat with n2 in HQ by lia.
      rewrite <-Nat2Z.inj_add. apply HQ; [done|lia]. }
  rewrite (take_ge (with_ttl ttl l2)) in Hrec by (rewrite length_fmap; lia).
  eapply wp_rrsigs; [apply Hw2|done|..].
  { intros l Hl. eapply Forall_impl; [apply Hfits, Hfs, Hl|]. intros. eapply fits_wrote; [exact Hw2|done]. }
  { lia. } { unfold zlength in *. lia. }
  intros n3 b3 dn3 offs3 Hw3 Hsh3 Hrec3 Hn3. cbv beta iota.
  specialize (HQ (n1 + n2 + n3)%nat b3 dn3 offs3).
  rewrite (bool_decide_ext _ (n3 = length sigs)) in HQ by lia.
  rewrite !Nat2Z.inj_add in HQ. apply HQ; [by eapply wrote_trans|by eapply same_header_trans| |lia].
  rewrite app_assoc, take_app_ge by (rewrite length_app, !length_fmap; lia).
  rewrite length_app, !length_fmap. replace (n1 + n2 + n3 - _)%nat with n3 by lia.
  eapply records_app; [|exact Hrec3]. destruct Hr, Hw as [[] [] ?], Hw3 as [[] ? ?].
  apply (later_records b2 b3); try done.
Qed.

Lemma wp_rrset round_robin owner rs section minimal_respsize e sigs b dn offs
    (Q : Z * encoding -> query -> Prop) :
  ready b dn offs -> rrs rs <> [] -> Forall (fits b offs owner) (rrs rs) ->
  signatures owner rs = Ok sigs ->
  (forall l, rrsig_rrs owner rs = Ok l -> Forall (fits b offs owner) l) ->
  ANSWER_SECTION <= section ->
  let start := robin_start round_robin rs section e in
  let all := rotated start rs ++ sigs in
  zlength (rrs rs) + zlength sigs < 65536 ->
  (forall k done tc off b' dn' offs', wrote b dn offs b' dn' offs' ->
     records_at (_data b') owner (_position b) (take k all) (_position b') ->
     kept_records section minimal_respsize all b' k done tc ->
     (if tc then tc_bit b' <> 0 else same_header b b') ->
     Q (Z.of_nat k, mkencoding off (enc_done e || done)) (upd q b' dn' offs')) ->
  wp (packet_encode_rrset db round_robin owner rs section minimal_respsize e) Q (upd q b dn offs).
Proof using Hdb.
  intros Hr Hne Hf Hsig Hfs Hsec start all Hlen HQ. unfold packet_encode_rrset.
  wp_step. wp_step. change (qtype (upd q b dn offs)) with (qtype q).
  change (tcp (upd q b dn offs)) with (tcp q).
  wp_step. apply wp_assert.
  { apply Z.ltb_lt. unfold rr_count, zlength. destruct (rrs rs); simpl in *; [done|lia]. }
  wp_step. apply wp_on_packet. unfold buffer_position. do 3 wp_step.
  assert (Hrr : forall off, wp (
    '(added, all) ← encode_rrs db owner all_rrs ttl (drop start (rrs rs)) 0;
    '(added, all) ← (if (all : bool) then encode_rrs db owner all_rrs ttl (take start (rrs rs)) added
                     else mret (added, false));
    '(added, all_added) ← (if (all : bool) then encode_rrsigs db owner rs added else mret (added, false));
    position ← on_packet buffer_position;
    '(added, e) ← (if (negb all_added || (minimal_respsize <? position)) && negb (tcp q) &&
                      (OPTIONAL_AUTHORITY_SECTION <=? section) then
           on_packet (buffer_set_position (_position b));;
           query_clear_dname_offsets db (_position b);;
           mret (0, mkencoding off true)
         else mret (added, mkencoding off (enc_done e)));
    if negb all_added && ((section =? ANSWER_SECTION) || (section =? AUTHORITY_SECTION)) then
      on_packet (buffer_set_position (_position b));;
      query_clear_dname_offsets db (_position b);;
      on_packet TC_SET;;
      mret (0, e)
    else mret (added, e)) Q (upd q b dn offs)).
  2:{ unfold start, robin_start in Hrr. destruct (round_robin && _ && _ && _).
      - exact (Hrr (round_robin_off e + 1)).
      - specialize (Hrr (round_robin_off e)). destruct e. exact Hrr. }
  intros off.
  assert (Hperm : Forall (fits b offs owner) (drop start (rrs rs) ++ take start (rrs rs))).
  { apply Forall_app; split; [by apply Forall_drop|by apply Forall_take]. }
  eapply wp_parts; [done|exact Hperm|done|done| |].
  { rewrite zlength_app, zlength_fmap. eapply Z.le_lt_trans; [|exact Hlen]. unfold zlength.
    rewrite length_app, length_drop, length_take. lia. }
  intros n b1 dn1 offs1 Hw Hsh Hrec Hn. fold (rotated start rs) in Hrec, Hn |- *. fold all in Hrec, Hn |- *.
  wp_step. apply wp_on_packet. unfold buffer_position. do 3 wp_step.
  unfold OPTIONAL_AUTHORITY_SECTION, ANSWER_SECTION, AUTHORITY_SECTION in *.
  (* [wp_step] decides the tests of the code one by one *)
  wp_step. wp_step; bool_simpl.
  - eapply wp_take_back; [done|done|]. intros b2 Hw2 Hsh2 Hpos2. wp_step. cbv beta iota.
    replace (negb _ && _) with false by (rewrite !(proj2 (Z.eqb_neq section _)) by lia; by rewrite andb_false_r).
    wp_step. specialize (HQ 0%nat true false off b2 dn offs Hw2). rewrite orb_true_r in HQ.
    apply HQ; [rewrite Hpos2; constructor| |by eapply same_header_trans].
    split; unfold OPTIONAL_AUTHORITY_SECTION, ANSWER_SECTION, AUTHORITY_SECTION; [lia|done|lia|done|done].
  - wp_step. cbv beta iota. assert (Hcase : bool_decide (n = length all) = false ->
      tcp q = true \/ section < 3).
    { intros E. rewrite E in *. cbn [negb orb andb] in *.
      match goal with Ht : (negb (tcp q) && _)%bool = false |- _ => apply andb_false_iff in Ht as [Ht|Ht]; bool_simpl; auto with lia end. }
    wp_step; bool_simpl.
    + eapply wp_take_back; [done|done|]. intros b2 Hw2 Hsh2 Hpos2.
      wp_step. eapply wp_TC_SET; [apply Hw2|]. intros b3 Hw3 Hpos3 Htc. wp_step.
      specialize (HQ 0%nat false true off b3 dn offs). rewrite orb_false_r in HQ.
      assert (Hsec' : section = 1 \/ section = 2).
      { match goal with Ht : (_ || _)%bool = true |- _ => apply orb_true_iff in Ht as [Ht|Ht]; bool_simpl; auto end. }
      apply HQ; [by eapply wrote_trans|rewrite Hpos3, Hpos2; constructor| |done].
      split; unfold OPTIONAL_AUTHORITY_SECTION, ANSWER_SECTION, AUTHORITY_SECTION; [lia|done|done|done|lia].
    + wp_step. specialize (HQ n false false off b1 dn1 offs1). rewrite orb_false_r in HQ.
      apply HQ; [done|done| |done].
      split; unfold OPTIONAL_AUTHORITY_SECTION, ANSWER_SECTION, AUTHORITY_SECTION; [done|done| |done|].
      * intros Hs. case_bool_decide; [done|]. exfalso. 
        match goal with Ht : (negb false && _)%bool = false |- _ => cbn [negb andb] in Ht; apply orb_false_iff in Ht as [??]; bool_simpl; lia end.
      * intros Hs Htcp _. rewrite Htcp in *. case_bool_decide as E; [|by destruct Hcase; [done|done|lia]].
        split; [done|]. cbn [negb orb andb] in *.
        match goal with Ht : (_ && _)%bool = false |- _ => apply andb_false_iff in Ht as [Ht|Ht]; bool_simpl; lia end.
Qed.
End rrset.

