(* ===== verification/QueryAnswer.v ===== *)
(** Theorems about the collected answer (Query.v): the sections of the message
    hold the record sets collected for them, and the header counts them. *)

From S2P Require Import Prelude Buffer Dname DnameProofs DnamePacket Dns Packet PacketProofs Contents Namedb NamedbProofs Edns Tsig Query QueryProofs QueryRecords QueryRRset.

Section answer.
Context `{T : NameTree} `{H : Hmac}.
Context (db : namedb) (nm : Z -> name) (Hdb : numbered db nm) (q : query) (round_robin : bool).

Abbreviation Qry := (ST query).
Abbreviation with_ttl ttl_of := (fmap (fun r : rr => (r, ttl_of r))).

(** * A section *)

(** The record set of an entry can be written. *)
Definition entry_ok (b : buffer) (offs : list Z) (x : answer_entry) : Prop := exists rs sigs,
  rrset_at db (a_rrset x) = Ok rs /\ rrs rs <> [] /\
  Forall (fits db nm q b offs (a_domain x)) (rrs rs) /\ signatures db q (a_domain x) rs = Ok sigs /\
  (forall l, rrsig_rrs db (a_domain x) rs = Ok l -> Forall (fits db nm q b offs (a_domain x)) l) /\
  zlength (rrs rs) + zlength sigs < 65536 /\ ANSWER_SECTION <= a_section x < RR_SECTION_COUNT.

(** The records [recs] come from the set of the entry and its signatures;
    they are all there when [full]. *)
Definition entry_records (x : answer_entry) (recs : list (rr * Z)) (full : bool) : Prop :=
  exists rs sigs, rrset_at db (a_rrset x) = Ok rs /\ signatures db q (a_domain x) rs = Ok sigs /\
    recs ⊆+ with_ttl ttl (rrs rs) ++ sigs /\
    (full = true -> recs ≡ₚ with_ttl ttl (rrs rs) ++ sigs).

(** [section_at d section full p a c e]: from [p] to [e] are [c] records of
    the entries of [a] for the section. *)
Inductive section_at (d : list Z) (section : Z) (full : bool) : Z -> answer -> Z -> Z -> Prop :=
  | section_nil p : section_at d section full p [] 0 p
  | section_stop p a : full = false -> section_at d section full p a 0 p
  | section_other p x a c e : a_section x <> section -> section_at d section full p a c e ->
      section_at d section full p (x :: a) c e
  | section_entry p x a recs c e1 e : a_section x = section -> entry_records x recs full ->
      records_at db nm d (a_domain x) p recs e1 -> section_at d section full e1 a c e ->
      section_at d section full p (x :: a) (zlength recs + c) e.

Lemma records_count d owner p l e : records_at db nm d owner p l e -> p + zlength l <= e.
Proof using.
  induction 1 as [|p e1 e r t l Hr%rr_at_end Hl IH]; [unfold zlength; simpl; lia|].
  rewrite zlength_cons. lia.
Qed.

Lemma section_count d section full p a c e : section_at d section full p a c e ->
  0 <= c /\ p + c <= e.
Proof using.
  induction 1 as [| | |p x a recs c e1 e Hx He Hr%records_count Hs IH]; [lia..|].
  pose proof (zlength_nonneg recs). lia.
Qed.

Lemma later_section b b' : buffer_ok b -> buffer_ok b' -> extends b b' ->
  forall section full p a c e, section_at (_data b) section full p a c e -> QHEADERSZ <= p ->
  e <= _position b -> section_at (_data b') section full p a c e.
Proof using.
  intros Hb Hb' Hex section full.
  induction 1 as [| | |p x a recs c e1 e Hx He Hr Hs IH]; intros Hp Hl; [by constructor..| |].
  - apply section_other; auto.
  - pose proof (section_count _ _ _ _ _ _ _ Hs). pose proof (records_count _ _ _ _ _ Hr).
    pose proof (zlength_nonneg recs). eapply section_entry; [done|done| |apply IH; lia].
    apply (later_records db nm b b'); try done. lia.
Qed.

Lemma entry_wrote b dn offs b' dn' offs' x : wrote db nm q b dn offs b' dn' offs' ->
  entry_ok b offs x -> entry_ok b' offs' x.
Proof using.
  intros Hw (rs & sigs & H1 & H2 & H3 & H4 & H5 & H6). exists rs, sigs. split_and!; try done.
  - eapply Forall_impl; [done|]. intros. by eapply fits_wrote.
  - intros l Hl. eapply Forall_impl; [by apply H5|]. intros. by eapply fits_wrote.
  - apply H6.
  - apply H6.
  - apply H6.
Qed.

Lemma rotated_perm start rs : rotated start rs ≡ₚ with_ttl ttl (rrs rs).
Proof using.
  unfold rotated. apply fmap_Permutation. rewrite Permutation_app_comm. by rewrite take_drop.
Qed.

Lemma kept_entry x rs sigs start section minimal b' k done_ tc full :
  rrset_at db (a_rrset x) = Ok rs -> signatures db q (a_domain x) rs = Ok sigs ->
  kept_records q section minimal (rotated start rs ++ sigs) b' k done_ tc ->
  (full = true -> k = length (rotated start rs ++ sigs)) ->
  entry_records x (take k (rotated start rs ++ sigs)) full.
Proof using.
  intros Hrs Hs Hk Hfull. exists rs, sigs. split_and!; [done|done| |].
  - rewrite <-rotated_perm. apply sublist_submseteq, sublist_take.
  - intros Hf. rewrite (take_ge _ k) by (rewrite (Hfull Hf); done). by rewrite rotated_perm.
Qed.

Lemma section_weaken d section full p a c e : section_at d section full p a c e ->
  section_at d section false p a c e.
Proof using.
  induction 1 as [| |p x a c e Hx Hs IH|p x a recs c e1 e Hx He Hr Hs IH]; [by constructor..| |].
  - by apply section_other.
  - eapply section_entry; [done| |done|done].
    destruct He as (rs & sigs & H1 & H2 & H3 & _). by exists rs, sigs.
Qed.

(** The answer and authority sections are complete or the packet is marked
    truncated. *)
Definition required (section : Z) : Prop := section = ANSWER_SECTION \/ section = AUTHORITY_SECTION.

Lemma wp_section section minimal_respsize a : forall b dn offs count e
    (Q : Z * encoding -> query -> Prop),
  ready db nm q b dn offs -> Forall (entry_ok b offs) a -> ANSWER_SECTION <= section ->
  0 <= count -> count + (room q - _position b) < 65536 ->
  (forall full c e' b' dn' offs', wrote db nm q b dn offs b' dn' offs' ->
     section_at (_data b') section full (_position b) a c (_position b') ->
     (required section -> tc_bit b' = 0 -> full = true) ->
     (~ required section -> same_header b b') -> (tc_bit b <> 0 -> tc_bit b' <> 0) ->
     (enc_done e' = true -> enc_done e = true \/ ~ required section) ->
     Q (count + c, e') (upd q b' dn' offs')) ->
  wp (encode_section db round_robin section minimal_respsize a count e) Q (upd q b dn offs).
Proof using Hdb.
  induction a as [|x a IH]; intros b dn offs count e Q Hr Ha Hsec Hc Hcount HQ; cbn [encode_section].
  - wp_step. eapply wp_TC; [done|]. wp_step; bool_simpl.
    + wp_step. specialize (HQ false 0 e b dn offs). rewrite Z.add_0_r in HQ.
      apply HQ; [by apply wrote_refl|by constructor|done|done|done|by left].
    + wp_step. specialize (HQ true 0 e b dn offs). rewrite Z.add_0_r in HQ.
      apply HQ; [by apply wrote_refl|by constructor|done|done|done|by left].
  - apply Forall_cons in Ha as [Hx Ha].
    wp_step. eapply wp_TC; [done|]. wp_step; bool_simpl.
    { wp_step. specialize (HQ false 0 e b dn offs). rewrite Z.add_0_r in HQ.
      apply HQ; [by apply wrote_refl|by constructor|done|done|done|by left]. }
    wp_step; bool_simpl.
    2:{ apply (IH b dn offs); try done. intros. apply HQ with full; try done. by apply section_other. }
    destruct Hx as (rs & sigs & Hrs & Hne & Hf & Hsig & Hfs & Hlen & Hrange).
    wp_step. eapply wp_lift; [done|]. wp_step.
    eapply wp_rrset; [done|done|done|done|done|done|done|done|].
    cbv zeta. set (start := robin_start _ _ _ _ _). intros k done_ tc off b1 dn1 offs1 Hw1 Hrec Hk Htc.
    cbv beta iota.
    pose proof (records_count _ _ _ _ _ Hrec) as Hcnt. pose proof Hk as [Hle Htr Hreq Hdone _].
    set (all := rotated start rs ++ sigs) in *.
    assert (Hz : zlength (take k all) = Z.of_nat k) by (unfold zlength; rewrite length_take; lia).
    rewrite Hz in Hcnt. pose proof Hw1 as [[Hb1 _ _ _ Hroom1] Hex1 _].
    rewrite u16_small by lia.
    apply (IH b1 dn1 offs1); try done; [apply Hw1| |lia|lia|].
    { eapply Forall_impl; [done|]. intros. by eapply entry_wrote. }
    intros full c e' b' dn' offs' Hw Hs Hfull Hsame Hper He'.
    replace (count + Z.of_nat k + c) with (count + (zlength (take k all) + c)) by lia.
    assert (Hr' : ready db nm q b dn offs) by done. destruct Hr' as [Hb Hh _ _ _].
    pose proof (section_count _ _ _ _ _ _ _ Hs).
    assert (Hrec' : records_at db nm (_data b') (a_domain x) (_position b) (take k all) (_position b1)).
    { apply (later_records db nm b1 b'); try done; [apply Hw|apply Hw]. }
    apply (HQ (full && bool_decide (k = length all))).
    + by eapply wrote_trans.
    + eapply section_entry; [done| |exact Hrec'|].
      * eapply kept_entry; [done|done|exact Hk|]. intros [_ E]%andb_prop. by apply bool_decide_eq_true in E.
      * case_bool_decide; [by rewrite andb_true_r|]. rewrite andb_false_r. by eapply section_weaken.
    + intros Hq Ht. rewrite (Hfull Hq Ht). destruct tc; [by destruct (Hper Htc)|].
      rewrite bool_decide_true; [done|by apply Hreq].
    + intros Hq. destruct tc; [by destruct Hq; apply Htr|].
      eapply same_header_trans; [done|by apply Hsame].
    + done.
    + intros He1%He'. cbn [enc_done] in He1. destruct He1 as [[?|Hd]%orb_true_iff|?]; [by left| |by right].
      right. intros Hq. apply Hdone in Hd as (_ & _ & Hd). unfold required in Hq.
      unfold OPTIONAL_AUTHORITY_SECTION, ANSWER_SECTION, AUTHORITY_SECTION in *. lia.
Qed.

(** * The message *)

(** The sections follow each other; the answer and authority sections have
    all their records when [complete]. *)
Inductive sections_at (d : list Z) (a : answer) (complete : Prop) (counts : list Z) :
    Z -> list Z -> Z -> Prop :=
  | sections_nil p : sections_at d a complete counts p [] p
  | sections_cons p s l full e1 e : (required s -> complete -> full = true) ->
      section_at d s full p a (zget counts s) e1 -> sections_at d a complete counts e1 l e ->
      sections_at d a complete counts p (s :: l) e.

Lemma sections_none d a complete counts p l : Forall (fun s => zget counts s = 0) l ->
  (complete -> Forall (fun s => ~ required s) l) -> sections_at d a complete counts p l p.
Proof using.
  intros Hz. revert p. induction Hz as [|s l Hs Hl IH]; intros p Hn; [constructor|].
  eapply sections_cons with (full := false); [|rewrite Hs; by constructor|apply IH].
  - intros Hq Hc. apply Hn in Hc. by apply Forall_cons in Hc as [[] _].
  - intros Hc. apply Hn in Hc. by apply Forall_cons in Hc as [_ Hc].
Qed.

Lemma sections_mono d a complete complete' counts p l e : sections_at d a complete counts p l e ->
  (complete' -> complete) -> sections_at d a complete' counts p l e.
Proof using.
  intros Hs Hc. induction Hs as [|p s l full e1 e Hf Hs Hl IH]; [constructor|].
  eapply sections_cons; [|exact Hs|exact IH]. auto.
Qed.

Lemma sections_range d a complete counts p l e : sections_at d a complete counts p l e ->
  p + foldr (fun s n => zget counts s + n) 0 l <= e /\ Forall (fun s => 0 <= zget counts s) l.
Proof using.
  induction 1 as [|p s l full e1 e Hf Hs%section_count Hl [IH1 IH2]]; cbn [foldr].
  - split; [lia|done].
  - split; [lia|]. constructor; [lia|done].
Qed.

Lemma sections_le d a complete counts p l e : sections_at d a complete counts p l e -> p <= e.
Proof using. induction 1 as [|p s l full e1 e Hf Hs%section_count Hl IH]; lia. Qed.

Lemma later_sections b b' a complete counts p l e : buffer_ok b -> buffer_ok b' -> extends b b' ->
  sections_at (_data b) a complete counts p l e -> QHEADERSZ <= p -> e <= _position b ->
  sections_at (_data b') a complete counts p l e.
Proof using.
  intros Hb Hb' Hex. induction 1 as [|p s l full e1 e Hf Hs Hl IH]; intros Hp He; [constructor|].
  pose proof (section_count _ _ _ _ _ _ _ Hs). pose proof (sections_le _ _ _ _ _ _ _ Hl).
  econstructor; [done| |apply IH; lia]. apply (later_section b b'); try done. lia.
Qed.

(** Optional sections come last. *)
Fixpoint optional_last (l : list Z) : Prop :=
  match l with
  | [] => True
  | s :: l => (~ required s -> Forall (fun s => ~ required s) l) /\ optional_last l
  end.

Lemma wp_sections minimal_respsize a l : forall b dn offs counts e
    (Q : list Z * encoding -> query -> Prop),
  ready db nm q b dn offs -> Forall (entry_ok b offs) a -> room q <= 65535 ->
  optional_last l -> NoDup l -> Forall (fun s => ANSWER_SECTION <= s < zlength counts) l ->
  Forall (fun s => zget counts s = 0) l ->
  (enc_done e = true -> Forall (fun s => ~ required s) l) ->
  (forall counts' e' b' dn' offs', wrote db nm q b dn offs b' dn' offs' ->
     sections_at (_data b') a (tc_bit b' = 0) counts' (_position b) l (_position b') ->
     (tc_bit b <> 0 -> tc_bit b' <> 0) -> (forall s, 0 <= s -> s ∉ l -> zget counts' s = zget counts s) ->
     Q (counts', e') (upd q b' dn' offs')) ->
  wp (encode_sections db round_robin minimal_respsize a l counts e) Q (upd q b dn offs).
Proof using Hdb.
  induction l as [|s l IH]; intros b dn offs counts e Q Hr Ha Hroom Hol Hnd Hin Hz Hdone HQ;
    cbn [encode_sections].
  { wp_step. apply HQ; [by apply wrote_refl|constructor|done|done]. }
  wp_step. eapply wp_TC; [done|]. wp_step; bool_simpl.
  { wp_step. apply HQ; [by apply wrote_refl|by apply sections_none|done|done]. }
  destruct Hol as [Hopt Hol]. apply NoDup_cons in Hnd as [Hns Hnd].
  apply Forall_cons in Hin as [Hs Hin]. apply Forall_cons in Hz as [Hz Hzl].
  pose proof Hr as [Hb Hh _ _ _]. unfold ANSWER_SECTION, QHEADERSZ in *.
  wp_step. eapply wp_section; [done|done|unfold ANSWER_SECTION; lia|lia|lia|].
  intros full c e1 b1 dn1 offs1 Hw1 Hsec Hfull Hsame1 Hper1 He1. cbv beta iota zeta. rewrite Z.add_0_l.
  set (counts1 := <[Z.to_nat s := c]> counts).
  assert (Hc1 : zget counts1 s = c) by (apply zget_insert_eq; lia).
  assert (Hcl : zlength counts1 = zlength counts) by (unfold zlength, counts1; by rewrite length_insert).
  assert (Hother : forall x, 0 <= x -> x ∉ s :: l -> zget counts1 x = zget counts x).
  { intros x Hx Hn. apply zget_insert_ne; [lia|lia|]. intros ->. apply Hn. by left. }
  assert (Hz1 : Forall (fun s => zget counts1 s = 0) l).
  { rewrite Forall_forall in Hzl, Hin |- *. intros x Hx. rewrite <-(Hzl x Hx).
    specialize (Hin x Hx). apply zget_insert_ne; [lia|lia|]. by intros ->. }
  assert (Hok1 : buffer_ok b1) by apply Hw1.
  wp_step.
  - do 2 wp_step.
    assert (Hno : Forall (fun s => ~ required s) l).
    { match goal with H : enc_done e1 = true |- _ => apply He1 in H as [H|H] end.
      - apply Hdone in H1. by apply Forall_cons in H1 as [_ ?].
      - by apply Hopt. }
    assert (Hend : forall b2, wrote db nm q b1 dn1 offs1 b2 dn1 offs1 -> _position b2 = _position b1 ->
       (tc_bit b1 <> 0 -> tc_bit b2 <> 0) -> Q (counts1, e1) (upd q b2 dn1 offs1)).
    { intros b2 Hw2 Hpos2 Hper2. apply HQ; [by eapply wrote_trans| |auto|done].
      rewrite Hpos2. eapply sections_cons; [|rewrite Hc1|by apply sections_none].
      - intros Hq Ht. apply Hfull; [done|]. destruct (Z.eq_dec (tc_bit b1) 0); [done|]. by destruct (Hper2 ltac:(done)).
      - apply (later_section b1 b2); try done; [apply Hw2|apply Hw2]. }
    wp_step. wp_step.
    + eapply wp_TC_SET; [apply Hw1|]. intros b2 Hw2 Hpos2 Htc2. wp_step. by apply Hend.
    + do 2 wp_step. apply Hend; [apply wrote_refl, Hw1|done|done].
  - apply (IH b1 dn1 offs1); try done.
    + apply Hw1.
    + eapply Forall_impl; [done|]. intros. by eapply entry_wrote.
    + eapply Forall_impl; [exact Hin|]. cbn. unfold ANSWER_SECTION. lia.
    + congruence.
    + intros counts2 e2 b2 dn2 offs2 Hw2 Hsecs Hper2 Hkeep. apply HQ.
      * by eapply wrote_trans.
      * eapply sections_cons; [| |exact Hsecs].
        -- intros Hq Ht. apply Hfull; [done|]. destruct (Z.eq_dec (tc_bit b1) 0); [done|]. by destruct (Hper2 ltac:(done)).
        -- rewrite Hkeep, Hc1 by (done || lia). apply (later_section b1 b2); try done; [apply Hw2|apply Hw2].
      * auto.
      * intros x Hx Hn. rewrite Hkeep; [by apply Hother|done|]. intros ?. apply Hn. by right.
Qed.

(** ** The counts of the header *)

(** Only bytes [i] and [i + 1] change. *)
Definition only_at (i : Z) (b b' : buffer) : Prop :=
  forall j, 0 <= j -> j <> i -> j <> i + 1 -> zget (_data b) j = zget (_data b') j.

Lemma wp_count b dn offs i v (Q : unit -> query -> Prop) : ready db nm q b dn offs ->
  2 < i -> i + 2 <= QHEADERSZ -> 0 <= v < 65536 ->
  (forall b', wrote db nm q b dn offs b' dn offs -> _position b' = _position b ->
     read_uint16 (_data b') i = v -> only_at i b b' -> Q tt (upd q b' dn offs)) ->
  wp (on_packet (buffer_write_u16_at i v)) Q (upd q b dn offs).
Proof using.
  intros Hr Hi Hi2 Hv HQ. pose proof Hr as [Hb Hh _ _ _]. unfold QHEADERSZ in *. pose proof Hb as [].
  assert (Hw : zlength (write_uint16 v) = 2) by done.
  apply wp_on_packet. unfold buffer_write_u16_at. apply wp_buffer_write_at; [done|lia|].
  set (b' := set_data _ b).
  assert (Hd : _data b' = list_inserts (Z.to_nat i) (write_uint16 v) (_data b)) by done.
  assert (Hout : only_at i b b').
  { intros j Hj H1 H2. rewrite Hd, zget_inserts_out by lia. done. }
  assert (Hok : buffer_ok b').
  { apply buffer_ok_set_data; [done|by rewrite zlength_inserts|auto with wp]. }
  assert (Hex : extends b b').
  { split; [done|done|]. intros j Hj. apply Hout; unfold QHEADERSZ in *; lia. }
  apply HQ; [by apply wrote_back|done| |done].
  rewrite read_uint16_eq by apply Hok. rewrite Hd.
  rewrite !zget_inserts_in by lia. rewrite write_uint16_eq.
  replace (i - i) with 0 by lia. replace (i + 1 - i) with 1 by lia.
  change (zget [v / 256 mod 256; v mod 256] 0) with (v / 256 mod 256).
  change (zget [v / 256 mod 256; v mod 256] 1) with (v mod 256). dlia.
Qed.

Lemma only_at_u16 i k b b' : only_at i b b' -> buffer_ok b -> buffer_ok b' -> 0 <= k ->
  k + 1 < i \/ i + 1 < k -> read_uint16 (_data b') k = read_uint16 (_data b) k.
Proof using.
  intros Ho [] [] Hk Hne. rewrite !read_uint16_eq by done. by rewrite !(Ho _) by lia.
Qed.

Lemma only_at_tc i b b' : only_at i b b' -> 2 < i -> tc_bit b' = tc_bit b.
Proof using. intros Ho Hi. unfold tc_bit. by rewrite <-(Ho 2) by lia. Qed.

Definition answer_sections : list Z :=
  [ANSWER_SECTION; AUTHORITY_SECTION; OPTIONAL_AUTHORITY_SECTION; ADDITIONAL_A_SECTION;
   ADDITIONAL_AAAA_SECTION; ADDITIONAL_OTHER_SECTION].

(** What the header says. *)
Definition counted (b : buffer) (counts : list Z) : Prop :=
  read_uint16 (_data b) 6 = zget counts ANSWER_SECTION /\
  read_uint16 (_data b) 8 = zget counts AUTHORITY_SECTION + zget counts OPTIONAL_AUTHORITY_SECTION /\
  read_uint16 (_data b) 10 = zget counts ADDITIONAL_A_SECTION + zget counts ADDITIONAL_AAAA_SECTION
                             + zget counts ADDITIONAL_OTHER_SECTION.

Lemma wp_encode_answer a off b dn offs (Q : Z -> query -> Prop) :
  ready db nm q b dn offs -> Forall (entry_ok b offs) a -> room q <= 65535 ->
  (forall counts off' b' dn' offs', wrote db nm q b dn offs b' dn' offs' ->
     sections_at (_data b') a (tc_bit b' = 0) counts (_position b) answer_sections (_position b') ->
     counted b' counts -> Q off' (upd q b' dn' offs')) ->
  wp (encode_answer db round_robin a off) Q (upd q b dn offs).
Proof using Hdb.
  intros Hr Ha Hroom HQ. unfold encode_answer. do 2 wp_step. wp_step.
  fold answer_sections.
  eapply wp_sections; [done|done|done|..|done|].
  { cbn. repeat split; unfold required; intros Hn; repeat constructor; try (intros [E|E]; done);
      destruct Hn; first [by left|by right]. }
  { apply (bool_decide_unpack _). by vm_compute. }
  { by repeat constructor. }
  { by repeat constructor. }
  intros counts e' b1 dn1 offs1 Hw1 Hs1 _ _. cbv beta iota.
  destruct (sections_range _ _ _ _ _ _ _ Hs1) as [Hsum Hpos].
  pose proof Hw1 as [[Hb1 Hh1 _ _ Hroom1] _ _]. pose proof Hr as [_ Hh _ _ _].
  unfold answer_sections in Hsum, Hpos. cbn [foldr] in Hsum.
  rewrite !Forall_cons in Hpos. destruct Hpos as (H1 & H2 & H3 & H4 & H5 & H6 & _).
  rewrite !u16_small by (unfold QHEADERSZ in *; lia).
  wp_step. apply wp_count; [apply Hw1|done|done|unfold QHEADERSZ in *; lia|]. intros b2 Hw2 Hp2 Hv2 Ho2.
  wp_step. apply wp_count; [apply Hw2|done|done|unfold QHEADERSZ in *; lia|]. intros b3 Hw3 Hp3 Hv3 Ho3.
  wp_step. apply wp_count; [apply Hw3|done|done|unfold QHEADERSZ in *; lia|]. intros b4 Hw4 Hp4 Hv4 Ho4.
  wp_step.
  assert (Hb2 : buffer_ok b2) by apply Hw2. assert (Hb3 : buffer_ok b3) by apply Hw3.
  assert (Hb4 : buffer_ok b4) by apply Hw4.
  assert (Hw14 : wrote db nm q b1 dn1 offs1 b4 dn1 offs1).
  { eapply wrote_trans; [done|]. by eapply wrote_trans. }
  apply (HQ counts).
  - by eapply wrote_trans.
  - rewrite Hp4, Hp3, Hp2. eapply sections_mono.
    + apply (later_sections b1 b4); try done. apply Hw14.
    + intros Ht. by rewrite (only_at_tc 10 b3 b4), (only_at_tc 8 b2 b3), (only_at_tc 6 b1 b2) in Ht by done.
  - split_and!.
    + rewrite (only_at_u16 10 6 b3 b4), (only_at_u16 8 6 b2 b3) by (done || lia). done.
    + rewrite (only_at_u16 10 8 b3 b4) by (done || lia). done.
    + done.
Qed.
End answer.


(** * Collecting record sets (answer.c) *)
Section collecting.
Context `{T : NameTree} (db : namedb).

(** What tells record sets of an answer apart: the set and the number of the
    owner. *)
Definition entry_key (e : answer_entry) : Z * option Z :=
  (a_rrset e, match domain_at db (a_domain e) with Ok d => Some (number d) | _ => None end).

Definition valid_entry (e : answer_entry) : Prop := exists d, domain_at db (a_domain e) = Ok d.

Lemma answer_raise_spec section d rrset a : Forall valid_entry a ->
  (answer_raise db a section d rrset = Ok None /\ (rrset, Some (number d)) ∉ (entry_key <$> a)) \/
  exists a1 e a2, a = a1 ++ e :: a2 /\ entry_key e = (rrset, Some (number d)) /\
    answer_raise db a section d rrset =
      Ok (Some (a1 ++ mkentry (Z.min section (a_section e)) (a_domain e) (a_rrset e) :: a2,
                section <? a_section e)).
Proof using.
  induction 1 as [|e a [x Hx] Ha IH]; [left; split; [done|apply not_elem_of_nil]|].
  cbn [answer_raise]. rewrite Hx. cbn [mbind res_bind].
  assert (Hkey : entry_key e = (a_rrset e, Some (number x))) by (unfold entry_key; by rewrite Hx).
  destruct (_ && _) eqn:E; bool_simpl.
  - right. exists [], e, a. cbn [app]. split_and!; [done|rewrite Hkey; congruence|].
    destruct (Z.ltb_spec section (a_section e)).
    + by rewrite Z.min_l by lia.
    + rewrite Z.min_r by lia. by destruct e.
  - assert (Hne : entry_key e <> (rrset, Some (number d))).
    { rewrite Hkey. intros [= E1 E2]. apply andb_false_iff in E as [E|E]; bool_simpl; congruence. }
    destruct IH as [[-> Hn]|(a1 & e' & a2 & -> & He & ->)].
    + left. split; [done|]. cbn. rewrite not_elem_of_cons. done.
    + right. by exists (e :: a1), e', a2.
Qed.
End collecting.

(** C30 (answer_add_rrset): an answer whose record sets are distinct stays so
    and within its array.  A set already there moves to the stronger of the
    two sections in its place and nothing else changes; a new one goes to the
    end; the result tells whether the answer has changed, and the new set is
    only dropped when the array is full. *)
Theorem answer_add_rrset_correct `{T : NameTree} db a section domain rrset d :
  domain_at db domain = Ok d -> ANSWER_SECTION <= section < RR_SECTION_COUNT ->
  Forall (valid_entry db) a -> NoDup (entry_key db <$> a) -> zlength a <= MAXRRSPP ->
  exists a' v, answer_add_rrset db a section domain rrset = Ok (a', v) /\
    NoDup (entry_key db <$> a') /\ Forall (valid_entry db) a' /\ zlength a' <= MAXRRSPP /\
    ((exists a1 e a2, a = a1 ++ e :: a2 /\ entry_key db e = (rrset, Some (number d)) /\
        a' = a1 ++ mkentry (Z.min section (a_section e)) (a_domain e) (a_rrset e) :: a2 /\
        v = (section <? a_section e)) \/
     (~ ((rrset, Some (number d)) ∈ (entry_key db <$> a)) /\
        (if MAXRRSPP <=? zlength a then a' = a /\ v = false
         else a' = a ++ [mkentry section domain rrset] /\ v = true))).
Proof.
  intros Hd [Hs1 Hs2] Hv Hnd Hl. unfold answer_add_rrset.
  replace ((ANSWER_SECTION <=? section) && (section <? RR_SECTION_COUNT)) with true
    by (symmetry; apply andb_true_iff; split; [by apply Z.leb_le|by apply Z.ltb_lt]).
  cbn [rassert mbind res_bind]. rewrite Hd. cbn [mbind res_bind].
  destruct (answer_raise_spec db section d rrset a Hv) as [[-> Hn]|(a1 & e & a2 & -> & He & ->)];
    cbn [mbind res_bind mret].
  - destruct (Z.leb_spec MAXRRSPP (zlength a)).
    + exists a, false. by split_and!; [..|right].
    + eexists _, true. split; [done|].
      assert (Hkey : entry_key db (mkentry section domain rrset) = (rrset, Some (number d)))
        by (unfold entry_key; cbn; by rewrite Hd).
      split_and!.
      * rewrite fmap_app. apply NoDup_app. split_and!; [done| |apply NoDup_singleton].
        intros x Hx Hx'. apply list_elem_of_singleton in Hx' as ->. by rewrite Hkey in Hx.
      * apply Forall_app. split; [done|]. repeat constructor. by exists d.
      * rewrite zlength_app, zlength_cons, zlength_nil. lia.
      * by right.
  - eexists _, _. split; [done|].
    apply Forall_app in Hv as [Hv1 Hv2]. apply Forall_cons in Hv2 as [Hve Hv2].
    split_and!.
    + by rewrite !fmap_app, !fmap_cons in Hnd |- *.
    + apply Forall_app. by split; [|apply Forall_cons].
    + rewrite !zlength_app, !zlength_cons in *. lia.
    + left. by exists a1, e, a2.
Qed.
