(* ===== verification/QuerySamples.v ===== *)
(** Concrete queries for the theorems about answers: a small domain table, a
    packet with room, and what happens in a packet so full that positions do
    not fit in sixteen bits. *)

From S2P Require Import Prelude Buffer Dname DnameProofs Dns Packet Contents Namedb NamedbProofs NamedbTable Edns Tsig TsigProofs Query QueryProofs QueryRecords QueryRRset QueryAnswer.

(** Every element of an explicit list. *)
Ltac each H tac :=
  repeat (apply elem_of_cons in H as [->|H]; [tac|]); by apply elem_of_nil in H.
Ltac listed := apply (bool_decide_unpack _); by vm_compute.

(** The names ".", "c.", "b.c." and "a.b.c.", with pointers and numbers 1 to 4. *)
Definition mini_names : list name := [[]; [[99]]; [[98]; [99]]; [[97]; [98]; [99]]].
Definition mini_nm (n : Z) : name := default [] (mini_names !! Z.to_nat (n - 1)).
Definition mini_domain (n : Z) : domain :=
  mkdomain true (of_labels (mini_nm n)) (if n =? 1 then None else Some (n - 1)) n [] n 0 true false.

(** Record set 1 of the zone: mail exchangers of "c.". *)
Definition mini_rr : rr := mkrr 2 [Atom_data [0; 10]; Atom_domain 4] 3600 TYPE_MX CLASS_IN.
Definition mini_rr2 : rr := mkrr 2 [Atom_data [0; 20]; Atom_domain 3] 3600 TYPE_MX CLASS_IN.
Definition mini_zone : zone := mkzone (Some 2) None None None false true false.
Definition mini_db : namedb :=
  mkdb (list_to_map ((fun n => (n, mini_domain n)) <$> [1; 2; 3; 4]))
       {[1 := mkrrset 1 [mini_rr; mini_rr2]]} {[1 := mini_zone]} [] [1; 2; 3; 4] [].

(** A query over TCP whose answer starts at [pos] and ends before [max]. *)
Definition mini_query (pos size max : Z) : query :=
  mkquery (mksockaddr false [127; 0; 0; 1] 53) max 0 edns_init_record
    (tsig_init_record sample_tsig None None) false false false true
    (mkbuffer pos size size (replicate (Z.to_nat size) 0) false) None TYPE_MX CLASS_IN None None None
    0 0 [] (replicate 8 0) 8 0 false None None None 0 None.

Lemma mini_numbered : numbered mini_db mini_nm.
Proof.
  intros p a Ha. unfold domain_at, points_to in Ha. destruct (domains mini_db !! p) as [d|] eqn:E; [|done].
  injection Ha as <-. unfold mini_db in E. cbn [domains] in E. apply elem_of_list_to_map_2 in E.
  apply list_elem_of_fmap in E as (n & [= -> ->] & Hn). cbn [number domain_dname mini_domain].
  split; [|done]. apply (bool_decide_unpack _).
  each Hn ltac:(by vm_compute).
Qed.

Lemma mini_ready pos size max : QHEADERSZ <= pos <= size -> pos <= max <= 65535 -> size < 2 ^ 62 ->
  ready mini_db mini_nm (mini_query pos size max) (packet (mini_query pos size max)) [] (replicate 8 0).
Proof.
  intros [Hp Hs] Hr Hsz. unfold QHEADERSZ in Hp. split.
  - split; cbn; [lia|lia| |apply Forall_replicate; by unfold byte|done].
    unfold zlength. rewrite length_replicate. lia.
  - exact Hp.
  - intros n Hn Hz _. destruct Hz. unfold zget. destruct (replicate 8 0 !! Z.to_nat n) as [x|] eqn:E; [|done].
    by apply lookup_replicate in E as [-> _].
  - intros p Hp'. by apply elem_of_nil in Hp'.
  - unfold room, mini_query. cbn. rewrite u64_small; lia.
Qed.

Lemma mini_at n : n ∈ [1; 2; 3; 4] -> domain_at mini_db n = Ok (mini_domain n).
Proof.
  intros Hn. each Hn ltac:(by vm_compute).
Qed.

Lemma mini_encodable n : n ∈ [1; 2; 3; 4] -> encodable mini_db mini_nm (replicate 8 0) n.
Proof.
  assert (H1 : encodable mini_db mini_nm (replicate 8 0) 1).
  { eapply encodable_root; [by apply mini_at; left|done|done]. }
  assert (Hstep : forall n, n ∈ [2; 3; 4] -> encodable mini_db mini_nm (replicate 8 0) (n - 1) ->
    encodable mini_db mini_nm (replicate 8 0) n).
  { intros m Hm He. eapply encodable_step with (l := hd [] (mini_nm m));
      [apply mini_at; set_solver| |apply (bool_decide_unpack _)|apply mini_at| |exact He];
      each Hm ltac:(first [done|by vm_compute|listed]). }
  assert (H2 : encodable mini_db mini_nm (replicate 8 0) 2) by (apply Hstep; [listed|exact H1]).
  assert (H3 : encodable mini_db mini_nm (replicate 8 0) 3) by (apply Hstep; [listed|exact H2]).
  assert (H4 : encodable mini_db mini_nm (replicate 8 0) 4) by (apply Hstep; [listed|exact H3]).
  intros Hn. each Hn ltac:(done).
Qed.

Lemma mini_rr_ok r : r ∈ [mini_rr; mini_rr2] ->
  exists sz, rr_ok mini_db mini_nm (replicate 8 0) 2 r sz /\ sz <= 22.
Proof.
  intros Hr. assert (exists data n, n ∈ [3; 4] /\ rdatas r = [Atom_data data; Atom_domain n] /\
    rr_type r = TYPE_MX /\ zlength data = 2 /\ Forall byte data) as (data & n & Hn & Hrd & Hty & Hdl & Hdb).
  { apply elem_of_cons in Hr as [->|Hr%list_elem_of_singleton]; [exists [0; 10], 4|subst; exists [0; 20], 3];
      (split_and!; [listed|done|done|done|by repeat constructor]). }
  assert (Hn' : n ∈ [1; 2; 3; 4]) by (clear -Hn; each Hn ltac:(listed)).
  eexists. split.
  - exists (mini_domain 2). eexists. split_and!; [apply mini_at; listed|apply mini_encodable; listed| |done].
    rewrite Hrd, Hty. eapply rdata_ok_data; [by vm_compute|done|done|done|].
    eapply rdata_ok_compressed; [by vm_compute|by apply mini_at|by apply mini_encodable|constructor].
  - rewrite Hdl. each Hn ltac:(by vm_compute).
Qed.

Lemma packet_encode_rr_witness :
  exists b' dn' offs',
    packet_encode_rr mini_db 2 mini_rr 3600 (mini_query 12 600 512) = Ok (true, upd (mini_query 12 600 512) b' dn' offs') /\
    rr_at mini_db mini_nm (_data b') 12 (_position b') 2 mini_rr 3600.
Proof.
  destruct (mini_rr_ok mini_rr) as (sz & Hok & Hsz); [by left|].
  destruct (packet_encode_rr_correct mini_db mini_nm (mini_query 12 600 512) 2 mini_rr sz 3600)
    as (ok & b' & dn' & offs' & E & Hpost & _).
  - exact mini_numbered.
  - apply mini_ready; done.
  - exact Hok.
  - cbn. lia.
  - exists b', dn', offs'. destruct ok.
    + split; [exact E|]. exact (proj1 Hpost).
    + exfalso. destruct Hpost as (_ & _ & _ & Hroom). revert Hroom. unfold room. cbn.
      change (u64 (512 - 0)) with 512. lia.
Defined.

Lemma mini_entry : entry_ok mini_db mini_nm (mini_query 12 600 512) (packet (mini_query 12 600 512))
  (replicate 8 0) (mkentry ANSWER_SECTION 2 1).
Proof.
  exists (mkrrset 1 [mini_rr; mini_rr2]), []. split_and!; try done.
  - repeat constructor.
    + destruct (mini_rr_ok mini_rr) as (sz & Hok & Hsz); [by left|]. exists sz. split; [exact Hok|].
      unfold room. cbn. change (u64 (512 - 0)) with 512. lia.
    + destruct (mini_rr_ok mini_rr2) as (sz & Hok & Hsz); [by right; left|]. exists sz. split; [exact Hok|].
      unfold room. cbn. change (u64 (512 - 0)) with 512. lia.
  - intros l Hl. vm_compute in Hl. injection Hl as <-. constructor.
Qed.


(** What is in the packet: two records in the answer section. *)
Example encode_answer_bytes :
  match encode_answer mini_db false [mkentry ANSWER_SECTION 2 1] 0 (mini_query 12 600 512) with
  | Ok (_, q) => Some (take 49 (_data (packet q)), _position (packet q))
  | _ => None
  end = Some ([0; 0; 0; 0; 0; 0; 0; 2; 0; 0; 0; 0] ++
              [1; 99; 0; 0; 15; 0; 1; 0; 0; 14; 16; 0; 8; 0; 10; 1; 97; 1; 98; 192; 12] ++
              [192; 12; 0; 15; 0; 1; 0; 0; 14; 16; 0; 4; 0; 20; 192; 29], 49).
Proof. vm_compute. reflexivity. Qed.


Lemma answer_add_rrset_witness :
  exists a' v, answer_add_rrset mini_db [mkentry ADDITIONAL_A_SECTION 2 1] ANSWER_SECTION 2 1 = Ok (a', v) /\
    NoDup (entry_key mini_db <$> a').
Proof.
  destruct (answer_add_rrset_correct mini_db [mkentry ADDITIONAL_A_SECTION 2 1] ANSWER_SECTION 2 1 (mini_domain 2))
    as (a' & v & E & Hnd & _).
  - apply mini_at. listed.
  - done.
  - constructor; [|constructor]. exists (mini_domain 2). apply mini_at. listed.
  - apply NoDup_singleton.
  - done.
  - exists a', v. split; [exact E|exact Hnd].
Defined.

