(* ===== verification/Acl.v ===== *)
(** Model of access control lists (src/options.h, src/options.c): the elements
    as the configuration parser makes them, address ranges, keys, and the
    check of an incoming query.  The build modelled has INET6. *)

From S2P Require Import Prelude Buffer Dname Dns Packet Namedb Edns Tsig Query.

Inductive acl_range := acl_range_single | acl_range_mask | acl_range_subnet | acl_range_minmax.
#[export] Instance acl_range_eq_dec : EqDecision acl_range.
Proof. solve_decision. Defined.

(** [key_algorithm] is the configured name, [key_tsig] the key when it has
    been set up. *)
Record key_options := mkkeyoptions {
  key_algorithm : list Z;
  key_tsig : option tsig_key;
}.

(** Addresses are the sixteen bytes of the union in network order, of which
    an IPv4 address uses the first four; strings are without the final zero.
    [acl_port] is the host-order port, 0 for any. *)
Record acl_options := mkacl {
  use_axfr_only : bool;
  allow_udp : bool;
  ip_address_spec : list Z;
  is_ipv6 : bool;
  acl_port : Z;
  acl_addr : list Z;
  range_mask : list Z;
  rangetype : acl_range;
  nokey : bool;
  blocked : bool;
  acl_key_name : option (list Z);
  acl_key_options : option key_options;
}.

Definition acl_equal (p q : acl_options) : bool :=
  if negb (eqb (use_axfr_only p) (use_axfr_only q)) then false else
  if negb (eqb (allow_udp p) (allow_udp q)) then false else
  if negb (bool_decide (ip_address_spec p = ip_address_spec q)) then false else
  if negb (eqb (nokey p) (nokey q)) then false else
  if negb (eqb (blocked p) (blocked q)) then false else
  match acl_key_name p, acl_key_name q with
  | Some k, Some l => bool_decide (k = l)
  | Some _, None => false
  | None, Some _ => false
  | None, None => true
  end.

Fixpoint acl_list_equal (p q : list acl_options) : bool :=
  match p, q with
  | a :: p, b :: q => if negb (acl_equal a b) then false else acl_list_equal p q
  | [], [] => true
  | _, _ => false
  end.

(** * Addresses

    [uint32_t*] into an address: words in the byte order of the host. *)
Section words.
Context (big_endian : bool).

Definition host_word (p : list Z) (i : Z) : Z :=
  let b k := zget p (4 * i + k) in
  if big_endian then b 0 * 2 ^ 24 + b 1 * 2 ^ 16 + b 2 * 2 ^ 8 + b 3
  else b 3 * 2 ^ 24 + b 2 * 2 ^ 16 + b 1 * 2 ^ 8 + b 0.

(** The comparison from word [i] on, [n] of them. *)
Fixpoint match_mask_from (a b mask : list Z) (i : Z) (n : nat) : bool :=
  match n with
  | O => true
  | S n =>
      if negb (Z.land (host_word a i) (host_word mask i) =? Z.land (host_word b i) (host_word mask i))
      then false else match_mask_from a b mask (i + 1) n
  end.
Definition acl_addr_match_mask (a b mask : list Z) (sz : Z) : res bool :=
  rassert (sz mod 4 =? 0);;
  mret (match_mask_from a b mask 0 (Z.to_nat (sz / 4))).

Fixpoint match_range_from (minval x maxval : list Z) (checkmin checkmax : bool) (i : Z) (n : nat) :
    bool :=
  match n with
  | O => true
  | S n =>
      if checkmin && (host_word x i <? host_word minval i) then false else
      if checkmax && (host_word maxval i <? host_word x i) then false else
      let checkmin := checkmin && (host_word minval i =? host_word x i) in
      let checkmax := checkmax && (host_word maxval i =? host_word x i) in
      if negb checkmin && negb checkmax then true
      else match_range_from minval x maxval checkmin checkmax (i + 1) n
  end.
Definition acl_addr_match_range (minval x maxval : list Z) (sz : Z) : res bool :=
  rassert (sz mod 4 =? 0);;
  mret (match_range_from minval x maxval true true 0 (Z.to_nat (sz / 4))).

(** The common body of [acl_addr_matches_ipv4host] and [..._ipv6host]. *)
Definition matches_address (acl : acl_options) (addr : list Z) (port sz : Z) : res bool :=
  if negb (acl_port acl =? 0) && negb (acl_port acl =? port) then mret false else
  match rangetype acl with
  | acl_range_mask | acl_range_subnet => acl_addr_match_mask (acl_addr acl) addr (range_mask acl) sz
  | acl_range_minmax => acl_addr_match_range (acl_addr acl) addr (range_mask acl) sz
  | acl_range_single =>
      mret (bool_decide (take (Z.to_nat sz) addr = take (Z.to_nat sz) (acl_addr acl)))
  end.
Definition acl_addr_matches_ipv6host (acl : acl_options) (addr : list Z) (port : Z) : res bool :=
  matches_address acl addr port 16.
Definition acl_addr_matches_ipv4host (acl : acl_options) (addr : list Z) (port : Z) : res bool :=
  matches_address acl addr port 4.

Definition acl_addr_matches_host (acl host : acl_options) : res bool :=
  if is_ipv6 acl then
    if negb (is_ipv6 host) then mret false
    else acl_addr_matches_ipv6host acl (acl_addr host) (acl_port host)
  else
    if is_ipv6 host then mret false
    else acl_addr_matches_ipv4host acl (acl_addr host) (acl_port host).

Section check.
Context `{T : NameTree} `{H : Hmac}.

Definition acl_addr_matches (acl : acl_options) (q : query) : res bool :=
  if is_ipv6 acl then
    if negb (sa_inet6 (addr q)) then mret false
    else acl_addr_matches_ipv6host acl (sa_addr (addr q)) (sa_port (addr q))
  else
    if sa_inet6 (addr q) then mret false
    else acl_addr_matches_ipv4host acl (sa_addr (addr q)) (sa_port (addr q)).

(** * Keys *)
Definition acl_key_matches (acl : acl_options) (q : query) : res bool :=
  if blocked acl then mret true else
  if nokey acl then mret (bool_decide (ts_status (tsig q) = TSIG_NOT_PRESENT)) else
  if negb (bool_decide (ts_status (tsig q) = TSIG_OK)) then mret false else
  if negb (error_code (tsig q) =? TSIG_ERROR_NOERROR) then mret false else
  opt ← points_to (acl_key_options acl);
  match key_tsig opt with
  | None => mret false
  | Some key =>
      qkey ← points_to (key_name (tsig q));
      c ← dname_compare qkey (tk_name key);
      if negb (c =? 0) then mret false else
      alg ← points_to (ts_algorithm (tsig q));
      if negb (tsig_strlowercmp (short_name alg) (key_algorithm opt) =? 0) &&
         (negb (bool_decide (take 5 (short_name alg) = str "hmac-")) ||
          negb (tsig_strlowercmp (drop 5 (short_name alg)) (key_algorithm opt) =? 0))
      then mret false else mret true
  end.

(** * The check

    The loop from element [number] on; [match_] is the first match so far.
    The value is [-1] or the number, with the reason. *)
Fixpoint check_from (l : list acl_options) (q : query) (number found_match : Z)
    (match_ : option acl_options) : res (Z * option acl_options) :=
  match l with
  | [] => mret (found_match, match_)
  | acl :: l =>
      m ← acl_addr_matches acl q;
      m ← (if (m : bool) then acl_key_matches acl q else mret false);
      if (m : bool) then
        let '(match_, found_match) :=
          match match_ with None => (Some acl, number) | Some _ => (match_, found_match) end in
        if blocked acl then mret (-1, Some acl)
        else check_from l q (number + 1) found_match match_
      else check_from l q (number + 1) found_match match_
  end.
Definition acl_check_incoming (acl : list acl_options) (q : query) : res (Z * option acl_options) :=
  check_from acl q 0 (-1) None.
End check.
End words.

Definition acl_same_host (a b : acl_options) : bool :=
  let sz := if is_ipv6 a then 16%nat else 4%nat in
  if is_ipv6 a && negb (is_ipv6 b) then false else
  if negb (is_ipv6 a) && is_ipv6 b then false else
  if negb (acl_port a =? acl_port b) then false else
  if negb (bool_decide (rangetype a = rangetype b)) then false else
  if negb (bool_decide (take sz (acl_addr a) = take sz (acl_addr b))) then false else
  if negb (bool_decide (rangetype a = acl_range_single)) &&
     negb (bool_decide (take sz (range_mask a) = take sz (range_mask b))) then false else
  true.

(** The element [count] places on. *)
Fixpoint acl_find_from (acl : list acl_options) (count : Z) : option acl_options :=
  match acl with
  | [] => None
  | a :: acl => if count =? 0 then Some a else acl_find_from acl (count - 1)
  end.
Definition acl_find_num (acl : list acl_options) (num : Z) : option acl_options :=
  if num <? 0 then None else acl_find_from acl num.

(** * Parsing *)
Fixpoint parse_acl_is_ipv6 (p : list Z) : bool :=
  match p with
  | [] => false
  | c :: p => if c =? 46 then false else if c =? 58 then true else parse_acl_is_ipv6 p
  end.

(** [strchr] and the two strings that remain when a zero is stored there. *)
Fixpoint split_at (c : Z) (s : list Z) : option (list Z * list Z) :=
  match s with
  | [] => None
  | x :: s => if x =? c then Some ([], s)
              else match split_at c s with Some (l, r) => Some (x :: l, r) | None => None end
  end.
(** The same at the last occurrence ([strrchr]). *)
Definition split_at_last (c : Z) (s : list Z) : option (list Z * list Z) :=
  match split_at c (reverse s) with Some (l, r) => Some (reverse r, reverse l) | None => None end.

(** The range type, the text before the separator and the text after it. *)
Definition parse_acl_range_type (ip : list Z) : acl_range * list Z * option (list Z) :=
  match split_at 38 ip with
  | Some (l, r) => (acl_range_mask, l, Some r)
  | None =>
      match split_at 47 ip with
      | Some (l, r) => (acl_range_subnet, l, Some r)
      | None =>
          match split_at 45 ip with
          | Some (l, r) => (acl_range_minmax, l, Some r)
          | None => (acl_range_single, ip, None)
          end
      end
  end.

(** [atoi] of the C library, for values in the range of [int]. *)
Fixpoint atoi_digits (s : list Z) (n : Z) : Z :=
  match s with
  | c :: s => if (48 <=? c) && (c <=? 57) then atoi_digits s (10 * n + (c - 48)) else n
  | [] => n
  end.
Fixpoint atoi (s : list Z) : Z :=
  match s with
  | c :: s' =>
      if (c =? 32) || ((9 <=? c) && (c <=? 13)) then atoi s'
      else if c =? 45 then - atoi_digits s' 0
      else if c =? 43 then atoi_digits s' 0
      else atoi_digits s 0
  | [] => 0
  end.

(** The mask; an error leaves the zeroes there were. *)
Fixpoint fill_subnet (subnet_bits : Z) (addr_bytes : list Z) : list Z :=
  match addr_bytes with
  | [] => []
  | a :: rest =>
      if 8 <=? subnet_bits then 255 :: fill_subnet (subnet_bits - 8) rest
      else if 0 <? subnet_bits then zget [0x0; 0x80; 0xc0; 0xe0; 0xf0; 0xf8; 0xfc; 0xfe; 0xff] subnet_bits :: rest
      else a :: rest
  end.
Definition parse_acl_range_subnet (p : list Z) (addr : list Z) (maxbits : Z) : option (list Z) :=
  let subnet_bits := atoi p in
  if (subnet_bits =? 0) && negb (bool_decide (p = str "0")) then None else
  if (subnet_bits <? 0) || (maxbits <? subnet_bits) then None else
  Some (fill_subnet subnet_bits addr).

(** [inet_pton] of the C library: the bytes of an address, IPv6 when the first
    argument is true. *)
Section parse.
Context (inet_pton : bool -> list Z -> option (list Z)).

(** Stores an address in the zeroed union; the number of errors reported. *)
Definition pton_into (six : bool) (text : list Z) : list Z * Z :=
  match inet_pton six text with
  | Some bytes => (bytes ++ replicate (16 - length bytes) 0, 0)
  | None => (replicate 16 0, 1)
  end.

(** The element and the number of errors reported by the parser. *)
Definition parse_acl_info (ip key : list Z) : acl_options * Z :=
  let '(port, text, e1) :=
    match split_at_last 64 ip with
    | Some (l, r) => if atoi r =? 0 then (0, l, 1) else (u32 (atoi r), l, 0)
    | None => (0, ip, 0)
    end in
  let '(type, text, p) := parse_acl_range_type text in
  let six := parse_acl_is_ipv6 text in
  let '(addr, e2) := pton_into six text in
  let '(mask, e3) :=
    match type, p with
    | (acl_range_mask | acl_range_minmax), Some p => pton_into six p
    | acl_range_subnet, Some p =>
        match parse_acl_range_subnet p (replicate 16 0) (if six then 128 else 32) with
        | Some mask => (mask, 0)
        | None => (replicate 16 0, 1)
        end
    | _, _ => (replicate 16 0, 0)
    end in
  let nokey := bool_decide (key = str "NOKEY") in
  let blocked := negb nokey && bool_decide (key = str "BLOCKED") in
  (mkacl false false ip six port addr mask type nokey blocked
     (if nokey || blocked then None else Some key) None, e1 + e2 + e3).
End parse.
