(* ===== verification/AclProofs.v ===== *)
(** Theorems about access control lists (Acl.v). *)

From S2P Require Import Prelude Buffer Dname DnameProofs Dns Packet Namedb NamedbTable Edns Tsig TsigProofs Query QuerySamples Acl.

(** * Masks *)

(** An address of the union. *)
Definition address (p : list Z) : Prop := Forall byte p /\ zlength p = 16.

Lemma land_small b d n : 0 <= n -> 0 <= b < 2 ^ n -> 0 <= Z.land b d < 2 ^ n.
Proof.
  intros Hn Hb. rewrite <-(Z.mod_small b (2 ^ n)), <-land_ones_mod by lia.
  rewrite <-Z.land_assoc, (Z.land_comm _ d), Z.land_assoc, land_ones_mod by lia.
  apply Z.mod_pos_bound. lia.
Qed.

Lemma land_add a b c d n : 0 <= n -> 0 <= b < 2 ^ n -> 0 <= d < 2 ^ n ->
  Z.land (a * 2 ^ n + b) (c * 2 ^ n + d) = Z.land a c * 2 ^ n + Z.land b d.
Proof.
  intros Hn Hb Hd. rewrite <-!lor_shiftl_add by (try apply land_small; lia).
  apply Z.bits_inj'. intros i Hi. rewrite !Z.land_spec, !Z.lor_spec.
  destruct (decide (i < n)).
  - rewrite !Z.shiftl_spec_low by lia. by rewrite Z.land_spec.
  - rewrite !Z.shiftl_spec, !Z.land_spec by lia.
    assert (Hhigh : forall x, 0 <= x < 2 ^ n -> Z.testbit x i = false).
    { intros x Hx. destruct (decide (x = 0)) as [->|]; [apply Z.bits_0|]. apply Z.bits_above_log2; [lia|].
      apply Z.log2_lt_pow2; [lia|]. eapply Z.lt_le_trans; [apply Hx|]. apply Z.pow_le_mono_r; lia. }
    rewrite (Hhigh b), (Hhigh d) by done. by rewrite !orb_false_r.
Qed.

Definition word4 (w x y z : Z) : Z := ((w * 2 ^ 8 + x) * 2 ^ 8 + y) * 2 ^ 8 + z.

Lemma host_word_eq be p i : host_word be p i =
  if be then word4 (zget p (4 * i)) (zget p (4 * i + 1)) (zget p (4 * i + 2)) (zget p (4 * i + 3))
  else word4 (zget p (4 * i + 3)) (zget p (4 * i + 2)) (zget p (4 * i + 1)) (zget p (4 * i)).
Proof.
  unfold host_word, word4. rewrite Z.add_0_r.
  change (2 ^ 24) with (2 ^ 8 * 2 ^ 8 * 2 ^ 8). change (2 ^ 16) with (2 ^ 8 * 2 ^ 8).
  destruct be; lia.
Qed.

Lemma land_word4 w x y z w' x' y' z' :
  byte x -> byte y -> byte z -> byte x' -> byte y' -> byte z' ->
  Z.land (word4 w x y z) (word4 w' x' y' z') =
  word4 (Z.land w w') (Z.land x x') (Z.land y y') (Z.land z z').
Proof.
  unfold byte, word4. change 256 with (2 ^ 8). intros. by rewrite !land_add by lia.
Qed.

Lemma word4_inj w x y z w' x' y' z' :
  byte x -> byte y -> byte z -> byte x' -> byte y' -> byte z' ->
  word4 w x y z = word4 w' x' y' z' <-> w = w' /\ x = x' /\ y = y' /\ z = z'.
Proof. unfold byte, word4. change (2 ^ 8) with 256. lia. Qed.

Lemma land_byte x y : byte x -> byte (Z.land x y).
Proof. apply (land_small x y 8). lia. Qed.

(** The bytes [4 i .. 4 i + 3] agree under the mask. *)
Definition masked (a b mask : list Z) (j : Z) : Prop :=
  Z.land (zget a j) (zget mask j) = Z.land (zget b j) (zget mask j).

Lemma word_masked be a b mask i : Forall byte a -> Forall byte b -> Forall byte mask ->
  Z.land (host_word be a i) (host_word be mask i) = Z.land (host_word be b i) (host_word be mask i) <->
  forall j, 4 * i <= j < 4 * i + 4 -> masked a b mask j.
Proof.
  intros Ha Hb Hm. rewrite !host_word_eq.
  assert (Hall : (forall j, 4 * i <= j < 4 * i + 4 -> masked a b mask j) <->
    masked a b mask (4 * i) /\ masked a b mask (4 * i + 1) /\ masked a b mask (4 * i + 2) /\
    masked a b mask (4 * i + 3)).
  { split; [intros Hj; split_and!; apply Hj; lia|]. intros (H0 & H1 & H2 & H3) j Hj.
    assert (j = 4 * i \/ j = 4 * i + 1 \/ j = 4 * i + 2 \/ j = 4 * i + 3) as [->|[->|[->| ->]]] by lia; done. }
  rewrite Hall. unfold masked.
  destruct be; rewrite !land_word4, word4_inj by (try apply land_byte; by apply zget_byte); tauto.
Qed.

Lemma match_mask_spec be a b mask n : Forall byte a -> Forall byte b -> Forall byte mask -> forall i,
  match_mask_from be a b mask i n = true <->
  forall j, 4 * i <= j < 4 * (i + Z.of_nat n) -> masked a b mask j.
Proof.
  intros Ha Hb Hm. induction n as [|n IH]; intros i; cbn [match_mask_from].
  { split; [intros _ j Hj; lia|done]. }
  destruct (_ =? _) eqn:E; bool_simpl; cbn [negb].
  - rewrite IH. pose proof (proj1 (word_masked be a b mask i Ha Hb Hm) E) as Hw. split.
    + intros Hj j Hr. destruct (decide (j < 4 * i + 4)); [apply Hw|apply Hj]; lia.
    + intros Hj j Hr. apply Hj. lia.
  - split; [done|]. intros Hj. destruct E. apply word_masked; [done..|]. intros j Hr. apply Hj. lia.
Qed.

(** ** A subnet *)

(** Bit [k] of an address, the first bit being number 0. *)
Definition address_bit (p : list Z) (k : Z) : bool := Z.testbit (zget p (k / 8)) (7 - k mod 8).

(** A byte of the mask that the parser fills. *)
Definition subnet_byte (n : Z) : Z :=
  if 8 <=? n then 255 else if 0 <? n then zget [0x0; 0x80; 0xc0; 0xe0; 0xf0; 0xf8; 0xfc; 0xfe; 0xff] n else 0.

Lemma fill_subnet_get m : forall n i, 0 <= i < Z.of_nat m ->
  zget (fill_subnet n (replicate m 0)) i = subnet_byte (n - 8 * i).
Proof.
  induction m as [|m IH]; intros n i Hi; [lia|]. cbn [replicate fill_subnet]. unfold subnet_byte.
  destruct (decide (i = 0)) as [->|Hne].
  - rewrite Z.sub_0_r. destruct (8 <=? n); [done|]. by destruct (0 <? n).
  - assert (Htail : forall x l, zget (x :: l) i = zget l (i - 1)) by (intros; apply zget_cons; lia).
    destruct (Z.leb_spec 8 n).
    + rewrite Htail, IH by lia. unfold subnet_byte. by replace (n - 8 - 8 * (i - 1)) with (n - 8 * i) by lia.
    + rewrite (proj2 (Z.leb_gt 8 (n - 8 * i))), (proj2 (Z.ltb_ge 0 (n - 8 * i))) by lia.
      assert (Hz : zget (replicate m 0) (i - 1) = 0).
      { unfold zget. rewrite lookup_replicate_2 by lia. done. }
      destruct (0 <? n); by rewrite Htail.
Qed.

Lemma subnet_byte_bit n j : 0 <= j < 8 -> Z.testbit (subnet_byte n) (7 - j) = (j <? n).
Proof.
  intros Hj. unfold subnet_byte.
  destruct (Z.leb_spec 8 n).
  { rewrite (proj2 (Z.ltb_lt j n)) by lia. change 255 with (Z.ones 8). apply Z.ones_spec_low. lia. }
  destruct (Z.ltb_spec 0 n).
  - assert (Hall : forallb (fun n => forallb (fun j => eqb (Z.testbit (zget
        [0x0; 0x80; 0xc0; 0xe0; 0xf0; 0xf8; 0xfc; 0xfe; 0xff] n) (7 - j)) (j <? n)) (seqZ 0 8)) (seqZ 0 8) = true)
      by by vm_compute.
    rewrite forallb_forall in Hall. specialize (Hall n). rewrite forallb_forall in Hall.
    apply eqb_prop, Hall; apply list_elem_of_In, elem_of_seqZ; lia.
  - rewrite Z.bits_0. symmetry. apply Z.ltb_ge. lia.
Qed.

Lemma subnet_byte_byte n : byte (subnet_byte n).
Proof.
  unfold subnet_byte. destruct (8 <=? n); [done|]. destruct (0 <? n); [|done].
  apply zget_byte. repeat constructor; done.
Qed.

Lemma fill_subnet_bytes m : forall n, Forall byte (fill_subnet n (replicate m 0)).
Proof.
  induction m as [|m IH]; intros n; cbn [replicate fill_subnet]; [constructor|].
  assert (Forall byte (replicate m 0)) by (by apply Forall_replicate).
  destruct (8 <=? n) eqn:E8; [by constructor|]. destruct (0 <? n) eqn:E0; [|by constructor].
  constructor; [|done]. pose proof (subnet_byte_byte n) as Hb. unfold subnet_byte in Hb. by rewrite E8, E0 in Hb.
Qed.

(** Bytes that agree under a mask byte agree on its bits. *)
Lemma masked_bits a b n j : byte a -> byte b ->
  Z.land a (subnet_byte n) = Z.land b (subnet_byte n) ->
  0 <= j < 8 -> j < n -> Z.testbit a (7 - j) = Z.testbit b (7 - j).
Proof.
  intros Ha Hb E Hj Hn. apply (f_equal (fun x => Z.testbit x (7 - j))) in E.
  rewrite !Z.land_spec, !subnet_byte_bit, (proj2 (Z.ltb_lt j n)), !andb_true_r in E by done. done.
Qed.

Lemma bits_masked a b n : byte a -> byte b ->
  (forall j, 0 <= j < 8 -> j < n -> Z.testbit a (7 - j) = Z.testbit b (7 - j)) ->
  Z.land a (subnet_byte n) = Z.land b (subnet_byte n).
Proof.
  intros Ha Hb Hj. apply Z.bits_inj'. intros i Hi. rewrite !Z.land_spec.
  destruct (decide (i < 8)) as [Hlt|Hge].
  - replace i with (7 - (7 - i)) by lia. rewrite subnet_byte_bit by lia.
    destruct (Z.ltb_spec (7 - i) n); [by rewrite !andb_true_r, Hj by lia|by rewrite !andb_false_r].
  - assert (Hhigh : forall x, byte x -> Z.testbit x i = false).
    { intros x Hx. unfold byte in Hx. destruct (decide (x = 0)) as [->|]; [apply Z.bits_0|].
      apply Z.bits_above_log2; [lia|]. apply Z.log2_lt_pow2; [lia|].
      eapply Z.lt_le_trans; [apply Hx|]. change 256 with (2 ^ 8). apply Z.pow_le_mono_r; lia. }
    by rewrite (Hhigh a), (Hhigh b).
Qed.

Lemma subnet_match be a b n m : address a -> address b -> (m <= 16)%nat -> 0 <= n <= 8 * Z.of_nat m ->
  (m mod 4 = 0)%nat ->
  match_mask_from be a b (fill_subnet n (replicate 16 0)) 0 (m / 4) = true <->
  forall k, 0 <= k < n -> address_bit a k = address_bit b k.
Proof.
  intros [Ha Hal] [Hb Hbl] Hm Hn Hdiv.
  rewrite match_mask_spec by (done || apply fill_subnet_bytes).
  assert (Hm4 : 4 * (0 + Z.of_nat (m / 4)) = Z.of_nat m).
  { pose proof (Nat.div_mod_eq m 4). lia. }
  rewrite Hm4, Z.mul_0_r. unfold masked, address_bit. split.
  - intros Hj k Hk. assert (Hk8 : 0 <= k / 8 < Z.of_nat m) by dlia.
    specialize (Hj (k / 8) Hk8). rewrite !fill_subnet_get in Hj by lia.
    eapply masked_bits; [by apply zget_byte|by apply zget_byte|exact Hj|dlia|dlia].
  - intros Hk j Hj. rewrite fill_subnet_get by lia.
    apply bits_masked; [by apply zget_byte|by apply zget_byte|].
    intros i Hi Hin. specialize (Hk (8 * j + i) ltac:(lia)).
    replace ((8 * j + i) / 8) with j in Hk by dlia. by replace ((8 * j + i) mod 8) with i in Hk by dlia.
Qed.

(** C33 (acl_addr_match_mask, parse_acl_range_subnet): whatever the byte order
    of the host, an address matches an element with a mask exactly when the
    two agree on every bit of the mask; and for the mask the parser makes of
    "/n", exactly when they agree on their first n bits. *)
Theorem acl_subnet_correct (be : bool) (a x mask : list Z) (sz : Z) :
  address a -> address x -> address mask -> sz = 4 \/ sz = 16 ->
  (exists r, acl_addr_match_mask be a x mask sz = Ok r /\
     (r = true <-> forall j, 0 <= j < sz -> masked a x mask j)) /\
  forall p, parse_acl_range_subnet p (replicate 16 0) (8 * sz) = Some mask ->
    0 <= atoi p <= 8 * sz /\
    exists r, acl_addr_match_mask be a x mask sz = Ok r /\
      (r = true <-> forall k, 0 <= k < atoi p -> address_bit a k = address_bit x k).
Proof.
  intros Ha Hx Hm Hsz. unfold acl_addr_match_mask.
  replace (sz mod 4 =? 0) with true by (destruct Hsz as [-> | ->]; done). cbn [rassert mbind res_bind].
  assert (Hnat : Z.to_nat (sz / 4) = (Z.to_nat sz / 4)%nat) by (destruct Hsz as [-> | ->]; done).
  split.
  - eexists. split; [done|]. rewrite match_mask_spec by (apply Ha || apply Hx || apply Hm).
    destruct Hsz as [-> | ->]; done.
  - intros p Hp. unfold parse_acl_range_subnet in Hp.
    destruct (_ && _); [done|]. destruct (_ || _) eqn:E; [done|]. bool_simpl. injection Hp as <-.
    split; [lia|]. eexists. split; [done|]. rewrite Hnat.
    apply subnet_match; [done|done|destruct Hsz as [-> | ->]; cbn; lia|lia|destruct Hsz as [-> | ->]; done].
Qed.

Lemma acl_subnet_witness :
  let a := [10; 20; 48; 0] ++ replicate 12 0 in
  let x := [10; 20; 63; 9] ++ replicate 12 0 in
  exists r, acl_addr_match_mask false a x ([255; 255; 240; 0] ++ replicate 12 0) 4 = Ok r /\
    (r = true <-> forall k, 0 <= k < atoi (str "20") -> address_bit a k = address_bit x k).
Proof.
  intros a x.
  destruct (acl_subnet_correct false a x ([255; 255; 240; 0] ++ replicate 12 0) 4) as [_ Hs];
    [split; [by apply (bool_decide_unpack _)|done]..|by left|].
  exact (proj2 (Hs (str "20") eq_refl)).
Defined.

(** * Ranges of addresses *)

Definition words (be : bool) (p : list Z) (i : Z) (n : nat) : list Z := host_word be p <$> seqZ i (Z.of_nat n).

Lemma words_S be p i n : words be p i (S n) = host_word be p i :: words be p (i + 1) n.
Proof. unfold words. rewrite seqZ_cons by lia. cbn. do 3 f_equal; lia. Qed.

(** One bound, one word: what is left to check. *)
Lemma bound_step (check : bool) l r L :
  (check = true -> (if l - r =? 0 then L else l - r) <= 0) <->
  check && (r <? l) = false /\ (check && (l =? r) = true -> L <= 0).
Proof.
  destruct check; cbn [andb]; [|split; [done|done]].
  destruct (Z.ltb_spec r l), (Z.eqb_spec l r), (Z.eqb_spec (l - r) 0); try lia.
Qed.

Lemma match_range_spec be minval x maxval n : forall i checkmin checkmax,
  checkmin || checkmax = true ->
  match_range_from be minval x maxval checkmin checkmax i n = true <->
  (checkmin = true -> lex Z.sub (words be minval i n) (words be x i n) <= 0) /\
  (checkmax = true -> lex Z.sub (words be x i n) (words be maxval i n) <= 0).
Proof.
  induction n as [|n IH]; intros i checkmin checkmax Hc; [done|].
  cbn [match_range_from]. rewrite !words_S. cbn [lex]. rewrite !bound_step.
  rewrite (Z.eqb_sym (host_word be x i) (host_word be maxval i)).
  destruct (checkmin && (host_word be x i <? host_word be minval i)); [split; [done|by intros [[? _] _]]|].
  destruct (checkmax && (host_word be maxval i <? host_word be x i)); [split; [done|by intros [_ [? _]]]|].
  set (cmin := checkmin && (host_word be minval i =? host_word be x i)).
  set (cmax := checkmax && (host_word be maxval i =? host_word be x i)).
  destruct (cmin || cmax) eqn:E.
  - replace (negb cmin && negb cmax) with false by (by destruct cmin, cmax). rewrite IH by done. tauto.
  - apply orb_false_iff in E as [-> ->]. cbn. split; [by split|done].
Qed.

(** On a big-endian host the words are in the order of the bytes. *)
Lemma lex_words p q n : Forall byte p -> Forall byte q -> forall i, 0 <= i ->
  4 * (i + Z.of_nat n) <= zlength p -> 4 * (i + Z.of_nat n) <= zlength q ->
  let bytes (p : list Z) := zslice p (4 * i) (4 * Z.of_nat n) in
  lex Z.sub (words true p i n) (words true q i n) <= 0 <-> lex Z.sub (bytes p) (bytes q) <= 0.
Proof.
  intros Hp Hq. induction n as [|n IH]; intros i Hi Hlp Hlq bytes; [done|].
  rewrite !words_S. cbn [lex].
  assert (Hb : forall p : list Z, 4 * (i + Z.of_nat (S n)) <= zlength p -> bytes p =
    zget p (4 * i) :: zget p (4 * i + 1) :: zget p (4 * i + 2) :: zget p (4 * i + 3) ::
    zslice p (4 * (i + 1)) (4 * Z.of_nat n)).
  { intros r Hr. unfold bytes, zslice, zlength in *.
    replace (Z.to_nat (4 * Z.of_nat (S n))) with (4 + Z.to_nat (4 * Z.of_nat n))%nat by lia.
    replace (Z.to_nat (4 * (i + 1))) with (Z.to_nat (4 * i) + 4)%nat by lia.
    assert (Hget : forall k, (k < 4)%nat -> r !! (Z.to_nat (4 * i) + k)%nat = Some (zget r (4 * i + Z.of_nat k))).
    { intros k Hk. rewrite <-zget_lookup by (unfold zlength; lia). f_equal. lia. }
    rewrite <-(drop_drop r 4 (Z.to_nat (4 * i))).
    pose proof (Hget 0%nat ltac:(lia)) as G0. pose proof (Hget 1%nat ltac:(lia)) as G1.
    pose proof (Hget 2%nat ltac:(lia)) as G2. pose proof (Hget 3%nat ltac:(lia)) as G3.
    rewrite <-!lookup_drop in G0, G1, G2, G3.
    destruct (drop (Z.to_nat (4 * i)) r) as [|b0 [|b1 [|b2 [|b3 l]]]]; try done.
    injection G0 as ->. injection G1 as ->. injection G2 as ->. injection G3 as ->.
    change (Z.of_nat 0) with 0. change (Z.of_nat 1) with 1. change (Z.of_nat 2) with 2. change (Z.of_nat 3) with 3.
    rewrite Z.add_0_r. done. }
  rewrite !Hb by done. clear bytes Hb. specialize (IH (i + 1) ltac:(lia) ltac:(lia) ltac:(lia)). cbn in IH.
  rewrite !host_word_eq. cbn [lex].
  assert (Hby : forall p j, Forall byte p -> 0 <= zget p j < 256) by (intros; by apply (zget_byte _ _)).
  set (L := lex Z.sub (words true p (i + 1) n) (words true q (i + 1) n)) in *.
  set (R := lex Z.sub (zslice p _ _) (zslice q _ _)) in *.
  pose proof (Hby p (4 * i) Hp). pose proof (Hby p (4 * i + 1) Hp). pose proof (Hby p (4 * i + 2) Hp).
  pose proof (Hby p (4 * i + 3) Hp). pose proof (Hby q (4 * i) Hq). pose proof (Hby q (4 * i + 1) Hq).
  pose proof (Hby q (4 * i + 2) Hq). pose proof (Hby q (4 * i + 3) Hq).
  clear Hby. clearbody L R. unfold word4. change (2 ^ 8) with 256.
  repeat match goal with |- context [?a =? 0] => destruct (Z.eqb_spec a 0) end; lia.
Qed.

(** C34 (acl_addr_match_range): the words of the three addresses are compared
    as one sequence; on a host that stores words with the most significant
    byte first this is the order of the addresses, so an address matches
    exactly when it lies between the bounds. *)
Theorem acl_range_correct (be : bool) (minval x maxval : list Z) (sz : Z) :
  address minval -> address x -> address maxval -> sz = 4 \/ sz = 16 ->
  exists r, acl_addr_match_range be minval x maxval sz = Ok r /\
    let n := Z.to_nat (sz / 4) in
    (r = true <-> lex Z.sub (words be minval 0 n) (words be x 0 n) <= 0 /\
                  lex Z.sub (words be x 0 n) (words be maxval 0 n) <= 0) /\
    (be = true ->
     (r = true <-> lex Z.sub (zslice minval 0 sz) (zslice x 0 sz) <= 0 /\
                   lex Z.sub (zslice x 0 sz) (zslice maxval 0 sz) <= 0)).
Proof.
  intros [Hm Hml] [Hx Hxl] [HM HMl] Hsz. unfold acl_addr_match_range.
  replace (sz mod 4 =? 0) with true by (destruct Hsz as [-> | ->]; done). cbn [rassert mbind res_bind].
  cbn zeta. set (n := Z.to_nat (sz / 4)). eexists. split; [done|].
  assert (Hspec := match_range_spec be minval x maxval n 0 true true eq_refl).
  assert (Hn : 4 * (0 + Z.of_nat n) = sz) by (destruct Hsz as [-> | ->]; done).
  split; [tauto|]. intros ->. rewrite Hspec.
  assert (Hlex : forall p q, Forall byte p -> Forall byte q -> zlength p = 16 -> zlength q = 16 ->
    lex Z.sub (words true p 0 n) (words true q 0 n) <= 0 <-> lex Z.sub (zslice p 0 sz) (zslice q 0 sz) <= 0).
  { intros p q Hp Hq Hpl Hql. rewrite (lex_words p q n Hp Hq 0) by (destruct Hsz; lia).
    cbn beta zeta. by replace (4 * Z.of_nat n) with sz by lia. }
  rewrite !Hlex by done. tauto.
Qed.

Lemma acl_range_witness :
  let a k := [10; 0; 0; k] ++ replicate 12 0 in
  exists r, acl_addr_match_range true (a 2) (a 7) (a 9) 4 = Ok r /\
    (r = true <-> lex Z.sub (zslice (a 2) 0 4) (zslice (a 7) 0 4) <= 0 /\
                  lex Z.sub (zslice (a 7) 0 4) (zslice (a 9) 0 4) <= 0).
Proof.
  intros a.
  destruct (acl_range_correct true (a 2) (a 7) (a 9) 4) as (r & E & _ & Hr);
    [split; [by apply (bool_decide_unpack _)|done]..|by left|].
  exists r. split; [exact E|exact (Hr eq_refl)].
Defined.

(** C34 (acl_addr_match_range, options.c): the words are loaded in the byte
    order of the host although the addresses are in network order.  On a
    little-endian host 10.0.0.5 is not matched by the range
    10.0.0.2-10.0.1.1, and 10.0.1.3 is matched by the range 10.0.0.2-10.0.0.9
    widened only in its last byte. *)
Theorem acl_range_little_endian :
  let a j k := [10; 0; j; k] ++ replicate 12 0 in
  acl_addr_match_range false (a 0 2) (a 0 5) (a 1 1) 4 = Ok false /\
  acl_addr_match_range true (a 0 2) (a 0 5) (a 1 1) 4 = Ok true /\
  acl_addr_match_range false (a 0 2) (a 1 3) (a 0 9) 4 = Ok true /\
  acl_addr_match_range true (a 0 2) (a 1 3) (a 0 9) 4 = Ok false.
Proof. by vm_compute. Qed.

(** * The check of a query *)
Section check.
Context `{T : NameTree} `{H : Hmac} (be : bool) (q : query).

Definition element_matches (acl : acl_options) : res bool :=
  m ← acl_addr_matches be acl q; if (m : bool) then acl_key_matches acl q else mret false.

(** The first element matched, with its number. *)
Fixpoint first_match (test : acl_options -> bool) (l : list acl_options) (number : Z) :
    option (Z * acl_options) :=
  match l with
  | [] => None
  | a :: l => if test a then Some (number, a) else first_match test l (number + 1)
  end.

Definition passes (acl : acl_options) : bool :=
  match element_matches acl with Ok m => m | _ => false end.

Lemma check_from_spec l : forall number found match_,
  Forall (fun a => exists m, element_matches a = Ok m) l ->
  (match match_ with None => found = -1 | Some _ => True end) ->
  check_from be l q number found match_ = Ok
    (match first_match (fun a => passes a && blocked a) l number with
     | Some (_, a) => (-1, Some a)
     | None => match match_ with
               | Some a => (found, Some a)
               | None => match first_match passes l number with
                         | Some (n, a) => (n, Some a)
                         | None => (-1, None)
                         end
               end
     end).
Proof using.
  induction l as [|a l IH]; intros number found match_ Hl Hf; cbn [check_from first_match].
  { destruct match_; [done|by rewrite Hf]. }
  apply Forall_cons in Hl as [[m Hm] Hl]. unfold passes at 1 3. rewrite Hm.
  unfold element_matches in Hm.
  destruct (acl_addr_matches be a q) as [m1| |]; [|done..]. cbn [mbind res_bind] in Hm |- *.
  assert (Hm2 : (if m1 then acl_key_matches a q else mret false) = Ok m) by (destruct m1; exact Hm).
  rewrite Hm2. cbn [mbind res_bind].
  destruct m; cbn [andb].
  - destruct match_ as [a'|]; destruct (blocked a) eqn:Hb; cbn [mret res_ret]; try done; rewrite IH; done.
  - by rewrite IH.
Qed.

Lemma first_match_num test l n a : first_match test l 0 = Some (n, a) ->
  0 <= n /\ acl_find_num l n = Some a /\ test a = true.
Proof using.
  assert (Hgen : forall l k, first_match test l k = Some (n, a) ->
    k <= n /\ acl_find_from l (n - k) = Some a /\ test a = true).
  { clear l. induction l as [|x l IH]; intros k Hk; [done|]. cbn in Hk. cbn [acl_find_from].
    destruct (test x) eqn:Et.
    - injection Hk as -> ->. replace (n - n =? 0) with true by (symmetry; apply Z.eqb_eq; lia). done.
    - apply IH in Hk as (Hle & Hfind & Ht). rewrite (proj2 (Z.eqb_neq _ _)) by lia.
      replace (n - k - 1) with (n - (k + 1)) by lia. split; [lia|done]. }
  intros Hf. apply Hgen in Hf as (Hn & Hfind & Ht). split_and!; [done| |done].
  unfold acl_find_num. rewrite (proj2 (Z.ltb_ge _ _)) by lia. by rewrite Z.sub_0_r in Hfind.
Qed.

Lemma first_match_none test l k : first_match test l k = None -> Forall (fun a => test a = false) l.
Proof using.
  revert k. induction l as [|x l IH]; intros k Hk; [constructor|]. cbn in Hk.
  destruct (test x) eqn:Et; [done|]. constructor; [done|]. by eapply IH.
Qed.

(** What a matching key tells: of elements that are not blocked, NOKEY ones
    pass only queries without signature and the others only queries with a
    verified signature under their key. *)
Lemma key_matches_safe a : acl_key_matches a q = Ok true -> blocked a = false ->
  if nokey a then ts_status (tsig q) = TSIG_NOT_PRESENT
  else ts_status (tsig q) = TSIG_OK /\ error_code (tsig q) = TSIG_ERROR_NOERROR /\
    exists opt key qkey, acl_key_options a = Some opt /\ key_tsig opt = Some key /\
      key_name (tsig q) = Some qkey /\ dname_compare qkey (tk_name key) = Ok 0.
Proof using.
  unfold acl_key_matches. intros Hk Hb. rewrite Hb in Hk. destruct (nokey a).
  { injection Hk as Hk. by apply bool_decide_eq_true in Hk. }
  destruct (negb (bool_decide _)) eqn:E1; [done|]. destruct (negb (_ =? _)) eqn:E2; [done|]. bool_simpl.
  split; [done|]. split; [done|].
  destruct (acl_key_options a) as [opt|]; [|done]. cbn [points_to mbind res_bind] in Hk.
  destruct (key_tsig opt) as [key|] eqn:Ekey; [|done].
  destruct (key_name (tsig q)) as [qkey|]; [|done]. cbn [points_to mbind res_bind] in Hk.
  destruct (dname_compare qkey (tk_name key)) as [c| |] eqn:Ec; [|done..]. cbn [mbind res_bind] in Hk.
  destruct (negb (c =? 0)) eqn:E3; [done|]. bool_simpl. subst. by exists opt, key, qkey.
Qed.
End check.

(** C35 (acl_check_incoming): when every element can be evaluated, the check
    ends: -1 and the element when some BLOCKED element matches, otherwise the
    number of the first element that matches, otherwise -1.  An admitted query
    matches the address of the element with that number and carries no
    signature if it is NOKEY, and otherwise a verified one, without error,
    under the element's key; and no BLOCKED element matches it. *)
Theorem acl_check_incoming_correct `{T : NameTree} `{H : Hmac} (be : bool) (l : list acl_options) (q : query) :
  Forall (fun a => exists m, element_matches be q a = Ok m) l ->
  acl_check_incoming be l q = Ok
    (match first_match (fun a => passes be q a && blocked a) l 0, first_match (passes be q) l 0 with
     | Some (_, a), _ => (-1, Some a)
     | None, Some (n, a) => (n, Some a)
     | None, None => (-1, None)
     end) /\
  forall n reason, acl_check_incoming be l q = Ok (n, reason) -> n <> -1 ->
    exists a, reason = Some a /\ acl_find_num l n = Some a /\ acl_addr_matches be a q = Ok true /\
      blocked a = false /\ Forall (fun b => blocked b = true -> passes be q b = false) l /\
      if nokey a then ts_status (tsig q) = TSIG_NOT_PRESENT
      else ts_status (tsig q) = TSIG_OK /\ error_code (tsig q) = TSIG_ERROR_NOERROR /\
        exists opt key qkey, acl_key_options a = Some opt /\ key_tsig opt = Some key /\
          key_name (tsig q) = Some qkey /\ dname_compare qkey (tk_name key) = Ok 0.
Proof.
  intros Hl. assert (Hspec : acl_check_incoming be l q = Ok
    (match first_match (fun a => passes be q a && blocked a) l 0, first_match (passes be q) l 0 with
     | Some (_, a), _ => (-1, Some a)
     | None, Some (n, a) => (n, Some a)
     | None, None => (-1, None)
     end)).
  { unfold acl_check_incoming. rewrite check_from_spec by done.
    by destruct (first_match _ l 0) as [[]|], (first_match (passes be q) l 0) as [[]|]. }
  split; [done|]. intros n reason E Hn. rewrite Hspec in E. injection E as E.
  destruct (first_match (fun a => passes be q a && blocked a) l 0) as [[k a]|] eqn:Hbl; [congruence|].
  destruct (first_match (passes be q) l 0) as [[k a]|] eqn:Hfirst; [|congruence]. injection E as <- <-.
  exists a. apply first_match_num in Hfirst as (_ & Hnum & Hpass). apply first_match_none in Hbl.
  assert (Hin : a ∈ l).
  { unfold acl_find_num in Hnum. destruct (k <? 0); [done|]. clear -Hnum. revert k Hnum.
    induction l as [|x l IH]; intros k Hk; [done|]. cbn in Hk. destruct (k =? 0).
    - injection Hk as ->. by left.
    - right. by eapply IH. }
  assert (Hba : blocked a = false).
  { rewrite Forall_forall in Hbl. specialize (Hbl a Hin). by rewrite Hpass in Hbl. }
  unfold passes in Hpass. destruct (element_matches be q a) as [m| |] eqn:Em; [|done..]. subst m.
  unfold element_matches in Em. destruct (acl_addr_matches be a q) as [[]| |] eqn:Ea; [|done..].
  cbn [mbind res_bind] in Em. split_and!; [done|done|done|done| |by apply key_matches_safe].
  eapply Forall_impl; [exact Hbl|]. cbn. intros b E1 E2. by rewrite E2, andb_true_r in E1.
Qed.

(** 10.0.0.1 BLOCKED, and 127.0.0.0/8 NOKEY as the parser makes it, for a
    library that reads no address text but these two. *)
Definition sample_pton (six : bool) (text : list Z) : option (list Z) :=
  if six then None
  else if bool_decide (text = str "10.0.0.1") then Some [10; 0; 0; 1]
  else if bool_decide (text = str "127.0.0.0") then Some [127; 0; 0; 0] else None.
Definition sample_acl : list acl_options :=
  [(parse_acl_info sample_pton (str "10.0.0.1") (str "BLOCKED")).1;
   (parse_acl_info sample_pton (str "127.0.0.0/8@53") (str "NOKEY")).1].

Lemma acl_check_incoming_witness :
  exists reason a, acl_check_incoming false sample_acl (mini_query 12 600 512) = Ok (1, reason) /\
    reason = Some a /\ acl_find_num sample_acl 1 = Some a /\
    Forall (fun b => blocked b = true -> passes false (mini_query 12 600 512) b = false) sample_acl.
Proof.
  destruct (acl_check_incoming_correct false sample_acl (mini_query 12 600 512)) as [E Hsafe].
  - constructor; [exists false; by vm_compute|]. constructor; [exists true; by vm_compute|constructor].
  - assert (Hrun : acl_check_incoming false sample_acl (mini_query 12 600 512) =
      Ok (1, sample_acl !! 1%nat)) by by vm_compute.
    destruct (Hsafe 1 (sample_acl !! 1%nat) Hrun) as (a & Ha & Hnum & _ & _ & Hno & _); [done|].
    exists (sample_acl !! 1%nat), a. split; [exact Hrun|split; [exact Ha|split; [exact Hnum|exact Hno]]].
Defined.
