(* ===== verification/Respond.v ===== *)
(** Model of the frame of a response (src/query.c): resetting a query, errors
    and their rate limit, the question, EDNS and TSIG of the query, preparing
    the response, the answers in class CHAOS and what is appended at the end.
    The build modelled has IPV6_MTU, so the IPv6 response is not cut to the
    minimum MTU. *)

From S2P Require Import Prelude Buffer Dname Dns Packet Namedb Edns Tsig Query.

Definition ERROR_RATELIMIT : Z := 100.

(** Set by the configure script. *)
Definition UDP_MAX_MESSAGE_LEN : Z := 512.
Definition TCP_MAX_MESSAGE_LEN : Z := 65535.
Definition MAX_RDLENGTH : Z := 65535.
Definition MAX_RR_SIZE : Z := MAXDOMAINLEN + 4 + 4 * 2 + MAX_RDLENGTH.
Definition QIOBUFSZ : Z := MAX_PACKET_SIZE + MAX_RR_SIZE.

(** What of the server's state answering a query reads and changes; strings
    are without the final zero. *)
Record nsd := mknsd {
  err_limit_time : Z;
  err_limit_count : Z;
  identity : list Z;
  version : list Z;
  hide_version : bool;
  ipv4_edns_size : Z;
  ipv6_edns_size : Z;
  edns_ipv4 : edns_data;
  edns_ipv6 : edns_data;
  nsid : list Z;
  this_child : bool;
  nsd_tsig : tsig_tables;
  minimal_responses : bool;
  round_robin : bool;
}.
Definition nsid_len (n : nsd) : Z := zlength (nsid n).
Definition set_err_limit (time count : Z) (n : nsd) : nsd :=
  mknsd time count (identity n) (version n) (hide_version n) (ipv4_edns_size n) (ipv6_edns_size n)
    (edns_ipv4 n) (edns_ipv6 n) (nsid n) (this_child n) (nsd_tsig n) (minimal_responses n) (round_robin n).

Section respond.
Context `{T : NameTree} `{H : Hmac}.

Abbreviation Qry := (ST query).

Definition query_reset (maxlen_ : Z) (is_tcp : bool) : Qry unit :=
  st_modify (fun q => set_reserved_space 0 (set_maxlen maxlen_ q));;
  on_packet buffer_clear;;
  st_modify (fun q =>
    mkquery (addr q) (maxlen q) (reserved_space q) edns_init_record
      (tsig_init_record (tsig q) None None) true true true is_tcp (packet q) None 0 0 None None None
      0 0 [] (compressed_dname_offsets q) (compressed_dname_offsets_size q) 0 false None None None 0
      None).

(** * Errors *)
Definition query_error (rcode : nsd_rc) : Qry query_state :=
  if bool_decide (rcode = NSD_RC_DISCARD) then mret QUERY_DISCARDED else
  on_packet buffer_clear;;
  on_packet QR_SET;;
  on_packet AD_CLR;;
  on_packet (RCODE_SET (rc_code rcode));;
  on_packet (QDCOUNT_SET 0);;
  on_packet (ANCOUNT_SET 0);;
  on_packet (NSCOUNT_SET 0);;
  on_packet (ARCOUNT_SET 0);;
  on_packet (buffer_set_position QHEADERSZ);;
  mret QUERY_PROCESSED.

(** [now] is [time(NULL)]; the counter is an [unsigned int]. *)
Definition query_ratelimit_err (now : Z) (n : nsd) : nsd * bool :=
  if err_limit_time n =? now then
    (set_err_limit (err_limit_time n) (u32 (err_limit_count n + 1)) n, ERROR_RATELIMIT <? err_limit_count n)
  else (set_err_limit now 1 n, false).

Definition query_formerr (now : Z) (n : nsd) : Qry (nsd * query_state) :=
  opcode ← on_packet OPCODE;
  let '(n, limited) := query_ratelimit_err now n in
  if (limited : bool) then mret (n, QUERY_DISCARDED) else
  flags ← on_packet FLAGS;
  on_packet (FLAGS_SET (Z.land flags 0x0100));;
  on_packet (OPCODE_SET opcode);;
  s ← query_error NSD_RC_FORMAT;
  mret (n, s).

(** * The parts of the query *)
Definition process_query_section : Qry bool :=
  on_packet (buffer_set_position QHEADERSZ);;
  '(qnamebuf, r) ← on_packet packet_read_query_section;
  match r with
  | None => mret false
  | Some (type, class) =>
      name ← lift (dname_make qnamebuf true);
      st_modify (fun q => set_qname name (set_qclass class (set_qtype type q)));;
      mret true
  end.

Definition process_edns (n : nsd) : Qry nsd_rc :=
  q ← st_get;
  if bool_decide (edns_st (edns q) = EDNS_ERROR) then mret NSD_RC_FORMAT else
  if bool_decide (edns_st (edns q) = EDNS_OK) then
    (if negb (tcp q) && (UDP_MAX_MESSAGE_LEN <? edns_maxlen (edns q)) then
       let edns_size := if sa_inet6 (addr q) then ipv6_edns_size n else ipv4_edns_size n in
       st_modify (set_maxlen (if edns_maxlen (edns q) <? edns_size then edns_maxlen (edns q) else edns_size))
     else mret tt);;
    on_packet (buffer_set_position (edns_position (edns q)));;
    on_packet (buffer_set_limit (edns_position (edns q)));;
    arcount ← on_packet ARCOUNT;
    on_packet (ARCOUNT_SET (u16 (arcount - 1)));;
    mret NSD_RC_OK
  else mret NSD_RC_OK.

Definition process_tsig (n : nsd) (now : Z) : Qry nsd_rc :=
  q ← st_get;
  if bool_decide (ts_status (tsig q) = TSIG_ERROR) then mret NSD_RC_FORMAT else
  if bool_decide (ts_status (tsig q) = TSIG_OK) then
    '(t, ok) ← lift (tsig_from_query (nsd_tsig n) now (tsig q));
    st_modify (set_tsig t);;
    if negb ok then mret NSD_RC_NOTAUTH else
    on_packet (buffer_set_limit (ts_position t));;
    arcount ← on_packet ARCOUNT;
    on_packet (ARCOUNT_SET (u16 (arcount - 1)));;
    t ← lift (tsig_prepare t);
    limit ← on_packet buffer_limit;
    t ← on_packet (tsig_update t limit);
    '(t, ok) ← lift (tsig_verify t);
    st_modify (set_tsig t);;
    if negb ok then mret NSD_RC_NOTAUTH else mret NSD_RC_OK
  else mret NSD_RC_OK.

(** * The response *)
Definition query_prepare_response (n : nsd) : Qry unit :=
  limit ← on_packet buffer_limit;
  on_packet (buffer_set_position limit);;
  capacity ← on_packet buffer_capacity;
  on_packet (buffer_set_limit capacity);;
  st_modify (fun q =>
    set_reserved_space (u64 (edns_reserved_space (edns q) + tsig_reserved_space (nsd_tsig n) (tsig q))) q);;
  flags ← on_packet FLAGS;
  on_packet (FLAGS_SET (Z.lor (Z.land flags 0x0100) 0x8000)).

(** [dname] is a place in the packet or a name with its length in front. *)
Definition query_addtxt (dname : Z + list Z) (klass ttl : Z) (txt : list Z) : Qry unit :=
  let len := u8 (zlength txt) in
  st_assert (zlength txt <=? 255);;
  position ← on_packet buffer_position;
  match dname with
  | inl p => st_assert (p <=? position);; on_packet (buffer_write_u16 (Z.lor 0xc000 p))
  | inr name => on_packet (buffer_write (take (Z.to_nat (zget name 0)) (drop 1 name)))
  end;;
  on_packet (buffer_write_u16 TYPE_TXT);;
  on_packet (buffer_write_u16 klass);;
  on_packet (buffer_write_u32 ttl);;
  on_packet (buffer_write_u16 (len + 1));;
  on_packet (buffer_write_u8 len);;
  on_packet (buffer_write (take (Z.to_nat len) txt)).

(** The name is these bytes. *)
Definition qname_is (name : dname_type) (bytes : list Z) : bool :=
  (name_size name =? zlength bytes) && bool_decide (take (length bytes) (dname_name name) = bytes).

Definition answer_chaos (n : nsd) : Qry query_state :=
  on_packet AA_CLR;;
  q ← st_get;
  (if (qtype q =? TYPE_ANY) || (qtype q =? TYPE_TXT) then
     name ← lift (points_to (qname q));
     if qname_is name (2 :: str "id" ++ 6 :: str "server" ++ [0]) ||
        qname_is name (8 :: str "hostname" ++ 4 :: str "bind" ++ [0])
     then
       query_addtxt (inl QHEADERSZ) CLASS_CH 0 (identity n);;
       ancount ← on_packet ANCOUNT;
       on_packet (ANCOUNT_SET (u16 (ancount + 1)))
     else if qname_is name (7 :: str "version" ++ 6 :: str "server" ++ [0]) ||
             qname_is name (7 :: str "version" ++ 4 :: str "bind" ++ [0])
     then
       if negb (hide_version n) then
         query_addtxt (inl QHEADERSZ) CLASS_CH 0 (version n);;
         ancount ← on_packet ANCOUNT;
         on_packet (ANCOUNT_SET (u16 (ancount + 1)))
       else on_packet (RCODE_SET RCODE_REFUSE)
     else on_packet (RCODE_SET RCODE_REFUSE)
   else on_packet (RCODE_SET RCODE_REFUSE));;
  mret QUERY_PROCESSED.

(** * What is appended *)

(** Byte 7 of the piece carries the DO bit. *)
Definition with_do (do_ : Z) (piece : list Z) : list Z :=
  <[7%nat := if do_ =? 0 then 0x00 else 0x80]> piece.

Definition add_arcount : Qry unit :=
  arcount ← on_packet ARCOUNT;
  on_packet (ARCOUNT_SET (u16 (arcount + 1))).

Definition add_optional_edns (n : nsd) : Qry unit :=
  q ← st_get;
  let data := if sa_inet6 (addr q) then edns_ipv6 n else edns_ipv4 n in
  match edns_st (edns q) with
  | EDNS_NOT_PRESENT => mret tt
  | EDNS_OK =>
      on_packet (buffer_write (with_do (dnssec_ok (edns q)) (ed_ok data)));;
      a ← (if opt_reserved_space (edns q) =? 0 then mret false
           else on_packet (buffer_available (2 + opt_reserved_space (edns q))));
      (if negb a then on_packet (buffer_write (ed_rdata_none data))
       else
         on_packet (buffer_write_u16 (u16 (opt_reserved_space (edns q))));;
         if edns_nsid (edns q) then
           on_packet (buffer_write (ed_nsid data));;
           on_packet (buffer_write (nsid n))
         else mret tt);;
      add_arcount
  | EDNS_ERROR =>
      on_packet (buffer_write (with_do (dnssec_ok (edns q)) (ed_error data)));;
      on_packet (buffer_write (ed_rdata_none data));;
      add_arcount
  end.

Definition add_optional_tsig (now : Z) : Qry unit :=
  q ← st_get;
  if bool_decide (ts_status (tsig q) = TSIG_NOT_PRESENT) then mret tt else
  if bool_decide (ts_status (tsig q) = TSIG_ERROR) || negb (error_code (tsig q) =? TSIG_ERROR_NOERROR) then
    let t := tsig_error_reply (tsig q) in
    st_modify (set_tsig t);;
    on_packet (tsig_append_rr t);;
    add_arcount
  else
    t ← (if tsig_prepare_it q then lift (tsig_prepare (tsig q)) else mret (tsig q));
    st_modify (set_tsig t);;
    t ← (if tsig_update_it q then
           position ← on_packet buffer_position; on_packet (tsig_update t position)
         else mret t);
    st_modify (set_tsig t);;
    if tsig_sign_it q then
      t ← lift (tsig_sign now t);
      st_modify (set_tsig t);;
      on_packet (tsig_append_rr t);;
      add_arcount
    else mret tt.

Definition query_add_optional (n : nsd) (now : Z) : Qry unit :=
  rcode ← on_packet RCODE;
  if rcode =? RCODE_FORMAT then mret tt else
  add_optional_edns n;;
  add_optional_tsig now.
End respond.
