(* ===== verification/Axfr.v ===== *)
(** Model of outgoing zone transfers (src/axfr.h, src/axfr.c). *)

From S2P Require Import Prelude Buffer Dname Dns Packet Namedb Edns Tsig Query Acl Respond.

Definition AXFR_MAX_MESSAGE_LEN : Z := MAX_COMPRESSION_OFFSET.
Definition AXFR_TSIG_SIGN_EVERY_NTH : Z := 96.

Section axfr.
Context `{T : NameTree} `{H : Hmac}.

Abbreviation Qry := (ST query).

Definition namedb_lookup (db : namedb) (dname : dname_type) : res (bool * Z * Z) :=
  domain_table_search db dname.

Definition domain_is_subdomain (db : namedb) (d1 d2 : Z) : res bool :=
  a ← domain_at db d1;
  b ← domain_at db d2;
  dname_is_subdomain (domain_dname a) (domain_dname b).

(** [rrset->next] in the list of its domain. *)
Fixpoint next_in (l : list Z) (r : Z) : option Z :=
  match l with
  | [] => None
  | x :: l => if x =? r then head l else next_in l r
  end.

Definition encode_soa (db : namedb) (z : zone) : Qry bool :=
  soa ← lift (points_to (soa_rrset z));
  rs ← lift (rrset_at db soa);
  st_assert (rr_count rs =? 1);;
  top ← lift (points_to (apex z));
  r ← lift (first_rr rs);
  packet_encode_rr db top r (ttl r).

(** The records of the current set, from the current one on: how many have
    been added in all, and whether the packet is not yet full. *)
Definition axfr_rrs_step (db : namedb) (domain : Z) (rs : rrset) (total_added : Z) :
    Qry (Z + Z * bool) :=
  q ← st_get;
  if axfr_current_rr q <? rr_count rs then
    r ← lift (points_to (rrs rs !! Z.to_nat (axfr_current_rr q)));
    added ← packet_encode_rr db domain r (ttl r);
    if negb added then mret (inr (total_added, false)) else
    st_modify (fun q => set_axfr_current_rr (u16 (axfr_current_rr q + 1)) q);;
    mret (inl (u16 (total_added + 1)))
  else mret (inr (total_added, true)).
Definition axfr_rrs (db : namedb) (domain : Z) (rs : rrset) (total_added : Z) : Qry (Z * bool) :=
  st_iter (S (length (rrs rs))) (axfr_rrs_step db domain rs) total_added.

(** The sets of the current domain. *)
Definition axfr_rrsets_step (db : namedb) (zp : Z) (z : zone) (domain : Z) (l : list Z)
    (total_added : Z) : Qry (Z + Z * bool) :=
  q ← st_get;
  match axfr_current_rrset q with
  | None => mret (inr (total_added, true))
  | Some r =>
      rs ← lift (rrset_at db r);
      '(total_added, ok) ←
        (if negb (bool_decide (Some r = soa_rrset z)) && (rrset_zone rs =? zp)
         then axfr_rrs db domain rs total_added else mret (total_added, true));
      if negb (ok : bool) then mret (inr (total_added, false)) else
      st_modify (fun q => set_axfr_current_rr 0 (set_axfr_current_rrset (next_in l r) q));;
      mret (inl total_added)
  end.
Definition axfr_rrsets (db : namedb) (zp : Z) (z : zone) (domain total_added : Z) : Qry (Z * bool) :=
  d ← lift (domain_at db domain);
  st_iter (S (length (domain_rrsets d))) (axfr_rrsets_step db zp z domain (domain_rrsets d)) total_added.

(** The domains of the zone. *)
Definition axfr_domains_step (db : namedb) (zp : Z) (z : zone) (total_added : Z) : Qry (Z + Z * bool) :=
  q ← st_get;
  match axfr_current_domain q with
  | None => mret (inr (total_added, true))
  | Some p =>
      top ← lift (points_to (apex z));
      below ← lift (domain_is_subdomain db p top);
      if negb below then mret (inr (total_added, true)) else
      d ← lift (domain_at db p);
      match axfr_current_rrset q with
      | None =>
          r ← lift (domain_find_any_rrset db d zp);
          st_modify (fun q => set_axfr_current_rr 0 (set_axfr_current_rrset r q))
      | Some _ => mret tt
      end;;
      '(total_added, ok) ← axfr_rrsets db zp z p total_added;
      if negb (ok : bool) then mret (inr (total_added, false)) else
      st_modify (fun q => set_axfr_current_domain (domain_next db d) q);;
      mret (inl total_added)
  end.
Definition axfr_domains (db : namedb) (zp : Z) (z : zone) (total_added : Z) : Qry (Z * bool) :=
  st_iter (S (S (size (domains db)))) (axfr_domains_step db zp z) total_added.

(** From [return_answer] on. *)
Definition axfr_finish (db : namedb) (total_added : Z) : Qry query_state :=
  on_packet AA_SET;;
  on_packet (ANCOUNT_SET total_added);;
  on_packet (NSCOUNT_SET 0);;
  on_packet (ARCOUNT_SET 0);;
  st_modify (fun q =>
    if bool_decide (ts_status (tsig q) = TSIG_OK) &&
       (AXFR_TSIG_SIGN_EVERY_NTH <=? updates_since_last_prepare (tsig q))
    then set_tsig_sign_it true q else q);;
  query_clear_compression_tables db;;
  mret QUERY_IN_AXFR.

(** The start of a transfer: [None] when there is nothing to transfer. *)
Definition axfr_start (db : namedb) : Qry (option Z) :=
  q ← st_get;
  name ← lift (points_to (qname q));
  '(exact, _, qdomain) ← lift (namedb_lookup db name);
  zone ← lift (domain_find_zone db (Some qdomain));
  st_modify (set_axfr_zone zone);;
  match zone with
  | None => on_packet (RCODE_SET RCODE_NOTAUTH);; mret None
  | Some zp =>
      z ← lift (zone_at db zp);
      if negb (exact : bool) || negb (bool_decide (apex z = Some qdomain)) ||
         bool_decide (soa_rrset z = None)
      then on_packet (RCODE_SET RCODE_NOTAUTH);; mret None else
      st_modify (fun q => set_axfr_current_rr 0 (set_axfr_current_rrset None
                            (set_axfr_current_domain (Some qdomain) q)));;
      st_modify (fun q => if bool_decide (ts_status (tsig q) = TSIG_OK) then set_tsig_sign_it true q else q);;
      query_add_compression_domain db qdomain QHEADERSZ;;
      added ← encode_soa db z;
      st_assert added;;
      mret (Some 1)
  end.

(** The following packets of a transfer repeat no question and no EDNS. *)
Definition axfr_continue (n : nsd) : Qry unit :=
  st_modify (fun q => set_edns (mkedns_record EDNS_NOT_PRESENT (edns_position (edns q)) (edns_maxlen (edns q))
                                  (opt_reserved_space (edns q)) (dnssec_ok (edns q)) (edns_nsid (edns q))) q);;
  on_packet (buffer_set_limit QHEADERSZ);;
  on_packet (QDCOUNT_SET 0);;
  query_prepare_response n.

Definition axfr_fill (db : namedb) (total_added : Z) : Qry query_state :=
  q ← st_get;
  zp ← lift (points_to (axfr_zone q));
  z ← lift (zone_at db zp);
  '(total_added, ok) ← axfr_domains db zp z total_added;
  if negb (ok : bool) then axfr_finish db total_added else
  added ← encode_soa db z;
  if (added : bool) then
    st_modify (fun q => set_axfr_is_done true (set_tsig_sign_it true q));;
    axfr_finish db (u16 (total_added + 1))
  else axfr_finish db total_added.

Definition query_axfr (db : namedb) (n : nsd) : Qry query_state :=
  q ← st_get;
  if axfr_is_done q then mret QUERY_PROCESSED else
  st_modify (fun q => if AXFR_MAX_MESSAGE_LEN <? maxlen q then set_maxlen AXFR_MAX_MESSAGE_LEN q else q);;
  over ← query_overflow;
  st_assert (negb over);;
  st_modify (fun q =>
    let q := set_tsig_update_it true (set_tsig_prepare_it false q) in
    if tsig_sign_it q then set_tsig_sign_it false (set_tsig_prepare_it true q) else q);;
  match axfr_zone q with
  | None =>
      started ← axfr_start db;
      match started with
      | None => mret QUERY_PROCESSED
      | Some total_added => axfr_fill db total_added
      end
  | Some _ => axfr_continue n;; axfr_fill db 0
  end.

(** [zone_options_find]: the [provide_xfr] list of the zone, if configured. *)
Definition answer_axfr_ixfr (big_endian : bool) (provide_xfr : dname_type -> option (list acl_options))
    (db : namedb) (n : nsd) : Qry query_state :=
  q ← st_get;
  if (qtype q =? TYPE_AXFR) && tcp q then
    name ← lift (points_to (qname q));
    match provide_xfr name with
    | None => on_packet (RCODE_SET RCODE_NOTAUTH);; mret QUERY_PROCESSED
    | Some acl =>
        '(num, _) ← lift (acl_check_incoming big_endian acl q);
        if num =? -1 then on_packet (RCODE_SET RCODE_REFUSE);; mret QUERY_PROCESSED
        else query_axfr db n
    end
  else if (qtype q =? TYPE_AXFR) || (qtype q =? TYPE_IXFR) then
    on_packet (RCODE_SET RCODE_IMPL);; mret QUERY_PROCESSED
  else mret QUERY_DISCARDED.
End axfr.
