(* ===== verification/AxfrProofs.v ===== *)
(** Theorems about outgoing zone transfers (Axfr.v): the packets of a transfer
    carry the records of the zone in order, and the transfer ends. *)

From S2P Require Import Prelude Buffer Dname DnameProofs DnamePacket Dns Packet PacketProofs Contents Namedb NamedbProofs NamedbTable Edns Tsig Query QueryProofs QueryRecords QueryRRset QueryAnswer Acl Respond Axfr.

Section axfr.
Context `{T : NameTree} `{H : Hmac}.
Context (db : namedb) (nm : Z -> name) (Hdb : numbered db nm).

Abbreviation Qry := (ST query).

(** * Records one after the other, each with its owner *)
Inductive stream_at (d : list Z) : Z -> list (Z * rr) -> Z -> Prop :=
  | stream_nil p : stream_at d p [] p
  | stream_cons p e1 e x r l : rr_at db nm d p e1 x r (ttl r) -> stream_at d e1 l e ->
      stream_at d p ((x, r) :: l) e.

Lemma stream_app d p l e l' e' : stream_at d p l e -> stream_at d e l' e' -> stream_at d p (l ++ l') e'.
Proof using. induction 1; [done|]. intros. econstructor; eauto. Qed.

Lemma stream_count d p l e : stream_at d p l e -> p + zlength l <= e.
Proof using.
  induction 1 as [|p e1 e x r l Hr%rr_at_end Hl IH]; [unfold zlength; simpl; lia|].
  rewrite zlength_cons. lia.
Qed.

Lemma later_stream b b' : buffer_ok b -> buffer_ok b' -> extends b b' -> forall p l e,
  stream_at (_data b) p l e -> QHEADERSZ <= p -> e <= _position b -> stream_at (_data b') p l e.
Proof using.
  intros Hb Hb' Hex. induction 1 as [|p e1 e x r l Hr Hl IH]; intros Hp He; [constructor|].
  pose proof (rr_at_end _ _ _ _ _ _ _ _ Hr). pose proof (stream_count _ _ _ _ Hl).
  pose proof (zlength_nonneg l).
  econstructor; [apply (later_rr db nm b b'); try done; lia|apply IH; lia].
Qed.

(** Only the room of the query matters to the packet. *)
Section same_room.
Context (q q' : query) (Hroom : room q = room q').

Lemma ready_room_eq b dn offs : ready db nm q b dn offs -> ready db nm q' b dn offs.
Proof using Hroom. intros []. split; try done. by rewrite <-Hroom. Qed.

Lemma wrote_room_eq b dn offs b' dn' offs' : wrote db nm q b dn offs b' dn' offs' ->
  wrote db nm q' b dn offs b' dn' offs'.
Proof using Hroom. intros []. split; try done. by apply ready_room_eq. Qed.

Lemma fits_room_eq b offs p r : fits db nm q b offs p r -> fits db nm q' b offs p r.
Proof using Hroom. intros (sz & Hok & Hsz). exists sz. split; [done|]. by rewrite <-Hroom. Qed.
End same_room.

(** The record does not fit behind position [p]. *)
Definition blocked (q : query) (p : Z) (x : Z * rr) : Prop :=
  forall offs sz, rr_ok db nm offs x.1 x.2 sz -> room q < p + sz.

Lemma wp_one_at q q' b dn offs p r t (Q : bool -> query -> Prop) : room q' = room q ->
  ready db nm q b dn offs -> fits db nm q b offs p r ->
  (forall b' dn' offs', wrote db nm q b dn offs b' dn' offs' -> same_header b b' ->
     rr_at db nm (_data b') (_position b) (_position b') p r t -> Q true (upd q' b' dn' offs')) ->
  (forall b', wrote db nm q b dn offs b' dn offs -> same_header b b' -> _position b' = _position b ->
     blocked q (_position b) (p, r) -> Q false (upd q' b' dn offs)) ->
  wp (packet_encode_rr db p r t) Q (upd q' b dn offs).
Proof using Hdb.
  intros Hq Hr Hf HQt HQf. apply (wp_one db nm Hdb q').
  - by apply (ready_room_eq q).
  - by apply (fits_room_eq q).
  - intros b' dn' offs' Hw. by apply HQt, (wrote_room_eq q').
  - intros b' Hw Hsh Hpos Hbl. apply HQf; [by apply (wrote_room_eq q')|done|done|].
    intros offs' sz Hok. rewrite <-Hq. by eapply Hbl.
Qed.

(** * The place in the zone *)
Definition at_place (cd cr : option Z) (cc : Z) (q : query) : query :=
  set_axfr_current_rr cc (set_axfr_current_rrset cr (set_axfr_current_domain cd q)).

Section zone.
Context (zp : Z) (z : zone) (q : query).

(** What the loop over a set sends. *)
Definition set_records (p r : Z) : list (Z * rr) :=
  match rrset_at db r with
  | Ok rs => if negb (bool_decide (Some r = soa_rrset z)) && (rrset_zone rs =? zp)
             then (fun x => (p, x)) <$> rrs rs else []
  | _ => []
  end.
Definition sets_records (p : Z) (l : list Z) : list (Z * rr) := mjoin (set_records p <$> l).
Definition domain_records (p : Z) : list (Z * rr) :=
  match domain_at db p with Ok d => sets_records p (domain_rrsets d) | _ => [] end.

(** Every record of the list can be written and noticed not to fit. *)
Definition all_fit (b : buffer) (offs : list Z) (l : list (Z * rr)) : Prop :=
  Forall (fun x => fits db nm q b offs x.1 x.2) l.

Lemma all_fit_wrote b dn offs b' dn' offs' l : wrote db nm q b dn offs b' dn' offs' ->
  all_fit b offs l -> all_fit b' offs' l.
Proof using. intros Hw Hl. eapply Forall_impl; [exact Hl|]. intros. by eapply fits_wrote. Qed.

(** After sending [l] or the part of it that fits: [k] records, at the place
    [after k]. *)
Definition sent (l : list (Z * rr)) (after : nat -> query) (total : Z) (b : buffer) (dn offs : list Z)
    (Q : Z * bool -> query -> Prop) : Prop :=
  forall k b' dn' offs', wrote db nm q b dn offs b' dn' offs' -> same_header b b' ->
    stream_at (_data b') (_position b) (take k l) (_position b') -> (k <= length l)%nat ->
    (forall x, l !! k = Some x -> blocked q (_position b') x) ->
    Q (total + Z.of_nat k, bool_decide (k = length l)) (upd (after k) b' dn' offs').

Lemma wp_axfr_rrs_loop p rs : zlength (rrs rs) < 65536 -> forall n cd cr cc fuel total b dn offs
    (Q : Z * bool -> query -> Prop),
  ready db nm q b dn offs -> 0 <= cc -> cc + Z.of_nat n = rr_count rs ->
  all_fit b offs ((fun x => (p, x)) <$> drop (Z.to_nat cc) (rrs rs)) ->
  0 <= total -> total + (room q - _position b) < 65536 -> (n < fuel)%nat ->
  sent ((fun x => (p, x)) <$> drop (Z.to_nat cc) (rrs rs))
    (fun k => at_place cd cr (cc + Z.of_nat k) q) total b dn offs Q ->
  wp (st_iter fuel (axfr_rrs_step db p rs) total) Q (upd (at_place cd cr cc q) b dn offs).
Proof using Hdb.
  intros Hsz. induction n as [|n IH]; intros cd cr cc fuel total b dn offs Q Hr Hcc Hn Hfit Ht Hroom Hf HQ;
    (destruct fuel as [|fuel]; [lia|]); cbn [st_iter]; wp_step; unfold axfr_rrs_step at 1; do 2 wp_step;
    change (axfr_current_rr (upd (at_place cd cr cc q) b dn offs)) with cc.
  - wp_step; bool_simpl; [lia|]. do 2 wp_step.
    specialize (HQ 0%nat b dn offs). rewrite !Z.add_0_r in HQ.
    assert (Hd : drop (Z.to_nat cc) (rrs rs) = []).
    { apply drop_ge. unfold rr_count, zlength in Hn. lia. }
    rewrite Hd, bool_decide_true in HQ by done.
    apply HQ; [by apply wrote_refl|done|constructor|done|done].
  - unfold rr_count in *. wp_step; bool_simpl; [|lia].
    destruct (drop (Z.to_nat cc) (rrs rs)) as [|r l] eqn:Hd.
    { apply (f_equal length) in Hd. rewrite length_drop in Hd. unfold zlength in Hn. simpl in Hd. lia. }
    assert (Hget : rrs rs !! Z.to_nat cc = Some r).
    { rewrite <-(Nat.add_0_r (Z.to_nat cc)), <-lookup_drop. by rewrite Hd. }
    assert (Hd' : drop (Z.to_nat (cc + 1)) (rrs rs) = l).
    { replace (Z.to_nat (cc + 1)) with (Z.to_nat cc + 1)%nat by lia. rewrite <-drop_drop. by rewrite Hd. }
    wp_step. apply (wp_lift _ r); [by rewrite Hget|]. cbn [fmap list_fmap] in Hfit, HQ.
    apply Forall_cons in Hfit as [Hf1 Hfit]. cbn [fst snd] in Hf1.
    wp_step. eapply (wp_one_at q); [done|done|exact Hf1|..].
    + intros b1 dn1 offs1 Hw1 Hsh1 Hrr. cbn [negb]. do 3 wp_step. cbv beta iota.
      pose proof (rr_at_end _ _ _ _ _ _ _ _ Hrr). assert (Hroom1 : _position b1 <= room q) by apply Hw1.
      destruct Hr as [Hb Hh ? ? ?]. pose proof (zlength_nonneg (rrs rs)).
      change (axfr_current_rr (upd (at_place cd cr cc q) b1 dn1 offs1)) with cc.
      rewrite !u16_small by (unfold QHEADERSZ in *; lia).
      change (set_axfr_current_rr (cc + 1) (upd (at_place cd cr cc q) b1 dn1 offs1)) with
        (upd (at_place cd cr (cc + 1) q) b1 dn1 offs1).
      eapply (IH cd cr (cc + 1)); [apply Hw1|lia|lia| |lia|lia|lia|].
      { rewrite Hd'. by eapply all_fit_wrote. }
      rewrite Hd'. intros k b' dn' offs' Hw Hsh Hst Hk Hbl.
      specialize (HQ (S k) b' dn' offs'). cbn [take] in HQ.
      replace (total + Z.of_nat (S k)) with (total + 1 + Z.of_nat k) in HQ by lia.
      replace (cc + Z.of_nat (S k)) with (cc + 1 + Z.of_nat k) in HQ by lia.
      rewrite (bool_decide_ext _ (k = length ((fun x => (p, x)) <$> l))) in HQ by (simpl; lia).
      apply HQ; [by eapply wrote_trans|by eapply same_header_trans| |simpl; lia|exact Hbl].
      econstructor; [|exact Hst]. apply (later_rr db nm b1 b'); try done; [apply Hw1|apply Hw|apply Hw].
    + intros b1 Hw1 Hsh1 Hpos Hbl. cbn [negb]. do 2 wp_step.
      specialize (HQ 0%nat b1 dn offs). rewrite !Z.add_0_r in HQ.
      rewrite bool_decide_false in HQ by done. apply HQ; [done|done| |simpl; lia|].
      { rewrite Hpos. constructor. }
      rewrite Hpos. by intros x [= <-].
Qed.

Lemma next_in_app (pre post : list Z) r : NoDup (pre ++ r :: post) -> next_in (pre ++ r :: post) r = head post.
Proof using.
  induction pre as [|x pre IH]; cbn [app next_in].
  - by rewrite Z.eqb_refl.
  - intros [Hn Hnd]%NoDup_cons. destruct (Z.eqb_spec x r) as [->|]; [|by apply IH].
    destruct Hn. apply elem_of_app. right. by left.
Qed.

(** The record sets of a domain are where they should be. *)
Definition sets_ok (l : list Z) : Prop :=
  NoDup l /\ Forall (fun r => exists rs, rrset_at db r = Ok rs /\ zlength (rrs rs) < 65536) l.

(** The current set and record of the domain [p] with the sets [l]; [rem] is
    what is left to send of it. *)
Definition place_here (p : Z) (l : list Z) (cc : Z) (rem : list (Z * rr)) : Prop :=
  match l with
  | [] => rem = []
  | r :: post => exists rs, rrset_at db r = Ok rs /\ 0 <= cc <= rr_count rs /\
      rem = drop (Z.to_nat cc) (set_records p r) ++ sets_records p post
  end.
Definition set_place (p : Z) (l : list Z) (cr : option Z) (cc : Z) (rem : list (Z * rr)) : Prop :=
  exists pre post, l = pre ++ post /\ cr = head post /\ place_here p post cc rem.

(** After sending [rem] or the part of it that fits, at a place that
    satisfies [P]. *)
Definition moved_on (rem : list (Z * rr)) (P : option Z -> option Z -> Z -> list (Z * rr) -> Prop)
    (total : Z) (b : buffer) (dn offs : list Z) (Q : Z * bool -> query -> Prop) : Prop :=
  forall k cd cr cc b' dn' offs', wrote db nm q b dn offs b' dn' offs' -> same_header b b' ->
    stream_at (_data b') (_position b) (take k rem) (_position b') -> (k <= length rem)%nat ->
    (forall x, rem !! k = Some x -> blocked q (_position b') x) ->
    P cd cr cc (drop k rem) ->
    Q (total + Z.of_nat k, bool_decide (k = length rem)) (upd (at_place cd cr cc q) b' dn' offs').

Lemma set_records_sent p r rs : rrset_at db r = Ok rs ->
  set_records p r = (if negb (bool_decide (Some r = soa_rrset z)) && (rrset_zone rs =? zp)
                     then (fun x => (p, x)) <$> rrs rs else []).
Proof using. intros Hrs. unfold set_records. by rewrite Hrs. Qed.

Lemma sets_records_cons p r l : sets_records p (r :: l) = set_records p r ++ sets_records p l.
Proof using. done. Qed.

Lemma place_next p l : Forall (fun r => exists rs, rrset_at db r = Ok rs /\ zlength (rrs rs) < 65536) l ->
  place_here p l 0 (sets_records p l).
Proof using.
  intros Hl. destruct l as [|r l]; [done|]. apply Forall_cons in Hl as [(rs & Hrs & _) _].
  exists rs. split; [done|]. split; [unfold rr_count; pose proof (zlength_nonneg (rrs rs)); lia|done].
Qed.

Lemma all_fit_app b offs l1 l2 : all_fit b offs (l1 ++ l2) <-> all_fit b offs l1 /\ all_fit b offs l2.
Proof using. apply Forall_app. Qed.

Lemma wp_axfr_rrsets_loop p L cd : sets_ok L -> forall l pre cc fuel total b dn offs
    (Q : Z * bool -> query -> Prop) rem,
  ready db nm q b dn offs -> L = pre ++ l -> place_here p l cc rem ->
  all_fit b offs rem -> 0 <= total -> total + (room q - _position b) < 65536 -> (length l < fuel)%nat ->
  moved_on rem (fun cd' cr cc rest => cd' = cd /\ set_place p L cr cc rest /\ (rest = [] -> cr = None))
    total b dn offs Q ->
  wp (st_iter fuel (axfr_rrsets_step db zp z p L) total) Q (upd (at_place cd (head l) cc q) b dn offs).
Proof using Hdb.
  intros [Hnd Hsets]. induction l as [|r l IH]; intros pre cc fuel total b dn offs Q rem Hr HL Hplace Hfit Ht Hroom Hf HQ;
    (destruct fuel as [|fuel]; [simpl in Hf; lia|]); cbn [st_iter head]; wp_step; unfold axfr_rrsets_step at 1;
    do 2 wp_step;
    change (axfr_current_rrset (upd (at_place cd ?cr cc q) b dn offs)) with cr.
  - cbn in Hplace. subst rem. cbn beta iota.
    do 2 wp_step. specialize (HQ 0%nat cd None cc b dn offs). rewrite Z.add_0_r in HQ.
    apply HQ; [by apply wrote_refl|done|constructor|done|done|].
    split_and!; [done| |done]. exists pre, []. by rewrite HL.
  - destruct Hplace as (rs & Hrs & Hcc & ->). cbn beta iota. wp_step. eapply wp_lift; [done|].
    assert (Hlen : zlength (rrs rs) < 65536).
    { rewrite Forall_forall in Hsets. destruct (Hsets r) as (rs' & Hrs' & Hl'); [rewrite HL; apply elem_of_app; right; by left|].
      congruence. }
    assert (Hl : Forall (fun r => exists rs, rrset_at db r = Ok rs /\ zlength (rrs rs) < 65536) l).
    { rewrite HL in Hsets. apply Forall_app in Hsets as [_ Hs]. by apply Forall_cons in Hs as [_ Hs]. }
    apply all_fit_app in Hfit as [Hf1 Hf2].
    (* the set has been sent to its end *)
    assert (Hnext : forall b1 dn1 offs1 k1 cc1, wrote db nm q b dn offs b1 dn1 offs1 -> same_header b b1 ->
      k1 = length (drop (Z.to_nat cc) (set_records p r)) ->
      stream_at (_data b1) (_position b) (drop (Z.to_nat cc) (set_records p r)) (_position b1) ->
      wp (if negb true then mret (inr (total + Z.of_nat k1, false))
          else st_modify (fun q => set_axfr_current_rr 0 (set_axfr_current_rrset (next_in L r) q));;
               mret (inl (total + Z.of_nat k1)))
        (fun x s' => match x with
                     | inl t => wp (st_iter fuel (axfr_rrsets_step db zp z p L) t) Q s'
                     | inr t => Q t s'
                     end) (upd (at_place cd (Some r) cc1 q) b1 dn1 offs1)).
    { intros b1 dn1 offs1 k1 cc1 Hw1 Hsh1 Hk1 Hst1. cbn [negb]. do 3 wp_step. cbv beta iota.
      rewrite HL at 2. rewrite next_in_app by (by rewrite <-HL).
      pose proof (stream_count _ _ _ _ Hst1) as Hcnt. unfold zlength in Hcnt. rewrite <-Hk1 in Hcnt.
      change (set_axfr_current_rr 0 (set_axfr_current_rrset (head l) (upd (at_place cd (Some r) cc1 q) b1 dn1 offs1)))
        with (upd (at_place cd (head l) 0 q) b1 dn1 offs1).
      apply (IH (pre ++ [r]) _ _ _ _ _ _ _ (sets_records p l)); [apply Hw1|by rewrite <-app_assoc|by apply place_next| |lia|lia|simpl in Hf; lia|].
      { by eapply all_fit_wrote. }
      intros k cd' cr' cc' b' dn' offs' Hw Hsh Hst Hk Hbl Hp.
      specialize (HQ (k1 + k)%nat cd' cr' cc' b' dn' offs').
      rewrite length_app, <-Hk1 in HQ. rewrite take_app_ge, drop_app_ge, <-Hk1 in HQ by lia.
      replace (k1 + k - k1)%nat with k in HQ by lia.
      rewrite (bool_decide_ext _ (k = length (sets_records p l))) in HQ by lia.
      replace (total + Z.of_nat (k1 + k)) with (total + Z.of_nat k1 + Z.of_nat k) in HQ by lia.
      apply HQ; [by eapply wrote_trans|by eapply same_header_trans| |lia| |done].
      2: { intros x Hx. apply Hbl. rewrite lookup_app_r in Hx by lia. rewrite <-Hx. f_equal. lia. }
      eapply stream_app; [|exact Hst]. destruct Hr as [Hb Hh ? ? ?].
      apply (later_stream b1 b'); try done; [apply Hw1|apply Hw|apply Hw]. }
    rewrite (set_records_sent p r rs Hrs) in *.
    destruct (negb (bool_decide (Some r = soa_rrset z)) && (rrset_zone rs =? zp)) eqn:Esend.
    + wp_step. rewrite <-fmap_drop in *.
      apply (wp_axfr_rrs_loop p rs Hlen (length (rrs rs) - Z.to_nat cc)); try done; try lia.
      { unfold rr_count, zlength in *. lia. }
      intros k b1 dn1 offs1 Hw1 Hsh1 Hst1 Hk1 Hbl. cbv beta iota.
      destruct (decide (k = length ((fun x => (p, x)) <$> drop (Z.to_nat cc) (rrs rs)))) as [Ek|Ek];
        [rewrite bool_decide_true by done|rewrite bool_decide_false by done].
      * rewrite take_ge in Hst1 by lia. eapply wp_mono; [by apply (Hnext _ _ _ k)|].
        intros [t|t] s' Hs'; [exact Hs'|by wp_step].
      * cbn [negb]. do 2 wp_step. specialize (HQ k cd (Some r) (cc + Z.of_nat k) b1 dn1 offs1).
        rewrite bool_decide_false in HQ by (rewrite length_app; lia).
        rewrite take_app_le, drop_app_le in HQ by lia.
        apply HQ; [done|done|done|rewrite length_app; lia| |].
        { intros x Hx. apply Hbl. by rewrite lookup_app_l in Hx by lia. }
        split_and!; [done| |].
        -- exists pre, (r :: l). split; [done|]. split; [done|]. exists rs. rewrite length_fmap, length_drop in Hk1, Ek.
           split; [done|]. split; [unfold rr_count, zlength in *; lia|].
           rewrite (set_records_sent p r rs Hrs), Esend. rewrite <-!fmap_drop, drop_drop. do 3 f_equal. lia.
        -- intros E. apply (f_equal length) in E. rewrite length_app, length_drop in E. simpl in E. lia.
    + do 2 wp_step. cbv beta iota. rewrite drop_nil in *. specialize (Hnext b dn offs 0%nat cc).
      rewrite Z.add_0_r in Hnext.
      eapply wp_mono; [apply Hnext; [by apply wrote_refl|done|done|constructor]|].
      intros [t|t] s' Hs'; [exact Hs'|by wp_step].
Qed.

(** ** The domains *)

Context (top : Z) (Htop : apex z = Some top).

(** From a domain on, in canonical order, as long as they are in the zone. *)
Inductive zone_chain : option Z -> list Z -> Prop :=
  | chain_none : zone_chain None []
  | chain_out p : domain_is_subdomain db p top = Ok false -> zone_chain (Some p) []
  | chain_in p d ds : domain_is_subdomain db p top = Ok true -> domain_at db p = Ok d ->
      sets_ok (domain_rrsets d) -> zone_chain (domain_next db d) ds -> zone_chain (Some p) (p :: ds).

Definition domains_records (ds : list Z) : list (Z * rr) := mjoin (domain_records <$> ds).

(** Where the transfer is: [rem] is left to send before the last SOA. *)
Definition zone_place (cd cr : option Z) (cc : Z) (rem : list (Z * rr)) : Prop :=
  exists ds, zone_chain cd ds /\
    match ds with
    | [] => rem = []
    | p :: ds => exists d rem1, domain_at db p = Ok d /\ rem = rem1 ++ domains_records ds /\
        ((cr = None /\ rem1 = domain_records p) \/
         (exists r, cr = Some r /\ set_place p (domain_rrsets d) cr cc rem1))
    end.

Lemma find_any_spec p l : Forall (fun r => exists rs, rrset_at db r = Ok rs /\ zlength (rrs rs) < 65536) l ->
  exists pre post, l = pre ++ post /\ sets_records p pre = [] /\
    find_in_rrsets db (fun r => mret (rrset_zone r =? zp)) l = Ok (head post).
Proof using.
  induction 1 as [|r l (rs & Hrs & _) Hl (pre & post & -> & Hpre & IH)]; [by exists [], []|].
  cbn [find_in_rrsets]. rewrite Hrs. cbn [mbind res_bind mret res_ret].
  destruct (rrset_zone rs =? zp) eqn:E.
  - by exists [], (r :: pre ++ post).
  - exists (r :: pre), post. split_and!; [done| |done].
    rewrite sets_records_cons, Hpre, (set_records_sent p r rs Hrs), E, andb_false_r. done.
Qed.

Lemma sets_records_app p l1 l2 : sets_records p (l1 ++ l2) = sets_records p l1 ++ sets_records p l2.
Proof using. unfold sets_records. by rewrite fmap_app, join_app. Qed.

Lemma wp_axfr_rrsets p d cd cr cc total b dn offs (Q : Z * bool -> query -> Prop) rem :
  domain_at db p = Ok d -> sets_ok (domain_rrsets d) -> set_place p (domain_rrsets d) cr cc rem ->
  ready db nm q b dn offs -> all_fit b offs rem -> 0 <= total ->
  total + (room q - _position b) < 65536 ->
  moved_on rem (fun cd' cr cc rest => cd' = cd /\ set_place p (domain_rrsets d) cr cc rest /\ (rest = [] -> cr = None))
    total b dn offs Q ->
  wp (axfr_rrsets db zp z p total) Q (upd (at_place cd cr cc q) b dn offs).
Proof using Hdb.
  intros Hd Hsets (pre & l & HL & -> & Hp) Hr Hfit Ht Hroom HQ. unfold axfr_rrsets.
  wp_step. eapply wp_lift; [done|].
  eapply wp_axfr_rrsets_loop; try done. apply (f_equal length) in HL. rewrite length_app in HL. lia.
Qed.

Lemma wp_axfr_domains_loop ds : forall cd cr cc fuel total b dn offs (Q : Z * bool -> query -> Prop) rem,
  ready db nm q b dn offs -> zone_chain cd ds ->
  match ds with
  | [] => rem = []
  | p :: ds => exists d rem1, domain_at db p = Ok d /\ rem = rem1 ++ domains_records ds /\
      ((cr = None /\ rem1 = domain_records p) \/
       (exists r, cr = Some r /\ set_place p (domain_rrsets d) cr cc rem1))
  end ->
  all_fit b offs rem -> 0 <= total -> total + (room q - _position b) < 65536 -> (length ds < fuel)%nat ->
  moved_on rem zone_place total b dn offs Q ->
  wp (st_iter fuel (axfr_domains_step db zp z) total) Q (upd (at_place cd cr cc q) b dn offs).
Proof using Hdb Htop.
  induction ds as [|p ds IH]; intros cd cr cc fuel total b dn offs Q rem Hr Hchain Hplace Hfit Ht Hroom Hf HQ;
    (destruct fuel as [|fuel]; [simpl in Hf; lia|]); cbn [st_iter]; wp_step; unfold axfr_domains_step at 1;
    do 2 wp_step; change (axfr_current_domain (upd (at_place cd cr cc q) b dn offs)) with cd.
  - subst rem. specialize (HQ 0%nat cd cr cc b dn offs). rewrite Z.add_0_r in HQ.
    assert (Hend : Q (total, true) (upd (at_place cd cr cc q) b dn offs)).
    { apply HQ; [by apply wrote_refl|done|constructor|done|done|by exists []]. }
    inversion Hchain as [|p Hout|]; subst; [by do 2 wp_step|].
    wp_step. apply (wp_lift _ top); [by rewrite Htop|]. wp_step. eapply wp_lift; [done|]. cbn [negb].
    by do 2 wp_step.
  - inversion Hchain as [| |p' d ds' Hin Hd Hsets Hnext]; subst.
    destruct Hplace as (d' & rem1 & Hd' & -> & Hcase). rewrite Hd in Hd'. injection Hd' as <-.
    apply all_fit_app in Hfit as [Hf1 Hf2].
    wp_step. apply (wp_lift _ top); [by rewrite Htop|]. wp_step. eapply wp_lift; [done|]. cbn [negb].
    wp_step. eapply wp_lift; [done|].
    change (axfr_current_rrset (upd (at_place (Some p) cr cc q) b dn offs)) with cr.
    assert (Hset : forall cr cc, set_place p (domain_rrsets d) cr cc rem1 ->
      wp ('(total_added, ok) ← axfr_rrsets db zp z p total;
          if negb (ok : bool) then mret (inr (total_added, false)) else
          st_modify (fun q => set_axfr_current_domain (domain_next db d) q);;
          mret (inl total_added))
        (fun x s' => wp (match x with
                         | inl t => st_iter fuel (axfr_domains_step db zp z) t
                         | inr t => mret t
                         end) Q s') (upd (at_place (Some p) cr cc q) b dn offs)).
    { clear Hcase cr cc. intros cr cc Hsp. wp_step.
      eapply wp_axfr_rrsets; try done.
      intros k cd1 cr1 cc1 b1 dn1 offs1 Hw1 Hsh1 Hst1 Hk1 Hbl (-> & Hsp1 & Hnil). cbv beta iota.
      pose proof (stream_count _ _ _ _ Hst1) as Hcnt. unfold zlength in Hcnt. rewrite length_take in Hcnt.
      destruct (decide (k = length rem1)) as [Ek|Ek];
        [rewrite bool_decide_true by done|rewrite bool_decide_false by done]; cbn [negb].
      - rewrite take_ge in Hst1 by lia. rewrite (Hnil ltac:(by rewrite drop_ge by lia)).
        do 3 wp_step. cbv beta iota.
        change (set_axfr_current_domain (domain_next db d) (upd (at_place (Some p) None cc1 q) b1 dn1 offs1))
          with (upd (at_place (domain_next db d) None cc1 q) b1 dn1 offs1).
        apply (IH _ _ _ _ _ _ _ _ _ (domains_records ds)); [apply Hw1|done| | |lia|lia|simpl in Hf; lia|].
        { destruct ds as [|p2 ds2]; [done|]. inversion Hnext as [| |p3 d2 ds3 _ Hd2]; subst.
          exists d2, (domain_records p2). split_and!; [done|done|by left]. }
        { by eapply all_fit_wrote. }
        intros k2 cd2 cr2 cc2 b2 dn2 offs2 Hw2 Hsh2 Hst2 Hk2 Hbl2 Hp2.
        specialize (HQ (k + k2)%nat cd2 cr2 cc2 b2 dn2 offs2).
        rewrite length_app, take_app_ge, drop_app_ge in HQ by lia.
        replace (k + k2 - length rem1)%nat with k2 in HQ by lia.
        rewrite (bool_decide_ext _ (k2 = length (domains_records ds))) in HQ by lia.
        replace (total + Z.of_nat (k + k2)) with (total + Z.of_nat k + Z.of_nat k2) in HQ by lia.
        apply HQ; [by eapply wrote_trans|by eapply same_header_trans| |lia| |done].
        2: { intros x Hx. apply Hbl2. rewrite lookup_app_r in Hx by lia. rewrite <-Hx. f_equal. lia. }
        eapply stream_app; [|exact Hst2]. destruct Hr as [Hb Hh ? ? ?].
        apply (later_stream b1 b2); try done; [apply Hw1|apply Hw2|apply Hw2].
      - do 2 wp_step. specialize (HQ k (Some p) cr1 cc1 b1 dn1 offs1).
        rewrite bool_decide_false in HQ by (rewrite length_app; lia).
        rewrite take_app_le, drop_app_le in HQ by lia.
        apply HQ; [done|done|done|rewrite length_app; lia| |].
        { intros x Hx. apply Hbl. by rewrite lookup_app_l in Hx by lia. }
        exists (p :: ds). split; [done|]. exists d, (drop k rem1). split_and!; [done|done|].
        right. destruct cr1 as [r|]; [by exists r|]. exfalso.
        destruct Hsp1 as (pre & post & _ & Hh & Hp). destruct post; [|done]. cbn in Hp.
        apply (f_equal length) in Hp. rewrite length_drop in Hp. simpl in Hp. lia. }
    destruct Hcase as [[-> ->]|(r & -> & Hsp)].
    + wp_step. unfold domain_find_any_rrset.
      destruct (find_any_spec p (domain_rrsets d)) as (pre & post & HL & Hpre & Hfind); [apply Hsets|].
      wp_step. eapply wp_lift; [exact Hfind|]. wp_step.
      change (set_axfr_current_rr 0 (set_axfr_current_rrset (head post) (upd (at_place (Some p) None cc q) b dn offs)))
        with (upd (at_place (Some p) (head post) 0 q) b dn offs).
      apply Hset. exists pre, post. split_and!; [done|done|].
      assert (E : domain_records p = sets_records p post).
      { unfold domain_records. by rewrite Hd, HL, sets_records_app, Hpre. }
      rewrite E. apply place_next. destruct Hsets as [_ Hs]. rewrite HL in Hs. by apply Forall_app in Hs as [_ Hs].
    + wp_step. wp_step. by apply Hset.
Qed.
End zone.
End axfr.
