(* ===== verification/AxfrStream.v ===== *)
(** Theorems about whole zone transfers (Axfr.v): what each packet carries, the
    end of the transfer, and the zones that are never transferred. *)

From S2P Require Import Prelude Buffer Dname DnameProofs DnamePacket Dns Packet PacketProofs Contents Namedb NamedbProofs NamedbTable Edns Tsig Query QueryProofs QueryRecords QueryRRset QueryAnswer Acl Respond Axfr AxfrProofs.

Section stream.
Context `{T : NameTree} `{H : Hmac}.
Context (db : namedb) (nm : Z -> name) (Hdb : numbered db nm).

Abbreviation Qry := (ST query).

(** * Emptying the compression table *)

Fixpoint zero_all (l : list Z) (offs : list Z) : list Z :=
  match l with
  | [] => offs
  | p :: l => match domain_at db p with
              | Ok a => zero_all l (<[Z.to_nat (number a) := 0]> offs)
              | _ => zero_all l offs
              end
  end.

Lemma zget_ext (l l' : list Z) : zlength l = zlength l' ->
  (forall n, 0 <= n < zlength l -> zget l n = zget l' n) -> l = l'.
Proof using.
  unfold zlength. intros Hl Hz. apply list_eq. intros i. destruct (decide (i < length l)%nat) as [Hi|Hi].
  - specialize (Hz (Z.of_nat i) ltac:(lia)). unfold zget in Hz. rewrite Nat2Z.id in Hz.
    destruct (lookup_lt_is_Some_2 l i) as [x Hx]; [lia|].
    destruct (lookup_lt_is_Some_2 l' i) as [y Hy]; [lia|]. rewrite Hx, Hy in *. cbn in Hz. congruence.
  - rewrite !lookup_ge_None_2 by lia. done.
Qed.

Lemma zero_all_length l : forall offs, zlength (zero_all l offs) = zlength offs.
Proof using.
  induction l as [|p l IH]; intros offs; [done|]. cbn [zero_all].
  destruct (domain_at db p); rewrite IH; [|done..]. unfold zlength. by rewrite length_insert.
Qed.

(** The number is that of a domain of the list. *)
Definition has_number (l : list Z) (n : Z) : Prop := exists p a, p ∈ l /\ domain_at db p = Ok a /\ number a = n.

Lemma zero_all_get l : forall offs n, entries_ok db l offs -> 0 <= n < zlength offs ->
  (has_number l n -> zget (zero_all l offs) n = 0) /\
  (~ has_number l n -> zget (zero_all l offs) n = zget offs n).
Proof using.
  induction l as [|p l IH]; intros offs n He Hn; cbn [zero_all].
  { split; [intros (p & a & Hp & _); by apply elem_of_nil in Hp|done]. }
  destruct (He p) as (a & Ha & Hna); [by left|]. rewrite Ha.
  assert (Hlen : zlength (<[Z.to_nat (number a) := 0]> offs) = zlength offs)
    by (unfold zlength; by rewrite length_insert).
  destruct (IH (<[Z.to_nat (number a) := 0]> offs) n) as [IH1 IH2].
  { intros x Hx. destruct (He x) as (b & Hb & Hnb); [by right|]. exists b. by rewrite Hlen. }
  { lia. }
  assert (Hdec : has_number l n \/ ~ has_number l n).
  { destruct (existsb (fun x => match domain_at db x with Ok b => number b =? n | _ => false end) l) eqn:E.
    - left. apply existsb_exists in E as (x & Hx & E). destruct (domain_at db x) as [b| |] eqn:Eb; [|done..].
      apply Z.eqb_eq in E. exists x, b. split; [by apply list_elem_of_In|done].
    - right. intros (x & b & Hx & Hb & Hnb).
      assert (Hc : existsb (fun x => match domain_at db x with Ok b => number b =? n | _ => false end) l = true).
      { apply existsb_exists. exists x. split; [by apply list_elem_of_In|]. rewrite Hb. by apply Z.eqb_eq. }
      congruence. }
  destruct (decide (number a = n)) as [En|En].
  - assert (Hz : zget (zero_all l (<[Z.to_nat (number a) := 0]> offs)) n = 0).
    { destruct Hdec as [Hh|Hh]; [by apply IH1|]. rewrite IH2 by done. subst n. by apply zget_insert_eq. }
    split; [done|]. intros Hno. destruct Hno. exists p, a. split; [by left|done].
  - split.
    + intros (x & b & [->|Hx]%elem_of_cons & Hb & Hnb); [congruence|]. apply IH1. by exists x, b.
    + intros Hno. rewrite IH2; [by apply zget_insert_ne; lia|]. intros (x & b & Hx & Hb & Hnb).
      destruct Hno. exists x, b. split; [by right|done].
Qed.

Lemma wp_clear_list l : forall q b dn offs (Q : unit -> query -> Prop), entries_ok db l offs ->
  Q tt (upd q b dn (zero_all l offs)) -> wp (clear_compression_offsets db l) Q (upd q b dn offs).
Proof using.
  induction l as [|p l IH]; intros q b dn offs Q He HQ; cbn [clear_compression_offsets]; [by wp_step|].
  destruct (He p) as (a & Ha & Hn); [by left|]. cbn [zero_all] in HQ. rewrite Ha in HQ.
  eapply wp_domain_at; [done|]. wp_step. apply wp_offset_put; [lia|]. apply IH; [|done].
  intros x Hx. destruct (He x) as (c & Hc & Hnc); [by right|]. exists c. split; [done|].
  unfold zlength in *. by rewrite length_insert.
Qed.

(** What has been entered in an empty table is taken out. *)
Lemma pushed_zero P lo offs dn' offs' : pushes db P lo [] offs dn' offs' ->
  (forall p a, p ∈ dn' -> domain_at db p = Ok a -> 0 <= number a < zlength offs /\ zget offs (number a) = 0) /\
  (forall n, 0 <= n < zlength offs -> ~ has_number dn' n -> zget offs' n = zget offs n).
Proof using.
  induction 1 as [|p d o dn' offs' Hp [IH1 IH2] Hd Hn Hz Hlo Ho HP].
  { split; [intros p a Hp; by apply elem_of_nil in Hp|done]. }
  pose proof (pushes_length _ _ _ _ _ _ _ Hp) as Hl. split.
  - intros x a [->|Hx]%elem_of_cons Ha; [|by apply IH1 in Ha].
    rewrite Hd in Ha. injection Ha as <-. split; [lia|].
    destruct (pushes_lookup _ _ _ _ _ _ _ (number d) Hp) as [E|(E & _)]; [lia|congruence|done].
  - intros n Hr Hno. rewrite zget_insert_ne; [|lia|lia|].
    + apply IH2; [done|]. intros (x & a & Hx & Ha & Hna). destruct Hno. exists x, a. split; [by right|done].
    + intros <-. destruct Hno. exists p, d. split; [by left|done].
Qed.

Lemma wp_clear_tables P lo q b offs dn' offs' (Q : unit -> query -> Prop) :
  pushes db P lo [] offs dn' offs' -> Q tt (upd q b [] offs) ->
  wp (query_clear_compression_tables db) Q (upd q b dn' offs').
Proof using.
  intros Hp HQ. unfold query_clear_compression_tables. do 2 wp_step.
  change (compressed_dnames (upd q b dn' offs')) with dn'.
  pose proof (pushes_length _ _ _ _ _ _ _ Hp) as Hl. destruct (pushed_zero _ _ _ _ _ Hp) as [Hz Hother].
  assert (He : entries_ok db dn' offs').
  { apply (entries_pushes _ _ _ _ _ _ _ Hp). intros x Hx. by apply elem_of_nil in Hx. }
  assert (He' : entries_ok db (reverse dn') offs').
  { intros x Hx. rewrite elem_of_reverse in Hx. by apply He. }
  wp_step. apply wp_clear_list; [done|].
  assert (E : zero_all (reverse dn') offs' = offs).
  { apply zget_ext; [by rewrite zero_all_length|]. rewrite zero_all_length. intros n Hn.
    destruct (zero_all_get (reverse dn') offs' n He' Hn) as [H1 H2].
    assert (Hrev : has_number (reverse dn') n <-> has_number dn' n).
    { unfold has_number. by setoid_rewrite elem_of_reverse. }
    destruct (Z.eq_dec (zget (zero_all (reverse dn') offs') n) 0) as [E0|E0].
    - destruct (Z.eq_dec (zget offs n) 0) as [->|Eo]; [done|]. 
      assert (Hno : ~ has_number dn' n).
      { intros (p & a & Hpi & Ha & Hna). destruct (Hz p a Hpi Ha) as [_ Hz']. congruence. }
      rewrite H2 by (by rewrite Hrev). apply Hother; [lia|done].
    - assert (Hno : ~ has_number (reverse dn') n) by (intros Hh; by apply E0, H1).
      rewrite H2 by done. apply Hother; [lia|by rewrite <-Hrev]. }
  rewrite E. wp_step. exact HQ.
Qed.

(** * The name of the question *)

(** The labels from [o] on are in the packet without compression. *)
Lemma holds_name_in A d ls : forall p, Forall label_ok ls -> holds d p (wire ls) ->
  (forall i, p <= i < p + zlength (wire ls) -> A i) -> name_in A d p ls (p + zlength (wire ls)).
Proof using.
  induction ls as [|l ls IH]; intros p Hls Hh HA.
  - change (zlength (wire [])) with 1 in *. apply in_root; [apply HA; lia|]. by apply holds_byte in Hh.
  - apply Forall_cons in Hls as [Hl Hls]. cbn [wire] in Hh. apply holds_cons in Hh as [Hc Hh].
    apply holds_byte in Hc. apply holds_app in Hh as [Hlab Hh]. apply holds_slice in Hlab.
    rewrite zlength_wire_cons in *. pose proof (zlength_wire ls). destruct Hl as [Hl _].
    pose proof (in_label A d p ls (p + (zlength l + 1 + zlength (wire ls)))) as Hstep.
    rewrite Hc, Hlab in Hstep. apply Hstep; [lia|intros i Hi; apply HA; lia|].
    replace (p + (zlength l + 1 + zlength (wire ls))) with (p + 1 + zlength l + zlength (wire ls)) by lia.
    apply IH; [done|done|]. intros i Hi. apply HA. lia.
Qed.

Lemma holds_den hole d lim p ls ls' : Forall label_ok ls' -> holds d p (wire ls') ->
  normalize ls' = normalize ls -> p + zlength (wire ls') <= lim ->
  (forall x, p <= x -> ~ hole x) -> den hole d lim p ls.
Proof using.
  intros Hls Hh E Hl Hno. exists ls', (p + zlength (wire ls')). split; [|done].
  apply holds_name_in; [done|done|]. intros i Hi. destruct Hh as [Hp _]. split; [lia|apply Hno; lia].
Qed.

(** The domains from [p] to the root, by parents. *)
Inductive rooted (offs : list Z) : Z -> Prop :=
  | rooted_root p a : domain_at db p = Ok a -> parent a = None -> nm (number a) = [] -> rooted offs p
  | rooted_step p a up u l : domain_at db p = Ok a -> parent a = Some up -> 0 < number a < zlength offs ->
      domain_at db up = Ok u -> nm (number a) = l :: nm (number u) -> rooted offs up -> rooted offs p.

Lemma rooted_encodable offs p : rooted offs p -> encodable db nm offs p.
Proof using. induction 1; [by eapply encodable_root|by eapply encodable_step]. Qed.

Lemma rooted_insert offs n o p : rooted offs p -> rooted (<[n := o]> offs) p.
Proof using.
  assert (Hl : zlength (<[n := o]> offs) = zlength offs) by (unfold zlength; by rewrite length_insert).
  induction 1; [by eapply rooted_root|eapply rooted_step; try done; by rewrite Hl].
Qed.

(** Entering the question's name: every domain above [p] has the offset of its
    labels in the question. *)
Lemma wp_add_compression fuel : forall p a q b dn offs o ls (Q : unit -> query -> Prop),
  ready db nm q b dn offs -> rooted offs p -> domain_at db p = Ok a ->
  (forall x c, domain_at db x = Ok c -> 0 < number c -> (length (nm (number c)) <= length (nm (number a)))%nat ->
     zget offs (number c) = 0) ->
  Forall label_ok ls -> normalize ls = normalize (nm (number a)) -> holds (_data b) o (wire ls) ->
  QHEADERSZ <= o -> o + zlength (wire ls) <= _position b -> o + zlength (wire ls) < 65536 ->
  (length (nm (number a)) < fuel)%nat ->
  (forall dn' offs', ready db nm q b dn' offs' ->
     pushes db (fun _ _ => True) QHEADERSZ dn offs dn' offs' -> Q tt (upd q b dn' offs')) ->
  wp (st_iter fuel (fun '(domain, offset) =>
        d ← lift (domain_at db domain);
        match parent d with
        | None => mret (inr tt)
        | Some up =>
            query_put_dname_offset db domain offset;;
            len ← lift (label_length (dname_name (domain_dname d)));
            mret (inl (up, u16 (offset + (len + 1))))
        end) (p, o)) Q (upd q b dn offs).
Proof using Hdb.
  induction fuel as [|fuel IH]; intros p a q b dn offs o ls Q Hr Hrt Ha Hz Hls E Hh Ho Hend H16 Hf HQ; [lia|].
  cbn [st_iter]. wp_step. cbv beta iota. eapply wp_domain_at; [done|].
  destruct Hrt as [p a' Ha' Hup Hnm|p a' up u l Ha' Hup Hn Hu Hnm Hrt]; rewrite Ha in Ha'; injection Ha' as <-.
  { rewrite Hup. do 2 wp_step. apply HQ; [done|constructor]. }
  rewrite Hup. destruct (Hdb _ _ Ha) as [Hok Hdn]. rewrite Hnm in *.
  destruct ls as [|l' ls]; [done|]. apply Forall_cons in Hls as [Hl' Hls].
  assert (Hll : zlength l' = zlength l /\ normalize ls = normalize (nm (number u))).
  { unfold normalize in E. rewrite !fmap_cons in E. injection E as E1 E2. split; [|done].
    apply (f_equal length) in E1. rewrite !length_fmap in E1. unfold zlength. by rewrite E1. }
  destruct Hll as [Hll E'].
  assert (Hlab : label_ok l) by (destruct Hok as [Hok _]; by apply Forall_cons in Hok as [? _]).
  assert (Hh' : holds (_data b) (o + (zlength l + 1)) (wire ls)).
  { cbn [wire] in Hh. apply holds_cons in Hh as [_ Hh]. apply holds_app in Hh as [_ Hh]. rewrite Hll in Hh.
    by replace (o + (zlength l + 1)) with (o + 1 + zlength l) by lia. }
  rewrite zlength_wire_cons, Hll in *. pose proof (zlength_wire ls). pose proof (zlength_nonneg l).
  assert (Hlen : label_length (dname_name (domain_dname a)) = Ok (zlength l)).
  { rewrite Hdn. by apply label_head_length. }
  assert (Hnext : forall dn1 offs1, ready db nm q b dn1 offs1 ->
    pushes db (fun _ _ => True) QHEADERSZ dn offs dn1 offs1 -> rooted offs1 up ->
    (forall x c, domain_at db x = Ok c -> 0 < number c -> (length (nm (number c)) <= length (nm (number u)))%nat ->
       zget offs1 (number c) = 0) ->
    wp (len ← lift (label_length (dname_name (domain_dname a)));
        mret (inl (up, u16 (o + (len + 1))) : Z * Z + unit))
      (fun r s' => wp (match r with
                       | inl a' => st_iter fuel (fun '(domain, offset) =>
                            d ← lift (domain_at db domain);
                            match parent d with
                            | None => mret (inr tt)
                            | Some up =>
                                query_put_dname_offset db domain offset;;
                                len ← lift (label_length (dname_name (domain_dname d)));
                                mret (inl (up, u16 (offset + (len + 1))))
                            end) a'
                       | inr b => mret b
                       end) Q s') (upd q b dn1 offs1)).
  { intros dn1 offs1 Hr1 Hp1 Hrt1 Hz1. wp_step. eapply wp_lift; [done|]. wp_step. cbv beta iota.
    rewrite u16_small by (unfold QHEADERSZ in *; lia).
    apply (IH up u q b dn1 offs1 _ ls); try done; [lia..|simpl in Hf; lia|].
    intros dn2 offs2 Hr2 Hp2. apply HQ; [done|by eapply pushes_trans]. }
  wp_step. eapply wp_put_offset; [done|lia|..].
  - apply Hnext; [done|constructor|done|]. intros x c Hx Hc Hlt. apply (Hz x c); [done|done|simpl; lia].
  - intros Hmax. assert (Hza : zget offs (number a) = 0) by (apply (Hz p a); [done|lia|by rewrite Hnm]).
    assert (Hp1 : pushes db (fun n o' => n = number a /\ o' = o) QHEADERSZ dn offs (p :: dn)
        (<[Z.to_nat (number a) := o]> offs)).
    { eapply pushes_cons; [constructor|done|lia|done|lia|unfold QHEADERSZ in *; lia|done]. }
    destruct Hr as [Hb Hhd Hs He Hroom].
    apply Hnext.
    + split; [done|done| | |done].
      * eapply sound_pushes; [done|exact Hp1|]. intros n o' [-> ->]. rewrite Hnm. split; [|done].
        eapply (holds_den _ _ _ _ _ (l' :: ls)); [by constructor|done|done| |].
        -- rewrite zlength_wire_cons, Hll. lia.
        -- unfold header. lia.
      * by eapply entries_pushes.
    + eapply pushes_mono; [|reflexivity|exact Hp1]. done.
    + by apply rooted_insert.
    + intros x c Hx Hc Hlt. rewrite zget_insert_ne; [|lia|lia|].
      * apply (Hz x c); [done|done|simpl; lia].
      * intros Heq. rewrite <-Heq, Hnm in Hlt. simpl in Hlt. lia.
Qed.

(** * The end of a packet *)

(** The header of a packet of a transfer with [count] records. *)
Record transfer_header (b : buffer) (count : Z) : Prop := {
  header_aa : Z.land (zget (_data b) 2) AA_MASK <> 0;
  header_an : read_uint16 (_data b) 6 = count;
  header_ns : read_uint16 (_data b) 8 = 0;
  header_ar : read_uint16 (_data b) 10 = 0;
}.

Lemma wp_AA_SET q b dn offs (Q : unit -> query -> Prop) : ready db nm q b dn offs ->
  (forall b', wrote db nm q b dn offs b' dn offs -> _position b' = _position b ->
     Z.land (zget (_data b') 2) AA_MASK <> 0 -> (forall j, 0 <= j -> j <> 2 -> zget (_data b) j = zget (_data b') j) ->
     Q tt (upd q b' dn offs)) ->
  wp (on_packet AA_SET) Q (upd q b dn offs).
Proof using.
  intros Hr HQ. pose proof Hr as [Hb Hh _ _ _]. pose proof Hb as []. unfold QHEADERSZ in Hh.
  apply wp_on_packet, wp_byte_update; [done|lia|].
  set (v := u8 _). destruct (touch_header b 2 v) as (Hok & Hex & Hpos); [done|done|unfold QHEADERSZ; lia|apply u8_range|].
  apply HQ; [by apply wrote_back|done| |].
  - cbn [_data set_data]. rewrite zget_insert_eq by lia. subst v. intros E.
    apply (f_equal (fun x => Z.testbit x 2)) in E.
    unfold u8 in E. rewrite Z.land_spec, Z.mod_pow2_bits_low, Z.lor_spec in E by lia.
    rewrite Z.bits_0, orb_true_r in E. done.
  - intros j Hj Hne. cbn [_data set_data]. symmetry. apply zget_insert_ne; lia.
Qed.

Lemma wp_axfr_finish P lo q total b dn offs offs0 (Q : query_state -> query -> Prop) :
  ready db nm q b dn offs -> pushes db P lo [] offs0 dn offs -> 0 <= total < 65536 ->
  (forall b' s, buffer_ok b' -> extends b b' -> _position b' = _position b ->
     read_uint16 (_data b') 4 = read_uint16 (_data b) 4 -> transfer_header b' total ->
     (tsig_sign_it q = true -> s = true) ->
     Q QUERY_IN_AXFR (upd (set_tsig_sign_it s q) b' [] offs0)) ->
  wp (axfr_finish db total) Q (upd q b dn offs).
Proof using.
  intros Hr Hp Ht HQ. unfold axfr_finish.
  wp_step. apply wp_AA_SET; [done|]. intros b1 Hw1 Hp1 Haa Ho1.
  wp_step. apply (wp_count db nm); [apply Hw1|unfold QHEADERSZ; lia..|]. intros b2 Hw2 Hp2 Han Ho2.
  wp_step. apply (wp_count db nm); [apply Hw2|unfold QHEADERSZ; lia..|]. intros b3 Hw3 Hp3 Hns Ho3.
  wp_step. apply (wp_count db nm); [apply Hw3|unfold QHEADERSZ; lia..|]. intros b4 Hw4 Hp4 Har Ho4.
  assert (Hw : wrote db nm q b dn offs b4 dn offs) by (do 3 (eapply wrote_trans; [done|]); done).
  pose proof Hr as [Hb _ _ _ _]. destruct Hw1 as [[Hb1 _ _ _ _] _ _], Hw2 as [[Hb2 _ _ _ _] _ _],
    Hw3 as [[Hb3 _ _ _ _] _ _], Hw4 as [[Hb4 _ _ _ _] _ _].
  assert (HQ' : forall s, (tsig_sign_it q = true -> s = true) ->
    Q QUERY_IN_AXFR (upd (set_tsig_sign_it s q) b4 [] offs0)).
  { intros s Hs. apply HQ; [done|apply Hw|congruence| | |done].
    - rewrite (only_at_u16 _ _ _ _ Ho4), (only_at_u16 _ _ _ _ Ho3), (only_at_u16 _ _ _ _ Ho2) by (done || lia).
      rewrite !read_uint16_eq by (apply Hb || apply Hb1). by rewrite <-!Ho1 by lia.
    - split.
      + by rewrite <-(Ho4 2), <-(Ho3 2), <-(Ho2 2) by lia.
      + by rewrite (only_at_u16 _ _ _ _ Ho4), (only_at_u16 _ _ _ _ Ho3) by (done || lia).
      + by rewrite (only_at_u16 _ _ _ _ Ho4) by (done || lia).
      + done. }
  do 2 wp_step. 
  match goal with |- context [if ?c then _ else _] => destruct c end.
  - change (set_tsig_sign_it true (upd q b4 dn offs)) with (upd (set_tsig_sign_it true q) b4 dn offs).
    wp_step. apply (wp_clear_tables P lo _ b4 offs0); [done|]. wp_step. by apply HQ'.
  - wp_step. apply (wp_clear_tables P lo _ b4 offs0); [done|]. wp_step.
    replace q with (set_tsig_sign_it (tsig_sign_it q) q) by (by destruct q). by apply HQ'.
Qed.

(** * A transfer under way *)
Section transfer.
Context (n : nsd) (zp top sp : Z) (z : zone) (srs : rrset) (soa : rr).
Context (offs0 : list Z) (R L : Z).

(** The zone that is transferred. *)
Record zone_ok : Prop := {
  zone_found : zone_at db zp = Ok z;
  zone_apex : apex z = Some top;
  zone_soa : soa_rrset z = Some sp;
  zone_soa_set : rrset_at db sp = Ok srs;
  zone_soa_rr : rrs srs = [soa];
}.

(** Messages of [L] bytes of which at most [R] are for the signature. *)
Record limits_ok : Prop := {
  limit_L : L <= AXFR_MAX_MESSAGE_LEN;
  limit_R : 0 <= R <= L;
  limit_table : forall i, zget offs0 i = 0;
}.

(** The record fits in an empty message. *)
Definition sendable (x : Z * rr) : Prop :=
  exists sz, rr_ok db nm offs0 x.1 x.2 sz /\ QHEADERSZ + sz + R <= L.

(** The record can be written behind a full message, to notice that it does
    not fit. *)
Definition writable (x : Z * rr) : Prop :=
  exists sz, rr_ok db nm offs0 x.1 x.2 sz /\ L + sz <= 65536.

Lemma sendable_writable x : limits_ok -> sendable x -> writable x.
Proof using.
  intros [HL HR _] (sz & Hok & Hsz). exists sz. split; [done|].
  unfold QHEADERSZ, AXFR_MAX_MESSAGE_LEN, MAX_COMPRESSION_OFFSET in *. lia.
Qed.

Lemma sendable_all l : limits_ok -> Forall sendable l -> Forall writable l.
Proof using. intros Hlim Hl. eapply Forall_impl; [exact Hl|]. intros x. by apply sendable_writable. Qed.

Lemma sendable_room x : sendable x -> QHEADERSZ + R <= L.
Proof using.
  intros (sz & (a & m & _ & _ & Hrd & ->) & Hsz). pose proof (rdata_ok_nonneg _ _ _ _ _ _ _ Hrd).
  pose proof (zlength_nonneg (wire (nm (number a)))). lia.
Qed.

(** The record does not fit in a message that has no other. *)
Definition stalled (x : Z * rr) : Prop :=
  exists q, L - R <= room q <= L /\ blocked db nm q QHEADERSZ x.

(** [rem] is left to send before the last SOA record. *)
Record transfer (rem : list (Z * rr)) (q : query) : Prop := {
  transfer_going : axfr_is_done q = false;
  transfer_zone : axfr_zone q = Some zp;
  transfer_place : zone_place db zp z top (axfr_current_domain q) (axfr_current_rrset q) (axfr_current_rr q) rem;
  transfer_dnames : compressed_dnames q = [];
  transfer_offsets : compressed_dname_offsets q = offs0;
  transfer_maxlen : maxlen q = L;
  transfer_capacity : 65536 <= _capacity (packet q);
}.

(** The query when the next packet is made: only the packet, which has been
    sent and cleared, and the state of the signature have changed. *)
Inductive resumed (q : query) : query -> Prop :=
  | resumed_intro t s b : buffer_ok b -> _position b = 0 -> _limit b = _capacity b ->
      _capacity b = _capacity (packet q) -> 0 <= tsig_reserved_space (nsd_tsig n) t <= R ->
      resumed q (set_tsig_sign_it s (set_tsig t (set_packet b q))).

Lemma transfer_resumed rem q q' : transfer rem q -> resumed q q' -> transfer rem q'.
Proof using. intros [] [t s b ? ? ? Hc ?]. split; try done. cbn [packet set_packet set_tsig set_tsig_sign_it]. lia. Qed.

Definition cleared (b : buffer) : Prop :=
  buffer_ok b /\ _position b = 0 /\ _limit b = _capacity b /\ 65536 <= _limit b.

Lemma resumed_cleared rem q q' : transfer rem q -> resumed q q' -> cleared (packet q').
Proof using.
  intros [] [t s b Hb Hpos Hl Hc]. cbn [packet set_packet set_tsig set_tsig_sign_it].
  split_and!; [done|done|done|lia].
Qed.

(** What a message carries after the question. *)
Record message (start : Z) (l : list (Z * rr)) (q : query) : Prop := {
  message_buffer : buffer_ok (packet q);
  message_header : transfer_header (packet q) (zlength l);
  message_records : stream_at db nm (_data (packet q)) start l (_position (packet q));
}.

(** [k] records are sent; [rem] and the last SOA record were to be sent. *)
Definition sent_message (start : Z) (pre rem : list (Z * rr)) (q0 q : query) : Prop := exists k,
  (k <= S (length rem))%nat /\
  ((k + length pre = 0)%nat -> exists x, head (rem ++ [(top, soa)]) = Some x /\ stalled x) /\ tsig q = tsig q0 /\
  (message start (pre ++ take k (rem ++ [(top, soa)])) q /\ _position (packet q) <= L) /\
  if decide (k = S (length rem)) then axfr_is_done q = true /\ tsig_sign_it q = true else transfer (drop k rem) q.

Lemma writable_fits q b offs P lo dn l : pushes db P lo [] offs0 dn offs -> limits_ok ->
  room q <= L -> 65536 <= _limit b -> Forall writable l -> all_fit db nm q b offs l.
Proof using.
  intros Hp [HL HR _] Hroom Hl Hs. eapply Forall_impl; [exact Hs|]. intros x (sz & Hok & Hsz). exists sz.
  split; [by eapply rr_ok_pushes|]. lia.
Qed.

Lemma sendable_not_stalled x : sendable x -> ~ stalled x.
Proof using. intros (sz & Hok & Hsz) (q & Hroom & Hb). specialize (Hb _ _ Hok). lia. Qed.

(** The chain of domains has no domain twice. *)
Lemma chain_det o ds ds' : zone_chain db top o ds -> zone_chain db top o ds' -> ds = ds'.
Proof using.
  intros H1. revert ds'. induction H1 as [|p Hp|p d ds Hp Hd Hs Hn IH]; intros ds' H2; inversion H2; subst;
    try congruence. f_equal. apply IH. congruence.
Qed.

Lemma chain_suffix o pre p post : zone_chain db top o (pre ++ p :: post) -> zone_chain db top (Some p) (p :: post).
Proof using.
  revert o. induction pre as [|x pre IH]; intros o Hc; inversion Hc; subst; [done|by eapply IH].
Qed.

Lemma chain_domains o ds p : zone_chain db top o ds -> p ∈ ds -> is_Some (domains db !! p).
Proof using.
  induction 1 as [|x Hx|x d ds Hx Hd Hs Hn IH]; intros Hp; [by apply elem_of_nil in Hp..|].
  apply elem_of_cons in Hp as [->|Hp]; [|by apply IH]. unfold domain_at, points_to in Hd.
  destruct (domains db !! x); [by eexists|done].
Qed.

Lemma chain_length o ds : zone_chain db top o ds -> (length ds <= size (domains db))%nat.
Proof using.
  intros Hc. assert (Hnd : NoDup ds).
  { apply NoDup_alt. intros i j x Hi Hj.
    assert (Hcase : forall i j, ds !! i = Some x -> ds !! j = Some x -> ~ (i < j)%nat).
    { clear i j Hi Hj. intros i j Hi Hj Hlt.
      rewrite <-(take_drop_middle _ _ _ Hi) in Hc. apply chain_suffix in Hc as Hc1.
      rewrite (take_drop_middle _ _ _ Hi) in Hc.
      rewrite <-(take_drop_middle _ _ _ Hj) in Hc. apply chain_suffix in Hc as Hc2.
      pose proof (chain_det _ _ _ Hc1 Hc2) as E. apply (f_equal length) in E. simpl in E.
      rewrite !length_drop in E. apply lookup_lt_Some in Hj. lia. }
    destruct (Nat.lt_trichotomy i j) as [Hlt|[?|Hlt]]; [|done|]; exfalso;
      [by apply (Hcase i j)|by apply (Hcase j i)]. }
  assert (Hsub : list_to_set (C := gset Z) ds ⊆ dom (domains db)).
  { intros p Hp. apply elem_of_list_to_set in Hp. apply elem_of_dom. by eapply chain_domains. }
  apply subseteq_size in Hsub. rewrite size_list_to_set, size_dom in Hsub by done. lia.
Qed.

(** The transfer when [q1] finishes its packet. *)
Definition left_over (k : nat) (rem : list (Z * rr)) (q1 : query) : Prop :=
  if decide (k = S (length rem)) then axfr_is_done q1 = true /\ tsig_sign_it q1 = true
  else axfr_is_done q1 = false /\ axfr_zone q1 = Some zp /\ maxlen q1 = L /\
       zone_place db zp z top (axfr_current_domain q1) (axfr_current_rrset q1) (axfr_current_rr q1) (drop k rem).

(** What the caller of the loop learns of the packet. *)
Definition packet_done (start : Z) (pre rem : list (Z * rr)) (q : query) (b : buffer)
    (st : query_state) (q' : query) : Prop :=
  st = QUERY_IN_AXFR /\ sent_message start pre rem q q' /\
  read_uint16 (_data (packet q')) 4 = read_uint16 (_data b) 4.

Lemma same_header_u16 i b b' : same_header b b' -> buffer_ok b -> buffer_ok b' -> 0 <= i -> i + 1 < QHEADERSZ ->
  read_uint16 (_data b') i = read_uint16 (_data b) i.
Proof using. intros Hs Hb Hb' Hi Hl. rewrite !read_uint16_eq by (apply Hb || apply Hb'). by rewrite !Hs by lia. Qed.

Lemma wp_fill_end q q1 start pre rem k total b0 b dn offs :
  pushes db (fun _ _ => True) QHEADERSZ [] offs0 dn offs -> ready db nm q1 b dn offs ->
  QHEADERSZ <= start -> start <= _position b ->
  stream_at db nm (_data b) start (pre ++ take k (rem ++ [(top, soa)])) (_position b) ->
  total = zlength pre + Z.of_nat k -> total < 65536 -> (k <= S (length rem))%nat ->
  ((k + length pre = 0)%nat -> exists x, head (rem ++ [(top, soa)]) = Some x /\ stalled x) ->
  _position b <= L -> 65536 <= _limit b -> tsig q1 = tsig q -> left_over k rem q1 -> same_header b0 b -> buffer_ok b0 ->
  wp (axfr_finish db total) (packet_done start pre rem q b0) (upd q1 b dn offs).
Proof using.
  intros Hp Hr Hs1 Hs2 Hst Ht Hlt Hk Hk0 HposL Hlim Htsig Hleft Hsh Hb0. pose proof (zlength_nonneg pre).
  eapply wp_axfr_finish; [done|done|lia|]. intros b' s Hb' Hex Hpos Hqd Hhd Hs.
  assert (Hlen : zlength (pre ++ take k (rem ++ [(top, soa)])) = total).
  { rewrite zlength_app. unfold zlength at 2. rewrite length_take, length_app. simpl. lia. }
  split; [done|]. split; [|cbn; rewrite Hqd; apply same_header_u16; [done|done|apply Hr|unfold QHEADERSZ; lia..]].
  exists k. split; [done|]. split; [done|]. split; [done|]. split.
  - split; [|cbn; lia]. split; [done|by rewrite Hlen|]. cbn. rewrite Hpos. apply (later_stream _ _ b b'); try done. apply Hr.
  - revert Hleft. unfold left_over. destruct (decide (k = S (length rem))).
    + intros [? ?]. split; [done|]. by apply Hs.
    + intros (? & ? & ? & ?). split; try done. cbn. destruct Hb', Hex. lia.
Qed.

Lemma wp_encode_soa q1 b dn offs (Q : bool -> query -> Prop) : zone_ok ->
  ready db nm q1 b dn offs -> fits db nm q1 b offs top soa ->
  (forall b' dn' offs', wrote db nm q1 b dn offs b' dn' offs' -> same_header b b' ->
     rr_at db nm (_data b') (_position b) (_position b') top soa (ttl soa) -> Q true (upd q1 b' dn' offs')) ->
  (forall b', wrote db nm q1 b dn offs b' dn offs -> same_header b b' -> _position b' = _position b ->
     blocked db nm q1 (_position b) (top, soa) -> Q false (upd q1 b' dn offs)) ->
  wp (encode_soa db z) Q (upd q1 b dn offs).
Proof using Hdb.
  intros [Hz Hap Hso Hset Hrr] Hr Hf HQt HQf. unfold encode_soa.
  wp_step. apply (wp_lift _ sp); [by rewrite Hso|]. wp_step. eapply wp_lift; [done|].
  wp_step. apply wp_assert; [unfold rr_count; by rewrite Hrr|].
  wp_step. apply (wp_lift _ top); [by rewrite Hap|]. wp_step. apply (wp_lift _ soa); [unfold first_rr; by rewrite Hrr|].
  by apply (wp_one_at db nm Hdb q1 q1).
Qed.

Lemma at_own_place q : at_place (axfr_current_domain q) (axfr_current_rrset q) (axfr_current_rr q) q = q.
Proof using. by destruct q. Qed.

Section fill.
Context (q : query) (start : Z) (pre rem : list (Z * rr)) (b : buffer) (dn offs : list Z).
Context (Hz : zone_ok) (Hlim : limits_ok) (Hr : ready db nm q b dn offs).
Context (Hp : pushes db (fun _ _ => True) QHEADERSZ [] offs0 dn offs).
Context (Hgoing : axfr_is_done q = false) (Hzone : axfr_zone q = Some zp) (Hmax : maxlen q = L).
Context (Hplace : zone_place db zp z top (axfr_current_domain q) (axfr_current_rrset q) (axfr_current_rr q) rem).
Context (Hroom : L - R <= room q <= L) (Hcap : 65536 <= _limit b).
Context (Hsend : Forall writable rem) (Hsoa : writable (top, soa)).
Context (Hstart : QHEADERSZ <= start) (Hpre : stream_at db nm (_data b) start pre (_position b)).
Context (Hfirst : pre = [] -> _position b = QHEADERSZ).

Lemma fill_end q1 k b1 dn1 offs1 : (k <= S (length rem))%nat -> wrote db nm q b dn offs b1 dn1 offs1 ->
  same_header b b1 -> stream_at db nm (_data b1) (_position b) (take k (rem ++ [(top, soa)])) (_position b1) ->
  (k = 0%nat -> _position b1 = _position b ->
     exists x, (rem ++ [(top, soa)]) !! 0%nat = Some x /\ blocked db nm q (_position b1) x) ->
  room q1 = room q -> tsig q1 = tsig q -> left_over k rem q1 ->
  wp (axfr_finish db (zlength pre + Z.of_nat k)) (packet_done start pre rem q b) (upd q1 b1 dn1 offs1).
Proof using All.
  intros Hk Hw Hsh Hst Hnone Hrm Htsig Hleft. pose proof Hr as [Hb Hh _ _ Hbr]. pose proof Hw as [Hr1 Hex Hpw].
  pose proof (stream_count _ _ _ _ _ _ Hst) as Hc. unfold zlength in Hc. rewrite length_take, length_app in Hc.
  simpl in Hc. pose proof (stream_count _ _ _ _ _ _ Hpre) as Hc0. pose proof (zlength_nonneg pre).
  destruct Hlim as [HL _ _]. unfold AXFR_MAX_MESSAGE_LEN, MAX_COMPRESSION_OFFSET in HL.
  pose proof (ready_room _ _ _ _ _ _ Hr1). pose proof (extends_limit _ _ Hex). pose proof (extends_pos _ _ Hex).
  unfold QHEADERSZ in Hstart.
  eapply wp_fill_end; try done; try lia.
  - eapply pushes_trans; [exact Hp|]. eapply pushes_mono; [|exact Hh|exact Hpw]. done.
  - eapply ready_room_eq; [|exact Hr1]. done.
  - eapply stream_app; [|exact Hst]. apply (later_stream _ _ b b1); try done. apply Hr1.
  - intros Ek. destruct k; [|lia]. destruct pre; [|simpl in Ek; lia].
    assert (Hpos : _position b1 = _position b) by (inversion Hst; congruence).
    destruct (Hnone eq_refl Hpos) as (x & Hx & Hbl). exists x. split; [by rewrite head_lookup|].
    rewrite Hpos, Hfirst in Hbl by done. by exists q.
Qed.

Lemma wp_axfr_fill : wp (axfr_fill db (zlength pre)) (packet_done start pre rem q b) (upd q b dn offs).
Proof using All.
  pose proof Hz as [Hzat Hap Hso Hset Hrr]. pose proof Hr as [Hb Hh _ _ Hbr].
  pose proof (stream_count _ _ _ _ _ _ Hpre) as Hc0. pose proof (zlength_nonneg pre).
  pose proof Hlim as [HL _ _]. unfold AXFR_MAX_MESSAGE_LEN, MAX_COMPRESSION_OFFSET in HL.
  unfold QHEADERSZ in Hstart. destruct Hplace as (ds & Hchain & Hds).
  unfold axfr_fill. do 2 wp_step. wp_step. apply (wp_lift _ zp); [cbn; by rewrite Hzone|].
  wp_step. eapply wp_lift; [exact Hzat|].
  wp_step. unfold axfr_domains.
  replace (upd q b dn offs) with (upd (at_place (axfr_current_domain q) (axfr_current_rrset q) (axfr_current_rr q) q) b dn offs)
    by (by rewrite at_own_place).
  pose proof (chain_length _ _ Hchain).
  assert (Hfit : all_fit db nm q b offs rem).
  { eapply writable_fits; try done. lia. }
  apply (wp_axfr_domains_loop db nm Hdb zp z q top Hap ds _ _ _ _ _ _ _ _ _ rem); try done; [lia..|].
  intros k cd cr cc b1 dn1 offs1 Hw1 Hsh1 Hst1 Hk Hbl Hplace1. cbv beta iota.
  pose proof (stream_count _ _ _ _ _ _ Hst1) as Hc1. unfold zlength at 1 in Hc1. rewrite length_take in Hc1.
  destruct (decide (k = length rem)) as [Ek|Ek];
    [rewrite bool_decide_true by done|rewrite bool_decide_false by done]; cbn [negb].
  - set (q2 := at_place cd cr cc q).
    assert (Hr2 : ready db nm q2 b1 dn1 offs1) by (eapply ready_room_eq; [|apply Hw1]; done).
    rewrite take_ge in Hst1 by lia. rewrite drop_ge in Hplace1 by lia.
    wp_step. apply wp_encode_soa; [done|done| |intros b2 dn2 offs2 Hw2 Hsh2 Hrr2|intros b2 Hw2 Hsh2 Hpos2 Hbl2].
    { destruct Hsoa as (sz & Hok & Hsz). exists sz. pose proof (extends_limit _ _ (wrote_extends _ _ _ _ _ _ _ _ _ Hw1)).
      pose proof (wrote_pushes _ _ _ _ _ _ _ _ _ Hw1) as Hpw. split.
      - eapply rr_ok_pushes; [exact Hpw|]. by eapply rr_ok_pushes.
      - change (room q2) with (room q). lia. }
    + apply (wrote_room_eq db nm q2 q) in Hw2; [|done].
      cbv beta iota. do 2 wp_step. rewrite u16_small; cycle 1.
      { pose proof (rr_at_end _ _ _ _ _ _ _ _ Hrr2). pose proof (ready_room _ _ _ _ _ _ (wrote_ready _ _ _ _ _ _ _ _ _ Hw2)).
        lia. }
      change (set_axfr_is_done true (set_tsig_sign_it true (upd q2 b2 dn2 offs2)))
        with (upd (set_axfr_is_done true (set_tsig_sign_it true q2)) b2 dn2 offs2).
      replace (zlength pre + Z.of_nat k + 1) with (zlength pre + Z.of_nat (S k)) by lia.
      apply fill_end; try done; [lia|by eapply wrote_trans|by eapply same_header_trans| |].
      * rewrite take_ge by (rewrite length_app; simpl; lia). eapply stream_app.
        -- apply (later_stream _ _ b1 b2); try done; [apply Hw1|apply Hw2|apply Hw2].
        -- econstructor; [exact Hrr2|constructor].
      * unfold left_over. rewrite decide_True by lia. done.
    + apply (wrote_room_eq db nm q2 q) in Hw2; [|done]. cbv beta iota.
      apply fill_end; try done; [lia|by eapply wrote_trans|by eapply same_header_trans| | |].
      * rewrite take_app_le, take_ge by lia. rewrite Hpos2.
        apply (later_stream _ _ b1 b2); try done; [apply Hw1|apply Hw2|apply Hw2].
      * intros Ek0 _. destruct rem; [|simpl in *; lia]. eexists. split; [done|]. rewrite Hpos2. exact Hbl2.
      * unfold left_over. rewrite decide_False by lia. rewrite drop_ge by lia. done.
  - apply fill_end; try done; [lia| | |].
    + by rewrite take_app_le by lia.
    + intros -> _. destruct rem as [|x l]; [done|]. exists x. split; [done|]. by apply Hbl.
    + unfold left_over. rewrite decide_False by lia. done.
Qed.
End fill.

(** ** The packets after the first *)

Lemma ready_empty q b : limits_ok -> buffer_ok b -> QHEADERSZ <= _position b -> _position b <= room q ->
  ready db nm q b [] offs0.
Proof using.
  intros [_ _ Hz] Hb Hh Hr. split; try done.
  - intros i Hi Hne. by rewrite Hz in Hne.
  - intros p Hp. by apply elem_of_nil in Hp.
Qed.

Lemma wp_write_u16_at b i v (Q : unit -> buffer -> Prop) : buffer_ok b -> 0 <= i -> i + 2 <= _limit b ->
  (buffer_ok (set_data (list_inserts (Z.to_nat i) (write_uint16 v) (_data b)) b) ->
   Q tt (set_data (list_inserts (Z.to_nat i) (write_uint16 v) (_data b)) b)) ->
  wp (buffer_write_u16_at i v) Q b.
Proof using.
  intros Hb Hi Hl HQ. pose proof Hb as []. assert (Hw : zlength (write_uint16 v) = 2) by done.
  unfold buffer_write_u16_at. apply wp_buffer_write_at; [done|lia|]. apply HQ.
  apply buffer_ok_set_data; [done|by rewrite zlength_inserts|auto with wp].
Qed.

Lemma wp_axfr_continue q b (Q : unit -> query -> Prop) : limits_ok -> cleared b -> maxlen q = L ->
  QHEADERSZ + R <= L -> 0 <= tsig_reserved_space (nsd_tsig n) (tsig q) <= R ->
  (forall b1 e, let q1 := set_reserved_space (tsig_reserved_space (nsd_tsig n) (tsig q)) (set_edns e q) in
     ready db nm q1 b1 [] offs0 -> _position b1 = QHEADERSZ -> 65536 <= _limit b1 ->
     L - R <= room q1 <= L -> read_uint16 (_data b1) 4 = 0 -> Q tt (upd q1 b1 [] offs0)) ->
  wp (axfr_continue n) Q (upd q b [] offs0).
Proof using.
  intros Hlim (Hb & Hpos & Hcap & Hl) Hmax HL Ht HQ. pose proof Hlim as [HL' _ _].
  unfold AXFR_MAX_MESSAGE_LEN, MAX_COMPRESSION_OFFSET in HL'. unfold QHEADERSZ in *. pose proof Hb as [].
  unfold axfr_continue, QHEADERSZ. do 2 wp_step.
  set (e := mkedns_record EDNS_NOT_PRESENT (edns_position (edns q)) (edns_maxlen (edns q)) (opt_reserved_space (edns q))
              (dnssec_ok (edns q)) (edns_nsid (edns q))).
  change (set_edns _ (upd q b [] offs0)) with (upd (set_edns e q) b [] offs0).
  assert (Hb1 : buffer_ok (set_lim 12 b)) by (split; cbn; try done; lia).
  wp_step. apply wp_on_packet. unfold buffer_set_limit. do 3 wp_step. apply wp_assert; [cbn; lia|]. cbv beta iota zeta.
  wp_step. cbn [_limit set_lim _position].
  assert (E0 : (12 <? _position b) = false) by lia. rewrite E0.
  wp_step. apply wp_on_packet. apply wp_write_u16_at; [done|lia|cbn; lia|]. intros Hb2.
  set (b2 := set_data _ _) in *.
  unfold query_prepare_response. wp_step. apply wp_on_packet. unfold buffer_limit. do 3 wp_step.
  wp_step. apply wp_on_packet, wp_buffer_set_position; [done|].
  assert (Hb3 : buffer_ok (set_pos 12 b2)) by (apply buffer_ok_set_pos; [done|cbn; lia]).
  wp_step. apply wp_on_packet. unfold buffer_capacity. do 3 wp_step.
  wp_step. apply wp_on_packet. unfold buffer_set_limit. do 3 wp_step. apply wp_assert; [cbn; lia|]. cbv beta iota zeta.
  wp_step.
  match goal with |- context [if ?c then _ else _] => assert (E1 : c = false) by (cbn; lia); rewrite E1 end.
  set (b3 := set_lim _ _).
  assert (Hb4 : buffer_ok b3) by (subst b3; destruct Hb3; split; cbn in *; try done; lia).
  do 2 wp_step.
  change (u64 (edns_reserved_space (edns (upd (set_edns e q) b3 [] offs0)) +
    tsig_reserved_space (nsd_tsig n) (tsig (upd (set_edns e q) b3 [] offs0)))) with
    (u64 (0 + tsig_reserved_space (nsd_tsig n) (tsig q))).
  set (tr := tsig_reserved_space _ _) in *.
  assert (Hu : u64 (0 + tr) = tr) by (rewrite u64_small; lia). rewrite Hu.
  change (set_reserved_space tr (upd (set_edns e q) b3 [] offs0)) with
    (upd (set_reserved_space tr (set_edns e q)) b3 [] offs0).
  wp_step. apply wp_on_packet, wp_read_u16_header; [done|cbn; lia|].
  apply wp_on_packet. apply wp_write_u16_at; [done|lia|cbn; lia|]. intros Hb5.
  set (b5 := set_data _ _) in *.
  assert (Hroom : L - R <= room (set_reserved_space tr (set_edns e q)) <= L).
  { unfold room. cbn. rewrite Hmax, u64_small; lia. }
  apply HQ; [|done|cbn; lia|done|].
  - apply ready_empty; [done|done|done|]. change (12 <= room (set_reserved_space tr (set_edns e q))). lia.
  - rewrite read_uint16_eq by apply Hb5. cbn [_data set_data]. change (_data b3) with (_data b2).
    assert (Hw : forall v, zlength (write_uint16 v) = 2) by done.
    assert (Hd2 : _data b2 = list_inserts (Z.to_nat 4) (write_uint16 0) (_data b)) by done.
    assert (Hl2 : zlength (_data b2) = _capacity b) by (rewrite Hd2, zlength_inserts; done).
    rewrite !zget_inserts_out by (rewrite ?Hw; lia). by rewrite Hd2, !zget_inserts_in by (rewrite ?Hw; lia).
Qed.

Definition take_turn (q : query) : query :=
  let q := set_tsig_update_it true (set_tsig_prepare_it false q) in
  if tsig_sign_it q then set_tsig_sign_it false (set_tsig_prepare_it true q) else q.

Definition next_packet (rem : list (Z * rr)) (q : query) (st : query_state) (q' : query) : Prop :=
  st = QUERY_IN_AXFR /\ sent_message QHEADERSZ [] rem q q' /\ read_uint16 (_data (packet q')) 4 = 0.

Lemma transfer_turn rem q : transfer rem q -> transfer rem (take_turn q).
Proof using.
  intros []. unfold take_turn. cbn [tsig_sign_it set_tsig_update_it set_tsig_prepare_it].
  destruct (tsig_sign_it q); by split.
Qed.

Lemma turn_tsig q : tsig (take_turn q) = tsig q /\ packet (take_turn q) = packet q.
Proof using.
  unfold take_turn. cbn [tsig_sign_it set_tsig_update_it set_tsig_prepare_it]. by destruct (tsig_sign_it q).
Qed.

Lemma wp_axfr_more rem q : zone_ok -> limits_ok -> transfer rem q -> cleared (packet q) ->
  0 <= tsig_reserved_space (nsd_tsig n) (tsig q) <= R -> QHEADERSZ + R <= L ->
  Forall writable rem -> writable (top, soa) -> wp (query_axfr db n) (next_packet rem q) q.
Proof using All.
  intros Hz Hlim Htr Hclr Ht Hs12 Hsend Hsoa. pose proof Hlim as [HL HR _].
  pose proof (transfer_turn _ _ Htr) as Htr'. destruct (turn_tsig q) as [Etsig Epkt].
  destruct Htr as [Hgo Hzn _ _ _ Hmax _]. unfold query_axfr. do 2 wp_step. rewrite Hgo, Hzn. 
  assert (Em : (AXFR_MAX_MESSAGE_LEN <? maxlen q) = false) by lia.
  do 2 wp_step. rewrite Em. wp_step. unfold query_overflow. do 3 wp_step.
  destruct Hclr as (Hb & Hpos & Hcl). wp_step. apply wp_assert.
  { rewrite Hpos. unfold u64. pose proof (Z.mod_pos_bound (maxlen q - reserved_space q) (2 ^ 64)). lia. }
  do 2 wp_step. fold (take_turn q). set (q1 := take_turn q) in *. destruct Htr' as [Hgo1 Hzn1 Hpl Hdn Hof Hmax1 Hc].
  rewrite <-(upd_same q1), Hdn, Hof, Epkt.
  wp_step. apply wp_axfr_continue; [done|by split|done|done|by rewrite Etsig|].
  rewrite Etsig. intros b1 e. cbv zeta. set (q2 := set_reserved_space _ _). intros Hr1 Hp1 Hl1 Hroom Hqd.
  eapply wp_mono.
  - apply (wp_axfr_fill q2 QHEADERSZ [] rem b1 [] offs0); try done; [constructor|].
    rewrite Hp1. constructor.
  - intros st q' (-> & Hsent & Hqd'). split_and!; [done| |by rewrite Hqd'].
    destruct Hsent as (k & ? & ? & Htg & Hrest). exists k. do 2 (split; [done|]). split; [|exact Hrest].
    rewrite Htg. exact Etsig.
Qed.

(** ** The first packet *)

(** A query for the transfer of the zone, after [query_prepare_response]: the
    question is in the packet. *)
Record asked (q : query) (name : dname_type) (cl : Z) (ls : list (list Z)) : Prop := {
  asked_new : axfr_is_done q = false /\ axfr_zone q = None;
  asked_name : qname q = Some name;
  asked_found : namedb_lookup db name = Ok (true, cl, top);
  asked_zone : domain_find_zone db (Some top) = Ok (Some zp);
  asked_tables : compressed_dnames q = [] /\ compressed_dname_offsets q = offs0;
  asked_maxlen : L = Z.min (maxlen q) AXFR_MAX_MESSAGE_LEN;
  asked_reserved : 0 <= reserved_space q <= R;
  asked_packet : buffer_ok (packet q) /\ 65536 <= _limit (packet q);
  asked_question : Forall label_ok ls /\ holds (_data (packet q)) QHEADERSZ (wire ls) /\
    QHEADERSZ + zlength (wire ls) <= _position (packet q);
  asked_same : exists a, domain_at db top = Ok a /\ normalize ls = normalize (nm (number a));
  asked_rooted : rooted offs0 top;
  asked_room : exists sz, rr_ok db nm offs0 top soa sz /\ _position (packet q) + sz + R <= L;
}.

Lemma wp_question P0 q b a ls (Q : unit -> query -> Prop) : limits_ok ->
  ready db nm q b [] offs0 -> domain_at db top = Ok a -> normalize ls = normalize (nm (number a)) ->
  rooted offs0 top -> Forall label_ok ls -> holds (_data b) QHEADERSZ (wire ls) ->
  QHEADERSZ + zlength (wire ls) <= _position b -> _position b <= P0 -> P0 < 65536 ->
  (forall dn offs, ready db nm q b dn offs -> pushes db (fun _ _ => True) QHEADERSZ [] offs0 dn offs ->
     Q tt (upd q b dn offs)) ->
  wp (query_add_compression_domain db top QHEADERSZ) Q (upd q b [] offs0).
Proof using Hdb.
  intros [_ _ Hz] Hr Ha E Hrt Hls Hh Hend Hp0 H16 HQ. unfold query_add_compression_domain.
  eapply wp_add_compression; try done; [lia|].
  apply name_ok_fuel. by destruct (Hdb _ _ Ha).
Qed.

Lemma wp_axfr_first rem ds q name cl ls : zone_ok -> limits_ok -> asked q name cl ls ->
  zone_chain db top (Some top) ds -> rem = domains_records db zp z ds -> Forall writable rem -> writable (top, soa) ->
  wp (query_axfr db n) (fun st q' => st = QUERY_IN_AXFR /\
    sent_message (_position (packet q)) [(top, soa)] rem q q' /\
    read_uint16 (_data (packet q')) 4 = read_uint16 (_data (packet q)) 4) q.
Proof using All.
  intros Hz Hlim [[Hgo Hnz] Hname Hfound Hfz [Hdn Hof] HL Hres [Hb Hl] (Hls & Hh & Hq) (a & Ha & E) Hrt (sz & Hok & Hsz)]
    Hchain Hrem Hsend Hsoa.
  pose proof Hz as [Hzat Hap Hso Hset Hrr]. pose proof Hlim as [HLm HR _].
  assert (Hsz0 : 0 <= sz).
  { destruct Hok as (a' & m & _ & _ & Hrd & ->). pose proof (rdata_ok_nonneg _ _ _ _ _ _ _ Hrd).
    pose proof (zlength_nonneg (wire (nm (number a')))). lia. }
  pose proof (zlength_wire ls). pose proof Hb as [].
  assert (H12 : QHEADERSZ = 12) by done. unfold AXFR_MAX_MESSAGE_LEN, MAX_COMPRESSION_OFFSET in HLm, HL.
  unfold query_axfr. do 2 wp_step. rewrite Hgo, Hnz.
  do 2 wp_step.
  set (q0 := if AXFR_MAX_MESSAGE_LEN <? maxlen q then _ else _).
  assert (Hq0 : q0 = set_maxlen L q).
  { subst q0. unfold AXFR_MAX_MESSAGE_LEN, MAX_COMPRESSION_OFFSET. destruct (Z.ltb_spec 16383 (maxlen q)).
    - by replace L with 16383 by lia.
    - replace L with (maxlen q) by lia. by destruct q. }
  rewrite Hq0. clearbody q0. clear q0 Hq0.
  wp_step. unfold query_overflow. do 3 wp_step. wp_step. apply wp_assert.
  { cbn [maxlen reserved_space packet set_maxlen]. rewrite u64_small by lia. lia. }
  do 2 wp_step. fold (take_turn (set_maxlen L q)). destruct (turn_tsig (set_maxlen L q)) as [Etsig Epkt].
  assert (Hturn : exists q1, take_turn (set_maxlen L q) = q1 /\ qname q1 = Some name /\ maxlen q1 = L /\
    compressed_dnames q1 = [] /\ compressed_dname_offsets q1 = offs0 /\ reserved_space q1 = reserved_space q /\
    axfr_is_done q1 = false).
  { eexists. split; [done|]. unfold take_turn. cbn [tsig_sign_it set_tsig_update_it set_tsig_prepare_it set_maxlen].
    by destruct (tsig_sign_it q). }
  destruct Hturn as (q1 & Eq1 & Hname1 & Hmax1 & Hdn1 & Hof1 & Hres1 & Hgo1). rewrite Eq1 in *. clear Eq1.
  cbn [tsig packet set_maxlen] in Etsig, Epkt.
  wp_step. unfold axfr_start. do 2 wp_step. wp_step. apply (wp_lift _ name); [by rewrite Hname1|].
  wp_step. eapply wp_lift; [exact Hfound|]. cbv beta iota. wp_step. eapply wp_lift; [exact Hfz|].
  do 2 wp_step. wp_step. eapply wp_lift; [exact Hzat|]. rewrite Hap, Hso, !bool_decide_true, bool_decide_false by done.
  cbn [negb orb]. do 2 wp_step. do 2 wp_step.
  assert (Hq2 : exists q2, (if bool_decide (ts_status (tsig (set_axfr_current_rr 0 (set_axfr_current_rrset None
      (set_axfr_current_domain (Some top) (set_axfr_zone (Some zp) q1))))) = TSIG_OK)
    then set_tsig_sign_it true (set_axfr_current_rr 0 (set_axfr_current_rrset None
      (set_axfr_current_domain (Some top) (set_axfr_zone (Some zp) q1))))
    else set_axfr_current_rr 0 (set_axfr_current_rrset None
      (set_axfr_current_domain (Some top) (set_axfr_zone (Some zp) q1)))) = upd q2 (packet q) [] offs0 /\
    axfr_is_done q2 = false /\ axfr_zone q2 = Some zp /\ maxlen q2 = L /\ axfr_current_domain q2 = Some top /\
    axfr_current_rrset q2 = None /\ room q2 = L - reserved_space q /\ tsig q2 = tsig q).
  { set (x := set_axfr_current_rr _ _). assert (Hx : room x = L - reserved_space q).
    { unfold room. subst x. cbn. rewrite Hmax1, Hres1, u64_small; lia. }
    destruct (bool_decide (ts_status (tsig x) = TSIG_OK)).
    - exists (set_tsig_sign_it true x). split; [|by split_and!].
      rewrite <-(upd_same (set_tsig_sign_it true x)) at 1. subst x. cbn. by rewrite Epkt, Hdn1, Hof1.
    - exists x. split; [|by split_and!]. rewrite <-(upd_same x) at 1. subst x. cbn. by rewrite Epkt, Hdn1, Hof1. }
  destruct Hq2 as (q2 & -> & Hgo2 & Hzn2 & Hmax2 & Hcd2 & Hcr2 & Hroom2 & Ets2).
  assert (Hr2 : ready db nm q2 (packet q) [] offs0) by (apply ready_empty; [done|done|lia..]).
  wp_step. apply (wp_question (_position (packet q)) q2 (packet q) a ls); try done; [lia|].
  intros dn offs Hr3 Hp3.
  assert (Hfit : fits db nm q2 (packet q) offs top soa).
  { exists sz. split; [by eapply rr_ok_pushes|]. lia. }
  wp_step. apply wp_encode_soa; [done|done|done| |].
  - intros b4 dn4 offs4 Hw4 Hsh4 Hrr4. wp_step. apply wp_assert; [done|]. wp_step. cbv beta iota.
    pose proof Hw4 as [Hr4 Hex4 Hp4].
    eapply wp_mono.
    + apply (wp_axfr_fill q2 (_position (packet q)) [(top, soa)] rem b4 dn4 offs4); try done.
      * eapply pushes_trans; [exact Hp3|]. eapply pushes_mono; [| |exact Hp4]; [done|lia].
      * rewrite Hcd2, Hcr2. exists ds. split; [done|]. rewrite Hrem.
        inversion Hchain as [|p Hout|p d ds' Hin Hd Hsets Hnext]; subst; [done|].
        exists d, (domain_records db zp z top). split_and!; [done|done|by left].
      * lia.
      * destruct Hex4. lia.
      * lia.
      * econstructor; [exact Hrr4|constructor].
    + intros st q' (-> & Hsent & Hqd'). split_and!; [done| |].
      * destruct Hsent as (k & ? & ? & Htg & Hrest). exists k.
        do 2 (split; [done|]). split; [congruence|exact Hrest].
      * rewrite Hqd'. apply same_header_u16; [done|done|apply Hr4|lia..].
  - intros b4 Hw4 Hsh4 Hpos4 Hbl. exfalso. specialize (Hbl _ _ Hok). lia.
Qed.

(** ** The whole transfer *)

(** The transfer sends exactly [l] from [q] on, in at most [m] messages that
    each carry a record, whatever the signatures between them do; the last one
    is to be signed, and the next call says that the transfer is over. *)
Inductive completes : Z -> nat -> query -> list (Z * rr) -> Prop :=
  | completes_last start m q q' l : query_axfr db n q = Ok (QUERY_IN_AXFR, q') -> message start l q' -> l <> [] ->
      tsig_sign_it q' = true -> (forall q'', resumed q' q'' -> query_axfr db n q'' = Ok (QUERY_PROCESSED, q'')) ->
      completes start (S m) q l
  | completes_more start m q q' l1 l2 : query_axfr db n q = Ok (QUERY_IN_AXFR, q') -> message start l1 q' -> l1 <> [] ->
      (forall q'', resumed q' q'' -> completes QHEADERSZ m q'' l2) -> completes start (S m) q (l1 ++ l2).

Lemma done_processed q q' : axfr_is_done q = true -> resumed q q' -> query_axfr db n q' = Ok (QUERY_PROCESSED, q').
Proof using.
  intros Hd [t s b]. unfold query_axfr. 
  change (axfr_is_done q) with (axfr_is_done (set_tsig_sign_it s (set_tsig t (set_packet b q)))) in Hd.
  unfold mbind, ST_bind, st_get. by rewrite Hd.
Qed.

Lemma sent_progress k (l pre : list (Z * rr)) : Forall sendable l ->
  ((k + length pre = 0)%nat -> exists x, head l = Some x /\ stalled x) -> (0 < k + length pre)%nat.
Proof using.
  intros Hs Hk. destruct (k + length pre)%nat eqn:E; [|lia]. destruct (Hk eq_refl) as (x & Hx & Hst). exfalso.
  destruct l as [|y l]; [done|]. injection Hx as ->. apply Forall_cons in Hs as [Hs _].
  by eapply sendable_not_stalled.
Qed.

Lemma sent_completes start pre rem q q' m : query_axfr db n q = Ok (QUERY_IN_AXFR, q') ->
  sent_message start pre rem q q' -> Forall sendable (rem ++ [(top, soa)]) -> (length rem < S m)%nat ->
  (forall k q'', (0 < k + length pre)%nat -> (k <= length rem)%nat -> transfer (drop k rem) q' -> resumed q' q'' ->
     completes QHEADERSZ m q'' (drop k rem ++ [(top, soa)])) ->
  completes start (S m) q (pre ++ rem ++ [(top, soa)]).
Proof using.
  intros Hrun (k & Hk & Hk0 & _ & [Hmsg _] & Hrest) Hsend Hm Hnext. apply sent_progress in Hk0; [|done].
  assert (Hne : pre ++ take k (rem ++ [(top, soa)]) <> []).
  { intros E. apply (f_equal length) in E. rewrite length_app, length_take, length_app in E. simpl in E. lia. }
  destruct (decide (k = S (length rem))) as [->|Hlt].
  - destruct Hrest as [Hd Hs]. rewrite take_ge in * by (rewrite length_app; simpl; lia).
    eapply completes_last; [done..|]. intros q'' Hres. by eapply done_processed.
  - rewrite take_app_le in * by lia.
    replace (pre ++ rem ++ [(top, soa)]) with ((pre ++ take k rem) ++ drop k rem ++ [(top, soa)]).
    + eapply completes_more; [done..|]. intros q'' Hres. apply Hnext; [done|lia|done|done].
    + by rewrite <-app_assoc, (app_assoc (take k rem)), take_drop.
Qed.

Lemma transfer_completes (Hz : zone_ok) (Hlim : limits_ok) (Hsoa : sendable (top, soa)) m : forall rem q,
  transfer rem q -> cleared (packet q) -> 0 <= tsig_reserved_space (nsd_tsig n) (tsig q) <= R ->
  Forall sendable rem -> (length rem < m)%nat -> completes QHEADERSZ m q (rem ++ [(top, soa)]).
Proof using Hdb.
  induction m as [|m IH]; intros rem q Htr Hcl Ht Hsend Hm; [lia|].
  destruct (wp_elim _ _ _ (wp_axfr_more rem q Hz Hlim Htr Hcl Ht (sendable_room _ Hsoa)
    (sendable_all _ Hlim Hsend) (sendable_writable _ Hlim Hsoa))) as (st & q' & Hrun & -> & Hsent & _).
  apply (sent_completes QHEADERSZ [] rem q q' m); [done|done| |done|].
  { apply Forall_app. split; [done|by constructor]. }
  intros k q'' Hk0 Hk Htr' Hres. apply IH.
  - by eapply transfer_resumed.
  - by eapply resumed_cleared.
  - by destruct Hres.
  - by apply Forall_drop.
  - rewrite length_drop. simpl in Hk0. lia.
Qed.

(** C36 (liveness): a transfer that is admitted ends.  For a query for the
    apex of a zone whose records, each, fit in an empty message, the first
    message starts with the SOA record after the question, every message
    carries records and says how many, and after at most two messages more
    than there are records the messages together are the SOA record, the
    records of the domains of the zone in the order of the table, and the SOA
    record again; no assertion fails on the way, and then the state is that of
    a query that has been processed. *)
Theorem axfr_complete ds q name cl ls : zone_ok -> limits_ok -> asked q name cl ls ->
  zone_chain db top (Some top) ds -> Forall sendable (domains_records db zp z ds) -> sendable (top, soa) ->
  completes (_position (packet q)) (S (S (length (domains_records db zp z ds)))) q
    ((top, soa) :: domains_records db zp z ds ++ [(top, soa)]).
Proof using Hdb.
  intros Hz Hlim Ha Hch Hsend Hsoa.
  destruct (wp_elim _ _ _ (wp_axfr_first _ ds q name cl ls Hz Hlim Ha Hch eq_refl
    (sendable_all _ Hlim Hsend) (sendable_writable _ Hlim Hsoa))) as (st & q' & Hrun & -> & Hsent & _).
  apply (sent_completes _ [(top, soa)] _ q q'); [done|done| |lia|].
  { apply Forall_app. split; [done|by constructor]. }
  intros k q'' Hk0 Hk Htr Hres. apply transfer_completes; try done.
  - by eapply transfer_resumed.
  - by eapply resumed_cleared.
  - by destruct Hres.
  - by apply Forall_drop.
  - rewrite length_drop. lia.
Qed.

(** ** A record without room *)

(** The bytes of a record that compression does not touch. *)
Definition data_bytes (r : rr) : Z :=
  foldr (fun a n => match a with Atom_data bytes => zlength bytes + n | Atom_domain _ => n end) 0 (rdatas r).

Lemma rdata_at_bytes d type j p atoms e : rdata_at db nm header d type j p atoms e ->
  p + foldr (fun a n => match a with Atom_data bytes => zlength bytes + n | Atom_domain _ => n end) 0 atoms <= e.
Proof using.
  induction 1 as [| j p a x atoms e e' Hwf Ha Hw Hr IH | j p a x atoms e Hwf Ha Hh Hr IH | ];
    cbn [foldr]; [lia| | |lia].
  - destruct Hw as (l & Hn%name_in_end & _). lia.
  - pose proof (zlength_nonneg (wire (nm (number a)))). lia.
Qed.

Lemma rr_at_bytes d p e x r t : rr_at db nm d p e x r t -> p + 11 + data_bytes r <= e.
Proof using.
  intros (k & a & _ & (ls & Hn%name_in_end & _) & _ & Hr%rdata_at_bytes). unfold data_bytes. lia.
Qed.

(** [k] messages later. *)
Inductive rounds : nat -> query -> query -> Prop :=
  | rounds_none q : rounds 0 q q
  | rounds_one k q q1 q2 q3 : query_axfr db n q = Ok (QUERY_IN_AXFR, q1) -> resumed q1 q2 -> rounds k q2 q3 ->
      rounds (S k) q q3.

Definition refused (x : Z * rr) : Prop := L < QHEADERSZ + 11 + data_bytes x.2.

Lemma wp_axfr_refused x rem q : zone_ok -> limits_ok -> transfer (x :: rem) q -> cleared (packet q) ->
  0 <= tsig_reserved_space (nsd_tsig n) (tsig q) <= R -> QHEADERSZ + R <= L ->
  Forall writable (x :: rem) -> writable (top, soa) -> refused x ->
  wp (query_axfr db n) (fun st q' => st = QUERY_IN_AXFR /\ message QHEADERSZ [] q' /\ transfer (x :: rem) q') q.
Proof using Hdb.
  intros Hz Hlim Htr Hcl Ht H12 Hw Hws Hx.
  eapply wp_mono; [by apply (wp_axfr_more (x :: rem))|]. intros st q' (-> & (k & Hk & _ & _ & [Hmsg Hpos] & Hrest) & _).
  destruct k as [|k].
  - destruct (decide (0%nat = S (length (x :: rem)))); [done|]. by split_and!.
  - exfalso. destruct Hmsg as [_ _ Hst]. cbn [app take] in Hst. destruct x as [p r].
    inversion Hst as [|? e1 ? ? ? ? Hrr%rr_at_bytes Hl%stream_count]; subst.
    pose proof (zlength_nonneg (take k (rem ++ [(top, soa)]))). unfold refused in Hx. cbn [snd] in Hx. lia.
Qed.

(** C37 (liveness): a record that fits in no message stops the transfer
    without ending it.  When the next record to send has more data than a
    message of the transfer can hold, every later call makes a message without
    records and leaves the transfer where it is: it never ends, and no error
    is reported. *)
Theorem axfr_stuck x rem q k q' : zone_ok -> limits_ok -> transfer (x :: rem) q -> cleared (packet q) ->
  0 <= tsig_reserved_space (nsd_tsig n) (tsig q) <= R -> QHEADERSZ + R <= L ->
  Forall writable (x :: rem) -> writable (top, soa) -> refused x -> rounds k q q' ->
  exists q1, query_axfr db n q' = Ok (QUERY_IN_AXFR, q1) /\ message QHEADERSZ [] q1 /\ transfer (x :: rem) q1.
Proof using Hdb.
  intros Hz Hlim Htr Hcl Ht H12 Hw Hws Hx Hr. revert Htr Hcl Ht. induction Hr as [q|k q q1 q2 q3 Hrun Hres Hr IH];
    intros Htr Hcl Ht.
  - destruct (wp_elim _ _ _ (wp_axfr_refused x rem q Hz Hlim Htr Hcl Ht H12 Hw Hws Hx)) as (st & q1 & Hrun & -> & ? & ?).
    by exists q1.
  - destruct (wp_elim _ _ _ (wp_axfr_refused x rem q Hz Hlim Htr Hcl Ht H12 Hw Hws Hx)) as (st & q1' & Hrun' & -> & _ & Htr').
    rewrite Hrun in Hrun'. injection Hrun' as <-.
    apply IH; [by eapply transfer_resumed|by eapply resumed_cleared|by destruct Hres].
Qed.
End transfer.
End stream.
