(* ===== verification/AxfrSamples.v ===== *)
(** Transfers of concrete zones (Axfr.v): a small zone, and a zone with a record
    that no message of a transfer has room for. *)

From S2P Require Import Prelude Buffer Dname DnameProofs Dns Packet Contents Namedb NamedbProofs NamedbTable Edns Tsig TsigProofs Query QueryProofs QueryRecords QueryRRset QuerySamples Acl Respond Axfr AxfrProofs AxfrStream.

(** * A small zone: "c." with its SOA record, two mail exchangers and the
    addresses of "a.b.c." *)
Definition small_soa : rr :=
  mkrr 2 [Atom_domain 4; Atom_domain 2; Atom_data [0; 0; 0; 1]; Atom_data [0; 0; 0; 2]; Atom_data [0; 0; 0; 3];
          Atom_data [0; 0; 0; 4]; Atom_data [0; 0; 0; 5]] 3600 TYPE_SOA CLASS_IN.
Definition small_a (x : Z) : rr := mkrr 4 [Atom_data [10; 0; 0; x]] 3600 TYPE_A CLASS_IN.
Definition small_domain (n : Z) : domain :=
  mkdomain true (of_labels (mini_nm n)) (if n =? 1 then None else Some (n - 1)) n
    (if n =? 2 then [1; 2] else if n =? 4 then [3] else []) n 0 true (n =? 2).
Definition small_zone : zone := mkzone (Some 2) (Some 1) None None false true false.
Definition small_db_of (addresses : list rr) : namedb :=
  mkdb (list_to_map ((fun n => (n, small_domain n)) <$> [1; 2; 3; 4]))
       {[1 := mkrrset 1 [small_soa]; 2 := mkrrset 1 [mini_rr; mini_rr2]; 3 := mkrrset 1 addresses]}
       {[1 := small_zone]} ((fun n => (mini_nm n, n)) <$> [1; 2; 3; 4]) [1; 2; 3; 4] [(mini_nm 2, 1)].
Definition small_db : namedb := small_db_of [small_a 1; small_a 2].

Definition small_nsd : nsd :=
  mknsd 0 0 [] [] false 4096 4096 (edns_init_data 4096) (edns_init_data 4096) [] true
    tsig_init false false.

(** The query for the transfer: the header, and the question. *)
Definition small_query : query :=
  mkquery (mksockaddr false [127; 0; 0; 1] 53) 65535 0 edns_init_record
    (tsig_init_record sample_tsig None None) false false false true
    (mkbuffer 19 65536 65536
       ([0; 77; 128; 0; 0; 1; 0; 0; 0; 0; 0; 0] ++ [1; 99; 0] ++ [0; 252; 0; 1] ++ replicate (Z.to_nat 65517) 0) false)
    (Some (of_labels (mini_nm 2))) TYPE_AXFR CLASS_IN None None None 0 0 [] (replicate 8 0) 8 0
    false None None None 0 None.

Lemma small_at a n : n ∈ [1; 2; 3; 4] -> domain_at (small_db_of a) n = Ok (small_domain n).
Proof. intros Hn. each Hn ltac:(by vm_compute). Qed.

Lemma small_numbered a : numbered (small_db_of a) mini_nm.
Proof.
  intros p d Hd. unfold domain_at, points_to in Hd. destruct (domains (small_db_of a) !! p) as [d'|] eqn:E; [|done].
  injection Hd as <-. unfold small_db_of in E. cbn [domains] in E. apply elem_of_list_to_map_2 in E.
  apply list_elem_of_fmap in E as (n & [= -> ->] & Hn). cbn [number domain_dname small_domain].
  split; [|done]. apply (bool_decide_unpack _). each Hn ltac:(by vm_compute).
Qed.

Lemma small_rooted a n : n ∈ [1; 2; 3; 4] -> rooted (small_db_of a) mini_nm (replicate 8 0) n.
Proof.
  assert (H1 : rooted (small_db_of a) mini_nm (replicate 8 0) 1).
  { eapply rooted_root; [by apply small_at; left|done|done]. }
  assert (Hstep : forall n, n ∈ [2; 3; 4] -> rooted (small_db_of a) mini_nm (replicate 8 0) (n - 1) ->
    rooted (small_db_of a) mini_nm (replicate 8 0) n).
  { intros m Hm He. eapply rooted_step with (l := hd [] (mini_nm m));
      [apply small_at; set_solver| |apply (bool_decide_unpack _)|apply small_at| |exact He];
      each Hm ltac:(first [done|by vm_compute|listed]). }
  assert (H2 : rooted (small_db_of a) mini_nm (replicate 8 0) 2) by (apply Hstep; [listed|exact H1]).
  assert (H3 : rooted (small_db_of a) mini_nm (replicate 8 0) 3) by (apply Hstep; [listed|exact H2]).
  assert (H4 : rooted (small_db_of a) mini_nm (replicate 8 0) 4) by (apply Hstep; [listed|exact H3]).
  intros Hn. each Hn ltac:(done).
Qed.

(** The length of a record without compression, computed. *)
Ltac small_rr_ok :=
  eexists; split;
  [ eexists; eexists; split_and!;
    [apply small_at; listed|apply rooted_encodable, small_rooted; listed| |reflexivity];
    repeat first
      [ apply rdata_ok_nil
      | eapply rdata_ok_data; [by vm_compute|done|done|by repeat constructor|]
      | eapply rdata_ok_compressed; [by vm_compute|apply small_at; listed|apply rooted_encodable, small_rooted; listed|] ]
  | by apply (bool_decide_unpack _); vm_compute ].

Lemma small_sendable : Forall (sendable small_db mini_nm (replicate 8 0) 0 16383)
  [(2, mini_rr); (2, mini_rr2); (4, small_a 1); (4, small_a 2); (2, small_soa)].
Proof. repeat constructor; small_rr_ok. Qed.

Lemma small_chain : zone_chain small_db 2 (Some 2) [2; 3; 4].
Proof.
  assert (Hsets : forall n, n ∈ [2; 3; 4] -> sets_ok small_db (domain_rrsets (small_domain n))).
  { intros n Hn. each Hn ltac:(split; [apply (bool_decide_unpack _); by vm_compute|
      repeat constructor; (eexists; split; [by vm_compute|done])]). }
  eapply chain_in; [by vm_compute|by apply small_at; listed|apply Hsets; listed|].
  eapply chain_in; [by vm_compute|by apply small_at; listed|apply Hsets; listed|].
  eapply chain_in; [by vm_compute|by apply small_at; listed|apply Hsets; listed|].
  change (zone_chain small_db 2 None []). constructor.
Qed.

Lemma small_packet_ok : buffer_ok (packet small_query).
Proof.
  split; cbn [packet small_query _position _limit _capacity _data]; [lia|lia| | |lia].
  - unfold zlength. rewrite !length_app, length_replicate. cbn [length]. lia.
  - repeat (apply Forall_app; split); try (by apply Forall_replicate); repeat constructor; done.
Qed.

Lemma small_asked : asked small_db mini_nm 1 2 small_soa (replicate 8 0) 0 16383 small_query
  (of_labels (mini_nm 2)) 2 (mini_nm 2).
Proof.
  split.
  - by split.
  - reflexivity.
  - by vm_compute.
  - by vm_compute.
  - by split.
  - reflexivity.
  - cbn [reserved_space small_query]. lia.
  - split; [exact small_packet_ok|]. cbn [packet small_query _limit]. lia.
  - split_and!; [apply (bool_decide_unpack _); by vm_compute| |].
    + split; [by unfold QHEADERSZ|]. cbn [packet small_query _data]. 
      change (drop (Z.to_nat QHEADERSZ) _) with (wire (mini_nm 2) ++ [0; 252; 0; 1] ++ replicate (Z.to_nat 65517) 0).
      by apply prefix_app_r.
    + cbn [packet small_query _position]. apply (bool_decide_unpack _). by vm_compute.
  - exists (small_domain 2). split; [apply small_at; listed|done].
  - apply small_rooted. listed.
  - small_rr_ok.
Qed.

Lemma zero_table i : zget (replicate 8 0) i = 0.
Proof.
  unfold zget. destruct (replicate 8 0 !! Z.to_nat i) as [x|] eqn:E; [by apply lookup_replicate in E as [-> _]|done].
Qed.

Lemma axfr_complete_witness :
  completes small_db mini_nm small_nsd 0 19 6 small_query
    [(2, small_soa); (2, mini_rr); (2, mini_rr2); (4, small_a 1); (4, small_a 2); (2, small_soa)].
Proof.
  exact (axfr_complete small_db mini_nm (small_numbered _) small_nsd 1 2 1 small_zone (mkrrset 1 [small_soa])
    small_soa (replicate 8 0) 0 16383 [2; 3; 4] small_query (of_labels (mini_nm 2)) 2 (mini_nm 2)
    ltac:(split; by vm_compute)
    ltac:(split; [by unfold AXFR_MAX_MESSAGE_LEN, MAX_COMPRESSION_OFFSET|lia|
exact zero_table])
    small_asked small_chain
    (proj1 (proj1 (Forall_app _ [_; _; _; _] [_]) small_sendable))
    (Forall_inv (proj2 (proj1 (Forall_app _ [_; _; _; _] [_]) small_sendable)))).
Defined.

(** * A record without room *)

(** 64 character strings of 255 bytes: a message of a transfer ends before
    offset 16383. *)
Definition big_bytes : list Z := mjoin (replicate 64 (255 :: replicate (Z.to_nat 255) 120)).
Definition big_txt : rr := mkrr 4 [Atom_data big_bytes] 3600 TYPE_TXT CLASS_IN.
Definition big_db : namedb := small_db_of [big_txt].


(** The transfer when that record is the next to send. *)
Definition big_query : query :=
  set_maxlen 16383 (set_axfr_zone (Some 1) (set_axfr_current_domain (Some 4) (set_axfr_current_rrset (Some 3)
    (set_packet (mkbuffer 0 65536 65536 (_data (packet small_query)) false) small_query)))).

Lemma big_data : data_bytes big_txt = 16384.
Proof. by vm_compute. Qed.

Lemma big_bytes_ok : Forall byte big_bytes.
Proof. by apply Forall_join, Forall_replicate, Forall_cons; split; [|apply Forall_replicate]. Qed.

Lemma big_writable : Forall (writable big_db mini_nm (replicate 8 0) 16383) [(4, big_txt); (2, small_soa)].
Proof.
  constructor; [|constructor; [small_rr_ok|constructor]].
  eexists. split.
  - exists (small_domain 4). eexists. split_and!; [apply small_at; listed|apply rooted_encodable, small_rooted; listed| |reflexivity].
    eapply rdata_ok_data; [by vm_compute|done|done|exact big_bytes_ok|constructor].
  - apply (bool_decide_unpack _). by vm_compute.
Qed.

Lemma big_transfer : transfer big_db 1 2 small_zone (replicate 8 0) 16383 [(4, big_txt)] big_query.
Proof.
  split; try reflexivity.
  exists [4]. split.
  - eapply chain_in; [by vm_compute|apply small_at; listed| |change (zone_chain big_db 2 None []); constructor].
    split; [apply (bool_decide_unpack _); by vm_compute|]. repeat constructor. eexists. split; [reflexivity|done].
  - exists (small_domain 4), [(4, big_txt)]. split_and!; [apply small_at; listed|done|].
    right. exists 3. split; [done|]. exists [], [3]. split_and!; [done|done|].
    exists (mkrrset 1 [big_txt]). split_and!; [reflexivity|done|done|reflexivity].
Qed.

Lemma big_cleared : cleared (packet big_query).
Proof.
  split; [|split_and!; [reflexivity|reflexivity|]].
  - apply (buffer_ok_set_pos 0 (packet small_query) small_packet_ok). cbn [packet small_query _limit]. lia.
  - change (65536 <= 65536). lia.
Qed.

Lemma axfr_stuck_witness : exists q1,
  query_axfr big_db small_nsd big_query = Ok (QUERY_IN_AXFR, q1) /\ message big_db mini_nm QHEADERSZ [] q1 /\
  transfer big_db 1 2 small_zone (replicate 8 0) 16383 [(4, big_txt)] q1.
Proof.
  exact (axfr_stuck big_db mini_nm (small_numbered _) small_nsd 1 2 1 small_zone (mkrrset 1 [small_soa]) small_soa
    (replicate 8 0) 0 16383 (4, big_txt) [] big_query 0 big_query
    ltac:(split; reflexivity)
    ltac:(split; [by unfold AXFR_MAX_MESSAGE_LEN, MAX_COMPRESSION_OFFSET|lia|exact zero_table])
    big_transfer
    big_cleared
    ltac:(split; [done|reflexivity]) ltac:(done)
    (proj1 (proj1 (Forall_app _ [_] [_]) big_writable)) (Forall_inv (proj2 (proj1 (Forall_app _ [_] [_]) big_writable)))
    ltac:(unfold refused; cbn [snd]; rewrite big_data; done)
    (rounds_none _ _ _ _)).
Defined.
