(* ===== verification/Answering.v ===== *)
(** Model of the part of src/query.c that collects the answer to a query from
    the database: delegations, CNAME and DNAME chains, wildcards, negative
    answers and additional records. *)

From S2P Require Import Prelude Buffer Dname Dns Packet Namedb Edns Tsig Query Acl Respond Axfr.

Section answering.
Context `{T : NameTree} `{H : Hmac}.

(** The query, the database with the domains made while it is answered, and
    the answer collected. *)
Record ans := mkans { an_query : query; an_db : namedb; an_answer : answer }.
Definition set_an_query (q : query) (s : ans) : ans := mkans q (an_db s) (an_answer s).
Definition set_an_db (db : namedb) (s : ans) : ans := mkans (an_query s) db (an_answer s).
Definition set_an_answer (a : answer) (s : ans) : ans := mkans (an_query s) (an_db s) a.

Abbreviation An := (ST ans).

Definition on_query {A} (m : ST query A) : An A := fun s =>
  match m (an_query s) with
  | Ok (a, q) => Ok (a, set_an_query q s)
  | Assert_failed => Assert_failed
  | No_fuel => No_fuel
  end.
Definition the_query : An query := s ← st_get; mret (an_query s).
Definition on_db {A} (f : namedb -> res A) : An A := s ← st_get; lift (f (an_db s)).

(** The zone of the query, which the functions below dereference. *)
Definition the_zone : An Z := q ← the_query; lift (points_to (query_zone q)).

(** [region_alloc] of a domain or a record set. *)
Definition new_domain (d : Z -> domain) : An Z :=
  s ← st_get;
  let p := allocate (domains (an_db s)) in
  st_put (set_an_db (put_domain p (d p) (an_db s)) s);;
  mret p.
Definition new_rrset (r : rrset) : An Z :=
  s ← st_get;
  let p := allocate (rrsets (an_db s)) in
  st_put (set_an_db (set_rrset_store (<[p := r]> (rrsets (an_db s))) (an_db s)) s);;
  mret p.

(** A domain of the static array of temporary domains: its number, if there
    is one left.  Its other fields are set by the caller, from zero. *)
Definition query_get_tempdomain : An (option Z) :=
  q ← the_query;
  if EXTRA_DOMAIN_NUMBERS <=? number_temporary_domains q then mret None else
  let k := number_temporary_domains q + 1 in
  on_query (st_modify (set_number_temporary_domains k));;
  mret (Some (u64 (compressed_dname_offsets_size q + k - 1))).
Definition NULL : Z := -1.

(** The walk from a domain to the first one that exists. *)
Definition existing_above (db : namedb) (p : Z) : res Z :=
  iter parent_fuel (fun p =>
    d ← domain_at db p;
    if is_existing d then mret (inr p) else up ← points_to (parent d); mret (inl up)) p.

(** The domain with the NSEC record set, and the set. *)
Definition find_covering_nsec (db : namedb) (closest_match z : Z) : res (option (Z * Z)) :=
  a ← zone_at db z;
  p ← iter parent_fuel (fun p =>
        d ← domain_at db p;
        if in_tree d then mret (inr p) else up ← points_to (parent d); mret (inl up)) closest_match;
  iter (S (size (domains db))) (fun p : option Z =>
    match p with
    | None => mret (inr None)
    | Some p =>
        d ← domain_at db p;
        nsec_rrset ← domain_find_rrset db d z TYPE_NSEC;
        match nsec_rrset with
        | Some r => mret (inr (Some (p, r)))
        | None => if bool_decide (Some p = apex a) then mret (inr None)
                  else mret (inl (domain_previous db d))
        end
    end) (Some p).

(** * Additional records *)
Definition default_additional_rr_types : list (Z * Z) :=
  [(TYPE_A, ADDITIONAL_A_SECTION); (TYPE_AAAA, ADDITIONAL_AAAA_SECTION)].
Definition swap_aaaa_additional_rr_types : list (Z * Z) :=
  [(TYPE_AAAA, ADDITIONAL_A_SECTION); (TYPE_A, ADDITIONAL_AAAA_SECTION)].
Definition rt_additional_rr_types : list (Z * Z) :=
  [(TYPE_A, ADDITIONAL_A_SECTION); (TYPE_AAAA, ADDITIONAL_AAAA_SECTION);
   (TYPE_X25, ADDITIONAL_OTHER_SECTION); (TYPE_ISDN, ADDITIONAL_OTHER_SECTION)].

(** [answer_add_rrset] on the answer of the state. *)
Definition add_to_answer (section owner rrset : Z) : An bool :=
  s ← st_get;
  '(a, added) ← lift (answer_add_rrset (an_db s) (an_answer s) section owner rrset);
  st_put (set_an_answer a s);;
  mret added.

Fixpoint add_types (z additional : Z) (types : list (Z * Z)) : An unit :=
  match types with
  | [] => mret tt
  | (type, section) :: types =>
      d ← on_db (fun db => domain_at db additional);
      r ← on_db (fun db => domain_find_rrset db d z type);
      match r with
      | Some r => add_to_answer section additional r;; mret tt
      | None => mret tt
      end;;
      add_types z additional types
  end.

(** The domain the additional records are looked up at: itself, or one made
    from the wildcard that covers it. *)
Definition additional_domain (additional : Z) : An Z :=
  match_ ← on_db (fun db => existing_above db additional);
  wildcard ← (if bool_decide (additional = match_) then mret None
              else on_db (fun db => domain_wildcard_child db match_));
  match wildcard with
  | None => mret additional
  | Some wildcard_child =>
      a ← on_db (fun db => domain_at db additional);
      w ← on_db (fun db => domain_at db wildcard_child);
      new_domain (fun temp =>
        mkdomain false (domain_dname a) (Some match_) temp (domain_rrsets w) (number a) 0 (is_existing w) false)
  end.

Fixpoint add_additional_from (z : Z) (rdata_index : nat) (allow_glue : bool) (types : list (Z * Z))
    (rs : list rr) : An unit :=
  match rs with
  | [] => mret tt
  | r :: rs =>
      atom ← lift (points_to (rdatas r !! rdata_index));
      additional ← lift (rdata_atom_domain atom);
      glue ← (if allow_glue then mret false else on_db (fun db => domain_is_glue db additional z));
      (if (glue : bool) then mret tt
       else
         additional ← additional_domain additional;
         add_types z additional types);;
      add_additional_from z rdata_index allow_glue types rs
  end.

Definition add_additional_rrsets (master_rrset : Z) (rdata_index : nat) (allow_glue : bool)
    (types : list (Z * Z)) : An unit :=
  rs ← on_db (fun db => rrset_at db master_rrset);
  type ← lift (rrset_rrtype rs);
  st_assert (rdata_atom_is_domain type (Z.of_nat rdata_index));;
  z ← the_zone;
  add_additional_from z rdata_index allow_glue types (rrs rs).

Definition add_rrset (n : nsd) (section owner rrset : Z) : An bool :=
  rs ← on_db (fun db => rrset_at db rrset);
  class ← lift (rrset_rrclass rs);
  st_assert (class =? CLASS_IN);;
  result ← add_to_answer section owner rrset;
  q ← the_query;
  if minimal_responses n && negb (section =? AUTHORITY_SECTION) && negb (qtype q =? TYPE_NS)
  then mret result else
  type ← lift (rrset_rrtype rs);
  (if type =? TYPE_NS then
     add_additional_rrsets rrset 0 true
       (if sa_inet6 (addr q) then swap_aaaa_additional_rr_types else default_additional_rr_types)
   else if type =? TYPE_MB then add_additional_rrsets rrset 0 false default_additional_rr_types
   else if (type =? TYPE_MX) || (type =? TYPE_KX) then
     add_additional_rrsets rrset 1 false default_additional_rr_types
   else if type =? TYPE_RT then add_additional_rrsets rrset 1 false rt_additional_rr_types
   else if type =? TYPE_SRV then add_additional_rrsets rrset 3 false default_additional_rr_types
   else mret tt);;
  mret result.

Definition answer_needs_ns (q : query) : bool := negb (qtype q =? TYPE_DNSKEY) && negb (qtype q =? TYPE_DS).

(** * Synthesized CNAME records *)

(** The temporary domains for the labels of [name] that [parent_] does not
    have: the last one, or nothing when none is left.  Those of the source are
    existing and the query name has number 0. *)
Fixpoint temp_domains (source : bool) (name : dname_type) (base : Z) (todo : nat) (i lastparent : Z) :
    An (option Z) :=
  match todo with
  | O => mret (Some lastparent)
  | S todo =>
      number ← query_get_tempdomain;
      match number with
      | None => mret None
      | Some number =>
          dname ← lift (dname_partial_copy name (base + i + 1));
          dname ← lift (points_to dname);
          q ← the_query;
          c ← (if source then qname ← lift (points_to (qname q)); lift (dname_compare dname qname) else mret 1);
          p ← new_domain (fun p =>
                mkdomain false dname (Some lastparent) NULL [] (if c =? 0 then 0 else number) 0 source false);
          temp_domains source name base todo (i + 1) p
      end
  end.

(** The number of the domain of [to_name], 0 on error, and that domain. *)
Definition query_synthesize_cname (n : nsd) (from_name to_name : dname_type) (src to_closest_encloser ttl : Z) :
    An (Z * option Z) :=
  s ← on_db (fun db => domain_at db src);
  let base := label_count (domain_dname s) in
  cname_domain ← temp_domains true from_name base (Z.to_nat (label_count from_name - base)) 0 src;
  match cname_domain with
  | None => mret (0, None)
  | Some cname_domain =>
      e ← on_db (fun db => domain_at db to_closest_encloser);
      let base := label_count (domain_dname e) in
      cname_dest ← temp_domains false to_name base (Z.to_nat (label_count to_name - base)) 0 to_closest_encloser;
      match cname_dest with
      | None => mret (0, None)
      | Some cname_dest =>
          z ← the_zone;
          rrset ← new_rrset (mkrrset z [mkrr cname_domain [Atom_domain cname_dest] ttl TYPE_CNAME CLASS_IN]);
          add_rrset n ANSWER_SECTION cname_domain rrset;;
          d ← on_db (fun db => domain_at db cname_dest);
          mret (number d, Some cname_dest)
      end
  end.

(** * The kinds of answer *)
Definition answer_delegation (n : nsd) : An unit :=
  q ← the_query;
  owner ← lift (points_to (delegation_domain q));
  rrset ← lift (points_to (delegation_rrset q));
  on_query (on_packet (if cname_count q =? 0 then AA_CLR else AA_SET));;
  add_rrset n AUTHORITY_SECTION owner rrset;;
  z ← the_zone;
  secure ← (if dnssec_ok (edns q) =? 0 then mret false else on_db (fun db => zone_is_secure db z));
  if negb (secure : bool) then mret tt else
  d ← on_db (fun db => domain_at db owner);
  ds ← on_db (fun db => domain_find_rrset db d z TYPE_DS);
  match ds with
  | Some r => add_rrset n AUTHORITY_SECTION owner r;; mret tt
  | None =>
      nsec ← on_db (fun db => domain_find_rrset db d z TYPE_NSEC);
      match nsec with
      | Some r => add_rrset n AUTHORITY_SECTION owner r;; mret tt
      | None => mret tt
      end
  end.

Definition answer_soa (n : nsd) : An unit :=
  q ← the_query;
  if qclass q =? CLASS_ANY then mret tt else
  z ← the_zone;
  a ← on_db (fun db => zone_at db z);
  top ← lift (points_to (apex a));
  soa ← lift (points_to (soa_nx_rrset a));
  add_rrset n AUTHORITY_SECTION top soa;;
  mret tt.

(** The proof that a name or type does not exist. *)
Definition add_covering_nsec (n : nsd) (p : Z) : An unit :=
  z ← the_zone;
  nsec ← on_db (fun db => find_covering_nsec db p z);
  match nsec with
  | Some (owner, r) => add_rrset n AUTHORITY_SECTION owner r;; mret tt
  | None => mret tt
  end.
(** [dnssec_ok && zone_is_secure]. *)
Definition wants_dnssec : An bool :=
  q ← the_query;
  if dnssec_ok (edns q) =? 0 then mret false else
  z ← the_zone;
  on_db (fun db => zone_is_secure db z).

Definition answer_nodata (n : nsd) (original : Z) : An unit :=
  q ← the_query;
  (if cname_count q =? 0 then answer_soa n else mret tt);;
  dnssec ← wants_dnssec;
  if (dnssec : bool) then add_covering_nsec n original else mret tt.

Definition answer_nxdomain (n : nsd) : An unit :=
  on_query (on_packet (RCODE_SET RCODE_NXDOMAIN));;
  answer_soa n.

(** * Following names

    [answer_domain], [answer_authoritative] and [answer_lookup_zone] call each
    other along CNAME and DNAME chains.  The first two are written for any
    [lookup]; the number of the domain, whether it was found, the closest match
    and encloser and the name are its arguments. *)
Definition lookup_fn := Z -> bool -> Z -> option Z -> dname_type -> An unit.

(** Where the record set is in the list, and what follows. *)
Fixpoint list_from (l : list Z) (r : Z) : list Z :=
  match l with
  | [] => []
  | x :: l' => if x =? r then l else list_from l' r
  end.

(** All the record sets of the zone, for a query of type ANY: how many. *)
Fixpoint add_any (n : nsd) (z domain : Z) (l : list Z) (added : Z) : An Z :=
  match l with
  | [] => mret added
  | r :: l =>
      rs ← on_db (fun db => rrset_at db r);
      wanted ← (if rrset_zone rs =? z then
                  dnssec ← wants_dnssec;
                  if (dnssec : bool) then type ← lift (rrset_rrtype rs); mret (negb (type =? TYPE_RRSIG))
                  else mret true
                else mret false);
      if (wanted : bool) then
        add_rrset n ANSWER_SECTION domain r;;
        add_any n z domain l (added + 1)
      else add_any n z domain l added
  end.

(** The NS record set of the zone. *)
Definition add_zone_ns (n : nsd) : An unit :=
  q ← the_query;
  z ← the_zone;
  a ← on_db (fun db => zone_at db z);
  match ns_rrset a with
  | Some r =>
      if negb (qclass q =? CLASS_ANY) && answer_needs_ns q && negb (minimal_responses n) then
        top ← lift (points_to (apex a));
        add_rrset n OPTIONAL_AUTHORITY_SECTION top r;; mret tt
      else mret tt
  | None => mret tt
  end.

Definition answer_domain (n : nsd) (lookup : lookup_fn) (domain original : Z) : An unit :=
  q ← the_query;
  z ← the_zone;
  d ← on_db (fun db => domain_at db domain);
  if qtype q =? TYPE_ANY then
    r ← on_db (fun db => domain_find_any_rrset db d z);
    added ← add_any n z domain (match r with Some r => list_from (domain_rrsets d) r | None => [] end) 0;
    if added =? 0 then answer_nodata n original else add_zone_ns n
  else
    rrset ← on_db (fun db => domain_find_rrset db d z (qtype q));
    match rrset with
    | Some r => add_rrset n ANSWER_SECTION domain r;; add_zone_ns n
    | None =>
        cname ← on_db (fun db => domain_find_rrset db d z TYPE_CNAME);
        match cname with
        | Some r =>
            added ← add_rrset n ANSWER_SECTION domain r;
            rs ← on_db (fun db => rrset_at db r);
            st_assert (0 <? rr_count rs);;
            if (added : bool) then
              first ← lift (first_rr rs);
              atom ← lift (points_to (rdatas first !! 0%nat));
              closest_match ← lift (rdata_atom_domain atom);
              on_query (st_modify (fun q => set_cname_count (cname_count q + 1) q));;
              c ← on_db (fun db => domain_at db closest_match);
              lookup (number c) true closest_match (Some closest_match) (domain_dname c);;
              on_query (st_modify (set_query_zone (Some z)))
            else mret tt
        | None => answer_nodata n original
        end
    end.

(** The DNAME record set [r] of the closest encloser. *)
Definition answer_dname (n : nsd) (lookup : lookup_fn) (domain_number closest_match src r : Z)
    (qname : dname_type) : An unit :=
  rs ← on_db (fun db => rrset_at db r);
  first ← lift (first_rr rs);
  atom ← lift (points_to (rdatas first !! 0%nat));
  dest ← lift (rdata_atom_domain atom);
  z ← the_zone;
  c ← on_db (fun db => domain_at db closest_match);
  let name := if domain_number =? 0 then qname else domain_dname c in
  added ← add_rrset n ANSWER_SECTION src r;
  if negb (added : bool) then mret tt else
  s ← on_db (fun db => domain_at db src);
  d ← on_db (fun db => domain_at db dest);
  newname ← lift (dname_replace name (domain_dname s) (domain_dname d));
  on_query (st_modify (fun q => set_cname_count (cname_count q + 1) q));;
  match newname with
  | None => on_query (on_packet (RCODE_SET RCODE_YXDOMAIN))
  | Some newname =>
      '(_, closest_match, closest_encloser) ← on_db (fun db => namedb_lookup db newname);
      '(newnum, to_match) ← query_synthesize_cname n name newname src closest_encloser (ttl first);
      if newnum =? 0 then mret tt else
      let closest_match := default closest_match to_match in
      lookup newnum (closest_match =? closest_encloser) closest_match (Some closest_encloser) newname;;
      on_query (st_modify (set_query_zone (Some z)))
  end.

Definition answer_authoritative (n : nsd) (lookup : lookup_fn) (domain_number : Z) (exact : bool)
    (closest_match : Z) (closest_encloser : option Z) (qname : dname_type) : An unit :=
  z ← the_zone;
  encloser ← lift (points_to closest_encloser);
  dname_ce ← on_db (fun db => find_dname_above db encloser z);
  let closest_encloser := default encloser dname_ce in
  let exact := match dname_ce with Some _ => false | None => exact end in
  e ← on_db (fun db => domain_at db closest_encloser);
  dname_rrset ← (if exact then mret None else on_db (fun db => domain_find_rrset db e z TYPE_DNAME));
  match dname_rrset with
  | Some r => answer_dname n lookup domain_number closest_match closest_encloser r qname
  | None =>
      '(match_, original) ←
        (if exact then mret (Some closest_match, closest_match) else
         wildcard_child ← on_db (fun db => domain_wildcard_child db closest_encloser);
         match wildcard_child with
         | None => mret (None, closest_match)
         | Some wildcard_child =>
             on_query (st_modify (set_wildcard_domain (Some wildcard_child)));;
             w ← on_db (fun db => domain_at db wildcard_child);
             m ← new_domain (fun p =>
                   mkdomain false (domain_dname w) (Some closest_encloser) p (domain_rrsets w) domain_number 0
                     (is_existing w) false);
             mret (Some m, wildcard_child)
         end);
      dnssec ← wants_dnssec;
      (if (dnssec : bool) then
         (if bool_decide (match_ = Some closest_encloser) then mret tt else add_covering_nsec n closest_match);;
         (match match_ with
          | Some _ => mret tt
          | None => add_covering_nsec n (wildcard_child_closest_match e)
          end)
       else mret tt);;
      match match_ with
      | Some m => answer_domain n lookup m original
      | None => answer_nxdomain n
      end
  end.

(** [on_db]'s zone checks before a zone is used. *)
Definition set_rcode_first (rcode : Z) : An unit :=
  q ← the_query;
  if cname_count q =? 0 then on_query (on_packet (RCODE_SET rcode)) else mret tt.
Definition set_aa_for_class : An unit :=
  q ← the_query;
  on_query (on_packet (if qclass q =? CLASS_ANY then AA_CLR else AA_SET)).

(** The first ancestor that exists, itself included. *)
Definition existing_encloser (db : namedb) (p : Z) : res (option Z) :=
  iter parent_fuel (fun p : option Z =>
    match p with
    | None => mret (inr None)
    | Some p => d ← domain_at db p; mret (if is_existing d then inr (Some p) else inl (parent d))
    end) (Some p).

(** One call of [answer_lookup_zone]. *)
Definition lookup_zone_body (n : nsd) (lookup : lookup_fn) : lookup_fn :=
  fun domain_number exact closest_match closest_encloser qname =>
  found ← on_db (fun db => domain_find_zone db closest_encloser);
  on_query (st_modify (set_query_zone found));;
  match found with
  | None => set_rcode_first RCODE_REFUSE
  | Some z =>
      a ← on_db (fun db => zone_at db z);
      if bool_decide (apex a = None) || bool_decide (soa_rrset a = None) then set_rcode_first RCODE_SERVFAIL else
      encloser ← (match closest_encloser with
                  | None => mret None
                  | Some e => on_db (fun db => existing_encloser db e)
                  end);
      let exact := exact && bool_decide (encloser = closest_encloser) in
      q ← the_query;
      (if exact && (qtype q =? TYPE_DS) && bool_decide (encloser = apex a) then
         up ← on_db (fun db => domain_find_parent_zone db z);
         match up with
         | Some _ => on_query (st_modify (set_query_zone up))
         | None => mret tt
         end
       else mret tt);;
      z ← the_zone;
      a ← on_db (fun db => zone_at db z);
      if expires a && negb (is_ok a) then set_rcode_first RCODE_SERVFAIL else
      if exact && (qtype q =? TYPE_DS) && bool_decide (encloser = apex a) then
        set_aa_for_class;;
        top ← lift (points_to encloser);
        answer_nodata n top
      else
        cut ← on_db (fun db => domain_find_ns_rrsets db encloser z);
        on_query (st_modify (fun q => set_delegation_rrset (snd <$> cut) (set_delegation_domain (fst <$> cut) q)));;
        above ← (match cut with
                 | Some (p, _) => on_db (fun db => find_dname_above db p z)
                 | None => mret None
                 end);
        (match above with
         | Some _ => on_query (st_modify (set_delegation_domain None))
         | None => mret tt
         end);;
        q ← the_query;
        if bool_decide (delegation_domain q = None) ||
           (exact && (qtype q =? TYPE_DS) && bool_decide (encloser = delegation_domain q))
        then
          set_aa_for_class;;
          answer_authoritative n lookup domain_number exact closest_match encloser qname
        else answer_delegation n
  end.

(** [bottom] stands for the calls deeper than [fuel]. *)
Fixpoint answer_lookup_zone (n : nsd) (bottom : lookup_fn) (fuel : nat) : lookup_fn :=
  match fuel with
  | O => bottom
  | S fuel => lookup_zone_body n (answer_lookup_zone n bottom fuel)
  end.

(** Every call but the first follows an entry made in the answer. *)
Definition chain_fuel : nat := S (Z.to_nat MAXRRSPP).

Definition answer_query (n : nsd) (db : namedb) (off : Z) : ST query Z :=
  q ← st_get;
  name ← lift (points_to (qname q));
  '(exact, closest_match, closest_encloser) ← lift (namedb_lookup db name);
  s ← (fun q => match answer_lookup_zone n (fun _ _ _ _ _ _ => No_fuel) chain_fuel 0 exact closest_match
                        (Some closest_encloser) name (mkans q db answer_init) with
                | Ok (_, s) => Ok (s, an_query s)
                | Assert_failed => Assert_failed
                | No_fuel => No_fuel
                end);
  e ← lift (domain_at (an_db s) closest_encloser);
  offset ← lift (points_to (dname_label_offsets name !! Z.to_nat (label_count (domain_dname e) - 1)));
  query_add_compression_domain (an_db s) closest_encloser (u16 (offset + QHEADERSZ));;
  off ← encode_answer (an_db s) (round_robin n) (an_answer s) off;
  query_clear_compression_tables (an_db s);;
  mret off.
End answering.
