(* ===== verification/AnsweringProofs.v ===== *)
(** Theorems about collecting an answer (Answering.v). *)

From S2P Require Import Prelude Buffer Dname Dns Packet Namedb Edns Tsig Query Acl Respond Axfr Answering.

Section proofs.
Context `{T : NameTree} `{H : Hmac} (n : nsd).

Abbreviation An := (ST ans).

(** * The chains of CNAME and DNAME records end *)

(** How many record sets are in the answer section. *)
Fixpoint count_answer (a : answer) : nat :=
  match a with
  | [] => 0
  | e :: a => (if decide (a_section e = ANSWER_SECTION) then 1 else 0) + count_answer a
  end.
Definition answered (s : ans) : nat := count_answer (an_answer s).

Lemma count_answer_app a b : count_answer (a ++ b) = (count_answer a + count_answer b)%nat.
Proof using. induction a as [|e a IH]; [done|]. cbn [app count_answer]. rewrite IH. lia. Qed.
Lemma count_answer_length a : (count_answer a <= length a)%nat.
Proof using. induction a as [|e a IH]; [done|]. cbn [count_answer length]. destruct (decide _); lia. Qed.

(** A later state of the same answer. *)
Definition later (s s' : ans) : Prop :=
  (answered s <= answered s')%nat /\ (zlength (an_answer s) <= MAXRRSPP -> zlength (an_answer s') <= MAXRRSPP).

Lemma later_refl s : later s s.
Proof using. by split. Qed.
Lemma later_trans s1 s2 s3 : later s1 s2 -> later s2 s3 -> later s1 s3.
Proof using. intros [] []. split; [lia|auto]. Qed.
Lemma later_same s s' : an_answer s' = an_answer s -> later s s'.
Proof using. intros E. unfold later, answered. by rewrite E. Qed.

(** What holds of every outcome that is not a failure. *)
Definition after {A} (m : An A) (Q : A -> ans -> Prop) (s : ans) : Prop :=
  forall a s', m s = Ok (a, s') -> Q a s'.
Definition grows {A} (m : An A) : Prop := forall s, after m (fun _ s' => later s s') s.

Lemma after_bind {A B} (m : An A) (f : A -> An B) Q s :
  after m (fun a s' => after (f a) Q s') s -> after (m ≫= f) Q s.
Proof using.
  intros Hm b s' E. unfold mbind, ST_bind in E. destruct (m s) as [[a s1]| |] eqn:Em; [|done..]. by eapply Hm.
Qed.
Lemma after_mono {A} (m : An A) (Q Q' : A -> ans -> Prop) s :
  after m Q s -> (forall a s', Q a s' -> Q' a s') -> after m Q' s.
Proof using. intros Hm HQ a s' E. by apply HQ, Hm. Qed.

Lemma grows_bind {A B} (m : An A) (f : A -> An B) : grows m -> (forall a, grows (f a)) -> grows (m ≫= f).
Proof using.
  intros Hm Hf s. apply after_bind. eapply after_mono; [apply Hm|]. intros a s' Hl. eapply after_mono; [apply Hf|].
  intros b s2 Hl2. exact (later_trans _ _ _ Hl Hl2).
Qed.
Lemma grows_ret {A} (a : A) : grows (mret a : An A).
Proof using. intros s b s' E. injection E as <- <-. apply later_refl. Qed.
Lemma grows_lift {A} (r : res A) : grows (lift r : An A).
Proof using. intros s b s' E. unfold lift in E. destruct r; [|done..]. injection E as <- <-. apply later_refl. Qed.
Lemma grows_assert c : grows (st_assert c : An unit).
Proof using. intros s b s' E. unfold st_assert in E. destruct c; [|done]. injection E as <- <-. apply later_refl. Qed.
Lemma grows_on_query {A} (m : ST query A) : grows (on_query m).
Proof using.
  intros s b s' E. unfold on_query in E. destruct (m (an_query s)) as [[a q]| |]; [|done..]. injection E as <- <-.
  by apply later_same.
Qed.
Lemma grows_get : grows (st_get : An ans).
Proof using. intros s b s' E. injection E as <- <-. apply later_refl. Qed.
Lemma grows_on_db {A} (f : namedb -> res A) : grows (on_db f).
Proof using. apply grows_bind; [apply grows_get|intros; apply grows_lift]. Qed.
Lemma grows_the_query : grows the_query.
Proof using. apply grows_bind; [apply grows_get|intros; apply grows_ret]. Qed.
Lemma grows_the_zone : grows the_zone.
Proof using. apply grows_bind; [apply grows_the_query|intros; apply grows_lift]. Qed.
Lemma grows_new_domain d : grows (new_domain d).
Proof using. intros s b s' E. injection E as <- <-. by apply later_same. Qed.
Lemma grows_new_rrset r : grows (new_rrset r).
Proof using. intros s b s' E. injection E as <- <-. by apply later_same. Qed.

Create HintDb grow discriminated.
#[local] Hint Resolve grows_bind grows_ret grows_lift grows_assert grows_on_query grows_on_db grows_the_query
  grows_the_zone grows_new_domain grows_new_rrset : grow.
(** Case analysis on what the code branches on, then the rules. *)
Ltac grow :=
  repeat first
    [ progress (auto 1 with grow nocore)
    | match goal with |- grows (mbind _ _) => apply grows_bind; [|intros] end
    | match goal with |- grows (match ?x with _ => _ end) => destruct x end ].

(** ** Entries of the answer *)
Lemma answer_raise_later db section d r a : forall x, answer_raise db a section d r = Ok x ->
  match x with
  | None => True
  | Some (a', v) => zlength a' = zlength a /\ (ANSWER_SECTION <= section ->
      (count_answer a <= count_answer a')%nat /\
      (v = true -> section = ANSWER_SECTION -> count_answer a < count_answer a')%nat)
  end.
Proof using.
  induction a as [|e a IH]; intros x E; cbn [answer_raise] in E; [by injection E as <-|].
  destruct (domain_at db (a_domain e)) as [d'| |]; [|done..]. cbn [mbind res_bind] in E.
  destruct ((a_rrset e =? r) && (number d' =? number d)).
  - destruct (Z.ltb_spec section (a_section e)) as [Hs|Hs]; injection E as <-; (split; [done|]); intros Hmin;
      cbn [count_answer a_section]; [|by split].
    destruct (decide (a_section e = ANSWER_SECTION)); [lia|].
    destruct (decide (section = ANSWER_SECTION)); split; intros; lia.
  - destruct (answer_raise db a section d r) as [[[a' v]|]| |]; [|by injection E as <-|done..].
    cbn [mbind res_bind mret res_ret] in E. injection E as <-. destruct (IH _ eq_refl) as [Hl Hk].
    split; [rewrite !zlength_cons; lia|]. intros Hmin. destruct (Hk Hmin) as [Hk1 Hk2]. cbn [count_answer].
    split; [lia|]. intros Hv He. specialize (Hk2 Hv He). lia.
Qed.

Lemma add_to_answer_later section owner r s :
  after (add_to_answer section owner r) (fun added s' => later s s' /\
    (added = true -> section = ANSWER_SECTION -> (answered s < answered s')%nat)) s.
Proof using.
  intros added s' E. unfold add_to_answer, mbind, ST_bind, st_get, st_put, lift in E.
  destruct (answer_add_rrset (an_db s) (an_answer s) section owner r) as [[a v]| |] eqn:Ea; [|done..].
  injection E as <- <-. unfold later, answered. cbn [an_answer set_an_answer].
  unfold answer_add_rrset in Ea. destruct ((ANSWER_SECTION <=? section) && (section <? RR_SECTION_COUNT)) eqn:Es; [|done].
  cbn [rassert mbind res_bind] in Ea. destruct (domain_at (an_db s) owner) as [d| |]; [|done..].
  cbn [mbind res_bind] in Ea.
  destruct (answer_raise (an_db s) (an_answer s) section d r) as [[[a' v']|]| |] eqn:Er; [| |done..];
    cbn [mbind res_bind mret res_ret] in Ea.
  - injection Ea as <- <-. apply answer_raise_later in Er as [Hl Hk]. bool_simpl.
    destruct Hk as [Hk1 Hk2]; [lia|]. split; [split; [done|lia]|]. intros. by apply Hk2.
  - destruct (Z.leb_spec MAXRRSPP (zlength (an_answer s))); injection Ea as <- <-; [done|].
    rewrite count_answer_app, zlength_app. unfold zlength at 3. cbn [length count_answer a_section].
    split; [split; [lia|intros; lia]|]. intros _ ->. rewrite decide_True by done. lia.
Qed.

Lemma grows_add_to_answer section owner r : grows (add_to_answer section owner r).
Proof using. intros s. eapply after_mono; [apply add_to_answer_later|]. by intros a s' []. Qed.
#[local] Hint Resolve grows_add_to_answer : grow.

Lemma grows_additional_domain p : grows (additional_domain p).
Proof using. unfold additional_domain. grow. Qed.
#[local] Hint Resolve grows_additional_domain : grow.

Lemma grows_add_types z p types : grows (add_types z p types).
Proof using. induction types as [|[? ?] types IH]; cbn [add_types]; grow. Qed.
#[local] Hint Resolve grows_add_types : grow.

Lemma grows_add_additional_from z i glue types rs : grows (add_additional_from z i glue types rs).
Proof using. induction rs as [|r rs IH]; cbn [add_additional_from]; grow; apply IH. Qed.
#[local] Hint Resolve grows_add_additional_from : grow.

Lemma grows_add_additional_rrsets r i glue types : grows (add_additional_rrsets r i glue types).
Proof using. unfold add_additional_rrsets. grow. Qed.
#[local] Hint Resolve grows_add_additional_rrsets : grow.

(** The computation gives the value [r]. *)
Definition returns {A} (r : A) (m : An A) : Prop := forall s, after m (fun a s' => a = r /\ later s s') s.

Lemma returns_ret {A} (r : A) : returns r (mret r).
Proof using. intros s a s' E. injection E as <- <-. split; [done|apply later_refl]. Qed.
Lemma returns_bind {A B} (r : B) (m : An A) f : grows m -> (forall a, returns r (f a)) -> returns r (m ≫= f).
Proof using.
  intros Hm Hf s. apply after_bind. eapply after_mono; [apply Hm|]. intros a s1 H1.
  eapply after_mono; [apply Hf|]. intros b s2 [-> H2]. split; [done|exact (later_trans _ _ _ H1 H2)].
Qed.

(** A record set that is reported as added to the answer section was not in
    it before. *)
Lemma add_rrset_later section owner r s :
  after (add_rrset n section owner r) (fun added s' => later s s' /\
    (added = true -> section = ANSWER_SECTION -> (answered s < answered s')%nat)) s.
Proof using.
  unfold add_rrset. apply after_bind. eapply after_mono; [apply grows_on_db|]. intros rs s1 H1.
  apply after_bind. eapply after_mono; [apply grows_lift|]. intros class s2 H2.
  apply after_bind. eapply after_mono; [apply grows_assert|]. intros [] s3 H3.
  pose proof (later_trans _ _ _ H1 (later_trans _ _ _ H2 H3)) as H13.
  apply after_bind. eapply after_mono; [apply add_to_answer_later|]. intros result s4 [H4 Hadd].
  match goal with |- after ?m _ _ => assert (Hret : returns result m) end.
  { apply returns_bind; [auto with grow|]. intros q. destruct (_ && _); [apply returns_ret|].
    apply returns_bind; [auto with grow|]. intros type. apply returns_bind; [grow|intros; apply returns_ret]. }
  eapply after_mono; [apply Hret|]. intros added s5 [-> H5]. destruct H13, H4, H5.
  split; [split; [lia|auto]|]. intros Ha Hsec. specialize (Hadd Ha Hsec). lia.
Qed.

Lemma grows_add_rrset section owner r : grows (add_rrset n section owner r).
Proof using. intros s. eapply after_mono; [apply add_rrset_later|]. by intros a s' []. Qed.
#[local] Hint Resolve grows_add_rrset : grow.

Lemma grows_get_tempdomain : grows query_get_tempdomain.
Proof using. unfold query_get_tempdomain. grow. Qed.
#[local] Hint Resolve grows_get_tempdomain : grow.

Lemma grows_temp_domains source name base todo : forall i p, grows (temp_domains source name base todo i p).
Proof using. induction todo as [|todo IH]; intros i p; cbn [temp_domains]; grow. Qed.
#[local] Hint Resolve grows_temp_domains : grow.

Lemma grows_synthesize from to src ce t : grows (query_synthesize_cname n from to src ce t).
Proof using. unfold query_synthesize_cname. grow. Qed.
#[local] Hint Resolve grows_synthesize : grow.

Lemma grows_wants_dnssec : grows wants_dnssec.
Proof using. unfold wants_dnssec. grow. Qed.
Lemma grows_covering_nsec p : grows (add_covering_nsec n p).
Proof using. unfold add_covering_nsec. grow. Qed.
#[local] Hint Resolve grows_wants_dnssec grows_covering_nsec : grow.

Lemma grows_rcode_first c : grows (set_rcode_first c).
Proof using. unfold set_rcode_first. grow. Qed.
Lemma grows_aa_for_class : grows set_aa_for_class.
Proof using. unfold set_aa_for_class. grow. Qed.
#[local] Hint Resolve grows_rcode_first grows_aa_for_class : grow.

(** ** Bodies that differ in deep calls only *)
Definition agree (k : nat) {A} (m1 m2 : An A) : Prop := forall s,
  (k <= answered s)%nat -> zlength (an_answer s) <= MAXRRSPP -> m1 s = m2 s.
Definition agree_lookup (k : nat) (l1 l2 : lookup_fn) : Prop := forall number exact cm ce name,
  agree k (l1 number exact cm ce name) (l2 number exact cm ce name).

Lemma agree_refl k {A} (m : An A) : agree k m m.
Proof using. done. Qed.

Lemma agree_bind k {A B} (m : An A) (f1 f2 : A -> An B) : grows m ->
  (forall a, agree k (f1 a) (f2 a)) -> agree k (m ≫= f1) (m ≫= f2).
Proof using.
  intros Hm Hf s Hk Hs. unfold mbind, ST_bind. destruct (m s) as [[a s']| |] eqn:E; [|done..].
  destruct (Hm s a s' E) as [Hl Hz]. apply Hf; [lia|auto].
Qed.

Lemma agree_first k {A B} (m1 m2 : An A) (f : A -> An B) : agree k m1 m2 -> agree k (m1 ≫= f) (m2 ≫= f).
Proof using. intros Hm s Hk Hs. unfold mbind, ST_bind. by rewrite Hm. Qed.

(** Behind a record set that was added to the answer section. *)
Lemma agree_added k {B} owner r (f1 f2 : bool -> An B) :
  agree (S k) (f1 true) (f2 true) -> agree k (f1 false) (f2 false) ->
  agree k (add_rrset n ANSWER_SECTION owner r ≫= f1) (add_rrset n ANSWER_SECTION owner r ≫= f2).
Proof using.
  intros Ht Hf s Hk Hs. unfold mbind, ST_bind.
  destruct (add_rrset n ANSWER_SECTION owner r s) as [[[] s']| |] eqn:E; [| |done..];
    destruct (add_rrset_later _ _ _ _ _ _ E) as [[Hl Hz] Hadd].
  - specialize (Hadd eq_refl eq_refl). apply Ht; [lia|auto].
  - apply Hf; [lia|auto].
Qed.

Ltac agree :=
  repeat first
    [ match goal with |- agree _ ?m ?m => apply agree_refl end
    | progress cbv beta zeta iota delta [negb]
    | match goal with |- agree _ (mbind _ (add_rrset _ ANSWER_SECTION _ _)) _ => apply agree_added end
    | match goal with |- agree _ (mbind _ _) _ => apply agree_bind; [by grow|intros] end
    | match goal with |- agree _ (match ?x with _ => _ end) _ => destruct x end ].

Section bodies.
Context (k : nat) (l1 l2 : lookup_fn) (Hl : agree_lookup (S k) l1 l2).

Lemma agree_domain domain original :
  agree k (answer_domain n l1 domain original) (answer_domain n l2 domain original).
Proof using Hl. unfold answer_domain. agree. apply agree_first, Hl. Qed.

Lemma agree_dname number cm src r name :
  agree k (answer_dname n l1 number cm src r name) (answer_dname n l2 number cm src r name).
Proof using Hl. unfold answer_dname. agree. apply agree_first, Hl. Qed.

Lemma agree_authoritative number exact cm ce name :
  agree k (answer_authoritative n l1 number exact cm ce name) (answer_authoritative n l2 number exact cm ce name).
Proof using Hl. unfold answer_authoritative. agree; [apply agree_dname|apply agree_domain]. Qed.

Lemma agree_body : agree_lookup k (lookup_zone_body n l1) (lookup_zone_body n l2).
Proof using Hl. intros number exact cm ce name. unfold lookup_zone_body. agree. apply agree_authoritative. Qed.
End bodies.

Lemma agree_fuel b1 b2 fuel : forall k, MAXRRSPP < Z.of_nat (k + fuel) ->
  agree_lookup k (answer_lookup_zone n b1 fuel) (answer_lookup_zone n b2 fuel).
Proof using.
  induction fuel as [|fuel IH]; intros k Hk; cbn [answer_lookup_zone].
  - intros number exact cm ce name s Hs Hz. exfalso.
    pose proof (count_answer_length (an_answer s)). unfold answered in Hs. unfold zlength in Hz. lia.
  - apply agree_body, IH. lia.
Qed.

Lemma lookup_fuel_add b f1 f2 :
  answer_lookup_zone n b (f1 + f2) = answer_lookup_zone n (answer_lookup_zone n b f2) f1.
Proof using. induction f1 as [|f1 IH]; [done|]. cbn [Nat.add answer_lookup_zone]. by rewrite IH. Qed.

(** C39 (termination): following CNAME and DNAME records always ends.  Whatever
    the database, a call of [answer_lookup_zone] makes at most [MAXRRSPP] calls
    below it: what would be done deeper has no influence on the outcome, and
    more fuel gives the same outcome. *)
Theorem answer_lookup_zone_ends (bottom bottom' : lookup_fn) (fuel : nat) number exact cm ce name s :
  zlength (an_answer s) <= MAXRRSPP -> (chain_fuel <= fuel)%nat ->
  answer_lookup_zone n bottom fuel number exact cm ce name s =
  answer_lookup_zone n bottom' chain_fuel number exact cm ce name s.
Proof using.
  intros Hs Hf. replace fuel with (chain_fuel + (fuel - chain_fuel))%nat by lia. rewrite lookup_fuel_add.
  apply (agree_fuel _ _ chain_fuel 0); [unfold chain_fuel; lia|lia|done].
Qed.
End proofs.
