(* ===== verification/Process.v ===== *)
(** Model of [query_process] and [answer_notify] of src/query.c: what a server
    process does with one message. *)

From S2P Require Import Prelude Buffer Dname Dns Packet Namedb Edns Tsig Query Acl Respond Axfr Answering.

Section process.
Context `{T : NameTree} `{H : Hmac}.

Abbreviation Qry := (ST query).

(** The lists of the pattern of a configured zone. *)
Record zone_acls := mkacls {
  allow_notify : list acl_options;
  request_xfr : list acl_options;
  provide_xfr : list acl_options;
}.

(** What a notify sends to the xfrd process: the message, and the numbers of
    the elements that admit it and that the transfer may use. *)
Record notify_ipc := mknotify { ipc_packet : list Z; ipc_acl : Z; ipc_acl_xfr : Z }.

(** [find] is [zone_options_find], [write_socket] tells whether the five writes
    to the pipe succeed.  The result is the state and what was written. *)
Definition answer_notify (big_endian : bool) (find : dname_type -> option zone_acls)
    (write_socket : notify_ipc -> bool) (n : nsd) (now : Z) : Qry (query_state * option notify_ipc) :=
  let error rc := s ← query_error rc; mret (s, None) in
  q ← st_get;
  name ← lift (points_to (qname q));
  match find name with
  | None => error NSD_RC_NXDOMAIN
  | Some acls =>
      if negb (this_child n) then error NSD_RC_SERVFAIL else
      '(t, ok) ← on_packet (tsig_find_rr (tsig q));
      st_modify (set_tsig t);;
      if negb (ok : bool) then error NSD_RC_FORMAT else
      rc ← process_tsig n now;
      if negb (bool_decide (rc = NSD_RC_OK)) then error rc else
      q ← st_get;
      '(acl_num, why) ← lift (acl_check_incoming big_endian (allow_notify acls) q);
      if acl_num =? -1 then error NSD_RC_REFUSE else
      '(acl_num_xfr, _) ← lift (acl_check_incoming big_endian (request_xfr acls) q);
      st_assert (bool_decide (why <> None));;
      limit ← on_packet buffer_limit;
      if MAX_PACKET_SIZE <? limit then error NSD_RC_SERVFAIL else
      let ipc := mknotify (take (Z.to_nat limit) (_data (packet q))) acl_num acl_num_xfr in
      if negb (write_socket ipc) then error NSD_RC_SERVFAIL else
      on_packet QR_SET;;
      on_packet AA_SET;;
      on_packet (ANCOUNT_SET 0);;
      on_packet (NSCOUNT_SET 0);;
      on_packet (ARCOUNT_SET 0);;
      on_packet (RCODE_SET RCODE_OK);;
      pos ← on_packet buffer_position;
      on_packet buffer_clear;;
      on_packet (buffer_set_position pos);;
      mret (QUERY_PROCESSED, Some ipc)
  end.

(** The records of an IXFR query in its authority section. *)
Fixpoint skip_rrs (count : nat) : Qry bool :=
  match count with
  | O => mret true
  | S count => ok ← on_packet (packet_skip_rr false); if negb (ok : bool) then mret false else skip_rrs count
  end.

Definition parse_tsig : Qry bool :=
  q ← st_get;
  '(t, ok) ← on_packet (tsig_parse_rr (tsig q));
  st_modify (set_tsig t);;
  mret ok.
Definition one_less_if (c : bool) (arcount : Z) : Z := if c then arcount - 1 else arcount.

(** The OPT and TSIG records of the additional section: [None] when a TSIG
    record is malformed, otherwise how many records are left. *)
Definition parse_additional (n : nsd) (arcount : Z) : Qry (option Z) :=
  let present (q : query) := negb (bool_decide (ts_status (tsig q) = TSIG_NOT_PRESENT)) in
  ok ← (if 0 <? arcount then parse_tsig else mret true);
  if negb (ok : bool) then mret None else
  q ← st_get;
  let arcount := one_less_if ((0 <? arcount) && present q) arcount in
  edns ← (if 0 <? arcount then
            '(e, found) ← on_packet (edns_parse_record (edns q) (nsid_len n));
            st_modify (set_edns e);;
            mret (found : bool)
          else mret false);
  let arcount := one_less_if edns arcount in
  if (0 <? arcount) && negb (present q) then
    ok ← parse_tsig;
    if negb (ok : bool) then mret None else
    q ← st_get;
    mret (Some (one_less_if (present q) arcount))
  else mret (Some arcount).

(** The server that processes queries: its settings and error rate, and the
    start of the next rotation of a record set. *)
Record server := mkserver { sv_nsd : nsd; sv_round_robin : Z }.

Section settings.
Context (big_endian : bool) (find : dname_type -> option zone_acls) (write_socket : notify_ipc -> bool).
Context (db : namedb) (now : Z).

(** From [query_prepare_response] on. *)
Definition respond (sv : server) : Qry (server * query_state) :=
  let n := sv_nsd sv in
  query_prepare_response n;;
  q ← st_get;
  if negb (qclass q =? CLASS_IN) && negb (qclass q =? CLASS_ANY) then
    s ← (if qclass q =? CLASS_CH then answer_chaos n else query_error NSD_RC_REFUSE);
    mret (sv, s)
  else
    s ← answer_axfr_ixfr big_endian (fun name => provide_xfr <$> find name) db n;
    if bool_decide (s = QUERY_DISCARDED) then
      off ← answer_query n db (sv_round_robin sv);
      mret (mkserver n off, QUERY_PROCESSED)
    else mret (sv, s).

Definition query_process (sv : server) : Qry (server * query_state) :=
  let n := sv_nsd sv in
  let discard := mret (sv, QUERY_DISCARDED) in
  let formerr := '(n, s) ← query_formerr now n; mret (mkserver n (sv_round_robin sv), s) in
  let not_implemented :=
    let '(n, limited) := query_ratelimit_err now n in
    if (limited : bool) then mret (mkserver n (sv_round_robin sv), QUERY_DISCARDED)
    else s ← query_error NSD_RC_IMPL; mret (mkserver n (sv_round_robin sv), s) in
  limit ← on_packet buffer_limit;
  if limit <? QHEADERSZ then discard else
  qr ← on_packet QR;
  if negb (qr =? 0) then discard else
  opcode ← on_packet OPCODE;
  st_modify (set_query_opcode opcode);;
  if negb (opcode =? OPCODE_QUERY) && negb (opcode =? OPCODE_NOTIFY) then not_implemented else
  rcode ← on_packet RCODE;
  parsed ← (if negb (rcode =? RCODE_OK) then mret false else process_query_section);
  if negb (parsed : bool) then formerr else
  if opcode =? OPCODE_NOTIFY then
    '(s, _) ← answer_notify big_endian find write_socket n now;
    mret (sv, s)
  else
  qdcount ← on_packet QDCOUNT;
  if negb (qdcount =? 1) then on_packet (FLAGS_SET 0);; formerr else
  ancount ← on_packet ANCOUNT;
  nscount ← on_packet NSCOUNT;
  q ← st_get;
  if negb (ancount =? 0) || (negb (qtype q =? TYPE_IXFR) && negb (nscount =? 0)) then formerr else
  skipped ← (if (qtype q =? TYPE_IXFR) && (0 <? nscount) then skip_rrs (Z.to_nat nscount) else mret true);
  if negb (skipped : bool) then formerr else
  arcount ← on_packet ARCOUNT;
  left ← parse_additional n arcount;
  match left with
  | None => formerr
  | Some arcount =>
      if 0 <? arcount then formerr else
      position ← on_packet buffer_position;
      on_packet (buffer_set_limit position);;
      rc ← process_tsig n now;
      if negb (bool_decide (rc = NSD_RC_OK)) then s ← query_error rc; mret (sv, s) else
      rc ← process_edns n;
      if negb (bool_decide (rc = NSD_RC_OK)) then s ← query_error NSD_RC_OK; mret (sv, s) else
      respond sv
  end.
End settings.
End process.
