(* ===== verification/ProcessProofs.v ===== *)
(** Theorems about processing a message (Process.v). *)

From S2P Require Import Prelude Buffer Dname DnameProofs DnamePacket Dns Packet PacketProofs Namedb Edns Tsig Query QueryProofs QueryRecords QueryRRset Acl Respond Axfr Answering Process.

Section process.
Context `{T : NameTree} `{H : Hmac}.

Lemma wp_packet {A} (m : Buf A) (Q : A -> query -> Prop) q :
  wp m (fun a b => Q a (set_packet b q)) (packet q) -> wp (on_packet m) Q q.
Proof using. unfold wp, on_packet. by destruct (m (packet q)) as [[a b]| |]. Qed.

(** * Error responses *)

Lemma wp_byte_at i b (Q : Z -> buffer -> Prop) : buffer_ok b -> 0 <= i < _limit b ->
  Q (zget (_data b) i) b -> wp (byte_at i) Q b.
Proof using.
  intros Hb Hi HQ. unfold byte_at. wp_step. apply wp_buffer_at; [lia|]. do 3 wp_step.
  apply wp_assert; [apply Z.ltb_lt; destruct Hb; lia|]. by wp_step.
Qed.

Lemma wp_flag_get i mask b (Q : Z -> buffer -> Prop) : buffer_ok b -> 0 <= i < _limit b ->
  Q (Z.land (zget (_data b) i) mask) b -> wp (flag_get i mask) Q b.
Proof using. intros. unfold flag_get. wp_step. apply wp_byte_at; [done|done|]. by wp_step. Qed.

(** The bytes of the header one at a time. *)
Record header_change (b b' : buffer) (byte2 byte3 : Z -> Z) : Prop := {
  change_ok : buffer_ok b';
  change_capacity : _capacity b' = _capacity b;
  change_id : zget (_data b') 0 = zget (_data b) 0 /\ zget (_data b') 1 = zget (_data b) 1;
  change_2 : zget (_data b') 2 = byte2 (zget (_data b) 2);
  change_3 : zget (_data b') 3 = byte3 (zget (_data b) 3);
}.

(** The response has nothing but the header, with every count zero. *)
Record error_packet (b b' : buffer) (byte2 byte3 : Z -> Z) : Prop := {
  error_change : header_change b b' byte2 byte3;
  error_position : _position b' = QHEADERSZ /\ _limit b' = _capacity b';
  error_counts : forall i, 4 <= i < QHEADERSZ -> zget (_data b') i = 0;
}.

Lemma wp_set_u16 i v b (Q : unit -> buffer -> Prop) : buffer_ok b -> 0 <= i -> i + 2 <= _limit b ->
  (forall b', buffer_ok b' -> _position b' = _position b -> _limit b' = _limit b -> _capacity b' = _capacity b ->
     zget (_data b') i = v / 256 mod 256 -> zget (_data b') (i + 1) = v mod 256 ->
     (forall j, 0 <= j -> j <> i -> j <> i + 1 -> zget (_data b') j = zget (_data b) j) -> Q tt b') ->
  wp (buffer_write_u16_at i v) Q b.
Proof using.
  intros Hb Hi Hl HQ. pose proof Hb as []. unfold buffer_write_u16_at.
  assert (Hw : zlength (write_uint16 v) = 2) by done.
  apply wp_buffer_write_at; [done|rewrite Hw; lia|]. apply HQ; try done.
  - apply buffer_ok_set_data; [done|by rewrite zlength_inserts|auto with wp].
  - cbn [_data set_data]. rewrite zget_inserts_in by (lia). rewrite write_uint16_eq.
    by replace (i - i) with 0 by lia.
  - cbn [_data set_data]. rewrite zget_inserts_in by lia. rewrite write_uint16_eq.
    by replace (i + 1 - i) with 1 by lia.
  - intros j Hj H1 H2. cbn [_data set_data]. apply zget_inserts_out; lia.
Qed.

Lemma wp_update i f b (Q : unit -> buffer -> Prop) : buffer_ok b -> 0 <= i < _limit b ->
  (forall b', buffer_ok b' -> _position b' = _position b -> _limit b' = _limit b -> _capacity b' = _capacity b ->
     zget (_data b') i = u8 (f (zget (_data b) i)) ->
     (forall j, 0 <= j -> j <> i -> zget (_data b') j = zget (_data b) j) -> Q tt b') ->
  wp (byte_update i f) Q b.
Proof using.
  intros Hb Hi HQ. pose proof Hb as []. apply wp_byte_update; [done|done|]. apply HQ; try done.
  - apply buffer_ok_set_data; [done|unfold zlength; by rewrite length_insert|].
    apply Forall_insert; [done|apply u8_range].
  - cbn [_data set_data]. apply zget_insert_eq; lia.
  - intros j Hj Hne. cbn [_data set_data]. apply zget_insert_ne; lia.
Qed.

Lemma wp_clear b (Q : unit -> buffer -> Prop) : buffer_ok b ->
  (buffer_ok (mkbuffer 0 (_capacity b) (_capacity b) (_data b) (_fixed b)) ->
   Q tt (mkbuffer 0 (_capacity b) (_capacity b) (_data b) (_fixed b))) -> wp buffer_clear Q b.
Proof using.
  intros Hb HQ. unfold buffer_clear. wp_step. apply wp_buffer_invariant; [done|]. wp_step. apply HQ.
  destruct Hb. by split; cbn; try done; lia.
Qed.

(** What [query_error] makes of the two bytes of flags. *)
Definition error_byte2 (x : Z) : Z := Z.lor x QR_MASK.
Definition error_byte3 (rcode x : Z) : Z := Z.lor (Z.land (Z.land x (Z.lnot AD_MASK)) (Z.lnot RCODE_MASK)) rcode.

Lemma wp_query_error rc q (Q : query_state -> query -> Prop) :
  rc <> NSD_RC_DISCARD -> buffer_ok (packet q) -> QHEADERSZ <= _capacity (packet q) ->
  (forall b', error_packet (packet q) b' (fun x => u8 (error_byte2 x)) (fun x => u8 (error_byte3 (rc_code rc) x)) ->
     Q QUERY_PROCESSED (set_packet b' q)) ->
  wp (query_error rc) Q q.
Proof using.
  intros Hrc Hb Hc HQ. unfold QHEADERSZ in Hc. unfold query_error. rewrite bool_decide_false by done.
  wp_step. apply wp_packet, wp_clear; [done|]. intros Hb1. set (b1 := mkbuffer _ _ _ _ _) in *.
  wp_step. apply wp_packet, wp_update; [done|cbn; lia|]. cbn [packet set_packet]. intros b2 Hb2 P2 L2 C2 E2 O2.
  wp_step. apply wp_packet, wp_update; [done|cbn [packet set_packet]; rewrite L2; cbn; lia|]. cbn [packet set_packet].
  intros b3 Hb3 P3 L3 C3 E3 O3.
  wp_step. apply wp_packet, wp_update; [done|cbn [packet set_packet]; rewrite L3, L2; cbn; lia|]. cbn [packet set_packet].
  intros b4 Hb4 P4 L4 C4 E4 O4.
  assert (L : _limit b4 = _capacity (packet q)) by (rewrite L4, L3, L2; done).
  wp_step. apply wp_packet, wp_set_u16; [done|lia|cbn [packet set_packet]; lia|]. cbn [packet set_packet].
  intros b5 Hb5 P5 L5 C5 Z5 Z5' O5.
  wp_step. apply wp_packet, wp_set_u16; [done|lia|cbn [packet set_packet]; lia|]. cbn [packet set_packet].
  intros b6 Hb6 P6 L6 C6 Z6 Z6' O6.
  wp_step. apply wp_packet, wp_set_u16; [done|lia|cbn [packet set_packet]; lia|]. cbn [packet set_packet].
  intros b7 Hb7 P7 L7 C7 Z7 Z7' O7.
  wp_step. apply wp_packet, wp_set_u16; [done|lia|cbn [packet set_packet]; lia|]. cbn [packet set_packet].
  intros b8 Hb8 P8 L8 C8 Z8 Z8' O8.
  wp_step. apply wp_packet, wp_buffer_set_position; [cbn [packet set_packet]; unfold QHEADERSZ; lia|]. cbn [packet set_packet].
  wp_step. 
  match goal with |- Q _ ?x => change x with (set_packet (set_pos QHEADERSZ b8) q) end.
  assert (Hflag : forall j, 0 <= j < 4 -> zget (_data b8) j = zget (_data b4) j).
  { intros j Hj. rewrite O8, O7, O6, O5 by lia. done. }
  assert (Cap : _capacity b8 = _capacity (packet q)) by (rewrite C8, C7, C6, C5, C4, C3, C2; done).
  apply HQ. split; [split| |]; cbn [_data _capacity set_pos _position _limit].
  - apply buffer_ok_set_pos; [done|unfold QHEADERSZ; lia].
  - done.
  - split; rewrite Hflag by lia; rewrite O4, O3, O2 by lia; done.
  - rewrite Hflag, O4, O3, E2 by lia. done.
  - rewrite Hflag, E4, E3, O2 by lia. unfold error_byte3. f_equal. f_equal. f_equal. cbn [_data b1].
    apply Z.eqb_eq. apply (byte_forall (fun x => u8 (Z.land x (Z.lnot AD_MASK)) =? Z.land x (Z.lnot AD_MASK)));
      [by vm_compute|]. apply zget_byte, Hb.
  - split; [done|]. lia.
  - intros i Hi. unfold QHEADERSZ in Hi. 
    assert (Hcase : i = 4 \/ i = 5 \/ i = 6 \/ i = 7 \/ i = 8 \/ i = 9 \/ i = 10 \/ i = 11) by lia.
    destruct Hcase as [->|[->|[->|[->|[->|[->|[->| ->]]]]]]];
      repeat first [exact Z8|exact Z8'|rewrite O8 by lia|exact Z7|exact Z7'|rewrite O7 by lia
                   |exact Z6|exact Z6'|rewrite O6 by lia|exact Z5|exact Z5'].
Qed.

(** The response to a query that cannot be understood: opcode and RD of the
    query, QR, and FORMERR. *)
Definition formerr_byte2 (x : Z) : Z := Z.lor (Z.land x (Z.lor OPCODE_MASK RD_MASK)) QR_MASK.

Lemma flags_rd d : Forall byte d ->
  Z.land (read_uint16 d 2) 0x0100 = Z.shiftl (Z.land (zget d 2) 1) 8.
Proof using.
  intros Hd. unfold read_uint16. rewrite Z.land_lor_distr_l.
  assert (E : Z.land (zget d (2 + 1)) 256 = 0).
  { apply Z.eqb_eq, (byte_forall (fun x => Z.land x 256 =? 0)); [by vm_compute|by apply zget_byte]. }
  rewrite E, Z.lor_0_r. change 256 with (Z.shiftl 1 8). by rewrite Z.shiftl_land.
Qed.

Lemma wp_query_formerr now n q (Q : nsd * query_state -> query -> Prop) :
  buffer_ok (packet q) -> QHEADERSZ <= _limit (packet q) ->
  (let '(n', limited) := query_ratelimit_err now n in
   if (limited : bool) then Q (n', QUERY_DISCARDED) q
   else forall b', error_packet (packet q) b' formerr_byte2 (fun _ => RCODE_FORMAT) ->
     Q (n', QUERY_PROCESSED) (set_packet b' q)) ->
  wp (query_formerr now n) Q q.
Proof using.
  intros Hb Hl HQ. unfold QHEADERSZ in Hl. pose proof Hb as []. unfold query_formerr.
  assert (Hq : set_packet (packet q) q = q) by (by destruct q).
  wp_step. apply wp_packet. unfold OPCODE. wp_step. apply wp_byte_at; [done|lia|]. wp_step. rewrite Hq.
  destruct (query_ratelimit_err now n) as [n' limited]. destruct limited.
  { by wp_step. }
  wp_step. apply wp_packet, wp_buffer_read_u16_at; [done|lia|]. intros _. rewrite Hq, flags_rd by apply Hb.
  wp_step. apply wp_packet, wp_set_u16; [done|lia|lia|]. intros b1 Hb1 P1 L1 C1 E1 E1' O1.
  wp_step. apply wp_packet, wp_update; [done|cbn [packet set_packet]; lia|]. cbn [packet set_packet].
  intros b2 Hb2 P2 L2 C2 E2 O2.
  wp_step. apply wp_query_error; [done|done|cbn [packet set_packet]; unfold QHEADERSZ; lia|].
  cbn [packet set_packet]. intros b3 [[Hok Hcap Hid H2 H3] Hpos Hcnt]. wp_step.
  apply (HQ b3). split; [split| |]; [done|congruence| | | |done|done].
  - by rewrite !O2, !O1 in Hid by lia.
  - rewrite H2, E2, E1. unfold error_byte2, formerr_byte2. pose proof (zget_byte (_data (packet q)) 2 ltac:(apply Hb)) as Hx.
    revert Hx. generalize (zget (_data (packet q)) 2). intros x Hx. apply Z.eqb_eq.
    apply (byte_forall (fun x => u8 (Z.lor (u8 (Z.lor (Z.land (Z.shiftl (Z.land x 1) 8 / 256 mod 256) (Z.lnot OPCODE_MASK))
      (Z.shiftl (Z.shiftr (Z.land x OPCODE_MASK) OPCODE_SHIFT) OPCODE_SHIFT))) QR_MASK) =?
      Z.lor (Z.land x (Z.lor OPCODE_MASK RD_MASK)) QR_MASK)); [by vm_compute|done].
  - rewrite H3, O2 by lia. change 3 with (2 + 1). rewrite E1'.
    pose proof (zget_byte (_data (packet q)) 2 ltac:(apply Hb)) as Hx. revert Hx.
    generalize (zget (_data (packet q)) 2). intros x Hx. apply Z.eqb_eq.
    apply (byte_forall (fun x => u8 (error_byte3 (rc_code NSD_RC_FORMAT) (Z.shiftl (Z.land x 1) 8 mod 256)) =? RCODE_FORMAT));
      [by vm_compute|done].
Qed.

Lemma error_packet_pos p b b' byte2 byte3 : error_packet (set_pos p b) b' byte2 byte3 -> error_packet b b' byte2 byte3.
Proof using. intros [[? ? ? ? ?] ? ?]. split; [split| |]; done. Qed.

(** No question section: no name that is legal with a type and a class behind
    it in the message. *)
Definition no_question (b : buffer) : Prop := forall ls k,
  plain (set_pos QHEADERSZ b) QHEADERSZ ls k -> name_ok ls -> _limit b < k + 4.

Definition opcode_of (b : buffer) : Z := Z.shiftr (Z.land (zget (_data b) 2) OPCODE_MASK) OPCODE_SHIFT.

(** The response with an error, unless there have been too many. *)
Definition error_or_drop (sv : server) (now : Z) (b : buffer) (byte2 byte3 : Z -> Z)
    (r : server * query_state) (q' : query) : Prop :=
  let '(n, limited) := query_ratelimit_err now (sv_nsd sv) in
  r.1 = mkserver n (sv_round_robin sv) /\
  if (limited : bool) then r.2 = QUERY_DISCARDED /\ _data (packet q') = _data b
  else r.2 = QUERY_PROCESSED /\ error_packet b (packet q') byte2 byte3.

Lemma wp_formerr sv now b q (Q : server * query_state -> query -> Prop) :
  buffer_ok (packet q) -> QHEADERSZ <= _limit (packet q) -> (exists p, packet q = set_pos p b) ->
  (forall r q', error_or_drop sv now b formerr_byte2 (fun _ => RCODE_FORMAT) r q' -> Q r q') ->
  wp ('(n, s) ← query_formerr now (sv_nsd sv); mret (mkserver n (sv_round_robin sv), s)) Q q.
Proof using.
  intros Hb Hl (p & Ep) HQ. wp_step. apply wp_query_formerr; [done|done|]. unfold error_or_drop in HQ.
  destruct (query_ratelimit_err now (sv_nsd sv)) as [n' []].
  - wp_step. apply HQ. split_and!; [done|done|]. by rewrite Ep.
  - intros b' He. wp_step. apply HQ. split_and!; [done|done|]. apply (error_packet_pos p). by rewrite <-Ep.
Qed.

End process.
