(* ===== verification/AnsweringCases.v ===== *)
(** Theorems about the answer to a query that meets no CNAME or DNAME record
    (Answering.v): data, no data, no such name and delegation. *)

From S2P Require Import Prelude Buffer Dname DnameProofs DnamePacket Dns Packet Namedb Edns Tsig Query QueryProofs Acl Respond Axfr Answering Process ProcessProofs.

Section cases.
Context `{T : NameTree} `{H : Hmac} (n : nsd).

Abbreviation An := (ST ans).

Lemma wp_on_query {A} (m : ST query A) (Q : A -> ans -> Prop) s :
  wp m (fun a q => Q a (set_an_query q s)) (an_query s) -> wp (on_query m) Q s.
Proof using. unfold wp, on_query. by destruct (m (an_query s)) as [[a q]| |]. Qed.

Lemma wp_on_db {A} (f : namedb -> res A) a (Q : A -> ans -> Prop) s :
  f (an_db s) = Ok a -> Q a s -> wp (on_db f) Q s.
Proof using. intros E HQ. unfold on_db. do 2 wp_step. by eapply wp_lift. Qed.

Lemma wp_the_query (Q : query -> ans -> Prop) s : Q (an_query s) s -> wp the_query Q s.
Proof using. intros HQ. unfold the_query. by do 3 wp_step. Qed.

Lemma wp_the_zone z (Q : Z -> ans -> Prop) s : query_zone (an_query s) = Some z -> Q z s -> wp the_zone Q s.
Proof using. intros E HQ. unfold the_zone. wp_step. apply wp_the_query. apply (wp_lift _ z); [by rewrite E|done]. Qed.

(** A record set of class IN of type [type]. *)
Definition set_of_type (db : namedb) (r type : Z) : Prop := exists rs x,
  rrset_at db r = Ok rs /\ first_rr rs = Ok x /\ klass x = CLASS_IN /\ rr_type x = type.

(** No additional records are looked up. *)
Definition quiet (section qtype type : Z) : bool :=
  (minimal_responses n && negb (section =? AUTHORITY_SECTION) && negb (qtype =? TYPE_NS)) ||
  negb ((type =? TYPE_NS) || (type =? TYPE_MB) || (type =? TYPE_MX) || (type =? TYPE_KX) || (type =? TYPE_RT) ||
        (type =? TYPE_SRV)).

(** The first record set of an answer. *)
Lemma wp_add_first section owner d r type s (Q : bool -> ans -> Prop) :
  an_answer s = [] -> ANSWER_SECTION <= section < RR_SECTION_COUNT -> domain_at (an_db s) owner = Ok d ->
  set_of_type (an_db s) r type -> quiet section (qtype (an_query s)) type = true ->
  Q true (set_an_answer [mkentry section owner r] s) -> wp (add_rrset n section owner r) Q s.
Proof using.
  intros Ha Hs Hd (rs & x & Hrs & Hx & Hk & Ht) Hq HQ. unfold add_rrset.
  wp_step. eapply wp_on_db; [done|]. wp_step. eapply wp_lift; [unfold rrset_rrclass; by rewrite Hx|].
  rewrite Hk. wp_step. apply wp_assert; [done|].
  assert (Hadd : forall P, P true (set_an_answer [mkentry section owner r] s) -> wp (add_to_answer section owner r) P s).
  { intros P HP. unfold add_to_answer. do 2 wp_step. wp_step. apply (wp_lift _ ([mkentry section owner r], true)).
    - rewrite Ha. unfold answer_add_rrset.
      replace ((ANSWER_SECTION <=? section) && (section <? RR_SECTION_COUNT)) with true by lia.
      cbn [rassert mbind res_bind]. by rewrite Hd.
    - by do 3 wp_step. }
  wp_step. apply Hadd. wp_step. apply wp_the_query. cbn [an_query set_an_answer].
  unfold quiet in Hq. destruct (minimal_responses n && negb (section =? AUTHORITY_SECTION) && negb (qtype (an_query s) =? TYPE_NS));
    [by wp_step|]. cbn [orb] in Hq. bool_simpl.
  wp_step. eapply wp_lift; [unfold rrset_rrtype; by rewrite Hx|]. rewrite Ht.
  rewrite !(proj2 (Z.eqb_neq _ _)) by done. cbn [orb].
  by do 2 wp_step.
Qed.

(** * The outcome *)

(** The flags of the response: authoritative or not, and the response code. *)
Record flagged (aa : bool) (rcode : option Z) (b b' : buffer) : Prop := {
  flagged_ok : buffer_ok b';
  flagged_place : _position b' = _position b /\ _limit b' = _limit b /\ _capacity b' = _capacity b;
  flagged_aa : Z.land (zget (_data b') 2) AA_MASK = if aa then AA_MASK else 0;
  flagged_rcode : Z.land (zget (_data b') 3) RCODE_MASK =
    match rcode with Some c => c | None => Z.land (zget (_data b) 3) RCODE_MASK end;
  flagged_rest : forall j, 0 <= j -> j <> 2 -> j <> 3 -> zget (_data b') j = zget (_data b) j;
}.

(** The answer, the database and the flags at the end. *)
Definition replied (s s' : ans) (z : Z) (db : namedb) (aa : bool) (rcode : option Z) (a : answer) : Prop :=
  an_answer s' = a /\ an_db s' = db /\ query_zone (an_query s') = Some z /\ edns (an_query s') = edns (an_query s) /\
  flagged aa rcode (packet (an_query s)) (packet (an_query s')).

Lemma wp_aa_set s (Q : unit -> ans -> Prop) : buffer_ok (packet (an_query s)) ->
  QHEADERSZ <= _limit (packet (an_query s)) -> qclass (an_query s) = CLASS_IN ->
  (forall b, flagged true None (packet (an_query s)) b -> Q tt (set_an_query (set_packet b (an_query s)) s)) ->
  wp set_aa_for_class Q s.
Proof using.
  intros Hb Hl Hc HQ. unfold QHEADERSZ in Hl. unfold set_aa_for_class. wp_step. apply wp_the_query. rewrite Hc.
  apply wp_on_query, wp_packet, wp_update; [done|lia|]. intros b' Hb' P L C E O. apply HQ. split; try done.
  - rewrite E. apply Z.eqb_eq. apply (byte_forall (fun x => Z.land (u8 (Z.lor x AA_MASK)) AA_MASK =? AA_MASK));
      [by vm_compute|apply zget_byte, Hb].
  - by rewrite O by lia.
  - intros j Hj H2 H3. by apply O.
Qed.

Lemma wp_rcode_set aa rcode b0 s (Q : unit -> ans -> Prop) : flagged aa None b0 (packet (an_query s)) ->
  QHEADERSZ <= _limit b0 -> 0 <= rcode < 16 ->
  (forall b, flagged aa (Some rcode) b0 b -> Q tt (set_an_query (set_packet b (an_query s)) s)) ->
  wp (on_query (on_packet (RCODE_SET rcode))) Q s.
Proof using.
  intros [Hb (P0 & L0 & C0) Ha Hr Ho] Hl Hc HQ. unfold QHEADERSZ in Hl.
  apply wp_on_query, wp_packet, wp_update; [done|lia|]. intros b' Hb' P L C E O. apply HQ. split; [done|lia| | |].
  - by rewrite O by lia.
  - rewrite E. apply Z.eqb_eq.
    assert (Hall : forallb (fun c => forallb (fun x => Z.land (u8 (Z.lor (Z.land x (Z.lnot RCODE_MASK)) c)) RCODE_MASK =? c)
      (seqZ 0 256)) (seqZ 0 16) = true) by (by vm_compute).
    rewrite forallb_forall in Hall. apply (byte_forall (fun x => Z.land (u8 (Z.lor (Z.land x (Z.lnot RCODE_MASK)) rcode)) RCODE_MASK =? rcode)).
    + apply Hall, list_elem_of_In, elem_of_seqZ. lia.
    + apply zget_byte, Hb.
  - intros j Hj H2 H3. rewrite O by lia. by apply Ho.
Qed.

(** * The cases *)

Section direct.
Context (s : ans) (z : Z) (a : zone) (top ce : Z) (e : domain).

Abbreviation q := (an_query s).
Abbreviation db := (an_db s).

(** The zone of the name is loaded and not expired, and no cut, no DNAME and no
    DNSSEC are involved. *)
Record direct : Prop := {
  direct_packet : buffer_ok (packet q) /\ QHEADERSZ <= _limit (packet q);
  direct_query : qclass q = CLASS_IN /\ cname_count q = 0 /\ dnssec_ok (edns q) = 0 /\ an_answer s = [];
  direct_type : qtype q <> TYPE_DS /\ qtype q <> TYPE_ANY /\ qtype q <> TYPE_NS;
  direct_minimal : minimal_responses n = true;
  direct_zone : domain_find_zone db (Some ce) = Ok (Some z) /\ zone_at db z = Ok a;
  direct_loaded : apex a = Some top /\ soa_rrset a <> None /\ expires a && negb (is_ok a) = false;
  direct_encloser : domain_at db ce = Ok e /\ is_existing e = true;
  direct_above : find_dname_above db ce z = Ok None;
  direct_cut : domain_find_ns_rrsets db (Some ce) z = Ok None;
}.
Context (Hd : direct).

Lemma existing_here : existing_encloser db ce = Ok (Some ce).
Proof using Hd.
  destruct (direct_encloser Hd) as [He Hx]. unfold existing_encloser, parent_fuel. cbn [iter]. by rewrite He; cbn; rewrite Hx.
Qed.

(** Up to [answer_authoritative], for any query that differs in what has just been set. *)
Definition entered (b : buffer) : ans :=
  set_an_query (set_packet b (set_delegation_rrset None (set_delegation_domain None (set_query_zone (Some z) q)))) s.

Lemma wp_lookup_body lookup number exact cm name (Q : unit -> ans -> Prop) :
  (forall b, flagged true None (packet q) b ->
     wp (answer_authoritative n lookup number exact cm (Some ce) name) Q (entered b)) ->
  wp (lookup_zone_body n lookup number exact cm (Some ce) name) Q s.
Proof using Hd.
  intros HQ. destruct (direct_packet Hd) as [Hb Hl], (direct_query Hd) as (Hc & Hcn & Hdo & Ha),
    (direct_type Hd) as (Hds & Hany & Hns), (direct_zone Hd) as [Hfz Hz], (direct_loaded Hd) as (Hap & Hsoa & Hexp).
  unfold lookup_zone_body. wp_step. eapply wp_on_db; [exact Hfz|]. wp_step. apply wp_on_query. wp_step. 
  wp_step. eapply wp_on_db; [exact Hz|]. rewrite Hap. rewrite bool_decide_false by done. rewrite bool_decide_false by done.
  cbn [orb]. wp_step. eapply wp_on_db; [exact existing_here|]. cbv zeta. wp_step. apply wp_the_query.
  cbn [an_query set_an_query].
  assert (Eds : (qtype (set_query_zone (Some z) q) =? TYPE_DS) = false) by (by apply Z.eqb_neq).
  rewrite Eds, andb_false_r. cbn [andb]. do 2 wp_step. wp_step. apply (wp_the_zone z); [done|].
  wp_step. eapply wp_on_db; [exact Hz|]. rewrite Hexp.
  wp_step. eapply wp_on_db; [exact (direct_cut Hd)|]. cbn [fmap option_fmap option_map].
  wp_step. apply wp_on_query. do 3 wp_step. do 2 wp_step. wp_step. apply wp_the_query. cbn [an_query set_an_query].
  rewrite bool_decide_true by done. cbn [orb]. wp_step. apply wp_aa_set; [done|done|done|].
  intros b Hf. rewrite bool_decide_true, andb_true_r by done. exact (HQ b Hf).
Qed.

Lemma wp_wants_dnssec (Q : bool -> ans -> Prop) s1 : dnssec_ok (edns (an_query s1)) = 0 -> Q false s1 ->
  wp wants_dnssec Q s1.
Proof using. intros E HQ. unfold wants_dnssec. wp_step. apply wp_the_query. rewrite E. by wp_step. Qed.

Lemma find_in_rrsets_ext db1 db2 test l : rrsets db1 = rrsets db2 -> find_in_rrsets db1 test l = find_in_rrsets db2 test l.
Proof using.
  intros E. induction l as [|r l IH]; [done|]. cbn [find_in_rrsets]. unfold rrset_at. rewrite E.
  destruct (points_to (rrsets db2 !! r)) as [rs| |]; [|done..]. cbn [mbind res_bind].
  destruct (test rs) as [[]| |]; [done|exact IH|done..].
Qed.

(** A record set of the type that is asked for. *)
Lemma wp_data lookup b m d r original db' (Q : unit -> ans -> Prop) : flagged true None (packet q) b ->
  domain_at db' m = Ok d -> domain_find_rrset db' d z (qtype q) = Ok (Some r) -> set_of_type db' r (qtype q) ->
  zone_at db' z = Ok a ->
  (forall s', replied s s' z db' true None [mkentry ANSWER_SECTION m r] -> Q tt s') ->
  forall s1, an_db s1 = db' -> an_answer s1 = [] -> packet (an_query s1) = b -> query_zone (an_query s1) = Some z ->
    qtype (an_query s1) = qtype q -> edns (an_query s1) = edns q -> wp (answer_domain n lookup m original) Q s1.
Proof using Hd.
  intros Hf Hm Hr Ht Hza HQ s1 Edb Ea Ep Ez Eq Ee. destruct (direct_type Hd) as (Hds & Hany & Hns).
  unfold answer_domain. wp_step. apply wp_the_query. wp_step. apply (wp_the_zone z); [done|].
  wp_step. eapply wp_on_db; [rewrite Edb; exact Hm|]. rewrite Eq. rewrite (proj2 (Z.eqb_neq _ _) Hany).
  wp_step. eapply wp_on_db; [rewrite Edb; exact Hr|].
  cbv beta iota. wp_step. eapply (wp_add_first _ m d r (qtype q)); [done|by unfold ANSWER_SECTION, RR_SECTION_COUNT|by rewrite Edb|by rewrite Edb| |].
  { unfold quiet. rewrite Eq, (direct_minimal Hd). rewrite (proj2 (Z.eqb_neq _ _) Hns). done. }
  unfold add_zone_ns. wp_step. apply wp_the_query. wp_step. apply (wp_the_zone z); [done|].
  wp_step. eapply wp_on_db; [cbn [an_db set_an_answer]; rewrite Edb; exact Hza|].
  assert (Hend : Q tt (set_an_answer [mkentry ANSWER_SECTION m r] s1)).
  { apply HQ. split_and!; [done|done|done|done|]. cbn [an_query set_an_answer]. by rewrite Ep. }
  destruct (ns_rrset a); [|by wp_step]. rewrite (direct_minimal Hd), andb_false_r. by wp_step.
Qed.

(** The SOA record of the zone. *)
Lemma wp_soa soa d aa rcode (Q : unit -> ans -> Prop) : soa_nx_rrset a = Some soa -> set_of_type db soa TYPE_SOA ->
  domain_at db top = Ok d ->
  (forall s', replied s s' z db aa rcode [mkentry AUTHORITY_SECTION top soa] -> Q tt s') ->
  forall s1, an_db s1 = db -> an_answer s1 = [] -> flagged aa rcode (packet q) (packet (an_query s1)) ->
    query_zone (an_query s1) = Some z -> qclass (an_query s1) = CLASS_IN ->
    edns (an_query s1) = edns q -> wp (answer_soa n) Q s1.
Proof using Hd.
  intros Hs Ht Htop HQ s1 Edb Ea Ep Ez Ec Ee. destruct (direct_loaded Hd) as (Hap & _ & _), (direct_zone Hd) as [_ Hz].
  unfold answer_soa. wp_step. apply wp_the_query. rewrite Ec. cbn. wp_step. apply (wp_the_zone z); [done|].
  wp_step. eapply wp_on_db; [rewrite Edb; exact Hz|]. wp_step. apply (wp_lift _ top); [by rewrite Hap|].
  wp_step. apply (wp_lift _ soa); [by rewrite Hs|].
  wp_step. eapply (wp_add_first _ top d soa TYPE_SOA); [done|by unfold AUTHORITY_SECTION, ANSWER_SECTION, RR_SECTION_COUNT|
    by rewrite Edb|by rewrite Edb|by unfold quiet; rewrite orb_true_r|].
  wp_step. by apply HQ.
Qed.
End direct.
Arguments direct_packet {s z a top ce e}.
Arguments direct_query {s z a top ce e}.
Arguments direct_type {s z a top ce e}.
Arguments direct_minimal {s z a top ce e}.
Arguments direct_zone {s z a top ce e}.
Arguments direct_loaded {s z a top ce e}.
Arguments direct_encloser {s z a top ce e}.
Arguments direct_above {s z a top ce e}.
Arguments direct_cut {s z a top ce e}.

(** Up to the choice of the domain that matches. *)
Ltac start Hd z ce b Hf :=
  cbn [answer_lookup_zone]; eapply wp_lookup_body; [exact Hd|]; intros b Hf; unfold answer_authoritative;
  wp_step; apply (wp_the_zone z); [done|]; wp_step; apply (wp_lift _ ce); [done|];
  wp_step; eapply wp_on_db; [exact (direct_above Hd)|]; cbn [default]; cbv zeta;
  wp_step; (eapply wp_on_db; [exact (proj1 (direct_encloser Hd))|]).
(** No signatures, whatever was found. *)
Ltac unsigned Hd :=
  wp_step; (apply wp_wants_dnssec; [exact (proj1 (proj2 (proj2 (direct_query Hd))))|]);
  wp_step; wp_step.

End cases.
