(* ===== verification/ProcessSamples.v ===== *)
(** Concrete messages and databases for the theorems about answering a query
    (AnsweringProofs.v, AnsweringCases.v, ProcessProofs.v). *)

From S2P Require Import Prelude Buffer Dname DnameProofs Dns Packet Contents Namedb NamedbProofs NamedbTable Edns Tsig TsigProofs Query QueryProofs QueryRecords QueryRRset QuerySamples Acl Respond Axfr AxfrProofs AxfrStream AxfrSamples Answering AnsweringProofs Process ProcessProofs AnsweringCases.

(** The small zone with a record set for negative answers. *)
Definition case_zone : zone := mkzone (Some 2) (Some 1) (Some 1) None false true false.
Definition case_db : namedb :=
  mkdb (domains small_db) (rrsets small_db) {[1 := case_zone]} (nametree small_db) (numlist small_db) (zonetree small_db).
(** A server that leaves out what is not asked for. *)
Definition case_nsd : nsd :=
  mknsd 0 0 [] [] false 4096 4096 (edns_init_data 4096) (edns_init_data 4096) [] true tsig_init true false.
(** A query for the mail exchangers of "c.". *)
Definition case_query : query := set_qclass CLASS_IN (set_qtype TYPE_MX small_query).
Definition case_ans : ans := mkans case_query case_db answer_init.

Lemma answer_lookup_zone_ends_witness :
  answer_lookup_zone small_nsd (fun _ _ _ _ _ _ => No_fuel) (chain_fuel + 5) 0 true 2 (Some 2) (of_labels (mini_nm 2)) case_ans =
  answer_lookup_zone small_nsd (fun _ _ _ _ _ _ => Assert_failed) chain_fuel 0 true 2 (Some 2) (of_labels (mini_nm 2)) case_ans.
Proof.
  exact (answer_lookup_zone_ends small_nsd _ _ (chain_fuel + 5) 0 true 2 (Some 2) (of_labels (mini_nm 2)) case_ans
    ltac:(by unfold MAXRRSPP) (Nat.le_add_r _ _)).
Defined.

Lemma case_at n : n ∈ [1; 2; 3; 4] -> domain_at case_db n = Ok (small_domain n).
Proof. exact (small_at [small_a 1; small_a 2] n). Qed.

Lemma case_direct : direct case_nsd case_ans 1 case_zone 2 2 (small_domain 2).
Proof.
  split; try reflexivity.
  - split; [exact small_packet_ok|]. cbn [an_query case_ans case_query packet set_qtype set_qclass small_query _limit].
    by unfold QHEADERSZ.
  - by split_and!.
  - by split_and!.
  - split; by vm_compute.
  - by split_and!.
  - split; [apply case_at; listed|done].
Qed.

Lemma case_set r type : r ∈ [1; 2; 3] -> type = (if r =? 1 then TYPE_SOA else if r =? 2 then TYPE_MX else TYPE_A) ->
  set_of_type case_db r type.
Proof.
  intros Hr ->. each Hr ltac:(eexists; eexists; split_and!; reflexivity).
Qed.


(** A message with opcode STATUS: it is answered by its header. *)
Definition status_query : query :=
  set_packet (mkbuffer 0 13 65536 ([0; 77; 17; 0; 0; 1; 0; 0; 0; 0; 0; 0; 0] ++ replicate (Z.to_nat 65523) 0) false)
    small_query.

