(* ===== verification/Rdata.v ===== *)
(** Model of [rdata_wireformat_to_rdata_atoms] (src/rdata.c): the fields of the
    record data of a message, with the names in them put in a domain table. *)

From S2P Require Import Prelude Buffer Dname Dns Namedb.

Definition IP4ADDRLEN : Z := 32 / 8.
Definition IP6ADDRLEN : Z := 128 / 8.
Definition EUI48ADDRLEN : Z := 48 / 8.
Definition EUI64ADDRLEN : Z := 64 / 8.
Definition IPSECKEY_NOGATEWAY : Z := 0.
Definition IPSECKEY_IP4 : Z := 1.
Definition IPSECKEY_IP6 : Z := 2.
Definition IPSECKEY_DNAME : Z := 3.
Definition APL_NEGATION_MASK : Z := 0x80.
Definition APL_LENGTH_MASK : Z := Z.lnot APL_NEGATION_MASK mod 2 ^ 32.

Section rdata.
Context `{T : NameTree}.

(** The message that is read and the table its names go to. *)
Record reader := mkreader { rd_packet : buffer; rd_owners : namedb }.
Abbreviation Rd := (ST reader).

Definition of_packet {A} (m : Buf A) : Rd A := fun s =>
  match m (rd_packet s) with
  | Ok (a, b) => Ok (a, mkreader b (rd_owners s))
  | Assert_failed => Assert_failed
  | No_fuel => No_fuel
  end.
Definition of_owners {A} (m : Db A) : Rd A := fun s =>
  match m (rd_owners s) with
  | Ok (a, db) => Ok (a, mkreader (rd_packet s) db)
  | Assert_failed => Assert_failed
  | No_fuel => No_fuel
  end.

Definition set_usage (n : Z) (d : domain) : domain :=
  mkdomain (in_tree d) (domain_dname d) (parent d) (wildcard_child_closest_match d) (domain_rrsets d)
    (number d) n (is_existing d) (is_apex d).

(** What a field is read as: a name of the table or one that is stored in the
    record, or so many bytes. *)
Inductive field := Field_domain | Field_wire (normalize : bool) | Field_bytes (length : Z).

(** The byte that tells how long the field is, [length - 1] bytes on. *)
Definition length_byte (end_ length : Z) (value : Z -> Z) : Buf Z :=
  pos ← buffer_position;
  if pos + length <=? end_ then
    cur ← buffer_current;
    b ← st_get;
    mret (length + value (zget (_data b) (cur + (length - 1))))
  else mret length.

(** The switch on the format of field [i], [temp_rdatas] being the fields
    before it. *)
Definition rdata_field (rrtype end_ : Z) (temp_rdatas : list rdata_atom) : Buf field :=
  wf ← lift (rdata_atom_wireformat_type rrtype (zlength temp_rdatas));
  let rest := pos ← buffer_position; mret (Field_bytes (end_ - pos)) in
  match wf with
  | RDATA_WF_COMPRESSED_DNAME | RDATA_WF_UNCOMPRESSED_DNAME => mret Field_domain
  | RDATA_WF_LITERAL_DNAME => mret (Field_wire false)
  | RDATA_WF_BYTE => mret (Field_bytes 1)
  | RDATA_WF_SHORT => mret (Field_bytes 2)
  | RDATA_WF_LONG => mret (Field_bytes 4)
  | RDATA_WF_TEXTS | RDATA_WF_LONG_TEXT => rest
  | RDATA_WF_TEXT | RDATA_WF_BINARYWITHLENGTH =>
      n ← length_byte end_ 1 (fun c => c); mret (Field_bytes n)
  | RDATA_WF_A => mret (Field_bytes 4)
  | RDATA_WF_AAAA => mret (Field_bytes IP6ADDRLEN)
  | RDATA_WF_ILNP64 => mret (Field_bytes (IP6ADDRLEN / 2))
  | RDATA_WF_EUI48 => mret (Field_bytes EUI48ADDRLEN)
  | RDATA_WF_EUI64 => mret (Field_bytes EUI64ADDRLEN)
  | RDATA_WF_BINARY => rest
  | RDATA_WF_APL =>
      n ← length_byte end_ (2 + 1 + 1) (fun c => Z.land c APL_LENGTH_MASK); mret (Field_bytes n)
  | RDATA_WF_IPSECGATEWAY =>
      atom ← lift (points_to (temp_rdatas !! 1%nat));
      bytes ← lift (rdata_atom_data atom);
      gateway ← lift (points_to (bytes !! 0%nat));
      mret (if gateway =? IPSECKEY_IP4 then Field_bytes IP4ADDRLEN
            else if gateway =? IPSECKEY_IP6 then Field_bytes IP6ADDRLEN
            else if gateway =? IPSECKEY_DNAME then Field_wire true
            else Field_bytes 0)
  end.

(** The name at the position, [None] if it is not well formed or goes on after
    the data. *)
Definition read_domain (end_ : Z) (normalize : bool) : Buf (option dname_type) :=
  dname ← dname_make_from_packet true normalize;
  match dname with
  | None => mret None
  | Some dname =>
      pos ← buffer_position;
      mret (if end_ <? pos then None else Some dname)
  end.

(** One round: an error, the end of the fields, or one more. *)
Inductive rdata_next := Rdata_error | Rdata_end | Rdata_atom (a : rdata_atom).

Definition rdata_step (rrtype end_ : Z) (temp_rdatas : list rdata_atom) : Rd rdata_next :=
  let required := zlength temp_rdatas <? d_minimum (rrtype_descriptor_by_type rrtype) in
  f ← of_packet (rdata_field rrtype end_ temp_rdatas);
  pos ← of_packet buffer_position;
  match f with
  | Field_domain =>
      if negb required && (pos =? end_) then mret Rdata_end else
      dname ← of_packet (read_domain end_ true);
      match dname with
      | None => mret Rdata_error
      | Some dname =>
          p ← of_owners (domain_table_insert dname);
          d ← of_owners (get_domain p);
          of_owners (st_modify (put_domain p (set_usage (u64 (usage d + 1)) d)));;
          mret (Rdata_atom (Atom_domain p))
      end
  | Field_wire normalize =>
      if negb required && (pos =? end_) then mret Rdata_end else
      dname ← of_packet (read_domain end_ normalize);
      match dname with
      | None => mret Rdata_error
      | Some dname => mret (Rdata_atom (Atom_data (take (Z.to_nat (name_size dname)) (dname_name dname))))
      end
  | Field_bytes length =>
      if end_ <? pos + length then mret (if required then Rdata_error else Rdata_end)
      else if negb required && (pos =? end_) then mret Rdata_end
      else
        bytes ← of_packet (buffer_read length);
        mret (Rdata_atom (Atom_data bytes))
  end.

Fixpoint rdata_loop (rrtype end_ : Z) (rounds : nat) (temp_rdatas : list rdata_atom) :
    Rd (option (list rdata_atom)) :=
  match rounds with
  | O => mret (Some temp_rdatas)
  | S rounds =>
      r ← rdata_step rrtype end_ temp_rdatas;
      match r with
      | Rdata_error => mret None
      | Rdata_end => mret (Some temp_rdatas)
      | Rdata_atom a => rdata_loop rrtype end_ rounds (temp_rdatas ++ [a])
      end
  end.

(** The fields, or [None] for -1. *)
Definition rdata_wireformat_to_rdata_atoms (rrtype data_size : Z) : Rd (option (list rdata_atom)) :=
  pos ← of_packet buffer_position;
  let end_ := pos + data_size in
  let descriptor := rrtype_descriptor_by_type rrtype in
  st_assert (d_maximum descriptor <=? MAXRDATALEN);;
  available ← of_packet (buffer_available data_size);
  if negb available then mret None else
  rdatas ← rdata_loop rrtype end_ (Z.to_nat (d_maximum descriptor)) [];
  match rdatas with
  | None => mret None
  | Some rdatas =>
      pos ← of_packet buffer_position;
      mret (if pos <? end_ then None else Some rdatas)
  end.
End rdata.
