(* ===== verification/RdataProofs.v ===== *)
(** Theorems about the parser of record data (Rdata.v): which data it accepts,
    and that the fields it stores have the types of their formats. *)

From S2P Require Import Prelude Buffer Dname DnameProofs DnamePacket Dns Contents Namedb NamedbProofs NamedbTable Rdata.

(** * What record data says *)

(** The value of a field: a name, or bytes. *)
Inductive datum := Name (ls : name) | Bytes (bytes : list Z).

#[export] Instance datum_eq_dec : EqDecision datum.
Proof. solve_decision. Defined.

Definition format (type i : Z) : rdata_wireformat :=
  default RDATA_WF_COMPRESSED_DNAME (d_wireformat (rrtype_descriptor_by_type type) !! Z.to_nat i).

(** The second field of an IPSECKEY record tells what its gateway is. *)
Definition gateway_field (prev : list datum) : field :=
  match prev !! 1%nat with
  | Some (Bytes (g :: _)) =>
      if g =? IPSECKEY_IP4 then Field_bytes IP4ADDRLEN
      else if g =? IPSECKEY_IP6 then Field_bytes IP6ADDRLEN
      else if g =? IPSECKEY_DNAME then Field_wire true
      else Field_bytes 0
  | _ => Field_bytes 0
  end.

Section denotation.
Context (type : Z) (data : list Z) (limit end_ : Z).

(** The length of a field that tells its length in its byte [n]. *)
Definition counted (p n : Z) (value : Z -> Z) : field :=
  Field_bytes (if p + n <=? end_ then n + value (zget data (p + (n - 1))) else n).

Definition field_of (wf : rdata_wireformat) (prev : list datum) (p : Z) : field :=
  match wf with
  | RDATA_WF_COMPRESSED_DNAME | RDATA_WF_UNCOMPRESSED_DNAME => Field_domain
  | RDATA_WF_LITERAL_DNAME => Field_wire false
  | RDATA_WF_BYTE => Field_bytes 1
  | RDATA_WF_SHORT => Field_bytes 2
  | RDATA_WF_LONG | RDATA_WF_A => Field_bytes 4
  | RDATA_WF_AAAA => Field_bytes 16
  | RDATA_WF_ILNP64 | RDATA_WF_EUI64 => Field_bytes 8
  | RDATA_WF_EUI48 => Field_bytes 6
  | RDATA_WF_TEXTS | RDATA_WF_LONG_TEXT | RDATA_WF_BINARY => Field_bytes (end_ - p)
  | RDATA_WF_TEXT | RDATA_WF_BINARYWITHLENGTH => counted p 1 (fun c => c)
  | RDATA_WF_APL => counted p 4 (fun c => c mod 128)
  | RDATA_WF_IPSECGATEWAY => gateway_field prev
  end.

(** The field at [p] has the value [x] and ends at [q]. *)
Inductive field_at (p : Z) : field -> datum -> Z -> Prop :=
  | at_domain n ls q : pkt_name true data limit n p ls q -> name_ok ls -> q <= end_ ->
      field_at p Field_domain (Name (normalize ls)) q
  | at_wire norm n ls q : pkt_name true data limit n p ls q -> name_ok ls -> q <= end_ ->
      field_at p (Field_wire norm) (Bytes (wire (if norm then normalize ls else ls))) q
  | at_bytes n : p + n <= end_ -> field_at p (Field_bytes n) (Bytes (zslice data p n)) (p + n).

(** After the fields [prev], the data from [p] to the end is the fields [xs].
    The fields from the minimum on may be missing. *)
Inductive rdata_at : list datum -> Z -> list datum -> Prop :=
  | rdata_done prev : d_minimum (rrtype_descriptor_by_type type) <= zlength prev -> rdata_at prev end_ []
  | rdata_more prev p x q xs :
      zlength prev < d_maximum (rrtype_descriptor_by_type type) ->
      zlength prev < d_minimum (rrtype_descriptor_by_type type) \/ p <> end_ ->
      field_at p (field_of (format type (zlength prev)) prev p) x q ->
      rdata_at (prev ++ [x]) q xs -> rdata_at prev p (x :: xs).

Lemma field_at_det p f x q x' q' : field_at p f x q -> field_at p f x' q' -> x = x' /\ q = q'.
Proof using.
  intros H H'. destruct H; inversion H'; subst; try done;
    by match goal with H1 : pkt_name _ _ _ _ p ?a q, H2 : pkt_name _ _ _ _ p _ q' |- _ =>
      destruct (pkt_name_det _ _ _ _ _ _ _ H1 _ _ _ H2) as (-> & -> & ->) end.
Qed.

Lemma rdata_at_det prev p xs : rdata_at prev p xs -> forall ys, rdata_at prev p ys -> ys = xs.
Proof using.
  induction 1 as [prev Hn|prev p x q xs Hmax Hn Hx _ IH]; intros ys H'; inversion H' as [|? ? x' q' ys' Hmax' Hn' Hx' Hr']; subst.
  - done.
  - destruct Hn'; [lia|done].
  - destruct Hn; [lia|done].
  - destruct (field_at_det _ _ _ _ _ _ Hx Hx') as [<- <-]. f_equal. by apply IH.
Qed.

(** A field before the minimum is there. *)
Lemma rdata_at_next prev p xs : rdata_at prev p xs -> zlength prev < d_minimum (rrtype_descriptor_by_type type) ->
  exists x q xs', xs = x :: xs' /\ field_at p (field_of (format type (zlength prev)) prev p) x q /\ rdata_at (prev ++ [x]) q xs'.
Proof using. intros H Hl. destruct H as [prev Hn|prev p x q xs]; [lia|by exists x, q, xs]. Qed.
End denotation.

(** * Types *)

(** The form of a field of each format. *)
Definition field_typed (wf : rdata_wireformat) (prev : list datum) (x : datum) : Prop :=
  match wf, x with
  | (RDATA_WF_COMPRESSED_DNAME | RDATA_WF_UNCOMPRESSED_DNAME), Name ls => name_ok ls
  | RDATA_WF_LITERAL_DNAME, Bytes bytes => exists ls, name_ok ls /\ bytes = wire ls
  | RDATA_WF_BYTE, Bytes bytes => zlength bytes = 1
  | RDATA_WF_SHORT, Bytes bytes => zlength bytes = 2
  | (RDATA_WF_LONG | RDATA_WF_A), Bytes bytes => zlength bytes = 4
  | RDATA_WF_AAAA, Bytes bytes => zlength bytes = 16
  | (RDATA_WF_ILNP64 | RDATA_WF_EUI64), Bytes bytes => zlength bytes = 8
  | RDATA_WF_EUI48, Bytes bytes => zlength bytes = 6
  | (RDATA_WF_TEXT | RDATA_WF_BINARYWITHLENGTH), Bytes bytes =>
      1 <= zlength bytes /\ zlength bytes = 1 + zget bytes 0
  | RDATA_WF_APL, Bytes bytes => 4 <= zlength bytes /\ zlength bytes = 4 + zget bytes 3 mod 128
  | (RDATA_WF_TEXTS | RDATA_WF_LONG_TEXT | RDATA_WF_BINARY), Bytes _ => True
  | RDATA_WF_IPSECGATEWAY, Bytes bytes =>
      match gateway_field prev with
      | Field_bytes n => zlength bytes = n
      | _ => exists ls, name_ok ls /\ bytes = wire ls
      end
  | _, _ => False
  end.

Definition rdata_typed (type : Z) (xs : list datum) : Prop :=
  d_minimum (rrtype_descriptor_by_type type) <= zlength xs <= d_maximum (rrtype_descriptor_by_type type) /\
  forall i x, xs !! i = Some x -> field_typed (format type (Z.of_nat i)) (take i xs) x.

Lemma zget_slice (d : list Z) p n i : 0 <= p -> 0 <= i < n -> zget (zslice d p n) i = zget d (p + i).
Proof.
  intros Hp Hi. unfold zget. rewrite zlookup_slice by lia. do 2 f_equal. lia.
Qed.

Lemma pkt_name_after data limit n p ls q : pkt_name true data limit n p ls q -> Forall byte data -> 0 <= p -> p < q.
Proof.
  intros H Hd. induction H as [p H1 H2|m p ls q H1 H2 H3 IH|m p ls q H1 H2 H3 H4 H5 IH]; intros Hp; [lia| |lia].
  assert (p + 1 + zget data p < q) by (apply IH; lia). lia.
Qed.

Lemma field_at_after data limit end_ p f x q : field_at data limit end_ p f x q -> Forall byte data -> 0 <= p ->
  (forall n, f = Field_bytes n -> 0 <= n) -> p <= q <= end_.
Proof.
  intros H Hd Hp Hn. destruct H as [n ls q H _ Hq|norm n ls q H _ Hq|n Hq];
    [pose proof (pkt_name_after _ _ _ _ _ _ H Hd Hp); lia..|]. specialize (Hn n eq_refl). lia.
Qed.

Lemma field_of_nonneg data end_ wf prev p n : Forall byte data -> p <= end_ ->
  field_of data end_ wf prev p = Field_bytes n -> 0 <= n.
Proof.
  intros Hd Hp. pose proof (fun i => zget_byte data i Hd) as Hb. unfold byte in Hb.
  destruct wf; cbn [field_of]; unfold counted, gateway_field; try (by intros [= <-]); try (intros [= <-]; lia).
  - intros [= <-]. specialize (Hb (p + (1 - 1))). case_match; lia.
  - intros [= <-]. specialize (Hb (p + (1 - 1))). case_match; lia.
  - intros [= <-]. pose proof (Z.mod_pos_bound (zget data (p + (4 - 1))) 128). case_match; lia.
  - destruct (prev !! 1%nat) as [[|[]]|]; try (by intros [= <-]). repeat case_match; by intros [= <-].
Qed.

Lemma field_at_typed data limit end_ wf prev p x q : Forall byte data -> 0 <= p <= end_ -> end_ <= zlength data ->
  field_at data limit end_ p (field_of data end_ wf prev p) x q -> field_typed wf prev x.
Proof.
  intros Hd Hp He H. pose proof (fun i => zget_byte data i Hd) as Hb. unfold byte in Hb.
  pose proof (field_of_nonneg data end_ wf prev p) as Hnn.
  assert (Hbytes : forall n, field_of data end_ wf prev p = Field_bytes n ->
    exists bs, x = Bytes bs /\ zlength bs = n /\ p + n <= end_ /\ forall i, 0 <= i < n -> zget bs i = zget data (p + i)).
  { intros n E. specialize (Hnn n Hd (proj2 Hp) E). rewrite E in H. inversion H; subst.
    eexists. split_and!; [done|rewrite zslice_length; lia|done|]. intros i Hi. apply zget_slice; lia. }
  assert (Hwire : forall norm, field_of data end_ wf prev p = Field_wire norm ->
    exists ls, name_ok ls /\ x = Bytes (wire ls)).
  { intros norm E. rewrite E in H. inversion H as [|? n ls ? ? Hok|]; subst.
    eexists. split; [|done]. destruct norm; [by apply name_ok_normalize|done]. }
  destruct wf; cbn [field_of field_typed] in *; unfold counted in *;
    try (by (edestruct Hbytes as (bs & -> & Hl & _); [done|]));
    try (by inversion H; subst; apply name_ok_normalize).
  - edestruct Hwire as (ls & Hok & ->); [done|]. by exists ls.
  - edestruct Hbytes as (bs & -> & Hl & Hle & Hg); [done|]. specialize (Hb (p + (1 - 1))).
    destruct (Z.leb_spec (p + 1) end_); [|lia]. rewrite (Hg 0) by lia.
    replace (p + (1 - 1)) with (p + 0) in * by lia. lia.
  - edestruct Hbytes as (bs & -> & Hl & Hle & Hg); [done|]. specialize (Hb (p + (1 - 1))).
    destruct (Z.leb_spec (p + 1) end_); [|lia]. rewrite (Hg 0) by lia.
    replace (p + (1 - 1)) with (p + 0) in * by lia. lia.
  - edestruct Hbytes as (bs & -> & Hl & Hle & Hg); [done|].
    pose proof (Z.mod_pos_bound (zget data (p + (4 - 1))) 128).
    destruct (Z.leb_spec (p + 4) end_); [|lia]. rewrite (Hg 3) by lia.
    replace (p + (4 - 1)) with (p + 3) in * by lia. lia.
  - destruct (gateway_field prev) eqn:E.
    + exfalso. unfold gateway_field in E. repeat case_match; done.
    + edestruct Hwire as (ls & Hok & ->); [done|]. by exists ls.
    + by edestruct Hbytes as (bs & -> & Hl & _).
Qed.

Lemma rdata_at_typed type data limit end_ prev p xs : Forall byte data -> end_ <= zlength data ->
  rdata_at type data limit end_ prev p xs -> 0 <= p <= end_ ->
  zlength prev <= d_maximum (rrtype_descriptor_by_type type) ->
  (forall i x, prev !! i = Some x -> field_typed (format type (Z.of_nat i)) (take i prev) x) ->
  rdata_typed type (prev ++ xs).
Proof.
  intros Hd He H. induction H as [prev Hmin|prev p x q xs Hmax _ Hx Hrest IH]; intros Hp Hlen Ht.
  - rewrite app_nil_r. split; [lia|done].
  - pose proof (field_at_after _ _ _ _ _ _ _ Hx Hd (proj1 Hp)
      (fun n => field_of_nonneg data end_ _ prev p n Hd (proj2 Hp))) as Hq.
    rewrite cons_middle, app_assoc. apply IH; [lia|zlist; lia|].
    intros i y [Hi|[Hge Hi]]%lookup_app_Some.
    + rewrite take_app_le by (apply lookup_lt_Some in Hi; lia). by apply Ht.
    + apply list_lookup_singleton_Some in Hi as [Hi <-].
      assert (i = length prev) as -> by lia. rewrite take_app_length.
      by apply (field_at_typed data limit end_ _ prev p x q).
Qed.

(** * The table the names go to *)
#[export] Instance rdata_atom_eq_dec : EqDecision rdata_atom.
Proof. solve_decision. Defined.

(** How many of the fields point to a domain. *)
Definition refs (q : Z) (l : list rdata_atom) : Z := zlength (filter (fun a => a = Atom_domain q) l).

Lemma refs_app q l1 l2 : refs q (l1 ++ l2) = refs q l1 + refs q l2.
Proof. unfold refs. by rewrite filter_app, zlength_app. Qed.
Lemma refs_one q a : refs q [a] = if decide (a = Atom_domain q) then 1 else 0.
Proof. unfold refs. rewrite filter_cons. by case_decide. Qed.
Lemma refs_bounds q l : 0 <= refs q l <= zlength l.
Proof. unfold refs, zlength. pose proof (length_filter (fun a => a = Atom_domain q) l). lia. Qed.

Section owners.
Context `{T : NameTree} {L : NameTreeLaws T}.

Abbreviation names db := (contents (nametree db)).

(** The value of a field of the record. *)
Definition datum_of (db : namedb) (a : rdata_atom) (x : datum) : Prop :=
  match a, x with
  | Atom_domain p, Name ls => names db !! ls = Some p
  | Atom_data bytes, Bytes bytes' => bytes = bytes'
  | _, _ => False
  end.

(** [db'] is [db] with the names of the fields: the domains of [db] are where
    they were, what is new holds nothing, and the uses are counted. *)
Record opened (db db' : namedb) (atoms : list rdata_atom) : Prop := {
  opened_ok : table_ok db';
  opened_names ls q : names db !! ls = Some q -> names db' !! ls = Some q;
  opened_old ls q d : names db !! ls = Some q -> domains db !! q = Some d ->
    exists w, domains db' !! q = Some (set_usage (usage d + refs q atoms) (set_wildcard w d));
  opened_new ls q d : names db !! ls = None -> names db' !! ls = Some q -> domains db' !! q = Some d ->
    is_existing d = false /\ is_apex d = false /\ domain_rrsets d = [] /\ usage d = refs q atoms;
  opened_refs q : refs q atoms <> 0 -> exists ls, names db' !! ls = Some q;
  opened_rest : rrsets db' = rrsets db /\ zones db' = zones db /\ zonetree db' = zonetree db;
}.

(** Names that are new are names of the fields [xs], or above them. *)
Definition drawn (db db' : namedb) (xs : list datum) : Prop := forall k q,
  names db' !! k = Some q -> is_Some (names db !! k) \/ exists j, Name j ∈ xs /\ k `suffix_of` j.

Lemma drawn_app db db' xs ys : drawn db db' xs -> drawn db db' (xs ++ ys).
Proof using.
  intros H k q Hk. destruct (H k q Hk) as [|(j & Hj & Hs)]; [by left|right]. exists j. split; [|done]. apply elem_of_app. by left.
Qed.

Lemma opened_refl db : table_ok db -> opened db db [].
Proof using.
  intros Hdb. split; [done|done| |congruence|done|done].
  intros ls q d _ Hd. exists (wildcard_child_closest_match d). rewrite Hd. f_equal. destruct d.
  unfold set_usage, set_wildcard. cbn. by rewrite Z.add_0_r.
Qed.

Lemma opened_data db db' atoms bytes : opened db db' atoms -> opened db db' (atoms ++ [Atom_data bytes]).
Proof using.
  assert (E : forall q, refs q (atoms ++ [Atom_data bytes]) = refs q atoms).
  { intros q. rewrite refs_app, refs_one. case_decide; [done|lia]. }
  intros [H1 H2 H3 H4 H5 H6]. split; [done|done|..|done].
  - intros ls q d. rewrite E. apply H3.
  - intros ls q d. rewrite E. apply H4.
  - intros q. rewrite E. apply H5.
Qed.

Lemma existing_closed_put db p d d' : existing_closed db -> domains db !! p = Some d ->
  is_existing d' = is_existing d -> existing_closed (put_domain p d' db).
Proof using.
  intros Hc Hd Hx k l j q u e f Hs Hq Hu He Hf Hex. cbn in He, Hf.
  apply lookup_insert_Some in He as [[<- <-]|[_ He]], Hf as [[<- <-]|[_ Hf]].
  - done.
  - rewrite Hx in Hex. by apply (Hc k l j p u d f).
  - rewrite Hx. by apply (Hc k l j q p e d).
  - by apply (Hc k l j q u e f).
Qed.

Lemma table_ok_put db p d d' : table_ok db -> domains db !! p = Some d -> same_core d d' ->
  is_existing d' = is_existing d -> table_ok (put_domain p d' db).
Proof using.
  intros [Hdb Hc] Hd Hs Hx. split; [by eapply db_ok_put|by eapply existing_closed_put].
Qed.

(** One more name, found or inserted. *)
Lemma opened_domain db db1 atoms ls db2 p d : opened db db1 atoms -> filled db1 db2 ls ->
  names db2 !! ls = Some p -> domains db2 !! p = Some d ->
  opened db (put_domain p (set_usage (usage d + 1) d) db2) (atoms ++ [Atom_domain p]).
Proof using.
  intros [[Hdb1 Hex1] Hn Hold Hnew Hrefs Hrest] Hf Hp Hd. pose proof Hf as [Hdb2 Hg _ Hempty].
  assert (Hinj : forall k k' q, names db2 !! k = Some q -> names db2 !! k' = Some q -> k = k')
    by (apply (db_injective _ Hdb2)).
  assert (Hr : forall q, refs q (atoms ++ [Atom_domain p]) = refs q atoms + if decide (q = p) then 1 else 0).
  { intros q. rewrite refs_app, refs_one. f_equal. repeat case_decide; congruence. }
  split.
  - apply (table_ok_put db2 p d); [split; [done|exact (filled_closed db1 db2 ls Hdb1 Hex1 Hf)]|done|by repeat split|done].
  - intros k q Hk. by apply (grown_names _ _ Hg), Hn.
  - intros k q e Hk He. destruct (Hold _ _ _ Hk He) as [w Hw].
    destruct (grown_domains _ _ Hg _ _ Hw) as (e' & He' & Hkept). rewrite Hr. cbn.
    exists (wildcard_child_closest_match e'). rewrite lookup_insert. case_decide as E.
    + subst q. rewrite decide_True by done. assert (e' = d) as -> by congruence.
      rewrite Hkept. unfold set_usage, set_wildcard. cbn. do 2 f_equal. lia.
    + rewrite decide_False by done. rewrite He', Hkept. unfold set_usage, set_wildcard. cbn. do 2 f_equal. lia.
  - intros k q e Hk Hq He. cbn in Hq, He.
    assert (Hbase : forall e0, domains db2 !! q = Some e0 ->
      is_existing e0 = false /\ is_apex e0 = false /\ domain_rrsets e0 = [] /\ usage e0 = refs q atoms).
    { intros e0 He0. destruct (names db1 !! k) as [q1|] eqn:E1.
      - assert (q1 = q) as -> by (pose proof (grown_names _ _ Hg _ _ E1); congruence).
        destruct (db_domain _ Hdb1 _ _ E1) as (e1 & He1 & _). destruct (grown_domains _ _ Hg _ _ He1) as (e2 & He2 & Hk2).
        assert (e2 = e0) as -> by congruence. rewrite Hk2. exact (Hnew k q e1 Hk E1 He1).
      - destruct (Hempty _ _ _ E1 Hq He0) as (? & ? & ? & Hu). split_and!; [done..|]. rewrite Hu.
        destruct (Z.eq_dec (refs q atoms) 0) as [|Hne]; [lia|]. exfalso.
        destruct (Hrefs q Hne) as [k' Hk']. pose proof (Hinj k k' q Hq (grown_names _ _ Hg _ _ Hk')). congruence. }
    rewrite Hr. apply lookup_insert_Some in He as [[<- <-]|[Hne He]].
    + rewrite decide_True by done. destruct (Hbase d Hd) as (? & ? & ? & Hu). cbn. split_and!; try done. lia.
    + rewrite decide_False by done. destruct (Hbase e He) as (? & ? & ? & Hu). split_and!; try done. lia.
  - intros q. rewrite Hr. case_decide as E.
    + subst q. intros _. by exists ls.
    + rewrite Z.add_0_r. intros Hne. destruct (Hrefs q Hne) as [k Hk]. exists k. by apply (grown_names _ _ Hg).
  - destruct (grown_rest _ _ Hg) as (R1 & R2 & R3). cbn. by rewrite R1, R2, R3.
Qed.

(** * The parser *)
Lemma wp_of_packet {A} (m : Buf A) (Q : A -> reader -> Prop) s :
  wp m (fun a b => Q a (mkreader b (rd_owners s))) (rd_packet s) -> wp (of_packet m) Q s.
Proof using. unfold wp, of_packet. by destruct (m (rd_packet s)) as [[a q]| |]. Qed.

Lemma wp_of_owners {A} (m : Db A) (Q : A -> reader -> Prop) s :
  wp m (fun a db => Q a (mkreader (rd_packet s) db)) (rd_owners s) -> wp (of_owners m) Q s.
Proof using. unfold wp, of_owners. by destruct (m (rd_owners s)) as [[a q]| |]. Qed.

Lemma wp_buffer_position b (Q : Z -> buffer -> Prop) : Q (_position b) b -> wp buffer_position Q b.
Proof using. intros HQ. unfold buffer_position. by do 3 wp_step. Qed.

Lemma wp_read_domain b end_ norm : buffer_ok b -> _limit b <= MAX_PACKET_SIZE ->
  wp (read_domain end_ norm) (fun r b' => exists q, b' = set_pos q b /\ 0 <= q <= _limit b /\
    match r with
    | Some d => exists n ls, pkt_name true (_data b) (_limit b) n (_position b) ls q /\ name_ok ls /\
        q <= end_ /\ d = of_labels (if norm then normalize ls else ls)
    | None => forall n ls q', pkt_name true (_data b) (_limit b) n (_position b) ls q' -> name_ok ls -> end_ < q'
    end) b.
Proof using.
  intros Hb Hmax. unfold read_domain, dname_make_from_packet. do 2 wp_step.
  eapply wp_mono; [by apply dname_make_wire_from_packet_spec|].
  intros [buf|] b'; cbn beta iota.
  - intros (n & ls & q & Hn & Hok & -> & -> & Hq).
    apply (wp_lift _ (Some (of_labels (if norm then normalize ls else ls)))).
    { rewrite <-(app_nil_r (wire ls)). by apply dname_make_wire. }
    wp_step. apply wp_buffer_position. wp_step. exists q. split; [done|]. split; [done|].
    cbn [_position set_pos]. destruct (Z.ltb_spec end_ q).
    + intros n' ls' q' Hn' _. by destruct (pkt_name_det _ _ _ _ _ _ _ Hn _ _ _ Hn') as (_ & _ & <-).
    + by exists n, ls.
  - intros [(q & -> & Hq) Hno]. do 2 wp_step. exists q. split; [done|]. split; [done|].
    intros n ls q' Hn Hok. by destruct (Hno _ _ _ Hn).
Qed.

(** The part of the table of types the parser relies on. *)
Definition gateways_ok (d : rrtype_descriptor) : bool :=
  forallb (fun i => negb (bool_decide (d_wireformat d !! i = Some RDATA_WF_IPSECGATEWAY)) ||
                    ((2 <=? i)%nat && bool_decide (d_wireformat d !! 1%nat = Some RDATA_WF_BYTE)))
    (seq 0 (length (d_wireformat d))).

Lemma table_gateways i : 0 <= i < 260 -> gateways_ok (descriptor_at i) = true.
Proof using. apply (seqZ_forall (fun i => gateways_ok (descriptor_at i))). by vm_compute. Qed.

Lemma descriptor_facts type : 0 <= type -> let d := rrtype_descriptor_by_type type in
  0 <= d_minimum d <= d_maximum d /\ d_maximum d <= MAXRDATALEN /\ zlength (d_wireformat d) = d_maximum d /\
  forall i, 0 <= i < d_maximum d -> format type i = RDATA_WF_IPSECGATEWAY ->
    2 <= i /\ format type 1 = RDATA_WF_BYTE.
Proof using.
  intros Ht d. destruct (descriptor_by_type_cases type Ht) as (k & Hk & Hd & _).
  pose proof (table_sizes k Hk) as Hs. pose proof (table_gateways k Hk) as Hg.
  unfold d, format. rewrite Hd. clear Hd d. set (d := descriptor_at k) in *. clearbody d.
  unfold sizes_ok in Hs. bool_simpl. split_and!; try lia. intros i Hi Hf.
  unfold gateways_ok in Hg. rewrite forallb_forall in Hg. unfold zlength in *.
  destruct (d_wireformat d !! Z.to_nat i) as [wf|] eqn:E; cbn in Hf; [subst wf|done].
  specialize (Hg (Z.to_nat i)). rewrite in_seq in Hg. specialize (Hg ltac:(lia)).
  apply orb_prop in Hg as [Hg|Hg]; [by rewrite bool_decide_true in Hg|].
  apply andb_prop in Hg as [Hge Hb]. apply Nat.leb_le in Hge. apply bool_decide_eq_true in Hb.
  split; [lia|]. change (Z.to_nat 1) with 1%nat. by rewrite Hb.
Qed.

(** The table counts fewer uses than [n]. *)
Definition usages_below (n : Z) (db : namedb) : Prop := forall ls q d,
  names db !! ls = Some q -> domains db !! q = Some d -> 0 <= usage d < n.
Definition usages_ok (db : namedb) : Prop := usages_below (2 ^ 63) db.
Lemma usages_mono n m db : n <= m -> usages_below n db -> usages_below m db.
Proof using. intros Hle Hu ls q d Hq Hd. pose proof (Hu ls q d Hq Hd). lia. Qed.

Section parser.
Context (type : Z) (b : buffer) (end_ : Z) (db0 : namedb).
Context (Hb : buffer_ok b) (Hmax : _limit b <= MAX_PACKET_SIZE) (Ht : 0 <= type) (He : end_ <= _limit b).
Context (Hdb0 : table_ok db0) (Huse : usages_ok db0).

Abbreviation D := (_data b).
Abbreviation here prev p := (field_of D end_ (format type (zlength prev)) prev p).
Abbreviation minimum := (d_minimum (rrtype_descriptor_by_type type)).
Abbreviation maximum := (d_maximum (rrtype_descriptor_by_type type)).

(** Between two fields. *)
Record reading (temp : list rdata_atom) (prev : list datum) (p : Z) (s : reader) : Prop := {
  reading_packet : rd_packet s = set_pos p b;
  reading_place : 0 <= p <= end_;
  reading_owners : opened db0 (rd_owners s) temp;
  reading_value : Forall2 (datum_of (rd_owners s)) temp prev;
  reading_room : zlength prev <= maximum;
  reading_typed i x : prev !! i = Some x -> field_typed (format type (Z.of_nat i)) (take i prev) x;
  reading_drawn : drawn db0 (rd_owners s) prev;
}.

(** After an error. *)
Definition stopped (s : reader) : Prop := exists q atoms,
  rd_packet s = set_pos q b /\ 0 <= q <= _limit b /\ opened db0 (rd_owners s) atoms.

Lemma reading_length temp prev p s : reading temp prev p s -> zlength temp = zlength prev.
Proof using. intros H. unfold zlength. by rewrite (Forall2_length _ _ _ (reading_value _ _ _ _ H)). Qed.

Lemma reading_stopped temp prev p s : reading temp prev p s -> stopped s.
Proof using He. intros []. exists p, temp. split_and!; [done|lia|lia|done]. Qed.

Lemma wp_length_byte p n value (Q : Z -> buffer -> Prop) : 0 <= p <= end_ -> 1 <= n ->
  Q (if p + n <=? end_ then n + value (zget D (p + (n - 1))) else n) (set_pos p b) ->
  wp (length_byte end_ n value) Q (set_pos p b).
Proof using He.
  intros Hp Hn HQ. unfold length_byte. wp_step. apply wp_buffer_position. cbn [_position set_pos].
  destruct (Z.leb_spec (p + n) end_); [|by wp_step].
  unfold buffer_current. wp_step. wp_step. wp_step. apply wp_buffer_at; [buf_simpl; lia|]. by do 3 wp_step.
Qed.

Lemma wp_rdata_field temp prev p s (Q : field -> buffer -> Prop) : reading temp prev p s ->
  zlength prev < maximum -> Q (here prev p) (set_pos p b) ->
  wp (rdata_field type end_ temp) Q (set_pos p b).
Proof using Hb Ht He.
  intros Hr Hroom HQ. pose proof Hr as [Hpk Hp Ho Hv _ Hty _]. pose proof (reading_length _ _ _ _ Hr) as Hlen.
  destruct (descriptor_facts type Ht) as (_ & _ & _ & Hgate). pose proof (zlength_nonneg prev).
  unfold rdata_field. rewrite Hlen. wp_step. apply (wp_lift _ (format type (zlength prev))).
  { unfold rdata_atom_wireformat_type. by rewrite (proj2 (Z.ltb_lt _ _) Hroom). }
  specialize (Hgate (zlength prev) ltac:(lia)).
  destruct (format type (zlength prev)) eqn:Ef; cbn [field_of] in HQ;
    try (by wp_step); try (by do 2 wp_step); try (by do 3 wp_step);
    try (wp_step; apply wp_length_byte; [lia|lia|]; wp_step; exact HQ).
  - wp_step. apply wp_length_byte; [lia|lia|]. wp_step. unfold counted in HQ.
    change (2 + 1 + 1) with 4.
    assert (E : zget D (p + (4 - 1)) mod 128 = Z.land (zget D (p + (4 - 1))) APL_LENGTH_MASK); [|by rewrite <-E].
    pose proof (zget_byte D (p + (4 - 1)) (ok_bytes _ Hb)) as Hc.
    apply Z.eqb_eq. revert Hc. generalize (zget D (p + (4 - 1))). apply byte_forall. by vm_compute.
  - destruct (Hgate eq_refl) as [Hge Hbyte].
    destruct (lookup_lt_is_Some_2 prev 1) as [x Hx]; [unfold zlength in *; lia|].
    pose proof (Hty 1%nat x Hx) as Hxt. change (Z.of_nat 1) with 1 in Hxt. rewrite Hbyte in Hxt.
    destruct (Forall2_lookup_r _ _ _ _ _ Hv Hx) as (a & Ha & Hd).
    destruct x as [|bytes]; [done|]. destruct a as [|bytes']; [done|]. cbn in Hd, Hxt. subst bytes'.
    wp_step. apply (wp_lift _ (Atom_data bytes)); [by rewrite Ha|].
    wp_step. apply (wp_lift _ bytes); [done|].
    destruct bytes as [|g [|? ?]]; [done| |unfold zlength in Hxt; cbn in Hxt; lia].
    wp_step. apply (wp_lift _ g); [done|]. wp_step. unfold gateway_field in HQ. by rewrite Hx in HQ.
Qed.

Lemma reading_next temp prev p s a x q s' : reading temp prev p s -> zlength prev < maximum ->
  field_at D (_limit b) end_ p (here prev p) x q ->
  rd_packet s' = set_pos q b -> opened db0 (rd_owners s') (temp ++ [a]) ->
  Forall2 (datum_of (rd_owners s')) temp prev -> datum_of (rd_owners s') a x -> drawn db0 (rd_owners s') (prev ++ [x]) ->
  reading (temp ++ [a]) (prev ++ [x]) q s'.
Proof using Hb He.
  intros [_ Hp _ _ _ Hty _] Hroom Hx Hpk Ho Hv Ha Hdr. pose proof Hb as [].
  pose proof (field_at_after _ _ _ _ _ _ _ Hx ok_bytes (proj1 Hp)
    (fun n => field_of_nonneg D end_ _ prev p n ok_bytes (proj2 Hp))) as Hq.
  split; [done|lia|done| |zlist; lia| |done].
  - apply Forall2_app; [done|]. by constructor.
  - intros i y [Hi|[Hge Hi]]%lookup_app_Some.
    + rewrite take_app_le by (apply lookup_lt_Some in Hi; lia). by apply Hty.
    + apply list_lookup_singleton_Some in Hi as [Hi <-].
      assert (i = length prev) as -> by lia. rewrite take_app_length.
      apply (field_at_typed D (_limit b) end_ _ prev p x q); [done|lia|lia|done].
Qed.

Lemma datum_grown db db' temp prev : (forall ls q, names db !! ls = Some q -> names db' !! ls = Some q) ->
  Forall2 (datum_of db) temp prev -> Forall2 (datum_of db') temp prev.
Proof using.
  intros Hn H. eapply Forall2_impl; [done|]. intros [|] [|]; cbn; eauto.
Qed.

Lemma opened_usage db' atoms ls q d : opened db0 db' atoms -> names db' !! ls = Some q ->
  domains db' !! q = Some d -> 0 <= usage d < 2 ^ 63 + zlength atoms + 1.
Proof using Hdb0 Huse.
  intros Ho Hq Hd. pose proof (refs_bounds q atoms). destruct (names db0 !! ls) as [q0|] eqn:E.
  - assert (q0 = q) as -> by (pose proof (opened_names _ _ _ Ho _ _ E); congruence).
    destruct (db_domain _ (proj1 Hdb0) _ _ E) as (d0 & Hd0 & _).
    destruct (opened_old _ _ _ Ho _ _ _ E Hd0) as [w Hw]. rewrite Hd in Hw. injection Hw as ->. cbn.
    specialize (Huse _ _ _ E Hd0). lia.
  - destruct (opened_new _ _ _ Ho _ _ _ E Hq Hd) as (_ & _ & _ & ->). lia.
Qed.

(** The outcome of a round. *)
Definition step_post (temp : list rdata_atom) (prev : list datum) (p : Z) (s : reader) (r : rdata_next) (s' : reader) : Prop :=
  match r with
  | Rdata_error => stopped s' /\ (zlength prev < minimum \/ p <> end_) /\
      forall x q, ~ field_at D (_limit b) end_ p (here prev p) x q
  | Rdata_end => s' = s /\ minimum <= zlength prev /\
      (p <> end_ -> forall x q, ~ field_at D (_limit b) end_ p (here prev p) x q)
  | Rdata_atom a => (zlength prev < minimum \/ p <> end_) /\
      exists x q, field_at D (_limit b) end_ p (here prev p) x q /\ reading (temp ++ [a]) (prev ++ [x]) q s'
  end.

Lemma wp_domain_field temp prev p s : reading temp prev p s -> zlength prev < maximum ->
  here prev p = Field_domain -> zlength prev < minimum \/ p <> end_ ->
  wp (dname ← of_packet (read_domain end_ true);
      match dname with
      | None => mret Rdata_error
      | Some dname =>
          p ← of_owners (domain_table_insert dname);
          d ← of_owners (get_domain p);
          of_owners (st_modify (put_domain p (set_usage (u64 (usage d + 1)) d)));;
          mret (Rdata_atom (Atom_domain p))
      end) (step_post temp prev p s) s.
Proof using L Hb Hmax Ht He Hdb0 Huse.
  intros Hr Hroom Hf Hmore. pose proof Hr as [Hpk Hp Ho Hv _ _ Hdr]. pose proof Hb as [].
  assert (Hb' : buffer_ok (set_pos p b)) by (apply buffer_ok_set_pos; [done|lia]).
  wp_step. apply wp_of_packet. rewrite Hpk. eapply wp_mono; [by apply wp_read_domain|].
  cbn [_data _limit _position set_pos]. intros [d|] b' (q & -> & Hq & Hd); rewrite set_pos_set_pos.
  2:{ wp_step. split_and!; [|done|].
      - exists q, temp. split_and!; [done|lia|lia|exact Ho].
      - intros x q'. rewrite Hf. intros Hx. inversion Hx; subst.
        match goal with H1 : pkt_name _ _ _ _ _ _ q', H2 : name_ok _ |- _ => specialize (Hd _ _ _ H1 H2) end. lia. }
  destruct Hd as (n & ls & Hn & Hok & Hend & ->).
  pose proof (opened_ok _ _ _ Ho) as [Hdb _].
  wp_step. apply wp_of_owners. cbn [rd_owners]. eapply wp_mono; [by apply wp_domain_table_insert, name_ok_normalize|].
  intros p' db2 [Hfill Hp']. cbn [rd_packet].
  pose proof (filled_grown _ _ _ Hfill) as Hg.
  destruct (db_domain _ (filled_ok _ _ _ Hfill) _ _ Hp') as (d & Hd & _).
  wp_step. apply wp_of_owners. eapply wp_get_domain; [done|]. cbn [rd_packet rd_owners].
  wp_step. apply wp_of_owners. wp_step. wp_step. cbn [rd_packet rd_owners].
  split; [done|]. exists (Name (normalize ls)), q.
  assert (Hx : field_at D (_limit b) end_ p (here prev p) (Name (normalize ls)) q) by (rewrite Hf; by econstructor).
  split; [done|].
  pose proof (opened_domain db0 (rd_owners s) temp (normalize ls) db2 p' d Ho Hfill Hp' Hd) as Ho2.
  assert (Hu : u64 (usage d + 1) = usage d + 1).
  { pose proof (opened_usage _ _ _ _ _ Ho2 Hp' (lookup_insert_eq _ _ _)) as Hu. cbn [usage set_usage] in Hu.
    pose proof (refs_bounds p' temp). pose proof (reading_length _ _ _ _ Hr) as Hlen.
    destruct (descriptor_facts type Ht) as (_ & H64 & _). unfold MAXRDATALEN in H64.
    rewrite zlength_app, zlength_cons in Hu. change (zlength []) with 0 in Hu. apply u64_small. lia. }
  rewrite Hu.
  eapply (reading_next temp prev p s); [done|done|done|done|exact Ho2| | |].
  - cbn [rd_owners]. eapply datum_grown; [|exact Hv]. cbn. apply (grown_names _ _ Hg).
  - cbn [rd_owners]. exact Hp'.
  - intros k q' Hk. cbn in Hk. destruct (proj1 (filled_names _ _ _ Hfill k) ltac:(by eexists)) as [[q1 H1]|Hs].
    + by apply (drawn_app _ _ _ _ Hdr k q1).
    + right. exists (normalize ls). split; [|done]. apply elem_of_app. right. by left.
Qed.

Lemma wp_wire_field norm temp prev p s : reading temp prev p s -> zlength prev < maximum ->
  here prev p = Field_wire norm -> zlength prev < minimum \/ p <> end_ ->
  wp (dname ← of_packet (read_domain end_ norm);
      match dname with
      | None => mret Rdata_error
      | Some dname => mret (Rdata_atom (Atom_data (take (Z.to_nat (name_size dname)) (dname_name dname))))
      end) (step_post temp prev p s) s.
Proof using Hb Hmax He.
  intros Hr Hroom Hf Hmore. pose proof Hr as [Hpk Hp Ho Hv _ _ Hdr].
  assert (Hb' : buffer_ok (set_pos p b)) by (apply buffer_ok_set_pos; [done|lia]).
  wp_step. apply wp_of_packet. rewrite Hpk. eapply wp_mono; [by apply wp_read_domain|].
  cbn [_data _limit _position set_pos]. intros [d|] b' (q & -> & Hq & Hd); rewrite set_pos_set_pos; wp_step.
  - destruct Hd as (n & ls & Hn & Hok & Hend & ->). split; [done|].
    set (ls' := if norm then normalize ls else ls) in *.
    assert (Hx : field_at D (_limit b) end_ p (here prev p) (Bytes (wire ls')) q) by (rewrite Hf; by econstructor).
    exists (Bytes (wire ls')), q. split; [done|].
    eapply (reading_next temp prev p s); [done|done|done|done|by apply opened_data|done| |by apply drawn_app].
    cbn [datum_of name_size dname_name of_labels]. unfold zlength. by rewrite Nat2Z.id, take_ge.
  - split_and!; [|done|].
    + exists q, temp. split_and!; [done|lia|lia|exact Ho].
    + intros x q'. rewrite Hf. intros Hx. inversion Hx; subst.
      match goal with H1 : pkt_name _ _ _ _ _ _ q', H2 : name_ok _ |- _ => specialize (Hd _ _ _ H1 H2) end. lia.
Qed.

Lemma wp_rdata_step temp prev p s : reading temp prev p s -> zlength prev < maximum ->
  wp (rdata_step type end_ temp) (step_post temp prev p s) s.
Proof using L Hb Hmax Ht He Hdb0 Huse.
  intros Hr Hroom. pose proof Hr as [Hpk Hp Ho Hv _ _ Hdr]. pose proof Hb as [].
  assert (Hb' : buffer_ok (set_pos p b)) by (apply buffer_ok_set_pos; [done|lia]).
  assert (Hs : mkreader (set_pos p b) (rd_owners s) = s) by (destruct s; cbn in *; by rewrite Hpk).
  pose proof (reading_length _ _ _ _ Hr) as Hlen.
  pose proof (field_of_nonneg D end_ (format type (zlength prev)) prev p) as Hnn.
  unfold rdata_step. wp_step. apply wp_of_packet. rewrite Hpk. eapply wp_rdata_field; [done|done|].
  rewrite Hs. wp_step. apply wp_of_packet. rewrite Hpk. apply wp_buffer_position. cbn [_position set_pos].
  rewrite Hs, Hlen.
  assert (Hstop : forall f, here prev p = f -> negb (zlength prev <? minimum) && (p =? end_) = true ->
    step_post temp prev p s Rdata_end s).
  { intros f _ Hc. apply andb_prop in Hc as [Hc1 Hc2]. bool_simpl. split_and!; [done|lia|done]. }
  assert (Hgo : negb (zlength prev <? minimum) && (p =? end_) = false -> zlength prev < minimum \/ p <> end_).
  { intros Hc. apply andb_false_iff in Hc as [Hc|Hc]; bool_simpl; [left; lia|right; done]. }
  destruct (here prev p) as [|norm|length] eqn:Hf.
  - wp_step; [wp_step; by eapply Hstop|]. apply wp_domain_field; auto.
  - wp_step; [wp_step; by eapply Hstop|]. apply wp_wire_field; auto.
  - wp_step; bool_simpl; [|wp_step; [wp_step; by eapply Hstop|]].
    + assert (Hno : forall x q, ~ field_at D (_limit b) end_ p (here prev p) x q).
      { intros x q. rewrite Hf. intros Hx. inversion Hx. lia. }
      wp_step. destruct (Z.ltb_spec (zlength prev) minimum).
      * split_and!; [by eapply reading_stopped|by left|done].
      * split_and!; [done|lia|done].
    + assert (Hlen0 : 0 <= length) by (by apply Hnn; [|lia|]).
      wp_step. apply wp_of_packet. rewrite Hpk. apply wp_buffer_read; [done|buf_simpl; lia|]. intros _. buf_simpl. wp_step.
      split; [by apply Hgo|].
      assert (Hx : field_at D (_limit b) end_ p (here prev p) (Bytes (zslice D p length)) (p + length))
        by (rewrite Hf; constructor; lia).
      exists (Bytes (zslice D p length)), (p + length). split; [done|].
      eapply (reading_next temp prev p s); [done|done|done|done|by apply opened_data|done|done|by apply drawn_app].
Qed.

(** The outcome of the rounds that are left. *)
Definition loop_post (prev : list datum) (p : Z) (r : option (list rdata_atom)) (s' : reader) : Prop :=
  match r with
  | Some atoms => exists xs q, reading atoms (prev ++ xs) q s' /\
      (q = end_ -> rdata_at type D (_limit b) end_ prev p xs) /\
      (q <> end_ -> forall xs, ~ rdata_at type D (_limit b) end_ prev p xs)
  | None => stopped s' /\ forall xs, ~ rdata_at type D (_limit b) end_ prev p xs
  end.

Lemma wp_rdata_loop rounds : forall temp prev p s, reading temp prev p s ->
  Z.of_nat rounds = maximum - zlength prev -> wp (rdata_loop type end_ rounds temp) (loop_post prev p) s.
Proof using L Hb Hmax Ht He Hdb0 Huse.
  destruct (descriptor_facts type Ht) as (Hmm & _ & _ & _).
  induction rounds as [|rounds IH]; intros temp prev p s Hr Hn; cbn [rdata_loop].
  - wp_step. exists [], p. rewrite app_nil_r. split_and!; [done|intros ->; constructor; lia|].
    intros Hp xs H. inversion H; subst; [done|lia].
  - wp_step. eapply wp_mono; [apply wp_rdata_step; [done|lia]|]. intros [| |a] s' Hpost.
    + destruct Hpost as (Hstop & Hmore & Hno). wp_step. split; [done|].
      intros xs H. inversion H; subst; [lia|by eapply Hno].
    + destruct Hpost as (-> & Hmin & Hno). wp_step. exists [], p. rewrite app_nil_r.
      split_and!; [done|intros ->; by constructor|].
      intros Hp xs H. inversion H; subst; [done|by eapply Hno].
    + destruct Hpost as (Hmore & x & q & Hx & Hr'). eapply wp_mono.
      { apply (IH _ _ _ _ Hr'). zlist. lia. }
      assert (Hinv : forall xs, rdata_at type D (_limit b) end_ prev p xs ->
        exists xs', xs = x :: xs' /\ rdata_at type D (_limit b) end_ (prev ++ [x]) q xs').
      { intros xs H. inversion H as [|? ? x' q' xs' _ _ Hx' Hrest]; subst; [lia|].
        destruct (field_at_det _ _ _ _ _ _ _ _ _ Hx Hx') as [<- <-]. by exists xs'. }
      intros [atoms|] s2.
      * intros (xs & q2 & Hr2 & Hyes & Hno). rewrite <-app_assoc in Hr2. exists (x :: xs), q2.
        split_and!; [done| |].
        -- intros Hq. econstructor; [lia|done|done|by apply Hyes].
        -- intros Hq xs2 (xs' & _ & H)%Hinv. by eapply Hno.
      * intros [Hstop Hno]. split; [done|]. intros xs (xs' & _ & H)%Hinv. by eapply Hno.
Qed.
End parser.

(** The outcome of the parser on [data_size] bytes of the packet of [s]. *)
Definition rdata_post (type data_size : Z) (s : reader) (r : option (list rdata_atom)) (s' : reader) : Prop :=
  let b := rd_packet s in
  let end_ := _position b + data_size in
  match r with
  | Some atoms => exists xs,
      end_ <= _limit b /\ rdata_at type (_data b) (_limit b) end_ [] (_position b) xs /\
      rdata_typed type xs /\ Forall2 (datum_of (rd_owners s')) atoms xs /\
      rd_packet s' = set_pos end_ b /\ opened (rd_owners s) (rd_owners s') atoms /\
      drawn (rd_owners s) (rd_owners s') xs
  | None =>
      (exists q atoms, rd_packet s' = set_pos q b /\ 0 <= q <= _limit b /\
         opened (rd_owners s) (rd_owners s') atoms) /\
      (end_ <= _limit b -> forall xs, ~ rdata_at type (_data b) (_limit b) end_ [] (_position b) xs)
  end.

Lemma wp_rdata_atoms type data_size s : 0 <= type -> 0 <= data_size -> buffer_ok (rd_packet s) ->
  _limit (rd_packet s) <= MAX_PACKET_SIZE -> table_ok (rd_owners s) -> usages_ok (rd_owners s) ->
  wp (rdata_wireformat_to_rdata_atoms type data_size) (rdata_post type data_size s) s.
Proof using L.
  intros Ht Hsize Hb Hmax Hdb Huse. unfold rdata_post.
  destruct s as [b db]. cbn [rd_packet rd_owners] in *. pose proof Hb as [].
  destruct (descriptor_facts type Ht) as (Hmm & H64 & _ & _).
  assert (Hsame : set_pos (_position b) b = b) by (by destruct b).
  assert (Hhere : stopped b db (mkreader b db)).
  { exists (_position b), []. cbn [rd_packet rd_owners]. rewrite Hsame.
    split_and!; [done|lia|lia|by apply opened_refl]. }
  unfold rdata_wireformat_to_rdata_atoms. wp_step. apply wp_of_packet, wp_buffer_position. cbn [rd_packet rd_owners].
  wp_step. apply wp_assert; [lia|].
  wp_step. apply wp_of_packet, wp_buffer_available; [done|]. cbn [rd_packet rd_owners].
  destruct (Z.leb_spec data_size (_limit b - _position b)); cbn [negb]; wp_step.
  2:{ split; [exact Hhere|]. lia. }
  assert (Hr : reading type b (_position b + data_size) db [] [] (_position b) (mkreader b db)).
  { split; cbn [rd_packet rd_owners]; try done; [lia|by apply opened_refl|change (zlength []) with 0; lia|].
    intros k q' Hk. left. by exists q'. }
  assert (Hend : _position b + data_size <= _limit b) by lia.
  eapply wp_mono; [apply (wp_rdata_loop type b (_position b + data_size) db Hb Hmax Ht Hend Hdb Huse _ _ _ _ _ Hr);
    change (zlength []) with 0; lia|].
  intros [atoms|] s'; [|intros [Hstop Hno]; wp_step; by split].
  intros (xs & q & Hr' & Hyes & Hno). pose proof Hr' as [Hpk Hq Ho Hv _ _ Hdr]. cbn [app] in *.
  wp_step. apply wp_of_packet. rewrite Hpk. apply wp_buffer_position. cbn [_position set_pos].
  assert (Hs' : mkreader (set_pos q b) (rd_owners s') = s') by (destruct s'; cbn in *; by rewrite Hpk).
  rewrite Hs'. destruct (Z.ltb_spec q (_position b + data_size)); wp_step.
  - split; [by eapply reading_stopped|]. intros _. apply Hno. lia.
  - assert (q = _position b + data_size) as -> by lia. specialize (Hyes eq_refl). exists xs. split_and!; try done.
    all: change xs with ([] ++ xs); apply (rdata_at_typed type (_data b) (_limit b) (_position b + data_size) [] (_position b));
      try done; try lia; change (zlength []) with 0; lia.
Qed.

(** C12 (type): the parser of record data.  For every packet, position, length
    and type it ends, without a wild access and with the position inside the
    packet.  It accepts exactly the data that is made of the fields of the type,
    the last ones possibly missing, with names in compressed form and nothing
    after them, and gives their values.  Each field has the form of its format:
    a name, an address or number of the right size, or a text with its own
    length.  The names, and only they with the names above them, have been
    added to the table, with one more use for each field that points to them;
    the domains of before are where they were.  When the data is refused the
    names read so far are in the table all the same. *)
Theorem rdata_wireformat_to_rdata_atoms_correct type data_size s :
  0 <= type -> 0 <= data_size -> buffer_ok (rd_packet s) -> _limit (rd_packet s) <= MAX_PACKET_SIZE ->
  table_ok (rd_owners s) -> usages_ok (rd_owners s) ->
  wp (rdata_wireformat_to_rdata_atoms type data_size) (fun r s' =>
    let b := rd_packet s in
    let end_ := _position b + data_size in
    match r with
    | Some atoms => exists xs,
        end_ <= _limit b /\ rdata_at type (_data b) (_limit b) end_ [] (_position b) xs /\
        rdata_typed type xs /\ Forall2 (datum_of (rd_owners s')) atoms xs /\
        rd_packet s' = set_pos end_ b /\ opened (rd_owners s) (rd_owners s') atoms /\
        drawn (rd_owners s) (rd_owners s') xs
    | None =>
        (exists q atoms, rd_packet s' = set_pos q b /\ 0 <= q <= _limit b /\
           opened (rd_owners s) (rd_owners s') atoms) /\
        (end_ <= _limit b -> forall xs, ~ rdata_at type (_data b) (_limit b) end_ [] (_position b) xs)
    end) s.
Proof using L. apply wp_rdata_atoms. Qed.
End owners.

(** The data of an MX record, preference 10 and "b.p.": the second label is a
    pointer to the name at 0. *)
Definition mx_reader : reader :=
  mkreader (mkbuffer 3 9 9 [1; 112; 0; 0; 10; 1; 66; 192; 0] true) (sample_db sample_names).

Lemma rdata_wireformat_witness :
  wp (rdata_wireformat_to_rdata_atoms TYPE_MX 6) (rdata_post TYPE_MX 6 mx_reader) mx_reader.
Proof.
  apply (rdata_wireformat_to_rdata_atoms_correct TYPE_MX 6 mx_reader); [done|done|by apply (bool_decide_unpack _)|done| |].
  - apply build_ok. by apply (bool_decide_unpack _).
  - assert (H : map_Forall (fun _ d => 0 <= usage d < 2 ^ 63) (domains (sample_db sample_names))).
    { apply map_Forall_to_list, (bool_decide_unpack _). by vm_compute. }
    intros ls q d _ Hd. exact (H q d Hd).
Defined.

(** "b.p." is in the table; data of five bytes ends inside the name. *)
Example rdata_mx :
  match rdata_wireformat_to_rdata_atoms TYPE_MX 6 mx_reader with Ok (r, _) => r | _ => None end =
    Some [Atom_data [0; 10]; Atom_domain 4] /\
  match rdata_wireformat_to_rdata_atoms TYPE_MX 5 mx_reader with Ok (r, _) => r | _ => None end = None.
Proof. split; vm_compute; reflexivity. Qed.
