(* ===== verification/NamedbDelete.v ===== *)
(** Deletion of domains (Namedb.v): the table stays right, only domains
    without record sets and without uses go, and their empty ancestors with
    them.  The code takes the previous existing name for the domain before the
    wildcard, which is right when no name has a label that sorts before "*". *)

From S2P Require Import Prelude Buffer Dname DnameProofs DnamePacket Dns Namedb NamedbProofs NamedbTable.

Section delete.
Context `{T : NameTree} {L : NameTreeLaws T}.

Abbreviation names db := (contents (nametree db)).

(** No label but "*" sorts before the wildcard. *)
Definition plain_table (db : namedb) : Prop := forall c k p,
  names db !! (c :: k) = Some p -> before_wildcard c -> c = [42].

(** * One domain *)
Section one.
Context (db : namedb) (l : list Z) (k : name) (p q : Z) (d : domain).
Context (Hdb : db_ok db) (Hplain : plain_table db).
Context (Hp : names db !! (l :: k) = Some p) (Hd : domains db !! p = Some d) (Hq : names db !! k = Some q).
Context (Hleaf : forall c, names db !! (c :: l :: k) = None).

Lemma leaf_name : name_ok (l :: k) /\ domain_dname d = of_labels (l :: k) /\ parent d = Some q.
Proof using Hdb Hp Hd Hq.
  clear Hleaf Hplain. destruct (db_domain db Hdb _ _ Hp) as (d' & Hd' & [Hok Hdn _ (u & Hu & Hup) _]).
  assert (d' = d) as -> by congruence. split_and!; [done|done|congruence].
Qed.

Lemma leaf_parent_ne : p <> q.
Proof using Hdb Hp Hq.
  intros E. pose proof Hp as Hp'. rewrite E in Hp'. pose proof (db_injective db Hdb _ _ _ Hp' Hq) as Ek.
  apply (f_equal length) in Ek. simpl in Ek. lia.
Qed.

(** What the pointer of the parent to [p] says about the label. *)
Lemma wildcard_is_leaf ls r e : names db !! ls = Some r -> domains db !! r = Some e ->
  wildcard_child_closest_match e = p -> ls = l :: k \/ (ls = k /\ l = [42]).
Proof using Hdb Hplain Hp.
  clear Hleaf Hq. intros Hr He Hw. destruct (db_domain db Hdb _ _ Hr) as (e' & He' & [_ _ _ _ (lw & Hlw & Hshape & _)]).
  assert (e' = e) as -> by congruence. rewrite Hw in Hlw.
  pose proof (db_injective db Hdb _ _ _ Hlw Hp) as ->. destruct Hshape as [->|(c & [= -> ->] & Hc)]; [by left|].
  right. split; [done|]. by eapply Hplain.
Qed.

(** The name before "*" is its parent. *)
Lemma previous_of_wildcard : l = [42] -> domain_previous db d = Some q.
Proof using Hdb Hplain Hp Hd Hq L.
  clear Hleaf. destruct leaf_name as (Hok & Hdn & _). intros ->. unfold domain_previous. rewrite Hdn.
  pose proof (contents_previous (nametree db) _ Hok) as Hprev.
  assert (Hklt : name_cmp k ([42] :: k) < 0).
  { pose proof (suffix_le k ([42] :: k) (ex_intro _ [[42]] eq_refl)).
    destruct (Z.eq_dec (name_cmp k ([42] :: k)) 0) as [E|]; [|lia].
    apply (cmp_eq (cmp:=name_cmp)) in E. apply (f_equal length) in E. simpl in E. lia. }
  destruct (tree_previous (nametree db) (of_labels ([42] :: k))) as [r|]; cbn in Hprev.
  2:{ pose proof (Hprev _ _ Hq). lia. }
  destruct Hprev as (m & Hm & Hlt & Hmax). specialize (Hmax _ _ Hq Hklt).
  destruct (suffix_between k m ([42] :: k)) as [j ->]; [by exists [[42]]|lia|lia|].
  destruct j as [|c j _] using rev_ind; [cbn [app] in Hm; congruence|]. exfalso.
  rewrite <-app_assoc in *. cbn [app] in *.
  destruct (names_suffix db Hdb _ _ (c :: k) Hm) as [u Hu]; [by exists j|].
  assert (Hle : name_cmp (c :: k) (j ++ c :: k) <= 0) by (apply suffix_le; by exists j).
  assert (Hc : name_cmp (c :: k) ([42] :: k) < 0).
  { destruct (Z.eq_dec (name_cmp (c :: k) (j ++ c :: k)) 0) as [E|E].
    - apply (cmp_eq (cmp:=name_cmp)) in E. by rewrite E.
    - apply (cmp_trans (cmp:=name_cmp) _ (j ++ c :: k)); lia. }
  rewrite name_cmp_cons in Hc. assert (c = [42]) as ->.
  { apply (Hplain c k u Hu). unfold before_wildcard. lia. }
  assert (label_cmp [42] [42] = 0) by (by apply (cmp_eq (cmp:=label_cmp))). lia.
Qed.

(** The numbers of two domains exchanged. *)
Definition exchanged (last x : Z) : Z := if x =? p then last else if x =? last then p else x.

Lemma exchanged_inj last : Inj (=) (=) (exchanged last).
Proof using. intros x y. unfold exchanged. repeat case_match; bool_simpl; lia. Qed.

(** The domains that stay. *)
Definition kept_domain (last x : Z) (e : domain) : domain :=
  set_number (if x =? last then number d else number e)
    (set_wildcard (if (x =? q) && (wildcard_child_closest_match e =? p) then q
                   else wildcard_child_closest_match e) e).

(** The database without [p]. *)
Record without (last : Z) (db' : namedb) : Prop := {
  without_names : names db' = delete (l :: k) (names db);
  without_gone : domains db' !! p = None;
  without_kept x : x <> p -> domains db' !! x = kept_domain last x <$> domains db !! x;
  without_numlist : numlist db' = exchanged last <$> removelast (numlist db);
  without_rest : rrsets db' = rrsets db /\ zones db' = zones db /\ zonetree db' = zonetree db;
}.

Lemma removelast_fmap {A B} (f : A -> B) xs : removelast (f <$> xs) = f <$> removelast xs.
Proof using. induction xs as [|x [|y xs] IH]; [done..|]. cbn in *. by rewrite IH. Qed.

Lemma wp_previous_existing db1 (Q : option Z -> Prop) : domain_previous db1 d = Some q ->
  is_Some (domains db1 !! q) -> parent d = Some q -> Q (Some q) ->
  exists r, domain_previous_existing_child db1 d = Ok r /\ Q r.
Proof using.
  intros Hprev [e He] Hpar HQ. exists (Some q). split; [|done].
  unfold domain_previous_existing_child. rewrite Hprev. cbn [iter]. unfold domain_at. rewrite He. cbn.
  destruct (is_existing e); [done|]. by rewrite Hpar, bool_decide_true.
Qed.

Lemma set_number_id e : set_number (number e) e = e.
Proof using. by destruct e. Qed.

Lemma wp_make_last (Q : unit -> namedb -> Prop) :
  (forall last db1, List.last (numlist db) 0 = last -> last ∈ numlist db ->
     numlist db1 = exchanged last <$> numlist db -> nametree db1 = nametree db ->
     rrsets db1 = rrsets db /\ zones db1 = zones db /\ zonetree db1 = zonetree db ->
     (forall x, x <> p -> domains db1 !! x =
        (fun e => set_number (if x =? last then number d else number e) e) <$> domains db !! x) ->
     Q tt db1) ->
  wp (numlist_make_last p) Q db.
Proof using Hdb Hd.
  intros HQ. destruct (last_domain db Hdb) as (last & dl & Hlast & Hdl).
  assert (Hl : List.last (numlist db) 0 = last /\ last ∈ numlist db).
  { apply last_Some in Hlast as [l' ->]. rewrite last_last. split; [done|]. apply elem_of_app. right. by left. }
  destruct Hl as [Hl Hin]. unfold numlist_make_last. do 3 wp_step. apply (wp_lift _ last); [by rewrite Hlast|].
  destruct (Z.eqb_spec p last) as [Hpl|Hpl]; wp_step.
  - rewrite <-Hpl in *. apply (HQ p); [done|done| |done|done|].
    + transitivity (id <$> numlist db); [by rewrite list_fmap_id|]. apply list_fmap_ext. intros _ x _. unfold exchanged.
      cbn. repeat case_match; bool_simpl; congruence.
    + intros x Hx. rewrite (proj2 (Z.eqb_neq x p)) by done.
      destruct (domains db !! x); cbn; [|done]. by rewrite set_number_id.
  - eapply wp_get_domain; [done|]. wp_step. eapply wp_get_domain; [done|]. do 5 wp_step. apply (HQ last); try done.
    intros x Hx. cbn. rewrite lookup_insert. case_decide as E.
    + subst x. by rewrite Z.eqb_refl, Hdl.
    + rewrite lookup_insert_ne by done. rewrite (proj2 (Z.eqb_neq x last)) by done.
      destruct (domains db !! x); cbn; [|done]. by rewrite set_number_id.
Qed.

Lemma wp_do_deldomain (Q : unit -> namedb -> Prop) :
  (forall last db', List.last (numlist db) 0 = last -> last ∈ numlist db -> without last db' -> Q tt db') ->
  wp (do_deldomain p) Q db.
Proof using Hdb Hplain Hp Hd Hq Hleaf L.
  intros HQ. destruct leaf_name as (Hok & Hdn & Hpar). pose proof leaf_parent_ne as Hne.
  destruct (db_domain db Hdb _ _ Hq) as (dq & Hdq & _).
  unfold do_deldomain. wp_step. eapply wp_get_domain; [done|]. wp_step. apply (wp_lift _ q); [by rewrite Hpar|].
  wp_step. apply wp_make_last. intros last db1 Hlast Hin Hnum Htree Hrest Hdom.
  unfold numlist_pop_last. do 3 wp_step. wp_step.
  pose proof (Hdom q ltac:(done)) as Hq1. rewrite Hdq in Hq1. cbn in Hq1.
  wp_step. eapply wp_get_domain; [exact Hq1|].
  assert (Hend : forall w, w = (if wildcard_child_closest_match dq =? p then q else wildcard_child_closest_match dq) ->
    without last (set_domains (delete p (<[q := set_wildcard w (set_number (if q =? last then number d else number dq) dq)]> (domains db1)))
      (set_nametree (tree_delete (nametree db) (of_labels (l :: k)))
        (set_numlist (removelast (exchanged last <$> numlist db)) db1)))).
  { intros w ->. split; cbn.
    - by apply contents_delete.
    - apply lookup_delete_eq.
    - intros x Hx. rewrite lookup_delete_ne by done. unfold kept_domain. rewrite lookup_insert. case_decide as E.
      + subst x. rewrite Hdq. cbn. by rewrite Z.eqb_refl.
      + rewrite Hdom by done. rewrite (proj2 (Z.eqb_neq x q)) by done. cbn.
        destruct (domains db !! x) as [e|]; cbn; [|done]. by destruct e.
    - by rewrite removelast_fmap.
    - exact Hrest. }
  wp_step. cbn [wildcard_child_closest_match set_number]. destruct (Z.eqb_spec (wildcard_child_closest_match dq) p) as [Hw|Hw].
  - assert (Hl : l = [42]).
    { destruct (wildcard_is_leaf _ _ _ Hq Hdq Hw) as [E|[_ E]]; [|done].
      apply (f_equal length) in E. simpl in E. lia. }
    wp_step. apply (wp_lift _ (Some q)).
    { destruct (wp_previous_existing (set_numlist (removelast (numlist db1)) db1) (eq (Some q))) as (r & -> & <-); try done.
      rewrite <-(previous_of_wildcard Hl). unfold domain_previous. cbn. by rewrite Htree. }
    wp_step. apply (wp_lift _ q); [done|]. do 4 wp_step. apply (HQ last); [done..|].
    specialize (Hend q eq_refl). rewrite Hdn. cbn in *. rewrite Hnum, Htree. exact Hend.
  - do 4 wp_step. apply (HQ last); [done..|]. specialize (Hend _ eq_refl). rewrite Hdn. cbn in *. rewrite Hnum, Htree.
    rewrite insert_id in Hend; [exact Hend|]. rewrite Hq1. f_equal.
Qed.

Section without.
Context (last : Z) (db' : namedb) (Hw : without last db').
Context (Hlast : List.last (numlist db) 0 = last) (Hin : last ∈ numlist db).

Lemma without_lookup ls r : names db' !! ls = Some r <-> ls <> l :: k /\ names db !! ls = Some r.
Proof using Hw. 
  rewrite (without_names _ _ Hw), lookup_delete_Some. split; intros [H1 H2]; (split; [by intros E; apply H1|exact H2]).
Qed.

Lemma without_ne ls r : names db' !! ls = Some r -> r <> p.
Proof using Hw Hdb Hp.
  intros [Hne Hr]%without_lookup ->. destruct Hne. by apply (db_injective db Hdb _ _ p).
Qed.

Lemma without_domain ls r e : names db' !! ls = Some r -> domains db !! r = Some e ->
  domains db' !! r = Some (kept_domain last r e).
Proof using Hw Hdb Hp. intros Hr He. by rewrite (without_kept _ _ Hw), He by (by eapply without_ne). Qed.

(** The pointer to the domain before the wildcard is right in what is left. *)
Lemma without_wildcard ls r e : names db' !! ls = Some r -> domains db !! r = Some e ->
  wildcard_right db' ls (wildcard_child_closest_match (kept_domain last r e)).
Proof using Hw Hdb Hplain Hp Hd Hq Hleaf.
  intros Hr He. pose proof Hr as [Hne Hr0]%without_lookup.
  destruct (db_domain db Hdb _ _ Hr0) as (e' & He' & [_ _ _ _ (lw & Hlw & Hshape & Hmax)]).
  assert (e' = e) as -> by congruence. unfold kept_domain. cbn.
  destruct (Z.eqb_spec (wildcard_child_closest_match e) p) as [Ew|Ew].
  - destruct (wildcard_is_leaf _ _ _ Hr0 He Ew) as [->|[-> El]]; [done|].
    assert (r = q) as -> by congruence. rewrite Z.eqb_refl. cbn. exists k.
    split; [done|]. split; [by left|]. intros c p' d' [Hc Hp']%without_lookup _ _ Hb.
    destruct Hc. rewrite El. f_equal. by eapply Hplain.
  - rewrite andb_false_r. exists lw. split.
    + apply without_lookup. split; [|done]. intros ->. congruence.
    + split; [done|]. intros c p' d' Hc Hd' Hx. pose proof Hc as [_ Hc0]%without_lookup.
      destruct (db_domain db Hdb _ _ Hc0) as (d0 & Hd0 & _). rewrite (without_domain _ _ _ Hc Hd0) in Hd'.
      injection Hd' as <-. by eapply Hmax.
Qed.

Lemma without_domains_ok ls r : names db' !! ls = Some r ->
  exists e, domains db' !! r = Some e /\ domain_ok db' ls r e.
Proof using Hw Hdb Hplain Hp Hd Hq Hleaf.
  intros Hr. pose proof Hr as [Hne Hr0]%without_lookup.
  destruct (db_domain db Hdb _ _ Hr0) as (e & He & [Hok Hdn Htree Hpar _]).
  exists (kept_domain last r e). split; [by eapply without_domain|]. split; try done.
  - destruct ls as [|c up]; [done|]. destruct Hpar as (u & Hu & Hup). exists u. split; [done|].
    apply without_lookup. split; [|done]. intros ->. by rewrite Hleaf in Hr0.
  - by apply without_wildcard.
Qed.

Lemma numlist_split : numlist db = removelast (numlist db) ++ [last].
Proof using Hlast Hin.
  rewrite <-Hlast. apply app_removelast_last. intros E. rewrite E in Hin. by apply elem_of_nil in Hin.
Qed.

Lemma without_ok : db_ok db'.
Proof using Hw Hdb Hplain Hp Hd Hq Hleaf Hlast Hin.
  pose proof Hdb as [Hroot _ Hinj Hnl Hnd Hnum]. pose proof numlist_split as Hsplit.
  assert (Hnd2 : NoDup (removelast (numlist db)) /\ last ∉ removelast (numlist db)).
  { rewrite Hsplit in Hnd. apply NoDup_app in Hnd as (H1 & H2 & _). split; [done|].
    intros Hl. by apply (H2 last Hl), list_elem_of_singleton. }
  destruct Hnd2 as [Hnd2 Hlast2]. pose proof (without_numlist _ _ Hw) as Hnl'.
  remember (removelast (numlist db)) as front eqn:Ef. clear Ef. split.
  - destruct Hroot as [r Hr]. exists r. by apply without_lookup.
  - exact without_domains_ok.
  - intros ls ls' r [_ H1]%without_lookup [_ H2]%without_lookup. by eapply Hinj.
  - intros r. rewrite Hnl'.
    assert (Hx : (exists ls, names db' !! ls = Some r) <-> r ∈ numlist db /\ r <> p).
    { rewrite Hnl. split.
      - intros [ls Hls]. pose proof Hls as [_ Hls0]%without_lookup. split; [by exists ls|by eapply without_ne].
      - intros [[ls Hls] Hrp]. exists ls. apply without_lookup. split; [|done]. intros ->. congruence. }
    rewrite Hx, Hsplit, elem_of_app, list_elem_of_singleton, list_elem_of_fmap. unfold exchanged. split.
    + intros (x & -> & Hxr). case_match; bool_simpl; [subst x; split; [by right|]; intros ->; done|].
      case_match; bool_simpl; [congruence|]. split; [by left|done].
    + intros [[Hr| ->] Hrp].
      * exists r. split; [|done]. rewrite (proj2 (Z.eqb_neq r p)) by done. case_match; bool_simpl; [congruence|done].
      * exists p. split; [by rewrite Z.eqb_refl|]. assert (Hpn : p ∈ numlist db) by (apply Hnl; by exists (l :: k)).
        rewrite Hsplit in Hpn. apply elem_of_app in Hpn as [|Hpn%list_elem_of_singleton]; [done|congruence].
  - rewrite Hnl'. apply NoDup_fmap_2; [apply exchanged_inj|done].
  - intros i r e Hi He. rewrite Hnl', list_lookup_fmap_Some in Hi.
    destruct Hi as (x & -> & Hi).
    assert (Hix : numlist db !! i = Some x) by (rewrite Hsplit; by apply lookup_app_l_Some).
    unfold exchanged in *. destruct (Z.eqb_spec x p) as [->|Hxp].
    + destruct (Z.eq_dec last p) as [Elp|Hlp]; [rewrite Elp, (without_gone _ _ Hw) in He; done|].
      rewrite (without_kept _ _ Hw) in He by done. apply fmap_Some in He as (e0 & He0 & ->).
      unfold kept_domain. cbn. rewrite Z.eqb_refl. by apply (Hnum i p).
    + destruct (Z.eqb_spec x last) as [->|Hxl].
      { destruct Hlast2. by eapply list_elem_of_lookup_2. }
      rewrite (without_kept _ _ Hw) in He by done. apply fmap_Some in He as (e0 & He0 & ->).
      unfold kept_domain. cbn. rewrite (proj2 (Z.eqb_neq x last)) by done. by apply (Hnum i x).
Qed.
End without.
End one.

(** * Deletion with the empty ancestors *)

(** [db'] is [db] without some domains that held nothing. *)
Record pruned (db db' : namedb) : Prop := {
  pruned_ok : table_ok db';
  pruned_plain : plain_table db';
  pruned_names ls q : names db' !! ls = Some q -> names db !! ls = Some q;
  pruned_gone ls q d : names db !! ls = Some q -> domains db !! q = Some d -> names db' !! ls = None ->
    domain_rrsets d = [] /\ usage d = 0;
  pruned_kept ls q d : names db' !! ls = Some q -> domains db !! q = Some d ->
    exists n w, domains db' !! q = Some (set_number n (set_wildcard w d));
  pruned_rest : rrsets db' = rrsets db /\ zones db' = zones db /\ zonetree db' = zonetree db;
}.

Lemma pruned_refl db : table_ok db -> plain_table db -> pruned db db.
Proof using.
  intros Hdb Hpl. split; try done; [congruence|]. intros ls q d _ Hd.
  exists (number d), (wildcard_child_closest_match d). rewrite Hd. by destruct d.
Qed.

Lemma pruned_trans db db1 db2 : pruned db db1 -> pruned db1 db2 -> pruned db db2.
Proof using.
  intros [[O1 _] _ N1 G1 K1 (R1 & Z1 & T1)] [O2 P2 N2 G2 K2 (R2 & Z2 & T2)].
  split; [done|done|auto| | |by rewrite R2, Z2, T2].
  - intros ls q d Hq Hd Hno. destruct (names db1 !! ls) as [q1|] eqn:E.
    + assert (q1 = q) as -> by (apply N1 in E; congruence). destruct (K1 _ _ _ E Hd) as (n & w & Hd1).
      apply (G2 _ _ _ E Hd1 Hno).
    + by eapply G1.
  - intros ls q d Hq Hd. destruct (K1 _ _ _ (N2 _ _ Hq) Hd) as (n & w & Hd1).
    destruct (K2 _ _ _ Hq Hd1) as (n' & w' & Hd2). exists n', w'. rewrite Hd2. by destruct d.
Qed.

Lemma domain_can_be_deleted_spec db ls p d : db_ok db -> names db !! ls = Some p -> domains db !! p = Some d ->
  exists c, domain_can_be_deleted db d = Ok c /\
    (c = true <-> domain_rrsets d = [] /\ usage d = 0 /\ forall l, names db !! (l :: ls) = None).
Proof using L.
  intros Hdb Hp Hd. destruct (db_domain db Hdb _ _ Hp) as (d' & Hd' & [Hok Hdn _ _ _]).
  assert (d' = d) as -> by congruence. unfold domain_can_be_deleted.
  destruct (domain_rrsets d) as [|r rs]; [|exists false; by split; [|split; [|intros [? _]]]].
  destruct (Z.eqb_spec (usage d) 0) as [Hu|Hu]; cbn [negb]; [|exists false; by split; [|split; [|intros (_ & ? & _)]]].
  unfold domain_next. rewrite Hdn. pose proof (contents_next (nametree db) ls Hok) as Hnext.
  assert (Hgt : forall l q, names db !! (l :: ls) = Some q -> 0 < name_cmp (l :: ls) ls).
  { intros l q _. pose proof (suffix_le ls (l :: ls) (ex_intro _ [l] eq_refl)) as Hle.
    apply name_cmp_flip. destruct (Z.eq_dec (name_cmp ls (l :: ls)) 0) as [E|]; [|lia].
    apply (cmp_eq (cmp:=name_cmp)) in E. apply (f_equal length) in E. simpl in E. lia. }
  destruct (tree_next (nametree db) (of_labels ls)) as [n|]; cbn in Hnext.
  - destruct Hnext as (m & Hm & Hlt & Hmin). destruct (db_domain db Hdb _ _ Hm) as (e & He & [Hmok Hen _ _ _]).
    unfold domain_at. rewrite He. cbn [points_to mbind res_bind]. rewrite Hen, dname_is_subdomain_spec by done.
    cbn [mbind res_bind mret res_ret]. eexists. split; [done|]. rewrite negb_true_iff, bool_decide_eq_false. split.
    + intros Hno. split_and!; [done|done|]. intros l. apply eq_None_not_Some. intros [q Hq]. apply Hno.
      apply (suffix_between _ _ (l :: ls)); [by exists [l]| |apply (Hmin _ _ Hq), (Hgt _ _ Hq)].
      apply Z.lt_le_incl, name_cmp_flip. lia.
    + intros (_ & _ & Hleaf) [j ->]. destruct j as [|l j _] using rev_ind.
      { cbn [app] in Hlt. rewrite name_cmp_refl in Hlt. lia. }
      rewrite <-app_assoc in Hm. cbn [app] in Hm.
      destruct (names_suffix db Hdb _ _ (l :: ls) Hm) as [q Hq]; [by exists j|]. by rewrite Hleaf in Hq.
  - exists true. split; [done|]. split; [|done]. intros _. split_and!; [done|done|].
    intros l. apply eq_None_not_Some. intros [q Hq]. pose proof (Hnext _ _ Hq). specialize (Hgt _ _ Hq). lia.
Qed.

Lemma without_pruned db l k p q d last db' : table_ok db -> plain_table db ->
  names db !! (l :: k) = Some p -> domains db !! p = Some d -> names db !! k = Some q ->
  (forall c, names db !! (c :: l :: k) = None) -> domain_rrsets d = [] -> usage d = 0 ->
  List.last (numlist db) 0 = last -> last ∈ numlist db -> without db l k p q d last db' -> pruned db db'.
Proof using.
  intros [Hdb Hex] Hpl Hp Hd Hq Hleaf Hrr Hu Hlast Hin Hw.
  pose proof (without_lookup _ _ _ _ _ _ _ _ Hw) as Hlook.
  pose proof (without_ok db l k p q d Hdb Hpl Hp Hd Hq Hleaf last db' Hw Hlast Hin) as Hok.
  assert (Hdom : forall ls r e, names db' !! ls = Some r -> domains db !! r = Some e ->
    domains db' !! r = Some (kept_domain p q d last r e)) by (by eapply without_domain).
  split.
  - split; [done|]. intros i c j r u e f Hi Hr Hu' He Hf Hx.
    pose proof (proj2 (proj1 (Hlook _ _) Hr)) as Hr0. pose proof (proj2 (proj1 (Hlook _ _) Hu')) as Hu0.
    destruct (db_domain db Hdb _ _ Hr0) as (e0 & He0 & _). destruct (db_domain db Hdb _ _ Hu0) as (f0 & Hf0 & _).
    rewrite (Hdom _ _ _ Hr He0) in He. rewrite (Hdom _ _ _ Hu' Hf0) in Hf. injection He as <-. injection Hf as <-.
    exact (Hex i c j r u e0 f0 Hi Hr0 Hu0 He0 Hf0 Hx).
  - intros c i r Hr%Hlook Hb. destruct Hr as [_ Hr]. by eapply Hpl.
  - intros ls r Hr%Hlook. apply Hr.
  - intros ls r e Hr He Hno. destruct (decide (ls = l :: k)) as [->|Hne]; [|by rewrite (proj2 (Hlook ls r)) in Hno].
    by simplify_eq.
  - intros ls r e Hr He. rewrite (Hdom _ _ _ Hr He). by do 2 eexists.
  - exact (without_rest _ _ _ _ _ _ _ _ Hw).
Qed.

(** The root is in use. *)
Definition root_used (db : namedb) : Prop := forall p d,
  names db !! [] = Some p -> domains db !! p = Some d -> usage d <> 0.

Lemma pruned_root db db' : db_ok db -> root_used db -> pruned db db' -> root_used db'.
Proof using.
  intros Hdb Hroot Hpr p d' Hp Hd'. pose proof (pruned_names _ _ Hpr _ _ Hp) as Hp0.
  destruct (db_domain db Hdb _ _ Hp0) as (d & Hd & _). destruct (pruned_kept _ _ Hpr _ _ _ Hp Hd) as (n & w & E).
  assert (d' = set_number n (set_wildcard w d)) as -> by congruence. by apply (Hroot p d).
Qed.

Lemma wp_domain_table_deldomain db ls p (Q : unit -> namedb -> Prop) : table_ok db -> plain_table db ->
  root_used db -> names db !! ls = Some p ->
  (forall db', pruned db db' -> (forall k q, names db !! k = Some q -> names db' !! k = Some q \/ k `suffix_of` ls) -> Q tt db') ->
  wp (domain_table_deldomain p) Q db.
Proof using L.
  intros Hok Hpl Hroot Hp HQ. unfold domain_table_deldomain.
  assert (Hf : (length ls < parent_fuel)%nat).
  { destruct (db_domain db (proj1 Hok) _ _ Hp) as (d & _ & [Hn _ _ _ _]). by apply name_ok_fuel. }
  revert Hf. generalize parent_fuel. intros fuel Hf. revert db p Q fuel Hok Hpl Hroot Hp HQ Hf.
  induction ls as [|l ls IH]; intros db p Q [|fuel] Hok Hpl Hroot Hp HQ Hf; try (simpl in Hf; lia);
    pose proof Hok as [Hdb _]; destruct (db_domain db Hdb _ _ Hp) as (d & Hd & Hdok); cbn [st_iter];
    destruct (domain_can_be_deleted_spec db _ p d Hdb Hp Hd) as (c & Hc & Hcase);
    wp_step; wp_step; (eapply wp_get_domain; [done|]); do 2 wp_step; wp_step; (apply (wp_lift _ c); [done|]);
    (wp_step; subst c; [|do 2 wp_step; apply HQ; [by apply pruned_refl|by left]]).
  - destruct (proj1 Hcase eq_refl) as (_ & Hu & _). by destruct (Hroot p d).
  - destruct (proj1 Hcase eq_refl) as (Hrr & Hu & Hleaf).
    destruct (domain_parent _ _ _ _ Hdok) as (q & Hpar & Hq).
    wp_step. eapply (wp_do_deldomain db l ls p q d); try done. intros last db1 Hlast Hin Hw.
    assert (Hpr : pruned db db1) by (by eapply without_pruned).
    wp_step. apply (wp_lift _ q); [by rewrite Hpar|]. wp_step.
    apply (IH db1 q); [apply Hpr|apply Hpr|by eapply pruned_root| | |simpl in Hf; lia].
    + apply (without_lookup _ _ _ _ _ _ _ _ Hw). split; [|done]. intros E. apply (f_equal length) in E. simpl in E. lia.
    + intros db' Hpr' Hkeep. apply HQ; [by eapply pruned_trans|]. intros k r Hk. destruct (decide (k = l :: ls)) as [->|Hne]; [by right|].
      destruct (Hkeep k r) as [H|H]; [by apply (without_lookup _ _ _ _ _ _ _ _ Hw)|by left|right]. by apply suffix_cons_r.
Qed.
End delete.
