(* ===== verification/Diff.v ===== *)
(** Model of the changes a zone transfer makes to the database
    (src/difffile.c, and [apex_rrset_checks] of src/dbaccess.c): records are
    found, deleted and added, zones are emptied, and the messages of a
    transfer are applied.  The server modelled runs without a database file
    ([db->udb] is a null pointer). *)

From S2P Require Import Prelude Buffer Dname Dns Packet Namedb Rdata.

Section diff.
Context `{T : NameTree}.

(** * Existing domains *)
Definition set_not_existing (d : domain) : domain :=
  mkdomain (in_tree d) (domain_dname d) (parent d) (wildcard_child_closest_match d) (domain_rrsets d)
    (number d) (usage d) false (is_apex d).

(** Every round moves to a later name of the tree. *)
Definition has_data_below (db : namedb) (top : Z) : res bool :=
  t ← domain_at db top;
  iter (S (size (domains db))) (fun p : option Z =>
    match p with
    | None => mret (inr false)
    | Some p =>
        d ← domain_at db p;
        below ← dname_is_subdomain (domain_dname d) (domain_dname t);
        if negb below then mret (inr false)
        else if is_existing d then mret (inr true)
        else mret (inl (domain_next db d))
    end) (domain_next db t).

(** The body of the loop from a domain without record sets to the root. *)
Definition nonexist_step (ce : option Z) (p : option Z) : Db (option Z + option Z) :=
  match p with
  | None => mret (inr None)
  | Some p =>
      d ← get_domain p;
      match domain_rrsets d with
      | _ :: _ => mret (inr None)
      | [] =>
          db ← st_get;
          stop ← (if bool_decide (Some p = ce) then mret true else lift (has_data_below db p));
          if (stop : bool) then mret (inr (Some p)) else
          st_modify (put_domain p (set_not_existing d));;
          match parent d with
          | Some q =>
              par ← get_domain q;
              if wildcard_child_closest_match par =? p then
                db ← st_get;
                w ← lift (domain_previous_existing_child db (set_not_existing d));
                w ← lift (points_to w);
                st_modify (put_domain q (set_wildcard w par))
              else mret tt
          | None => mret tt
          end;;
          mret (inl (parent d))
      end
  end.

Definition rrset_zero_nonexist_check (domain : Z) (ce : option Z) : Db (option Z) :=
  d ← get_domain domain;
  match domain_rrsets d with
  | _ :: _ => mret None
  | [] =>
      db ← st_get;
      below ← lift (has_data_below db domain);
      if (below : bool) then mret None
      else st_iter parent_fuel (nonexist_step ce) (Some domain)
  end.

(** * Record sets *)
Definition put_rrset (r : Z) (rs : rrset) (db : namedb) : namedb := set_rrset_store (<[r := rs]> (rrsets db)) db.
Definition put_zone (z : Z) (a : zone) (db : namedb) : namedb :=
  mkdb (domains db) (rrsets db) (<[z := a]> (zones db)) (nametree db) (numlist db) (zonetree db).
Definition get_rrset (r : Z) : Db rrset := db ← st_get; lift (rrset_at db r).
Definition get_zone (z : Z) : Db zone := db ← st_get; lift (zone_at db z).

Definition set_soa (r : option Z) (a : zone) : zone :=
  mkzone (apex a) r (soa_nx_rrset a) (ns_rrset a) (is_secure a) (is_ok a) (expires a).
Definition set_soa_nx (r : option Z) (a : zone) : zone :=
  mkzone (apex a) (soa_rrset a) r (ns_rrset a) (is_secure a) (is_ok a) (expires a).
Definition set_ns (r : option Z) (a : zone) : zone :=
  mkzone (apex a) (soa_rrset a) (soa_nx_rrset a) r (is_secure a) (is_ok a) (expires a).
Definition set_secure (v : bool) (a : zone) : zone :=
  mkzone (apex a) (soa_rrset a) (soa_nx_rrset a) (ns_rrset a) v (is_ok a) (expires a).

(** Whether one of the signatures is for a DNSKEY record set. *)
Fixpoint covers_dnskey (rs : list rr) : res bool :=
  match rs with
  | [] => mret false
  | r :: rs => t ← rr_rrsig_type_covered r; if t =? TYPE_DNSKEY then mret true else covers_dnskey rs
  end.

(** The list without the first [r]. *)
Fixpoint unlink (r : Z) (l : list Z) : list Z :=
  match l with
  | [] => []
  | x :: l => if x =? r then l else x :: unlink r l
  end.

Definition rrset_delete (domain r : Z) : Db unit :=
  d ← get_domain domain;
  if negb (bool_decide (r ∈ domain_rrsets d)) then mret tt else
  st_modify (put_domain domain (set_rrsets (unlink r (domain_rrsets d)) d));;
  rs ← get_rrset r;
  let z := rrset_zone rs in
  a ← get_zone z;
  let a := if bool_decide (soa_rrset a = Some r) then set_soa None a else a in
  let a := if bool_decide (ns_rrset a = Some r) then set_ns None a else a in
  a ← (if bool_decide (apex a = Some domain) then
         type ← lift (rrset_rrtype rs);
         if type =? TYPE_RRSIG then
           c ← lift (covers_dnskey (rrs rs));
           mret (if (c : bool) then set_secure false a else a)
         else mret a
       else mret a);
  st_modify (put_zone z a);;
  st_modify (fun db => set_rrset_store (delete r (rrsets db)) db).

(** * Finding a record *)
Definition rdata_atom_is_literal_domain (type index : Z) : bool :=
  let descriptor := rrtype_descriptor_by_type type in
  if d_maximum descriptor <=? index then false
  else bool_decide (default RDATA_WF_COMPRESSED_DNAME (d_wireformat descriptor !! Z.to_nat index) = RDATA_WF_LITERAL_DNAME).

(** Field [k] of both records; they may be of different tables. *)
Definition rdata_equal (dba dbb : namedb) (a b : list rdata_atom) (type : Z) (k : nat) : res bool :=
  x ← points_to (a !! k);
  y ← points_to (b !! k);
  if rdata_atom_is_domain type (Z.of_nat k) then
    p ← rdata_atom_domain x;
    q ← rdata_atom_domain y;
    d ← domain_at dba p;
    e ← domain_at dbb q;
    c ← dname_compare (domain_dname d) (domain_dname e);
    mret (c =? 0)
  else
    s ← rdata_atom_data x;
    t ← rdata_atom_data y;
    if negb (zlength s =? zlength t) then mret false
    else if rdata_atom_is_literal_domain type (Z.of_nat k) then dname_equal_nocase s t (zlength s)
    else mret (memcmp s t (length s) =? 0).

Fixpoint rdatas_equal_from (dba dbb : namedb) (a b : list rdata_atom) (type : Z) (k todo : nat) : res bool :=
  match todo with
  | O => mret true
  | S todo =>
      e ← rdata_equal dba dbb a b type k;
      if (e : bool) then rdatas_equal_from dba dbb a b type (S k) todo else mret false
  end.

(** Of SOA records only the serial numbers are compared. *)
Definition rdatas_equal (dba dbb : namedb) (a b : list rdata_atom) (num : nat) (type : Z) : res bool :=
  if type =? TYPE_SOA then rdatas_equal_from dba dbb a b type 2 1
  else rdatas_equal_from dba dbb a b type 0 num.

(** What is logged when the record is not found: every record is compared,
    whatever the number of its fields. *)
Fixpoint debug_find_rr_num (dba dbb : namedb) (rs : list rr) (type : Z) (rdatas_ : list rdata_atom) : res unit :=
  match rs with
  | [] => mret tt
  | r :: rs =>
      _ ← rdatas_equal dba dbb rdatas_ (rdatas r) (length rdatas_) type;
      debug_find_rr_num dba dbb rs type rdatas_
  end.

Fixpoint find_rr_from (dba dbb : namedb) (rs : list rr) (i : nat) (type class : Z) (rdatas_ : list rdata_atom) :
    res (option nat) :=
  match rs with
  | [] => mret None
  | r :: rs =>
      same ← (if (rr_type r =? type) && (klass r =? class) && (rdata_count r =? zlength rdatas_)
              then rdatas_equal dba dbb rdatas_ (rdatas r) (length rdatas_) type else mret false);
      if (same : bool) then mret (Some i) else find_rr_from dba dbb rs (S i) type class rdatas_
  end.

(** [dba] is the table the fields [rdatas_] point to. *)
Definition find_rr_num (dba dbb : namedb) (rs : rrset) (type class : Z) (rdatas_ : list rdata_atom) (add : bool) :
    res (option nat) :=
  n ← find_rr_from dba dbb (rrs rs) 0 type class rdatas_;
  match n with
  | Some n => mret (Some n)
  | None => (if add then mret tt else debug_find_rr_num dba dbb (rrs rs) type rdatas_);; mret None
  end.

(** * Uses of domains *)
Fixpoint lower_usage_from (type : Z) (i : Z) (l : list rdata_atom) : Db unit :=
  match l with
  | [] => mret tt
  | a :: l =>
      (if rdata_atom_is_domain type i then
         p ← lift (rdata_atom_domain a);
         d ← get_domain p;
         st_assert (0 <? usage d);;
         st_modify (put_domain p (set_usage (usage d - 1) d));;
         if usage d - 1 =? 0 then domain_table_deldomain p else mret tt
       else mret tt);;
      lower_usage_from type (i + 1) l
  end.
Definition rr_lower_usage (r : rr) : Db unit := lower_usage_from (rr_type r) 0 (rdatas r).

Fixpoint rrs_lower_usage (rs : list rr) : Db unit :=
  match rs with
  | [] => mret tt
  | r :: rs => rr_lower_usage r;; rrs_lower_usage rs
  end.
Definition rrset_lower_usage (r : Z) : Db unit := rs ← get_rrset r; rrs_lower_usage (rrs rs).

(** * One record *)

(** The message, the database and whether something unexpected was passed over. *)
Record updater := mkupdater { up_packet : buffer; up_db : namedb; up_softfail : bool }.
Abbreviation Up := (ST updater).

Definition on_packet {A} (m : Buf A) : Up A := fun s =>
  match m (up_packet s) with
  | Ok (a, b) => Ok (a, mkupdater b (up_db s) (up_softfail s))
  | Assert_failed => Assert_failed
  | No_fuel => No_fuel
  end.
Definition on_database {A} (m : Db A) : Up A := fun s =>
  match m (up_db s) with
  | Ok (a, db) => Ok (a, mkupdater (up_packet s) db (up_softfail s))
  | Assert_failed => Assert_failed
  | No_fuel => No_fuel
  end.
Definition softfail : Up unit := st_modify (fun s => mkupdater (up_packet s) (up_db s) true).

(** The parser of record data, with a table of its own or with the database. *)
Definition parse_aside (owners : namedb) (type rdatalen : Z) : Up (option (list rdata_atom) * namedb) := fun s =>
  match rdata_wireformat_to_rdata_atoms type rdatalen (mkreader (up_packet s) owners) with
  | Ok (r, s') => Ok ((r, rd_owners s'), mkupdater (rd_packet s') (up_db s) (up_softfail s))
  | Assert_failed => Assert_failed
  | No_fuel => No_fuel
  end.
Definition parse_into (type rdatalen : Z) : Up (option (list rdata_atom)) := fun s =>
  match rdata_wireformat_to_rdata_atoms type rdatalen (mkreader (up_packet s) (up_db s)) with
  | Ok (r, s') => Ok (r, mkupdater (rd_packet s') (rd_owners s') (up_softfail s))
  | Assert_failed => Assert_failed
  | No_fuel => No_fuel
  end.

(** The last record takes the place of the one that goes. *)
Definition swap_out (n : nat) (rs : list rr) : list rr :=
  match last rs with
  | Some l => removelast (if (n <? length rs - 1)%nat then <[n := l]> rs else rs)
  | None => []
  end.

(** Record [rrnum] of the set [r] of [domain] goes. *)
Definition delete_found (domain r : Z) (rrnum : nat) : Db unit :=
  rs ← get_rrset r;
  rec ← lift (points_to (rrs rs !! rrnum));
  rr_lower_usage rec;;
  if rr_count rs =? 1 then
    rrset_delete domain r;;
    rrset_zero_nonexist_check domain None;;
    domain_table_deldomain domain
  else st_modify (put_rrset r (mkrrset (rrset_zone rs) (swap_out rrnum (rrs rs)))).

Definition delete_RR (dname : dname_type) (type class rdatalen z : Z) : Up bool :=
  s ← st_get;
  let missing := on_packet (buffer_skip rdatalen);; softfail;; mret true in
  domain ← lift (domain_table_find (up_db s) dname);
  match domain with
  | None => missing
  | Some p =>
      d ← lift (domain_at (up_db s) p);
      rrset ← lift (domain_find_rrset (up_db s) d z type);
      match rrset with
      | None => missing
      | Some r =>
          temptable ← lift domain_table_create;
          '(rdatas, temptable) ← parse_aside temptable type rdatalen;
          match rdatas with
          | None => mret false
          | Some rdatas =>
              rs ← lift (rrset_at (up_db s) r);
              rrnum ← lift (find_rr_num temptable (up_db s) rs type class rdatas false);
              a ← lift (zone_at (up_db s) z);
              let rrnum := match rrnum with
                           | Some n => Some n
                           | None => if (type =? TYPE_SOA) && bool_decide (apex a = Some p) && negb (rr_count rs =? 0)
                                     then Some 0%nat else None
                           end in
              match rrnum with
              | None => softfail;; mret true
              | Some n => on_database (delete_found p r n);; mret true
              end
          end
      end
  end.

(** The SOA record of negative answers, with the smaller of its TTL and its
    MINIMUM field. *)
Definition negative_soa (soa : rr) : res rr :=
  atom ← points_to (rdatas soa !! 6%nat);
  bytes ← rdata_atom_data atom;
  rassert (zlength bytes =? 4);;
  let soa_minimum := read_uint32 bytes 0 in
  mret (mkrr (rr_owner soa) (rdatas soa) (if soa_minimum <? ttl soa then soa_minimum else ttl soa) (rr_type soa) (klass soa)).

Definition apex_rrset_checks (r domain : Z) : Db unit :=
  rs ← get_rrset r;
  let z := rrset_zone rs in
  a ← get_zone z;
  st_assert (bool_decide (apex a = Some domain));;
  type ← lift (rrset_rrtype rs);
  if type =? TYPE_SOA then
    soa ← lift (first_rr rs);
    soa_nx ← lift (negative_soa soa);
    db ← st_get;
    let nx := default (allocate (rrsets db)) (soa_nx_rrset a) in
    st_modify (put_rrset nx (mkrrset z [soa_nx]));;
    st_modify (put_zone z (set_soa_nx (Some nx) (set_soa (Some r) a)))
  else if type =? TYPE_NS then st_modify (put_zone z (set_ns (Some r) a))
  else if type =? TYPE_RRSIG then
    c ← lift (covers_dnskey (rrs rs));
    if (c : bool) then st_modify (put_zone z (set_secure true a)) else mret tt
  else mret tt.

(** The set of the type, made if need be. *)
Definition rrset_for (p z type : Z) : Db Z :=
  db ← st_get;
  d ← get_domain p;
  found ← lift (domain_find_rrset db d z type);
  match found with
  | Some r => mret r
  | None =>
      let r := allocate (rrsets db) in
      st_modify (put_rrset r (mkrrset z []));;
      domain_add_rrset p r;;
      mret r
  end.

Definition add_RR (dname : dname_type) (type class ttl rdatalen z : Z) : Up bool :=
  s ← st_get;
  domain ← lift (domain_table_find (up_db s) dname);
  p ← (match domain with
       | Some p => mret p
       | None => on_database (domain_table_insert dname)
       end);
  r ← on_database (rrset_for p z type);
  rdatas ← parse_into type rdatalen;
  match rdatas with
  | None => mret false
  | Some rdatas =>
      s ← st_get;
      rs ← lift (rrset_at (up_db s) r);
      rrnum ← lift (find_rr_num (up_db s) (up_db s) rs type class rdatas true);
      match rrnum with
      | Some _ => softfail;; mret true
      | None =>
          if rr_count rs =? 65535 then mret false else
          on_database (st_modify (put_rrset r (mkrrset (rrset_zone rs) (rrs rs ++ [mkrr p rdatas ttl type class]))));;
          a ← lift (zone_at (up_db s) z);
          (if bool_decide (apex a = Some p) then on_database (apex_rrset_checks r p) else mret tt);;
          mret true
      end
  end.
End diff.
