(* ===== verification/Transfer.v ===== *)
(** Model of how a zone transfer is applied (src/difffile.c, and
    [namedb_zone_create] of src/dbaccess.c): the file the transfer daemon
    leaves, zones made and emptied, the records of a message deleted and added,
    the messages of a file one after the other. *)

From S2P Require Import Prelude Buffer Dname Dns Packet Namedb Rdata Respond Diff.

(** * The file of a transfer

    What is left to read of it. *)
Definition DIFF_PART_XXFR : Z := Z.lor (Z.lor (Z.lor (Z.shiftl 88 24) (Z.shiftl 88 16)) (Z.shiftl 70 8)) 82.
Definition DIFF_PART_XFRF : Z := Z.lor (Z.lor (Z.lor (Z.shiftl 88 24) (Z.shiftl 70 16)) (Z.shiftl 82 8)) 70.

(** [fread(buf, n, 1, in)]: nothing is also what is read of size 0. *)
Definition fread (n : Z) (file : list Z) : option (list Z * list Z) :=
  if (n =? 0) || (zlength file <? n) then None
  else Some (take (Z.to_nat n) file, drop (Z.to_nat n) file).

Definition diff_read_8 (file : list Z) : option (Z * list Z) :=
  '(d, file) ← fread 1 file; Some (zget d 0, file).
Definition diff_read_32 (file : list Z) : option (Z * list Z) :=
  '(d, file) ← fread 4 file; Some (read_uint32 d 0, file).
(** In the order of the host, which is the one that wrote it. *)
Definition diff_read_64 (file : list Z) : option (list Z * list Z) := fread 8 file.
Definition diff_read_str (len : Z) (file : list Z) : option (list Z * list Z) :=
  '(disklen, file) ← diff_read_32 file;
  if len <=? disklen then None else fread disklen file.

Definition write_8 (v : Z) : list Z := [u8 v].
Definition write_32 (v : Z) : list Z := write_uint32 v.
Definition write_64 (v : list Z) : list Z := v.
Definition write_str (s : list Z) : list Z := write_32 (u32 (zlength s)) ++ s.

(** [tv_sec] as it is in memory, and [tv_usec]. *)
Record timeval := mktimeval { tv_sec : list Z; tv_usec : Z }.

(** What is written to the file, or appended to it. *)
Definition diff_write_packet (zone pat : list Z) (old_serial new_serial seq_nr : Z) (data : list Z) (tv : timeval)
    (file : list Z) : list Z :=
  let header := write_32 DIFF_PART_XFRF ++ write_8 0 ++ write_32 0 ++
    write_64 (tv_sec tv) ++ write_32 (tv_usec tv) ++ write_32 old_serial ++ write_32 new_serial ++
    write_64 (tv_sec tv) ++ write_32 (tv_usec tv) ++ write_str zone ++ write_str pat in
  let part := write_32 DIFF_PART_XXFR ++ write_32 (u32 (zlength data)) ++ data ++ write_32 (u32 (zlength data)) in
  if seq_nr =? 0 then header ++ part else file ++ part.

(** The first part is overwritten, the log comes last. *)
Definition diff_write_commit (old_serial new_serial num_parts commit : Z) (log_str : list Z) (tv : timeval)
    (file : list Z) : list Z :=
  let first := write_32 DIFF_PART_XFRF ++ write_8 commit ++ write_32 num_parts ++
    write_64 (tv_sec tv) ++ write_32 (tv_usec tv) ++ write_32 old_serial ++ write_32 new_serial in
  first ++ drop (length first) file ++ write_str log_str.

Record diff_header := mkheader {
  h_committed : Z;
  h_num_parts : Z;
  h_time_end : list Z * Z;
  h_old_serial : Z;
  h_new_serial : Z;
  h_time_start : list Z * Z;
  h_zone : list Z;
  h_pattern : list Z;
}.

(** What [apply_ixfr_for_zone] reads first. *)
Definition read_header (file : list Z) : option (diff_header * list Z) :=
  '(type, file) ← diff_read_32 file;
  if negb (type =? DIFF_PART_XFRF) then None else
  '(committed, file) ← diff_read_8 file;
  '(num_parts, file) ← diff_read_32 file;
  '(time_end_0, file) ← diff_read_64 file;
  '(time_end_1, file) ← diff_read_32 file;
  '(old_serial, file) ← diff_read_32 file;
  '(new_serial, file) ← diff_read_32 file;
  '(time_start_0, file) ← diff_read_64 file;
  '(time_start_1, file) ← diff_read_32 file;
  '(zone_buf, file) ← diff_read_str 3072 file;
  '(patname_buf, file) ← diff_read_str 2048 file;
  Some (mkheader committed num_parts (time_end_0, time_end_1) old_serial new_serial (time_start_0, time_start_1)
          zone_buf patname_buf, file).

(** What [apply_ixfr] reads first: the message of a part. *)
Definition read_part (file : list Z) : option (list Z * list Z) :=
  '(pkttype, file) ← diff_read_32 file;
  if negb (pkttype =? DIFF_PART_XXFR) then None else
  '(msglen, file) ← diff_read_32 file;
  if (msglen <? QHEADERSZ) || (QIOBUFSZ <? msglen) then None else
  '(msg, file) ← fread msglen file;
  '(checklen, file) ← diff_read_32 file;
  if negb (checklen =? msglen) then None else
  Some (msg, file).

Section transfer.
Context `{T : NameTree}.

(** * Zones made and emptied *)
Definition set_apex (d : domain) : domain :=
  mkdomain (in_tree d) (domain_dname d) (parent d) (wildcard_child_closest_match d) (domain_rrsets d)
    (number d) (usage d) (is_existing d) true.
Definition set_zonetree (t : name_tree) (db : namedb) : namedb :=
  mkdb (domains db) (rrsets db) (zones db) (nametree db) (numlist db) t.

(** [expires_]: the pattern of the zone's options has [request_xfr]. *)
Definition namedb_zone_create (dname : dname_type) (expires_ : bool) : Db Z :=
  db ← st_get;
  let z := allocate (zones db) in
  st_assert (bool_decide (namedb_find_zone db dname = None));;
  st_modify (set_zonetree (tree_insert (zonetree db) dname z));;
  p ← domain_table_insert dname;
  d ← get_domain p;
  st_modify (put_domain p (set_apex (set_usage (usage d + 1) d)));;
  st_modify (put_zone z (mkzone (Some p) None None None false true expires_));;
  mret z.

(** [zopt]: what the options of the server have for the zone, or make for
    it. *)
Definition find_or_create_zone (zone_name : dname_type) (zopt : option bool) : Db (option Z) :=
  db ← st_get;
  match namedb_find_zone db zone_name with
  | Some z => mret (Some z)
  | None =>
      match zopt with
      | None => mret None
      | Some expires_ => z ← namedb_zone_create zone_name expires_; mret (Some z)
      end
  end.

(** The record sets of the zone [z] at [p] go; whether there are no others. *)
Definition delete_rrsets (p z : Z) (nonexist_check : bool) : Db bool :=
  d ← get_domain p;
  st_iter (S (length (domain_rrsets d))) (fun nonexist_check : bool =>
    db ← st_get;
    d ← get_domain p;
    r ← lift (domain_find_any_rrset db d z);
    match r with
    | None => mret (inr nonexist_check)
    | Some r =>
        rrset_lower_usage r;;
        rrset_delete p r;;
        d ← get_domain p;
        mret (inl (nonexist_check || bool_decide (domain_rrsets d = [])))
    end) nonexist_check.

(** [p] is at or below the apex of the zone. *)
Definition in_zone_tree (p z : Z) : Db bool :=
  a ← get_zone z;
  top ← lift (points_to (apex a));
  d ← get_domain p;
  t ← get_domain top;
  lift (dname_is_subdomain (domain_dname d) (domain_dname t)).

(** One round over the domains of the tree. *)
Definition delete_visit (z : Z) (st : option Z * bool) : Db (option Z * bool + bool) :=
  let '(domain, nonexist_check) := st in
  match domain with
  | None => mret (inr nonexist_check)
  | Some p =>
      b ← in_zone_tree p z;
      if negb b then mret (inr nonexist_check) else
      nonexist_check ← delete_rrsets p z nonexist_check;
      db ← st_get;
      d ← get_domain p;
      domain_table_deldomain p;;
      mret (inl (domain_next db d, nonexist_check))
  end.

(** One round over what is left of them. *)
Definition nonexist_visit (z : Z) (st : option Z * option Z) : Db (option Z * option Z + unit) :=
  let '(domain, ce) := st in
  match domain with
  | None => mret (inr tt)
  | Some p =>
      b ← in_zone_tree p z;
      if negb b then mret (inr tt) else
      d ← get_domain p;
      ce ← (if is_existing d then rrset_zero_nonexist_check p ce else mret ce);
      db ← st_get;
      d ← get_domain p;
      mret (inl (domain_next db d, ce))
  end.

(** Every round moves to a later name of the tree. *)
Definition delete_zone_rrs (z : Z) : Db unit :=
  a ← get_zone z;
  db ← st_get;
  nonexist_check ← st_iter (S (S (size (domains db)))) (delete_visit z) (apex a, false);
  (if (nonexist_check : bool) then
     db ← st_get;
     a ← get_zone z;
     st_iter (S (S (size (domains db)))) (nonexist_visit z) (apex a, None)
   else mret tt);;
  a ← get_zone z;
  st_assert (bool_decide (soa_rrset a = None));;
  st_assert (bool_decide (ns_rrset a = None));;
  st_assert (negb (is_secure a)).

(** * The records of a message *)

Abbreviation Up := (ST updater).

(** [rr_count] counts the records of all messages. *)
Record xfr_state := mkxfr_state { is_axfr : bool; delete_mode : bool; xfr_count : Z }.

(** Given up, with what is returned, or on to the next record. *)
Inductive applied := Stop (result : Z) (f : xfr_state) | Next (f : xfr_state).

(** The SOA record a transfer starts with. *)
Definition first_soa (dname_zone : dname_type) (serialno : Z) : Buf bool :=
  dname ← dname_make_from_packet true true;
  match dname with
  | None => mret false
  | Some dname =>
      c ← lift (dname_compare dname_zone dname);
      if negb (c =? 0) then mret false else
      a ← buffer_available 10;
      if negb a then mret false else
      type ← buffer_read_u16;
      other ← (if negb (type =? TYPE_SOA) then mret true else class ← buffer_read_u16; mret (negb (class =? CLASS_IN)));
      if (other : bool) then mret false else
      buffer_skip 4;;
      len ← buffer_read_u16;
      a ← buffer_available len;
      if negb a then mret false else
      s ← packet_skip_dname;
      if negb s then mret false else
      s ← packet_skip_dname;
      if negb s then mret false else
      serial ← buffer_read_u32;
      if negb (serial =? serialno) then
        buffer_skip (-4);; _ ← buffer_read_u32; mret false
      else buffer_skip 16;; mret true
  end.

(** The serial of the SOA record that comes second. *)
Definition second_serial : Buf (option Z) :=
  s ← packet_skip_dname;
  if negb s then mret None else
  s ← packet_skip_dname;
  if negb s then mret None else
  n ← buffer_remaining;
  if n <? 20 then mret None else
  serial ← buffer_read_u32;
  mret (Some serial).

(** What the second record shows the transfer to be. *)
Definition second_rr (z serialno type : Z) (f : xfr_state) : Up applied :=
  if negb (type =? TYPE_SOA) then
    on_database (delete_zone_rrs z);;
    mret (Next (mkxfr_state true false (xfr_count f)))
  else
    bufpos ← on_packet buffer_position;
    thisserial ← on_packet second_serial;
    match thisserial with
    | None => mret (Stop 0 f)
    | Some thisserial =>
        f ← (if thisserial =? serialno then
               on_database (delete_zone_rrs z);;
               mret (mkxfr_state true false (xfr_count f))
             else mret f);
        s ← st_get;
        gone ← (if is_axfr f then mret false
                else
                  a ← lift (zone_at (up_db s) z);
                  top ← lift (points_to (apex a));
                  d ← lift (domain_at (up_db s) top);
                  soa ← lift (domain_find_rrset (up_db s) d z TYPE_SOA);
                  mret (match soa with None => true | Some _ => false end));
        if (gone : bool) then mret (Stop 2 f) else
        on_packet (buffer_set_position bufpos);;
        mret (Next f)
    end.

Definition next_count (f : xfr_state) : xfr_state := mkxfr_state (is_axfr f) (delete_mode f) (xfr_count f + 1).

(** The record after its header: [last] is the last of the message, and the
    message the last of the transfer. *)
Definition apply_data (z : Z) (dname : dname_type) (type klass ttl rrlen : Z) (last : bool) (f : xfr_state) : Up applied :=
  let f := if (type =? TYPE_SOA) && negb (is_axfr f)
           then mkxfr_state (is_axfr f) (negb (delete_mode f)) (xfr_count f) else f in
  if (type =? TYPE_TSIG) || (type =? TYPE_OPT) then
    on_packet (buffer_skip rrlen);; mret (Next (next_count f))
  else if delete_mode f then
    if negb (is_axfr f) && (type =? TYPE_SOA) && last then mret (Next (next_count f))
    else
      ok ← delete_RR dname type klass rrlen z;
      mret (if (ok : bool) then Next (next_count f) else Stop 0 f)
  else
    ok ← add_RR dname type klass ttl rrlen z;
    mret (if (ok : bool) then Next (next_count f) else Stop 0 f).

Definition apply_rr (z serialno : Z) (last : bool) (f : xfr_state) : Up applied :=
  dname ← on_packet (dname_make_from_packet true true);
  match dname with
  | None => mret (Stop 0 f)
  | Some dname =>
      a ← on_packet (buffer_available 10);
      if negb a then mret (Stop 0 f) else
      type ← on_packet buffer_read_u16;
      klass ← on_packet buffer_read_u16;
      ttl ← on_packet buffer_read_u32;
      rrlen ← on_packet buffer_read_u16;
      a ← on_packet (buffer_available rrlen);
      if negb a then mret (Stop 0 f) else
      r ← (if xfr_count f =? 1 then second_rr z serialno type f else mret (Next f));
      match r with
      | Stop result f => mret (Stop result f)
      | Next f => apply_data z dname type klass ttl rrlen last f
      end
  end.

(** The records that are left of the message. *)
Fixpoint apply_rrs (z serialno : Z) (last_part : bool) (n : nat) (f : xfr_state) : Up applied :=
  match n with
  | O => mret (Next f)
  | S n =>
      r ← apply_rr z serialno (bool_decide (n = O) && last_part) f;
      match r with
      | Stop result f => mret (Stop result f)
      | Next f => apply_rrs z serialno last_part n f
      end
  end.

(** * The messages of a transfer *)
Record xfr_applied := mkxfr {
  x_file : list Z;
  x_db : namedb;
  x_state : xfr_state;
  x_bytes : Z;
  x_softfail : bool;
}.

(** The message in its buffer, whose memory is [mem]. *)
Definition part_buffer (mem msg : list Z) : buffer :=
  mkbuffer 0 (zlength msg) QIOBUFSZ (msg ++ drop (length msg) mem) false.

(** The sections of a message. *)
Definition apply_message (dname_zone : dname_type) (z serialno : Z) (last_part : bool) (f : xfr_state) : Up applied :=
  qcount ← on_packet QDCOUNT;
  ancount ← on_packet ANCOUNT;
  on_packet (buffer_skip QHEADERSZ);;
  q ← on_packet (skip_questions (Z.to_nat qcount));
  if negb q then mret (Stop 0 f) else
  if xfr_count f =? 0 then
    ok ← on_packet (first_soa dname_zone serialno);
    if negb ok then mret (Stop 0 f)
    else apply_rrs z serialno last_part (Z.to_nat (ancount - 1)) (mkxfr_state false false 1)
  else apply_rrs z serialno last_part (Z.to_nat ancount) f.

(** 0: syntax error or bad IXFR, 1: done, 2: done and the rest is passed over. *)
Definition apply_ixfr (junk mem : list Z) (zone : list Z) (serialno seq_nr seq_total : Z) (zopt : option bool)
    (x : xfr_applied) : res (Z * option Z * xfr_applied) :=
  match read_part (x_file x) with
  | None => mret (0, None, x)
  | Some (msg, file) =>
      let x := mkxfr file (x_db x) (x_state x) (x_bytes x + zlength msg) (x_softfail x) in
      dname_zone ← dname_parse junk zone;
      dname_zone ← points_to dname_zone;
      '(z, db) ← find_or_create_zone dname_zone zopt (x_db x);
      match z with
      | None => mret (0, None, mkxfr file db (x_state x) (x_bytes x) (x_softfail x))
      | Some z =>
          '(r, s) ← apply_message dname_zone z serialno (seq_nr =? seq_total - 1) (x_state x)
                      (mkupdater (part_buffer mem msg) db (x_softfail x));
          let '(code, f) := match r with Stop code f => (code, f) | Next f => (1, f) end in
          mret (code, Some z, mkxfr file (up_db s) f (x_bytes x) (up_softfail s))
      end
  end.

(** The serial of the zone is not the one the transfer starts from. *)
Definition check_for_bad_serial (junk : list Z) (db : namedb) (zone_str : list Z) (old_serial : Z) : res bool :=
  zone_name ← dname_parse junk zone_str;
  zone_name ← points_to zone_name;
  domain ← domain_table_find db zone_name;
  zone ← match domain with Some p => domain_find_zone db (Some p) | None => mret None end;
  match zone with
  | None => mret false
  | Some z =>
      a ← zone_at db z;
      match soa_rrset a with
      | Some r =>
          if bool_decide (apex a = domain) && negb (old_serial =? 0) then
            rs ← rrset_at db r;
            soa ← first_rr rs;
            atom ← points_to (rdatas soa !! 2%nat);
            bytes ← rdata_atom_data atom;
            rassert (4 <=? zlength bytes);;
            mret (negb (old_serial =? read_uint32 bytes 0))
          else mret false
      | None => mret false
      end
  end.

(** The parts, [i] of [num_parts] and on: [None] when the file is bad and the
    server exits. *)
Fixpoint apply_parts (junk mem zone : list Z) (serialno num_parts : Z) (zopt : option bool) (n : nat) (z : option Z)
    (x : xfr_applied) : res (option (option Z * xfr_applied)) :=
  match n with
  | O => mret (Some (z, x))
  | S n =>
      '(code, z', x) ← apply_ixfr junk mem zone serialno (num_parts - Z.of_nat (S n)) num_parts zopt x;
      if code =? 0 then mret None
      else if code =? 2 then mret (Some (z', x))
      else apply_parts junk mem zone serialno num_parts zopt n z' x
  end.

(** What comes of a file: it is refused, passed over because its serial is not
    the zone's, the server exits, or it is applied, and the transfer daemon is
    told whether the zone needs to be transferred whole. *)
Inductive for_zone := Refused | Skipped | Exited | Applied (z : option Z) (db : namedb) (whole : bool).

Definition apply_ixfr_for_zone (junk mem apex_str : list Z) (zopt : option bool) (z : Z) (file : list Z) (db : namedb) :
    res for_zone :=
  match read_header file with
  | None => mret Refused
  | Some (h, file) =>
      if negb (bool_decide (h_zone h = apex_str)) then mret Refused
      else if h_committed h =? 0 then mret Refused
      else if h_num_parts h =? 0 then mret Refused
      else
        bad ← check_for_bad_serial junk db (h_zone h) (h_old_serial h);
        if (bad : bool) then mret Skipped else
        r ← apply_parts junk mem (h_zone h) (h_new_serial h) (h_num_parts h) zopt (Z.to_nat (h_num_parts h)) (Some z)
              (mkxfr file db (mkxfr_state false false 0) 0 false);
        match r with
        | None => mret Exited
        | Some (z, x) => mret (Applied z (x_db x) (x_softfail x && negb (is_axfr (x_state x))))
        end
  end.
End transfer.
