(* ===== verification/DiffExisting.v ===== *)
(** Which domains exist (Diff.v): a domain exists when it or a domain below it
    has data, and [rrset_zero_nonexist_check] makes that true again after
    record sets have gone. *)

From S2P Require Import Prelude Buffer Dname DnameProofs DnamePacket Dns Namedb NamedbProofs NamedbTable Rdata RdataProofs NamedbDelete Diff.

(** Names of which, with a name, the ones above it are. *)
Class Upward (E : name -> Prop) : Prop := upward j k : E (j ++ k) -> E k.

(** No names. *)
Definition none_of : name -> Prop := fun _ => False.
#[export] Instance upward_none : Upward none_of.
Proof. by intros j k []. Qed.

Section existing.
Context `{T : NameTree} {L : NameTreeLaws T}.

Abbreviation names db := (contents (nametree db)).

(** The domain or one below it has a record set. *)
Definition data_below (db : namedb) (k : name) : Prop := exists j q e,
  names db !! (j ++ k) = Some q /\ domains db !! q = Some e /\ domain_rrsets e <> [].

(** A domain exists exactly when there is data at or below it. *)
Definition existing_exact (db : namedb) : Prop := forall k p d,
  names db !! k = Some p -> domains db !! p = Some d -> is_existing d = true <-> data_below db k.

(** A domain with data at or below it exists, and one that exists without data
    is one of the [stale] names. *)
Definition existing_upto (stale : name -> Prop) (db : namedb) : Prop := forall k p d,
  names db !! k = Some p -> domains db !! p = Some d ->
  (data_below db k -> is_existing d = true) /\ (is_existing d = true -> data_below db k \/ stale k).

Lemma existing_upto_none db : existing_upto none_of db <-> existing_exact db.
Proof using.
  split; intros H k p d Hp Hd; specialize (H k p d Hp Hd); unfold none_of in *; tauto.
Qed.

Lemma data_below_app db j k : data_below db (j ++ k) -> data_below db k.
Proof using. intros (i & q & e & Hq & H). exists (i ++ j), q, e. by rewrite <-app_assoc. Qed.

(** * Data below a domain *)

Lemma numlist_size db : db_ok db -> (length (numlist db) <= size (domains db))%nat.
Proof using.
  intros [_ Hdom _ Hnl Hnd _]. rewrite <-size_dom, <-(size_list_to_set (C:=gset Z)) by done.
  apply subseteq_size. intros p [ls Hls]%elem_of_list_to_set%Hnl.
  destruct (Hdom _ _ Hls) as (d & Hd & _). by eapply elem_of_dom_2.
Qed.

(** The domains that come after [q], to count the rounds of a walk. *)
Definition after (db : namedb) (q x : Z) : Prop :=
  match domains db !! q, domains db !! x with
  | Some d, Some e => name_cmp (labels_of (domain_dname d)) (labels_of (domain_dname e)) < 0
  | _, _ => False
  end.
#[local] Instance after_dec db q x : Decision (after db q x).
Proof using. unfold after. repeat case_match; apply _. Defined.

Definition rounds (db : namedb) (q : Z) : nat := length (filter (after db q) (numlist db)).

Lemma after_names db k m q x : db_ok db -> names db !! k = Some q -> names db !! m = Some x ->
  after db q x <-> name_cmp k m < 0.
Proof using.
  intros Hdb Hq Hx. destruct (db_domain db Hdb _ _ Hq) as (d & Hd & [Hok Hdn _ _ _]).
  destruct (db_domain db Hdb _ _ Hx) as (e & He & [Hok' Hdn' _ _ _]).
  unfold after. by rewrite Hd, He, Hdn, Hdn', !labels_of_labels.
Qed.

Lemma rounds_next db k m q x : db_ok db -> names db !! k = Some q -> names db !! m = Some x ->
  name_cmp k m < 0 -> (rounds db x < rounds db q)%nat.
Proof using.
  intros Hdb Hq Hx Hlt. apply (filter_lt _ _ _ x).
  - intros y [i Hy]%(db_numlist _ Hdb). rewrite !after_names by done.
    intros. by apply (cmp_trans (cmp:=name_cmp) k m i).
  - apply (db_numlist _ Hdb). by exists m.
  - by rewrite after_names.
  - rewrite (after_names db m m) by done. rewrite name_cmp_refl. lia.
Qed.

(** Some name properly below [k] exists. *)
Definition exists_below (db : namedb) (k : name) : Prop := exists c j q e,
  names db !! (c :: j ++ k) = Some q /\ domains db !! q = Some e /\ is_existing e = true.

Lemma below_after c j k : name_cmp k (c :: j ++ k) < 0.
Proof using.
  pose proof (suffix_le k (c :: j ++ k) (ex_intro _ (c :: j) eq_refl)).
  destruct (Z.eq_dec (name_cmp k (c :: j ++ k)) 0) as [E|]; [|lia].
  apply (cmp_eq (cmp:=name_cmp)) in E. apply (f_equal length) in E. simpl in E. rewrite length_app in E. lia.
Qed.

Lemma has_data_below_spec db k p : db_ok db -> names db !! k = Some p ->
  exists b, has_data_below db p = Ok b /\ (b = true <-> exists_below db k).
Proof using L.
  intros Hdb Hp. destruct (db_domain db Hdb _ _ Hp) as (t & Ht & [Hok Hdn _ _ _]).
  unfold has_data_below, domain_at. rewrite Ht. cbn [points_to mbind res_bind].
  (* the names before the one reached do not exist *)
  set (I := fun o : option Z => forall c j q e, names db !! (c :: j ++ k) = Some q -> domains db !! q = Some e ->
    is_existing e = true -> exists x m, o = Some x /\ names db !! m = Some x /\ name_cmp k m < 0 /\
      name_cmp m (c :: j ++ k) <= 0).
  assert (Hnext : forall m x d, names db !! m = Some x -> domains db !! x = Some d -> name_cmp k m <= 0 ->
    (forall c j q e, names db !! (c :: j ++ k) = Some q -> domains db !! q = Some e -> is_existing e = true ->
       name_cmp m (c :: j ++ k) < 0) ->
    I (domain_next db d) /\ (match domain_next db d with Some y => S (rounds db y) | None => 0 end < S (rounds db x))%nat /\
    (forall y, domain_next db d = Some y -> exists i, names db !! i = Some y /\ name_cmp k i < 0)).
  { intros m x d Hm Hd Hle Hno. destruct (db_domain db Hdb _ _ Hm) as (d' & Hd' & [Hmok Hmn _ _ _]).
    assert (d' = d) as -> by congruence. unfold domain_next. rewrite Hmn.
    pose proof (contents_next (nametree db) m Hmok) as Hn.
    destruct (tree_next (nametree db) (of_labels m)) as [y|]; cbn in Hn.
    - destruct Hn as (i & Hi & Hgt & Hmin). apply name_cmp_flip in Hgt.
      assert (Hki : name_cmp k i < 0).
      { destruct (Z.eq_dec (name_cmp k m) 0) as [E|]; [apply (cmp_eq (cmp:=name_cmp)) in E; by subst|].
        apply (cmp_trans (cmp:=name_cmp) k m i); lia. }
      split_and!; [|pose proof (rounds_next db m i x y Hdb Hm Hi Hgt); lia|intros ? [= <-]; by exists i].
      intros c j q e Hq He Hx. exists y, i. split_and!; [done..|]. apply (Hmin _ q); [done|].
      apply name_cmp_flip. by eapply Hno.
    - split_and!; [|lia|done]. intros c j q e Hq He Hx. pose proof (Hno _ _ _ _ Hq He Hx) as Hlt.
      apply name_cmp_flip in Hlt. pose proof (Hn _ _ Hq). lia. }
  destruct (Hnext k p t Hp Ht) as (HI & Hm & Hafter); [by rewrite name_cmp_refl|intros; apply below_after|].
  eapply (iter_ok (fun o => I o /\ forall y, o = Some y -> exists i, names db !! i = Some y /\ name_cmp k i < 0)
    (fun o => match o with Some y => S (rounds db y) | None => 0%nat end) _
    (fun b => b = true <-> exists_below db k)).
  - intros [x|] [HIo Ho]; cbn.
    2:{ split; [done|]. intros (c & j & q & e & Hq & He & Hx). by destruct (HIo _ _ _ _ Hq He Hx) as (? & ? & ? & _). }
    destruct (Ho x eq_refl) as (m & Hx & Hkm). destruct (db_domain db Hdb _ _ Hx) as (d & Hd & [Hmok Hmn _ _ _]).
    rewrite Hd. cbn [mbind res_bind points_to]. rewrite Hdn, Hmn, dname_is_subdomain_spec by done.
    cbn [mbind res_bind].
    assert (HIx : forall c j q e, names db !! (c :: j ++ k) = Some q -> domains db !! q = Some e ->
      is_existing e = true -> name_cmp m (c :: j ++ k) <= 0).
    { intros c j q e Hq He Hex. destruct (HIo _ _ _ _ Hq He Hex) as (x' & m' & [= <-] & Hm' & _ & Hle).
      by rewrite (db_injective db Hdb _ _ _ Hx Hm'). }
    case_bool_decide as Hsub; cbn [negb].
    + destruct Hsub as [[|c j] ->]; [cbn [app] in Hkm; rewrite name_cmp_refl in Hkm; lia|]. cbn [app] in *.
      destruct (is_existing d) eqn:Hex; cbn [mret res_ret].
      * split; [intros _|done]. by exists c, j, x, d.
      * destruct (Hnext (c :: j ++ k) x d Hx Hd ltac:(lia)) as (H1 & H2 & H3); [|by split; [split|]].
        intros c' j' q e Hq He Hx'. pose proof (HIx _ _ _ _ Hq He Hx').
        destruct (Z.eq_dec (name_cmp (c :: j ++ k) (c' :: j' ++ k)) 0) as [E|]; [|lia].
        apply (cmp_eq (cmp:=name_cmp)) in E. rewrite <-E in Hq. congruence.
    + split; [done|]. intros (c & j & q & e & Hq & He & Hx'). destruct Hsub.
      apply (suffix_between k m (c :: j ++ k)); [by exists (c :: j)|lia|by eapply HIx].
  - by split.
  - pose proof (numlist_size db Hdb). assert (Hle : (rounds db p <= length (numlist db))%nat) by apply length_filter.
    destruct (domain_next db t); lia.
Qed.

(** * Domains that no longer exist *)

Definition flag (b : bool) (d : domain) : domain := if b then set_existing d else set_not_existing d.

(** [db'] is [db] but for which domains exist, and pointers to the domain
    before the wildcard. *)
Record settled (db db' : namedb) : Prop := {
  settled_ok : table_ok db';
  settled_same : db' = set_domains (domains db') db;
  settled_domains q d : domains db !! q = Some d ->
    exists b w, domains db' !! q = Some (flag b (set_wildcard w d));
  settled_new q d : domains db' !! q = Some d -> is_Some (domains db !! q);
}.

Lemma flag_id d : flag (is_existing d) d = d.
Proof using. destruct d as [? ? ? ? ? ? ? [] ?]; done. Qed.

Lemma settled_refl db : table_ok db -> settled db db.
Proof using.
  intros Hdb. split; [done|by destruct db| |by eexists]. intros q d Hd.
  exists (is_existing d), (wildcard_child_closest_match d). by rewrite set_wildcard_id, flag_id.
Qed.

Lemma settled_trans db1 db2 db3 : settled db1 db2 -> settled db2 db3 -> settled db1 db3.
Proof using.
  intros [_ S1 D1 N1] [Ok3 S3 D3 N3]. split; [done|by rewrite S3, S1| |].
  - intros q d Hd. destruct (D1 _ _ Hd) as (b & w & H1). destruct (D3 _ _ H1) as (b' & w' & ->).
    exists b', w'. by destruct b, b'.
  - intros q d Hd. destruct (N3 _ _ Hd) as [e He]. by eapply N1.
Qed.

Lemma settled_names db db' : settled db db' -> names db' = names db.
Proof using. intros [_ -> _ _]. done. Qed.

Lemma settled_data db db' k : db_ok db -> settled db db' -> data_below db' k <-> data_below db k.
Proof using.
  intros Hdb Hs. pose proof (settled_names _ _ Hs) as Hn. split; intros (j & q & e & Hq & He & Hr).
  - rewrite Hn in Hq. destruct (db_domain db Hdb _ _ Hq) as (d & Hd & _).
    destruct (settled_domains _ _ Hs _ _ Hd) as (b & w & E). exists j, q, d. split_and!; [done..|].
    rewrite E in He. injection He as <-. by destruct b.
  - destruct (settled_domains _ _ Hs _ _ He) as (b & w & E). exists j, q, (flag b (set_wildcard w e)).
    rewrite Hn. split_and!; [done..|]. by destruct b.
Qed.

(** [p] no longer exists. *)
Lemma hidden_settled db k p d : table_ok db -> names db !! k = Some p -> domains db !! p = Some d ->
  ~ exists_below db k -> settled db (put_domain p (set_not_existing d) db).
Proof using.
  intros [Hdb Hex] Hp Hd Hno. split; [split| |intros q e He|intros q e He].
  - apply (db_ok_put db p d); [done..|]. by repeat split.
  - intros i c j r u e f Hi Hr Hu He Hf Hx. cbn in He, Hf.
    apply lookup_insert_Some in He as [[<- <-]|[Hrp He]]; [done|].
    apply lookup_insert_Some in Hf as [[<- <-]|[_ Hf]]; [|by apply (Hex i c j r u e f)].
    destruct Hno. exists c, [], r, e. by rewrite (db_injective db Hdb _ _ _ Hp Hu).
  - done.
  - cbn. destruct (decide (q = p)) as [->|Hqp].
    + exists false, (wildcard_child_closest_match d). rewrite lookup_insert_eq. by assert (e = d) as -> by congruence.
    + exists (is_existing e), (wildcard_child_closest_match e). rewrite lookup_insert_ne, He by done.
      by rewrite set_wildcard_id, flag_id.
  - cbn in He. apply lookup_insert_Some in He as [[<- <-]|[_ He]]; by eexists.
Qed.

(** The pointer of the parent of the wildcard goes back to the parent. *)
Lemma unpointed_settled db k p q d e : table_ok db -> plain_table db -> names db !! ([42] :: k) = Some p ->
  names db !! k = Some q -> domains db !! p = Some d -> domains db !! q = Some e -> is_existing d = false ->
  settled db (put_domain q (set_wildcard q e) db).
Proof using.
  intros [Hdb Hex] Hpl Hp Hq Hd He Hx. pose proof Hdb as [Hroot Hdom Hinj Hnl Hnd Hnum].
  assert (Hlook : forall r f, domains db !! r = Some f -> domains (put_domain q (set_wildcard q e) db) !! r =
    Some (set_wildcard (if r =? q then q else wildcard_child_closest_match f) f)).
  { intros r f Hf. cbn. destruct (Z.eqb_spec r q) as [->|Hr].
    - rewrite lookup_insert_eq. by assert (f = e) as -> by congruence.
    - by rewrite lookup_insert_ne, set_wildcard_id. }
  assert (Hback : forall r f, names db !! r = Some f -> forall g, domains (put_domain q (set_wildcard q e) db) !! f = Some g ->
    exists g0, domains db !! f = Some g0 /\ is_existing g0 = is_existing g /\ number g0 = number g).
  { intros r f Hr g Hg. destruct (Hdom _ _ Hr) as (g0 & Hg0 & _). rewrite (Hlook _ _ Hg0) in Hg.
    injection Hg as <-. by exists g0. }
  split; [split| |intros r f Hf|intros r f Hf].
  - split; try done.
    + intros ls r Hr. destruct (Hdom _ _ Hr) as (f & Hf & [H1 H2 H3 H4 (lf & Hlf & Hsh & Hmax)]).
      rewrite (Hlook _ _ Hf). eexists. split; [done|]. split; try done. cbn.
      destruct (Z.eqb_spec r q) as [->|Hrq].
      * rewrite (Hinj _ _ _ Hr Hq). exists k. split_and!; [done|by left|]. intros c u g Hu Hg Hxg Hb.
        destruct (Hback _ _ Hu _ Hg) as (g0 & Hg0 & Ex & _). exfalso. pose proof (Hpl _ _ _ Hu Hb) as ->.
        assert (u = p) as -> by (cbn in Hu; congruence). assert (g0 = d) as -> by congruence. congruence.
      * exists lf. split_and!; [done..|]. intros c u g Hu Hg Hxg Hb.
        destruct (Hback _ _ Hu _ Hg) as (g0 & Hg0 & Ex & _). by apply (Hmax c u g0); [| |rewrite Ex|].
    + intros i r f Hi Hf. destruct (proj1 (Hnl r)) as [ls Hr]; [by eapply list_elem_of_lookup_2|].
      destruct (Hback _ _ Hr _ Hf) as (g0 & Hg0 & _ & <-). by apply (Hnum i r).
  - intros i c j r u f g Hi Hr Hu Hf Hg Hxf. destruct (Hback _ _ Hr _ Hf) as (f0 & Hf0 & E1 & _).
    destruct (Hback _ _ Hu _ Hg) as (g0 & Hg0 & E2 & _). rewrite <-E2. apply (Hex i c j r u f0 g0); try done. congruence.
  - done.
  - exists (is_existing f), (if r =? q then q else wildcard_child_closest_match f).
    rewrite (Hlook _ _ Hf). f_equal. symmetry. apply (flag_id (set_wildcard _ f)).
  - cbn in Hf. apply lookup_insert_Some in Hf as [[<- <-]|[_ Hf]]; by eexists.
Qed.

(** Right but for the domains at and above [k], of which some more exist
    without data. *)
Definition exact_but (stale : name -> Prop) (db : namedb) (k : name) : Prop :=
  existing_upto (fun ls => stale ls \/ ls `suffix_of` k) db.

Context {stale : name -> Prop} {Hstale : Upward stale}.

Lemma exact_but_data db k : exact_but stale db k -> data_below db k \/ stale k -> existing_upto stale db.
Proof using Hstale.
  intros Hex Hk ls p d Hp Hd. destruct (Hex _ _ _ Hp Hd) as [H1 H2]. split; [done|].
  intros [|[|[j ->]]]%H2; [by left|by right|]. destruct Hk as [Hk|Hk]; [left; by eapply data_below_app|right; by apply (upward j)].
Qed.

Lemma exists_below_data db k : exact_but stale db k -> exists_below db k -> data_below db k \/ stale k.
Proof using Hstale.
  intros Hex (c & j & q & e & Hq & He & Hx). destruct (proj2 (Hex _ _ _ Hq He) Hx) as [H|[H|H]].
  - left. apply (data_below_app db (c :: j)), H.
  - right. by apply (upward (c :: j)).
  - apply suffix_length in H. simpl in H. rewrite length_app in H. lia.
Qed.

Lemma settled_plain db db' : plain_table db -> settled db db' -> plain_table db'.
Proof using. intros Hpl Hs c k p. rewrite (settled_names _ _ Hs). apply Hpl. Qed.

(** What is settled by hiding [k] leaves only the domains above it. *)
Lemma exact_but_hidden db db' l k p d : table_ok db -> exact_but stale db (l :: k) -> settled db db' ->
  names db !! (l :: k) = Some p -> domains db' !! p = Some d -> is_existing d = false -> domain_rrsets d = [] ->
  ~ exists_below db (l :: k) ->
  (forall q e e', domains db !! q = Some e -> domains db' !! q = Some e' -> q <> p -> is_existing e' = is_existing e) ->
  exact_but stale db' k.
Proof using.
  intros [Hdb _] Hex Hs Hp Hd Hx Hr Hno Hother ls q e Hq He. rewrite (settled_names _ _ Hs) in Hq.
  destruct (db_domain db Hdb _ _ Hq) as (e0 & He0 & _). destruct (Hex _ _ _ Hq He0) as [H1 H2].
  rewrite (settled_data db db' ls Hdb Hs). destruct (decide (q = p)) as [->|Hqp].
  - assert (e = d) as -> by congruence. rewrite Hx. split; [|done]. rewrite (db_injective db Hdb _ _ _ Hq Hp).
    rewrite <-(settled_data db db' _ Hdb Hs). intros (j & u & f & Hu & Hf & Hfr). destruct j as [|c j].
    + cbn [app] in Hu. rewrite (settled_names _ _ Hs) in Hu. congruence.
    + destruct Hno. rewrite (settled_names _ _ Hs) in Hu. destruct (db_domain db Hdb _ _ Hu) as (f0 & Hf0 & _).
      exists c, j, u, f0. split_and!; [done..|]. apply (Hex _ _ _ Hu Hf0).
      apply (settled_data db db' _ Hdb Hs). exists [], u, f. by rewrite (settled_names _ _ Hs).
  - rewrite (Hother _ _ _ He0 He Hqp). split; [done|]. intros [|[|[[|c j] Hj]]]%H2; [by left|by right; left| |].
    + simpl in Hj. subst ls. congruence.
    + injection Hj as -> ->. right. right. by exists j.
Qed.

(** Hiding [l :: k] and the pointer to it. *)
Lemma wp_hide db l k p q d (Q : unit -> namedb -> Prop) : table_ok db -> plain_table db -> exact_but stale db (l :: k) ->
  names db !! (l :: k) = Some p -> names db !! k = Some q -> domains db !! p = Some d -> domain_rrsets d = [] ->
  ~ exists_below db (l :: k) ->
  (forall db', settled db db' -> exact_but stale db' k -> Q tt db') ->
  wp (par ← get_domain q;
      if wildcard_child_closest_match par =? p then
        db ← st_get;
        w ← lift (domain_previous_existing_child db (set_not_existing d));
        w ← lift (points_to w);
        st_modify (put_domain q (set_wildcard w par))
      else mret tt) Q (put_domain p (set_not_existing d) db).
Proof using L Hstale.
  intros Hok Hpl Hex Hp Hq Hd Hr Hno HQ. pose proof Hok as [Hdb _].
  pose proof (child_ne_parent db l k p q Hdb Hp Hq) as Hpq.
  pose proof (hidden_settled db _ p d Hok Hp Hd Hno) as Hs1. set (db1 := put_domain p (set_not_existing d) db) in *.
  destruct (db_domain db Hdb _ _ Hq) as (e & He & _).
  assert (Hp1 : domains db1 !! p = Some (set_not_existing d)) by (cbn; by rewrite lookup_insert_eq).
  assert (Hq1 : domains db1 !! q = Some e) by (cbn; by rewrite lookup_insert_ne).
  assert (Hfin : forall db', settled db db' -> domains db' !! p = Some (set_not_existing d) ->
    (forall r f f', domains db !! r = Some f -> domains db' !! r = Some f' -> r <> p -> is_existing f' = is_existing f) ->
    Q tt db').
  { intros db' Hs Hp' Hother. apply HQ; [done|]. by apply (exact_but_hidden db db' l k p (set_not_existing d)). }
  wp_step. eapply wp_get_domain; [done|]. wp_step; bool_simpl.
  2:{ wp_step. apply Hfin; [done..|]. intros r f f' Hf Hf' Hrp. cbn in Hf'. rewrite lookup_insert_ne in Hf' by done. congruence. }
  destruct (wildcard_is_leaf db l k p Hdb Hpl Hp k q e Hq He) as [E|[_ ->]]; [done| |].
  { apply (f_equal length) in E. simpl in E. lia. }
  wp_step. wp_step. wp_step. apply (wp_lift _ (Some q)).
  { destruct (leaf_name db [42] k p q d Hdb Hp Hd Hq) as (_ & _ & Hpar).
    destruct (wp_previous_existing q (set_not_existing d) db1 (eq (Some q))) as (r & -> & <-); [|by eexists|done..].
    exact (previous_of_wildcard db [42] k p q d Hdb Hpl Hp Hd Hq eq_refl). }
  wp_step. apply (wp_lift _ q); [done|]. wp_step. apply Hfin.
  - eapply settled_trans; [done|].
    apply (unpointed_settled db1 k p q (set_not_existing d) e); try done. apply Hs1.
  - cbn. by rewrite lookup_insert_ne, lookup_insert_eq.
  - intros r f f' Hf Hf' Hrp. cbn in Hf'. apply lookup_insert_Some in Hf' as [[<- <-]|[_ Hf']]; [by assert (e = f) as -> by congruence|].
    rewrite lookup_insert_ne in Hf' by done. congruence.
Qed.

(** A domain that is known to have data at or below it, or need not. *)
Definition known_data (db : namedb) (ce : option Z) : Prop := forall c, ce = Some c ->
  exists k, names db !! k = Some c /\ (data_below db k \/ stale k).

Lemma known_settled db db' ce : db_ok db -> settled db db' -> known_data db ce -> known_data db' ce.
Proof using.
  intros Hdb Hs Hce c Hc. destruct (Hce c Hc) as (k & Hk & Hd). exists k.
  by rewrite (settled_names _ _ Hs), (settled_data db db' k Hdb Hs).
Qed.

Lemma known_inv db ce k p : db_ok db -> known_data db ce -> names db !! k = Some p -> Some p = ce -> data_below db k \/ stale k.
Proof using.
  intros Hdb Hce Hp E. destruct (Hce p) as (k' & Hk' & Hd); [done|]. by rewrite (db_injective db Hdb _ _ _ Hp Hk').
Qed.

(** * The check *)
Lemma wp_nonexist_steps ce fuel : forall k db p (Q : option Z -> namedb -> Prop),
  table_ok db -> plain_table db -> exact_but stale db k -> known_data db ce -> names db !! k = Some p ->
  (S (length k) < fuel)%nat ->
  (forall r db', settled db db' -> existing_upto stale db' -> known_data db' r -> Q r db') ->
  wp (st_iter fuel (nonexist_step ce) (Some p)) Q db.
Proof using L Hstale.
  induction fuel as [|fuel IH]; intros k db p Q Hok Hpl Hex Hce Hp Hlen HQ; [lia|]. pose proof Hok as [Hdb _].
  destruct (db_domain db Hdb _ _ Hp) as (d & Hd & Hdok). cbn [st_iter nonexist_step]. wp_step. wp_step.
  eapply wp_get_domain; [done|].
  assert (Hstop : data_below db k \/ stale k -> forall r, known_data db r -> Q r db).
  { intros Hk r Hr. apply HQ; [by apply settled_refl|by eapply exact_but_data|done]. }
  destruct (domain_rrsets d) as [|rs l] eqn:Hr.
  2:{ do 2 wp_step. apply Hstop; [|done]. left. exists [], p, d. rewrite Hr. by split_and!. }
  wp_step. wp_step. wp_step.
  apply (wp_mono _ (fun stop db' => db' = db /\ if (stop : bool) then data_below db k \/ stale k else ~ exists_below db k)).
  { case_bool_decide as Hc.
    - wp_step. split; [done|]. by apply (known_inv db ce k p).
    - destruct (has_data_below_spec db k p Hdb Hp) as (b & Hb & Hiff). apply (wp_lift _ b); [done|]. split; [done|].
      destruct b; [by apply exists_below_data, Hiff|]. by intros H%Hiff. }
  intros stop db' [-> Hs]. destruct stop.
  { do 2 wp_step. apply Hstop; [done|]. intros c [= <-]. by exists k. }
  do 2 wp_step. destruct k as [|l k].
  - rewrite (domain_parent _ _ _ _ Hdok). do 3 wp_step. destruct fuel as [|fuel]; [simpl in Hlen; lia|]. cbn [st_iter nonexist_step].
    do 2 wp_step. pose proof (hidden_settled db [] p d Hok Hp Hd Hs) as Hset. apply HQ; [done| |by eapply known_settled].
    intros ls q e Hq He. cbn in Hq, He. rewrite (settled_data db _ ls Hdb Hset). apply lookup_insert_Some in He as [[<- <-]|[Hne He]].
    + rewrite (db_injective db Hdb _ _ _ Hq Hp). cbn. split; [|done]. intros (j & u & f & Hu & Hf & Hfr).
      rewrite app_nil_r in Hu. destruct j as [|c j]; [congruence|]. destruct Hs. exists c, j, u, f. rewrite app_nil_r.
      split_and!; [done..|]. apply (Hex _ _ _ Hu Hf). by exists [], u, f.
    + destruct (Hex _ _ _ Hq He) as [H1 H2]. split; [done|]. intros [|[| ->%suffix_nil_inv]]%H2; [by left|by right|congruence].
  - destruct (domain_parent _ _ _ _ Hdok) as (q & Hpar & Hq). rewrite Hpar. wp_step.
    apply (wp_hide db l k p q d); try done. intros db' Hset Hbut. cbn beta. wp_step.
    apply (IH k); [apply Hset|by eapply settled_plain|done|by eapply known_settled| |simpl in Hlen; lia|].
    + by rewrite (settled_names _ _ Hset).
    + intros r db'' Hset' Hexact Hr'. apply HQ; [by eapply settled_trans|done..].
Qed.

(** After record sets of [k] have gone. *)
Lemma wp_rrset_zero_nonexist_check ce k db p (Q : option Z -> namedb -> Prop) :
  table_ok db -> plain_table db -> exact_but stale db k -> known_data db ce -> names db !! k = Some p ->
  (forall r db', settled db db' -> existing_upto stale db' -> known_data db' r -> Q r db') ->
  wp (rrset_zero_nonexist_check p ce) Q db.
Proof using L Hstale.
  intros Hok Hpl Hex Hce Hp HQ. pose proof Hok as [Hdb _].
  destruct (db_domain db Hdb _ _ Hp) as (d & Hd & Hdok). unfold rrset_zero_nonexist_check. wp_step.
  eapply wp_get_domain; [done|].
  assert (Hstop : data_below db k \/ stale k -> Q None db).
  { intros Hk. apply HQ; [by apply settled_refl|by eapply exact_but_data|done]. }
  destruct (domain_rrsets d) as [|rs l] eqn:Hr.
  2:{ wp_step. apply Hstop. left. exists [], p, d. rewrite Hr. by split_and!. }
  wp_step. wp_step. wp_step. destruct (has_data_below_spec db k p Hdb Hp) as (b & Hb & Hiff).
  apply (wp_lift _ b); [done|]. destruct b; [wp_step; by apply Hstop, exists_below_data, Hiff|].
  apply (wp_nonexist_steps ce parent_fuel k); try done.
  pose proof (name_ok_count k (domain_name_ok _ _ _ _ Hdok)). unfold zlength, parent_fuel in *. lia.
Qed.
End existing.
