(* ===== verification/DiffFind.v ===== *)
(** Finding a record (Diff.v): two records are the same when their fields are,
    a stored name in any case and an SOA record by its serial number alone;
    [find_rr_num] gives the first record that is the same. *)

From S2P Require Import Prelude Buffer Dname DnameProofs DnamePacket Dns Contents Namedb NamedbProofs NamedbTable Rdata RdataProofs Diff.

(** * When record data is the same *)

(** A field in the form that is compared. *)
Definition canonical (type : Z) (k : nat) (x : datum) : datum :=
  match x with
  | Bytes bytes =>
      if rdata_atom_is_literal_domain type (Z.of_nat k)
      then Bytes (wire (normalize (unwire (length bytes) bytes))) else x
  | Name _ => x
  end.

(** What tells the data of two records of a type apart. *)
Definition data_key (type : Z) (xs : list datum) : list datum :=
  if type =? TYPE_SOA then option_list (xs !! 2%nat) else imap (canonical type) xs.

Definition same_data (type : Z) (xs ys : list datum) : bool := bool_decide (data_key type xs = data_key type ys).

(** * Names in any case *)

Lemma wire_inj ls ls' : Forall label_ok ls -> Forall label_ok ls' -> wire ls = wire ls' -> ls = ls'.
Proof.
  intros H H' E. rewrite <-(unwire_wire ls (length (wire ls))), <-(unwire_wire ls' (length (wire ls'))); try done.
  - by rewrite E.
  - pose proof (wire_count ls' H'). unfold zlength in *. lia.
  - pose proof (wire_count ls H). unfold zlength in *. lia.
Qed.

Lemma unwire_whole ls : Forall label_ok ls -> unwire (length (wire ls)) (wire ls) = ls.
Proof.
  intros H. apply unwire_wire; [done|]. pose proof (wire_count ls H). unfold zlength in *. lia.
Qed.

Lemma dname_equal_nocase_wire ls : forall ls' fuel, Forall label_ok ls -> Forall label_ok ls' ->
  zlength (wire ls) = zlength (wire ls') -> (length (wire ls) < fuel)%nat ->
  iter fuel dname_equal_nocase_step (wire ls, wire ls', zlength (wire ls)) = Ok (bool_decide (normalize ls = normalize ls')).
Proof.
  induction ls as [|l ls IH]; intros ls' [|fuel] H H' Hlen Hf; try lia; cbn [iter dname_equal_nocase_step].
  - destruct ls' as [|l' ls']; [|rewrite zlength_wire_cons in Hlen; pose proof (zlength_wire ls');
      pose proof (zlength_nonneg l'); apply Forall_cons in H' as [[] _]; change (zlength (wire [])) with 1 in Hlen; lia].
    destruct fuel as [|fuel]; [simpl in Hf; lia|]. reflexivity.
  - pose proof (zlength_wire ls). pose proof (zlength_wire ls'). rewrite zlength_wire_cons in *.
    apply Forall_cons in H as [[Hl Hlb] H]. rewrite (proj2 (Z.ltb_lt 0 _)) by lia.
    destruct ls' as [|l' ls'].
    { cbn [wire deref mbind res_bind]. rewrite (proj2 (Z.eqb_neq _ 0)) by lia. cbn [negb]. by rewrite bool_decide_false. }
    apply Forall_cons in H' as [[Hl' Hlb'] H']. rewrite zlength_wire_cons in Hlen. pose proof (zlength_wire ls').
    cbn [wire deref mbind res_bind]. destruct (Z.eqb_spec (zlength l) (zlength l')) as [E|E]; cbn [negb].
    2:{ rewrite bool_decide_false; [done|]. intros En. apply (f_equal (fun x => zlength <$> head x)) in En.
        unfold normalize in En. cbn in En. rewrite !zlength_fmap in En. congruence. }
    cbn [drop].
    rewrite (proj1 (land_c0 (zlength l) ltac:(unfold byte; lia))), (proj2 (Z.ltb_lt _ 64)) by lia.
    cbn [negb orb]. rewrite (proj2 (Z.ltb_ge _ _)) by lia. cbn [orb].
    rewrite !drop_0, !zlength_app, <-E. rewrite !(proj2 (Z.leb_le _ _)) by lia. cbn [andb rassert mbind res_bind mret res_ret].
    assert (Hcut : forall (x : list Z) y, zlength x = zlength l ->
      zslice (x ++ y) 0 (zlength l) = x /\ drop (Z.to_nat (zlength l)) (x ++ y) = y).
    { intros x y <-. unfold zslice, zlength. cbn [Z.to_nat]. rewrite drop_0, Nat2Z.id.
      by rewrite take_app_length, drop_app_length. }
    destruct (Hcut l (wire ls) eq_refl) as [-> ->]. destruct (Hcut l' (wire ls') (eq_sym E)) as [-> ->].
    case_decide as Hc; cbn [mret res_ret].
    + replace (zlength l + 1 + zlength (wire ls) - 1 - zlength l) with (zlength (wire ls)) by lia.
      rewrite IH; [|done|done|lia|]. 2:{ simpl in Hf. rewrite length_app in Hf. lia. }
      f_equal. apply bool_decide_ext. unfold normalize. cbn. rewrite Hc. split; [congruence|by intros [= ?]].
    + rewrite bool_decide_false; [done|]. unfold normalize. cbn. intros [= E1 _]. done.
Qed.

Section find.
Context `{T : NameTree}.

Abbreviation names db := (contents (nametree db)).
Abbreviation reads db atoms xs := (Forall2 (datum_of db) atoms xs).

(** * Two fields *)

Lemma memcmp_eq a : forall b, length a = length b -> (memcmp a b (length a) =? 0) = bool_decide (a = b).
Proof using.
  induction a as [|x a IH]; intros [|y b] Hlen; try done. cbn [memcmp length].
  destruct (Z.eqb_spec x y) as [->|Hne].
  - rewrite IH by (simpl in Hlen; lia). apply bool_decide_ext. split; [congruence|by intros [= ->]].
  - rewrite bool_decide_false by congruence. apply Z.eqb_neq. lia.
Qed.

(** The shape of a field tells how it is compared. *)
Lemma field_typed_domain type k prev x : Z.of_nat k < d_maximum (rrtype_descriptor_by_type type) ->
  field_typed (format type (Z.of_nat k)) prev x ->
  rdata_atom_is_domain type (Z.of_nat k) = match x with Name _ => true | Bytes _ => false end.
Proof using.
  intros Hk. unfold rdata_atom_is_domain, format. rewrite (proj2 (Z.leb_gt _ _)) by done.
  by destruct (default _ _), x.
Qed.

Lemma field_typed_literal type k prev bytes : field_typed (format type (Z.of_nat k)) prev (Bytes bytes) ->
  rdata_atom_is_literal_domain type (Z.of_nat k) = true -> exists ls, name_ok ls /\ bytes = wire ls.
Proof using.
  unfold rdata_atom_is_literal_domain, format. destruct (_ <=? _); [done|].
  destruct (default _ _); cbn; try (by intros _ ?%bool_decide_unpack); by intros.
Qed.

Context {L : NameTreeLaws T}.

Lemma rdata_equal_spec dba dbb a b type k x y prev prev' : db_ok dba -> db_ok dbb ->
  Z.of_nat k < d_maximum (rrtype_descriptor_by_type type) ->
  field_typed (format type (Z.of_nat k)) prev x -> field_typed (format type (Z.of_nat k)) prev' y ->
  (exists f, a !! k = Some f /\ datum_of dba f x) -> (exists g, b !! k = Some g /\ datum_of dbb g y) ->
  rdata_equal dba dbb a b type k = Ok (bool_decide (canonical type k x = canonical type k y)).
Proof using.
  intros Ha Hb Hk Hx Hy (f & Hf & Hfx) (g & Hg & Hgy). unfold rdata_equal. rewrite Hf, Hg. cbn [points_to mbind res_bind].
  pose proof (field_typed_domain type k _ _ Hk Hx) as Ex. pose proof (field_typed_domain type k _ _ Hk Hy) as Ey.
  rewrite Ex. destruct x as [lx|bx], y as [ly|by_]; try congruence; destruct f as [p|bf], g as [q|bg]; try done; cbn in Hfx, Hgy; cbn [rdata_atom_domain rdata_atom_data mbind res_bind].
  - destruct (domain_lookup dba Ha _ _ Hfx) as (d & -> & [Hok Hdn _ _ _]). destruct (domain_lookup dbb Hb _ _ Hgy) as (e & -> & [Hok' Hen _ _ _]).
    cbn [mbind res_bind]. rewrite Hdn, Hen, dname_compare_spec by done. cbn [mbind res_bind mret res_ret canonical].
    f_equal. apply eq_true_iff_eq. rewrite Z.eqb_eq, bool_decide_eq_true, (cmp_eq (cmp:=name_cmp)). split; [by intros ->|by intros [= ->]].
  - subst bf bg. destruct (Z.eqb_spec (zlength bx) (zlength by_)) as [El|El]; cbn [negb].
    + unfold canonical. destruct (rdata_atom_is_literal_domain type (Z.of_nat k)) eqn:Elit.
      * destruct (field_typed_literal _ _ _ _ Hx Elit) as (l1 & [Hl1 _] & ->).
        destruct (field_typed_literal _ _ _ _ Hy Elit) as (l2 & [Hl2 _] & ->).
        unfold dname_equal_nocase. rewrite dname_equal_nocase_wire; [|done|done|done|unfold zlength; lia].
        f_equal. rewrite !unwire_whole by done. apply bool_decide_ext. split; [by intros ->|].
        intros [= E]. apply wire_inj in E; [done|..]; unfold normalize; apply Forall_fmap; (eapply Forall_impl; [done|]); intros; by apply normalize_label.
      * cbn [mret res_ret]. f_equal. rewrite memcmp_eq by (unfold zlength in El; lia). apply bool_decide_ext. split; [by intros ->|by intros [= ->]].
    + rewrite bool_decide_false; [done|]. unfold canonical. destruct (rdata_atom_is_literal_domain type (Z.of_nat k)) eqn:Elit; [|congruence].
      destruct (field_typed_literal _ _ _ _ Hx Elit) as (l1 & [Hl1 _] & ->).
      destruct (field_typed_literal _ _ _ _ Hy Elit) as (l2 & [Hl2 _] & ->). rewrite !unwire_whole by done.
      intros [= E]. apply (f_equal zlength) in E. rewrite !zlength_wire_normalize in E. done.
Qed.

(** * All fields *)
Lemma soa_length xs : rdata_typed TYPE_SOA xs -> length xs = 7%nat.
Proof using.
  intros [[H1 H2] _]. change (d_minimum _) with 7 in H1. change (d_maximum _) with 7 in H2. unfold zlength in *. lia.
Qed.

Section records.
Context (dba dbb : namedb) (type : Z) (a b : list rdata_atom) (xs ys : list datum).
Context (Ha : db_ok dba) (Hb : db_ok dbb) (Hax : reads dba a xs) (Hby : reads dbb b ys).
Context (Hx : rdata_typed type xs) (Hy : rdata_typed type ys).

Lemma rdatas_equal_from_spec n : forall k, (k + n <= length xs)%nat -> (k + n <= length ys)%nat ->
  exists e, rdatas_equal_from dba dbb a b type k n = Ok e /\
    (e = true <-> forall i x y, (k <= i < k + n)%nat -> xs !! i = Some x -> ys !! i = Some y ->
       canonical type i x = canonical type i y).
Proof using Ha Hb Hax Hby Hx Hy.
  induction n as [|n IH]; intros k Hkx Hky; cbn [rdatas_equal_from].
  { exists true. split; [done|]. split; [|done]. intros _ i x y Hi. lia. }
  destruct (lookup_lt_is_Some_2 xs k) as [x Hxk]; [lia|]. destruct (lookup_lt_is_Some_2 ys k) as [y Hyk]; [lia|].
  destruct (Forall2_lookup_r _ _ _ _ _ Hax Hxk) as (f & Hf & Hfx). destruct (Forall2_lookup_r _ _ _ _ _ Hby Hyk) as (g & Hg & Hgy).
  destruct Hx as [[_ Hmax] Htx]. destruct Hy as [_ Hty]. unfold zlength in Hmax.
  rewrite (rdata_equal_spec dba dbb a b type k x y (take k xs) (take k ys)); [|done|done|lia|by apply Htx|by apply Hty|by eexists..].
  cbn [mbind res_bind]. case_bool_decide as E.
  - destruct (IH (S k)) as (e & -> & He); [lia..|]. exists e. split; [done|]. rewrite He. split.
    + intros H i x' y' Hi Hx' Hy'. destruct (decide (i = k)) as [->|]; [congruence|]. apply H; [lia|done..].
    + intros H i x' y' Hi. apply H. lia.
  - exists false. split; [done|]. split; [done|]. intros H. destruct E. apply H; [lia|done..].
Qed.

(** The comparison never reads beyond the fields when [b] has as many as [a]. *)
Lemma rdatas_equal_spec : (length xs <= length ys)%nat ->
  exists e, rdatas_equal dba dbb a b (length a) type = Ok e /\ (length xs = length ys -> e = same_data type xs ys).
Proof using Ha Hb Hax Hby Hx Hy.
  intros Hlen. unfold rdatas_equal, same_data, data_key. destruct (Z.eqb_spec type TYPE_SOA) as [Et|Et].
  - pose proof Hx as Hx'. pose proof Hy as Hy'. rewrite Et in Hx', Hy'.
    pose proof (soa_length _ Hx'). pose proof (soa_length _ Hy'). destruct (rdatas_equal_from_spec 1 2) as (e & He & Hiff); [lia..|]. exists e. split; [done|].
    intros _. apply eq_true_iff_eq. rewrite Hiff, bool_decide_eq_true. split.
    + intros Heq. destruct (lookup_lt_is_Some_2 xs 2) as [x Hxk]; [lia|]. destruct (lookup_lt_is_Some_2 ys 2) as [y Hyk]; [lia|].
      rewrite Hxk, Hyk. cbn. f_equal. specialize (Heq 2%nat x y ltac:(lia) Hxk Hyk). rewrite Et in Heq. by destruct x, y.
    + intros E i x y Hi Hxi Hyi. assert (i = 2%nat) as -> by lia. rewrite Hxi, Hyi in E. by injection E as ->.
  - rewrite (Forall2_length _ _ _ Hax). destruct (rdatas_equal_from_spec (length xs) 0) as (e & He & Hiff); [lia..|].
    exists e. split; [done|]. intros El. apply eq_true_iff_eq. rewrite Hiff, bool_decide_eq_true. split.
    + intros H. apply list_eq. intros i. rewrite !list_lookup_imap. destruct (xs !! i) as [x|] eqn:Ex, (ys !! i) as [y|] eqn:Ey; cbn.
      * f_equal. apply (H i x y); [|done..]. apply lookup_lt_Some in Ex. lia.
      * apply lookup_lt_Some in Ex. apply lookup_ge_None in Ey. lia.
      * apply lookup_lt_Some in Ey. apply lookup_ge_None in Ex. lia.
      * done.
    + intros E i x y Hi Hxi Hyi. apply (f_equal (.!! i)) in E. rewrite !list_lookup_imap, Hxi, Hyi in E. cbn in E. congruence.
Qed.

Lemma same_data_length : same_data type xs ys = true -> length xs = length ys.
Proof using Hx Hy.
  unfold same_data, data_key. destruct (Z.eqb_spec type TYPE_SOA) as [Et|Et].
  - pose proof Hx as Hx'. pose proof Hy as Hy'. rewrite Et in Hx', Hy'.
    pose proof (soa_length _ Hx'). pose proof (soa_length _ Hy'). lia.
  - intros E%bool_decide_eq_true. apply (f_equal length) in E. by rewrite !length_imap in E.
Qed.
End records.

(** * The first record that is the same *)

(** A record of the set says [ys]. *)
Definition rr_says (db : namedb) (r : rr) (ys : list datum) : Prop :=
  reads db (rdatas r) ys /\ rdata_typed (rr_type r) ys.

Definition rr_same (type class : Z) (xs : list datum) (r : rr) (ys : list datum) : Prop :=
  rr_type r = type /\ klass r = class /\ same_data type xs ys = true.

Section find_rr.
Context (dba dbb : namedb) (type class : Z) (atoms : list rdata_atom) (xs : list datum).
Context (Ha : db_ok dba) (Hb : db_ok dbb) (Hatoms : reads dba atoms xs) (Hx : rdata_typed type xs).

Lemma find_rr_from_spec rs : forall i yss, Forall2 (rr_says dbb) rs yss ->
  exists o, find_rr_from dba dbb rs i type class atoms = Ok o /\
    match o with
    | Some n => exists m r ys, n = (i + m)%nat /\ rs !! m = Some r /\ yss !! m = Some ys /\ rr_same type class xs r ys
    | None => forall m r ys, rs !! m = Some r -> yss !! m = Some ys -> ~ rr_same type class xs r ys
    end.
Proof using Ha Hb Hatoms Hx.
  induction rs as [|r rs IH]; intros i yss Hs; cbn [find_rr_from].
  { exists None. split; [done|]. by intros m r ys Hm. }
  inversion Hs as [|? ys ? yss' [Hr Hty] Hs']; subst.
  assert (Hcase : exists same, (if (rr_type r =? type) && (klass r =? class) && (rdata_count r =? zlength atoms)
      then rdatas_equal dba dbb atoms (rdatas r) (length atoms) type else mret false) = Ok same /\
    (same = true <-> rr_same type class xs r ys)).
  { unfold rr_same. destruct (Z.eqb_spec (rr_type r) type) as [Et|Et]; cbn [andb].
    2:{ exists false. by split; [|split; [|intros (? & _)]]. }
    destruct (Z.eqb_spec (klass r) class) as [Ec|Ec]; cbn [andb].
    2:{ exists false. by split; [|split; [|intros (_ & ? & _)]]. }
    rewrite Et in Hty. unfold rdata_count, zlength. rewrite (Forall2_length _ _ _ Hr), (Forall2_length _ _ _ Hatoms).
    destruct (Z.eqb_spec (Z.of_nat (length ys)) (Z.of_nat (length xs))) as [El|El].
    - destruct (rdatas_equal_spec dba dbb type atoms (rdatas r) xs ys Ha Hb Hatoms Hr Hx Hty ltac:(lia)) as (e & He & Hiff).
      rewrite (Forall2_length _ _ _ Hatoms) in He. rewrite He. exists e. split; [done|]. rewrite Hiff by lia. naive_solver.
    - exists false. split; [done|]. split; [done|]. intros (_ & _ & E).
      apply (same_data_length _ _ _ Hx Hty) in E. lia. }
  destruct Hcase as (same & -> & Hsame). cbn [mbind res_bind]. destruct same.
  - exists (Some i). split; [done|]. exists 0%nat, r, ys. split_and!; [lia|done|done|by apply Hsame].
  - destruct (IH (S i) yss' Hs') as (o & -> & Ho). exists o. split; [done|]. destruct o as [n|].
    + destruct Ho as (m & r' & ys' & -> & H). exists (S m), r', ys'. split; [lia|exact H].
    + intros [|m] r' ys' Hm Hy; [|by eapply Ho]. cbn in Hm, Hy. simplify_eq. by intros H%Hsame.
Qed.

Lemma debug_find_rr_num_spec rs : forall yss, Forall2 (rr_says dbb) rs yss ->
  Forall (fun r => rr_type r = type /\ (length atoms <= length (rdatas r))%nat) rs ->
  debug_find_rr_num dba dbb rs type atoms = Ok tt.
Proof using Ha Hb Hatoms Hx.
  induction rs as [|r rs IH]; intros yss Hs Hlen; cbn [debug_find_rr_num]; [done|].
  inversion Hs as [|? ys ? yss' [Hr Hty] Hs']; subst. apply Forall_cons in Hlen as [[Et Hle] Hlen].
  rewrite Et in Hty. rewrite (Forall2_length _ _ _ Hatoms), (Forall2_length _ _ _ Hr) in Hle.
  destruct (rdatas_equal_spec dba dbb type atoms (rdatas r) xs ys Ha Hb Hatoms Hr Hx Hty Hle) as (e & -> & _).
  cbn [mbind res_bind]. by eapply IH.
Qed.

Lemma find_rr_num_spec rs yss add : Forall2 (rr_says dbb) (rrs rs) yss ->
  (add = false -> Forall (fun r => rr_type r = type /\ (length atoms <= length (rdatas r))%nat) (rrs rs)) ->
  exists o, find_rr_num dba dbb rs type class atoms add = Ok o /\
    match o with
    | Some n => exists r ys, rrs rs !! n = Some r /\ yss !! n = Some ys /\ rr_same type class xs r ys
    | None => forall m r ys, rrs rs !! m = Some r -> yss !! m = Some ys -> ~ rr_same type class xs r ys
    end.
Proof using Ha Hb Hatoms Hx.
  intros Hs Hlen. destruct (find_rr_from_spec (rrs rs) 0 yss Hs) as (o & Ho & Hcase).
  unfold find_rr_num. rewrite Ho. exists o. cbn [mbind res_bind]. destruct o as [n|].
  - destruct Hcase as (m & r & ys & -> & H). split; [done|]. by exists r, ys.
  - split; [|done]. destruct add; [done|]. by rewrite (debug_find_rr_num_spec _ yss Hs (Hlen eq_refl)).
Qed.
End find_rr.
End find.
