(* ===== verification/DiffStore.v ===== *)
(** What the database holds (Diff.v): the records of a zone, the invariant that
    ties record sets, domains and uses together, and how the changes of the
    domain table carry it on. *)

From S2P Require Import Prelude Buffer Dname DnameProofs DnamePacket Dns Contents Namedb NamedbProofs NamedbTable Rdata RdataProofs NamedbDelete Diff DiffExisting DiffFind.

(** A record as it is meant: names instead of pointers. *)
Record record := mkrecord {
  rec_owner : name;
  rec_type : Z;
  rec_class : Z;
  rec_ttl : Z;
  rec_data : list datum;
}.

(** What tells records apart: all but the TTL. *)
Definition record_key (x : record) : name * Z * Z * list datum :=
  (rec_owner x, rec_type x, rec_class x, data_key (rec_type x) (rec_data x)).

Lemma refs_pos q l : 0 < refs q l <-> Atom_domain q ∈ l.
Proof.
  unfold refs, zlength. rewrite <-(Nat2Z.inj_lt 0). split.
  - intros H. destruct (filter _ l) as [|a l'] eqn:E; [simpl in H; lia|].
    assert (Ha : a ∈ filter (fun a => a = Atom_domain q) l) by (rewrite E; by left).
    apply list_elem_of_filter in Ha as [-> Ha]. done.
  - intros H. assert (Ha : Atom_domain q ∈ filter (fun a => a = Atom_domain q) l) by (by apply list_elem_of_filter).
    destruct (filter _ l); [by apply elem_of_nil in Ha|simpl; lia].
Qed.

Lemma refs_nil q : refs q [] = 0.
Proof. done. Qed.

Lemma refs_zero q l : Atom_domain q ∉ l -> refs q l = 0.
Proof. intros H. pose proof (refs_bounds q l). destruct (Z.eq_dec (refs q l) 0); [done|]. destruct H. apply refs_pos. lia. Qed.

Lemma refs_perm q l l' : l ≡ₚ l' -> refs q l = refs q l'.
Proof. intros E. unfold refs, zlength. f_equal. by rewrite E. Qed.

Section store.
Context `{T : NameTree} {L : NameTreeLaws T}.
(** Names that may exist without data. *)
Context {stale : name -> Prop} {Hstale : Upward stale}.

Abbreviation names db := (contents (nametree db)).

(** * Names in place of pointers *)
Definition labels_at (db : namedb) (p : Z) : name :=
  match domains db !! p with Some d => labels_of (domain_dname d) | None => [] end.
Definition datum_at (db : namedb) (a : rdata_atom) : datum :=
  match a with Atom_domain p => Name (labels_at db p) | Atom_data bytes => Bytes bytes end.
Definition record_of (db : namedb) (r : rr) : record :=
  mkrecord (labels_at db (rr_owner r)) (rr_type r) (klass r) (ttl r) (datum_at db <$> rdatas r).

(** The records of a zone. *)
Definition zone_has (db : namedb) (z : Z) (x : record) : Prop := exists ls p d r rs y,
  names db !! ls = Some p /\ domains db !! p = Some d /\ r ∈ domain_rrsets d /\
  rrsets db !! r = Some rs /\ rrset_zone rs = z /\ y ∈ rrs rs /\ x = record_of db y.

Definition in_table (db : namedb) (q : Z) : Prop := exists ls, names db !! ls = Some q.
Definition atom_in (db : namedb) (a : rdata_atom) : Prop :=
  match a with Atom_domain q => in_table db q | Atom_data _ => True end.

Lemma labels_at_name db ls q : db_ok db -> names db !! ls = Some q -> labels_at db q = ls.
Proof using.
  intros Hdb Hq. destruct (db_domain db Hdb _ _ Hq) as (d & Hd & [Hok Hdn _ _ _]).
  unfold labels_at. by rewrite Hd, Hdn, labels_of_labels.
Qed.

Lemma datum_of_at db a x : db_ok db -> datum_of db a x <-> atom_in db a /\ datum_at db a = x.
Proof using.
  intros Hdb. destruct a as [q|bytes], x as [ls|bytes']; cbn; try naive_solver congruence. split.
  - intros Hq. split; [by exists ls|]. by rewrite (labels_at_name db ls).
  - intros [[k Hk] [= <-]]. by rewrite (labels_at_name db k).
Qed.

Lemma reads_at db atoms xs : db_ok db ->
  Forall2 (datum_of db) atoms xs <-> Forall (atom_in db) atoms /\ datum_at db <$> atoms = xs.
Proof using.
  intros Hdb. revert xs. induction atoms as [|a atoms IH]; intros xs.
  - split; [intros H; by inversion H|]. intros [_ <-]. constructor.
  - rewrite Forall_cons, fmap_cons. split.
    + intros H. inversion H as [|? x ? xs' Ha Hr]; subst. apply IH in Hr as [H1 <-].
      apply datum_of_at in Ha as [H2 <-]; [|done]. done.
    + intros [[Ha Hr] <-]. constructor; [by apply datum_of_at|by apply IH].
Qed.

(** * The invariant *)
Record rr_good (db : namedb) (p type : Z) (r : rr) : Prop := {
  good_owner : rr_owner r = p;
  good_type : rr_type r = type;
  good_range : 0 <= type < 65536;
  good_in : Forall (atom_in db) (rdatas r);
  good_typed : rdata_typed type (datum_at db <$> rdatas r);
}.

(** A record set of the domain [p], possibly without records yet. *)
Record set_good (db : namedb) (p : Z) (rs : rrset) : Prop := {
  set_length : rr_count rs <= 65535;
  set_zone : is_Some (zones db !! rrset_zone rs);
  set_type : exists type, Forall (rr_good db p type) (rrs rs);
  set_distinct : NoDup ((fun y => record_key (record_of db y)) <$> rrs rs);
}.

Definition atoms_at (db : namedb) (r : Z) : list rdata_atom :=
  match rrsets db !! r with Some rs => rrs rs ≫= rdatas | None => [] end.
Definition held (db : namedb) (att : gmap Z Z) : list rdata_atom := map_to_list att ≫= fun e => atoms_at db e.1.

(** [att] tells whose the record sets are.  Every field of a record that points
    to a domain is a use of it, and so are the root, the apexes of zones
    ([pins]) and [loans]. *)
Record store (db : namedb) (att : gmap Z Z) (pins loans : list rdata_atom) : Prop := {
  st_table : table_ok db;
  st_att ls p d : names db !! ls = Some p -> domains db !! p = Some d ->
    NoDup (domain_rrsets d) /\ forall r, r ∈ domain_rrsets d <-> att !! r = Some p;
  st_owner r p : att !! r = Some p -> in_table db p /\ exists rs, rrsets db !! r = Some rs /\ set_good db p rs;
  st_types r1 r2 p rs1 rs2 x1 x2 : att !! r1 = Some p -> att !! r2 = Some p ->
    rrsets db !! r1 = Some rs1 -> rrsets db !! r2 = Some rs2 -> rrset_zone rs1 = rrset_zone rs2 ->
    x1 ∈ rrs rs1 -> x2 ∈ rrs rs2 -> rr_type x1 = rr_type x2 -> r1 = r2;
  st_pins : Forall (atom_in db) (pins ++ loans);
  st_uses ls q d : names db !! ls = Some q -> domains db !! q = Some d ->
    refs q (held db att ++ pins ++ loans) <= usage d;
  st_root p : names db !! [] = Some p -> Atom_domain p ∈ pins;
  st_zones z a : zones db !! z = Some a ->
    (forall p, apex a = Some p -> Atom_domain p ∈ pins) /\
    (forall n, soa_nx_rrset a = Some n -> att !! n = None /\ is_Some (rrsets db !! n));
}.

Lemma elem_held db att a : a ∈ held db att <->
  exists r p rs y, att !! r = Some p /\ rrsets db !! r = Some rs /\ y ∈ rrs rs /\ a ∈ rdatas y.
Proof using.
  unfold held, atoms_at. rewrite list_elem_of_bind. split.
  - intros ([r p] & Ha & Hr%elem_of_map_to_list). cbn in Ha. destruct (rrsets db !! r) as [rs|] eqn:E; [|by apply elem_of_nil in Ha].
    apply list_elem_of_bind in Ha as (y & Ha & Hy). by exists r, p, rs, y.
  - intros (r & p & rs & y & Hr & Hrs & Hy & Ha). exists (r, p). split; [|by apply elem_of_map_to_list].
    cbn. rewrite Hrs. apply list_elem_of_bind. by exists y.
Qed.

(** All that is held or pinned is in the table. *)
Lemma held_in db att pins loans : store db att pins loans -> Forall (atom_in db) (held db att ++ pins ++ loans).
Proof using.
  intros H. apply Forall_app. split; [|apply (st_pins _ _ _ _ H)]. apply Forall_forall. intros a.
  rewrite elem_held. intros (r & p & rs & y & Hr & Hrs & Hy & Ha).
  destruct (st_owner _ _ _ _ H _ _ Hr) as (_ & rs' & Hrs' & [_ _ [type Ht] _]). assert (rs' = rs) as -> by congruence.
  rewrite Forall_forall in Ht. specialize (Ht y Hy). pose proof (good_in _ _ _ _ Ht) as Hin.
  rewrite Forall_forall in Hin. by apply Hin.
Qed.

Lemma zone_has_att db att pins loans z x : store db att pins loans ->
  zone_has db z x <-> exists r p rs y, att !! r = Some p /\ rrsets db !! r = Some rs /\ rrset_zone rs = z /\
    y ∈ rrs rs /\ x = record_of db y.
Proof using.
  intros H. split.
  - intros (ls & p & d & r & rs & y & Hp & Hd & Hr & Hrest). exists r, p, rs, y. split; [|done].
    by apply (st_att _ _ _ _ H _ _ _ Hp Hd).
  - intros (r & p & rs & y & Hr & Hrest). destruct (st_owner _ _ _ _ H _ _ Hr) as ([ls Hp] & _).
    destruct (db_domain db (proj1 (st_table _ _ _ _ H)) _ _ Hp) as (d & Hd & _). exists ls, p, d, r, rs, y.
    split_and!; [done|done| |apply Hrest..]. by apply (st_att _ _ _ _ H _ _ _ Hp Hd).
Qed.

(** * Carrying the invariant on *)

(** The domain keeps its name. *)
Definition stays (db db' : namedb) (q : Z) : Prop := forall ls, names db !! ls = Some q -> names db' !! ls = Some q.

Lemma labels_at_stays db db' q : db_ok db -> db_ok db' -> in_table db q -> stays db db' q ->
  labels_at db' q = labels_at db q /\ in_table db' q.
Proof using.
  intros Hdb Hdb' [ls Hq] Hs. pose proof (Hs _ Hq) as Hq'. rewrite (labels_at_name db' ls), (labels_at_name db ls) by done.
  split; [done|by exists ls].
Qed.

Lemma data_stays db db' atoms : db_ok db -> db_ok db' -> Forall (atom_in db) atoms ->
  (forall q, Atom_domain q ∈ atoms -> stays db db' q) ->
  datum_at db' <$> atoms = datum_at db <$> atoms /\ Forall (atom_in db') atoms.
Proof using.
  intros Hdb Hdb' Hin Hs. induction Hin as [|a atoms Ha _ IH]; [done|].
  destruct IH as [IH1 IH2]; [intros q Hq; apply Hs; by right|]. rewrite !fmap_cons, IH1. rewrite Forall_cons.
  destruct a as [q|bytes]; [|done]. cbn in *. destruct (labels_at_stays db db' q Hdb Hdb' Ha) as [-> H]; [apply Hs; by left|done].
Qed.

Lemma rr_good_stays db db' p type r : db_ok db -> db_ok db' -> in_table db p -> stays db db' p -> rr_good db p type r ->
  (forall q, Atom_domain q ∈ rdatas r -> stays db db' q) -> rr_good db' p type r /\ record_of db' r = record_of db r.
Proof using.
  intros Hdb Hdb' Hp Hsp [Ho Ht Hr Hin Hty] Hs. destruct (data_stays db db' _ Hdb Hdb' Hin Hs) as [E Hin'].
  split; [split; try done; by rewrite E|]. unfold record_of. rewrite E, Ho. f_equal. by apply labels_at_stays.
Qed.

Lemma set_good_stays db db' p rs : db_ok db -> db_ok db' -> zones db' = zones db -> in_table db p -> stays db db' p ->
  set_good db p rs -> (forall y q, y ∈ rrs rs -> Atom_domain q ∈ rdatas y -> stays db db' q) ->
  set_good db' p rs /\ forall y, y ∈ rrs rs -> record_of db' y = record_of db y.
Proof using.
  intros Hdb Hdb' Hz Hp Hsp [Hlen Hzone [type Ht] Hdist] Hs. rewrite Forall_forall in Ht.
  assert (Hall : forall y, y ∈ rrs rs -> rr_good db' p type y /\ record_of db' y = record_of db y).
  { intros y Hy. apply (rr_good_stays db db' p type y); try done; [by apply Ht|]. intros q. by apply Hs. }
  split; [split; [done|by rewrite Hz| |]|].
  - exists type. apply Forall_forall. intros y Hy. by apply Hall.
  - assert (E : (fun y => record_key (record_of db' y)) <$> rrs rs = (fun y => record_key (record_of db y)) <$> rrs rs); [|by rewrite E].
    apply list_fmap_ext. intros i y Hy. by rewrite (proj2 (Hall y ltac:(by eapply list_elem_of_lookup_2))).
  - intros y Hy. by apply Hall.
Qed.

Section transport.
Context (db db' : namedb) (att : gmap Z Z) (pins loans loans' : list rdata_atom).
Context (Hst : store db att pins loans) (Hok' : table_ok db').
Context (Hrs : rrsets db' = rrsets db) (Hzs : zones db' = zones db).

(** What is in use stays. *)
Context (Hstay : forall ls q, names db !! ls = Some q ->
  0 < refs q (held db att ++ pins ++ loans') \/ (exists r, att !! r = Some q) -> names db' !! ls = Some q).

(** A domain is an old one or holds nothing. *)
Context (Hdom : forall ls q d', names db' !! ls = Some q -> domains db' !! q = Some d' ->
  (exists d, names db !! ls = Some q /\ domains db !! q = Some d /\ domain_rrsets d' = domain_rrsets d /\
     refs q (held db att ++ pins ++ loans') <= usage d') \/
  (names db !! ls = None /\ domain_rrsets d' = [] /\ refs q loans' <= usage d')).
Context (Hloans : Forall (atom_in db') loans').

Lemma held_same : held db' att = held db att.
Proof using Hrs. unfold held, atoms_at. by rewrite Hrs. Qed.

Lemma transport_new ls q : names db' !! ls = Some q -> names db !! ls = None ->
  (forall r, att !! r <> Some q) /\ refs q (held db att ++ pins) = 0.
Proof using Hst Hok' Hstay.
  clear Hdom. intros Hq Hno. assert (Hin : in_table db q -> 0 < refs q (held db att ++ pins ++ loans') \/
    (exists r, att !! r = Some q) -> False).
  { intros [k Hk] Huse. pose proof (Hstay _ _ Hk Huse) as Hk'.
    pose proof (db_injective db' (proj1 Hok') _ _ _ Hq Hk') as ->. congruence. }
  split.
  - intros r Hr. apply Hin; [by apply (st_owner _ _ _ _ Hst r)|right; by exists r].
  - apply refs_zero. intros Ha. pose proof (held_in _ _ _ _ Hst) as Hall. rewrite app_assoc, Forall_app in Hall.
    destruct Hall as [Hall _]. rewrite Forall_forall in Hall. apply (Hin (Hall _ Ha)). left.
    apply refs_pos. rewrite app_assoc. apply elem_of_app. by left.
Qed.

Lemma transport_set r p rs : att !! r = Some p -> rrsets db !! r = Some rs ->
  in_table db' p /\ set_good db' p rs /\ forall y, y ∈ rrs rs -> record_of db' y = record_of db y.
Proof using Hst Hok' Hstay Hzs.
  clear Hdom. intros Hr Hrs'. destruct (st_owner _ _ _ _ Hst _ _ Hr) as ([ls Hp] & rs' & Hrs'' & Hgood).
  assert (rs' = rs) as -> by congruence. pose proof (Hstay _ _ Hp (or_intror (ex_intro _ r Hr))) as Hp'.
  split; [by exists ls|]. destruct (st_table _ _ _ _ Hst) as [Hdb _]. destruct Hok' as [Hdb' _].
  assert (Hsp : stays db db' p).
  { intros k Hk. by rewrite (db_injective db Hdb _ _ _ Hk Hp). }
  apply (set_good_stays db db' p rs); try done; [by exists ls|]. intros y q Hy Hq k Hk. apply Hstay; [done|left].
  apply refs_pos, elem_of_app. left. apply elem_held. by exists r, p, rs, y.
Qed.

Lemma store_transport : store db' att pins loans'.
Proof using Hst Hok' Hrs Hzs Hstay Hdom Hloans.
  pose proof (st_table _ _ _ _ Hst) as [Hdb _]. split.
  - exact Hok'.
  - intros ls p d' Hp Hd'. destruct (Hdom _ _ _ Hp Hd') as [(d & Hp0 & Hd & -> & _)|(Hno & -> & _)].
    + by apply (st_att _ _ _ _ Hst ls).
    + split; [constructor|]. intros r. rewrite elem_of_nil. destruct (transport_new _ _ Hp Hno) as [Hn _]. split; [done|apply Hn].
  - intros r p Hr. destruct (st_owner _ _ _ _ Hst _ _ Hr) as (_ & rs & Hrs' & _).
    destruct (transport_set r p rs Hr Hrs') as (H1 & H2 & _). split; [done|]. exists rs. by rewrite Hrs.
  - rewrite Hrs. apply (st_types _ _ _ _ Hst).
  - apply Forall_app. split; [|done]. pose proof (st_pins _ _ _ _ Hst) as Hpins. apply Forall_app in Hpins as [Hpins _].
    rewrite Forall_forall in Hpins |- *. intros [q|bytes] Ha; [|done]. destruct (Hpins _ Ha) as [ls Hq]. exists ls.
    apply Hstay; [done|left]. apply refs_pos. rewrite !elem_of_app. right. by left.
  - intros ls q d' Hq Hd'. rewrite held_same. destruct (Hdom _ _ _ Hq Hd') as [(d & _ & _ & _ & Hu)|(Hno & _ & Hu)]; [done|].
    destruct (transport_new _ _ Hq Hno) as [_ E]. rewrite app_assoc, refs_app, E. lia.
  - intros p Hp. destruct (db_domain db' (proj1 Hok') _ _ Hp) as (d' & Hd' & _).
    destruct (Hdom _ _ _ Hp Hd') as [(d & Hp0 & _)|(Hno & _)]; [by apply (st_root _ _ _ _ Hst)|].
    destruct (db_root db Hdb) as [q Hq]. congruence.
  - rewrite Hzs, Hrs. apply (st_zones _ _ _ _ Hst).
Qed.

Lemma transport_has z x : zone_has db' z x <-> zone_has db z x.
Proof using Hst Hok' Hrs Hzs Hstay Hdom Hloans.
  rewrite (zone_has_att db' att pins loans' z x store_transport), (zone_has_att db att pins loans z x Hst).
  split; intros (r & p & rs & y & Hr & Hrs' & Hz & Hy & ->); exists r, p, rs, y; rewrite Hrs in *; split_and!; try done;
    destruct (transport_set r p rs Hr Hrs') as (_ & _ & E); by rewrite E.
Qed.
End transport.

(** Which domains exist stays exact when those with data stay, and the flags
    are kept. *)
Lemma exact_transport db db' : db_ok db -> existing_upto stale db ->
  (forall ls q d, names db !! ls = Some q -> domains db !! q = Some d -> domain_rrsets d <> [] -> names db' !! ls = Some q) ->
  (forall ls q d', names db' !! ls = Some q -> domains db' !! q = Some d' ->
     (exists d, names db !! ls = Some q /\ domains db !! q = Some d /\ domain_rrsets d' = domain_rrsets d /\
        is_existing d' = is_existing d) \/
     (names db !! ls = None /\ domain_rrsets d' = [] /\ is_existing d' = false)) -> db_ok db' -> existing_upto stale db'.
Proof using.
  intros Hdb Hex Hkeep Hdom Hdb'.
  assert (Hiff : forall k, data_below db' k <-> data_below db k).
  { intros k. split; intros (j & q & e & Hq & He & Hr).
    - destruct (Hdom _ _ _ Hq He) as [(d & Hq0 & Hd & E & _)|(_ & E & _)]; [|congruence]. exists j, q, d. by rewrite <-E.
    - pose proof (Hkeep _ _ _ Hq He Hr) as Hq'. destruct (db_domain db' Hdb' _ _ Hq') as (e' & He' & _).
      destruct (Hdom _ _ _ Hq' He') as [(d & _ & Hd & E & _)|(Hno & _)]; [|congruence].
      exists j, q, e'. rewrite E. by assert (d = e) as -> by congruence. }
  intros ls q d' Hq Hd'. rewrite Hiff. destruct (Hdom _ _ _ Hq Hd') as [(d & Hq0 & Hd & _ & ->)|(Hno & _ & ->)].
  - by apply (Hex ls q d).
  - split; [|done]. intros (j & u & e & Hu & _). destruct (names_suffix db Hdb _ _ ls Hu) as [v Hv]; [by exists j|congruence].
Qed.

(** Loans given up are still counted. *)
Lemma store_forget db att pins loans : store db att pins loans -> store db att pins [].
Proof using.
  intros [S1 S2 S3 S4 S5 S6 S7 S8]. split; try done.
  - apply Forall_app in S5 as [S5 _]. by rewrite app_nil_r.
  - intros ls q d Hq Hd. pose proof (S6 _ _ _ Hq Hd) as Hle. rewrite !refs_app in *. rewrite refs_nil. pose proof (refs_bounds q loans). lia.
Qed.

(** ** Names read *)
Lemma store_opened db db' att pins atoms : store db att pins [] -> opened db db' atoms ->
  store db' att pins atoms /\ (forall z x, zone_has db' z x <-> zone_has db z x) /\
  (existing_upto stale db -> existing_upto stale db').
Proof using.
  intros Hst [Hok' Hn Hold Hnew Hrefs (R1 & R2 & _)]. pose proof (st_table _ _ _ _ Hst) as [Hdb _].
  assert (Hdom : forall ls q d', names db' !! ls = Some q -> domains db' !! q = Some d' ->
    (exists d, names db !! ls = Some q /\ domains db !! q = Some d /\ exists w, d' = set_usage (usage d + refs q atoms) (set_wildcard w d)) \/
    (names db !! ls = None /\ domain_rrsets d' = [] /\ is_existing d' = false /\ usage d' = refs q atoms)).
  { intros ls q d' Hq Hd'. destruct (names db !! ls) as [q0|] eqn:E.
    - left. assert (q0 = q) as -> by (pose proof (Hn _ _ E); congruence). destruct (db_domain db Hdb _ _ E) as (d & Hd & _).
      destruct (Hold _ _ _ E Hd) as [w Hw]. exists d. split_and!; [done..|]. exists w. congruence.
    - right. by destruct (Hnew _ _ _ E Hq Hd') as (? & _ & ? & ?). }
  assert (Hloans : Forall (atom_in db') atoms).
  { apply Forall_forall. intros [q|bytes] Ha; [|done]. apply Hrefs. apply refs_pos in Ha. lia. }
  assert (Hdom' : forall ls q d', names db' !! ls = Some q -> domains db' !! q = Some d' ->
    (exists d, names db !! ls = Some q /\ domains db !! q = Some d /\ domain_rrsets d' = domain_rrsets d /\
       refs q (held db att ++ pins ++ atoms) <= usage d') \/
    (names db !! ls = None /\ domain_rrsets d' = [] /\ refs q atoms <= usage d')).
  { intros ls q d' Hq Hd'. destruct (Hdom _ _ _ Hq Hd') as [(d & Hq0 & Hd & w & ->)|(? & ? & _ & ->)]; [left|right; by split_and!].
    exists d. split_and!; [done..|]. cbn. pose proof (st_uses _ _ _ _ Hst _ _ _ Hq0 Hd) as Hu. rewrite app_nil_r in Hu.
    rewrite app_assoc, refs_app. lia. }
  assert (Hstay : forall ls q, names db !! ls = Some q ->
    0 < refs q (held db att ++ pins ++ atoms) \/ (exists r, att !! r = Some q) -> names db' !! ls = Some q) by auto.
  split_and!; [by apply (store_transport db db' att pins [] atoms)|intros; by apply (transport_has db db' att pins [] atoms)|].
  intros Hex. apply (exact_transport db); try done; [eauto| |apply Hok'].
  intros ls q d' Hq Hd'. destruct (Hdom _ _ _ Hq Hd') as [(d & Hq0 & Hd & w & ->)|(? & ? & ? & _)]; [left|by right]. by exists d.
Qed.

Lemma filled_opened db db' ls : table_ok db -> filled db db' ls -> opened db db' [].
Proof using.
  intros [Hdb Hex] Hf. pose proof Hf as [Hdb' Hg _ Hempty]. split.
  - split; [done|by apply (filled_closed db db' ls)].
  - apply (grown_names _ _ Hg).
  - intros k q d Hk Hd. destruct (grown_domains _ _ Hg _ _ Hd) as (d' & Hd' & K). exists (wildcard_child_closest_match d').
    rewrite Hd', K. unfold set_usage, set_wildcard. cbn. do 2 f_equal. rewrite refs_nil. lia.
  - intros k q d Hk Hq Hd. by apply (Hempty k q d).
  - by intros q.
  - apply (grown_rest _ _ Hg).
Qed.

(** ** Uses given back *)

(** [db'] is [db] with one use less for each of the fields, and without some
    domains that are left without use. *)
Record lowered (db db' : namedb) (atoms : list rdata_atom) : Prop := {
  low_ok : table_ok db';
  low_plain : plain_table db';
  low_names ls q : names db' !! ls = Some q -> names db !! ls = Some q;
  low_gone ls q d : names db !! ls = Some q -> domains db !! q = Some d -> names db' !! ls = None ->
    domain_rrsets d = [] /\ usage d = refs q atoms;
  low_kept ls q d : names db' !! ls = Some q -> domains db !! q = Some d ->
    exists n w, domains db' !! q = Some (set_number n (set_wildcard w (set_usage (usage d - refs q atoms) d)));
  low_rest : rrsets db' = rrsets db /\ zones db' = zones db /\ zonetree db' = zonetree db;
}.

Lemma store_lowered db db' att pins atoms : store db att pins atoms -> lowered db db' atoms ->
  store db' att pins [] /\ (forall z x, zone_has db' z x <-> zone_has db z x) /\
  (existing_upto stale db -> existing_upto stale db').
Proof using.
  intros Hst [Hok' _ Hn Hgone Hkept (R1 & R2 & _)]. pose proof (st_table _ _ _ _ Hst) as [Hdb _].
  assert (Hstay : forall ls q, names db !! ls = Some q ->
    0 < refs q (held db att ++ pins ++ []) \/ (exists r, att !! r = Some q) -> names db' !! ls = Some q).
  { intros ls q Hq Huse. destruct (names db' !! ls) as [q'|] eqn:E; [apply Hn in E; congruence|]. exfalso.
    destruct (db_domain db Hdb _ _ Hq) as (d & Hd & _). destruct (Hgone _ _ _ Hq Hd E) as [Hr Hu].
    destruct Huse as [Huse|[r Hr']].
    - pose proof (st_uses _ _ _ _ Hst _ _ _ Hq Hd) as Hle. rewrite app_nil_r in Huse. rewrite app_assoc, refs_app in Hle. lia.
    - apply (st_att _ _ _ _ Hst _ _ _ Hq Hd) in Hr'. rewrite Hr in Hr'. by apply elem_of_nil in Hr'. }
  assert (Hdom : forall ls q d', names db' !! ls = Some q -> domains db' !! q = Some d' ->
    exists d, names db !! ls = Some q /\ domains db !! q = Some d /\ domain_rrsets d' = domain_rrsets d /\
      is_existing d' = is_existing d /\ usage d' = usage d - refs q atoms).
  { intros ls q d' Hq Hd'. pose proof (Hn _ _ Hq) as Hq0. destruct (db_domain db Hdb _ _ Hq0) as (d & Hd & _).
    destruct (Hkept _ _ _ Hq Hd) as (n & w & E). rewrite E in Hd'. injection Hd' as <-. by exists d. }
  assert (Hdom' : forall ls q d', names db' !! ls = Some q -> domains db' !! q = Some d' ->
    (exists d, names db !! ls = Some q /\ domains db !! q = Some d /\ domain_rrsets d' = domain_rrsets d /\
       refs q (held db att ++ pins ++ []) <= usage d') \/
    (names db !! ls = None /\ domain_rrsets d' = [] /\ refs q [] <= usage d')).
  { intros ls q d' Hq Hd'. destruct (Hdom _ _ _ Hq Hd') as (d & Hq0 & Hd & Er & _ & ->). left. exists d. split_and!; [done..|].
    pose proof (st_uses _ _ _ _ Hst _ _ _ Hq0 Hd) as Hle. rewrite app_nil_r. rewrite app_assoc, refs_app in Hle. lia. }
  split_and!; [by apply (store_transport db db' att pins atoms [])|intros; by apply (transport_has db db' att pins atoms [])|].
  intros Hex. apply (exact_transport db); try done; [| |apply Hok'].
  - intros ls q d Hq Hd Hr. destruct (domain_rrsets d) as [|r l] eqn:E; [done|]. apply Hstay; [done|]. right. exists r.
    apply (st_att _ _ _ _ Hst _ _ _ Hq Hd). rewrite E. by left.
  - intros ls q d' Hq Hd'. destruct (Hdom _ _ _ Hq Hd') as (d & Hq0 & Hd & Er & Ex & _). left. by exists d.
Qed.

Lemma pruned_lowered db db' : pruned db db' -> lowered db db' [].
Proof using.
  intros [H1 H2 H3 H4 H5 H6]. split; try done. intros ls q d Hq Hd. destruct (H5 _ _ _ Hq Hd) as (n & w & ->).
  exists n, w. unfold set_usage, set_number, set_wildcard. cbn. do 2 f_equal. rewrite refs_nil. lia.
Qed.

Lemma lowered_trans db db1 db2 l1 l2 : db_ok db -> Forall (atom_in db1) l2 ->
  lowered db db1 l1 -> lowered db1 db2 l2 -> lowered db db2 (l1 ++ l2).
Proof using.
  intros Hdb Hin [_ _ N1 G1 K1 (R1 & Z1 & T1)] [O2 P2 N2 G2 K2 (R2 & Z2 & T2)].
  split; [done|done|auto| | |by rewrite R2, Z2, T2].
  - intros ls q d Hq Hd Hno. rewrite refs_app. destruct (names db1 !! ls) as [q1|] eqn:E.
    + assert (q1 = q) as -> by (apply N1 in E; congruence). destruct (K1 _ _ _ E Hd) as (n & w & Hd1).
      destruct (G2 _ _ _ E Hd1 Hno) as [Hr Hu]. cbn in Hr, Hu. split; [done|lia].
    + destruct (G1 _ _ _ Hq Hd E) as [Hr Hu]. split; [done|]. rewrite refs_zero with (l := l2); [lia|].
      intros Ha. rewrite Forall_forall in Hin. destruct (Hin _ Ha) as [k Hk].
      pose proof (db_injective db Hdb _ _ _ Hq (N1 _ _ Hk)) as ->. congruence.
  - intros ls q d Hq Hd. destruct (K1 _ _ _ (N2 _ _ Hq) Hd) as (n & w & Hd1).
    destruct (K2 _ _ _ Hq Hd1) as (n' & w' & ->). exists n', w'. rewrite refs_app.
    unfold set_number, set_wildcard, set_usage. cbn. do 2 f_equal. lia.
Qed.

(** One use less. *)
Lemma usage_lowered db ls p d : table_ok db -> plain_table db -> names db !! ls = Some p -> domains db !! p = Some d ->
  lowered db (put_domain p (set_usage (usage d - 1) d) db) [Atom_domain p].
Proof using.
  intros Hok Hpl Hp Hd. split.
  - by apply (table_ok_put db p d).
  - exact Hpl.
  - done.
  - intros k q e Hq _ Hno. cbn in Hno. congruence.
  - intros k q e Hq He. rewrite refs_one. cbn. exists (number e), (wildcard_child_closest_match e).
    destruct (decide (p = q)) as [->|Hne].
    + rewrite lookup_insert_eq, decide_True by done. assert (e = d) as -> by congruence. by destruct d.
    + rewrite lookup_insert_ne, decide_False by congruence. rewrite He. destruct e. unfold set_usage. cbn.
      by rewrite Z.sub_0_r.
  - done.
Qed.

(** The uses that are to be given back are there, and the root keeps one. *)
Record returnable (db : namedb) (l : list rdata_atom) : Prop := {
  ret_in : Forall (atom_in db) l;
  ret_uses ls q d : names db !! ls = Some q -> domains db !! q = Some d -> refs q l <= usage d;
  ret_root p d : names db !! [] = Some p -> domains db !! p = Some d -> refs p l < usage d;
}.

Lemma returnable_lowered db db' l1 l2 : db_ok db -> returnable db (l1 ++ l2) -> lowered db db' l1 -> returnable db' l2.
Proof using.
  intros Hdb [Hin Hu Hroot] Hlow.
  assert (Hkept : forall ls q d', names db' !! ls = Some q -> domains db' !! q = Some d' ->
    exists d, names db !! ls = Some q /\ domains db !! q = Some d /\ usage d' = usage d - refs q l1).
  { intros ls q d' Hq Hd'. pose proof (low_names _ _ _ Hlow _ _ Hq) as Hq0.
    destruct (db_domain db Hdb _ _ Hq0) as (d & Hd & _). destruct (low_kept _ _ _ Hlow _ _ _ Hq Hd) as (n & w & E).
    exists d. split_and!; [done..|]. rewrite E in Hd'. by injection Hd' as <-. }
  apply Forall_app in Hin as [_ Hin]. split.
  - rewrite Forall_forall in Hin |- *. intros [q|bytes] Ha; [|done]. destruct (Hin _ Ha) as [ls Hq]. exists ls.
    destruct (names db' !! ls) as [q'|] eqn:E; [by rewrite <-(low_names _ _ _ Hlow _ _ E)|]. exfalso.
    destruct (db_domain db Hdb _ _ Hq) as (d & Hd & _). destruct (low_gone _ _ _ Hlow _ _ _ Hq Hd E) as [_ Hud].
    pose proof (Hu _ _ _ Hq Hd) as Hle. rewrite refs_app in Hle. apply refs_pos in Ha. lia.
  - intros ls q d' Hq Hd'. destruct (Hkept _ _ _ Hq Hd') as (d & Hq0 & Hd & ->).
    pose proof (Hu _ _ _ Hq0 Hd) as Hle. rewrite refs_app in Hle. lia.
  - intros p d' Hp Hd'. destruct (Hkept _ _ _ Hp Hd') as (d & Hp0 & Hd & ->).
    pose proof (Hroot _ _ Hp0 Hd) as Hle. rewrite refs_app in Hle. lia.
Qed.

(** The fields are pointers where the type says so. *)
Definition fields_fit (type : Z) (i : Z) (l : list rdata_atom) : Prop := forall k a, l !! k = Some a ->
  rdata_atom_is_domain type (i + Z.of_nat k) = match a with Atom_domain _ => true | Atom_data _ => false end.

Lemma wp_lower_usage_from type l : forall i db (Q : unit -> namedb -> Prop), fields_fit type i l ->
  table_ok db -> plain_table db -> returnable db l -> (forall db', lowered db db' l -> Q tt db') ->
  wp (lower_usage_from type i l) Q db.
Proof using L.
  induction l as [|a l IH]; intros i db Q Hfit Hok Hpl Hret HQ; cbn [lower_usage_from].
  { wp_step. apply HQ, pruned_lowered, pruned_refl; done. }
  pose proof Hok as [Hdb _]. pose proof (Hfit 0%nat a eq_refl) as Ha. rewrite Z.add_0_r in Ha.
  assert (Hfit' : fields_fit type (i + 1) l).
  { intros k b Hk. rewrite <-(Hfit (S k) b Hk). f_equal. lia. }
  assert (Hgo : forall db1, lowered db db1 [a] -> wp (lower_usage_from type (i + 1) l) Q db1).
  { intros db1 Hlow. apply IH; [done|apply Hlow|apply Hlow|by apply (returnable_lowered db db1 [a] l)|].
    intros db' Hlow'. apply HQ. apply (lowered_trans db db1 db' [a] l); try done.
    by apply (ret_in _ _ (returnable_lowered db db1 [a] l Hdb Hret Hlow)). }
  wp_step. rewrite Ha. destruct a as [p|bytes].
  2:{ wp_step. apply Hgo. split; try done; [intros ls q d Hq Hd Hno; congruence|].
      intros ls q d Hq Hd. exists (number d), (wildcard_child_closest_match d). rewrite refs_one, decide_False by done.
      rewrite Hd. destruct d. unfold set_usage. cbn. by rewrite Z.sub_0_r. }
  destruct Hret as [Hin Hu Hroot]. pose proof Hin as [[ls Hp] _]%Forall_cons. destruct (db_domain db Hdb _ _ Hp) as (d & Hd & _).
  pose proof (Hu _ _ _ Hp Hd) as Hpos. assert (Hone : refs p [Atom_domain p] = 1) by (rewrite refs_one; by rewrite decide_True).
  change (Atom_domain p :: l) with ([Atom_domain p] ++ l) in Hpos. rewrite refs_app, Hone in Hpos. pose proof (refs_bounds p l).
  wp_step. apply (wp_lift _ p); [done|]. wp_step. eapply wp_get_domain; [done|]. wp_step. apply wp_assert; [lia|].
  do 2 wp_step. pose proof (usage_lowered db ls p d Hok Hpl Hp Hd) as Hlow. wp_step; [|wp_step; by apply Hgo].
  apply (wp_domain_table_deldomain _ ls); [apply Hlow|apply Hlow| |exact Hp|].
  - intros r e Hr He. cbn in Hr, He. apply lookup_insert_Some in He as [[<- <-]|[Hne He]].
    + pose proof (Hroot p d Hr Hd) as Hlt. change (Atom_domain p :: l) with ([Atom_domain p] ++ l) in Hlt.
      rewrite refs_app, Hone in Hlt. cbn. lia.
    + pose proof (Hroot r e Hr He) as Hlt. pose proof (refs_bounds r (Atom_domain p :: l)). lia.
  - intros db' Hpr _. apply Hgo. rewrite <-(app_nil_r [Atom_domain p]).
    eapply lowered_trans; [done|constructor|done|by apply pruned_lowered].
Qed.

(** ** Other domains existing *)
Lemma store_settled db db' att pins : store db att pins [] -> settled db db' ->
  store db' att pins [] /\ (forall z x, zone_has db' z x <-> zone_has db z x).
Proof using.
  intros Hst Hs. pose proof (settled_names _ _ Hs) as Hn. pose proof Hs as [Hok' Hsame Hdom Hnew].
  pose proof (st_table _ _ _ _ Hst) as [Hdb _].
  assert (Hdom' : forall ls q d', names db' !! ls = Some q -> domains db' !! q = Some d' ->
    (exists d, names db !! ls = Some q /\ domains db !! q = Some d /\ domain_rrsets d' = domain_rrsets d /\
       refs q (held db att ++ pins ++ []) <= usage d') \/
    (names db !! ls = None /\ domain_rrsets d' = [] /\ refs q [] <= usage d')).
  { intros ls q d' Hq Hd'. rewrite Hn in Hq. destruct (db_domain db Hdb _ _ Hq) as (d & Hd & _).
    destruct (Hdom _ _ Hd) as (b & w & E). rewrite E in Hd'. injection Hd' as <-. left. exists d.
    split_and!; [done..|by destruct b|]. destruct b; apply (st_uses _ _ _ _ Hst _ _ _ Hq Hd). }
  assert (R1 : rrsets db' = rrsets db) by (by rewrite Hsame). assert (R2 : zones db' = zones db) by (by rewrite Hsame).
  split; [apply (store_transport db db' att pins [] [])|intros; apply (transport_has db db' att pins [] [])]; try done; intros; by rewrite Hn.
Qed.
End store.
