(* ===== verification/TransferSpec.v ===== *)
(** What a transfer means: the records of its messages, and what each does to
    the records of the zone.  The messages are read with the descriptions of
    names and record data of DnamePacket.v and RdataProofs.v. *)

From S2P Require Import Prelude Buffer Dname DnameProofs DnamePacket Dns Packet PacketProofs Contents Namedb NamedbProofs Rdata RdataProofs Diff DiffFind DiffStore Transfer.

(** * The records of a message *)

(** TSIG and OPT records belong to the message. *)
Definition pseudo (type : Z) : bool := (type =? TYPE_TSIG) || (type =? TYPE_OPT).

(** The record at [p], up to [q]. *)
Definition record_at (data : list Z) (limit p : Z) (x : record) (q : Z) : Prop := exists n ls r,
  pkt_name true data limit n p ls r /\ name_ok ls /\ r + 10 <= limit /\
  q = r + 10 + read_uint16 data (r + 8) /\ q <= limit /\
  rec_owner x = normalize ls /\ rec_type x = read_uint16 data r /\ rec_class x = read_uint16 data (r + 2) /\
  rec_ttl x = read_uint32 data (r + 4) /\
  if pseudo (rec_type x) then rec_data x = [] else rdata_at (rec_type x) data limit q [] (r + 10) (rec_data x).

Inductive records_at (data : list Z) (limit : Z) : Z -> list record -> Z -> Prop :=
  | records_nil p : records_at data limit p [] p
  | records_cons p x q xs r : record_at data limit p x q -> records_at data limit q xs r ->
      records_at data limit p (x :: xs) r.

(** The serial of an SOA record. *)
Definition serial_of (x : record) : Z :=
  match rec_data x !! 2%nat with Some (Bytes bytes) => read_uint32 bytes 0 | _ => 0 end.

(** * What a record does *)

(** The records of the zone, where the transfer is, and whether something in it
    was not as expected. *)
Record view := mkview { v_has : record -> Prop; v_state : xfr_state; v_soft : bool }.

Definition adds (x : record) (v v' : view) : Prop :=
  ((exists y, v_has v y /\ record_key y = record_key x) /\ v_soft v' = true /\ forall y, v_has v' y <-> v_has v y) \/
  ((forall y, v_has v y -> record_key y <> record_key x) /\ v_soft v' = v_soft v /\
     forall y, v_has v' y <-> v_has v y \/ y = x).

(** The SOA record of the zone stands for any other. *)
Definition deletes (apex_ : name) (x : record) (v v' : view) : Prop :=
  (exists y, v_has v y /\ v_soft v' = v_soft v /\ (forall y', v_has v' y' <-> v_has v y' /\ y' <> y) /\
     (record_key y = record_key x \/
      (forall y', v_has v y' -> record_key y' <> record_key x) /\ rec_type x = TYPE_SOA /\ rec_owner x = apex_ /\
        rec_type y = TYPE_SOA /\ rec_owner y = apex_)) \/
  ((forall y, v_has v y -> record_key y <> record_key x) /\ v_soft v' = true /\ (forall y, v_has v' y <-> v_has v y) /\
     ~ (rec_type x = TYPE_SOA /\ rec_owner x = apex_ /\ exists y, v_has v y /\ rec_type y = TYPE_SOA /\ rec_owner y = apex_)).

(** The second record shows a full transfer when it is not an SOA record, or
    is the first one again; the zone is emptied. *)
Definition full (serialno : Z) (x : record) : bool :=
  negb (rec_type x =? TYPE_SOA) || (serial_of x =? serialno).

Definition begun (serialno : Z) (x : record) (v : view) : view :=
  if (xfr_count (v_state v) =? 1) && full serialno x
  then mkview (fun _ => False) (mkxfr_state true false (xfr_count (v_state v))) (v_soft v) else v.

(** An SOA record of an incremental transfer ends the deletions or the
    additions. *)
Definition switched (x : record) (f : xfr_state) : xfr_state :=
  if (rec_type x =? TYPE_SOA) && negb (is_axfr f) then mkxfr_state (is_axfr f) (negb (delete_mode f)) (xfr_count f) else f.

Definition xfr_apply (apex_ : name) (last : bool) (x : record) (v v' : view) : Prop :=
  let f := switched x (v_state v) in
  v_state v' = next_count f /\
  if pseudo (rec_type x) || (delete_mode f && negb (is_axfr f) && (rec_type x =? TYPE_SOA) && last)
  then v_soft v' = v_soft v /\ forall y, v_has v' y <-> v_has v y
  else if delete_mode f then deletes apex_ x v v' else adds x v v'.

Definition xfr_step (apex_ : name) (serialno : Z) (last : bool) (x : record) (v : view) : view -> Prop :=
  xfr_apply apex_ last x (begun serialno x v).

(** An incremental transfer for a zone without an SOA record is passed over. *)
Definition xfr_skips (apex_ : name) (serialno : Z) (x : record) (v : view) : Prop :=
  xfr_count (v_state v) = 1 /\ is_axfr (v_state v) = false /\ full serialno x = false /\
  forall y, v_has v y -> ~ (rec_owner y = apex_ /\ rec_type y = TYPE_SOA).

(** A record that is to be added to a full set. *)
Definition xfr_refuses (x : record) (v : view) : Prop :=
  pseudo (rec_type x) = false /\ delete_mode (switched x (v_state v)) = false /\
  exists l, NoDup l /\ zlength l = 65535 /\
    Forall (fun y => v_has v y /\ rec_owner y = rec_owner x /\ rec_type y = rec_type x) l.

Section message.
Context (apex_ : name) (serialno : Z) (last_part : bool).

(** The records of a message, one after the other. *)
Inductive xfr_steps : list record -> view -> view -> Prop :=
  | steps_nil v : xfr_steps [] v v
  | steps_cons x xs v v1 v2 : ~ xfr_skips apex_ serialno x v ->
      xfr_step apex_ serialno (bool_decide (xs = []) && last_part) x v v1 -> xfr_steps xs v1 v2 -> xfr_steps (x :: xs) v v2.

(** The message is not read to its end: 2 when the rest is passed over, 0 when
    a set is full. *)
Inductive xfr_ends : Z -> list record -> view -> view -> Prop :=
  | ends_passed x xs v : xfr_skips apex_ serialno x v -> xfr_ends 2 (x :: xs) v v
  | ends_full x xs v v' : ~ xfr_skips apex_ serialno x v -> xfr_refuses x (begun serialno x v) -> xfr_ends 0 (x :: xs) v v'
  | ends_later code x xs v v1 v2 : ~ xfr_skips apex_ serialno x v ->
      xfr_step apex_ serialno (bool_decide (xs = []) && last_part) x v v1 -> xfr_ends code xs v1 v2 ->
      xfr_ends code (x :: xs) v v2.
End message.

(** The first message starts with the SOA record that is passed over. *)
Definition started (f : xfr_state) : xfr_state := if xfr_count f =? 0 then mkxfr_state false false 1 else f.
Definition start (v : view) : view := mkview (v_has v) (started (v_state v)) (v_soft v).

(** The messages of a transfer; [None] when it fails. *)
Inductive xfr_run (apex_ : name) (serialno : Z) : list (list record) -> view -> option view -> Prop :=
  | run_done v : xfr_run apex_ serialno [] v (Some v)
  | run_part xs xss v v1 o : xfr_steps apex_ serialno (bool_decide (xss = [])) xs (start v) v1 ->
      xfr_run apex_ serialno xss v1 o -> xfr_run apex_ serialno (xs :: xss) v o
  | run_passed xs xss v v1 : xfr_ends apex_ serialno (bool_decide (xss = [])) 2 xs (start v) v1 ->
      xfr_run apex_ serialno (xs :: xss) v (Some v1)
  | run_failed xs xss v v1 : xfr_ends apex_ serialno (bool_decide (xss = [])) 0 xs (start v) v1 ->
      xfr_run apex_ serialno (xs :: xss) v None.

(** Views with the same records. *)
#[export] Instance view_equiv : Equiv view := fun v v' =>
  v_state v = v_state v' /\ v_soft v = v_soft v' /\ forall y, v_has v y <-> v_has v' y.
#[export] Instance view_equivalence : Equivalence (≡@{view}).
Proof.
  split.
  - by intros v.
  - intros v v' (H1 & H2 & H3). by split_and!.
  - intros v1 v2 v3 (H1 & H2 & H3) (H4 & H5 & H6). split_and!; [congruence..|]. intros y. by rewrite H3.
Qed.
#[export] Instance v_has_proper : Proper ((≡) ==> (=) ==> iff) v_has.
Proof. intros v v' (_ & _ & H) y _ <-. apply H. Qed.
#[export] Instance v_soft_proper : Proper ((≡) ==> (=)) v_soft.
Proof. by intros v v' (_ & H & _). Qed.
#[export] Instance adds_proper x : Proper ((≡) ==> (=) ==> iff) (adds x).
Proof. intros v v' (_ & Hs & Hh) w _ <-. unfold adds. setoid_rewrite Hh. by rewrite Hs. Qed.
#[export] Instance deletes_proper a x : Proper ((≡) ==> (=) ==> iff) (deletes a x).
Proof. intros v v' (_ & Hs & Hh) w _ <-. unfold deletes. setoid_rewrite Hh. by rewrite Hs. Qed.
#[export] Instance xfr_apply_proper a last x : Proper ((≡) ==> (=) ==> iff) (xfr_apply a last x).
Proof.
  intros v v' H w _ <-. pose proof H as (Hf & Hs & Hh). unfold xfr_apply. rewrite Hf.
  destruct (_ || _); [by rewrite Hs; setoid_rewrite Hh|]. destruct (delete_mode _); by rewrite H.
Qed.
#[export] Instance xfr_refuses_proper x : Proper ((≡) ==> iff) (xfr_refuses x).
Proof. intros v v' (Hf & _ & Hh). unfold xfr_refuses. rewrite Hf. by setoid_rewrite Hh. Qed.
