(* ===== verification/DiffSets.v ===== *)
(** How changes of record sets carry the invariant of DiffStore.v on: records
    taken out and added, sets made and unlinked. *)

From S2P Require Import Prelude Buffer Dname DnameProofs DnamePacket Dns Contents Namedb NamedbProofs NamedbTable Rdata RdataProofs NamedbDelete Diff DiffExisting DiffFind DiffStore.

Lemma bind_ext_in {A B} (f g : A -> list B) l : (forall x, x ∈ l -> f x = g x) -> l ≫= f = l ≫= g.
Proof.
  induction l as [|x l IH]; intros H; [done|]. cbn. rewrite H by (by left). f_equal. apply IH. intros. apply H. by right.
Qed.

Section sets.
Context `{T : NameTree} {L : NameTreeLaws T}.

Abbreviation names db := (contents (nametree db)).
Abbreviation key_of db := (fun y => record_key (record_of db y)).

(** * Databases with the same domain table *)
Definition same_table (db db' : namedb) : Prop :=
  nametree db' = nametree db /\ domains db' = domains db /\ numlist db' = numlist db.

Lemma table_ok_same db db' : same_table db db' -> table_ok db -> table_ok db'.
Proof using.
  intros (N & D & U) [[H1 H2 H3 H4 H5 H6] Hex]. rewrite <-N in *. rewrite <-D in *. rewrite <-U in *. split.
  - split; try done. intros ls p Hp. destruct (H2 ls p Hp) as (d & Hd & [E1 E2 E3 E4 E5]). exists d. split; [done|].
    rewrite <-N in E4. split; try done. unfold wildcard_right in *. by rewrite <-N, <-D in E5.
  - intros k l j p q d e Hs. rewrite N, D in *. by apply (Hex k l j p q d e).
Qed.

Lemma record_of_same db db' : same_table db db' -> record_of db' = record_of db.
Proof using. intros (_ & D & _). unfold record_of, datum_at, labels_at. by rewrite D. Qed.

Lemma set_good_same db db' p rs : same_table db db' -> zones db' = zones db -> set_good db p rs -> set_good db' p rs.
Proof using.
  intros Hs Hz [H1 H2 [type H3] H4]. split; [done|by rewrite Hz| |by rewrite (record_of_same db)].
  exists type. eapply Forall_impl; [exact H3|]. intros y [G1 G2 G3 G4 G5]. destruct Hs as (N & D & _).
  split; try done; unfold atom_in, in_table, datum_at, labels_at in *; by rewrite ?N, ?D.
Qed.

(** * What is held *)
Lemma held_ext db db' att : (forall r p, att !! r = Some p -> rrsets db' !! r = rrsets db !! r) -> held db' att = held db att.
Proof using.
  intros H. unfold held. apply bind_ext_in. intros [r p] Hr%elem_of_map_to_list. unfold atoms_at. cbn. by rewrite (H _ _ Hr).
Qed.

Lemma held_insert db att r p : att !! r = None -> held db (<[r := p]> att) ≡ₚ atoms_at db r ++ held db att.
Proof using. intros H. unfold held. by rewrite map_to_list_insert. Qed.

Lemma held_split db att r p : att !! r = Some p -> held db att ≡ₚ atoms_at db r ++ held db (delete r att).
Proof using.
  intros H. rewrite <-(insert_delete_id att r p H) at 1. apply held_insert. apply lookup_delete_eq.
Qed.

Lemma held_put db att r p rs rs' : att !! r = Some p -> rrsets db !! r = Some rs ->
  held (put_rrset r rs' db) att ≡ₚ (rrs rs' ≫= rdatas) ++ held db (delete r att) /\
  held db att ≡ₚ (rrs rs ≫= rdatas) ++ held db (delete r att).
Proof using.
  intros Hr Hrs. rewrite (held_split (put_rrset r rs' db) att r p Hr), (held_split db att r p Hr).
  unfold atoms_at. cbn [put_rrset set_rrset_store rrsets]. rewrite lookup_insert_eq, Hrs. split; [|done].
  apply Permutation_app_head, reflexive_eq, held_ext. intros r' p' [Hne _]%lookup_delete_Some. cbn.
  by rewrite lookup_insert_ne.
Qed.

(** * Two records of a zone with the same key are one *)
Lemma same_owner db p q : db_ok db -> in_table db p -> in_table db q -> labels_at db p = labels_at db q -> p = q.
Proof using.
  intros Hdb [ls Hp] [k Hq]. rewrite (labels_at_name db ls), (labels_at_name db k) by done. congruence.
Qed.

Lemma sets_distinct db att pins loans r1 r2 p1 p2 rs1 rs2 x1 x2 : store db att pins loans ->
  att !! r1 = Some p1 -> att !! r2 = Some p2 -> rrsets db !! r1 = Some rs1 -> rrsets db !! r2 = Some rs2 ->
  rrset_zone rs1 = rrset_zone rs2 -> x1 ∈ rrs rs1 -> x2 ∈ rrs rs2 -> key_of db x1 = key_of db x2 ->
  r1 = r2.
Proof using.
  intros Hst H1 H2 Hr1 Hr2 Hz Hx1 Hx2 Hk. pose proof (st_table _ _ _ _ Hst) as [Hdb _].
  destruct (st_owner _ _ _ _ Hst _ _ H1) as (Hin1 & rs & E & [_ _ [t1 Ht1] _]). assert (rs = rs1) as -> by congruence.
  destruct (st_owner _ _ _ _ Hst _ _ H2) as (Hin2 & rs & E2 & [_ _ [t2 Ht2] _]). assert (rs = rs2) as -> by congruence.
  rewrite Forall_forall in Ht1, Ht2. pose proof (good_owner _ _ _ _ (Ht1 _ Hx1)) as O1. pose proof (good_owner _ _ _ _ (Ht2 _ Hx2)) as O2.
  injection Hk as Ho Hty _ _. rewrite O1, O2 in Ho. pose proof (same_owner db p1 p2 Hdb Hin1 Hin2 Ho) as ->.
  by apply (st_types _ _ _ _ Hst r1 r2 p2 rs1 rs2 x1 x2).
Qed.

Lemma zone_has_key db att pins loans z x y : store db att pins loans -> zone_has db z x -> zone_has db z y ->
  record_key x = record_key y -> x = y.
Proof using.
  intros Hst Hx Hy. rewrite (zone_has_att db att pins loans) in Hx, Hy by done.
  destruct Hx as (r1 & p1 & rs1 & x1 & H1 & Hr1 & Hz1 & Hx1 & ->). destruct Hy as (r2 & p2 & rs2 & x2 & H2 & Hr2 & Hz2 & Hx2 & ->).
  intros Hk. assert (r1 = r2) as <- by (eapply (sets_distinct db att pins loans r1 r2 p1 p2 rs1 rs2 x1 x2); congruence).
  assert (rs2 = rs1) as -> by congruence. assert (p2 = p1) as -> by congruence.
  destruct (st_owner _ _ _ _ Hst _ _ H1) as (_ & rs & E & [_ _ _ Hd]). assert (rs = rs1) as -> by congruence.
  apply list_elem_of_lookup in Hx1 as [i Hi]. apply list_elem_of_lookup in Hx2 as [j Hj].
  assert (i = j) as <-; [|congruence]. apply (NoDup_lookup _ i j (key_of db x1) Hd); rewrite list_lookup_fmap, ?Hi, ?Hj; cbn; congruence.
Qed.

(** * Another set of records in place *)
Section put_set.
Context (db : namedb) (att : gmap Z Z) (pins loans loans' : list rdata_atom) (r p : Z) (rs rs' : rrset).
Context (Hst : store db att pins loans) (Hr : att !! r = Some p) (Hrs : rrsets db !! r = Some rs).
Context (Hz : rrset_zone rs' = rrset_zone rs) (Hgood : set_good db p rs').
Context (Htypes : forall x, x ∈ rrs rs' -> (exists y, y ∈ rrs rs /\ rr_type y = rr_type x) \/
  forall r2 rs2 x2, att !! r2 = Some p -> r2 <> r -> rrsets db !! r2 = Some rs2 -> rrset_zone rs2 = rrset_zone rs ->
    x2 ∈ rrs rs2 -> rr_type x2 <> rr_type x).
Context (Hin : Forall (atom_in db) loans').
Context (Huse : forall q, refs q ((rrs rs' ≫= rdatas) ++ loans') <= refs q ((rrs rs ≫= rdatas) ++ loans)).

Lemma store_put_set : store (put_rrset r rs' db) att pins loans'.
Proof using Hst Hr Hrs Hz Hgood Htypes Hin Huse.
  split.
  - by apply (table_ok_same db), (st_table _ _ _ _ Hst).
  - exact (st_att _ _ _ _ Hst).
  - intros r2 p2 Hr2. destruct (st_owner _ _ _ _ Hst _ _ Hr2) as (H1 & rs2 & Hrs2 & H2). split; [done|]. cbn.
    destruct (decide (r2 = r)) as [->|Hne].
    + rewrite lookup_insert_eq. exists rs'. split; [done|]. assert (p2 = p) as -> by congruence. by apply (set_good_same db).
    + rewrite lookup_insert_ne by done. exists rs2. split; [done|]. by apply (set_good_same db).
  - assert (Hone : forall r2 p2 rs2 x1 x2, att !! r2 = Some p2 -> p2 = p -> r2 <> r -> rrsets db !! r2 = Some rs2 ->
      rrset_zone rs' = rrset_zone rs2 -> x1 ∈ rrs rs' -> x2 ∈ rrs rs2 -> rr_type x1 = rr_type x2 -> False).
    { intros r2 p2 rs2 x1 x2 H2 -> Hne E2 Ez Hx1 Hx2 Et. destruct (Htypes x1 Hx1) as [(y & Hy & Ey)|Hno].
      - apply Hne. symmetry. apply (st_types _ _ _ _ Hst r r2 p rs rs2 y x2); congruence.
      - apply (Hno r2 rs2 x2); congruence. }
    intros r1 r2 p' rs1 rs2 x1 x2 H1 H2 E1 E2 Ez Hx1 Hx2 Et. cbn in E1, E2.
    apply lookup_insert_Some in E1 as [[<- <-]|[Hn1 E1]]; apply lookup_insert_Some in E2 as [[<- <-]|[Hn2 E2]]; try done.
    + destruct (Hone r2 p' rs2 x1 x2); congruence.
    + destruct (Hone r1 p' rs1 x2 x1); congruence.
    + by apply (st_types _ _ _ _ Hst r1 r2 p' rs1 rs2 x1 x2).
  - pose proof (st_pins _ _ _ _ Hst) as H. apply Forall_app in H as [H _]. by apply Forall_app.
  - intros ls q d Hq Hd. pose proof (st_uses _ _ _ _ Hst ls q d Hq Hd) as Hle.
    destruct (held_put db att r p rs rs' Hr Hrs) as [P1 P2]. specialize (Huse q). rewrite !refs_app in *.
    rewrite (refs_perm q _ _ P1). rewrite (refs_perm q _ _ P2) in Hle. rewrite !refs_app in *. lia.
  - exact (st_root _ _ _ _ Hst).
  - intros z a Ha. destruct (st_zones _ _ _ _ Hst z a Ha) as [H1 H2]. split; [done|]. intros n Hn.
    destruct (H2 n Hn) as [H3 H4]. split; [done|]. cbn. rewrite lookup_insert_is_Some'. by right.
Qed.

Lemma put_set_has z x : zone_has (put_rrset r rs' db) z x <->
  (exists r2 p2 rs2 y, r2 <> r /\ att !! r2 = Some p2 /\ rrsets db !! r2 = Some rs2 /\ rrset_zone rs2 = z /\
     y ∈ rrs rs2 /\ x = record_of db y) \/
  (z = rrset_zone rs /\ exists y, y ∈ rrs rs' /\ x = record_of db y).
Proof using Hst Hr Hrs Hz Hgood Htypes Hin Huse.
  rewrite (zone_has_att _ att pins loans') by exact store_put_set. cbn. split.
  - intros (r2 & p2 & rs2 & y & H2 & E & Ez & Hy & ->). apply lookup_insert_Some in E as [[<- <-]|[Hne E]].
    + right. split; [congruence|]. by exists y.
    + left. exists r2, p2, rs2, y. by split_and!.
  - intros [(r2 & p2 & rs2 & y & Hne & H2 & E & Ez & Hy & ->)|(-> & y & Hy & ->)].
    + exists r2, p2, rs2, y. rewrite lookup_insert_ne by done. by split_and!.
    + exists r, p, rs', y. rewrite lookup_insert_eq. by split_and!.
Qed.
End put_set.

(** ** Records go *)
Lemma store_shrink db att pins r p rs rs' gone : store db att pins [] -> att !! r = Some p -> rrsets db !! r = Some rs ->
  rrset_zone rs' = rrset_zone rs -> rrs rs ≡ₚ gone ++ rrs rs' ->
  store (put_rrset r rs' db) att pins (gone ≫= rdatas) /\
  forall z x, zone_has (put_rrset r rs' db) z x <->
    zone_has db z x /\ ~ (z = rrset_zone rs /\ exists y, y ∈ gone /\ x = record_of db y).
Proof using.
  intros Hst Hr Hrs Hz Hperm. destruct (st_owner _ _ _ _ Hst _ _ Hr) as (Hp & rs0 & E & Hg). assert (rs0 = rs) as -> by congruence.
  pose proof Hg as [Hlen Hzone [type Ht] Hdist]. rewrite Hperm in Ht, Hdist.
  apply Forall_app in Ht as [Htg Ht]. rewrite fmap_app in Hdist. apply NoDup_app in Hdist as (_ & Hdisj & Hdist).
  assert (Hgood : set_good db p rs').
  { split; [|by rewrite Hz|by exists type|done]. unfold rr_count, zlength in *. apply Permutation_length in Hperm.
    rewrite length_app in Hperm. lia. }
  assert (Htypes : forall x, x ∈ rrs rs' -> (exists y, y ∈ rrs rs /\ rr_type y = rr_type x) \/
    forall r2 rs2 x2, att !! r2 = Some p -> r2 <> r -> rrsets db !! r2 = Some rs2 -> rrset_zone rs2 = rrset_zone rs ->
      x2 ∈ rrs rs2 -> rr_type x2 <> rr_type x).
  { intros x Hx. left. exists x. split; [|done]. rewrite Hperm. apply elem_of_app. by right. }
  assert (Hin : Forall (atom_in db) (gone ≫= rdatas)).
  { apply Forall_forall. intros a (y & Ha & Hy)%list_elem_of_bind. rewrite Forall_forall in Htg.
    pose proof (good_in _ _ _ _ (Htg y Hy)) as Hi. rewrite Forall_forall in Hi. by apply Hi. }
  assert (Huse : forall q, refs q ((rrs rs' ≫= rdatas) ++ gone ≫= rdatas) <= refs q ((rrs rs ≫= rdatas) ++ [])).
  { intros q. rewrite app_nil_r. apply Z.eq_le_incl, refs_perm. rewrite Hperm, bind_app. apply Permutation_app_comm. }
  split; [by apply (store_put_set db att pins [] _ r p rs)|]. intros z x.
  rewrite (put_set_has db att pins [] (gone ≫= rdatas) r p rs rs') by done.
  rewrite (zone_has_att db att pins []) by done. split.
  - intros [(r2 & p2 & rs2 & y & Hne & H2 & E2 & Ez & Hy & ->)|(-> & y & Hy & ->)].
    + split; [by exists r2, p2, rs2, y|]. intros (Ezz & y' & Hy' & Ey). apply Hne.
      apply (sets_distinct db att pins [] r2 r p2 p rs2 rs y y'); try done; [congruence| |by rewrite Ey].
      rewrite Hperm. apply elem_of_app. by left.
    + split.
      * exists r, p, rs, y. split_and!; try done. rewrite Hperm. apply elem_of_app. by right.
      * intros (_ & y' & Hy' & Ey). apply (Hdisj (key_of db y')); apply list_elem_of_fmap; [by exists y'|]. exists y. by rewrite Ey.
  - intros [(r2 & p2 & rs2 & y & H2 & E2 & Ez & Hy & ->) Hno]. destruct (decide (r2 = r)) as [->|Hne].
    + right. assert (rs2 = rs) as -> by congruence. split; [done|]. exists y. split; [|done]. rewrite Hperm in Hy.
      apply elem_of_app in Hy as [Hy|Hy]; [|done]. destruct Hno. split; [done|]. by exists y.
    + left. by exists r2, p2, rs2, y.
Qed.

(** ** One more record *)
Lemma store_append db att pins r p rs y type : store db att pins (rdatas y) -> att !! r = Some p -> rrsets db !! r = Some rs ->
  rr_count rs < 65535 -> rr_good db p type y -> Forall (fun x => rr_type x = type) (rrs rs) ->
  (rrs rs = [] -> forall r2 rs2 x2, att !! r2 = Some p -> r2 <> r -> rrsets db !! r2 = Some rs2 ->
     rrset_zone rs2 = rrset_zone rs -> x2 ∈ rrs rs2 -> rr_type x2 <> type) ->
  (forall x, x ∈ rrs rs -> key_of db x <> key_of db y) ->
  let rs' := mkrrset (rrset_zone rs) (rrs rs ++ [y]) in
  store (put_rrset r rs' db) att pins [] /\
  forall z x, zone_has (put_rrset r rs' db) z x <-> zone_has db z x \/ (z = rrset_zone rs /\ x = record_of db y).
Proof using.
  intros Hst Hr Hrs Hroom Hy Hall Hfirst Hnew rs'. destruct (st_owner _ _ _ _ Hst _ _ Hr) as (Hp & rs0 & E & Hg).
  assert (rs0 = rs) as -> by congruence. pose proof Hg as [Hlen Hzone [type0 Ht] Hdist].
  assert (Hgood : set_good db p rs').
  { split; [unfold rr_count, rs' in *; cbn [rrs]; rewrite zlength_app; change (zlength [y]) with 1; lia|done| |].
    - exists type. cbn [rrs rs']. apply Forall_app. split; [|by constructor]. rewrite Forall_forall in Ht, Hall |- *.
      intros x Hx. pose proof (Ht x Hx) as Hx'. by rewrite <-(Hall x Hx), (good_type _ _ _ _ Hx').
    - cbn [rrs rs']. rewrite fmap_app. apply NoDup_app. split_and!; [done| |apply NoDup_singleton].
      intros k (x & -> & Hx)%list_elem_of_fmap Hk%list_elem_of_singleton. by apply (Hnew x). }
  assert (Htypes : forall x, x ∈ rrs rs' -> (exists y, y ∈ rrs rs /\ rr_type y = rr_type x) \/
    forall r2 rs2 x2, att !! r2 = Some p -> r2 <> r -> rrsets db !! r2 = Some rs2 -> rrset_zone rs2 = rrset_zone rs ->
      x2 ∈ rrs rs2 -> rr_type x2 <> rr_type x).
  { intros x [Hx|Hx%list_elem_of_singleton]%elem_of_app; [left; by exists x|]. rewrite Hx, (good_type _ _ _ _ Hy).
    destruct (rrs rs) as [|x' l] eqn:El; [right; by apply Hfirst|left]. exists x'. split; [by left|].
    rewrite Forall_forall in Hall. apply Hall. by left. }
  assert (Huse : forall q, refs q ((rrs rs' ≫= rdatas) ++ []) <= refs q ((rrs rs ≫= rdatas) ++ rdatas y)).
  { intros q. cbn [rrs rs']. rewrite bind_app, app_nil_r. cbn. by rewrite app_nil_r. }
  split; [by apply (store_put_set db att pins (rdatas y) [] r p rs)|]. intros z x.
  rewrite (put_set_has db att pins (rdatas y) [] r p rs rs') by done.
  rewrite (zone_has_att db att pins (rdatas y)) by done. cbn [rrs rs']. split.
  - intros [(r2 & p2 & rs2 & x2 & Hne & H2 & E2 & Ez & Hx2 & ->)|(-> & x2 & [Hx2|Hx2%list_elem_of_singleton]%elem_of_app & ->)].
    + left. by exists r2, p2, rs2, x2.
    + left. by exists r, p, rs, x2.
    + right. by rewrite Hx2.
  - intros [(r2 & p2 & rs2 & x2 & H2 & E2 & Ez & Hx2 & ->)|(-> & ->)].
    + destruct (decide (r2 = r)) as [->|Hne]; [|left; by exists r2, p2, rs2, x2]. right.
      assert (rs2 = rs) as -> by congruence. split; [done|]. exists x2. split; [|done]. apply elem_of_app. by left.
    + right. split; [done|]. exists y. split; [|done]. apply elem_of_app. right. by left.
Qed.

(** ** Zones and sets that are not attached *)
Lemma store_put_zone db att pins loans z a a' : store db att pins loans -> zones db !! z = Some a -> apex a' = apex a ->
  (forall n, soa_nx_rrset a' = Some n -> att !! n = None /\ is_Some (rrsets db !! n)) ->
  store (put_zone z a' db) att pins loans /\ forall z' x, zone_has (put_zone z a' db) z' x <-> zone_has db z' x.
Proof using.
  intros Hst Ha Hapex Hnx. assert (Hsame : same_table db (put_zone z a' db)) by done. split; [|done].
  destruct Hst as [S1 S2 S3 S4 S5 S6 S7 S8]. split; try done.
  - by apply (table_ok_same db).
  - intros r p Hr. destruct (S3 r p Hr) as (H1 & rs & Hrs & [G1 G2 [type G3] G4]). split; [done|]. exists rs. split; [done|].
    split; [done| | |done].
    + cbn. apply lookup_insert_is_Some'. by right.
    + exists type. eapply Forall_impl; [exact G3|]. by intros y [].
  - intros z' b Hb. cbn in Hb. apply lookup_insert_Some in Hb as [[<- <-]|[_ Hb]]; [|by apply (S8 z')].
    destruct (S8 _ _ Ha) as [H1 _]. rewrite Hapex. by split.
Qed.

Lemma store_put_other db att pins loans n rs : store db att pins loans -> att !! n = None ->
  store (put_rrset n rs db) att pins loans /\ forall z x, zone_has (put_rrset n rs db) z x <-> zone_has db z x.
Proof using.
  intros Hst Hn. assert (Hsame : same_table db (put_rrset n rs db)) by done.
  assert (Hother : forall r p, att !! r = Some p -> rrsets (put_rrset n rs db) !! r = rrsets db !! r).
  { intros r p Hr. cbn. rewrite lookup_insert_ne; [done|]. intros ->. congruence. }
  assert (Hst' : store (put_rrset n rs db) att pins loans).
  { destruct Hst as [S1 S2 S3 S4 S5 S6 S7 S8]. split; try done.
    - by apply (table_ok_same db).
    - intros r p Hr. destruct (S3 r p Hr) as (H1 & rs' & Hrs & Hg). split; [done|]. exists rs'.
      rewrite (Hother r p Hr). split; [done|]. by apply (set_good_same db).
    - intros r1 r2 p rs1 rs2 x1 x2 H1 H2. rewrite (Hother r1 p H1), (Hother r2 p H2). by apply (S4 r1 r2 p).
    - intros ls q d Hq Hd. rewrite (held_ext db) by exact Hother. by apply (S6 ls).
    - intros z a Ha. destruct (S8 z a Ha) as [H1 H2]. split; [done|]. intros m Hm. destruct (H2 m Hm) as [H3 H4].
      split; [done|]. cbn. apply lookup_insert_is_Some'. by right. }
  split; [done|]. intros z x. rewrite (zone_has_att _ att pins loans) by done. rewrite (zone_has_att db att pins loans) by done.
  split; intros (r & p & rs' & y & Hr & Hrs & Hrest); exists r, p, rs', y; (split; [done|]; split; [|exact Hrest]).
  - by rewrite <-(Hother r p Hr).
  - by rewrite (Hother r p Hr).
Qed.

(** ** A set unlinked *)
Lemma elem_unlink r x l : NoDup l -> x ∈ unlink r l <-> x ∈ l /\ x <> r.
Proof using.
  induction 1 as [|y l Hy Hnd IH]; cbn [unlink]; [set_solver|]. destruct (Z.eqb_spec y r) as [->|Hne].
  - set_solver.
  - rewrite !elem_of_cons, IH. set_solver.
Qed.
Lemma nodup_unlink r l : NoDup l -> NoDup (unlink r l).
Proof using.
  induction 1 as [|y l Hy Hnd IH]; cbn [unlink]; [constructor|]. case_match; [done|]. constructor; [|done].
  rewrite elem_unlink by done. by intros [? _].
Qed.

Context {stale : name -> Prop} {Hstale : Upward stale}.

Definition detached (r p : Z) (d : domain) (db : namedb) : namedb :=
  set_rrset_store (delete r (rrsets db)) (put_domain p (set_rrsets (unlink r (domain_rrsets d)) d) db).

Lemma store_detach db att pins r ls p d rs : store db att pins [] -> att !! r = Some p -> rrsets db !! r = Some rs ->
  rrs rs = [] -> names db !! ls = Some p -> domains db !! p = Some d ->
  store (detached r p d db) (delete r att) pins [] /\ (forall z x, zone_has (detached r p d db) z x <-> zone_has db z x) /\
  (existing_upto stale db -> exact_but stale (detached r p d db) ls).
Proof using.
  intros Hst Hr Hrs Hnil Hp Hd. pose proof (st_table _ _ _ _ Hst) as Hok. pose proof Hok as [Hdb _].
  set (d' := set_rrsets (unlink r (domain_rrsets d)) d). destruct (st_att _ _ _ _ Hst _ _ _ Hp Hd) as [Hnd Hatt].
  assert (Hok' : table_ok (detached r p d db)).
  { apply (table_ok_same (put_domain p d' db)); [done|]. by apply (table_ok_put db p d). }
  assert (Hlab : forall q, labels_at (detached r p d db) q = labels_at db q).
  { intros q. unfold labels_at. cbn. destruct (decide (q = p)) as [->|]; [by rewrite lookup_insert_eq, Hd|by rewrite lookup_insert_ne]. }
  assert (Hdata : forall l : list rdata_atom, datum_at (detached r p d db) <$> l = datum_at db <$> l).
  { intros l. apply list_fmap_ext. intros _ [q|b] _; [cbn; by rewrite Hlab|done]. }
  assert (Hrec : forall y, record_of (detached r p d db) y = record_of db y).
  { intros y. unfold record_of. by rewrite Hlab, Hdata. }
  assert (Hin : forall a, atom_in (detached r p d db) a <-> atom_in db a) by done.
  assert (Hst' : store (detached r p d db) (delete r att) pins []).
  { destruct Hst as [S1 S2 S3 S4 S5 S6 S7 S8]. split; try done.
    - intros k q e Hq He. cbn in He. apply lookup_insert_Some in He as [[<- <-]|[Hne He]].
      + cbn. split; [by apply nodup_unlink|]. intros x. rewrite elem_unlink, Hatt, lookup_delete_Some by done. naive_solver.
      + destruct (S2 _ _ _ Hq He) as [H1 H2]. split; [done|]. intros x. rewrite H2, lookup_delete_Some.
        split; [|by intros [_ ?]]. intros Hx. split; [|done]. intros <-. congruence.
    - intros x q [Hne Hx]%lookup_delete_Some. destruct (S3 x q Hx) as (H1 & rs' & Hrs' & [G1 G2 [type G3] G4]). split; [done|].
      exists rs'. cbn. rewrite lookup_delete_ne by done. split; [done|]. split; [done|done| |].
      + exists type. eapply Forall_impl; [exact G3|]. intros y [F1 F2 F3 F4 F5]. split; try done. by rewrite Hdata.
      + erewrite list_fmap_ext; [exact G4|]. intros _ y _. cbn. by rewrite Hrec.
    - intros r1 r2 q rs1 rs2 x1 x2 [Hn1 H1]%lookup_delete_Some [Hn2 H2]%lookup_delete_Some. cbn.
      rewrite !lookup_delete_ne by done. by apply (S4 r1 r2 q).
    - intros k q e Hq He. assert (E : held (detached r p d db) (delete r att) = held db (delete r att)).
      { apply held_ext. intros x q' [Hne _]%lookup_delete_Some. cbn. by rewrite lookup_delete_ne. }
      rewrite E. assert (Hle : refs q (held db (delete r att) ++ pins ++ []) <= refs q (held db att ++ pins ++ [])).
      { rewrite !refs_app. rewrite (refs_perm q _ _ (held_split db att r p Hr)), refs_app. unfold atoms_at. rewrite Hrs, Hnil.
        cbn. rewrite refs_nil. lia. }
      cbn in He. apply lookup_insert_Some in He as [[<- <-]|[Hne He]]; cbn.
      + pose proof (S6 _ _ _ Hp Hd). lia.
      + pose proof (S6 _ _ _ Hq He). lia.
    - intros z a Ha. destruct (S8 z a Ha) as [H1 H2]. split; [done|]. intros n Hn. destruct (H2 n Hn) as [H3 H4].
      split; [by apply lookup_delete_None; right|]. cbn. rewrite lookup_delete_ne; [done|]. intros <-. congruence. }
  split_and!; [done| |].
  - intros z x. rewrite (zone_has_att _ (delete r att) pins []) by done. rewrite (zone_has_att db att pins []) by done.
    cbn. split.
    + intros (x' & q & rs' & y & [Hne Hx]%lookup_delete_Some & Hrs' & Hrest). rewrite lookup_delete_ne in Hrs' by done.
      exists x', q, rs', y. by rewrite <-Hrec.
    + intros (x' & q & rs' & y & Hx & Hrs' & Hz & Hy & Hrest). assert (x' <> r).
      { intros ->. assert (rs' = rs) as -> by congruence. rewrite Hnil in Hy. by apply elem_of_nil in Hy. }
      exists x', q, rs', y. rewrite !lookup_delete_ne by done. rewrite Hrec. by split_and!.
  - intros Hex k q e Hq He.
    assert (Hold : exists e0, domains db !! q = Some e0 /\ is_existing e = is_existing e0).
    { cbn in He. apply lookup_insert_Some in He as [[<- <-]|[_ He]]; [by exists d|by exists e]. }
    destruct Hold as (e0 & He0 & ->). destruct (Hex _ _ _ Hq He0) as [Hd1 Hd2]. split.
    + intros (j & u & f & Hu & Hf & Hfr). apply Hd1. cbn in Hf. apply lookup_insert_Some in Hf as [[<- <-]|[_ Hf]].
      * exists j, p, d. split_and!; [done..|]. intros E. apply Hfr. cbn. by rewrite E.
      * by exists j, u, f.
    + intros [(j & u & f & Hu & Hf & Hfr)|]%Hd2; [|right; by left]. destruct (decide (u = p)) as [->|Hup].
      * right. right. exists j. by apply (db_injective db Hdb _ _ p).
      * left. exists j, u, f. cbn. rewrite lookup_insert_ne by done. by split_and!.
Qed.

(** ** A set made *)
Lemma store_attach db db' att pins r ls p d z : store db att pins [] -> rrsets db !! r = None -> is_Some (zones db !! z) ->
  names db !! ls = Some p -> domains db !! p = Some d ->
  marked (put_domain p (set_rrsets (domain_rrsets d ++ [r]) d) (put_rrset r (mkrrset z []) db)) db' ls ->
  existing_closed db' ->
  store db' (<[r := p]> att) pins [] /\ (forall z x, zone_has db' z x <-> zone_has db z x) /\
  (existing_upto stale db -> existing_upto stale db').
Proof using.
  intros Hst Hr Hz Hp Hd (Hsame & Hdb' & Hm) Hex'. pose proof (st_table _ _ _ _ Hst) as [Hdb _].
  assert (Hrno : att !! r = None).
  { apply eq_None_not_Some. intros [q Hq]. destruct (st_owner _ _ _ _ Hst _ _ Hq) as (_ & rs & Hrs & _). congruence. }
  assert (Hn : names db' = names db) by (by rewrite Hsame).
  assert (R1 : rrsets db' = <[r := mkrrset z []]> (rrsets db)) by (by rewrite Hsame).
  assert (R2 : zones db' = zones db) by (by rewrite Hsame).
  assert (Hdom : forall k q e, names db !! k = Some q -> domains db !! q = Some e -> exists e', domains db' !! q = Some e' /\
    domain_dname e' = domain_dname e /\ usage e' = usage e /\
    domain_rrsets e' = (if decide (q = p) then domain_rrsets e ++ [r] else domain_rrsets e) /\
    is_existing e' = (bool_decide (k `suffix_of` ls) || is_existing e)).
  { intros k q e Hq He. assert (He1 : domains (put_domain p (set_rrsets (domain_rrsets d ++ [r]) d) (put_rrset r (mkrrset z []) db)) !! q =
      Some (if decide (q = p) then set_rrsets (domain_rrsets e ++ [r]) e else e)).
    { cbn. case_decide as E; [subst q; rewrite lookup_insert_eq; congruence|by rewrite lookup_insert_ne]. }
    destruct (Hm _ _ _ Hq He1) as [w Hw]. eexists. split; [exact Hw|].
    case_bool_decide; case_decide; by split_and!. }
  assert (Hstays : forall q, stays db db' q) by (intros q k; by rewrite Hn).
  assert (Hsets : forall q rs, in_table db q -> set_good db q rs -> set_good db' q rs /\
    forall y, y ∈ rrs rs -> record_of db' y = record_of db y).
  { intros q rs Hq Hg. by apply (set_good_stays db db' q rs). }
  assert (Hheld : held db' (<[r := p]> att) ≡ₚ held db att).
  { rewrite held_insert by done. unfold atoms_at at 1. rewrite R1, lookup_insert_eq. cbn. apply reflexive_eq, held_ext.
    intros x q Hx. rewrite R1, lookup_insert_ne; [done|]. intros ->. congruence. }
  assert (Hst' : store db' (<[r := p]> att) pins []).
  { destruct Hst as [S1 S2 S3 S4 S5 S6 S7 S8]. split.
    - by split.
    - intros k q e' Hq He'. rewrite Hn in Hq. destruct (db_domain db Hdb _ _ Hq) as (e & He & _).
      destruct (S2 _ _ _ Hq He) as [Hnd Hin]. destruct (Hdom _ _ _ Hq He) as (e1 & He1 & _ & _ & Er & _).
      assert (e1 = e') as -> by congruence. rewrite Er. case_decide as E.
      + subst q. split.
        * apply NoDup_app. split_and!; [done| |apply NoDup_singleton]. intros x Hx Hxr%list_elem_of_singleton. subst x.
          apply Hin in Hx. congruence.
        * intros x. rewrite elem_of_app, list_elem_of_singleton, Hin, lookup_insert. case_decide; naive_solver congruence.
      + split; [done|]. intros x. rewrite Hin, lookup_insert. case_decide; naive_solver congruence.
    - intros x q Hx. rewrite R1. unfold in_table. rewrite Hn. apply lookup_insert_Some in Hx as [[<- <-]|[Hne Hx]].
      + split; [by exists ls|]. exists (mkrrset z []). split; [apply lookup_insert_eq|].
        split; [done|by rewrite R2|by exists 0|constructor].
      + destruct (S3 x q Hx) as (Hq & rs & Hrs & Hg). split; [exact Hq|]. exists rs. rewrite lookup_insert_ne by done.
        split; [done|]. by apply Hsets.
    - intros r1 r2 q rs1 rs2 x1 x2 H1 H2. rewrite R1. intros E1 E2 Ez Hx1 Hx2 Et.
      apply lookup_insert_Some in E1 as [[<- <-]|[Hn1 E1]]; [by apply elem_of_nil in Hx1|].
      apply lookup_insert_Some in E2 as [[<- <-]|[Hn2 E2]]; [by apply elem_of_nil in Hx2|].
      rewrite !lookup_insert_ne in H1, H2 by done. by apply (S4 r1 r2 q rs1 rs2 x1 x2).
    - eapply Forall_impl; [exact S5|]. intros [q|b]; [|done]. cbn. unfold in_table. by rewrite Hn.
    - intros k q e' Hq He'. rewrite Hn in Hq. destruct (db_domain db Hdb _ _ Hq) as (e & He & _).
      destruct (Hdom _ _ _ Hq He) as (e1 & He1 & _ & Hu & _). assert (e1 = e') as -> by congruence.
      rewrite Hu, refs_app, (refs_perm q _ _ Hheld), <-refs_app. by apply (S6 k).
    - intros q. rewrite Hn. apply S7.
    - rewrite R2. intros y a Ha. destruct (S8 y a Ha) as [H1 H2]. split; [done|]. intros n Hn'. destruct (H2 n Hn') as [H3 [rs H4]].
      assert (r <> n) by congruence. by rewrite R1, !lookup_insert_ne by done. }
  split_and!; [done| |].
  - intros y x. rewrite (zone_has_att _ (<[r:=p]> att) pins []) by done. rewrite (zone_has_att db att pins []) by done. rewrite R1. split.
    + intros (x' & q & rs & y' & Hx & Hrs & Hy & Hyr & ->). apply lookup_insert_Some in Hrs as [[<- <-]|[Hne Hrs]]; [by apply elem_of_nil in Hyr|].
      rewrite lookup_insert_ne in Hx by done. exists x', q, rs, y'. split_and!; try done.
      destruct (st_owner _ _ _ _ Hst _ _ Hx) as (Hq & rs' & Hrs' & Hg). assert (rs' = rs) as -> by congruence. by apply (Hsets q rs).
    + intros (x' & q & rs & y' & Hx & Hrs & Hy & Hyr & ->). assert (r <> x') by congruence. exists x', q, rs, y'.
      rewrite !lookup_insert_ne by done. split_and!; try done.
      destruct (st_owner _ _ _ _ Hst _ _ Hx) as (Hq & rs' & Hrs' & Hg). assert (rs' = rs) as -> by congruence.
      symmetry. by apply (Hsets q rs).
  - intros Hex k q e' Hq He'. rewrite Hn in Hq. destruct (db_domain db Hdb _ _ Hq) as (e & He & _).
    destruct (Hdom _ _ _ Hq He) as (e1 & He1 & _ & _ & _ & Ex). assert (e1 = e') as -> by congruence.
    destruct (Hex _ _ _ Hq He) as [Hx1 Hx2]. rewrite Ex, orb_true_iff, bool_decide_eq_true. split.
    2:{ intros [[j ->]|[(j & u & f & Hu & Hf & Hfr)|]%Hx2]; [left|left|by right].
      * destruct (Hdom _ _ _ Hp Hd) as (d1 & Hd1 & _ & _ & Er & _). exists j, p, d1. rewrite Hn, Er, decide_True by done.
        split_and!; [done..|]. by destruct (domain_rrsets d).
      * destruct (Hdom _ _ _ Hu Hf) as (f1 & Hf1 & _ & _ & Er & _). exists j, u, f1. rewrite Hn, Er.
        split_and!; [done..|]. case_decide; [by destruct (domain_rrsets f)|done]. }
    + intros (j & u & f1 & Hu & Hf1 & Hfr). rewrite Hn in Hu. destruct (db_domain db Hdb _ _ Hu) as (f & Hf & _).
      destruct (Hdom _ _ _ Hu Hf) as (f2 & Hf2 & _ & _ & Er & _). assert (f2 = f1) as -> by congruence. rewrite Er in Hfr.
      case_decide as E; [|right; apply Hx1; by exists j, u, f]. subst u. left. exists j. by apply (db_injective db Hdb _ _ p).
Qed.
End sets.
