(* ===== verification/DiffProofs.v ===== *)
(** Theorems about the changes a zone transfer makes (Diff.v): adding and
    deleting a record does to the records of the zone what it should, and keeps
    the invariant of the database. *)

From S2P Require Import Prelude Buffer Dname DnameProofs DnamePacket Dns Contents Namedb NamedbProofs NamedbTable Rdata RdataProofs NamedbDelete Diff DiffExisting DiffFind DiffStore DiffSets.

Section diff.
Context `{T : NameTree} {L : NameTreeLaws T}.

Abbreviation names db := (contents (nametree db)).
Abbreviation key_of db := (fun y => record_key (record_of db y)).

(** * The pointers of a zone *)

(** The set of the type at the apex of the zone. *)
Definition at_apex (db : namedb) (att : gmap Z Z) (z : Z) (a : zone) (type r : Z) : Prop := exists p rs x,
  apex a = Some p /\ att !! r = Some p /\ rrsets db !! r = Some rs /\ rrset_zone rs = z /\
  x ∈ rrs rs /\ rr_type x = type.

(** A signature at the apex covers DNSKEY records. *)
Definition signed_keys (db : namedb) (att : gmap Z Z) (z : Z) (a : zone) : Prop := exists p r rs x,
  apex a = Some p /\ att !! r = Some p /\ rrsets db !! r = Some rs /\ rrset_zone rs = z /\
  x ∈ rrs rs /\ rr_rrsig_type_covered x = Ok TYPE_DNSKEY.

Record zone_right (db : namedb) (att : gmap Z Z) (z : Z) (a : zone) : Prop := {
  right_soa r : soa_rrset a = Some r <-> at_apex db att z a TYPE_SOA r;
  right_ns r : ns_rrset a = Some r <-> at_apex db att z a TYPE_NS r;
  right_secure : signed_keys db att z a -> is_secure a = true;
}.
Definition zones_right (db : namedb) (att : gmap Z Z) : Prop := forall z a,
  zones db !! z = Some a -> zone_right db att z a.

Definition nonempty (db : namedb) (att : gmap Z Z) : Prop := forall r p rs,
  att !! r = Some p -> rrsets db !! r = Some rs -> rrs rs <> [].

(** What holds between two changes; the [stale] names may exist without data. *)
Record sound (stale : name -> Prop) (db : namedb) (att : gmap Z Z) (pins : list rdata_atom) : Prop := {
  sound_store : store db att pins [];
  sound_exact : existing_upto stale db;
  sound_zones : zones_right db att;
  sound_nonempty : nonempty db att;
}.
Definition database_ok (stale : name -> Prop) (db : namedb) : Prop := exists att pins, sound stale db att pins.

Context {stale : name -> Prop} {Hstale : Upward stale}.

Lemma zone_right_ext db db' att z a : rrsets db' = rrsets db -> zone_right db att z a -> zone_right db' att z a.
Proof using.
  intros E [H1 H2 H3]. split.
  - intros r. rewrite H1. unfold at_apex. by rewrite E.
  - intros r. rewrite H2. unfold at_apex. by rewrite E.
  - intros Hs. apply H3. unfold signed_keys in *. by rewrite E in Hs.
Qed.
Lemma zones_right_ext db db' att : rrsets db' = rrsets db -> zones db' = zones db ->
  zones_right db att -> zones_right db' att.
Proof using. intros E Ez H z a Ha. rewrite Ez in Ha. by apply (zone_right_ext db), H. Qed.

(** The zones are where they were, each with its apex. *)
Definition names_within (db db' : namedb) : Prop := forall k q, names db !! k = Some q -> names db' !! k = Some q.
#[export] Instance names_within_preorder : PreOrder names_within.
Proof using. split; [by intros db k q|intros x y z H1 H2 k q H; by apply H2, H1]. Qed.
Definition zones_kept (db db' : namedb) : Prop := forall z, apex <$> zones db' !! z = apex <$> zones db !! z.

Lemma zones_kept_eq db db' : zones db' = zones db -> zones_kept db db'.
Proof using. by intros E z; rewrite E. Qed.

Lemma zones_kept_put db z a a' : zones db !! z = Some a -> apex a' = apex a -> zones_kept db (put_zone z a' db).
Proof using.
  intros Ha Hap z'. cbn. rewrite lookup_insert. case_decide as E; [|done]. subst z'. rewrite Ha. cbn. by rewrite Hap.
Qed.

(** * Fields of a record *)
Lemma good_field db p type x (i : nat) : rr_good db p type x -> Z.of_nat i < d_minimum (rrtype_descriptor_by_type type) ->
  exists a prev, rdatas x !! i = Some a /\ field_typed (format type (Z.of_nat i)) prev (datum_at db a).
Proof using.
  intros [_ _ _ _ [Hlen Hty]] Hi. rewrite zlength_fmap in Hlen. destruct (lookup_lt_is_Some_2 (rdatas x) i) as [a Ha].
  { unfold zlength in Hlen. lia. }
  exists a, (take i (datum_at db <$> rdatas x)). split; [done|]. apply Hty. by rewrite list_lookup_fmap, Ha.
Qed.

Lemma rrsig_covered db p x : rr_good db p TYPE_RRSIG x -> exists t, rr_rrsig_type_covered x = Ok t.
Proof using.
  intros Hx. destruct (good_field db p TYPE_RRSIG x 0 Hx) as (a & prev & Ha & Hty); [done|].
  change (format TYPE_RRSIG (Z.of_nat 0)) with RDATA_WF_SHORT in Hty. unfold rr_rrsig_type_covered.
  rewrite (good_type _ _ _ _ Hx), Ha. cbn [Z.eqb rassert mbind res_bind points_to]. destruct a as [q|bytes]; [done|].
  cbn in Hty |- *. rewrite Hty. cbn. by eexists.
Qed.

Lemma covers_dnskey_eq l : Forall (fun x => exists t, rr_rrsig_type_covered x = Ok t) l -> exists b, covers_dnskey l = Ok b /\
  (b = true <-> exists x, x ∈ l /\ rr_rrsig_type_covered x = Ok TYPE_DNSKEY).
Proof using.
  induction 1 as [|x l [t Ht] _ IH]; cbn [covers_dnskey].
  { exists false. split; [done|]. split; [done|]. intros (x & Hx & _). by apply elem_of_nil in Hx. }
  rewrite Ht. cbn [mbind res_bind]. destruct (Z.eqb_spec t TYPE_DNSKEY) as [->|Hne].
  - exists true. split; [done|]. split; [|done]. intros _. exists x. split; [by left|done].
  - destruct IH as (b & -> & Hb). exists b. split; [done|]. rewrite Hb. split.
    + intros (y & Hy & E). exists y. split; [by right|done].
    + intros (y & [->|Hy]%elem_of_cons & E); [congruence|by exists y].
Qed.

Lemma covers_dnskey_spec db p l : Forall (rr_good db p TYPE_RRSIG) l -> exists b, covers_dnskey l = Ok b /\
  (b = true <-> exists x, x ∈ l /\ rr_rrsig_type_covered x = Ok TYPE_DNSKEY).
Proof using. intros Hl. apply covers_dnskey_eq. eapply Forall_impl; [exact Hl|]. intros x. apply rrsig_covered. Qed.

Lemma negative_soa_ok db p x : rr_good db p TYPE_SOA x -> exists y, negative_soa x = Ok y.
Proof using.
  intros Hx. destruct (good_field db p TYPE_SOA x 6 Hx) as (a & prev & Ha & Hty); [done|].
  change (format TYPE_SOA (Z.of_nat 6)) with RDATA_WF_LONG in Hty. unfold negative_soa. rewrite Ha. cbn [mbind res_bind points_to].
  destruct a as [q|bytes]; [done|]. cbn in Hty |- *. rewrite Hty. cbn. by eexists.
Qed.

(** * Lookups *)
Lemma domain_table_find_spec db ls : db_ok db -> name_ok ls -> domain_table_find db (of_labels ls) = Ok (names db !! ls).
Proof using L.
  intros Hdb Hok. destruct (domain_table_search_spec db Hdb ls Hok)
    as (exact & m & lm & e & k & Hs & Hm & He & (Hsuf & _ & Hlong) & Hex & _).
  unfold domain_table_find. rewrite Hs. cbn. f_equal. destruct exact; [|done]. subst lm.
  assert (k = ls) as ->; [|by rewrite He]. apply (anti_symm suffix _ _ Hsuf). apply Hlong; [by exists []|by eexists].
Qed.

(** What a record set of the list is. *)
Lemma find_rrset_spec db att pins loans p z type : store db att pins loans -> nonempty db att -> forall l,
  (forall r, r ∈ l -> att !! r = Some p) ->
  exists o, find_in_rrsets db (fun r => if rrset_zone r =? z then t ← rrset_rrtype r; mret (t =? type) else mret false) l = Ok o /\
    match o with
    | Some r => r ∈ l /\ exists rs, rrsets db !! r = Some rs /\ rrset_zone rs = z /\ Forall (rr_good db p type) (rrs rs)
    | None => forall r rs x, r ∈ l -> rrsets db !! r = Some rs -> rrset_zone rs = z -> x ∈ rrs rs -> rr_type x <> type
    end.
Proof using.
  intros Hst Hne l. induction l as [|r l IH]; intros Hl; cbn [find_in_rrsets].
  { exists None. split; [done|]. intros r rs x Hr. by apply elem_of_nil in Hr. }
  pose proof (Hl r ltac:(by left)) as Hr. destruct (st_owner _ _ _ _ Hst _ _ Hr) as (_ & rs & Hrs & [_ _ [t Ht] _]).
  pose proof (Hne _ _ _ Hr Hrs) as Hnil. unfold rrset_at. rewrite Hrs. cbn [points_to mbind res_bind].
  destruct (rrs rs) as [|x0 l0] eqn:El; [done|]. pose proof Ht as [Hx0 _]%Forall_cons.
  destruct IH as (o & Ho & Hcase); [intros; apply Hl; by right|].
  assert (Hskip : (forall x, rrset_zone rs = z -> x ∈ rrs rs -> rr_type x <> type) -> exists o0,
    find_in_rrsets db (fun r => if rrset_zone r =? z then t ← rrset_rrtype r; mret (t =? type) else mret false) l = Ok o0 /\
    match o0 with
    | Some r0 => r0 ∈ r :: l /\ exists rs0, rrsets db !! r0 = Some rs0 /\ rrset_zone rs0 = z /\ Forall (rr_good db p type) (rrs rs0)
    | None => forall r0 rs0 x, r0 ∈ r :: l -> rrsets db !! r0 = Some rs0 -> rrset_zone rs0 = z -> x ∈ rrs rs0 -> rr_type x <> type
    end).
  { intros Hno. exists o. split; [done|]. destruct o as [r0|].
    - destruct Hcase as [H1 H2]. split; [by right|done].
    - intros r0 rs0 x [->|H0]%elem_of_cons E Ez Hx; [|by apply (Hcase r0 rs0)]. assert (rs0 = rs) as -> by congruence. by apply Hno. }
  destruct (Z.eqb_spec (rrset_zone rs) z) as [Ez|Ez]; [|cbn [mbind res_bind mret res_ret]; by apply Hskip].
  unfold rrset_rrtype, first_rr. rewrite El. cbn [lookup list_lookup points_to mbind res_bind mret res_ret].
  rewrite (good_type _ _ _ _ Hx0). destruct (Z.eqb_spec t type) as [->|Et].
  - exists (Some r). split; [done|]. split; [by left|]. exists rs. by rewrite El.
  - apply Hskip. intros x _ Hx. rewrite El in Hx. rewrite Forall_forall in Ht. by rewrite (good_type _ _ _ _ (Ht x Hx)).
Qed.

Lemma domain_find_rrset_spec db att pins loans ls p d z type : store db att pins loans -> nonempty db att ->
  names db !! ls = Some p -> domains db !! p = Some d ->
  exists o, domain_find_rrset db d z type = Ok o /\
    match o with
    | Some r => att !! r = Some p /\ exists rs, rrsets db !! r = Some rs /\ rrset_zone rs = z /\ Forall (rr_good db p type) (rrs rs)
    | None => forall r rs x, att !! r = Some p -> rrsets db !! r = Some rs -> rrset_zone rs = z -> x ∈ rrs rs -> rr_type x <> type
    end.
Proof using.
  intros Hst Hne Hp Hd. destruct (st_att _ _ _ _ Hst _ _ _ Hp Hd) as [_ Hatt].
  destruct (find_rrset_spec db att pins loans p z type Hst Hne (domain_rrsets d)) as (o & Ho & Hcase).
  { intros r Hr. by apply Hatt. }
  exists o. split; [done|]. destruct o as [r|].
  - destruct Hcase as [Hr H]. split; [by apply Hatt|done].
  - intros r rs x Hr. apply Hcase. by apply Hatt.
Qed.

(** * The checks of an apex record set *)
Lemma at_apex_unique db att pins loans z a type r1 r2 : store db att pins loans ->
  at_apex db att z a type r1 -> at_apex db att z a type r2 -> r1 = r2.
Proof using.
  intros Hst (p1 & rs1 & x1 & Ha1 & H1 & E1 & Z1 & Hx1 & T1) (p2 & rs2 & x2 & Ha2 & H2 & E2 & Z2 & Hx2 & T2).
  assert (p2 = p1) as -> by congruence. apply (st_types _ _ _ _ Hst r1 r2 p1 rs1 rs2 x1 x2); congruence.
Qed.

(** The pointers are right but for what the set [r] has to do with them. *)
Record right_but (db : namedb) (att : gmap Z Z) (r z : Z) (a : zone) : Prop := {
  but_soa r' : soa_rrset a = Some r' -> at_apex db att z a TYPE_SOA r';
  but_soa_back r' : at_apex db att z a TYPE_SOA r' -> r' = r \/ soa_rrset a = Some r';
  but_ns r' : ns_rrset a = Some r' -> at_apex db att z a TYPE_NS r';
  but_ns_back r' : at_apex db att z a TYPE_NS r' -> r' = r \/ ns_rrset a = Some r';
  but_secure : signed_keys db att z a -> is_secure a = true \/ exists rs x, rrsets db !! r = Some rs /\
    rrset_zone rs = z /\ apex a = att !! r /\ x ∈ rrs rs /\ rr_rrsig_type_covered x = Ok TYPE_DNSKEY;
}.

(** A pointer that has been seen to. *)
Lemma pointer_done (P : Z -> Prop) (o o' : option Z) r : (forall r1 r2, P r1 -> P r2 -> r1 = r2) ->
  (forall r', o = Some r' -> P r') -> (forall r', P r' -> r' = r \/ o = Some r') ->
  (P r /\ o' = Some r) \/ (~ P r /\ o' = o) -> forall r', o' = Some r' <-> P r'.
Proof using.
  intros Huniq H1 H2 [[Hr ->]|[Hr ->]] r'.
  - split; [by intros [= <-]|]. intros Hr'. f_equal. by apply Huniq.
  - split; [apply H1|]. intros Hr'. by destruct (H2 r' Hr') as [->|].
Qed.

Lemma right_done db att pins loans r z a a' : store db att pins loans -> right_but db att r z a -> apex a' = apex a ->
  (at_apex db att z a TYPE_SOA r /\ soa_rrset a' = Some r) \/ (~ at_apex db att z a TYPE_SOA r /\ soa_rrset a' = soa_rrset a) ->
  (at_apex db att z a TYPE_NS r /\ ns_rrset a' = Some r) \/ (~ at_apex db att z a TYPE_NS r /\ ns_rrset a' = ns_rrset a) ->
  (is_secure a = true -> is_secure a' = true) ->
  (forall rs x, rrsets db !! r = Some rs -> rrset_zone rs = z -> apex a = att !! r -> x ∈ rrs rs ->
     rr_rrsig_type_covered x = Ok TYPE_DNSKEY -> is_secure a' = true) -> zone_right db att z a'.
Proof using.
  intros Hst [B1 B2 B3 B4 B5] Ha Hsoa Hns Hsec Hcov.
  assert (Hat : forall type r', at_apex db att z a' type r' <-> at_apex db att z a type r') by (intros; unfold at_apex; by rewrite Ha).
  split.
  - intros r'. rewrite Hat. revert r'. apply (pointer_done _ (soa_rrset a) (soa_rrset a') r); [|done..].
    intros r1 r2. by apply (at_apex_unique db att pins loans).
  - intros r'. rewrite Hat. revert r'. apply (pointer_done _ (ns_rrset a) (ns_rrset a') r); [|done..].
    intros r1 r2. by apply (at_apex_unique db att pins loans).
  - intros Hs. unfold signed_keys in Hs. rewrite Ha in Hs. destruct (B5 Hs) as [H|(rs & x & H1 & H2 & H3 & H4 & H5)]; [by apply Hsec|].
    by apply (Hcov rs x).
Qed.

(** A zone the set is not at the apex of. *)
Lemma right_other db att pins loans r z a rs p : store db att pins loans -> right_but db att r z a ->
  att !! r = Some p -> rrsets db !! r = Some rs -> rrset_zone rs <> z \/ apex a <> Some p -> zone_right db att z a.
Proof using.
  intros Hst Hbut Hr Hrs Hno.
  assert (Hat : forall type, ~ at_apex db att z a type r).
  { intros type (p' & rs' & x & H1 & H2 & H3 & H4 & _). destruct Hno; congruence. }
  apply (right_done db att pins loans r z a a Hst Hbut); try done; [by right|by right|].
  intros rs' x H1 H2 H3. destruct Hno; congruence.
Qed.

Section checks.
Context (db : namedb) (att : gmap Z Z) (pins : list rdata_atom) (r p z type : Z) (rs : rrset) (a : zone).
Context (Hst : store db att pins []) (Hex : existing_upto stale db) (Hne : nonempty db att).
Context (Hbut : forall z' a', zones db !! z' = Some a' -> right_but db att r z' a').
Context (Hr : att !! r = Some p) (Hrs : rrsets db !! r = Some rs) (Hz : rrset_zone rs = z).
Context (Hgood : Forall (rr_good db p type) (rrs rs)) (Ha : zones db !! z = Some a) (Hapex : apex a = Some p).

Lemma set_at_apex type' : at_apex db att z a type' r <-> type' = type.
Proof using Hne Hr Hrs Hz Hgood Hapex.
  rewrite Forall_forall in Hgood. split.
  - intros (p' & rs' & x & _ & _ & E & _ & Hx & <-). assert (rs' = rs) as -> by congruence.
    apply (good_type _ _ _ _ (Hgood x Hx)).
  - intros ->. pose proof (Hne _ _ _ Hr Hrs) as Hnil. destruct (rrs rs) as [|x l] eqn:E; [done|].
    assert (Hx : x ∈ rrs rs) by (rewrite E; by left). rewrite <-E in *. exists p, rs, x. split_and!; try done.
    apply (good_type _ _ _ _ (Hgood x Hx)).
Qed.

(** The zone as the checks leave it. *)
Lemma checked a' : apex a' = apex a -> (forall n, soa_nx_rrset a' = Some n -> att !! n = None /\ is_Some (rrsets db !! n)) ->
  soa_rrset a' = (if type =? TYPE_SOA then Some r else soa_rrset a) ->
  ns_rrset a' = (if type =? TYPE_NS then Some r else ns_rrset a) -> (is_secure a = true -> is_secure a' = true) ->
  (forall x, x ∈ rrs rs -> rr_rrsig_type_covered x = Ok TYPE_DNSKEY -> is_secure a' = true) ->
  sound stale (put_zone z a' db) att pins /\ forall z' x, zone_has (put_zone z a' db) z' x <-> zone_has db z' x.
Proof using Hst Hex Hne Hbut Hr Hrs Hz Hgood Ha Hapex.
  intros Hap Hnx Hsoa Hns Hsec Hcov. destruct (store_put_zone db att pins [] z a a' Hst Ha Hap Hnx) as [Hst' Hhas].
  split; [|done]. split; [done|done| |done]. intros z' b Hb. apply (zone_right_ext db); [done|]. cbn in Hb.
  apply lookup_insert_Some in Hb as [[<- <-]|[Hzz Hb]].
  - apply (right_done db att pins [] r z a a' Hst (Hbut _ _ Ha) Hap); [| |done|].
    + rewrite set_at_apex, Hsoa. destruct (Z.eqb_spec type TYPE_SOA) as [->|]; [by left|right; by split; [congruence|]].
    + rewrite set_at_apex, Hns. destruct (Z.eqb_spec type TYPE_NS) as [->|]; [by left|right; by split; [congruence|]].
    + intros rs' x E _ _ Hx Hc. assert (rs' = rs) as -> by congruence. by apply (Hcov x).
  - apply (right_other db att pins [] r z' b rs p); try done; [by apply Hbut|left; congruence].
Qed.

End checks.

(** The record set of negative answers is no part of this. *)
Lemma right_but_put_other db att r z a n rs : att !! n = None -> is_Some (att !! r) ->
  right_but db att r z a -> right_but (put_rrset n rs db) att r z a.
Proof using.
  intros Hn [p Hr]. assert (Hother : forall r' q, att !! r' = Some q -> rrsets (put_rrset n rs db) !! r' = rrsets db !! r').
  { intros r' q H. cbn. rewrite lookup_insert_ne; [done|]. intros ->. congruence. }
  assert (Hat : forall type r', at_apex (put_rrset n rs db) att z a type r' <-> at_apex db att z a type r').
  { intros type r'. split; intros (q & rs' & x & H1 & H2 & H3 & Hrest); exists q, rs', x;
      [rewrite (Hother _ _ H2) in H3|rewrite (Hother _ _ H2)]; exact (conj H1 (conj H2 (conj H3 Hrest))). }
  intros [B1 B2 B3 B4 B5]. split; [intros r'; rewrite Hat; by auto..|].
  intros (q & r' & rs' & x & H1 & H2 & H3 & Hrest). rewrite (Hother _ _ H2) in H3.
  rewrite (Hother _ _ Hr). apply B5. by exists q, r', rs', x.
Qed.

Lemma wp_apex_rrset_checks db att pins r p z type rs a (Q : unit -> namedb -> Prop) :
  store db att pins [] -> existing_upto stale db -> nonempty db att ->
  (forall z' a', zones db !! z' = Some a' -> right_but db att r z' a') -> att !! r = Some p -> rrsets db !! r = Some rs ->
  rrset_zone rs = z -> Forall (rr_good db p type) (rrs rs) -> zones db !! z = Some a -> apex a = Some p ->
  (forall db', sound stale db' att pins -> (forall z' x, zone_has db' z' x <-> zone_has db z' x) -> same_table db db' ->
     zones_kept db db' -> Q tt db') ->
  wp (apex_rrset_checks r p) Q db.
Proof using.
  intros Hst Hex Hne Hbut Hr Hrs Hz Hgood Ha Hapex HQ. pose proof (Hne _ _ _ Hr Hrs) as Hnil.
  assert (Hx0 : exists x0, rrs rs !! 0%nat = Some x0 /\ rr_good db p type x0).
  { destruct (rrs rs) as [|x0 l]; [done|]. apply Forall_cons in Hgood as [H _]. by exists x0. }
  destruct Hx0 as (x0 & Hx0 & Hg0). destruct (st_zones _ _ _ _ Hst z a Ha) as [_ Hold].
  assert (Hcov : forall x, x ∈ rrs rs -> rr_rrsig_type_covered x = Ok TYPE_DNSKEY -> type = TYPE_RRSIG).
  { intros x Hx Hc. rewrite Forall_forall in Hgood. rewrite <-(good_type _ _ _ _ (Hgood x Hx)).
    unfold rr_rrsig_type_covered in Hc. destruct (Z.eqb_spec (rr_type x) TYPE_RRSIG); [done|]. by cbn in Hc. }
  assert (Hdone : forall a', sound stale (put_zone z a' db) att pins /\ (forall z' x, zone_has (put_zone z a' db) z' x <-> zone_has db z' x) ->
    apex a' = apex a -> Q tt (put_zone z a' db)) by (intros a' [H1 H2] E; apply HQ; [done..|by apply (zones_kept_put db z a)]).
  assert (Hsame : sound stale (put_zone z a db) att pins /\ (forall z' x, zone_has (put_zone z a db) z' x <-> zone_has db z' x) -> Q tt db).
  { assert (put_zone z a db = db) as ->; [|intros []; apply HQ; done]. unfold put_zone. rewrite insert_id by done. by destruct db. }
  unfold apex_rrset_checks, get_rrset, get_zone. wp_step. wp_step. wp_step. apply (wp_lift _ rs); [unfold rrset_at; by rewrite Hrs|].
  rewrite Hz. wp_step. wp_step. wp_step. apply (wp_lift _ a); [unfold zone_at; by rewrite Ha|].
  wp_step. apply wp_assert; [by apply bool_decide_eq_true|]. wp_step.
  apply (wp_lift _ type). { unfold rrset_rrtype, first_rr. rewrite Hx0. cbn. by rewrite (good_type _ _ _ _ Hg0). }
  destruct (Z.eqb_spec type TYPE_SOA) as [->|Hsoa]; [|destruct (Z.eqb_spec type TYPE_NS) as [->|Hns];
    [|destruct (Z.eqb_spec type TYPE_RRSIG) as [->|Hsig]]].
  - wp_step. apply (wp_lift _ x0); [unfold first_rr; by rewrite Hx0|]. wp_step.
    destruct (negative_soa_ok db p x0 Hg0) as [y Hy]. apply (wp_lift _ y); [done|]. wp_step. wp_step.
    set (nx := default (allocate (rrsets db)) (soa_nx_rrset a)). assert (Hnx : att !! nx = None).
    { unfold nx. destruct (soa_nx_rrset a) as [n|] eqn:En; cbn; [by apply (Hold n)|]. apply eq_None_not_Some. intros [q Hq].
      destruct (st_owner _ _ _ _ Hst _ _ Hq) as (_ & rs' & E & _). by rewrite allocate_fresh in E. }
    assert (Hnr : nx <> r) by congruence. set (nxs := mkrrset z [y]).
    destruct (store_put_other db att pins [] nx nxs Hst Hnx) as [Hst1 Hhas1].
    do 3 wp_step. set (db1 := put_rrset nx nxs db) in *.
    assert (Hsame1 : same_table db db1) by done.
    destruct (checked db1 att pins r p z TYPE_SOA rs a) with (a' := set_soa_nx (Some nx) (set_soa (Some r) a)) as [H1 H2]; try done.
    + intros r' q rs' H E. cbn in E. rewrite lookup_insert_ne in E by congruence. by apply (Hne r' q).
    + intros z' a' Ha'. apply right_but_put_other; [done|by eexists|by apply Hbut].
    + cbn. by rewrite lookup_insert_ne.
    + eapply Forall_impl; [exact Hgood|]. by intros x [].
    + intros n [= <-]. split; [done|]. cbn. rewrite lookup_insert_eq. by eexists.
    + intros x Hx Hc. by specialize (Hcov x Hx Hc).
    + apply HQ; [done| |done|by apply (zones_kept_put db1 z a)]. intros z' x. by rewrite H2.
  - wp_step. apply Hdone; [|done]. apply (checked db att pins r p z TYPE_NS rs a); try done. intros x Hx Hc. by specialize (Hcov x Hx Hc).
  - destruct (covers_dnskey_spec db p (rrs rs) Hgood) as (b & Hb & Hiff). wp_step. apply (wp_lift _ b); [done|].
    destruct b; wp_step.
    + apply Hdone; [|done]. by apply (checked db att pins r p z TYPE_RRSIG rs a).
    + apply Hsame, (checked db att pins r p z TYPE_RRSIG rs a); try done. intros x Hx Hc. exfalso.
      by assert (false = true) by (apply Hiff; by exists x).
  - wp_step. apply Hsame, (checked db att pins r p z type rs a); try done.
    + by rewrite (proj2 (Z.eqb_neq _ _)).
    + by rewrite (proj2 (Z.eqb_neq _ _)).
    + intros x Hx Hc. by specialize (Hcov x Hx Hc).
Qed.

(** * Running the parts *)
Lemma wp_up_packet {A} (m : Buf A) (Q : A -> updater -> Prop) s :
  wp m (fun a b => Q a (mkupdater b (up_db s) (up_softfail s))) (up_packet s) -> wp (on_packet m) Q s.
Proof using. unfold wp, on_packet. by destruct (m (up_packet s)) as [[a q]| |]. Qed.

Lemma wp_on_database {A} (m : Db A) (Q : A -> updater -> Prop) s :
  wp m (fun a db => Q a (mkupdater (up_packet s) db (up_softfail s))) (up_db s) -> wp (on_database m) Q s.
Proof using. unfold wp, on_database. by destruct (m (up_db s)) as [[a q]| |]. Qed.

Lemma wp_parse_into type len (Q : option (list rdata_atom) -> updater -> Prop) s :
  wp (rdata_wireformat_to_rdata_atoms type len)
    (fun r s' => Q r (mkupdater (rd_packet s') (rd_owners s') (up_softfail s))) (mkreader (up_packet s) (up_db s)) ->
  wp (parse_into type len) Q s.
Proof using. unfold wp, parse_into. by destruct (rdata_wireformat_to_rdata_atoms _ _ _) as [[a q]| |]. Qed.

Lemma wp_parse_aside owners type len (Q : option (list rdata_atom) * namedb -> updater -> Prop) s :
  wp (rdata_wireformat_to_rdata_atoms type len)
    (fun r s' => Q (r, rd_owners s') (mkupdater (rd_packet s') (up_db s) (up_softfail s))) (mkreader (up_packet s) owners) ->
  wp (parse_aside owners type len) Q s.
Proof using. unfold wp, parse_aside. by destruct (rdata_wireformat_to_rdata_atoms _ _ _) as [[a q]| |]. Qed.

(** * The set a record is added to *)
Definition nonempty_but (db : namedb) (att : gmap Z Z) (r : Z) : Prop := forall r' p rs,
  r' <> r -> att !! r' = Some p -> rrsets db !! r' = Some rs -> rrs rs <> [].

(** Ready to take a record of the type at [p] in the set [r]. *)
Record receiving (db : namedb) (att : gmap Z Z) (pins : list rdata_atom) (p z type r : Z) (rs : rrset) : Prop := {
  rcv_store : store db att pins [];
  rcv_exact : existing_upto stale db;
  rcv_zones : zones_right db att;
  rcv_nonempty : nonempty_but db att r;
  rcv_set : att !! r = Some p /\ rrsets db !! r = Some rs;
  rcv_zone : rrset_zone rs = z;
  rcv_type : Forall (rr_good db p type) (rrs rs);
  rcv_only r2 rs2 x2 : att !! r2 = Some p -> r2 <> r -> rrsets db !! r2 = Some rs2 -> rrset_zone rs2 = z ->
    x2 ∈ rrs rs2 -> rr_type x2 <> type;
}.

Lemma wp_rrset_for db att pins ls p z type n (Q : Z -> namedb -> Prop) : sound stale db att pins -> is_Some (zones db !! z) ->
  names db !! ls = Some p -> usages_below n db ->
  (forall r rs db' att', receiving db' att' pins p z type r rs -> usages_below n db' -> names db' = names db ->
     zones db' = zones db -> (forall z' x, zone_has db' z' x <-> zone_has db z' x) -> Q r db') ->
  wp (rrset_for p z type) Q db.
Proof using L.
  intros [Hst Hex Hzr Hne] Hz Hp Hu HQ. pose proof (st_table _ _ _ _ Hst) as [Hdb Hcl].
  destruct (db_domain db Hdb _ _ Hp) as (d & Hd & _).
  destruct (domain_find_rrset_spec db att pins [] ls p d z type Hst Hne Hp Hd) as (o & Ho & Hcase).
  unfold rrset_for. wp_step. wp_step. wp_step. eapply wp_get_domain; [done|]. wp_step. apply (wp_lift _ o); [done|].
  destruct o as [r|].
  - wp_step. destruct Hcase as (Hr & rs & Hrs & Hrz & Hg). apply (HQ r rs db att); try done. split; try done.
    + intros r' q rs' _. by apply Hne.
    + intros r2 rs2 x2 H2 Hn E2 Ez Hx Et. pose proof (Hne _ _ _ Hr Hrs) as Hnil. destruct (rrs rs) as [|x l] eqn:El; [done|].
      apply Forall_cons in Hg as [Hx0 _]. apply Hn. apply (st_types _ _ _ _ Hst r2 r p rs2 rs x2 x); try done; [congruence| |].
      * rewrite El. by left.
      * by rewrite Et, (good_type _ _ _ _ Hx0).
  - set (r := allocate (rrsets db)). assert (Hfresh : rrsets db !! r = None) by apply allocate_fresh.
    wp_step. wp_step. wp_step. set (db1 := put_rrset r (mkrrset z []) db).
    destruct (table_ok_same db db1) as [Hdb1 Hcl1]; [done|by split|].
    eapply wp_mono; [by apply (wp_domain_add_rrset db1 ls p d)|]. intros [] db2 [Hm Hcl2]. cbn beta. wp_step.
    destruct (store_attach (stale:=stale) db db2 att pins r ls p d z) as (Hst2 & Hhas2 & Hex2); try done.
    assert (Hratt : att !! r = None).
    { apply eq_None_not_Some. intros [q Hq]. destruct (st_owner _ _ _ _ Hst _ _ Hq) as (_ & rs & Hrs & _). congruence. }
    destruct Hm as (Hsame & Hdb2 & Hm). assert (R1 : rrsets db2 = <[r := mkrrset z []]> (rrsets db)) by (by rewrite Hsame).
    assert (R2 : zones db2 = zones db) by (by rewrite Hsame). assert (Hn2 : names db2 = names db) by (by rewrite Hsame).
    assert (Hat : forall y a type' r', at_apex db2 (<[r:=p]> att) y a type' r' <-> at_apex db att y a type' r').
    { intros y a type' r'. unfold at_apex. rewrite R1. split; intros (q & rs & x & H1 & H2 & H3 & H4 & H5 & H6); exists q, rs, x.
      - apply lookup_insert_Some in H3 as [[<- <-]|[Hne' H3]]; [by apply elem_of_nil in H5|]. rewrite lookup_insert_ne in H2 by done. by split_and!.
      - assert (r <> r') by congruence. rewrite !lookup_insert_ne by done. by split_and!. }
    apply (HQ r (mkrrset z []) db2 (<[r := p]> att)); try done.
    + split; try done; [by apply Hex2| | | |].
      * intros y a Ha. rewrite R2 in Ha. destruct (Hzr y a Ha) as [Z1 Z2 Z3]. split; [intros r'; by rewrite Hat..|].
        intros (q & r' & rs & x & H1 & H2 & H3 & H4 & H5 & H6). rewrite R1 in H3.
        apply lookup_insert_Some in H3 as [[<- <-]|[Hne' H3]]; [by apply elem_of_nil in H5|]. rewrite lookup_insert_ne in H2 by done.
        apply Z3. by exists q, r', rs, x.
      * intros r' q rs Hr' H2. rewrite R1, lookup_insert_ne in * by done. rewrite lookup_insert_ne in H2 by done. by apply (Hne r' q).
      * rewrite R1, !lookup_insert_eq. done.
      * intros r2 rs2 x2 H2 Hr2. rewrite R1, lookup_insert_ne by done. rewrite lookup_insert_ne in H2 by done. by apply Hcase.
    + intros k q e Hq He. rewrite Hn2 in Hq. destruct (db_domain db Hdb _ _ Hq) as (e0 & He0 & _).
      assert (He1 : domains (put_domain p (set_rrsets (domain_rrsets d ++ [r]) d) db1) !! q =
        Some (if decide (q = p) then set_rrsets (domain_rrsets d ++ [r]) d else e0)).
      { cbn. case_decide as E; [subst q; by rewrite lookup_insert_eq|by rewrite lookup_insert_ne]. }
      destruct (Hm _ _ _ Hq He1) as [w Hw]. rewrite Hw in He. injection He as <-.
      assert (e0 = d \/ q <> p) as [->|Hqp] by (destruct (decide (q = p)); [left; congruence|by right]).
      * pose proof (Hu _ _ _ Hq He0). case_bool_decide; by case_decide.
      * pose proof (Hu _ _ _ Hq He0). rewrite decide_False by done. by case_bool_decide.
Qed.

(** * One record added *)
Lemma right_but_append db att r p rs rs' z a : zone_right db att z a -> att !! r = Some p -> rrsets db !! r = Some rs ->
  rrset_zone rs' = rrset_zone rs -> (forall x, x ∈ rrs rs -> x ∈ rrs rs') -> right_but (put_rrset r rs' db) att r z a.
Proof using.
  intros [Z1 Z2 Z3] Hr Hrs Hz Hsub.
  assert (Hto : forall type r', at_apex db att z a type r' -> at_apex (put_rrset r rs' db) att z a type r').
  { intros type r' (q & rs0 & x & H1 & H2 & H3 & H4 & H5 & H6). destruct (decide (r' = r)) as [->|Hn].
    - assert (rs0 = rs) as -> by congruence. exists q, rs', x. cbn. rewrite lookup_insert_eq.
      split_and!; try done; [congruence|by apply Hsub].
    - exists q, rs0, x. cbn. rewrite lookup_insert_ne by done. by split_and!. }
  assert (Hback : forall type r', at_apex (put_rrset r rs' db) att z a type r' -> r' = r \/ at_apex db att z a type r').
  { intros type r' (q & rs0 & x & H1 & H2 & H3 & Hrest). destruct (decide (r' = r)) as [->|Hn]; [by left|right].
    cbn in H3. rewrite lookup_insert_ne in H3 by done. by exists q, rs0, x. }
  split.
  - intros r' H. by apply Hto, Z1.
  - intros r' [|H]%Hback; [by left|right; by apply Z1].
  - intros r' H. by apply Hto, Z2.
  - intros r' [|H]%Hback; [by left|right; by apply Z2].
  - intros (q & r' & rs0 & x & H1 & H2 & H3 & H4 & H5 & H6). cbn in H3. destruct (decide (r' = r)) as [->|Hn].
    + right. rewrite lookup_insert_eq in H3. injection H3 as <-. exists rs', x. cbn. rewrite lookup_insert_eq.
      split_and!; try done. congruence.
    + left. rewrite lookup_insert_ne in H3 by done. apply Z3. by exists q, r', rs0, x.
Qed.

Lemma usages_opened n db db' atoms : 0 < n -> usages_below n db -> db_ok db -> zlength atoms <= 64 -> opened db db' atoms ->
  usages_below (n + 64) db'.
Proof using.
  intros Hn Hu Hdb Hlen Ho ls q d' Hq Hd'. pose proof (refs_bounds q atoms). destruct (names db !! ls) as [q0|] eqn:E.
  - assert (q0 = q) as -> by (pose proof (opened_names _ _ _ Ho _ _ E); congruence).
    destruct (db_domain db Hdb _ _ E) as (d & Hd & _). destruct (opened_old _ _ _ Ho _ _ _ E Hd) as [w Hw].
    rewrite Hw in Hd'. injection Hd' as <-. cbn. pose proof (Hu _ _ _ E Hd). lia.
  - destruct (opened_new _ _ _ Ho _ _ _ E Hq Hd') as (_ & _ & _ & ->). lia.
Qed.

Lemma usages_opened_nil n db db' : 0 < n -> usages_below n db -> db_ok db -> opened db db' [] -> usages_below n db'.
Proof using.
  intros Hn Hu Hdb Ho ls q d' Hq Hd'. destruct (names db !! ls) as [q0|] eqn:E.
  - assert (q0 = q) as -> by (pose proof (opened_names _ _ _ Ho _ _ E); congruence).
    destruct (db_domain db Hdb _ _ E) as (d & Hd & _). destruct (opened_old _ _ _ Ho _ _ _ E Hd) as [w Hw].
    rewrite Hw in Hd'. injection Hd' as <-. cbn. rewrite refs_nil. pose proof (Hu _ _ _ E Hd). lia.
  - destruct (opened_new _ _ _ Ho _ _ _ E Hq Hd') as (_ & _ & _ & ->). rewrite refs_nil. lia.
Qed.

Lemma sound_opened db db' att pins : sound stale db att pins -> opened db db' [] ->
  sound stale db' att pins /\ (forall z x, zone_has db' z x <-> zone_has db z x) /\ zones db' = zones db.
Proof using.
  intros [Hst Hex Hz Hne] Ho. destruct (store_opened (stale:=stale) db db' att pins [] Hst Ho) as (Hst' & Hhas & Hex').
  pose proof Ho as [_ _ _ _ _ (R1 & R2 & _)]. split_and!; try done. split; [done|by apply Hex'|by apply (zones_right_ext db)|].
  intros r p rs. rewrite R1. apply Hne.
Qed.

(** The domain of the record, there or made. *)
Lemma wp_find_or_insert db att pins ls n s (Q : Z -> updater -> Prop) : sound stale db att pins -> name_ok ls -> 0 < n ->
  usages_below n db -> up_db s = db ->
  (forall p db', sound stale db' att pins -> names db' !! ls = Some p -> usages_below n db' -> zones db' = zones db ->
     (forall z x, zone_has db' z x <-> zone_has db z x) -> drawn db db' [Name ls] -> names_within db db' ->
     Q p (mkupdater (up_packet s) db' (up_softfail s))) ->
  wp (match names db !! ls with Some p => mret p | None => on_database (domain_table_insert (of_labels ls)) end) Q s.
Proof using L.
  intros Hs Hok Hn Hu <- HQ. pose proof (st_table _ _ _ _ (sound_store _ _ _ _ Hs)) as Hdb.
  destruct (names (up_db s) !! ls) as [p|] eqn:E.
  - wp_step. specialize (HQ p (up_db s) Hs E Hu eq_refl). destruct s. apply HQ; [done| |done]. intros k q Hk. left. by exists q.
  - apply wp_on_database. eapply wp_mono; [apply (wp_domain_table_insert _ ls (proj1 Hdb) Hok)|].
    intros p db' [Hf Hp]. pose proof (filled_opened _ _ _ Hdb Hf) as Ho.
    destruct (sound_opened _ _ _ _ Hs Ho) as (Hs' & Hhas & Hz). apply HQ; try done.
    + apply (usages_opened_nil n (up_db s)); [done..|apply Hdb|done].
    + intros k q Hk. destruct (proj1 (filled_names _ _ _ Hf k) ltac:(by eexists)) as [|Hsuf]; [by left|right].
      exists ls. split; [by left|done].
    + exact (opened_names _ _ _ Ho).
Qed.

(** The outcome of adding a record to the zone [z]. *)
Definition add_post (ls : name) (type class ttl rdatalen z n : Z) (s : updater) (r : bool) (s' : updater) : Prop :=
  let b := up_packet s in
  let end_ := _position b + rdatalen in
  let says xs := rdata_at type (_data b) (_limit b) end_ [] (_position b) xs in
  if r then
    exists xs, says xs /\ up_packet s' = set_pos end_ b /\ database_ok stale (up_db s') /\
      zones_kept (up_db s) (up_db s') /\ usages_below (n + 64) (up_db s') /\
      drawn (up_db s) (up_db s') (Name ls :: xs) /\ names_within (up_db s) (up_db s') /\
      let x := mkrecord ls type class ttl xs in
      ((exists y, zone_has (up_db s) z y /\ record_key y = record_key x) /\ up_softfail s' = true /\
         forall z' y, zone_has (up_db s') z' y <-> zone_has (up_db s) z' y) \/
      ((forall y, zone_has (up_db s) z y -> record_key y <> record_key x) /\ up_softfail s' = up_softfail s /\
         forall z' y, zone_has (up_db s') z' y <-> zone_has (up_db s) z' y \/ z' = z /\ y = x)
  else
    (forall xs, ~ says xs) \/
    exists l, NoDup l /\ zlength l = 65535 /\
      Forall (fun y => zone_has (up_db s) z y /\ rec_owner y = ls /\ rec_type y = type) l.

(** The new record among those of its set. *)
Lemma parsed_record db db' att pins p ls z type r rs atoms xs class ttl : receiving db att pins p z type r rs ->
  opened db db' atoms -> names db' !! ls = Some p -> rdata_typed type xs -> Forall2 (datum_of db') atoms xs -> 0 <= type < 65536 ->
  let y := mkrr p atoms ttl type class in
  rr_good db' p type y /\ record_of db' y = mkrecord ls type class ttl xs /\ store db' att pins (rdatas y) /\
  Forall (rr_good db' p type) (rrs rs) /\ existing_upto stale db' /\ forall z x, zone_has db' z x <-> zone_has db z x.
Proof using.
  intros Hrcv Ho Hp Hty Hreads Ht y. destruct (store_opened (stale:=stale) db db' att pins atoms (rcv_store _ _ _ _ _ _ _ _ Hrcv) Ho) as (Hst' & Hhas & Hex).
  pose proof (st_table _ _ _ _ Hst') as [Hdb' _]. apply reads_at in Hreads as [Hin Hdata]; [|done].
  destruct (rcv_set _ _ _ _ _ _ _ _ Hrcv) as [Hr Hrs]. destruct (opened_rest _ _ _ Ho) as (R1 & _).
  destruct (st_owner _ _ _ _ Hst' _ _ Hr) as (_ & rs' & Hrs' & [_ _ [t Hg] _]). rewrite R1 in Hrs'.
  assert (rs' = rs) as -> by congruence. split_and!; try done.
  - split; try done. cbn [rdatas y]. by rewrite Hdata.
  - unfold record_of. cbn. by rewrite Hdata, (labels_at_name db' ls).
  - pose proof (rcv_type _ _ _ _ _ _ _ _ Hrcv) as Hg0. rewrite Forall_forall in Hg, Hg0 |- *. intros x Hx.
    rewrite <-(good_type _ _ _ _ (Hg0 x Hx)), (good_type _ _ _ _ (Hg x Hx)). by apply Hg.
  - by apply Hex, Hrcv.
Qed.

(** The set seen as the records of its owner and type. *)
Lemma same_key_in_set db att pins loans p ls z type r rs y : store db att pins loans -> att !! r = Some p -> rrsets db !! r = Some rs ->
  rrset_zone rs = z -> names db !! ls = Some p ->
  (forall r2 rs2 x2, att !! r2 = Some p -> r2 <> r -> rrsets db !! r2 = Some rs2 -> rrset_zone rs2 = z ->
     x2 ∈ rrs rs2 -> rr_type x2 <> type) ->
  zone_has db z y -> rec_owner y = ls -> rec_type y = type -> exists x, x ∈ rrs rs /\ y = record_of db x.
Proof using.
  intros Hst Hr Hrs Hz Hp Honly Hy Hown Hty. pose proof (st_table _ _ _ _ Hst) as [Hdb _].
  apply (zone_has_att db att pins loans) in Hy as (r2 & p2 & rs2 & x & H2 & E2 & Ez & Hx & ->); [|done].
  destruct (st_owner _ _ _ _ Hst _ _ H2) as (Hin & rs' & E & [_ _ [t Hg] _]). assert (rs' = rs2) as -> by congruence.
  rewrite Forall_forall in Hg. cbn in Hown, Hty. rewrite (good_owner _ _ _ _ (Hg x Hx)) in Hown.
  assert (p2 = p) as -> by (apply (same_owner db); [done|done|by exists ls|by rewrite (labels_at_name db ls p)]).
  destruct (decide (r2 = r)) as [->|Hne]; [|by destruct (Honly r2 rs2 x)].
  exists x. by assert (rs2 = rs) as -> by congruence.
Qed.

(** The record comes last in its set, and the apex is seen to. *)
Lemma wp_append db0 db att pins p ls z type r rs atoms xs class ttl s (Q : bool -> updater -> Prop) :
  receiving db0 att pins p z type r rs -> opened db0 db atoms -> names db !! ls = Some p -> rdata_typed type xs ->
  Forall2 (datum_of db) atoms xs -> 0 <= type < 65536 -> rr_count rs < 65535 -> up_db s = db ->
  (forall x, x ∈ rrs rs -> key_of db x <> record_key (mkrecord ls type class ttl xs)) ->
  (forall db', sound stale db' att pins -> zones_kept db0 db' -> same_table db db' ->
     (forall z' x, zone_has db' z' x <-> zone_has db0 z' x \/ z' = z /\ x = mkrecord ls type class ttl xs) ->
     Q true (mkupdater (up_packet s) db' (up_softfail s))) ->
  wp (on_database (st_modify (put_rrset r (mkrrset (rrset_zone rs) (rrs rs ++ [mkrr p atoms ttl type class]))));;
      a ← lift (zone_at (up_db s) z);
      (if bool_decide (apex a = Some p) then on_database (apex_rrset_checks r p) else mret tt);;
      mret true) Q s.
Proof using.
  intros Hrcv Ho Hp Hty Hreads Ht Hroom Hdb Hnew HQ.
  destruct (parsed_record db0 db att pins p ls z type r rs atoms xs class ttl Hrcv Ho Hp Hty Hreads Ht) as (Hy & Hrec & Hst & Hg & Hex & Hhas).
  set (y := mkrr p atoms ttl type class) in *. set (rs' := mkrrset (rrset_zone rs) (rrs rs ++ [y])).
  destruct (opened_rest _ _ _ Ho) as (R1 & R2 & _). destruct (rcv_set _ _ _ _ _ _ _ _ Hrcv) as [Hr Hrs0].
  assert (Hrs : rrsets db !! r = Some rs) by (by rewrite R1). pose proof (rcv_zone _ _ _ _ _ _ _ _ Hrcv) as Hz.
  destruct (store_append db att pins r p rs y type Hst Hr Hrs Hroom Hy) as [Hst' Hhas'].
  { eapply Forall_impl; [exact Hg|]. intros x Hx. apply (good_type _ _ _ _ Hx). }
  { intros _ r2 rs2 x2 H2 Hn E2. rewrite R1 in E2. rewrite Hz. by apply (rcv_only _ _ _ _ _ _ _ _ Hrcv r2). }
  { intros x Hx. rewrite Hrec. by apply Hnew. }
  change (mkrrset (rrset_zone rs) (rrs rs ++ [y])) with rs' in Hst', Hhas'.
  assert (Hin : Forall (rr_good (put_rrset r rs' db) p type) (rrs rs')).
  { assert (H : Forall (rr_good db p type) (rrs rs')) by (apply Forall_app; split; [done|by constructor]).
    eapply Forall_impl; [exact H|]. by intros x []. }
  assert (Hne : nonempty (put_rrset r rs' db) att).
  { intros r' p' rs2 H2 E2. cbn in E2. apply lookup_insert_Some in E2 as [[<- <-]|[Hn E2]]; [by destruct (rrs rs)|].
    rewrite R1 in E2. by apply (rcv_nonempty _ _ _ _ _ _ _ _ Hrcv r' p'). }
  assert (Hbut : forall z' a, zones (put_rrset r rs' db) !! z' = Some a -> right_but (put_rrset r rs' db) att r z' a).
  { intros z' a Ha. cbn in Ha. rewrite R2 in Ha. apply (right_but_append db att r p rs); try done.
    - apply (zone_right_ext db0); [done|]. by apply (rcv_zones _ _ _ _ _ _ _ _ Hrcv).
    - intros x Hx. apply elem_of_app. by left. }
  assert (Hall : forall z' x, zone_has (put_rrset r rs' db) z' x <-> zone_has db0 z' x \/ z' = z /\ x = mkrecord ls type class ttl xs).
  { intros z' x. by rewrite Hhas', Hhas, Hrec, Hz. }
  assert (Hzone : exists a, zones db !! z = Some a).
  { destruct (st_owner _ _ _ _ Hst _ _ Hr) as (_ & rs2 & E2 & [_ Hzz _ _]). assert (rs2 = rs) as -> by congruence. rewrite Hz in Hzz.
    exact Hzz. }
  destruct Hzone as [a Ha]. subst db.
  wp_step. apply wp_on_database. wp_step. cbn [up_packet up_db up_softfail]. wp_step.
  apply (wp_lift _ a); [unfold zone_at; cbn; by rewrite Ha|]. wp_step. case_bool_decide as Hap.
  - apply wp_on_database. cbn [up_db up_packet up_softfail].
    apply (wp_apex_rrset_checks _ att pins r p z type rs' a); try done; [cbn; by rewrite lookup_insert_eq|].
    intros db' Hs' Hhas2 Hsame Hkept. cbn beta. wp_step. apply HQ; [done| |done|].
    + intros z'. rewrite (Hkept z'). cbn. by rewrite R2.
    + intros z' x. by rewrite Hhas2.
  - do 2 wp_step. apply HQ; [|by apply zones_kept_eq|done|done]. split; [done|done| |done].
    intros z' a' Ha'. apply (right_other _ att pins [] r z' a' rs' p); [done|by apply Hbut|done|cbn; by rewrite lookup_insert_eq|].
    destruct (decide (z' = z)) as [->|Hzz]; [right|left; cbn; congruence]. cbn in Ha'. by assert (a' = a) as -> by congruence.
Qed.

Lemma usages_same n db db' : same_table db db' -> usages_below n db -> usages_below n db'.
Proof using. intros (N & D & _) H ls q d. rewrite N, D. apply H. Qed.

Lemma wp_add_RR ls type class ttl rdatalen z n s : database_ok stale (up_db s) -> is_Some (zones (up_db s) !! z) ->
  name_ok ls -> 0 <= type < 65536 -> 0 <= rdatalen -> _position (up_packet s) + rdatalen <= _limit (up_packet s) ->
  buffer_ok (up_packet s) -> _limit (up_packet s) <= MAX_PACKET_SIZE -> 0 < n <= 2 ^ 63 -> usages_below n (up_db s) ->
  wp (add_RR (of_labels ls) type class ttl rdatalen z) (add_post ls type class ttl rdatalen z n s) s.
Proof using L.
  intros (att & pins & Hs) Hz Hok Ht Hlen Hroom Hb Hmax Hn Hu. pose proof (st_table _ _ _ _ (sound_store _ _ _ _ Hs)) as Hdb.
  unfold add_RR. wp_step. wp_step. wp_step. apply (wp_lift _ (names (up_db s) !! ls)); [apply domain_table_find_spec; [apply Hdb|done]|].
  wp_step. apply (wp_find_or_insert (up_db s) att pins ls n); [done|done|lia|done|done|].
  intros p db1 Hs1 Hp1 Hu1 Hz1 Hhas1 Hdr1 Hin1. wp_step. apply wp_on_database. cbn [up_db up_packet up_softfail].
  apply (wp_rrset_for db1 att pins ls p z type n); [done|by rewrite Hz1|done|done|].
  intros r rs db2 att2 Hrcv Hu2 Hn2 Hz2 Hhas2. wp_step. apply wp_parse_into. cbn [up_db up_packet up_softfail].
  pose proof (st_table _ _ _ _ (rcv_store _ _ _ _ _ _ _ _ Hrcv)) as Hdb2.
  eapply wp_mono; [apply wp_rdata_atoms; try done; [lia|intros k q d Hq Hd; pose proof (Hu2 k q d Hq Hd); lia]|].
  intros [atoms|] rd; unfold rdata_post; cbn [rd_packet rd_owners].
  2:{ intros [_ Hno]. wp_step. left. by apply Hno. }
  intros (xs & Hend & Hat & Hty & Hreads & Hpk & Ho & Hdr). destruct (rcv_set _ _ _ _ _ _ _ _ Hrcv) as [Hr Hrs].
  assert (Hp : names (rd_owners rd) !! ls = Some p) by (apply (opened_names _ _ _ Ho); by rewrite Hn2).
  destruct (parsed_record db2 (rd_owners rd) att2 pins p ls z type r rs atoms xs class ttl Hrcv Ho Hp Hty Hreads Ht)
    as (Hy & Hrec & Hst & Hg & Hex & Hhas3).
  destruct (opened_rest _ _ _ Ho) as (R1 & R2 & _). pose proof (st_table _ _ _ _ Hst) as [Hdb3 _].
  assert (Hall : forall z' y, zone_has (rd_owners rd) z' y <-> zone_has (up_db s) z' y) by (intros; by rewrite Hhas3, Hhas2, Hhas1).
  assert (Hu3 : usages_below (n + 64) (rd_owners rd)).
  { apply (usages_opened n db2 _ atoms); [lia|done|apply Hdb2| |done]. destruct Hty as [[_ H1] _].
    destruct (descriptor_facts type ltac:(lia)) as (_ & H2 & _). pose proof (Forall2_length _ _ _ Hreads). unfold zlength in *.
    change MAXRDATALEN with 64 in H2. lia. }
  assert (Hrs3 : rrsets (rd_owners rd) !! r = Some rs) by (by rewrite R1).
  assert (Hkept3 : zones_kept (up_db s) (rd_owners rd)) by (apply zones_kept_eq; by rewrite R2, Hz2, Hz1).
  assert (Hdrawn : drawn (up_db s) (rd_owners rd) (Name ls :: xs)).
  { intros k q Hk. destruct (Hdr k q Hk) as [[q2 H2]|(j & Hj & Hs2)]; [|right; exists j; split; [by right|done]].
    rewrite Hn2 in H2. destruct (Hdr1 k q2 H2) as [|(j & Hj & Hs2)]; [by left|].
    apply list_elem_of_singleton in Hj. injection Hj as ->. right. exists ls. split; [by left|done]. }
  assert (Hin : names_within (up_db s) (rd_owners rd)).
  { intros k q Hk%Hin1. apply (opened_names _ _ _ Ho). by rewrite Hn2. }
  wp_step. wp_step. wp_step. cbn [up_db]. apply (wp_lift _ rs); [unfold rrset_at; by rewrite Hrs3|].
  assert (Hsays : Forall2 (rr_says (rd_owners rd)) (rrs rs) ((fun x => datum_at (rd_owners rd) <$> rdatas x) <$> rrs rs)).
  { apply Forall2_fmap_r, Forall_Forall2_diag. eapply Forall_impl; [exact Hg|]. intros x [G1 G2 G3 G4 G5].
    split; [by apply reads_at|by rewrite G2]. }
  destruct (find_rr_num_spec (rd_owners rd) (rd_owners rd) type class atoms xs Hdb3 Hdb3 Hreads Hty rs _ true Hsays ltac:(done)) as (o & Ho' & Hcase).
  wp_step. apply (wp_lift _ o); [done|].
  assert (Hsame : forall m x ys, rrs rs !! m = Some x -> ((fun x => datum_at (rd_owners rd) <$> rdatas x) <$> rrs rs) !! m = Some ys ->
    rr_same type class xs x ys <-> key_of (rd_owners rd) x = record_key (mkrecord ls type class ttl xs)).
  { intros m x ys Hm Hys. rewrite list_lookup_fmap, Hm in Hys. injection Hys as <-. rewrite Forall_forall in Hg.
    destruct (Hg x ltac:(by eapply list_elem_of_lookup_2)) as [G1 G2 _ _ _]. unfold rr_same, record_key, same_data. cbn.
    rewrite G1, G2, (labels_at_name _ ls p Hdb3 Hp), bool_decide_eq_true. naive_solver congruence. }
  destruct o as [m|].
  - destruct Hcase as (x & ys & Hm & Hys & Hx%(Hsame m x ys Hm Hys)). wp_step. unfold softfail. do 2 wp_step.
    assert (Hxin : x ∈ rrs rs) by (by eapply list_elem_of_lookup_2).
    exists xs. cbn [up_packet up_db up_softfail]. split_and!; try done.
    + exists att2, pins. split; [|done| |].
      * by eapply store_forget.
      * apply (zones_right_ext db2); [done|done|by apply Hrcv].
      * intros r' p' rs' H2 E2. rewrite R1 in E2. destruct (decide (r' = r)) as [->|Hne]; [|by apply (rcv_nonempty _ _ _ _ _ _ _ _ Hrcv r' p')].
        assert (rs' = rs) as -> by congruence. intros E. rewrite E in Hxin. by apply elem_of_nil in Hxin.
    + left. split_and!; [|done|done]. exists (record_of (rd_owners rd) x). split; [|done]. rewrite <-Hall.
      apply (zone_has_att _ att2 pins (rdatas (mkrr p atoms ttl type class))); [done|]. exists r, p, rs, x. split_and!; try done. apply Hrcv.
  - assert (Hnew : forall x, x ∈ rrs rs -> key_of (rd_owners rd) x <> record_key (mkrecord ls type class ttl xs)).
    { intros x [m Hm]%list_elem_of_lookup Hk. assert (Hys := Hm). apply (f_equal (fmap (fun x => datum_at (rd_owners rd) <$> rdatas x))) in Hys.
      rewrite <-list_lookup_fmap in Hys. apply (Hcase m x _ Hm Hys). by apply (Hsame m x _ Hm Hys). }
    assert (Honly : forall y, zone_has (rd_owners rd) z y -> rec_owner y = ls -> rec_type y = type ->
      exists x, x ∈ rrs rs /\ y = record_of (rd_owners rd) x).
    { intros y. apply (same_key_in_set _ att2 pins (rdatas (mkrr p atoms ttl type class)) p ls z type r rs); try done; [apply Hrcv|].
      rewrite R1. by apply (rcv_only _ _ _ _ _ _ _ _ Hrcv). }
    wp_step; bool_simpl.
    + wp_step. right. exists (record_of (rd_owners rd) <$> rrs rs).
      destruct (st_owner _ _ _ _ Hst _ _ Hr) as (_ & rs' & E & [_ _ _ Hd]). assert (rs' = rs) as -> by congruence. split_and!.
      * apply (NoDup_fmap_1 record_key). by rewrite <-list_fmap_compose.
      * by rewrite zlength_fmap.
      * apply Forall_fmap, Forall_forall. intros x Hx. rewrite Forall_forall in Hg. destruct (Hg x Hx) as [G1 G2 _ _ _]. cbn.
        rewrite <-Hall, (zone_has_att _ att2 pins (rdatas (mkrr p atoms ttl type class))) by done.
        rewrite G1, G2, (labels_at_name _ ls p Hdb3 Hp). split_and!; [|done|done]. exists r, p, rs, x. split_and!; try done. apply Hrcv.
    + destruct (st_owner _ _ _ _ Hst _ _ Hr) as (_ & rs' & E & [Hl _ _ _]). assert (rs' = rs) as -> by congruence.
      apply (wp_append db2 (rd_owners rd) att2 pins p ls z type r rs atoms xs class ttl); try done; [lia|].
      intros db4 Hs4 Hkept4 Hsame4 Hhas4. exists xs. cbn [up_packet up_db up_softfail]. split_and!; try done.
      * by exists att2, pins.
      * intros z'. rewrite (Hkept4 z'). by rewrite Hz2, Hz1.
      * by apply (usages_same _ (rd_owners rd)).
      * intros k q. rewrite (proj1 Hsame4). apply Hdrawn.
      * intros k q. rewrite (proj1 Hsame4). apply Hin.
      * right. split_and!; [|done|].
        -- intros y Hhas Hk. apply Hall in Hhas. destruct (Honly y Hhas) as (x & Hx & ->); [by injection Hk|by injection Hk|].
           by apply (Hnew x Hx).
        -- intros z' y. by rewrite Hhas4, Hhas2, Hhas1.
Qed.

(** C10 (refinement): adding the record a transfer holds to a zone of a database that is in order.  When the data of the
    record parses, the zone has afterwards the records it had and the new one, whatever sets, domains and pointers
    that took, and every other zone has what it had; a record that differs from an old one in no more than its TTL
    changes nothing and is noted as unexpected.  The data is read to its end, and the database is in order again.
    Adding fails only when the data does not parse or the record set is full. *)
Theorem add_RR_correct ls type class ttl rdatalen z n s : database_ok stale (up_db s) ->
  is_Some (zones (up_db s) !! z) -> name_ok ls -> 0 <= type < 65536 -> 0 <= rdatalen ->
  _position (up_packet s) + rdatalen <= _limit (up_packet s) -> buffer_ok (up_packet s) ->
  _limit (up_packet s) <= MAX_PACKET_SIZE -> 0 < n <= 2 ^ 63 -> usages_below n (up_db s) ->
  exists r s', add_RR (of_labels ls) type class ttl rdatalen z s = Ok (r, s') /\
    add_post ls type class ttl rdatalen z n s r s'.
Proof using L Hstale. intros. by apply wp_elim, wp_add_RR. Qed.
End diff.
