(* ===== verification/DiffDelete.v ===== *)
(** Deleting a record (Diff.v): the record that is the same goes, uses are
    given back, and what is left empty goes with it. *)

From S2P Require Import Prelude Buffer Dname DnameProofs DnamePacket Dns Contents Namedb NamedbProofs NamedbTable Rdata RdataProofs NamedbDelete Diff DiffExisting DiffFind DiffStore DiffSets DiffProofs.

(** * The last record takes the place of the one that goes *)
Lemma removelast_insert_last {A} (l : list A) n x y : last l = Some y -> l !! n = Some x ->
  l ≡ₚ x :: removelast (if (n <? length l - 1)%nat then <[n := y]> l else l).
Proof.
  intros Hlast Hn. apply last_Some in Hlast as [l' ->]. rewrite length_app in *. cbn [length] in *.
  replace (length l' + 1 - 1)%nat with (length l') by lia. destruct (Nat.ltb_spec n (length l')) as [Hlt|Hge].
  - rewrite insert_app_l by done. rewrite removelast_last. rewrite lookup_app_l in Hn by done.
    rewrite <-(take_drop_middle _ _ _ Hn) at 1. rewrite (insert_take_drop l' n y) by done.
    rewrite <-Permutation_cons_append, <-!Permutation_middle. by apply Permutation_swap.
  - rewrite removelast_last. pose proof (lookup_lt_Some _ _ _ Hn) as Hlt. rewrite length_app in Hlt. cbn in Hlt.
    assert (n = length l') as -> by lia. rewrite list_lookup_middle in Hn by done. injection Hn as ->.
    by rewrite <-Permutation_cons_append.
Qed.

Lemma swap_out_perm n l x : l !! n = Some x -> l ≡ₚ x :: swap_out n l.
Proof.
  intros Hn. unfold swap_out. destruct (last l) as [y|] eqn:E; [by apply removelast_insert_last|].
  apply last_None in E. by rewrite E in Hn.
Qed.

Section delete.
Context `{T : NameTree} {L : NameTreeLaws T}.
Context {stale : name -> Prop} {Hstale : Upward stale}.

Abbreviation names db := (contents (nametree db)).
Abbreviation key_of db := (fun y => record_key (record_of db y)).

(** * Uses given back *)
Lemma lowered_put db db' l r rs : lowered db db' l -> lowered (put_rrset r rs db) (put_rrset r rs db') l.
Proof using.
  intros [H1 H2 H3 H4 H5 (H6 & H7 & H8)]. split; try done; [by apply (table_ok_same db')|].
  cbn. by rewrite H6, H7, H8.
Qed.

Lemma returnable_store db att pins loans : store db att pins loans -> returnable db loans.
Proof using.
  intros Hst. split.
  - pose proof (st_pins _ _ _ _ Hst) as H. by apply Forall_app in H as [_ H].
  - intros ls q d Hq Hd. pose proof (st_uses _ _ _ _ Hst _ _ _ Hq Hd) as Hle. rewrite !refs_app in Hle.
    pose proof (refs_bounds q (held db att)). pose proof (refs_bounds q pins). lia.
  - intros p d Hp Hd. pose proof (st_uses _ _ _ _ Hst _ _ _ Hp Hd) as Hle. rewrite !refs_app in Hle.
    pose proof (refs_bounds p (held db att)). pose proof (st_root _ _ _ _ Hst _ Hp) as Hin. apply refs_pos in Hin. lia.
Qed.

Lemma root_used_store db att pins loans : store db att pins loans -> root_used db.
Proof using.
  intros Hst p d Hp Hd. pose proof (returnable_store _ _ _ _ Hst) as Hret. pose proof (ret_root _ _ Hret _ _ Hp Hd).
  pose proof (refs_bounds p loans). lia.
Qed.

Lemma usages_lowered n db db' l : db_ok db -> returnable db l -> usages_below n db -> lowered db db' l -> usages_below n db'.
Proof using.
  intros Hdb Hret Hu Hlow ls q d' Hq Hd'. pose proof (low_names _ _ _ Hlow _ _ Hq) as Hq0.
  destruct (db_domain db Hdb _ _ Hq0) as (d & Hd & _). destruct (low_kept _ _ _ Hlow _ _ _ Hq Hd) as (m & w & E).
  rewrite E in Hd'. injection Hd' as <-. cbn. pose proof (Hu _ _ _ Hq0 Hd). pose proof (ret_uses _ _ Hret _ _ _ Hq0 Hd).
  pose proof (refs_bounds q l). lia.
Qed.

Lemma usages_settled n db db' : db_ok db -> usages_below n db -> settled db db' -> usages_below n db'.
Proof using.
  intros Hdb Hu Hs ls q d' Hq Hd'. rewrite (settled_names _ _ Hs) in Hq. destruct (db_domain db Hdb _ _ Hq) as (d & Hd & _).
  destruct (settled_domains _ _ Hs _ _ Hd) as (b & w & E). rewrite E in Hd'. injection Hd' as <-.
  pose proof (Hu _ _ _ Hq Hd). by destruct b.
Qed.

Lemma good_fits db p type y : rr_good db p type y -> fields_fit type 0 (rdatas y).
Proof using.
  intros [_ _ _ _ [[_ Hmax] Hty]] k a Hk. rewrite Z.add_0_l.
  rewrite (field_typed_domain type k (take k (datum_at db <$> rdatas y)) (datum_at db a)).
  - by destruct a.
  - rewrite zlength_fmap in Hmax. apply lookup_lt_Some in Hk. unfold zlength in Hmax. lia.
  - apply Hty. by rewrite list_lookup_fmap, Hk.
Qed.

Lemma wp_rr_lower_usage db p type y (Q : unit -> namedb -> Prop) : rr_good db p type y -> table_ok db -> plain_table db ->
  returnable db (rdatas y) -> (forall db', lowered db db' (rdatas y) -> Q tt db') -> wp (rr_lower_usage y) Q db.
Proof using L.
  intros Hy Hok Hpl Hret HQ. unfold rr_lower_usage. rewrite (good_type _ _ _ _ Hy).
  apply wp_lower_usage_from; try done. by apply (good_fits db p).
Qed.

(** * A set deleted *)
Section rrset_delete.
Context (db : namedb) (att : gmap Z Z) (pins : list rdata_atom) (r p z type : Z) (rs : rrset) (ls : name) (a : zone).
(** The records of the set may have lost their domains already. *)
Context (Hst : store (put_rrset r (mkrrset z []) db) att pins []).
Context (Hzr : zones_right db att).
Context (Hr : att !! r = Some p) (Hrs : rrsets db !! r = Some rs) (Hz : rrset_zone rs = z) (Hne : rrs rs <> []).
Context (Htype : Forall (fun x => rr_type x = type) (rrs rs)) (Hp : names db !! ls = Some p) (Ha : zones db !! z = Some a).
Context (Honly : forall r2 rs2 x2, att !! r2 = Some p -> r2 <> r -> rrsets db !! r2 = Some rs2 -> rrset_zone rs2 = z ->
  x2 ∈ rrs rs2 -> rr_type x2 <> type).
Context (Hcov : type = TYPE_RRSIG -> Forall (fun x => exists t, rr_rrsig_type_covered x = Ok t) (rrs rs)).

(** The zone record as it is left. *)
Definition unlinked (d : bool) : zone :=
  let a := if bool_decide (soa_rrset a = Some r) then set_soa None a else a in
  let a := if bool_decide (ns_rrset a = Some r) then set_ns None a else a in
  if d then set_secure false a else a.

Lemma unlinked_fields d : apex (unlinked d) = apex a /\ soa_nx_rrset (unlinked d) = soa_nx_rrset a /\
  (forall x, soa_rrset (unlinked d) = Some x <-> soa_rrset a = Some x /\ x <> r) /\
  (forall x, ns_rrset (unlinked d) = Some x <-> ns_rrset a = Some x /\ x <> r) /\
  is_secure (unlinked d) = (negb d && is_secure a).
Proof using.
  clear. unfold unlinked. case_bool_decide as E1; case_bool_decide as E2; destruct d; cbn in *;
    split_and!; try done; intros x; naive_solver congruence.
Qed.

Lemma at_apex_deleted db' y b type' x : rrsets db' = delete r (rrsets db) ->
  at_apex db' (delete r att) y b type' x <-> at_apex db att y b type' x /\ x <> r.
Proof using.
  clear. intros E. unfold at_apex. rewrite E. split.
  - intros (q & rs' & x' & H1 & [Hn H2]%lookup_delete_Some & H3 & Hrest). rewrite lookup_delete_ne in H3 by done.
    split; [by exists q, rs', x'|done].
  - intros [(q & rs' & x' & H1 & H2 & H3 & Hrest) Hn]. exists q, rs', x'. by rewrite !lookup_delete_ne by done.
Qed.

Lemma zones_unlinked d db' : rrsets db' = delete r (rrsets db) -> zones db' = <[z := unlinked d]> (zones db) ->
  (d = true -> apex a = Some p /\ type = TYPE_RRSIG) -> zones_right db' (delete r att).
Proof using Hzr Hrs Hz Honly Ha.
  intros E Ez Hd y b Hb. rewrite Ez in Hb. destruct (unlinked_fields d) as (Eap & Enx & Esoa & Ens & Esec).
  assert (Hsig : forall b, signed_keys db' (delete r att) y b -> signed_keys db att y b /\
    exists r2, r2 <> r /\ at_apex db att y b TYPE_RRSIG r2).
  { intros c (q & r2 & rs2 & x & H1 & [Hn H2]%lookup_delete_Some & H3 & H4 & H5 & H6). rewrite E, lookup_delete_ne in H3 by done.
    split; [by exists q, r2, rs2, x|]. exists r2. split; [done|]. exists q, rs2, x. split_and!; try done.
    unfold rr_rrsig_type_covered in H6. destruct (Z.eqb_spec (rr_type x) TYPE_RRSIG); [done|]. by cbn in H6. }
  apply lookup_insert_Some in Hb as [[<- <-]|[Hyz Hb]].
  - destruct (Hzr z a Ha) as [Z1 Z2 Z3].
    assert (Hat : forall type' x, at_apex db' (delete r att) z (unlinked d) type' x <-> at_apex db att z a type' x /\ x <> r).
    { intros type' x. rewrite <-(at_apex_deleted db' z a type' x E). unfold at_apex. by rewrite Eap. }
    split.
    + intros x. by rewrite Hat, Esoa, Z1.
    + intros x. by rewrite Hat, Ens, Z2.
    + intros Hs. rewrite Esec. destruct (Hsig _ Hs) as [Hs1 (r2 & Hn & Hr2)]. unfold signed_keys, at_apex in Hs1, Hr2.
      rewrite Eap in Hs1, Hr2. destruct d; [|by apply Z3]. exfalso. destruct (Hd eq_refl) as [Hap Et].
      destruct Hr2 as (q & rs2 & x2 & H1 & H2 & H3 & H4 & H5 & H6). assert (q = p) as -> by congruence.
      by apply (Honly r2 rs2 x2); rewrite ?Et.
  - destruct (Hzr y b Hb) as [Z1 Z2 Z3].
    assert (Hat : forall type' x, at_apex db' (delete r att) y b type' x <-> at_apex db att y b type' x).
    { intros type' x. rewrite (at_apex_deleted db' y b type' x E). split; [by intros [? _]|]. intros H. split; [done|].
      intros ->. destruct H as (q & rs2 & x2 & _ & _ & H3 & H4 & _). congruence. }
    split; [intros x; by rewrite Hat..|]. intros Hs. by apply Z3, Hsig.
Qed.

Lemma wp_rrset_delete d (Q : unit -> namedb -> Prop) : domains db !! p = Some d ->
  (forall a', let db' := put_zone z a' (detached r p d db) in
     store db' (delete r att) pins [] -> zones_right db' (delete r att) -> zones_kept db db' ->
     (forall z' x, zone_has db' z' x <-> zone_has (put_rrset r (mkrrset z []) db) z' x) ->
     (existing_upto stale db -> exact_but stale db' ls) ->
     (is_secure a' = true -> is_secure a = true /\
        (apex a = Some p -> forall x, x ∈ rrs rs -> rr_rrsig_type_covered x <> Ok TYPE_DNSKEY)) -> Q tt db') ->
  wp (rrset_delete p r) Q db.
Proof using Hst Hzr Hr Hrs Hz Hne Htype Hp Ha Hcov Honly.
  intros Hd HQ. set (dbv := put_rrset r (mkrrset z []) db) in *.
  assert (Hrsv : rrsets dbv !! r = Some (mkrrset z [])) by (cbn; by rewrite lookup_insert_eq).
  destruct (store_detach (stale:=stale) dbv att pins r ls p d _ Hst Hr Hrsv eq_refl Hp Hd) as (Hst' & Hhas' & Hex').
  assert (Edet : detached r p d dbv = detached r p d db).
  { unfold detached, dbv, put_rrset, set_rrset_store, put_domain, set_domains. cbn. by rewrite delete_insert_eq. }
  rewrite Edet in Hst', Hhas', Hex'.
  assert (Hin : r ∈ domain_rrsets d) by (by apply (st_att _ _ _ _ Hst ls p d)).
  assert (Hfin : forall c, (c = true -> apex a = Some p /\ type = TYPE_RRSIG) ->
    (c = false -> apex a = Some p -> forall x, x ∈ rrs rs -> rr_rrsig_type_covered x <> Ok TYPE_DNSKEY) ->
    Q tt (put_zone z (unlinked c) (detached r p d db))).
  { intros c Hc Hnc. destruct (unlinked_fields c) as (Eap & Enx & _ & _ & Esec). destruct (st_zones _ _ _ _ Hst' z a Ha) as [_ Hnx].
    destruct (store_put_zone _ _ _ _ z a (unlinked c) Hst' Ha Eap) as [Hst2 Hhas2]; [by rewrite Enx|].
    apply HQ; [done|by apply (zones_unlinked c)|by apply (zones_kept_put (detached r p d db) z a)| | |].
    - intros z' x. by rewrite Hhas2, Hhas'.
    - intros Hex. exact (Hex' Hex).
    - rewrite Esec. intros [Hc' Ha']%andb_prop. split; [done|]. apply Hnc. by destruct c. }
  unfold rrset_delete. wp_step. eapply wp_get_domain; [done|]. rewrite bool_decide_true by done. cbn [negb].
  wp_step. wp_step. unfold get_rrset, get_zone. wp_step. wp_step. wp_step. apply (wp_lift _ rs); [unfold rrset_at; cbn; by rewrite Hrs|].
  rewrite Hz. wp_step. wp_step. wp_step. apply (wp_lift _ a); [unfold zone_at; cbn; by rewrite Ha|].
  set (a1 := if bool_decide (soa_rrset a = Some r) then set_soa None a else a).
  set (a2 := if bool_decide (ns_rrset a1 = Some r) then set_ns None a1 else a1).
  assert (Eap : apex a2 = apex a) by (unfold a2, a1; by repeat case_bool_decide).
  assert (Eun : forall c, unlinked c = if c then set_secure false a2 else a2).
  { done. }
  rewrite Eap. wp_step.
  assert (Hgo : forall c, (c = true -> apex a = Some p /\ type = TYPE_RRSIG) ->
    (c = false -> apex a = Some p -> forall x, x ∈ rrs rs -> rr_rrsig_type_covered x <> Ok TYPE_DNSKEY) ->
    wp (st_modify (put_zone z (if (c : bool) then set_secure false a2 else a2));;
        st_modify (fun db => set_rrset_store (delete r (rrsets db)) db)) Q
       (put_domain p (set_rrsets (unlink r (domain_rrsets d)) d) db)).
  { intros c Hc Hnc. wp_step. wp_step. wp_step. rewrite <-Eun. exact (Hfin c Hc Hnc). }
  case_bool_decide as Hap.
  - wp_step. apply (wp_lift _ type).
    { unfold rrset_rrtype, first_rr. destruct (rrs rs) as [|x l]; [done|]. apply Forall_cons in Htype as [<- _]. done. }
    destruct (Z.eqb_spec type TYPE_RRSIG) as [Et|Et].
    + destruct (covers_dnskey_eq _ (Hcov Et)) as (c & Hc & Hiff). wp_step. apply (wp_lift _ c); [done|]. wp_step.
      apply (Hgo c); [done|]. intros -> _ x Hx Hx'. by assert (false = true) by (apply Hiff; by exists x).
    + wp_step. apply (Hgo false); [done|]. intros _ _ x Hx Hx'. rewrite Forall_forall in Htype. specialize (Htype x Hx).
      unfold rr_rrsig_type_covered in Hx'. by rewrite Htype, (proj2 (Z.eqb_neq _ _) Et) in Hx'.
  - wp_step. by apply (Hgo false).
Qed.
End rrset_delete.

(** * What is empty goes *)
Lemma sound_lowered db db' att pins : sound stale db att pins -> lowered db db' [] -> sound stale db' att pins /\
  (forall z x, zone_has db' z x <-> zone_has db z x).
Proof using.
  intros [Hst Hex Hz Hne] Hlow. destruct (store_lowered (stale:=stale) db db' att pins [] Hst Hlow) as (Hst' & Hhas & Hex').
  destruct (low_rest _ _ _ Hlow) as (R1 & R2 & _). split; [|done]. split; [done|by apply Hex'|by apply (zones_right_ext db)|].
  intros r p rs. rewrite R1. apply Hne.
Qed.

(** After sets of [p] have been deleted: domains without data cease to exist,
    and [p] goes when nothing needs it. *)
Lemma wp_clean_up db att pins ls p n (Q : unit -> namedb -> Prop) : store db att pins [] -> plain_table db ->
  zones_right db att -> nonempty db att -> exact_but stale db ls -> names db !! ls = Some p -> usages_below n db ->
  (forall db', sound stale db' att pins -> plain_table db' -> zones db' = zones db -> usages_below n db' ->
     (forall z x, zone_has db' z x <-> zone_has db z x) -> names_within db' db -> Q tt db') ->
  wp (rrset_zero_nonexist_check p None;; domain_table_deldomain p) Q db.
Proof using L Hstale.
  intros Hst Hpl Hzr Hne Hbut Hp Hu HQ. pose proof (st_table _ _ _ _ Hst) as Hok. pose proof Hok as [Hdb _].
  wp_step. apply (wp_rrset_zero_nonexist_check None ls); try done. intros o db1 Hset Hexact _.
  destruct (store_settled db db1 att pins Hst Hset) as [Hst1 Hhas1]. pose proof (settled_same _ _ Hset) as Hsame.
  assert (R1 : rrsets db1 = rrsets db) by (by rewrite Hsame). assert (R2 : zones db1 = zones db) by (by rewrite Hsame).
  assert (Hs1 : sound stale db1 att pins).
  { split; [done|done|by apply (zones_right_ext db)|]. intros r q rs. rewrite R1. apply Hne. }
  apply (wp_domain_table_deldomain _ ls); [apply Hset|by apply (settled_plain db)|by eapply root_used_store|
    by rewrite (settled_names _ _ Hset)|].
  intros db2 Hpr _. pose proof (pruned_lowered _ _ Hpr) as Hlow. destruct (sound_lowered db1 db2 att pins Hs1 Hlow) as [Hs2 Hhas2].
  destruct (low_rest _ _ _ Hlow) as (_ & Z2 & _). apply HQ; try done; [apply Hlow|by rewrite Z2, R2| | |].
  - apply (usages_lowered n db1 db2 []); [apply Hset|by eapply returnable_store|by apply (usages_settled n db)|done].
  - intros z x. by rewrite Hhas2, Hhas1.
  - intros k q Hk%(low_names _ _ _ Hlow). by rewrite (settled_names _ _ Hset) in Hk.
Qed.

(** * The record goes *)
Lemma zones_right_shrunk db db' att r p rs rs' : zones_right db att -> att !! r = Some p -> rrsets db !! r = Some rs ->
  rrsets db' = <[r := rs']> (rrsets db) -> zones db' = zones db -> rrset_zone rs' = rrset_zone rs ->
  (forall x, x ∈ rrs rs' -> x ∈ rrs rs) ->
  (forall x, x ∈ rrs rs -> exists y, y ∈ rrs rs' /\ rr_type y = rr_type x) -> zones_right db' att.
Proof using.
  intros Hzr Hr Hrs E Ez Hz Hsub Htype z a Ha. rewrite Ez in Ha. destruct (Hzr z a Ha) as [Z1 Z2 Z3].
  assert (Hat : forall type x, at_apex db' att z a type x <-> at_apex db att z a type x).
  { intros type x. unfold at_apex. rewrite E. split; intros (q & rs2 & y & H1 & H2 & H3 & H4 & H5 & H6).
    - apply lookup_insert_Some in H3 as [[<- <-]|[Hn H3]]; [|by exists q, rs2, y]. exists q, rs, y.
      split_and!; try done; [congruence|by apply Hsub].
    - destruct (decide (x = r)) as [->|Hn]; [|exists q, rs2, y; by rewrite lookup_insert_ne by done].
      assert (rs2 = rs) as -> by congruence. destruct (Htype y H5) as (y' & Hy' & Et). exists q, rs', y'.
      rewrite lookup_insert_eq. split_and!; try done; congruence. }
  split; [intros x; by rewrite Hat..|]. intros (q & r2 & rs2 & x & H1 & H2 & H3 & H4 & H5 & H6). apply Z3. rewrite E in H3.
  apply lookup_insert_Some in H3 as [[<- <-]|[Hn H3]]; [|by exists q, r2, rs2, x]. exists q, r, rs, x.
  split_and!; try done; [congruence|by apply Hsub].
Qed.

Lemma wp_delete_found db att pins ls p r rs m y n (Q : unit -> namedb -> Prop) : sound stale db att pins -> plain_table db ->
  usages_below n db -> names db !! ls = Some p -> att !! r = Some p -> rrsets db !! r = Some rs -> rrs rs !! m = Some y ->
  (forall db' att', sound stale db' att' pins -> plain_table db' -> zones_kept db db' -> usages_below n db' ->
     (forall z x, zone_has db' z x <-> zone_has db z x /\ ~ (z = rrset_zone rs /\ x = record_of db y)) ->
     names_within db' db -> Q tt db') ->
  wp (delete_found p r m) Q db.
Proof using L Hstale.
  intros [Hst Hex Hzr Hne] Hpl Hu Hp Hr Hrs Hm HQ. pose proof (st_table _ _ _ _ Hst) as Hok. pose proof Hok as [Hdb _].
  destruct (st_owner _ _ _ _ Hst _ _ Hr) as (_ & rs0 & E & [_ [a Ha] [type Hg] _]). assert (rs0 = rs) as -> by congruence.
  assert (Hy : rr_good db p type y) by (rewrite Forall_forall in Hg; apply Hg; by eapply list_elem_of_lookup_2).
  (* the set without the record *)
  set (rs' := mkrrset (rrset_zone rs) (swap_out m (rrs rs))). pose proof (swap_out_perm m (rrs rs) y Hm) as Hperm.
  destruct (store_shrink db att pins r p rs rs' [y] Hst Hr Hrs eq_refl Hperm) as [Hst1 Hhas1]. cbn [mbind list_bind app] in Hst1.
  assert (Hone : rdatas y ++ [] = rdatas y) by apply app_nil_r. change ([y] ≫= rdatas) with (rdatas y ++ []) in Hst1. rewrite Hone in Hst1.
  pose proof (returnable_store _ _ _ _ Hst1) as Hret1. assert (Hret : returnable db (rdatas y)) by (by destruct Hret1).
  unfold delete_found, get_rrset. wp_step. wp_step. wp_step. apply (wp_lift _ rs); [unfold rrset_at; by rewrite Hrs|].
  wp_step. apply (wp_lift _ y); [by rewrite Hm|]. wp_step. apply (wp_rr_lower_usage db p type y); try done. intros db1 Hlow.
  pose proof (lowered_put db db1 (rdatas y) r rs' Hlow) as Hlow1.
  destruct (store_lowered (stale:=stale) _ _ att pins (rdatas y) Hst1 Hlow1) as (Hst2 & Hhas2 & Hex2).
  destruct (low_rest _ _ _ Hlow) as (R1 & R2 & _). assert (Hrs1 : rrsets db1 !! r = Some rs) by (by rewrite R1).
  assert (Hu1 : usages_below n db1) by (by apply (usages_lowered n db db1 (rdatas y))).
  assert (Hhas : forall z x, zone_has (put_rrset r rs' db1) z x <-> zone_has db z x /\ ~ (z = rrset_zone rs /\ x = record_of db y)).
  { intros z x. rewrite Hhas2, Hhas1. split; intros [H1 H2]; (split; [done|]); intros [H3 H4]; apply H2; (split; [done|]).
    - exists y. split; [by left|done].
    - by destruct H4 as (y' & ->%list_elem_of_singleton & ->). }
  wp_step; bool_simpl.
  - (* the set was the record *)
    assert (Hnil : rrs rs' = []).
    { apply Permutation_length in Hperm. cbn in Hperm. unfold rr_count, zlength in *. apply nil_length_inv. cbn [rrs rs']. lia. }
    assert (Ers : rs' = mkrrset (rrset_zone rs) []) by (unfold rs' in *; cbn in Hnil; by rewrite Hnil). rewrite Ers in *.
    assert (Hd1 : exists d, names db1 !! ls = Some p /\ domains db1 !! p = Some d).
    { destruct (st_owner _ _ _ _ Hst2 _ _ Hr) as ([k Hk] & _). cbn in Hk. pose proof (low_names _ _ _ Hlow _ _ Hk) as Hk0.
      pose proof (db_injective db Hdb _ _ _ Hp Hk0) as <-. destruct (db_domain db1 (proj1 (low_ok _ _ _ Hlow)) _ _ Hk) as (d & Hd & _).
      by exists d. }
    destruct Hd1 as (d & Hp1 & Hd). wp_step.
    apply (wp_rrset_delete db1 att pins r p (rrset_zone rs) type rs ls a Hst2 (zones_right_ext db db1 att R1 R2 Hzr) Hr Hrs1 eq_refl) with (d := d);
      try done.
    + intros E0. by rewrite E0 in Hm.
    + eapply Forall_impl; [exact Hg|]. intros x Hx. apply (good_type _ _ _ _ Hx).
    + by rewrite R2.
    + intros r2 rs2 x2 H2 Hn E2 Ez Hx2 Et. rewrite R1 in E2. apply Hn.
      apply (st_types _ _ _ _ Hst r2 r p rs2 rs x2 y); try done; [by eapply list_elem_of_lookup_2|by rewrite Et, (good_type _ _ _ _ Hy)].
    + intros Et. eapply Forall_impl; [exact Hg|]. intros x Hx. rewrite Et in Hx. exact (rrsig_covered db p x Hx).
    + intros a' db2 Hst3 Hzr3 Hkept3 Hhas3 Hbut3 _. pose proof (low_plain _ _ _ Hlow) as Hpl1.
      apply (wp_clean_up db2 (delete r att) pins ls p n); try done.
      * intros r2 p2 rs2 [Hn H2]%lookup_delete_Some E2. cbn in E2. rewrite lookup_delete_ne, R1 in E2 by done. by apply (Hne r2 p2).
      * apply Hbut3. apply Hex2. exact Hex.
      * intros k q e Hq He. cbn in Hq, He. apply lookup_insert_Some in He as [[<- <-]|[_ He]]; [by apply (Hu1 k p d)|by apply (Hu1 k q e)].
      * intros db4 Hs4 Hpl4 Hz4 Hu4 Hhas4 Hin4. apply (HQ db4 (delete r att)); try done.
        -- intros z'. rewrite Hz4. rewrite (Hkept3 z'). by rewrite R2.
        -- intros z x. by rewrite Hhas4, Hhas3, Hhas.
        -- intros k q Hk. apply (low_names _ _ _ Hlow), (Hin4 k q Hk).
  - (* others remain *)
    wp_step. apply (HQ (put_rrset r rs' db1) att); try done.
    + split; [done| | |].
      * apply Hex2. exact Hex.
      * apply (zones_right_shrunk db _ att r p rs rs'); try done; [cbn; by rewrite R1| |].
        -- intros x Hx. rewrite Hperm. by right.
        -- intros x Hx. assert (Hlen : rrs rs' <> []).
           { intros E0. apply Permutation_length in Hperm. cbn in E0. rewrite E0 in Hperm. unfold rr_count, zlength in *. simpl in Hperm. lia. }
           destruct (rrs rs') as [|x' l'] eqn:E0; [done|]. exists x'. split; [by left|]. rewrite Forall_forall in Hg.
           rewrite (good_type _ _ _ _ (Hg x Hx)). apply (good_type db p), Hg. rewrite Hperm. right. change (swap_out m (rrs rs)) with (rrs rs'). rewrite E0. by left.
      * intros r2 p2 rs2 H2 E2. cbn in E2. rewrite R1 in E2. apply lookup_insert_Some in E2 as [[<- <-]|[Hn E2]]; [|by apply (Hne r2 p2)].
        intros E0. apply Permutation_length in Hperm. cbn in E0. rewrite E0 in Hperm. unfold rr_count, zlength in *. simpl in Hperm. lia.
    + exact (low_plain _ _ _ Hlow).
    + by apply zones_kept_eq.
    + intros k q. apply (low_names _ _ _ Hlow).
Qed.

(** * One record deleted *)

(** The name of the apex of the zone. *)
Definition zone_apex (db : namedb) (z : Z) (ls : name) : Prop := exists a p,
  zones db !! z = Some a /\ apex a = Some p /\ names db !! ls = Some p.

(** The outcome of deleting a record from the zone [z]. *)
Definition delete_post (ls : name) (type class rdatalen z n : Z) (s : updater) (r : bool) (s' : updater) : Prop :=
  let b := up_packet s in
  let db := up_db s in
  let end_ := _position b + rdatalen in
  let says xs := rdata_at type (_data b) (_limit b) end_ [] (_position b) xs in
  let meant xs y := zone_has db z y /\ record_key y = record_key (mkrecord ls type class 0 xs) in
  if r then
    up_packet s' = set_pos end_ b /\ database_ok stale (up_db s') /\ plain_table (up_db s') /\
    zones_kept db (up_db s') /\ usages_below n (up_db s') /\ names_within (up_db s') db /\
    ((up_softfail s' = true /\ up_db s' = db /\
        ((forall y, zone_has db z y -> rec_owner y = ls -> rec_type y <> type) \/
         exists xs, says xs /\ (forall y, ~ meant xs y) /\ ~ (type = TYPE_SOA /\ zone_apex db z ls))) \/
     exists xs y, says xs /\ zone_has db z y /\ up_softfail s' = up_softfail s /\
        (meant xs y \/ (forall y', ~ meant xs y') /\ type = TYPE_SOA /\ zone_apex db z ls /\ rec_owner y = ls /\ rec_type y = type) /\
        forall z' x, zone_has (up_db s') z' x <-> zone_has db z' x /\ ~ (z' = z /\ x = y))
  else forall xs, ~ says xs.

Lemma created_usages t : domain_table_create = Ok t -> usages_below 2 t.
Proof using.
  assert (E : domain_table_create = Ok (mkdb {[0 := mkdomain true (of_labels []) None 0 [] 1 1 false false]} ∅ ∅
    (tree_insert tree_create (of_labels []) 0) [0] tree_create)) by reflexivity.
  rewrite E. intros [= <-] ls q d _ Hd. cbn in Hd. apply lookup_singleton_Some in Hd as [_ <-]. cbn. lia.
Qed.

(** Where a record is. *)
Lemma zone_has_place db att pins loans z y : store db att pins loans -> zone_has db z y ->
  exists r p rs x, att !! r = Some p /\ rrsets db !! r = Some rs /\ rrset_zone rs = z /\ x ∈ rrs rs /\ y = record_of db x /\
    names db !! rec_owner y = Some p /\ rr_type x = rec_type y.
Proof using.
  intros Hst Hy. pose proof (st_table _ _ _ _ Hst) as [Hdb _].
  apply (zone_has_att db att pins loans) in Hy as (r & p & rs & x & Hr & Hrs & Hz & Hx & ->); [|done].
  destruct (st_owner _ _ _ _ Hst _ _ Hr) as ([k Hk] & rs' & E & [_ _ [t Hg] _]). assert (rs' = rs) as -> by congruence.
  rewrite Forall_forall in Hg. exists r, p, rs, x. split_and!; try done. cbn.
  by rewrite (good_owner _ _ _ _ (Hg x Hx)), (labels_at_name db k p).
Qed.

(** The parsed data against the records of the set. *)
Lemma find_deleted db att pins z ls p r rs type class t' atoms xs : sound stale db att pins -> names db !! ls = Some p ->
  att !! r = Some p -> rrsets db !! r = Some rs -> rrset_zone rs = z -> Forall (rr_good db p type) (rrs rs) ->
  db_ok t' -> Forall2 (datum_of t') atoms xs -> rdata_typed type xs ->
  (forall y, zone_has db z y -> rec_owner y = ls -> rec_type y = type -> (length xs <= length (rec_data y))%nat) ->
  let meant y := zone_has db z y /\ record_key y = record_key (mkrecord ls type class 0 xs) in
  exists o, find_rr_num t' db rs type class atoms false = Ok o /\
    match o with
    | Some m => exists x, rrs rs !! m = Some x /\ meant (record_of db x)
    | None => forall y, ~ meant y
    end.
Proof using.
  intros Hs Hp Hr Hrs Hz Hg Ht' Hreads Hty Hfields meant. pose proof Hs as [Hst _ _ Hne]. pose proof (st_table _ _ _ _ Hst) as [Hdb _].
  assert (Hhas : forall x, x ∈ rrs rs -> zone_has db z (record_of db x) /\ rec_owner (record_of db x) = ls /\ rec_type (record_of db x) = type).
  { intros x Hx. rewrite Forall_forall in Hg. destruct (Hg x Hx) as [G1 G2 _ _ _]. cbn. rewrite G1, G2, (labels_at_name db ls p) by done.
    split_and!; [|done|done]. apply (zone_has_att db att pins []); [done|]. by exists r, p, rs, x. }
  assert (Hsays : Forall2 (rr_says db) (rrs rs) ((fun x => datum_at db <$> rdatas x) <$> rrs rs)).
  { apply Forall2_fmap_r, Forall_Forall2_diag. eapply Forall_impl; [exact Hg|]. intros x [G1 G2 G3 G4 G5].
    split; [by apply reads_at|by rewrite G2]. }
  assert (Hsame : forall m x ys, rrs rs !! m = Some x -> ((fun x => datum_at db <$> rdatas x) <$> rrs rs) !! m = Some ys ->
    rr_same type class xs x ys <-> meant (record_of db x)).
  { intros m x ys Hm Hys. rewrite list_lookup_fmap, Hm in Hys. injection Hys as <-.
    assert (Hx : x ∈ rrs rs) by (by eapply list_elem_of_lookup_2). destruct (Hhas x Hx) as (H1 & H2 & H3). unfold meant, rr_same, record_key, same_data.
    rewrite H2, H3. rewrite bool_decide_eq_true. cbn in *. rewrite H3. naive_solver congruence. }
  destruct (find_rr_num_spec t' db type class atoms xs Ht' Hdb Hreads Hty rs _ false Hsays) as (o & Ho & Hcase).
  { intros _. apply Forall_forall. intros x Hx. destruct (Hhas x Hx) as (H1 & H2 & H3). split; [done|].
    rewrite (Forall2_length _ _ _ Hreads). specialize (Hfields _ H1 H2 H3). cbn in Hfields. by rewrite length_fmap in Hfields. }
  exists o. split; [done|]. destruct o as [m|].
  - destruct Hcase as (x & ys & Hm & Hys & Hx). exists x. split; [done|]. by apply (Hsame m x ys).
  - intros y [Hy Hk]. destruct (zone_has_place db att pins [] z y Hst Hy) as (r2 & p2 & rs2 & x & H2 & E2 & Ez & Hx & -> & Hp2 & Et).
    injection Hk as Ko Kt Kc Kd. cbn in Hp2. rewrite Ko in Hp2. assert (p2 = p) as -> by congruence.
    assert (r2 = r) as ->.
    { pose proof (Hne _ _ _ Hr Hrs) as Hnil. destruct (rrs rs) as [|x0 l] eqn:E0; [done|]. apply Forall_cons in Hg as [Hg _].
      apply (st_types _ _ _ _ Hst r2 r p rs2 rs x x0); try done; [congruence|rewrite E0; by left|]. by rewrite (good_type _ _ _ _ Hg). }
    assert (rs2 = rs) as -> by congruence. apply list_elem_of_lookup in Hx as [m Hm]. assert (Hys := Hm).
    apply (f_equal (fmap (fun x => datum_at db <$> rdatas x))) in Hys. rewrite <-list_lookup_fmap in Hys.
    apply (Hcase m x _ Hm Hys), (Hsame m x _ Hm Hys). split; [done|]. unfold record_key. cbn in *. congruence.
Qed.

Lemma wp_delete_RR ls type class rdatalen z n s : database_ok stale (up_db s) -> plain_table (up_db s) ->
  is_Some (zones (up_db s) !! z) -> name_ok ls -> 0 <= type < 65536 -> 0 <= rdatalen ->
  _position (up_packet s) + rdatalen <= _limit (up_packet s) ->
  buffer_ok (up_packet s) -> _limit (up_packet s) <= MAX_PACKET_SIZE -> usages_below n (up_db s) ->
  (forall xs y, rdata_at type (_data (up_packet s)) (_limit (up_packet s)) (_position (up_packet s) + rdatalen) []
       (_position (up_packet s)) xs ->
     zone_has (up_db s) z y -> rec_owner y = ls -> rec_type y = type -> (length xs <= length (rec_data y))%nat) ->
  wp (delete_RR (of_labels ls) type class rdatalen z) (delete_post ls type class rdatalen z n s) s.
Proof using L Hstale.
  intros (att & pins & Hs) Hpl [a Ha] Hok Ht Hlen Hroom Hb Hmax Hu Hfields.
  pose proof Hs as [Hst Hex Hzr Hne]. pose proof (st_table _ _ _ _ Hst) as Htab. pose proof Htab as [Hdb _].
  assert (Hkeep : zones_kept (up_db s) (up_db s)) by done.
  assert (Hdbok : database_ok stale (up_db s)) by (by exists att, pins).
  assert (Hskip : (forall y, zone_has (up_db s) z y -> rec_owner y = ls -> rec_type y <> type) ->
    wp (on_packet (buffer_skip rdatalen);; softfail;; mret true) (delete_post ls type class rdatalen z n s) s).
  { intros Hno. wp_step. apply wp_up_packet, wp_buffer_skip; [done|destruct Hb; lia|]. unfold softfail. do 3 wp_step.
    unfold delete_post. cbn [up_packet up_db up_softfail]. split_and!; try done. left. split_and!; try done. by left. }
  unfold delete_RR. wp_step. wp_step. wp_step. apply (wp_lift _ (names (up_db s) !! ls)); [by apply domain_table_find_spec|].
  destruct (names (up_db s) !! ls) as [p|] eqn:Hp.
  2:{ apply Hskip. intros y Hy <- _. destruct (zone_has_place _ att pins [] z y Hst Hy) as (r & p & rs & x & _ & _ & _ & _ & _ & Hy' & _). congruence. }
  destruct (db_domain _ Hdb _ _ Hp) as (d & Hd & _). wp_step. apply (wp_lift _ d); [unfold domain_at; by rewrite Hd|].
  destruct (domain_find_rrset_spec (up_db s) att pins [] ls p d z type Hst Hne Hp Hd) as (o & Ho & Hcase).
  wp_step. apply (wp_lift _ o); [done|]. destruct o as [r|].
  2:{ apply Hskip. intros y Hy <- Hyt. destruct (zone_has_place _ att pins [] z y Hst Hy) as (r & q & rs & x & Hr & Hrs & Hrz & Hx & _ & Hy' & Ex).
      assert (q = p) as -> by congruence. apply (Hcase r rs x Hr Hrs Hrz Hx). congruence. }
  destruct Hcase as (Hr & rs & Hrs & Hrz & Hg).
  destruct created_ok as (t & Et & Ht1 & Ht2 & Etn). wp_step. apply (wp_lift _ t); [done|]. wp_step. apply wp_parse_aside.
  eapply wp_mono; [apply wp_rdata_atoms; try done; [lia|apply (usages_mono 2); [lia|by apply created_usages]]|].
  intros [atoms|] rd; unfold rdata_post; cbn [rd_packet rd_owners].
  2:{ intros [_ Hno]. wp_step. exact (Hno Hroom). }
  intros (xs & Hend & Hat & Hty & Hreads & Hpk & Ho2 & _). pose proof (opened_ok _ _ _ Ho2) as [Ht' _].
  destruct (find_deleted (up_db s) att pins z ls p r rs type class (rd_owners rd) atoms xs Hs Hp Hr Hrs Hrz Hg Ht' Hreads Hty (fun y => Hfields xs y Hat))
    as (m & Hm & Hfound).
  cbn [up_db]. wp_step. apply (wp_lift _ rs); [unfold rrset_at; by rewrite Hrs|]. wp_step. apply (wp_lift _ m); [done|].
  wp_step. apply (wp_lift _ a); [unfold zone_at; by rewrite Ha|]. cbv zeta.
  assert (Hgo : forall k y, rrs rs !! k = Some y ->
    ((zone_has (up_db s) z (record_of (up_db s) y) /\ record_key (record_of (up_db s) y) = record_key (mkrecord ls type class 0 xs)) \/
     (forall y', ~ (zone_has (up_db s) z y' /\ record_key y' = record_key (mkrecord ls type class 0 xs))) /\ type = TYPE_SOA /\
       zone_apex (up_db s) z ls) ->
    wp (on_database (delete_found p r k);; mret true) (delete_post ls type class rdatalen z n s)
      (mkupdater (rd_packet rd) (up_db s) (up_softfail s))).
  { intros k y Hk Hmeant. wp_step. apply wp_on_database. cbn [up_db up_packet up_softfail].
    apply (wp_delete_found (up_db s) att pins ls p r rs k y n); try done. intros db' att' Hs' Hpl' Hkept Hu' Hhas Hin. cbn beta. wp_step.
    unfold delete_post. cbn [up_packet up_db up_softfail]. split_and!; try done; [by exists att', pins|]. right.
    assert (Hy : rr_good (up_db s) p type y) by (rewrite Forall_forall in Hg; apply Hg; by eapply list_elem_of_lookup_2).
    exists xs, (record_of (up_db s) y). split_and!; try done.
    - apply (zone_has_att _ att pins []); [done|]. exists r, p, rs, y. split_and!; try done. by eapply list_elem_of_lookup_2.
    - destruct Hmeant as [H|(H1 & H2 & H3)]; [by left|right]. split_and!; try done; cbn.
      + by rewrite (good_owner _ _ _ _ Hy), (labels_at_name _ ls p).
      + by rewrite (good_type _ _ _ _ Hy).
    - intros z' x. rewrite Hhas. by rewrite Hrz. }
  destruct m as [m|].
  - destruct Hfound as (y & Hy & Hmeant). apply (Hgo m y Hy). by left.
  - destruct ((type =? TYPE_SOA) && bool_decide (apex a = Some p) && negb (rr_count rs =? 0)) eqn:Esoa.
    + bool_simpl. destruct (rrs rs) as [|y l] eqn:El; [by destruct (Hne _ _ _ Hr Hrs)|]. rewrite <-El in *.
      apply (Hgo 0%nat y); [by rewrite El|]. right. split_and!; [done|lia|]. by exists a, p.
    + unfold softfail. do 3 wp_step. unfold delete_post. cbn [up_packet up_db up_softfail]. split_and!; try done. left. split_and!; try done.
      right. exists xs. split_and!; try done. intros [-> (a' & p' & Ha' & Hap & Hp')]. assert (a' = a) as -> by congruence.
      assert (p' = p) as -> by congruence. rewrite Z.eqb_refl, bool_decide_true in Esoa by done. cbn [andb] in Esoa.
      apply negb_false_iff, Z.eqb_eq in Esoa. unfold rr_count, zlength in Esoa. apply (Hne _ _ _ Hr Hrs), nil_length_inv. lia.
Qed.

(** C11 (refinement): deleting the record a transfer holds from a zone of a database that is in order.  When the zone has
    the record, whatever its TTL, the zone has afterwards the other records it had and every other zone has what it
    had; the SOA record of the zone goes whatever its data.  When there is no such record nothing changes and that
    is noted as unexpected.  The data is passed over, and the database is in order again: domains that are left without
    use have gone, the ones without data no longer exist, and no pointer is left to what has gone.  Deleting fails
    only when the data does not parse. *)
Theorem delete_RR_correct ls type class rdatalen z n s : database_ok stale (up_db s) -> plain_table (up_db s) ->
  is_Some (zones (up_db s) !! z) -> name_ok ls -> 0 <= type < 65536 -> 0 <= rdatalen ->
  _position (up_packet s) + rdatalen <= _limit (up_packet s) ->
  buffer_ok (up_packet s) -> _limit (up_packet s) <= MAX_PACKET_SIZE -> usages_below n (up_db s) ->
  (forall xs y, rdata_at type (_data (up_packet s)) (_limit (up_packet s)) (_position (up_packet s) + rdatalen) []
       (_position (up_packet s)) xs ->
     zone_has (up_db s) z y -> rec_owner y = ls -> rec_type y = type -> (length xs <= length (rec_data y))%nat) ->
  exists r s', delete_RR (of_labels ls) type class rdatalen z s = Ok (r, s') /\
    delete_post ls type class rdatalen z n s r s'.
Proof using L Hstale. intros. by apply wp_elim, wp_delete_RR. Qed.
End delete.
