(* ===== verification/TransferProofs.v ===== *)
(** Theorems about applied zone transfers (Transfer.v): a zone made is empty, a
    zone emptied has no records and the others keep theirs. *)

From S2P Require Import Prelude Buffer Dname DnameProofs DnamePacket Dns Packet PacketProofs Contents Namedb NamedbProofs NamedbTable Rdata RdataProofs NamedbDelete Respond Diff Transfer DiffExisting DiffFind DiffStore DiffSets DiffProofs DiffDelete.

Section transfer.
Context `{T : NameTree} {L : NameTreeLaws T}.

Abbreviation names db := (contents (nametree db)).

(** * A zone made *)

(** Loans that are to stay. *)
Lemma store_pin db att pins l : store db att pins l -> store db att (pins ++ l) [].
Proof using.
  intros [S1 S2 S3 S4 S5 S6 S7 S8]. split; try done.
  - by rewrite app_nil_r.
  - intros ls q d Hq Hd. rewrite app_nil_r. by apply (S6 ls).
  - intros p Hp. apply elem_of_app. left. by apply S7.
  - intros z a Ha. destruct (S8 z a Ha) as [H1 H2]. split; [|done]. intros p Hp. apply elem_of_app. left. by apply H1.
Qed.

(** One more use of a domain. *)
Lemma store_use db att pins ls p d d' : store db att pins [] -> names db !! ls = Some p -> domains db !! p = Some d ->
  same_core d d' -> is_existing d' = is_existing d -> domain_rrsets d' = domain_rrsets d -> usage d' = usage d + 1 ->
  store (put_domain p d' db) att pins [Atom_domain p] /\
  (forall z x, zone_has (put_domain p d' db) z x <-> zone_has db z x) /\
  forall stale, existing_upto stale db -> existing_upto stale (put_domain p d' db).
Proof using.
  intros Hst Hp Hd Hcore Hx Hr Hu. pose proof (st_table _ _ _ _ Hst) as Hok. pose proof Hok as [Hdb _].
  pose proof (table_ok_put db p d d' Hok Hd Hcore Hx) as Hok'.
  assert (Hlook : forall q e', domains (put_domain p d' db) !! q = Some e' -> exists e, domains db !! q = Some e /\
    domain_rrsets e' = domain_rrsets e /\ is_existing e' = is_existing e /\ usage e' = usage e + (if decide (p = q) then 1 else 0)).
  { intros q e' He. cbn in He. apply lookup_insert_Some in He as [[<- <-]|[Hne He]].
    - exists d. by rewrite decide_True.
    - exists e'. rewrite decide_False by done. split_and!; try done. lia. }
  assert (Hdom : forall k q e', names (put_domain p d' db) !! k = Some q -> domains (put_domain p d' db) !! q = Some e' ->
    (exists e, names db !! k = Some q /\ domains db !! q = Some e /\ domain_rrsets e' = domain_rrsets e /\
       refs q (held db att ++ pins ++ [Atom_domain p]) <= usage e') \/
    (names db !! k = None /\ domain_rrsets e' = [] /\ refs q [Atom_domain p] <= usage e')).
  { intros k q e' Hq He. destruct (Hlook q e' He) as (e & He0 & E1 & _ & E2). left. exists e. split_and!; try done.
    pose proof (st_uses _ _ _ _ Hst _ _ _ Hq He0) as Hle. rewrite app_nil_r in Hle. rewrite app_assoc, refs_app, refs_one, E2.
    repeat case_decide; try lia; congruence. }
  assert (Hstay : forall k q, names db !! k = Some q ->
    0 < refs q (held db att ++ pins ++ [Atom_domain p]) \/ (exists r, att !! r = Some q) -> names (put_domain p d' db) !! k = Some q) by done.
  assert (Hin : Forall (atom_in (put_domain p d' db)) [Atom_domain p]) by (constructor; [by exists ls|constructor]).
  split_and!.
  - by apply (store_transport db _ att pins []).
  - intros. by apply (transport_has db _ att pins [] [Atom_domain p]).
  - intros stale Hex. apply (exact_transport db); try done; [|apply Hok'].
    intros k q e' Hq He. destruct (Hlook q e' He) as (e & He0 & E1 & E2 & _). left. by exists e.
Qed.

(** The zone that is new. *)
Lemma store_new_zone db att pins z a p : store db att pins [] -> zones db !! z = None -> apex a = Some p ->
  Atom_domain p ∈ pins -> soa_nx_rrset a = None -> store (put_zone z a db) att pins [].
Proof using.
  intros Hst Hz Hap Hp Hnx. assert (Hsame : same_table db (put_zone z a db)) by done.
  destruct Hst as [S1 S2 S3 S4 S5 S6 S7 S8]. split; try done.
  - by apply (table_ok_same db).
  - intros r q Hr. destruct (S3 r q Hr) as (H1 & rs & Hrs & [G1 G2 [type G3] G4]). split; [done|]. exists rs. split; [done|].
    split; [done| | |done].
    + cbn. apply lookup_insert_is_Some'. by right.
    + exists type. eapply Forall_impl; [exact G3|]. by intros y [].
  - intros z' b Hb. cbn in Hb. apply lookup_insert_Some in Hb as [[<- <-]|[_ Hb]]; [|by apply (S8 z')].
    split; [intros q Hq; congruence|congruence].
Qed.

(** No set is of a zone there is not. *)
Lemma no_sets db att pins loans z r p rs : store db att pins loans -> zones db !! z = None -> att !! r = Some p ->
  rrsets db !! r = Some rs -> rrset_zone rs <> z.
Proof using.
  intros Hst Hz Hr Hrs <-. destruct (st_owner _ _ _ _ Hst _ _ Hr) as (_ & rs' & E & Hg). assert (rs' = rs) as -> by congruence.
  destruct (set_zone _ _ _ Hg) as [a Ha]. congruence.
Qed.

Definition new_zone (p : Z) (expires_ : bool) : zone := mkzone (Some p) None None None false true expires_.

(** The database with another tree of zones. *)
Lemma sound_zonetree stale db att pins t : sound stale db att pins -> sound stale (set_zonetree t db) att pins.
Proof using.
  intros [Hst Hex Hzr Hne]. assert (Hsame : same_table db (set_zonetree t db)) by done. split; try done.
  - destruct Hst as [S1 S2 S3 S4 S5 S6 S7 S8]. split; try done; [by apply (table_ok_same db)|].
    intros r q Hr. destruct (S3 r q Hr) as (H1 & rs & Hrs & Hg). split; [done|]. exists rs. split; [done|].
    by apply (set_good_same db).
  - by apply (zones_right_ext db).
Qed.

Lemma wp_namedb_zone_create stale db att pins ls expires_ n (Q : Z -> namedb -> Prop) : Upward stale ->
  sound stale db att pins -> name_ok ls -> 0 < n -> usages_below n db -> namedb_find_zone db (of_labels ls) = None ->
  (forall z p db', zones db !! z = None -> sound stale db' att (pins ++ [Atom_domain p]) -> names db' !! ls = Some p ->
     zones db' = <[z := new_zone p expires_]> (zones db) -> zonetree db' = tree_insert (zonetree db) (of_labels ls) z ->
     usages_below (n + 1) db' -> (forall z' x, zone_has db' z' x <-> zone_has db z' x) ->
     (forall k q, names db' !! k = Some q -> is_Some (names db !! k) \/ k `suffix_of` ls) -> Q z db') ->
  wp (namedb_zone_create (of_labels ls) expires_) Q db.
Proof using L.
  intros Hstale Hs Hok Hn Hu Hno HQ. unfold namedb_zone_create. wp_step. wp_step. cbv zeta. set (z := allocate (zones db)).
  assert (Hz : zones db !! z = None) by apply allocate_fresh.
  wp_step. apply wp_assert; [by apply bool_decide_eq_true|]. do 3 wp_step. set (dbt := set_zonetree _ db).
  pose proof (sound_zonetree stale db att pins (tree_insert (zonetree db) (of_labels ls) z) Hs) as Hst. fold dbt in Hst.
  pose proof (st_table _ _ _ _ (sound_store _ _ _ _ Hst)) as Hdbt.
  eapply wp_mono; [apply (wp_domain_table_insert _ ls (proj1 Hdbt) Hok)|].
  intros p db1 [Hf Hp]. pose proof (filled_opened _ _ _ Hdbt Hf) as Ho. destruct (sound_opened _ _ _ _ Hst Ho) as (Hs1 & Hhas1 & Hz1).
  pose proof (opened_rest _ _ _ Ho) as (R1 & R2 & R3). cbn in R1, R2, R3.
  assert (Hu1 : usages_below n db1) by (apply (usages_opened_nil n dbt); try done; apply Hdbt).
  pose proof Hs1 as [Hst1 Hex1 Hzr1 Hne1]. pose proof (st_table _ _ _ _ Hst1) as [Hdb1 _].
  destruct (db_domain db1 Hdb1 _ _ Hp) as (d & Hd & _). wp_step. eapply wp_get_domain; [done|]. do 3 wp_step.
  set (d' := set_apex (set_usage (usage d + 1) d)). repeat wp_step.
  destruct (store_use db1 att pins ls p d d') as (Hst2 & Hhas2 & Hex2); try done.
  pose proof (store_pin _ _ _ _ Hst2) as Hst3.
  pose proof (store_new_zone _ _ _ z (new_zone p expires_) p Hst3) as Hst4. specialize (Hst4 ltac:(cbn; congruence) eq_refl).
  specialize (Hst4 ltac:(apply elem_of_app; right; by left) eq_refl).
  assert (Hnone : zones (put_domain p d' db1) !! z = None) by (cbn; congruence).
  apply (HQ z p); try done.
  - split; [done|by apply Hex2| |done]. intros z' b Hb. cbn in Hb. apply lookup_insert_Some in Hb as [[<- <-]|[_ Hb]].
    + assert (Hnil : forall r q rs, att !! r = Some q -> rrsets db1 !! r = Some rs -> rrset_zone rs <> z).
      { intros r q rs. by apply (no_sets _ _ _ _ z r q rs Hst3). }
      split.
      * intros r. split; [done|]. intros (q & rs & x & _ & H1 & H2 & H3 & _). by destruct (Hnil r q rs).
      * intros r. split; [done|]. intros (q & rs & x & _ & H1 & H2 & H3 & _). by destruct (Hnil r q rs).
      * intros (q & r & rs & x & _ & H1 & H2 & H3 & _). by destruct (Hnil r q rs).
    + apply (zone_right_ext db1); [done|]. by apply Hzr1.
  - cbn. by rewrite R2.
  - intros k q e Hq He. cbn in Hq, He. apply lookup_insert_Some in He as [[<- <-]|[_ He]].
    + pose proof (Hu1 _ _ _ Hp Hd). cbn. lia.
    + pose proof (Hu1 _ _ _ Hq He). lia.
  - intros z' x. change (zone_has (put_domain p d' db1) z' x <-> zone_has db z' x). rewrite Hhas2, Hhas1. done.
  - intros k q Hq. cbn in Hq. by apply (filled_names _ _ _ Hf).
Qed.

(** The empty database. *)
Lemma created_sound t : domain_table_create = Ok t -> sound none_of t ∅ [Atom_domain 0].
Proof using L.
  intros Ht. destruct created_ok as (t' & Et & Hdb & Hcl & Hn). assert (t' = t) as -> by congruence.
  assert (E : domain_table_create = Ok (mkdb {[0 := mkdomain true (of_labels []) None 0 [] 1 1 false false]} ∅ ∅
    (tree_insert tree_create (of_labels []) 0) [0] tree_create)) by reflexivity.
  assert (Hd : forall q d, domains t !! q = Some d -> q = 0 /\ domain_rrsets d = [] /\ is_existing d = false /\ usage d = 1).
  { rewrite Ht in E. injection E as ->. intros q d Hd. cbn in Hd. apply lookup_singleton_Some in Hd as [<- <-]. done. }
  assert (Hz : zones t = ∅ /\ rrsets t = ∅) by (rewrite Ht in E; by injection E as ->). destruct Hz as [Hz Hr].
  split.
  - split; try done.
    + intros ls p d Hp Hd'. destruct (Hd _ _ Hd') as (_ & -> & _). split; [constructor|]. intros r. by rewrite elem_of_nil, lookup_empty.
    + constructor; [|constructor]. exists []. by rewrite Hn, lookup_singleton_eq.
    + intros ls q d Hq Hd'. destruct (Hd _ _ Hd') as (-> & _ & _ & ->). done.
    + intros p. rewrite Hn, lookup_singleton_eq. intros [= <-]. by left.
    + intros z a. by rewrite Hz.
  - apply existing_upto_none. intros k p d _ Hd'. destruct (Hd _ _ Hd') as (_ & _ & -> & _). split; [done|].
    intros (j & q & e & _ & He & Hne). by destruct (Hd _ _ He) as (_ & E' & _).
  - intros z a. by rewrite Hz.
  - done.
Qed.
End transfer.
