(* ===== verification/TransferDelete.v ===== *)
(** A zone emptied ([delete_zone_rrs] of Transfer.v): its records go, the
    records of the other zones stay, and the database is in order but for names
    in and above the zone that may exist without data. *)

From S2P Require Import Prelude Buffer Dname DnameProofs DnamePacket Dns Packet Contents Namedb NamedbProofs NamedbTable Rdata RdataProofs NamedbDelete Respond Diff Transfer DiffExisting DiffFind DiffStore DiffSets DiffProofs DiffDelete TransferProofs.

(** The names at, below and above [top]. *)
Definition around (top k : name) : Prop := top `suffix_of` k \/ k `suffix_of` top.

#[export] Instance upward_around top : Upward (around top).
Proof.
  intros j k [H|H]; [by apply (suffix_weak_total _ _ (j ++ k)); [|exists j]|right].
  by transitivity (j ++ k); [exists j|].
Qed.
#[export] Instance upward_or A B : Upward A -> Upward B -> Upward (fun k => A k \/ B k).
Proof. intros HA HB j k [H|H]; [left; by apply (upward j)|right; by apply (upward j)]. Qed.

Section transfer.
Context `{T : NameTree} {L : NameTreeLaws T}.
Context {stale : name -> Prop} {Hstale : Upward stale}.

Abbreviation names db := (contents (nametree db)).

(** * A record set deleted *)
Lemma wp_rrs_lower_usage l : forall db (Q : unit -> namedb -> Prop),
  Forall (fun y => fields_fit (rr_type y) 0 (rdatas y)) l -> table_ok db -> plain_table db -> returnable db (l ≫= rdatas) ->
  (forall db', lowered db db' (l ≫= rdatas) -> Q tt db') -> wp (rrs_lower_usage l) Q db.
Proof using L.
  induction l as [|y l IH]; intros db Q Hfit Hok Hpl Hret HQ; cbn [rrs_lower_usage].
  { wp_step. apply HQ, pruned_lowered, pruned_refl; done. }
  apply Forall_cons in Hfit as [Hy Hfit]. change ((y :: l) ≫= rdatas) with (rdatas y ++ (l ≫= rdatas)) in *.
  assert (Hret1 : returnable db (rdatas y)).
  { destruct Hret as [H1 H2 H3]. apply Forall_app in H1 as [H1 _]. split; [done| |].
    - intros ls q d Hq Hd. specialize (H2 ls q d Hq Hd). rewrite refs_app in H2. pose proof (refs_bounds q (l ≫= rdatas)). lia.
    - intros p d Hp Hd. specialize (H3 p d Hp Hd). rewrite refs_app in H3. pose proof (refs_bounds p (l ≫= rdatas)). lia. }
  wp_step. unfold rr_lower_usage. apply wp_lower_usage_from; try done. intros db1 Hlow.
  pose proof (returnable_lowered db db1 _ _ (proj1 Hok) Hret Hlow) as Hret2.
  apply IH; [done|apply Hlow|apply Hlow|done|]. intros db2 Hlow2. apply HQ.
  apply (lowered_trans db db1 db2); [apply Hok|apply Hret2|done|done].
Qed.

(** The zone is flagged as secure only when there is a reason to. *)
Definition secure_right (db : namedb) (att : gmap Z Z) (z : Z) : Prop := forall a,
  zones db !! z = Some a -> is_secure a = true -> signed_keys db att z a.

(** Nothing is left of the set [r] of [p]; the domain stays where it is. *)
Record set_gone (db db' : namedb) (att : gmap Z Z) (ls : name) (p r z : Z) (rs : rrset) : Prop := {
  gone_zones : zones_kept db db';
  gone_place : names db' !! ls = Some p;
  gone_names k q : names db' !! k = Some q -> names db !! k = Some q;
  gone_has z' x : zone_has db' z' x <-> zone_has db z' x /\ ~ (z' = z /\ exists y, y ∈ rrs rs /\ x = record_of db y);
  gone_rrsets d d' : domains db !! p = Some d -> domains db' !! p = Some d' -> domain_rrsets d' = unlink r (domain_rrsets d);
  gone_sets r' : r' <> r -> rrsets db' !! r' = rrsets db !! r';
  gone_secure : secure_right db att z -> secure_right db' (delete r att) z;
}.

Lemma wp_delete_set db att pins ls p z r rs n (Q : unit -> namedb -> Prop) : sound stale db att pins -> plain_table db ->
  usages_below n db -> names db !! ls = Some p -> att !! r = Some p -> rrsets db !! r = Some rs -> rrset_zone rs = z ->
  (forall k, k `suffix_of` ls -> stale k) ->
  (forall db', sound stale db' (delete r att) pins -> plain_table db' -> usages_below n db' ->
     set_gone db db' att ls p r z rs -> Q tt db') ->
  wp (rrset_lower_usage r;; rrset_delete p r) Q db.
Proof using L Hstale.
  intros Hs Hpl Hu Hp Hr Hrs Hz Hall HQ. pose proof Hs as [Hst Hex Hzr Hne]. pose proof (Hne _ _ _ Hr Hrs) as Hnil.
  destruct (st_owner _ _ _ _ Hst _ _ Hr) as (_ & rs0 & E & [_ [a Ha] [type Hg] _]). assert (rs0 = rs) as -> by congruence.
  rewrite Hz in Ha. set (rs' := mkrrset z []).
  destruct (store_shrink db att pins r p rs rs' (rrs rs) Hst Hr Hrs (eq_sym Hz)) as [Hst1 Hhas1]; [by rewrite app_nil_r|].
  pose proof (returnable_store _ _ _ _ Hst1) as Hret1. assert (Hret : returnable db (rrs rs ≫= rdatas)) by (by destruct Hret1).
  assert (Hdb : db_ok db) by apply (st_table _ _ _ _ Hst). destruct (db_domain db Hdb _ _ Hp) as (d & Hd & _).
  assert (Hin : r ∈ domain_rrsets d) by (by apply (st_att _ _ _ _ Hst ls p d)).
  unfold rrset_lower_usage, get_rrset. wp_step. wp_step. wp_step. wp_step. apply (wp_lift _ rs); [unfold rrset_at; by rewrite Hrs|].
  apply wp_rrs_lower_usage; [|apply (st_table _ _ _ _ Hst)|done|done|].
  { eapply Forall_impl; [exact Hg|]. intros x Hx. rewrite (good_type _ _ _ _ Hx). by apply (good_fits db p). }
  intros db1 Hlow. pose proof (lowered_put db db1 _ r rs' Hlow) as Hlow1.
  destruct (store_lowered (stale:=stale) _ _ att pins _ Hst1 Hlow1) as (Hst2 & Hhas2 & Hex2).
  destruct (low_rest _ _ _ Hlow) as (R1 & R2 & _).
  assert (Hp1 : names db1 !! ls = Some p).
  { destruct (names db1 !! ls) as [q|] eqn:Eq; [by rewrite <-Hp, (low_names _ _ _ Hlow _ _ Eq)|].
    destruct (low_gone _ _ _ Hlow _ _ _ Hp Hd Eq) as [En _]. rewrite En in Hin. by apply elem_of_nil in Hin. }
  destruct (low_kept _ _ _ Hlow _ _ _ Hp1 Hd) as (m & w & Hd1).
  apply (wp_rrset_delete (stale:=stale) db1 att pins r p z type rs ls a Hst2 (zones_right_ext db db1 att R1 R2 Hzr) Hr
    (eq_trans (f_equal (fun m => m !! r) R1) Hrs) Hz) with (d := set_number m (set_wildcard w (set_usage (usage d - refs p (rrs rs ≫= rdatas)) d)));
    try done.
  - eapply Forall_impl; [exact Hg|]. intros x Hx. apply (good_type _ _ _ _ Hx).
  - by rewrite R2.
  - intros r2 rs2 x2 H2 Hn E2 Ez Hx2 Et. rewrite R1 in E2. apply Hn. destruct (rrs rs) as [|y l] eqn:El; [done|].
    apply Forall_cons in Hg as [Hy _]. apply (st_types _ _ _ _ Hst r2 r p rs2 rs x2 y); try done; [congruence|rewrite El; by left|].
    by rewrite Et, (good_type _ _ _ _ Hy).
  - intros Et. eapply Forall_impl; [exact Hg|]. intros x Hx. rewrite Et in Hx. exact (rrsig_covered db p x Hx).
  - intros a' db2 Hst3 Hzr3 Hkept3 Hhas3 Hbut3 Hsec. apply HQ.
    + split; [done| |done|].
      * apply (exact_but_data db2 ls); [apply Hbut3, Hex2, Hex|right; by apply Hall].
      * intros r2 p2 rs2 [Hn H2]%lookup_delete_Some E2. cbn in E2. rewrite lookup_delete_ne, R1 in E2 by done. by apply (Hne r2 p2).
    + exact (low_plain _ _ _ Hlow).
    + assert (Hu1 : usages_below n db1) by (by apply (usages_lowered n db db1 (rrs rs ≫= rdatas))).
      intros k q e Hq He. cbn in Hq, He. apply lookup_insert_Some in He as [[<- <-]|[_ He]]; [exact (Hu1 _ _ _ Hp1 Hd1)|by apply (Hu1 k q e)].
    + split.
      * intros z'. rewrite (Hkept3 z'). by rewrite R2.
      * exact Hp1.
      * exact (low_names _ _ _ Hlow).
      * intros z' x. rewrite Hhas3; fold rs'; rewrite Hhas2, Hhas1. by rewrite Hz.
      * intros e e' He He'. cbn in He'. rewrite lookup_insert_eq in He'. injection He' as <-. cbn. by assert (d = e) as -> by congruence.
      * intros r' Hn. cbn. by rewrite lookup_delete_ne, R1.
      * intros Hright b Hb Hsb. cbn in Hb. rewrite lookup_insert_eq in Hb. injection Hb as <-. destruct (Hsec Hsb) as [Hsa Hcov].
        destruct (Hright a Ha Hsa) as (q & r2 & rs2 & x & H1 & H2 & H3 & H4 & H5 & H6).
        assert (Hap : apex a' = apex a).
        { specialize (Hkept3 z). cbn in Hkept3. rewrite lookup_insert_eq, R2, Ha in Hkept3. by injection Hkept3. }
        assert (r2 <> r).
        { intros ->. assert (q = p) as -> by congruence. assert (rs2 = rs) as -> by congruence. by apply (Hcov H1 x). }
        exists q, r2, rs2, x. cbn. rewrite Hap, R1, !lookup_delete_ne by done. by split_and!.
Qed.

(** * The record sets of a domain *)

(** Of the zone [z] the records at the names [P] are gone. *)
Record emptied (z : Z) (P : name -> Prop) (db db' : namedb) : Prop := {
  emptied_zones : zones_kept db db';
  emptied_names k q : names db' !! k = Some q -> names db !! k = Some q;
  emptied_has z' x : zone_has db' z' x <-> zone_has db z' x /\ ~ (z' = z /\ P (rec_owner x));
}.

Lemma emptied_trans z P1 P2 P db db1 db2 : (forall k, P k <-> P1 k \/ P2 k) -> emptied z P1 db db1 -> emptied z P2 db1 db2 ->
  emptied z P db db2.
Proof using.
  intros HP [Z1 N1 H1] [Z2 N2 H2]. split.
  - intros z'. by rewrite (Z2 z').
  - intros k q Hq. by apply N1, N2.
  - intros z' x. rewrite H2, H1, HP. tauto.
Qed.

(** The sets of the zone at the domain. *)
Lemma domain_find_any_rrset_spec db att pins ls p d z : store db att pins [] -> names db !! ls = Some p ->
  domains db !! p = Some d -> exists o, domain_find_any_rrset db d z = Ok o /\
  match o with
  | Some r => att !! r = Some p /\ exists rs, rrsets db !! r = Some rs /\ rrset_zone rs = z
  | None => forall r rs, att !! r = Some p -> rrsets db !! r = Some rs -> rrset_zone rs <> z
  end.
Proof using.
  intros Hst Hp Hd. destruct (st_att _ _ _ _ Hst _ _ _ Hp Hd) as [_ Hatt].
  assert (H : exists o, domain_find_any_rrset db d z = Ok o /\
    match o with
    | Some r => r ∈ domain_rrsets d /\ exists rs, rrsets db !! r = Some rs /\ rrset_zone rs = z
    | None => forall r rs, r ∈ domain_rrsets d -> rrsets db !! r = Some rs -> rrset_zone rs <> z
    end).
  { unfold domain_find_any_rrset. assert (Hl : forall r, r ∈ domain_rrsets d -> is_Some (rrsets db !! r)).
    { intros r Hr%Hatt. destruct (st_owner _ _ _ _ Hst _ _ Hr) as (_ & rs & Hrs & _). by exists rs. }
    clear Hatt. induction (domain_rrsets d) as [|r l IH]; cbn [find_in_rrsets].
    { exists None. split; [done|]. intros r rs Hr. by apply elem_of_nil in Hr. }
    destruct (Hl r ltac:(by left)) as [rs Hrs]. unfold rrset_at. rewrite Hrs. cbn [points_to mbind res_bind mret res_ret].
    destruct (Z.eqb_spec (rrset_zone rs) z) as [Ez|Ez].
    - exists (Some r). split; [done|]. split; [by left|by exists rs].
    - destruct IH as (o & Ho & Hcase); [intros; apply Hl; by right|]. exists o. split; [done|]. destruct o as [r0|].
      + destruct Hcase as [H1 H2]. split; [by right|done].
      + intros r0 rs0 [->|H0]%elem_of_cons E; [congruence|by apply (Hcase r0 rs0)]. }
  destruct H as (o & Ho & Hcase). exists o. split; [done|]. destruct o as [r|].
  - destruct Hcase as [Hr H]. split; [by apply Hatt|done].
  - intros r rs Hr. apply Hcase. by apply Hatt.
Qed.

Lemma length_unlink r l : r ∈ l -> length l = S (length (unlink r l)).
Proof using.
  induction l as [|x l IH]; intros Hr; [by apply elem_of_nil in Hr|]. cbn [unlink].
  destruct (Z.eqb_spec x r) as [->|Hne]; [done|]. apply elem_of_cons in Hr as [->|Hr]; [done|]. cbn [length]. by rewrite <-IH.
Qed.

(** Between two steps of the walk over the tree. *)
Record walking (db : namedb) (pins : list rdata_atom) (z n : Z) : Prop := {
  walk_sound : exists att, sound stale db att pins /\ secure_right db att z;
  walk_plain : plain_table db;
  walk_usages : usages_below n db;
}.

Lemma wp_delete_rrsets_loop ls p z pins n fuel : (forall k, k `suffix_of` ls -> stale k) -> forall db d b (Q : bool -> namedb -> Prop),
  walking db pins z n -> names db !! ls = Some p -> domains db !! p = Some d -> (length (domain_rrsets d) < fuel)%nat ->
  (forall b' db', walking db' pins z n -> names db' !! ls = Some p -> emptied z (eq ls) db db' -> Q b' db') ->
  wp (st_iter fuel (fun nonexist_check : bool =>
    db ← st_get;
    d ← get_domain p;
    r ← lift (domain_find_any_rrset db d z);
    match r with
    | None => mret (inr nonexist_check)
    | Some r =>
        rrset_lower_usage r;;
        rrset_delete p r;;
        d ← get_domain p;
        mret (inl (nonexist_check || bool_decide (domain_rrsets d = [])))
    end) b) Q db.
Proof using L Hstale.
  intros Hall. induction fuel as [|fuel IH]; intros db d b Q Hw Hp Hd Hlen HQ; [lia|]. pose proof Hw as [(att & Hs & Hsec) Hpl Hu].
  pose proof (sound_store _ _ _ _ Hs) as Hst. cbn [st_iter]. do 3 wp_step. wp_step. eapply wp_get_domain; [done|].
  destruct (domain_find_any_rrset_spec db att pins ls p d z Hst Hp Hd) as (o & Ho & Hcase). wp_step. apply (wp_lift _ o); [done|].
  destruct o as [r|].
  - destruct Hcase as (Hr & rs & Hrs & Hz). apply (wp_assoc (rrset_lower_usage r)). wp_step.
    apply (wp_delete_set db att pins ls p z r rs n); try done. intros db1 Hs1 Hpl1 Hu1 Hg. cbn beta.
    pose proof (gone_place _ _ _ _ _ _ _ _ Hg) as Hp1. pose proof (st_table _ _ _ _ (sound_store _ _ _ _ Hs1)) as [Hdb1 _].
    destruct (db_domain db1 Hdb1 _ _ Hp1) as (d1 & Hd1 & _). wp_step. eapply wp_get_domain; [done|]. wp_step.
    apply (IH db1 d1); [|done|done| |].
    + split; [|done..]. exists (delete r att). split; [done|]. by apply (gone_secure _ _ _ _ _ _ _ _ Hg).
    + rewrite (gone_rrsets _ _ _ _ _ _ _ _ Hg d d1 Hd Hd1). rewrite (length_unlink r) in Hlen; [lia|].
      by apply (st_att _ _ _ _ Hst ls p d).
    + intros b' db2 Hw2 Hp2 [Z2 N2 H2]. apply HQ; [done|done|]. split.
      * intros z'. rewrite (Z2 z'). apply (gone_zones _ _ _ _ _ _ _ _ Hg).
      * intros k q Hq. by apply (gone_names _ _ _ _ _ _ _ _ Hg), N2.
      * intros z' x. rewrite H2, (gone_has _ _ _ _ _ _ _ _ Hg). split; [tauto|]. intros [H3 H4]. split; [|done]. split; [done|].
        intros (-> & y & Hy & ->). apply H4. split; [done|]. cbn. destruct (st_owner _ _ _ _ Hst _ _ Hr) as (_ & rs0 & E & [_ _ [t Ht] _]).
        assert (rs0 = rs) as -> by congruence. rewrite Forall_forall in Ht. rewrite (good_owner _ _ _ _ (Ht y Hy)).
        symmetry. apply labels_at_name; [apply (st_table _ _ _ _ Hst)|done].
  - do 2 wp_step. apply HQ; [done|done|]. split; [done|done|]. intros z' x. split; [|tauto]. intros Hx. split; [done|].
    intros [-> E]. destruct (zone_has_place db att pins [] z x Hst Hx) as (r & q & rs & y & Hr & Hrs & Hz & _ & _ & Hq & _).
    rewrite <-E in Hq. assert (q = p) as -> by congruence. by destruct (Hcase r rs Hr Hrs).
Qed.

Lemma wp_delete_rrsets ls p z pins n db b (Q : bool -> namedb -> Prop) : (forall k, k `suffix_of` ls -> stale k) ->
  walking db pins z n -> names db !! ls = Some p ->
  (forall b' db', walking db' pins z n -> names db' !! ls = Some p -> emptied z (eq ls) db db' -> Q b' db') ->
  wp (delete_rrsets p z b) Q db.
Proof using L Hstale.
  intros Hall Hw Hp HQ. pose proof Hw as [(att & Hs & _) _ _]. pose proof (st_table _ _ _ _ (sound_store _ _ _ _ Hs)) as [Hdb _].
  destruct (db_domain db Hdb _ _ Hp) as (d & Hd & _). unfold delete_rrsets. wp_step. eapply wp_get_domain; [done|].
  by apply (wp_delete_rrsets_loop ls p z pins n _ Hall db d); [| | |lia|].
Qed.

(** * The walk over the tree *)

(** The names that come after [k], to count the rounds. *)
Definition later (db : namedb) (k : name) : nat := size (filter (fun e : name * Z => name_cmp k e.1 < 0) (names db)).

Lemma later_next db db' k m q : (forall i p, names db' !! i = Some p -> names db !! i = Some p) ->
  names db !! m = Some q -> name_cmp k m < 0 -> (later db' m < later db k)%nat.
Proof using.
  intros Hsub Hq Hlt. apply map_subset_size. split.
  - apply map_filter_strong_subseteq_ext. intros i p [Hp Hi]. cbn in *. split; [|by apply Hsub].
    by apply (cmp_trans (cmp:=name_cmp) k m i).
  - intros Hss. rewrite map_subseteq_spec in Hss. specialize (Hss m q).
    assert (H : filter (fun e : name * Z => name_cmp m e.1 < 0) (names db') !! m = Some q) by (apply Hss; by apply map_lookup_filter_Some).
    apply map_lookup_filter_Some in H as [_ H]. cbn in H. rewrite name_cmp_refl in H. lia.
Qed.

Lemma later_bound db k : db_ok db -> (later db k <= size (domains db))%nat.
Proof using.
  intros Hdb. transitivity (size (names db)); [apply map_size_filter|]. etransitivity; [|by apply numlist_size].
  rewrite <-length_map_to_list, <-(length_fmap snd). apply submseteq_length, NoDup_submseteq.
  - apply NoDup_alt. intros i j p Hi Hj. rewrite list_lookup_fmap in Hi, Hj. apply fmap_Some in Hi as ([ls q] & Hi & ->).
    apply fmap_Some in Hj as ([ls' q'] & Hj & E). cbn in E. subst q'.
    assert (H1 : names db !! ls = Some q) by (eapply elem_of_map_to_list, list_elem_of_lookup_2; exact Hi).
    assert (H2 : names db !! ls' = Some q) by (eapply elem_of_map_to_list, list_elem_of_lookup_2; exact Hj).
    pose proof (db_injective db Hdb _ _ _ H1 H2) as ->. apply (NoDup_lookup (map_to_list (names db)) i j (ls', q)); try done.
    apply NoDup_map_to_list.
  - intros p ([ls q] & -> & Hp%elem_of_map_to_list)%list_elem_of_fmap. apply (db_numlist _ Hdb). by exists ls.
Qed.

Lemma apex_kept db db' att pins z top : sound stale db' att pins -> zones_kept db db' ->
  (forall k q, names db' !! k = Some q -> names db !! k = Some q) -> db_ok db -> zone_apex db z top -> zone_apex db' z top.
Proof using.
  intros Hs Hk Hn Hdb (a & p & Ha & Hap & Hp). specialize (Hk z). rewrite Ha in Hk. cbn in Hk. rewrite Hap in Hk.
  apply fmap_Some in Hk as (a' & Ha' & Hap'). destruct (st_zones _ _ _ _ (sound_store _ _ _ _ Hs) z a' Ha') as [Hpin _].
  specialize (Hpin p (eq_sym Hap')). pose proof (st_pins _ _ _ _ (sound_store _ _ _ _ Hs)) as Hin. rewrite app_nil_r, Forall_forall in Hin.
  destruct (Hin _ Hpin) as [k Hk']. exists a', p. split_and!; [done|done|]. by rewrite (db_injective db Hdb _ _ _ Hp (Hn _ _ Hk')).
Qed.

Lemma wp_in_zone_tree db z top k p (Q : bool -> namedb -> Prop) : db_ok db -> zone_apex db z top -> names db !! k = Some p ->
  Q (bool_decide (top `suffix_of` k)) db -> wp (in_zone_tree p z) Q db.
Proof using.
  intros Hdb (a & pa & Ha & Hap & Hpa) Hp HQ. destruct (db_domain db Hdb _ _ Hp) as (d & Hd & [Hok Hdn _ _ _]).
  destruct (db_domain db Hdb _ _ Hpa) as (t & Ht & [Htok Htn _ _ _]). unfold in_zone_tree, get_zone.
  wp_step. wp_step. wp_step. apply (wp_lift _ a); [unfold zone_at; by rewrite Ha|]. wp_step. apply (wp_lift _ pa); [by rewrite Hap|].
  wp_step. eapply wp_get_domain; [done|]. wp_step. eapply wp_get_domain; [done|].
  apply (wp_lift _ (bool_decide (top `suffix_of` k))); [|done]. by rewrite Hdn, Htn, dname_is_subdomain_spec.
Qed.

(** What comes next in the tree. *)
Lemma domain_next_spec db k p d : db_ok db -> names db !! k = Some p -> domains db !! p = Some d ->
  match domain_next db d with
  | Some q => exists m, names db !! m = Some q /\ name_cmp k m < 0 /\
                forall i r, names db !! i = Some r -> name_cmp k i < 0 -> name_cmp m i <= 0
  | None => forall i r, names db !! i = Some r -> ~ name_cmp k i < 0
  end.
Proof using L.
  intros Hdb Hp Hd. destruct (db_domain db Hdb _ _ Hp) as (d' & Hd' & [Hok Hdn _ _ _]). assert (d' = d) as -> by congruence.
  unfold domain_next. rewrite Hdn. pose proof (contents_next (nametree db) k Hok) as Hn.
  destruct (tree_next (nametree db) (of_labels k)) as [q|]; cbn in Hn.
  - destruct Hn as (m & Hm & Hgt & Hmin). exists m. split_and!; [done|by apply name_cmp_flip|].
    intros i r Hi Hki. apply (Hmin i r Hi). by apply name_cmp_flip.
  - intros i r Hi Hki. apply name_cmp_flip in Hki. pose proof (Hn i r Hi). lia.
Qed.

(** Domains without data go. *)
Lemma walking_pruned db db' pins z n : walking db pins z n -> pruned db db' ->
  walking db' pins z n /\ emptied z (fun _ => False) db db'.
Proof using.
  intros [(att & Hs & Hsec) Hpl Hu] Hpr. pose proof (pruned_lowered _ _ Hpr) as Hlow.
  destruct (sound_lowered db db' att pins Hs Hlow) as [Hs' Hhas]. destruct (low_rest _ _ _ Hlow) as (R1 & R2 & _).
  pose proof (st_table _ _ _ _ (sound_store _ _ _ _ Hs)) as [Hdb _]. split.
  - split; [|apply Hpr|].
    + exists att. split; [done|]. intros a Ha Hsa. rewrite R2 in Ha. unfold signed_keys. rewrite R1. by apply Hsec.
    + apply (usages_lowered n db db' []); [done|by eapply returnable_store, sound_store|done|done].
  - split; [by apply zones_kept_eq|apply Hpr|]. intros z' x. rewrite Hhas. tauto.
Qed.

(** The records that are left come at or after the domain reached. *)
Definition ahead (db : namedb) (z : Z) (top : name) (o : option Z) : Prop :=
  (forall x, zone_has db z x -> top `suffix_of` rec_owner x -> exists k p, o = Some p /\ names db !! k = Some p /\
     name_cmp k (rec_owner x) <= 0) /\
  forall p, o = Some p -> exists k, names db !! k = Some p /\ name_cmp top k <= 0.

Definition walk_measure (db : namedb) (o : option Z) (m : nat) : Prop :=
  (0 < m)%nat /\ forall k p, o = Some p -> names db !! k = Some p -> (S (later db k) < m)%nat.

(** One domain visited. *)
Lemma wp_delete_visit pins z n top o b db (Q : option Z * bool + bool -> namedb -> Prop) :
  (forall k, top `suffix_of` k \/ k `suffix_of` top -> stale k) ->
  walking db pins z n -> zone_apex db z top -> ahead db z top o ->
  (forall b', emptied z (suffix top) db db -> Q (inr b') db) ->
  (forall o' b' db', walking db' pins z n -> zone_apex db' z top -> ahead db' z top o' ->
     (forall m, walk_measure db o (S m) -> walk_measure db' o' m) ->
     (forall db'', emptied z (suffix top) db' db'' -> emptied z (suffix top) db db'') -> Q (inl (o', b')) db') ->
  wp (delete_visit z (o, b)) Q db.
Proof using L Hstale.
  intros Hall Hw Hap [Hah Hpos] Hstop HQ. pose proof Hw as [(att & Hs & _) _ _]. pose proof (sound_store _ _ _ _ Hs) as Hst.
  pose proof (st_table _ _ _ _ Hst) as [Hdb _]. unfold delete_visit.
  assert (Hnone : (forall x, zone_has db z x -> ~ top `suffix_of` rec_owner x) -> emptied z (suffix top) db db).
  { intros H. split; [done|done|]. intros z' x. split; [|tauto]. intros Hx. split; [done|]. intros [-> Hx']. by apply (H x). }
  destruct o as [p|].
  2:{ wp_step. apply Hstop, Hnone. intros x Hx Hsuf. by destruct (Hah x Hx Hsuf) as (k & p & H & _). }
  destruct (Hpos p eq_refl) as (k & Hp & Hle). wp_step. apply (wp_in_zone_tree db z top k p); [done..|].
  case_bool_decide as Hsuf; cbn [negb].
  2:{ wp_step. apply Hstop, Hnone. intros x Hx Hx'. destruct (Hah x Hx Hx') as (k' & p' & [= <-] & Hk' & Hle').
      apply Hsuf. rewrite (db_injective db Hdb _ _ _ Hp Hk') in Hle. rewrite (db_injective db Hdb _ _ _ Hp Hk').
      by apply (suffix_between top k' (rec_owner x)). }
  wp_step. apply (wp_delete_rrsets k p z pins n); [|done|done|].
  { intros i Hi. apply Hall. destruct (suffix_weak_total _ _ _ Hi Hsuf); [by right|by left]. }
  intros b' db1 Hw1 Hp1 He1. pose proof Hw1 as [(att1 & Hs1 & _) Hpl1 _]. pose proof (sound_store _ _ _ _ Hs1) as Hst1.
  pose proof (st_table _ _ _ _ Hst1) as Hok1. pose proof Hok1 as [Hdb1 _]. destruct (db_domain db1 Hdb1 _ _ Hp1) as (d & Hd & _).
  do 2 wp_step. wp_step. eapply wp_get_domain; [done|]. wp_step.
  apply (wp_domain_table_deldomain db1 k p); [done|done|by eapply root_used_store|done|]. intros db2 Hpr Hkeep.
  destruct (walking_pruned db1 db2 pins z n Hw1 Hpr) as [Hw2 He2]. wp_step.
  assert (He : emptied z (eq k) db db2) by (eapply (emptied_trans z (eq k) (fun _ => False)); [tauto|done|done]).
  pose proof (domain_next_spec db1 k p d Hdb1 Hp1 Hd) as Hnext. pose proof Hw2 as [(att2 & Hs2 & _) _ _].
  apply HQ; [done| | | |].
  - by apply (apex_kept db db2 att2 pins z top Hs2 (emptied_zones _ _ _ _ He) (emptied_names _ _ _ _ He) Hdb).
  - assert (Hnew : forall m q, names db1 !! m = Some q -> name_cmp k m < 0 -> names db2 !! m = Some q).
    { intros m q Hm Hlt. destruct (Hkeep m q Hm) as [H|H]; [done|]. apply suffix_le in H.
      apply name_cmp_flip in Hlt. lia. }
    split.
    + intros x Hx Hx'. pose proof Hx as [Hx0 Hno]%(emptied_has _ _ _ _ He).
      destruct (Hah x Hx0 Hx') as (k' & p' & [= <-] & Hk' & Hle'). rewrite <-(db_injective db Hdb _ _ _ Hp Hk') in Hle'.
      destruct (zone_has_place db2 att2 pins [] z x (sound_store _ _ _ _ Hs2) Hx) as (_ & q & _ & _ & _ & _ & _ & _ & _ & Hq & _).
      apply (emptied_names _ _ _ _ He2) in Hq.
      assert (Hlt : name_cmp k (rec_owner x) < 0).
      { destruct (Z.eq_dec (name_cmp k (rec_owner x)) 0) as [E|]; [|lia]. apply (cmp_eq (cmp:=name_cmp)) in E. tauto. }
      destruct (domain_next db1 d) as [q'|]; [|by destruct (Hnext _ _ Hq)]. destruct Hnext as (m & Hm & Hkm & Hmin).
      exists m, q'. split_and!; [done|by apply Hnew|by apply (Hmin _ q)].
    + intros q Eq. rewrite Eq in Hnext. destruct Hnext as (m & Hm & Hkm & _). exists m. split; [by apply Hnew|].
      apply Z.lt_le_incl. destruct (Z.eq_dec (name_cmp top k) 0) as [E|]; [by apply (cmp_eq (cmp:=name_cmp)) in E; subst|].
      apply (cmp_trans (cmp:=name_cmp) top k m); lia.
  - intros m [_ Hm]. specialize (Hm k p eq_refl Hp). split; [lia|]. intros i q Hq Hi. rewrite Hq in Hnext. destruct Hnext as (i' & Hi' & Hlt & _).
    pose proof (emptied_names _ _ _ _ He2 _ _ Hi) as Hi1. pose proof (db_injective db1 Hdb1 _ _ _ Hi1 Hi') as ->.
    pose proof (later_next db db2 k i' q (emptied_names _ _ _ _ He) (emptied_names _ _ _ _ He1 _ _ Hi1) Hlt). lia.
  - intros db'' H. eapply (emptied_trans z (eq k) (suffix top)); [|done|done]. intros i. split; [by right|]. by intros [<-|].
Qed.

Lemma wp_delete_walk pins z n top fuel : (forall k, top `suffix_of` k \/ k `suffix_of` top -> stale k) ->
  forall db o b (Q : bool -> namedb -> Prop), walking db pins z n -> zone_apex db z top -> ahead db z top o ->
  walk_measure db o fuel ->
  (forall b' db', walking db' pins z n -> zone_apex db' z top -> emptied z (suffix top) db db' -> Q b' db') ->
  wp (st_iter fuel (delete_visit z) (o, b)) Q db.
Proof using L Hstale.
  intros Hall. induction fuel as [|fuel IH]; intros db o b Q Hw Hap Hah Hm HQ; [by destruct Hm; lia|]. cbn [st_iter]. wp_step.
  apply (wp_delete_visit pins z n top o b db); [done..| |].
  - intros b' He. wp_step. by apply HQ.
  - intros o' b' db' Hw' Hap' Hah' Hm' He. apply IH; [done..|by apply Hm'|]. intros b'' db'' Hw'' Hap'' He''.
    apply HQ; [done|done|]. by apply He.
Qed.

(** * The walk over what is left *)
Lemma walking_settled db db' pins z n top : walking db pins z n -> zone_apex db z top -> settled db db' -> existing_upto stale db' ->
  walking db' pins z n /\ zone_apex db' z top /\ emptied z (fun _ => False) db db'.
Proof using.
  intros [(att & [Hst _ Hzr Hne] & Hsec) Hpl Hu] (a & p & Ha & Hap & Hp) Hset Hex.
  pose proof (st_table _ _ _ _ Hst) as [Hdb _]. destruct (store_settled db db' att pins Hst Hset) as [Hst' Hhas].
  pose proof (settled_same _ _ Hset) as Hsame. pose proof (settled_names _ _ Hset) as Hn.
  assert (R1 : rrsets db' = rrsets db) by (by rewrite Hsame). assert (R2 : zones db' = zones db) by (by rewrite Hsame).
  split_and!.
  - split; [|by apply (settled_plain db)|by apply (usages_settled n db)]. exists att. split.
    + split; [done|done|by apply (zones_right_ext db)|]. intros r q rs. rewrite R1. apply Hne.
    + intros b Hb Hsb. rewrite R2 in Hb. unfold signed_keys. rewrite R1. by apply Hsec.
  - exists a, p. by rewrite R2, Hn.
  - split; [by apply zones_kept_eq|by rewrite Hn|]. intros z' x. rewrite Hhas. tauto.
Qed.

Lemma wp_nonexist_walk pins z n top fuel : forall db o ce (Q : unit -> namedb -> Prop), walking db pins z n -> zone_apex db z top ->
  (forall p, o = Some p -> exists k, names db !! k = Some p) -> known_data (stale:=stale) db ce -> walk_measure db o fuel ->
  (forall db', walking db' pins z n -> zone_apex db' z top -> emptied z (fun _ => False) db db' -> Q tt db') ->
  wp (st_iter fuel (nonexist_visit z) (o, ce)) Q db.
Proof using L Hstale.
  induction fuel as [|fuel IH]; intros db o ce Q Hw Hap Hpos Hce Hm HQ; [by destruct Hm; lia|].
  assert (Hrefl : emptied z (fun _ => False) db db) by (split; [done|done|]; intros; tauto).
  cbn [st_iter nonexist_visit]. wp_step. destruct o as [p|]; [|do 2 wp_step; by apply HQ].
  pose proof Hw as [(att & [Hst Hex _ _] & _) Hpl _]. pose proof (st_table _ _ _ _ Hst) as Hok. pose proof Hok as [Hdb _].
  destruct (Hpos p eq_refl) as (k & Hp). wp_step. apply (wp_in_zone_tree db z top k p); [done..|].
  case_bool_decide; cbn [negb]; [|do 2 wp_step; by apply HQ].
  destruct (db_domain db Hdb _ _ Hp) as (d & Hd & _). wp_step. eapply wp_get_domain; [done|]. wp_step.
  (* what follows the check *)
  assert (Hgo : forall ce' db1, settled db db1 -> existing_upto stale db1 -> known_data (stale:=stale) db1 ce' ->
    wp (db ← st_get; d ← get_domain p; mret (inl (domain_next db d, ce')))
      (fun a s' => wp match a with inl a' => st_iter fuel (nonexist_visit z) a' | inr b => mret b end Q s') db1).
  { intros ce' db1 Hset Hex1 Hce'. destruct (walking_settled db db1 pins z n top Hw Hap Hset Hex1) as (Hw1 & Hap1 & He1).
    assert (Hp1 : names db1 !! k = Some p) by (by rewrite (settled_names _ _ Hset)).
    assert (Hdb1 : db_ok db1) by apply (settled_ok _ _ Hset). destruct (db_domain db1 Hdb1 _ _ Hp1) as (d1 & Hd1 & _).
    do 2 wp_step. wp_step. eapply wp_get_domain; [done|]. wp_step. pose proof (domain_next_spec db1 k p d1 Hdb1 Hp1 Hd1) as Hnext.
    destruct Hm as [_ Hm]. specialize (Hm k p eq_refl Hp). apply IH; [done|done| |done| |].
    - intros q Hq. rewrite Hq in Hnext. destruct Hnext as (i & Hi & _). by exists i.
    - split; [lia|]. intros i q Hq Hi. rewrite Hq in Hnext. destruct Hnext as (i' & Hi' & Hlt & _).
      pose proof (db_injective db1 Hdb1 _ _ _ Hi Hi') as ->. rewrite (settled_names _ _ Hset) in Hi.
      pose proof (later_next db db1 k i' q (emptied_names _ _ _ _ He1) Hi Hlt). lia.
    - intros db2 Hw2 Hap2 He2. apply HQ; [done|done|]. eapply (emptied_trans z (fun _ => False) (fun _ => False)); [tauto|done|done]. }
  destruct (is_existing d).
  - apply (wp_rrset_zero_nonexist_check (stale:=stale) ce k); try done.
    intros i q e Hq He. destruct (Hex i q e Hq He) as [H1 H2]. split; [done|]. intros [|]%H2; tauto.
  - wp_step. apply Hgo; [by apply settled_refl|done|done].
Qed.

(** Nothing of the zone is left at its apex. *)
Lemma apex_empty db0 db pins z n top : (forall x, zone_has db0 z x -> top `suffix_of` rec_owner x) ->
  walking db pins z n -> zone_apex db z top -> emptied z (suffix top) db0 db ->
  (forall x, ~ zone_has db z x) /\
  exists a, zones db !! z = Some a /\ soa_rrset a = None /\ ns_rrset a = None /\ is_secure a = false.
Proof using.
  intros Hin [(att & [Hst _ Hzr _] & Hsec) _ _] (a & p & Ha & Hap & Hp) [_ _ Hhas].
  assert (Hno : forall x, ~ zone_has db z x) by (intros x [Hx Hx']%Hhas; apply Hx'; auto). split; [done|]. exists a.
  assert (Hat : forall type r, ~ at_apex db att z a type r).
  { intros type r (q & rs & x & _ & Hr & Hrs & Hz & Hx & _). apply (Hno (record_of db x)).
    apply (zone_has_att db att pins [] z _ Hst). by exists r, q, rs, x. }
  destruct (Hzr z a Ha) as [Z1 Z2 _]. split_and!; [done| | |].
  - destruct (soa_rrset a) as [r|] eqn:E; [|done]. by destruct (Hat TYPE_SOA r (proj1 (Z1 r) eq_refl)).
  - destruct (ns_rrset a) as [r|] eqn:E; [|done]. by destruct (Hat TYPE_NS r (proj1 (Z2 r) eq_refl)).
  - destruct (is_secure a) eqn:E; [|done]. destruct (Hsec a Ha E) as (q & r & rs & x & _ & Hr & Hrs & Hz & Hx & _).
    destruct (Hno (record_of db x)). apply (zone_has_att db att pins [] z _ Hst). by exists r, q, rs, x.
Qed.

Lemma wp_delete_zone_rrs db pins z n top (Q : unit -> namedb -> Prop) : (forall k, around top k -> stale k) ->
  walking db pins z n -> zone_apex db z top -> (forall x, zone_has db z x -> top `suffix_of` rec_owner x) ->
  (forall db', walking db' pins z n -> zone_apex db' z top -> emptied z (suffix top) db db' -> Q tt db') ->
  wp (delete_zone_rrs z) Q db.
Proof using L Hstale.
  intros Hall Hw Hap Hin HQ. pose proof Hap as (a & p & Ha & Hpa & Hp). pose proof Hw as [(att & [Hst Hex _ _] & _) _ _].
  pose proof (st_table _ _ _ _ Hst) as [Hdb _]. unfold delete_zone_rrs, get_zone. wp_step. wp_step. wp_step.
  apply (wp_lift _ a); [unfold zone_at; by rewrite Ha|]. wp_step. wp_step. wp_step. rewrite Hpa.
  apply (wp_delete_walk pins z n top); [done..| | |].
  - split; [|intros ? [= <-]; exists top; by rewrite name_cmp_refl]. intros x _ Hx. exists top, p. split_and!; [done|done|].
    by apply suffix_le.
  - split; [lia|]. intros k q _ _. pose proof (later_bound db k Hdb). lia.
  - intros b db1 Hw1 Hap1 He1. cbn beta.
    assert (Hfin : forall db2, walking db2 pins z n -> zone_apex db2 z top -> emptied z (fun _ => False) db1 db2 ->
      wp (a ← (db ← st_get; lift (zone_at db z)); st_assert (bool_decide (soa_rrset a = None));;
          st_assert (bool_decide (ns_rrset a = None));; st_assert (negb (is_secure a))) Q db2).
    { intros db2 Hw2 Hap2 He2. assert (He : emptied z (suffix top) db db2) by (eapply (emptied_trans z (suffix top) (fun _ => False)); [tauto|done|done]).
      destruct (apex_empty db db2 pins z n top Hin Hw2 Hap2 He) as (_ & b2 & Hb2 & E1 & E2 & E3).
      wp_step. wp_step. wp_step. apply (wp_lift _ b2); [unfold zone_at; by rewrite Hb2|].
      wp_step. apply wp_assert; [by rewrite E1|]. wp_step. apply wp_assert; [by rewrite E2|]. apply wp_assert; [by rewrite E3|].
      by apply HQ. }
    wp_step. destruct b.
    + do 3 wp_step. pose proof Hap1 as (a1 & p1 & Ha1 & Hpa1 & Hp1). wp_step. wp_step. apply (wp_lift _ a1); [unfold zone_at; by rewrite Ha1|].
      pose proof Hw1 as [(att1 & [Hst1 _ _ _] & _) _ _]. pose proof (st_table _ _ _ _ Hst1) as [Hdb1 _]. rewrite Hpa1.
      apply (wp_nonexist_walk pins z n top); [done|done|intros ? [= <-]; by exists top|done| |done].
      split; [lia|]. intros k q _ _. pose proof (later_bound db1 k Hdb1). lia.
    + wp_step. apply Hfin; [done|done|]. split; [done|done|]. intros; tauto.
Qed.

(** * What [delete_zone_rrs] does *)

(** A signature at the apex covers DNSKEY records. *)
Definition signed_zone (db : namedb) (z : Z) (top : name) : Prop := exists y,
  zone_has db z y /\ rec_owner y = top /\ rec_type y = TYPE_RRSIG /\ rec_data y !! 0%nat = Some (Bytes (write_uint16 TYPE_DNSKEY)).

Lemma signed_zone_keys db att pins z a p top : store db att pins [] -> zones db !! z = Some a -> apex a = Some p ->
  names db !! top = Some p -> signed_zone db z top -> signed_keys db att z a.
Proof using.
  intros Hst Ha Hap Hp (y & Hy & Ho & Ht & H0).
  destruct (zone_has_place db att pins [] z y Hst Hy) as (r & q & rs & x & Hr & Hrs & Hz & Hx & -> & Hq & Et).
  rewrite Ho in Hq. assert (q = p) as -> by congruence. exists p, r, rs, x. split_and!; try done.
  cbn in H0, Ht. rewrite list_lookup_fmap in H0. apply fmap_Some in H0 as (at_ & H0 & E).
  unfold rr_rrsig_type_covered. rewrite Ht, H0. cbn [Z.eqb rassert mbind res_bind points_to].
  destruct at_ as [q'|bytes]; [done|]. cbn in E. injection E as <-. reflexivity.
Qed.

Lemma sound_weaken (A B : name -> Prop) db att pins : (forall k, A k -> B k) -> sound A db att pins -> sound B db att pins.
Proof using.
  intros H [H1 H2 H3 H4]. split; try done. intros k p d Hp Hd. destruct (H2 k p d Hp Hd) as [E1 E2]. split; [done|].
  intros [|]%E2; [by left|right; by apply H].
Qed.

(** A database in which the zone can be emptied: names of its tree may exist without data. *)
Definition emptied_post (db : namedb) (z n : Z) (top : name) (db' : namedb) : Prop :=
  database_ok (fun k => stale k \/ around top k) db' /\ plain_table db' /\ usages_below n db' /\ zones_kept db db' /\
  zone_apex db' z top /\ (forall k q, names db' !! k = Some q -> names db !! k = Some q) /\
  forall z' x, zone_has db' z' x <-> zone_has db z' x /\ z' <> z.
End transfer.

Section emptied.
Context `{T : NameTree} {L : NameTreeLaws T}.
Context {stale : name -> Prop} {Hstale : Upward stale}.

Lemma delete_zone_rrs_post db z n top : database_ok stale db -> plain_table db -> usages_below n db -> zone_apex db z top ->
  (forall x, zone_has db z x -> top `suffix_of` rec_owner x) ->
  (forall a, zones db !! z = Some a -> is_secure a = true -> signed_zone db z top) ->
  wp (delete_zone_rrs z) (fun _ => emptied_post (stale:=stale) db z n top) db.
Proof using L Hstale.
  intros (att & pins & Hs) Hpl Hu Hap Hin Hsec.
  apply (wp_delete_zone_rrs (stale:=fun k => stale k \/ around top k) db pins z n top); [by right| |done|done|].
  - split; [|done|done]. exists att. split; [by apply (sound_weaken stale); [left|]|]. intros a Ha Hsa.
    destruct Hap as (a' & p & Ha' & Hap & Hp). assert (a' = a) as -> by congruence.
    apply (signed_zone_keys db att pins z a p top); try done; [apply Hs|by apply (Hsec a)].
  - intros db' [(att' & Hs' & _) Hpl' Hu'] Hap' [H1 H2 H3]. unfold emptied_post. split_and!; try done; [by exists att', pins|].
    intros z' x. rewrite H3. split; intros [H4 H5]; (split; [done|]).
    + intros ->. apply H5. auto.
    + by intros [-> _].
Qed.

(** C9 (invariant): a zone emptied for a full transfer.  Of a database that is in order the records of the zone go,
    and none of another zone, even where the tree is shared with parent and child zones; the zone keeps its apex and
    no pointer of it is left to what has gone, as the assertions at the end ask; the domain table, the counts of uses
    and the sets of the other zones are in order again.  Only whether a domain exists is not exact: names in and above
    the zone may exist without data. *)
Theorem delete_zone_rrs_correct db z n top : database_ok stale db -> plain_table db -> usages_below n db ->
  zone_apex db z top -> (forall x, zone_has db z x -> top `suffix_of` rec_owner x) ->
  (forall a, zones db !! z = Some a -> is_secure a = true -> signed_zone db z top) ->
  exists db', delete_zone_rrs z db = Ok (tt, db') /\ emptied_post (stale:=stale) db z n top db'.
Proof using L Hstale.
  intros. destruct (wp_elim _ _ _ (delete_zone_rrs_post db z n top ltac:(done) ltac:(done) ltac:(done) ltac:(done) ltac:(done) ltac:(done)))
    as ([] & db' & H' & ?). by exists db'.
Qed.
End emptied.
