(* ===== verification/TransferApply.v ===== *)
(** The records of a message applied ([apply_rrs] of Transfer.v): what is done
    to the database is what TransferSpec.v says of the records of the zone. *)

From S2P Require Import Prelude Buffer Dname DnameProofs DnamePacket Dns Packet PacketProofs Contents Namedb NamedbProofs NamedbTable Rdata RdataProofs NamedbDelete Respond Diff Transfer DiffExisting DiffFind DiffStore TransferSpec DiffSets DiffProofs DiffDelete TransferProofs TransferDelete.

(** * Reading a record *)

(** The data of an SOA record: two names and twenty bytes. *)
Lemma soa_data data limit end_ p xs : rdata_at TYPE_SOA data limit end_ [] p xs ->
  exists q1 q2, skip_name data limit p q1 /\ skip_name data limit q1 q2 /\ end_ = q2 + 20 /\
    xs !! 2%nat = Some (Bytes (zslice data q2 4)).
Proof.
  intros H. do 7 (apply rdata_at_next in H as (? & ? & ? & -> & ? & H); [|reflexivity]).
  repeat match goal with Hf : field_at _ _ _ _ _ _ _ |- _ =>
    cbn -[Z.add zslice] in Hf; inversion Hf; clear Hf; subst end.
  inversion H as [? _|? ? ? ? ? Hm]; subst; [|by vm_compute in Hm].
  do 2 eexists. split_and!; [by eapply pkt_name_skip|by eapply pkt_name_skip|lia|done].
Qed.

Section reading.
Context (b : buffer) (Hb : buffer_ok b) (Hmax : _limit b <= MAX_PACKET_SIZE).

Abbreviation D := (_data b).
Abbreviation end_of := (_limit b).

Lemma read_uint32_slice (d : list Z) p : 0 <= p -> read_uint32 (zslice d p 4) 0 = read_uint32 d p.
Proof using. intros Hp. unfold read_uint32. rewrite !zget_slice by lia. by rewrite Z.add_0_r. Qed.

Lemma wp_second_serial x p q (Q : option Z -> buffer -> Prop) : 0 <= p -> q <= end_of -> rec_type x = TYPE_SOA ->
  rdata_at (rec_type x) D end_of q [] p (rec_data x) ->
  (forall p', 0 <= p' <= end_of -> Q (Some (serial_of x)) (set_pos p' b)) -> wp second_serial Q (set_pos p b).
Proof using Hb.
  intros Hp Hq Ht Hx HQ. rewrite Ht in Hx. apply soa_data in Hx as (q1 & q2 & H1 & H2 & -> & Hs).
  pose proof (skip_name_range _ _ _ _ H1). pose proof (skip_name_range _ _ _ _ H2).
  unfold second_serial. wp_step. apply wp_skip_from; [done|lia| |].
  2:{ intros q' _ Hno. by destruct (Hno q1). }
  intros q' Hq' _. pose proof (skip_name_det _ _ _ _ H1 _ Hq') as ->. wp_step; [done|]. wp_step.
  apply wp_skip_from; [done|lia| |]; [|intros q' _ Hno; by destruct (Hno q2)].
  intros q' Hq2 _. pose proof (skip_name_det _ _ _ _ H2 _ Hq2) as ->. wp_step; [done|]. wp_step.
  apply wp_buffer_remaining; [bok|]. wp_step; bool_simpl; [buf_simpl; lia|]. wp_step. apply wp_read_u32_from; [done|lia..|].
  wp_step. assert (E : serial_of x = read_uint32 D q2) by (unfold serial_of; rewrite Hs; by apply read_uint32_slice; lia).
  rewrite <-E. apply HQ. lia.
Qed.
End reading.

(** A step that is taken on the message. *)
Ltac wp_packet := wp_step; apply wp_up_packet; cbn [up_packet up_db up_softfail].

Section apply.
Context `{T : NameTree} {L : NameTreeLaws T}.
Context {stale : name -> Prop} {Hstale : Upward stale}.
Context (z : Z) (top : name) (serialno : Z).
Context (Htop : forall k, around top k -> stale k).
Context (b : buffer) (Hb : buffer_ok b) (Hmax : _limit b <= MAX_PACKET_SIZE).

Abbreviation names db := (contents (nametree db)).

(** * Between two records *)

(** The zone as TransferSpec.v sees it. *)
Definition view_of (s : updater) (f : xfr_state) : view := mkview (zone_has (up_db s) z) f (up_softfail s).

Record ready (n : Z) (db : namedb) : Prop := {
  ready_ok : database_ok stale db;
  ready_plain : plain_table db;
  ready_uses : usages_below n db;
  ready_apex : zone_apex db z top;
}.

(** The zone can be emptied. *)
Definition closed_zone (db : namedb) : Prop :=
  (forall x, zone_has db z x -> top `suffix_of` rec_owner x) /\
  (forall a, zones db !! z = Some a -> is_secure a = true -> signed_zone db z top).

Definition others_kept (db db' : namedb) : Prop := forall z' y, z' <> z -> zone_has db' z' y <-> zone_has db z' y.

#[export] Instance others_kept_preorder : PreOrder others_kept.
Proof using. split; [by intros db z' y|]. intros d1 d2 d3 H1 H2 z' v Hz. by rewrite (H2 z' v Hz), (H1 z' v Hz). Qed.

Lemma wp_empty_zone n s (Q : unit -> updater -> Prop) : ready n (up_db s) -> closed_zone (up_db s) ->
  (forall db', ready n db' -> others_kept (up_db s) db' -> (forall y, ~ zone_has db' z y) ->
     Q tt (mkupdater (up_packet s) db' (up_softfail s))) -> wp (on_database (delete_zone_rrs z)) Q s.
Proof using L Hstale Htop.
  intros [Hok Hpl Hu Hap] [Hin Hsec] HQ. apply wp_on_database.
  eapply wp_mono; [by apply (delete_zone_rrs_post (stale:=stale) (up_db s) z n top)|].
  intros [] db' ((att & pins & Hs) & Hpl' & Hu' & _ & Hap' & _ & Hhas). apply HQ.
  - split; try done. exists att, pins. eapply (sound_weaken _ stale); [|exact Hs]. intros k [|]; [done|by apply Htop].
  - intros z' y Hz. rewrite Hhas. naive_solver.
  - intros y [_ H]%Hhas. done.
Qed.

(** The SOA record of the zone. *)
Lemma zone_soa n db : ready n db -> exists a p d o, zones db !! z = Some a /\ apex a = Some p /\
  domains db !! p = Some d /\ domain_find_rrset db d z TYPE_SOA = Ok o /\
  (o = None <-> forall y, zone_has db z y -> ~ (rec_owner y = top /\ rec_type y = TYPE_SOA)).
Proof using L.
  intros [(att & pins & [Hst Hex Hzr Hne]) _ _ (a & p & Ha & Hap & Hp)]. pose proof (st_table _ _ _ _ Hst) as [Hdb _].
  destruct (db_domain db Hdb _ _ Hp) as (d & Hd & _).
  destruct (domain_find_rrset_spec db att pins [] top p d z TYPE_SOA Hst Hne Hp Hd) as (o & Ho & Hcase).
  exists a, p, d, o. split_and!; try done. destruct o as [r|].
  - split; [done|]. intros Hno. exfalso. destruct Hcase as (Hr & rs & Hrs & Hz & Hg).
    destruct (rrs rs) as [|x l] eqn:E; [by destruct (Hne r p rs)|]. apply Forall_cons in Hg as [[Go Gt _ _ _] _].
    apply (Hno (record_of db x)); [|by cbn; rewrite Go, Gt, (labels_at_name db top p)].
    apply (zone_has_att db att pins []); [done|]. exists r, p, rs, x. split_and!; try done. rewrite E. by left.
  - split; [|done]. intros _ y Hy [Ho' Ht]. destruct (zone_has_place db att pins [] z y Hst Hy) as (r & q & rs & x & Hr & Hrs & Hz & Hx & _ & Hq & Et).
    rewrite Ho' in Hq. assert (q = p) as -> by congruence. by apply (Hcase r rs x Hr Hrs Hz Hx); congruence.
Qed.

(** * The second record of the transfer *)
Definition emptied_view (s : updater) (f : xfr_state) : view :=
  mkview (fun _ => False) (mkxfr_state true false (xfr_count f)) (up_softfail s).

Lemma begun_full s f x : xfr_count f = 1 -> full serialno x = true -> begun serialno x (view_of s f) = emptied_view s f.
Proof using. intros Hf Hx. unfold begun. cbn [v_state v_soft view_of]. unfold emptied_view. by rewrite Hf, Hx. Qed.
Lemma begun_same s f x : xfr_count f <> 1 \/ full serialno x = false -> begun serialno x (view_of s f) = view_of s f.
Proof using. intros H. unfold begun. cbn [v_state v_soft view_of]. case_match; [|done]. bool_simpl. by destruct H; [lia|congruence]. Qed.

Lemma wp_second_rr n s f x p q (Q : applied -> updater -> Prop) : ready n (up_db s) -> closed_zone (up_db s) ->
  up_packet s = set_pos p b -> xfr_count f = 1 -> 0 <= p <= _limit b -> q <= _limit b ->
  (rec_type x = TYPE_SOA -> rdata_at (rec_type x) (_data b) (_limit b) q [] p (rec_data x)) ->
  (forall b', xfr_skips top serialno x (view_of s f) -> Q (Stop 2 f) (mkupdater b' (up_db s) (up_softfail s))) ->
  (forall db' f', let s' := mkupdater (set_pos p b) db' (up_softfail s) in
     ~ xfr_skips top serialno x (view_of s f) -> ready n db' -> others_kept (up_db s) db' ->
     xfr_count f' = xfr_count f -> view_of s' f' ≡ begun serialno x (view_of s f) -> Q (Next f') s') ->
  wp (second_rr z serialno (rec_type x) f) Q s.
Proof using L Hstale Htop Hb.
  intros Hr Hc Hpk Hf Hp Hq Hx Hskip Hnext. destruct s as [pk db soft]. cbn [up_packet up_db up_softfail] in *. unfold second_rr.
  assert (Hfull : full serialno x = true -> forall b', wp (on_database (delete_zone_rrs z)) (fun _ s' => exists db',
    s' = mkupdater b' db' soft /\ Q (Next (mkxfr_state true false (xfr_count f))) (mkupdater (set_pos p b) db' soft))
    (mkupdater b' db soft)).
  { intros Hfl b'. apply (wp_empty_zone n); [done..|]. cbn [up_packet up_db up_softfail]. intros db' Hr' Ho Hno. exists db'. split; [done|].
    apply Hnext; try done.
    - intros (_ & _ & Hn & _). congruence.
    - rewrite begun_full by done. split_and!; [done|done|]. intros y. cbn. by split; [apply Hno|]. }
  wp_step; bool_simpl.
  - wp_step. eapply wp_mono; [apply Hfull|].
    + unfold full. by rewrite (proj2 (Z.eqb_neq (rec_type x) TYPE_SOA)).
    + intros [] s' (db' & -> & HQ). wp_step. by rewrite Hpk.
  - match goal with H : rec_type x = TYPE_SOA |- _ => pose proof H as Hsoa end. specialize (Hx Hsoa).
    wp_packet. apply wp_buffer_position. wp_packet.
    rewrite Hpk. apply (wp_second_serial b Hb x p q); [lia|done|done|done|]. intros p' Hp'. cbn beta iota.
    assert (Hfl : full serialno x = (serial_of x =? serialno)) by (unfold full; by rewrite Hsoa).
    assert (Hback : forall f' db' soft', Q (Next f') (mkupdater (set_pos p b) db' soft') ->
      wp (on_packet (buffer_set_position (_position (set_pos p b)));; mret (Next f')) Q (mkupdater (set_pos p' b) db' soft')).
    { intros f' db' soft' HQ. wp_packet.
      apply wp_set_position_from; [buf_simpl; lia|]. by wp_step. }
    wp_step. wp_step; bool_simpl.
    + wp_step. eapply wp_mono; [apply Hfull; rewrite Hfl; lia|]. intros [] s' (db' & -> & HQ).
      do 3 wp_step. cbn [is_axfr]. do 2 wp_step. cbn iota. by apply Hback.
    + assert (Hfl' : full serialno x = false) by (rewrite Hfl; lia).
      do 3 wp_step. cbn [up_db]. assert (Hfin : ~ xfr_skips top serialno x (view_of (mkupdater pk db soft) f) ->
        wp (on_packet (buffer_set_position (_position (set_pos p b)));; mret (Next f)) Q (mkupdater (set_pos p' b) db soft)).
      { intros Hno. apply Hback, Hnext; try done. by rewrite begun_same by auto. }
      destruct (is_axfr f) eqn:Ea.
      * do 2 wp_step. apply Hfin. intros (_ & Hn & _). cbn in Hn. congruence.
      * destruct (zone_soa n db Hr) as (a & p0 & d & o & Ha & Hap & Hd & Ho & Hcase).
        wp_step. wp_step. apply (wp_lift _ a); [unfold zone_at; by rewrite Ha|]. wp_step. apply (wp_lift _ p0); [by rewrite Hap|].
        wp_step. apply (wp_lift _ d); [unfold domain_at; by rewrite Hd|]. wp_step. apply (wp_lift _ o); [done|]. wp_step.
        destruct o as [r|].
        -- cbn iota. apply Hfin. intros (_ & _ & _ & Hno). by apply Hcase in Hno.
        -- wp_step. apply Hskip. split_and!; try done. by apply Hcase.
Qed.

(** * The record itself *)

(** Names without labels that sort before the wildcard. *)
Definition plain_name (ls : name) : Prop := Forall (fun c => before_wildcard c -> c = [42]) ls.
Definition plain_record (x : record) : Prop := plain_name (rec_owner x) /\ forall j, Name j ∈ rec_data x -> plain_name j.

Lemma plain_drawn db db' xs : plain_table db -> drawn db db' xs -> (forall j, Name j ∈ xs -> plain_name j) -> plain_table db'.
Proof using.
  intros Hpl Hd Hxs c k p Hp Hc. destruct (Hd _ _ Hp) as [[p' Hp']|(j & Hj & [l ->])]; [by apply (Hpl c k p')|].
  specialize (Hxs _ Hj). apply Forall_app in Hxs as [_ Hxs]. apply Forall_cons in Hxs as [Hxs _]. by apply Hxs.
Qed.

(** The record has no more fields than those it is compared with. *)
Definition no_longer (x y : record) : Prop :=
  rec_owner y = rec_owner x -> rec_type y = rec_type x -> (length (rec_data x) <= length (rec_data y))%nat.

(** A record that can be applied, with its data from [p] to [q]. *)
Record held_at (x : record) (p q : Z) : Prop := {
  at_range : 0 <= p <= q /\ q <= _limit b;
  at_owner : name_ok (rec_owner x);
  at_type : 0 <= rec_type x < 65536;
  at_data : if pseudo (rec_type x) then rec_data x = []
            else rdata_at (rec_type x) (_data b) (_limit b) q [] p (rec_data x);
}.

Lemma rdata_unique x p q ys : held_at x p q -> pseudo (rec_type x) = false ->
  rdata_at (rec_type x) (_data b) (_limit b) q [] p ys -> ys = rec_data x.
Proof using. intros [_ _ _ H] Hps Hy. rewrite Hps in H. by eapply rdata_at_det. Qed.

Lemma record_eta x : mkrecord (rec_owner x) (rec_type x) (rec_class x) (rec_ttl x) (rec_data x) = x.
Proof using. by destruct x. Qed.

Lemma apex_grown db db' : zones_kept db db' -> names_within db db' -> zone_apex db z top -> zone_apex db' z top.
Proof using.
  intros Hk Hn (a & p & Ha & Hap & Hp). specialize (Hk z). rewrite Ha in Hk. cbn in Hk. rewrite Hap in Hk.
  apply fmap_Some in Hk as (a' & Ha' & Hap'). exists a', p. split_and!; [done|done|by apply Hn].
Qed.

Section one_record.
Context (n : Z) (s : updater) (x : record) (p q : Z).
Context (Hr : ready n (up_db s)) (Hn : 0 < n <= 2 ^ 63) (Hpk : up_packet s = set_pos p b) (Hx : held_at x p q).
Context (Hps : pseudo (rec_type x) = false).

Lemma here_ok : buffer_ok (up_packet s) /\ _limit (up_packet s) <= MAX_PACKET_SIZE /\
  _position (up_packet s) + (q - p) = q /\ q <= _limit (up_packet s).
Proof using Hb Hmax Hpk Hx. rewrite Hpk. destruct Hx as [Hrg _ _ _]. split_and!; [bok|done|buf_simpl; lia|buf_simpl; lia]. Qed.

Lemma wp_apply_add f (Q : applied -> updater -> Prop) : plain_record x ->
  (forall s' f', xfr_refuses x (view_of s f) -> Q (Stop 0 f') s') ->
  (forall s' f', ready (n + 64) (up_db s') -> others_kept (up_db s) (up_db s') -> up_packet s' = set_pos q b ->
     adds x (view_of s f) (view_of s' f') -> Q (Next (next_count (switched x f))) s') ->
  delete_mode (switched x f) = false ->
  wp (ok ← add_RR (of_labels (rec_owner x)) (rec_type x) (rec_class x) (rec_ttl x) (q - p) z;
      mret (if (ok : bool) then Next (next_count (switched x f)) else Stop 0 (switched x f))) Q s.
Proof using L Hstale Hb Hmax Hr Hn Hpk Hx Hps.
  intros Hplain Hstop HQ Hmode. destruct here_ok as (H1 & H2 & H3 & H4). pose proof Hx as [Hrg Hok Ht Hd]. pose proof Hr as [R1 R2 R3 R4].
  destruct R4 as (a & p0 & Ha & Hap & Hp0). wp_step.
  eapply wp_mono; [apply (wp_add_RR (stale:=stale) _ _ _ _ _ z n); try done; lia|].
  intros r s'. unfold add_post. cbv zeta. rewrite H3, Hpk. cbn [_data _limit _position set_pos]. rewrite Hps in Hd. destruct r.
  - intros (xs & Hsays & Hpk' & Hok' & Hkept & Hu' & Hdr & Hin & Hcase). pose proof (rdata_unique x p q xs Hx Hps Hsays) as ->.
    wp_step. rewrite record_eta in Hcase. apply (HQ s' f).
    + split; [done| |done|by apply (apex_grown (up_db s) _ Hkept Hin); exists a, p0].
      apply (plain_drawn (up_db s) _ (Name (rec_owner x) :: rec_data x)); [done|done|]. destruct Hplain as [Hown Hpl]. intros j [[= ->]|Hj]%elem_of_cons; [done|by apply Hpl].
    + intros z' y Hz. destruct Hcase as [(_ & _ & ->)|(_ & _ & ->)]; [done|]. naive_solver.
    + by rewrite Hpk'.
    + destruct Hcase as [(Hy & Hs' & Hhas)|(Hy & Hs' & Hhas)]; [left|right]; (split; [exact Hy|]); (split; [exact Hs'|]);
        intros y; cbn; rewrite Hhas; naive_solver.
  - intros [Hno|(l & H5 & H6 & H7)]; [by destruct (Hno (rec_data x))|]. wp_step. apply Hstop. split_and!; [done|done|]. by exists l.
Qed.

Lemma wp_apply_delete f (Q : applied -> updater -> Prop) : (forall y, zone_has (up_db s) z y -> no_longer x y) ->
  (forall s' f', ready n (up_db s') -> others_kept (up_db s) (up_db s') -> up_packet s' = set_pos q b ->
     deletes top x (view_of s f) (view_of s' f') -> Q (Next (next_count (switched x f))) s') ->
  wp (ok ← delete_RR (of_labels (rec_owner x)) (rec_type x) (rec_class x) (q - p) z;
      mret (if (ok : bool) then Next (next_count (switched x f)) else Stop 0 (switched x f))) Q s.
Proof using L Hstale Hb Hmax Hr Hn Hpk Hx Hps.
  intros Hlen HQ. destruct here_ok as (H1 & H2 & H3 & H4). pose proof Hx as [Hrg Hok Ht Hd]. pose proof Hr as [R1 R2 R3 R4].
  pose proof R4 as (a & p0 & Ha & Hap & Hp0). wp_step.
  eapply wp_mono; [apply (wp_delete_RR (stale:=stale) _ _ _ _ z n); try done; [lia|lia|]|].
  { rewrite H3, Hpk. cbn [_data _limit _position set_pos]. intros xs y Hsays Hy Ho Hty.
    pose proof (rdata_unique x p q xs Hx Hps Hsays) as ->. by apply Hlen. }
  intros r s'. unfold delete_post. cbv zeta. rewrite H3, Hpk. cbn [_data _limit _position set_pos]. rewrite Hps in Hd. destruct r.
  2:{ intros Hno. by destruct (Hno (rec_data x)). }
  intros (Hpk' & Hok' & Hpl' & Hkept & Hu' & Hin & Hcase). wp_step.
  destruct R1 as (att & pins & [Hst _ _ _]). pose proof (st_table _ _ _ _ Hst) as [Hdb _].
  assert (Hap' : forall ls, zone_apex (up_db s) z ls <-> ls = top).
  { intros ls. split; [|by intros ->]. intros (a' & p' & Ha' & Hap' & Hp'). apply (db_injective _ Hdb ls top p0); [congruence|done]. }
  apply (HQ s' f).
  + split; try done. destruct Hok' as (att' & pins' & Hs'). by apply (apex_kept (stale:=stale) (up_db s) (up_db s') att' pins').
  + intros z' y Hz. destruct Hcase as [(_ & -> & _)|(xs & y' & _ & _ & _ & _ & ->)]; [done|]. naive_solver.
  + by rewrite Hpk'.
  + destruct Hcase as [(Hsoft & Hsame & Hno)|(xs & y & Hsays & Hy & Hsoft & Hmeant & Hhas)].
    * right. cbn. rewrite Hsame. split_and!; try done.
      -- intros y Hy Hk. destruct Hno as [Hno|(xs & Hsays & Hno & _)].
         ++ apply (Hno y Hy); by injection Hk.
         ++ pose proof (rdata_unique x p q xs Hx Hps Hsays) as ->. by apply (Hno y).
      -- intros (Hty & Ho & y & Hy & Hyt & Hyo). destruct Hno as [Hno|(xs & _ & _ & Hno)].
         ++ apply (Hno y Hy); congruence.
         ++ apply Hno. split; [done|]. by apply Hap'.
    * pose proof (rdata_unique x p q xs Hx Hps Hsays) as ->. left. exists y. cbn. split_and!; try done.
      -- intros y'. rewrite Hhas. naive_solver.
      -- destruct Hmeant as [[_ Hk]|(Hno & Ht0 & Hz & Ho & Hyt)]; [by left|right]. apply Hap' in Hz.
         split_and!; [intros y' Hy' Hk; by apply (Hno y')|done|done|congruence..].
Qed.
End one_record.

Lemma switched_count x f : xfr_count (switched x f) = xfr_count f.
Proof using. unfold switched. by case_match. Qed.

Lemma wp_apply_data n s x p q f last (Q : applied -> updater -> Prop) : ready n (up_db s) -> 0 < n <= 2 ^ 63 ->
  up_packet s = set_pos p b -> held_at x p q -> plain_record x -> (forall y, zone_has (up_db s) z y -> no_longer x y) ->
  (forall s' f', xfr_refuses x (view_of s f) -> Q (Stop 0 f') s') ->
  (forall s' f', ready (n + 64) (up_db s') -> others_kept (up_db s) (up_db s') ->
     (last = false -> up_packet s' = set_pos q b) -> xfr_count f' = xfr_count f + 1 ->
     xfr_apply top last x (view_of s f) (view_of s' f') -> Q (Next f') s') ->
  wp (apply_data z (of_labels (rec_owner x)) (rec_type x) (rec_class x) (rec_ttl x) (q - p) last f) Q s.
Proof using L Hstale Hb Hmax.
  intros Hr Hn Hpk Hx Hplain Hlen Hstop HQ. unfold apply_data. cbv zeta.
  change (if (rec_type x =? TYPE_SOA) && negb (is_axfr f) then _ else f) with (switched x f).
  assert (Hgrow : forall db, ready n db -> ready (n + 64) db).
  { intros db [R1 R2 R3 R4]. split; try done. apply (usages_mono n); [lia|done]. }
  assert (Hnext : forall s', ready (n + 64) (up_db s') -> others_kept (up_db s) (up_db s') ->
    (last = false -> up_packet s' = set_pos q b) -> xfr_apply top last x (view_of s f) (view_of s' (next_count (switched x f))) ->
    Q (Next (next_count (switched x f))) s').
  { intros s' H1 H2 H3 H4. apply HQ; try done. unfold next_count. cbn. by rewrite switched_count. }
  change ((rec_type x =? TYPE_TSIG) || (rec_type x =? TYPE_OPT)) with (pseudo (rec_type x)).
  destruct (pseudo (rec_type x)) eqn:Hps.
  - wp_step. apply wp_up_packet. rewrite Hpk. destruct Hx as [Hrg _ _ _]. apply wp_skip_bytes_from; [done|lia|lia|]. wp_step.
    apply Hnext; cbn [up_packet up_db]; [by apply Hgrow|done|by replace (p + (q - p)) with q by lia|].
    split; [done|]. rewrite Hps. by cbn.
  - destruct (delete_mode (switched x f)) eqn:Hmode.
    + wp_step; bool_simpl.
      * wp_step. apply Hnext; [by apply Hgrow|done|intros; congruence|]. split; [done|]. rewrite Hps. cbn [v_state view_of]. rewrite Hmode.
        cbn [orb andb]. rewrite (proj2 (negb_true_iff _)) by done. rewrite (proj2 (Z.eqb_eq _ _)) by done.
        destruct last; done.
      * apply (wp_apply_delete n s x p q); try done. intros s' f' H1 H2 H3 H4.
        apply Hnext; [by apply Hgrow|done|done|]. split; [done|]. rewrite Hps. cbn [v_state view_of]. rewrite Hmode. cbn [orb andb]. by rewrite H.
    + apply (wp_apply_add n s x p q); try done. intros s' f' H1 H2 H3 H4. apply Hnext; try done.
      split; [done|]. rewrite Hps. cbn [v_state view_of]. by rewrite Hmode.
Qed.

Lemma begun_sub x v y : v_has (begun serialno x v) y -> v_has v y.
Proof using. unfold begun. by case_match. Qed.

Lemma record_held p x q : 0 <= p -> record_at (_data b) (_limit b) p x q -> exists n ls r,
  pkt_name true (_data b) (_limit b) n p ls r /\ name_ok ls /\ p < r /\ r + 10 <= q /\ q - (r + 10) = read_uint16 (_data b) (r + 8) /\
  rec_owner x = normalize ls /\ rec_type x = read_uint16 (_data b) r /\ rec_class x = read_uint16 (_data b) (r + 2) /\
  rec_ttl x = read_uint32 (_data b) (r + 4) /\ held_at x (r + 10) q.
Proof using Hb.
  intros Hp (n & ls & r & Hn & Hok & Hr & -> & Hq & Ho & Ht & Hc & Hl & Hd). exists n, ls, r.
  pose proof (pkt_name_after _ _ _ _ _ _ Hn (ok_bytes b Hb) Hp). pose proof (read_uint16_range (_data b) (r + 8) (ok_bytes b Hb)).
  split_and!; try done; [lia|lia|]. split; [lia| | |done].
  - rewrite Ho. by apply name_ok_normalize.
  - rewrite Ht. apply read_uint16_range, Hb.
Qed.

(** * One record *)
Lemma wp_apply_rr n s x p q f last (Q : applied -> updater -> Prop) : ready n (up_db s) -> 0 < n <= 2 ^ 63 ->
  (xfr_count f = 1 -> closed_zone (up_db s)) -> up_packet s = set_pos p b -> 0 <= p <= _limit b ->
  record_at (_data b) (_limit b) p x q -> plain_record x -> (forall y, zone_has (up_db s) z y -> no_longer x y) ->
  (forall b', xfr_skips top serialno x (view_of s f) -> Q (Stop 2 f) (mkupdater b' (up_db s) (up_softfail s))) ->
  (forall s' f', ~ xfr_skips top serialno x (view_of s f) -> xfr_refuses x (begun serialno x (view_of s f)) -> Q (Stop 0 f') s') ->
  (forall s' f', ~ xfr_skips top serialno x (view_of s f) -> ready (n + 64) (up_db s') -> others_kept (up_db s) (up_db s') ->
     (last = false -> up_packet s' = set_pos q b) -> xfr_count f' = xfr_count f + 1 ->
     xfr_step top serialno last x (view_of s f) (view_of s' f') -> Q (Next f') s') ->
  wp (apply_rr z serialno last f) Q s.
Proof using L Hstale Htop Hb Hmax.
  intros Hr Hn Hc Hpk Hp Hx Hplain Hlen Hskip Hfull HQ.
  destruct (record_held p x q ltac:(lia) Hx) as (m & ls & r & Hname & Hls & Hpr & Hrq & Hlen16 & Ho & Ht & Hcl & Httl & Hheld).
  pose proof (at_range _ _ _ Hheld) as Hrg. destruct s as [pk db soft]. cbn [up_packet up_db up_softfail] in *. subst pk.
  unfold apply_rr. wp_packet.
  apply (wp_name_at b p m ls r); try done. rewrite <-Ho.
  wp_packet. apply wp_available_from; [done|lia|]. wp_step; bool_simpl; [lia|].
  wp_packet. apply wp_read_u16_from; [done|lia|lia|]. intros _.
  wp_packet. apply wp_read_u16_from; [done|lia|lia|]. intros _.
  wp_packet. apply wp_read_u32_from; [done|lia|lia|].
  wp_packet. apply wp_read_u16_from; [done|lia|lia|]. intros _.
  replace (r + 2 + 2) with (r + 4) by lia. replace (r + 4 + 4) with (r + 8) by lia. replace (r + 8 + 2) with (r + 10) by lia.
  rewrite <-Ht, <-Hcl, <-Httl, <-Hlen16.
  wp_packet. apply wp_available_from; [done|lia|]. wp_step; bool_simpl; [lia|].
  set (s1 := mkupdater (set_pos (r + 10) b) db soft). set (s0 := mkupdater (set_pos p b) db soft) in *.
  assert (Hgo : forall db' f', let s' := mkupdater (set_pos (r + 10) b) db' soft in ~ xfr_skips top serialno x (view_of s0 f) ->
    ready n db' -> others_kept db db' -> xfr_count f' = xfr_count f -> view_of s' f' ≡ begun serialno x (view_of s0 f) ->
    wp (apply_data z (of_labels (rec_owner x)) (rec_type x) (rec_class x) (rec_ttl x) (q - (r + 10)) last f') Q s').
  { intros db' f' s' Hno Hr' Hoth Hcount Hv. apply (wp_apply_data n s' x (r + 10) q); try done.
    - intros y Hy. apply Hlen. change (v_has (view_of s0 f) y). apply (begun_sub x). by rewrite <-Hv.
    - intros s2 f2 Hrf. apply Hfull; [done|]. by rewrite <-Hv.
    - intros s2 f2 H1 H2 H3 H4 H5. apply HQ; try done; [by transitivity db'|lia|]. unfold xfr_step. by rewrite <-Hv. }
  wp_step. wp_step; bool_simpl.
  - apply (wp_second_rr n s1 f x (r + 10) q); try done; try lia; try by apply Hc.
    intros Hsoa. pose proof (at_data _ _ _ Hheld) as Hd. by rewrite Hsoa in Hd |- *.
  - wp_step. apply Hgo; try done.
    + intros (Hn1 & _). by cbn in Hn1.
    + rewrite begun_same by auto. done.
Qed.
(** * The records of a message *)
Lemma apply_sub last x v v' y : xfr_apply top last x v v' -> v_has v' y -> v_has v y \/ y = x.
Proof using.
  unfold xfr_apply. intros [_ H] Hy. destruct (_ || _); [left; by apply H|]. destruct (delete_mode _).
  - left. destruct H as [(y' & _ & _ & Hh & _)|(_ & _ & Hh & _)]; by apply Hh in Hy as ?; naive_solver.
  - destruct H as [(_ & _ & Hh)|(_ & _ & Hh)]; apply Hh in Hy; naive_solver.
Qed.

(** No record is longer than the ones it may be compared with. *)
Definition comparable (db : namedb) (xs : list record) : Prop := forall x y,
  x ∈ xs -> zone_has db z y \/ y ∈ xs -> no_longer x y.

Definition rrs_post (last_part : bool) (xs : list record) (n : Z) (s : updater) (f : xfr_state) (r : applied) (s' : updater) : Prop :=
  match r with
  | Next f' => ready (n + 64 * zlength xs) (up_db s') /\ others_kept (up_db s) (up_db s') /\
      xfr_count f' = xfr_count f + zlength xs /\ (xs = [] -> up_db s' = up_db s) /\
      xfr_steps top serialno last_part xs (view_of s f) (view_of s' f')
  | Stop code f' => exists v', xfr_ends top serialno last_part code xs (view_of s f) v' /\
      (code = 0 \/ code = 2 /\ v' = view_of s' f' /\ ready (n + 64 * zlength xs) (up_db s') /\ others_kept (up_db s) (up_db s'))
  end.

Lemma ready_mono n m db : n <= m -> ready n db -> ready m db.
Proof using. intros Hle [R1 R2 R3 R4]. split; try done. by apply (usages_mono n). Qed.

Lemma wp_apply_rrs last_part xs : forall n s f p r, records_at (_data b) (_limit b) p xs r -> ready n (up_db s) ->
  0 < n -> n + 64 * zlength xs <= 2 ^ 63 -> 1 <= xfr_count f -> (xfr_count f = 1 -> closed_zone (up_db s)) ->
  (xs <> [] -> up_packet s = set_pos p b) -> 0 <= p <= _limit b -> Forall plain_record xs -> comparable (up_db s) xs ->
  wp (apply_rrs z serialno last_part (length xs) f) (rrs_post last_part xs n s f) s.
Proof using L Hstale Htop Hb Hmax.
  induction xs as [|x xs IH]; intros n s f p r Hat Hr Hn Hbound Hcount Hc Hpk Hp Hplain Hcmp.
  { cbn [length apply_rrs]. wp_step. unfold rrs_post. change (zlength (@nil record)) with 0. split_and!; [by apply (ready_mono n); [lia|]|done|lia|done|constructor]. }
  inversion Hat as [|? ? q ? ? Hx Hxs]; subst. apply Forall_cons in Hplain as [Hpx Hplain]. specialize (Hpk ltac:(done)).
  rewrite zlength_cons in Hbound. pose proof (zlength_nonneg xs) as Hlen.
  destruct (record_held p x q ltac:(lia) Hx) as (_ & _ & r0 & _ & _ & Hpr & Hrq & _ & _ & _ & _ & _ & [Hrg _ _ _]).
  cbn [length apply_rrs]. wp_step. replace (bool_decide (length xs = 0%nat)) with (bool_decide (xs = [])).
  2:{ apply bool_decide_ext. destruct xs; by split. }
  apply (wp_apply_rr n s x p q); try done; [lia| | | |].
  - intros y Hy. apply Hcmp; [by left|by left].
  - intros b' Hsk. wp_step. eexists. split; [by apply ends_passed|right]. split_and!; try done. apply (ready_mono n); [rewrite zlength_cons; lia|done].
  - intros s' f' Hno Hrf. wp_step. exists (view_of s' f'). split; [by apply ends_full|by left].
  - intros s1 f1 Hno Hr1 Ho1 Hpk1 Hc1 Hst. eapply wp_mono.
    + apply (IH (n + 64) s1 f1 q r); try done; try lia.
      * intros Hne. apply Hpk1. by rewrite bool_decide_false by done.
      * intros x' y Hx' Hy. apply Hcmp; [by right|]. destruct Hy as [Hy|Hy]; [|right; by right].
        destruct (apply_sub _ _ _ (view_of s1 f1) y Hst Hy) as [H|H]; [left; by apply (begun_sub x (view_of s f))|right; subst; by left].
    + intros [code f2|f2] s2; unfold rrs_post; rewrite !zlength_cons; replace (n + 64 * (zlength xs + 1)) with (n + 64 + 64 * zlength xs) by lia.
      * intros (v' & Hends & Hcase). exists v'. split; [by eapply ends_later|]. destruct Hcase as [|(H1 & H2 & H3 & H4)]; [by left|right].
        split_and!; try done. by transitivity (up_db s1).
      * intros (H1 & H2 & H3 & _ & H4). split_and!; [done|by transitivity (up_db s1)|lia|done|by eapply steps_cons].
Qed.
End apply.
