(* ===== verification/TransferMessage.v ===== *)
(** The messages of a transfer and the file they are in ([apply_message],
    [apply_ixfr] and [apply_ixfr_for_zone] of Transfer.v): the file is read
    back as it was written, and the records of its messages are applied one
    after the other. *)

From S2P Require Import Prelude Buffer Dname DnameProofs DnamePacket Dns Packet PacketProofs Contents Namedb NamedbProofs NamedbTable Rdata RdataProofs NamedbDelete Respond Diff Transfer DiffExisting DiffFind DiffStore TransferSpec DiffSets DiffProofs DiffDelete TransferProofs TransferDelete TransferApply.

(** * The tree of zones stays

    Whatever is done to records and domains. *)
Section keeps.
Context {S X : Type} (part : S -> X).

Definition keeps {A} (m : ST S A) : Prop := forall s a s', m s = Ok (a, s') -> part s' = part s.

Lemma keeps_ret {A} (a : A) : keeps (mret a).
Proof using. by intros s ? ? [= <- <-]. Qed.
Lemma keeps_bind {A B} (m : ST S A) (f : A -> ST S B) : keeps m -> (forall a, keeps (f a)) -> keeps (m ≫= f).
Proof using.
  intros Hm Hf s b s' H. unfold mbind, ST_bind in H. destruct (m s) as [[a s1]| |] eqn:E; [|done..].
  rewrite (Hf a s1 b s' H). by apply (Hm s a).
Qed.
Lemma keeps_get : keeps st_get.
Proof using. by intros s ? ? [= <- <-]. Qed.
Lemma keeps_put s0 : (forall s, part s0 = part s) -> keeps (st_put s0).
Proof using. intros H s ? ? [= <- <-]. apply H. Qed.
Lemma keeps_modify f : (forall s, part (f s) = part s) -> keeps (st_modify f).
Proof using. intros H s ? ? [= <- <-]. apply H. Qed.
Lemma keeps_assert c : keeps (st_assert c).
Proof using. intros s a s' H. unfold st_assert in H. destruct c; [by injection H as <- <-|done]. Qed.
Lemma keeps_lift {A} (r : res A) : keeps (lift r).
Proof using. intros s a s' H. unfold lift in H. destruct r; by simplify_eq. Qed.
Lemma keeps_iter {A B} fuel (body : A -> ST S (A + B)) a : (forall a, keeps (body a)) -> keeps (st_iter fuel body a).
Proof using.
  intros Hb. revert a. induction fuel as [|fuel IH]; intros a; cbn [st_iter]; [by intros s ? ? [=]|].
  apply keeps_bind; [apply Hb|]. intros [a'|b]; [apply IH|apply keeps_ret].
Qed.
End keeps.

Create HintDb keeps discriminated.
Ltac keeps_step :=
  lazymatch goal with
  | |- keeps _ (mbind _ _) => apply keeps_bind; [|intros ?]
  | |- keeps _ (mret _) => apply keeps_ret
  | |- keeps _ st_get => apply keeps_get
  | |- keeps _ (st_modify _) => apply keeps_modify; done
  | |- keeps _ (st_assert _) => apply keeps_assert
  | |- keeps _ (lift _) => apply keeps_lift
  | |- keeps _ (st_iter _ _ _) => apply keeps_iter; intros ?
  | |- keeps _ (match ?x with _ => _ end) => destruct x
  | |- keeps _ (let _ := _ in _) => cbv zeta
  | |- keeps _ _ => solve [eauto with keeps nocore]
  end; cbn beta iota.
Ltac keeps := repeat keeps_step.

Section zonetree.
Context `{T : NameTree}.

Lemma keeps_get_domain p : keeps zonetree (get_domain p).
Proof using. unfold get_domain. keeps. Qed.
#[local] Hint Resolve keeps_get_domain : keeps.
Lemma keeps_update_wildcard p d : keeps zonetree (update_wildcard p d).
Proof using. unfold update_wildcard. keeps. Qed.
Lemma keeps_allocate dname p : keeps zonetree (allocate_domain_info dname p).
Proof using.
  intros db a db' H. unfold allocate_domain_info, lift, st_get, st_put, mbind, ST_bind, mret, ST_ret in H.
  repeat case_match; by simplify_eq.
Qed.
#[local] Hint Resolve keeps_update_wildcard keeps_allocate : keeps.
Lemma keeps_domain_table_insert dname : keeps zonetree (domain_table_insert dname).
Proof using. unfold domain_table_insert. keeps. Qed.
Lemma keeps_do_deldomain p : keeps zonetree (do_deldomain p).
Proof using. unfold do_deldomain, numlist_make_last, numlist_pop_last. keeps. Qed.
#[local] Hint Resolve keeps_domain_table_insert keeps_do_deldomain : keeps.
Lemma keeps_deldomain p : keeps zonetree (domain_table_deldomain p).
Proof using. unfold domain_table_deldomain. keeps. Qed.
#[local] Hint Resolve keeps_deldomain : keeps.
Lemma keeps_domain_add_rrset p r : keeps zonetree (domain_add_rrset p r).
Proof using. unfold domain_add_rrset. keeps. Qed.
Lemma keeps_get_rrset r : keeps zonetree (get_rrset r).
Proof using. unfold get_rrset. keeps. Qed.
Lemma keeps_get_zone r : keeps zonetree (get_zone r).
Proof using. unfold get_zone. keeps. Qed.
#[local] Hint Resolve keeps_get_zone keeps_get_rrset keeps_domain_add_rrset : keeps.
Lemma keeps_rrset_delete p r : keeps zonetree (rrset_delete p r).
Proof using. unfold rrset_delete. keeps. Qed.
Lemma keeps_nonexist p ce : keeps zonetree (rrset_zero_nonexist_check p ce).
Proof using. unfold rrset_zero_nonexist_check, nonexist_step. keeps. Qed.
#[local] Hint Resolve keeps_rrset_delete keeps_nonexist : keeps.
Lemma keeps_lower_usage type l : forall i, keeps zonetree (lower_usage_from type i l).
Proof using. induction l as [|a l IH]; intros i; cbn [lower_usage_from]; keeps. Qed.
#[local] Hint Resolve keeps_lower_usage : keeps.
Lemma keeps_rrs_lower_usage l : keeps zonetree (rrs_lower_usage l).
Proof using. induction l as [|r l IH]; cbn [rrs_lower_usage]; unfold rr_lower_usage; keeps. Qed.
#[local] Hint Resolve keeps_rrs_lower_usage : keeps.
Lemma keeps_delete_found p r k : keeps zonetree (delete_found p r k).
Proof using. unfold delete_found, rr_lower_usage. keeps. Qed.
Lemma keeps_apex_checks r p : keeps zonetree (apex_rrset_checks r p).
Proof using. unfold apex_rrset_checks. keeps. Qed.
Lemma keeps_rrset_for p z type : keeps zonetree (rrset_for p z type).
Proof using. unfold rrset_for. keeps. Qed.
Lemma keeps_delete_zone_rrs z : keeps zonetree (delete_zone_rrs z).
Proof using. unfold delete_zone_rrs, delete_visit, nonexist_visit, in_zone_tree, delete_rrsets, rrset_lower_usage. keeps. Qed.

(** The parser of record data, and the message beside the database. *)
Lemma keeps_of_packet {A} (m : Buf A) : keeps (fun s => zonetree (rd_owners s)) (of_packet m).
Proof using. intros s a s' H. unfold of_packet in H. by repeat case_match; simplify_eq. Qed.
Lemma keeps_of_owners {A} (m : Db A) : keeps zonetree m -> keeps (fun s => zonetree (rd_owners s)) (of_owners m).
Proof using. intros Hm s a s' H. unfold of_owners in H. repeat case_match; simplify_eq. by eapply Hm. Qed.
Lemma keeps_on_packet {A} (m : Buf A) : keeps (fun s => zonetree (up_db s)) (on_packet m).
Proof using. intros s a s' H. unfold on_packet in H. by repeat case_match; simplify_eq. Qed.
Lemma keeps_on_database {A} (m : Db A) : keeps zonetree m -> keeps (fun s => zonetree (up_db s)) (on_database m).
Proof using. intros Hm s a s' H. unfold on_database in H. repeat case_match; simplify_eq. by eapply Hm. Qed.
#[local] Hint Resolve keeps_of_packet keeps_of_owners keeps_on_packet keeps_on_database keeps_delete_found keeps_apex_checks
  keeps_rrset_for keeps_delete_zone_rrs : keeps.

#[local] Hint Extern 2 (keeps zonetree _) => progress keeps : keeps.

Lemma keeps_rdata_loop type end_ n : forall l, keeps (fun s => zonetree (rd_owners s)) (rdata_loop type end_ n l).
Proof using. induction n as [|n IH]; intros l; cbn [rdata_loop]; unfold rdata_step; keeps. Qed.
#[local] Hint Resolve keeps_rdata_loop : keeps.
Lemma keeps_rdata type size : keeps (fun s => zonetree (rd_owners s)) (rdata_wireformat_to_rdata_atoms type size).
Proof using. unfold rdata_wireformat_to_rdata_atoms. keeps. Qed.
Lemma keeps_parse_aside t type size : keeps (fun s => zonetree (up_db s)) (parse_aside t type size).
Proof using. intros s a s' H. unfold parse_aside in H. by repeat case_match; simplify_eq. Qed.
Lemma keeps_parse_into type size : keeps (fun s => zonetree (up_db s)) (parse_into type size).
Proof using.
  intros s a s' H. unfold parse_into in H. repeat case_match; simplify_eq.
  match goal with E : rdata_wireformat_to_rdata_atoms _ _ _ = _ |- _ => apply (keeps_rdata _ _ _ _ _ E) end.
Qed.
#[local] Hint Resolve keeps_parse_aside keeps_parse_into : keeps.

Lemma keeps_apply_rr z serialno last f : keeps (fun s => zonetree (up_db s)) (apply_rr z serialno last f).
Proof using. unfold apply_rr, second_rr, apply_data, add_RR, delete_RR, softfail. keeps. Qed.
#[local] Hint Resolve keeps_apply_rr : keeps.
Lemma keeps_apply_rrs z serialno last_part n : forall f, keeps (fun s => zonetree (up_db s)) (apply_rrs z serialno last_part n f).
Proof using. induction n as [|n IH]; intros f; cbn [apply_rrs]; keeps. Qed.
#[local] Hint Resolve keeps_apply_rrs : keeps.
Lemma keeps_apply_message dname z serialno last_part f : keeps (fun s => zonetree (up_db s)) (apply_message dname z serialno last_part f).
Proof using. unfold apply_message. keeps. Qed.
End zonetree.

(** * One message *)
Definition opening (top : name) (serialno : Z) (x : record) : Prop :=
  rec_owner x = top /\ rec_type x = TYPE_SOA /\ rec_class x = CLASS_IN /\ serial_of x = serialno.

(** The message holds [xs], the first one of a transfer after its SOA record. *)
Definition message_at (first : bool) (top : name) (serialno : Z) (b : buffer) (xs : list record) : Prop :=
  let D := _data b in
  let limit := _limit b in
  exists p r, questions D limit (Z.to_nat (read_uint16 D 4)) QHEADERSZ p /\
    if first then
      exists x q, record_at D limit p x q /\ opening top serialno x /\ records_at D limit q xs r /\
        read_uint16 D 6 = 1 + zlength xs
    else records_at D limit p xs r /\ read_uint16 D 6 = zlength xs.

Lemma records_range data limit p xs r : records_at data limit p xs r -> Forall byte data -> 0 <= p <= limit -> p <= r <= limit.
Proof.
  intros H Hd. induction H as [p|p x q xs r Hx _ IH]; intros Hp; [lia|].
  destruct Hx as (n & ls & r0 & Hn & _ & Hr & -> & Hq & _).
  pose proof (pkt_name_after _ _ _ _ _ _ Hn Hd ltac:(lia)). pose proof (read_uint16_range data (r0 + 8) Hd). lia.
Qed.

Lemma questions_range data limit k p q : questions data limit k p q -> 0 <= p <= limit -> 0 <= q <= limit.
Proof.
  induction 1 as [p|k p q r Hs Hq _ IH]; intros Hp; [done|]. pose proof (skip_name_range _ _ _ _ Hs). apply IH. lia.
Qed.

Section message.
Context `{T : NameTree} {L : NameTreeLaws T}.
Context {stale : name -> Prop} {Hstale : Upward stale}.
Context (z : Z) (top : name) (serialno : Z).
Context (Hok : name_ok top) (Htop : forall k, around top k -> stale k).
Context (b : buffer) (Hb : buffer_ok b) (Hmax : _limit b <= MAX_PACKET_SIZE) (Hhead : QHEADERSZ <= _limit b).

Lemma wp_first_soa p x q (Q : bool -> buffer -> Prop) : 0 <= p <= _limit b -> record_at (_data b) (_limit b) p x q ->
  opening top serialno x -> Q true (set_pos q b) -> wp (first_soa (of_labels top) serialno) Q (set_pos p b).
Proof using Hok Hb Hmax.
  intros Hp Hx (Hown & Hty & Hcl & Hser) HQ.
  destruct (record_held b Hb p x q ltac:(lia) Hx) as (m & ls & r & Hname & Hls & Hpr & Hrq & Hlen16 & Ho & Ht & Hc & _ & Hheld).
  pose proof (at_range _ _ _ _ Hheld) as Hrg. pose proof (at_data _ _ _ _ Hheld) as Hd. rewrite Hty in Hd. cbn in Hd.
  apply soa_data in Hd as (q1 & q2 & H1 & H2 & Hq & Hs). pose proof (skip_name_range _ _ _ _ H1). pose proof (skip_name_range _ _ _ _ H2).
  unfold first_soa. wp_step. apply (wp_name_at b p m ls r); try done. rewrite <-Ho, Hown.
  wp_step. apply (wp_lift _ 0); [rewrite dname_compare_spec by done; by rewrite name_cmp_refl|]. cbn [negb Z.eqb].
  wp_step. apply wp_available_from; [done|lia|]. wp_step; bool_simpl; [lia|].
  wp_step. apply wp_read_u16_from; [done|lia|lia|]. intros _. rewrite <-Ht, Hty. cbn [negb Z.eqb]. wp_step.
  change (negb (TYPE_SOA =? TYPE_SOA)) with false. cbn iota.
  wp_step. apply wp_read_u16_from; [done|lia|lia|]. intros _. rewrite <-Hc, Hcl. wp_step. change (negb (CLASS_IN =? CLASS_IN)) with false. cbn iota.
  wp_step. apply wp_skip_bytes_from; [done|lia|lia|]. replace (r + 2 + 2 + 4) with (r + 8) by lia.
  wp_step. apply wp_read_u16_from; [done|lia|lia|]. intros _. rewrite <-Hlen16. replace (r + 8 + 2) with (r + 10) by lia.
  wp_step. apply wp_available_from; [done|lia|]. wp_step; bool_simpl; [lia|].
  wp_step. apply wp_skip_from; [done|lia| |]; [|intros q' _ Hno; by destruct (Hno q1)].
  intros q' Hq' _. pose proof (skip_name_det _ _ _ _ H1 _ Hq') as ->. wp_step; [done|].
  wp_step. apply wp_skip_from; [done|lia| |]; [|intros q' _ Hno; by destruct (Hno q2)].
  intros q' Hq2 _. pose proof (skip_name_det _ _ _ _ H2 _ Hq2) as ->. wp_step; [done|].
  wp_step. apply wp_read_u32_from; [done|lia|lia|].
  assert (E : serial_of x = read_uint32 (_data b) q2) by (unfold serial_of; rewrite Hs; by apply read_uint32_slice; lia).
  rewrite <-E, Hser. rewrite Z.eqb_refl. cbn [negb]. cbn iota.
  wp_step. apply wp_skip_bytes_from; [done|lia|lia|]. wp_step. by replace (q2 + 4 + 16) with q by lia.
Qed.

Lemma wp_apply_message last_part xs n s f : message_at (xfr_count f =? 0) top serialno b xs ->
  up_packet s = set_pos 0 b -> ready z top (stale:=stale) n (up_db s) -> 0 < n -> n + 64 * zlength xs <= 2 ^ 63 -> 0 <= xfr_count f ->
  (xfr_count f <= 1 -> closed_zone z top (up_db s)) -> Forall plain_record xs -> comparable z (up_db s) xs ->
  wp (apply_message (of_labels top) z serialno last_part f)
    (rrs_post z top (stale:=stale) serialno last_part xs n s (started f)) s.
Proof using L Hstale Htop Hb Hmax Hok Hhead.
  intros (p & r & Hqs & Hm) Hpk Hr Hn Hbound Hcount Hc Hplain Hcmp. unfold apply_message. change QHEADERSZ with 12 in *.
  destruct s as [pk db soft]. cbn [up_packet up_db up_softfail] in *. subst pk.
  pose proof (questions_range _ _ _ _ _ Hqs ltac:(lia)) as Hp.
  wp_packet. apply wp_buffer_read_u16_at; [bok|cbn; lia|]. intros Hqd.
  wp_packet. apply wp_buffer_read_u16_at; [bok|cbn; lia|]. intros Han. cbn [_data set_pos] in Han |- *.
  wp_packet. apply wp_skip_bytes_from; [done|lia|lia|].
  wp_packet. apply (wp_skip_questions b); [done|lia| |]; [|intros q' _ Hno; by destruct (Hno p)].
  intros p' Hp' _. pose proof (questions_det _ _ _ _ _ Hqs _ Hp') as ->. wp_step; [done|]. unfold started.
  destruct (xfr_count f =? 0) eqn:Ef.
  - destruct Hm as (x & q & Hx & Hopen & Hxs & Hlen). wp_packet. apply (wp_first_soa p x q); try done. wp_step; [done|].
    replace (Z.to_nat (read_uint16 (_data b) 6 - 1)) with (length xs) by (rewrite Hlen; unfold zlength; lia).
    assert (Hq : 0 <= q <= _limit b).
    { destruct (record_held b Hb p x q ltac:(lia) Hx) as (_ & _ & r0 & _ & _ & Hpr & Hrq & _ & _ & _ & _ & _ & [Hrg _ _ _]). lia. }
    apply (wp_apply_rrs z top serialno Htop b Hb Hmax last_part xs n (mkupdater (set_pos q b) db soft) _ q r); try done.
    intros _. apply Hc. lia.
  - destruct Hm as (Hxs & Hlen). replace (Z.to_nat (read_uint16 (_data b) 6)) with (length xs) by (rewrite Hlen; unfold zlength; lia).
    apply (wp_apply_rrs z top serialno Htop b Hb Hmax last_part xs n (mkupdater (set_pos p b) db soft) _ p r); try done; [lia|].
    intros Hf. apply Hc. lia.
Qed.
End message.

(** * The file *)
Lemma fread_app n (d file : list Z) : n = zlength d -> 0 < n -> fread n (d ++ file) = Some (d, file).
Proof.
  intros -> Hn. unfold fread. rewrite (proj2 (Z.eqb_neq _ _)) by lia. rewrite zlength_app.
  pose proof (zlength_nonneg file). rewrite (proj2 (Z.ltb_ge _ _)) by lia. cbn [orb]. unfold zlength. rewrite Nat2Z.id.
  by rewrite take_app_length, drop_app_length.
Qed.

Lemma diff_read_8_app v file : byte v -> diff_read_8 (write_8 v ++ file) = Some (v, file).
Proof.
  intros Hv. unfold diff_read_8. rewrite fread_app by done. cbn. unfold write_8, u8. cbn. rewrite Z.mod_small; [done|exact Hv].
Qed.

Lemma diff_read_32_app v file : 0 <= v < 2 ^ 32 -> diff_read_32 (write_32 v ++ file) = Some (v, file).
Proof.
  intros Hv. unfold diff_read_32, write_32. rewrite fread_app by (by rewrite ?zlength_u32). cbn [mbind option_bind].
  do 2 f_equal. apply holds_u32; [apply write_uint32_bytes|done|]. by split.
Qed.

Lemma diff_read_64_app v file : zlength v = 8 -> diff_read_64 (write_64 v ++ file) = Some (v, file).
Proof. intros Hv. by apply fread_app. Qed.

Lemma diff_read_str_app len s file : 0 < zlength s < len -> len <= 2 ^ 32 ->
  diff_read_str len (write_str s ++ file) = Some (s, file).
Proof.
  intros Hs Hlen. unfold diff_read_str, write_str. rewrite <-app_assoc. unfold u32. rewrite Z.mod_small by lia.
  rewrite diff_read_32_app by lia. cbn [mbind option_bind]. rewrite (proj2 (Z.leb_gt _ _)) by lia. apply fread_app; lia.
Qed.

(** What comes next is read as it was written. *)
Ltac read_file := repeat first
  [ rewrite diff_read_32_app by (done || lia) | rewrite diff_read_8_app by done | rewrite diff_read_64_app by done
  | rewrite diff_read_str_app by lia | progress cbn [mbind option_bind] ].

(** The message as it is in the file. *)
Definition part_bytes (msg : list Z) : list Z :=
  write_32 DIFF_PART_XXFR ++ write_32 (u32 (zlength msg)) ++ msg ++ write_32 (u32 (zlength msg)).

Lemma read_part_bytes msg rest : QHEADERSZ <= zlength msg <= QIOBUFSZ -> read_part (part_bytes msg ++ rest) = Some (msg, rest).
Proof.
  intros Hm. change QHEADERSZ with 12 in Hm. assert (Hmax : zlength msg < 2 ^ 32) by (assert (QIOBUFSZ < 2 ^ 32) by done; lia).
  unfold read_part, part_bytes. rewrite <-!app_assoc. rewrite diff_read_32_app by done. cbn [mbind option_bind].
  rewrite Z.eqb_refl. cbn [negb]. unfold u32. rewrite Z.mod_small by lia. rewrite diff_read_32_app by lia. cbn [mbind option_bind].
  change QHEADERSZ with 12. rewrite (proj2 (Z.ltb_ge _ _)) by lia. rewrite (proj2 (Z.ltb_ge _ _)) by lia. cbn [orb].
  rewrite fread_app by lia. cbn [mbind option_bind]. rewrite diff_read_32_app by lia. cbn [mbind option_bind].
  by rewrite Z.eqb_refl.
Qed.

(** What the transfer daemon writes, the parts numbered from [i]. *)
Fixpoint append_packets (zone pat : list Z) (old_serial new_serial i : Z) (l : list (list Z * timeval)) (file : list Z) : list Z :=
  match l with
  | [] => file
  | (data, tv) :: l =>
      append_packets zone pat old_serial new_serial (i + 1) l (diff_write_packet zone pat old_serial new_serial i data tv file)
  end.
Definition transfer_file (zone pat : list Z) (old_serial new_serial : Z) (l : list (list Z * timeval)) (commit : Z)
    (tv : timeval) (log_str : list Z) : list Z :=
  diff_write_commit old_serial new_serial (zlength l) commit log_str tv (append_packets zone pat old_serial new_serial 0 l []).

Record timeval_ok (tv : timeval) : Prop := { sec_ok : zlength (tv_sec tv) = 8; usec_ok : 0 <= tv_usec tv < 2 ^ 32 }.

Lemma append_packets_parts zone pat old_serial new_serial l : forall i file, 0 < i ->
  append_packets zone pat old_serial new_serial i l file = file ++ concat (part_bytes <$> l.*1).
Proof.
  induction l as [|[data tv] l IH]; intros i file Hi; cbn [append_packets]; [by rewrite app_nil_r|].
  rewrite IH by lia. unfold diff_write_packet. rewrite (proj2 (Z.eqb_neq _ _)) by lia. cbn. by rewrite <-app_assoc.
Qed.

(** C8 (roundtrip): the file of a transfer.  What the transfer daemon writes message by message and then commits, going
    back to the start of the file, is read by the server as it was meant: the header with the serials, times, number
    of parts and names of the zone and its pattern, and after it the messages one after the other, followed by the
    log. *)
Theorem transfer_file_roundtrip zone pat old_serial new_serial data tv l commit tv' log_str :
  0 < zlength zone < 3072 -> 0 < zlength pat < 2048 -> 0 <= old_serial < 2 ^ 32 -> 0 <= new_serial < 2 ^ 32 -> byte commit ->
  timeval_ok tv -> timeval_ok tv' -> zlength ((data, tv) :: l) < 2 ^ 32 ->
  read_header (transfer_file zone pat old_serial new_serial ((data, tv) :: l) commit tv' log_str) =
    Some (mkheader commit (zlength ((data, tv) :: l)) (tv_sec tv', tv_usec tv') old_serial new_serial (tv_sec tv, tv_usec tv) zone pat,
      concat (part_bytes <$> data :: l.*1) ++ write_str log_str).
Proof.
  intros Hz Hp Ho Hn Hc [Hs1 Hu1] [Hs2 Hu2] Hl. pose proof (zlength_nonneg ((data, tv) :: l)).
  unfold transfer_file. cbn [append_packets]. rewrite append_packets_parts by lia.
  unfold diff_write_packet at 1. cbn [Z.eqb]. cbv zeta. unfold diff_write_commit.
  set (first := write_32 DIFF_PART_XFRF ++ write_8 commit ++ _). set (header := write_32 DIFF_PART_XFRF ++ write_8 0 ++ _).
  set (tail := write_64 (tv_sec tv) ++ write_32 (tv_usec tv) ++ write_str zone ++ write_str pat).
  assert (E : exists start, header = start ++ tail /\ length start = length first).
  { exists (write_32 DIFF_PART_XFRF ++ write_8 0 ++ write_32 0 ++ write_64 (tv_sec tv) ++ write_32 (tv_usec tv) ++ write_32 old_serial ++
      write_32 new_serial). split; [unfold header, tail; by rewrite <-!app_assoc|]. unfold first, zlength, write_64, write_8, write_32 in *.
    rewrite !length_app. cbn. lia. }
  destruct E as (start & -> & Elen). cbn [fmap list_fmap fst concat].
  rewrite <-!app_assoc. rewrite drop_app_length' by done. unfold read_header, first, tail. rewrite <-!app_assoc.
  read_file. rewrite Z.eqb_refl. cbn [negb].
  read_file. do 2 f_equal. unfold part_bytes. by rewrite <-!app_assoc.
Qed.

(** * The messages of a file *)
Section file.
Context `{T : NameTree} {L : NameTreeLaws T}.
Context {stale : name -> Prop} {Hstale : Upward stale}.
Context (z : Z) (top : name) (serialno : Z) (junk mem zone : list Z) (zopt : option bool).
Context (Hok : name_ok top) (Htop : forall k, around top k -> stale k).
Context (Hzone : dname_parse junk zone = Ok (Some (of_labels top))).
Context (Hmem : zlength mem = QIOBUFSZ) (Hbytes : Forall byte mem).

(** A message of a size the transfer daemon receives. *)
Record message_ok (msg : list Z) : Prop := {
  msg_size : QHEADERSZ <= zlength msg <= MAX_PACKET_SIZE;
  msg_bytes : Forall byte msg;
}.

Lemma part_buffer_ok msg : message_ok msg -> buffer_ok (part_buffer mem msg).
Proof using Hmem Hbytes.
  intros [Hs Hm]. change QHEADERSZ with 12 in Hs. unfold part_buffer. assert (MAX_PACKET_SIZE <= QIOBUFSZ) by done.
  assert (QIOBUFSZ < 2 ^ 62) by done. split; cbn; [lia|lia| | |done].
  - rewrite zlength_app. unfold zlength in *. rewrite length_drop. lia.
  - apply Forall_app. split; [done|]. by apply Forall_drop.
Qed.

Definition view_at (x : xfr_applied) : view := mkview (zone_has (x_db x) z) (x_state x) (x_softfail x).

(** What holds between two messages. *)
Record between (n : Z) (x : xfr_applied) : Prop := {
  bw_ready : ready z top (stale:=stale) n (x_db x);
  bw_found : namedb_find_zone (x_db x) (of_labels top) = Some z;
  bw_count : 0 <= xfr_count (x_state x);
  bw_closed : xfr_count (x_state x) <= 1 -> closed_zone z top (x_db x);
}.

Lemma apply_ixfr_part n x msg rest xs seq_nr seq_total : between n x -> x_file x = part_bytes msg ++ rest -> message_ok msg ->
  message_at (xfr_count (x_state x) =? 0) top serialno (part_buffer mem msg) xs -> 0 < n -> n + 64 * zlength xs <= 2 ^ 63 ->
  Forall plain_record xs -> comparable z (x_db x) xs ->
  exists code x', apply_ixfr junk mem zone serialno seq_nr seq_total zopt x = Ok (code, Some z, x') /\ x_file x' = rest /\
    let last_part := seq_nr =? seq_total - 1 in
    (code = 0 /\ exists v', xfr_ends top serialno last_part 0 xs (start (view_at x)) v') \/
    (code = 1 /\ between (n + 64 * zlength xs) x' /\ others_kept z (x_db x) (x_db x') /\
       xfr_steps top serialno last_part xs (start (view_at x)) (view_at x') /\
       1 <= xfr_count (x_state x')) \/
    (code = 2 /\ ready z top (stale:=stale) (n + 64 * zlength xs) (x_db x') /\ others_kept z (x_db x) (x_db x') /\
       xfr_ends top serialno last_part 2 xs (start (view_at x)) (view_at x')).
Proof using L Hstale Hok Htop Hzone Hmem Hbytes.
  intros [Hr Hfind Hcount Hcl] Hfile Hmsg Hat Hn Hbound Hplain Hcmp. pose proof Hmsg as [Hs Hm]. change QHEADERSZ with 12 in Hs.
  assert (Hmx : MAX_PACKET_SIZE <= QIOBUFSZ) by done.
  unfold apply_ixfr. rewrite Hfile, read_part_bytes by (change QHEADERSZ with 12; lia). rewrite Hzone. cbn [mbind res_bind points_to].
  set (last_part := seq_nr =? seq_total - 1). destruct x as [file db f bytes soft]. cbn [x_file x_db x_state x_bytes x_softfail] in *.
  assert (Ez : find_or_create_zone (of_labels top) zopt db = Ok (Some z, db)).
  { unfold find_or_create_zone, mbind, ST_bind, st_get. by rewrite Hfind. }
  rewrite Ez. cbn [mbind res_bind]. set (s := mkupdater (part_buffer mem msg) db soft).
  destruct (wp_elim _ _ _ (wp_apply_message (stale:=stale) z top serialno Hok Htop (part_buffer mem msg) (part_buffer_ok msg Hmsg)
    ltac:(cbn; lia) ltac:(change QHEADERSZ with 12; cbn; lia) last_part xs n s f Hat eq_refl Hr Hn Hbound Hcount Hcl Hplain Hcmp))
    as (r & s' & E & Hpost).
  pose proof (keeps_apply_message _ _ _ _ _ _ _ _ E) as Htree. cbn in Htree.
  rewrite E. cbn [mbind res_bind]. cbv zeta. destruct r as [code f'|f'].
  - destruct Hpost as (v' & Hends & Hcase). eexists code, _. split; [reflexivity|]. split; [done|].
    destruct Hcase as [->|(-> & -> & Hr' & Hoth)]; [left; split; [done|by exists v']|right; right].
    by split_and!.
  - destruct Hpost as (Hr' & Hoth & Hcount' & Hsame & Hsteps). eexists 1, _. split; [reflexivity|]. split; [done|]. right. left.
    assert (H1 : 1 <= xfr_count (started f) /\ (xfr_count (started f) <= 1 -> xfr_count f <= 1)).
    { unfold started. destruct (Z.eqb_spec (xfr_count f) 0); cbn; lia. }
    pose proof (zlength_nonneg xs). split_and!; [done| |done|done|cbn; lia]. split; [done| |cbn; lia|].
    + cbn [x_db]. unfold namedb_find_zone in *. by rewrite Htree.
    + cbn [x_state x_db]. intros Hle. rewrite Hsame; [apply Hcl; lia|]. apply length_zero_iff_nil. unfold zlength in *. lia.
Qed.

Lemma steps_sub last_part xs v v' y : xfr_steps top serialno last_part xs v v' -> v_has v' y -> v_has v y \/ y ∈ xs.
Proof using.
  induction 1 as [v|x xs v v1 v2 _ Hstep _ IH]; intros Hy; [by left|]. destruct (IH Hy) as [H|H]; [|right; by right].
  destruct (apply_sub _ _ _ _ _ y Hstep H) as [H'| ->]; [left; by apply (begun_sub serialno x)|right; by left].
Qed.

Definition total (xss : list (list record)) : Z := zlength (concat xss).

(** Every message of the file says its records; the first may be the first of
    the transfer. *)
Inductive messages_at : bool -> list (list Z) -> list (list record) -> Prop :=
  | messages_nil first : messages_at first [] []
  | messages_cons first msg msgs xs xss : message_ok msg -> message_at first top serialno (part_buffer mem msg) xs ->
      messages_at false msgs xss -> messages_at first (msg :: msgs) (xs :: xss).

(** What comes of the parts. *)
Definition parts_post (xss : list (list record)) (n : Z) (x : xfr_applied) (r : option (option Z * xfr_applied)) : Prop :=
  match r with
  | None => xfr_run top serialno xss (view_at x) None
  | Some (z', x') => z' = Some z /\ xfr_run top serialno xss (view_at x) (Some (view_at x')) /\
      ready z top (stale:=stale) (n + 64 * total xss) (x_db x') /\ others_kept z (x_db x) (x_db x')
  end.

Lemma apply_parts_messages num_parts rest msgs : forall n x xss, between n x ->
  x_file x = concat (part_bytes <$> msgs) ++ rest -> messages_at (xfr_count (x_state x) =? 0) msgs xss ->
  0 < n -> n + 64 * total xss <= 2 ^ 63 -> Forall plain_record (concat xss) -> comparable z (x_db x) (concat xss) ->
  exists r, apply_parts junk mem zone serialno num_parts zopt (length msgs) (Some z) x = Ok r /\ parts_post xss n x r.
Proof using L Hstale Hok Htop Hzone Hmem Hbytes.
  induction msgs as [|msg msgs IH]; intros n x xss Hbw Hfile Hat Hn Hbound Hplain Hcmp; inversion Hat as [|? ? ? xs xss' Hmsg Hm Hms]; subst.
  { eexists. split; [reflexivity|]. pose proof Hbw as [Hr _ _ _]. split_and!; [done|constructor| |done].
    change (total []) with 0. by apply (ready_mono z top n); [lia|]. }
  cbn [fmap list_fmap concat] in Hfile. rewrite <-app_assoc in Hfile. cbn [concat] in Hplain, Hcmp. unfold total in Hbound. cbn [concat] in Hbound.
  rewrite zlength_app in Hbound. pose proof (zlength_nonneg xs). pose proof (zlength_nonneg (concat xss')).
  apply Forall_app in Hplain as [Hpx Hplain].
  destruct (apply_ixfr_part n x msg (concat (part_bytes <$> msgs) ++ rest) xs (num_parts - Z.of_nat (length (msg :: msgs))) num_parts Hbw Hfile Hmsg Hm Hn
    ltac:(lia) Hpx) as (code & x' & E & Hfile' & Hcase).
  { intros a y Ha Hy. apply Hcmp; [apply elem_of_app; by left|]. destruct Hy as [Hy|Hy]; [by left|right; apply elem_of_app; by left]. }
  cbn [length apply_parts]. cbn [length] in E. rewrite E. cbn [mbind res_bind].
  assert (Elast : (num_parts - Z.of_nat (S (length msgs)) =? num_parts - 1) = bool_decide (xss' = [])).
  { destruct msgs, xss'; inversion Hms; subst; cbn [length]; [by rewrite bool_decide_true, Z.eqb_refl|].
    rewrite bool_decide_false by done. apply Z.eqb_neq. lia. }
  cbn [length] in Hcase. rewrite Elast in Hcase. unfold parts_post, total. cbn [concat]. rewrite zlength_app.
  destruct Hcase as [(-> & v' & Hends)|[(-> & Hbw' & Hoth & Hsteps & Hc1)|(-> & Hr' & Hoth & Hends)]]; cbn [Z.eqb].
  - exists None. split; [done|]. by eapply run_failed.
  - destruct (IH (n + 64 * zlength xs) x' xss' Hbw' Hfile') as (r & Er & Hpost); try done; [| |unfold total; lia| |].
    + rewrite (proj2 (Z.eqb_neq _ _)) by lia. done.
    + lia.
    + intros a y Ha Hy. apply Hcmp; [apply elem_of_app; by right|]. destruct Hy as [Hy|Hy]; [|right; apply elem_of_app; by right].
      destruct (steps_sub _ _ _ _ y Hsteps Hy) as [H'|H']; [by left|right; apply elem_of_app; by left].
    + exists r. split; [done|]. destruct r as [[z' x2]|]; [|by eapply run_part].
      destruct Hpost as (Hz & Hrun & Hr2 & Hoth2). split_and!.
      * done.
      * by eapply run_part.
      * unfold total in Hr2. by replace (n + 64 * (zlength xs + zlength (concat xss'))) with (n + 64 * zlength xs + 64 * zlength (concat xss')) by lia.
      * by transitivity (x_db x').
  - eexists. split; [done|]. split_and!; [done|by eapply run_passed| |done]. apply (ready_mono z top (n + 64 * zlength xs)); [lia|done].
Qed.

(** A database and a committed file the theorems below are about. *)
Record transfer_ready (n : Z) (db : namedb) (old_serial : Z) (pat : list Z) (l : list (list Z * timeval)) (commit : Z)
    (tv : timeval) (xss : list (list record)) : Prop := {
  tr_ready : ready z top (stale:=stale) n db;
  tr_found : namedb_find_zone db (of_labels top) = Some z;
  tr_closed : closed_zone z top db;
  tr_messages : messages_at true l.*1 xss;
  tr_plain : Forall plain_record (concat xss);
  tr_comparable : comparable z db (concat xss);
  tr_bound : 0 < n /\ n + 64 * total xss <= 2 ^ 63;
  tr_zone : 0 < zlength zone < 3072;
  tr_pat : 0 < zlength pat < 2048;
  tr_old : 0 <= old_serial < 2 ^ 32;
  tr_new : 0 <= serialno < 2 ^ 32;
  tr_commit : byte commit /\ commit <> 0;
  tr_parts : l <> [] /\ zlength l < 2 ^ 32;
  tr_times : Forall timeval_ok (tv :: l.*2);
}.

(** The zone before the transfer. *)
Definition before (db : namedb) : view := mkview (zone_has db z) (mkxfr_state false false 0) false.

Definition transfer_post (n : Z) (db : namedb) (bad : bool) (xss : list (list record)) (r : for_zone) : Prop :=
  match r with
  | Refused => False
  | Skipped => bad = true
  | Exited => bad = false /\ xfr_run top serialno xss (before db) None
  | Applied z' db' whole => bad = false /\ z' = Some z /\ ready z top (stale:=stale) (n + 64 * total xss) db' /\ others_kept z db db' /\
      exists f soft, xfr_run top serialno xss (before db) (Some (mkview (zone_has db' z) f soft)) /\ whole = soft && negb (is_axfr f)
  end.

Lemma transfer_outcome n db old_serial pat l commit tv log_str xss bad :
  transfer_ready n db old_serial pat l commit tv xss -> check_for_bad_serial junk db zone old_serial = Ok bad ->
  exists r, apply_ixfr_for_zone junk mem zone zopt z (transfer_file zone pat old_serial serialno l commit tv log_str) db = Ok r /\
    transfer_post n db bad xss r.
Proof using L Hstale Hok Htop Hzone Hmem Hbytes.
  intros [Hr Hfind Hcl Hms Hpl Hcmp [Hn Hbound] Hz Hp Ho Hnew [Hc Hc0] [Hl Hlen] Hts] Hbad.
  destruct l as [|[data tv1] l]; [done|]. clear Hl. cbn [fmap list_fmap snd] in Hts. apply Forall_cons in Hts as [Ht Hts].
  apply Forall_cons in Hts as [Ht1 _]. unfold apply_ixfr_for_zone.
  rewrite transfer_file_roundtrip by done. cbn [h_zone h_committed h_num_parts h_old_serial h_new_serial].
  rewrite bool_decide_true by done. cbn [negb]. rewrite (proj2 (Z.eqb_neq commit 0)) by done.
  pose proof (zlength_nonneg l). rewrite (proj2 (Z.eqb_neq (zlength ((data, tv1) :: l)) 0)) by (rewrite zlength_cons; lia).
  rewrite Hbad. cbn [mbind res_bind]. destruct bad; [eexists; split; [reflexivity|done]|].
  set (x := mkxfr (concat (part_bytes <$> data :: l.*1) ++ write_str log_str) db (mkxfr_state false false 0) 0 false).
  destruct (apply_parts_messages (zlength ((data, tv1) :: l)) (write_str log_str) (data :: l.*1) n x xss) as (r & E & Hpost); try done.
  replace (Z.to_nat (zlength ((data, tv1) :: l))) with (length (data :: l.*1)) by (unfold zlength; cbn; rewrite length_fmap; lia).
  rewrite E. cbn [mbind res_bind]. destruct r as [[z' x']|]; [|by exists Exited].
  destruct Hpost as (-> & Hrun & Hr' & Hoth). eexists. split; [reflexivity|]. split_and!; try done. by exists (x_state x'), (x_softfail x').
Qed.
End file.

(** * A transfer of the whole zone *)

(** The first record of each key. *)
Fixpoint kept (have xs : list record) : list record :=
  match xs with
  | [] => have
  | x :: xs =>
      kept (if pseudo (rec_type x) || bool_decide (record_key x ∈ record_key <$> have) then have else have ++ [x]) xs
  end.

Section whole.
Context (top : name) (serialno : Z).

(** Only additions are left. *)
Record adding (v : view) (have : list record) : Prop := {
  ad_axfr : is_axfr (v_state v) = true;
  ad_mode : delete_mode (v_state v) = false;
  ad_count : 2 <= xfr_count (v_state v);
  ad_has y : v_has v y <-> y ∈ have;
}.

Lemma apply_adding last x v v' have : is_axfr (v_state v) = true -> delete_mode (v_state v) = false ->
  1 <= xfr_count (v_state v) -> (forall y, v_has v y <-> y ∈ have) -> xfr_apply top last x v v' -> adding v' (kept have [x]).
Proof using.
  intros Ha Hm Hc Hhas [Hst H]. assert (Hsw : switched x (v_state v) = v_state v).
  { unfold switched. rewrite Ha. by rewrite andb_false_r. }
  rewrite Hsw in Hst, H. rewrite Ha, Hm in H. cbn [negb andb] in H. rewrite orb_false_r in H. cbn [kept].
  split; [by rewrite Hst|by rewrite Hst|rewrite Hst; cbn; lia|]. intros y.
  destruct (pseudo (rec_type x)); cbn [orb]; [destruct H as [_ H]; by rewrite H|].
  destruct H as [((y0 & Hy0 & Hk) & _ & H)|(Hno & _ & H)].
  - rewrite bool_decide_true; [by rewrite H|]. rewrite <-Hk. by apply list_elem_of_fmap_2, Hhas.
  - rewrite bool_decide_false; [by rewrite H, Hhas, elem_of_app, list_elem_of_singleton|].
    intros (y0 & Hk & Hy0)%list_elem_of_fmap. by apply (Hno y0); [apply Hhas|].
Qed.

Lemma adding_begun x v have : adding v have -> begun serialno x v = v /\ ~ xfr_skips top serialno x v.
Proof using.
  intros [Ha _ Hc _]. split; [unfold begun; by rewrite (proj2 (Z.eqb_neq _ _)) by lia|]. intros (H & _). lia.
Qed.

Lemma kept_cons have x xs : kept have (x :: xs) = kept (kept have [x]) xs.
Proof using. done. Qed.
Lemma kept_app have xs ys : kept have (xs ++ ys) = kept (kept have xs) ys.
Proof using. revert have. induction xs as [|x xs IH]; intros have; [done|]. apply IH. Qed.

Lemma steps_adding last_part xs v v' : xfr_steps top serialno last_part xs v v' -> forall have, adding v have ->
  adding v' (kept have xs).
Proof using.
  induction 1 as [v|x xs v v1 v2 _ Hstep _ IH]; intros have Hv; [done|]. rewrite kept_cons. apply IH.
  unfold xfr_step in Hstep. rewrite (proj1 (adding_begun x v have Hv)) in Hstep. destruct Hv as [H1 H2 H3 H4].
  eapply apply_adding; [done|done| |done|exact Hstep]. lia.
Qed.

Lemma ends_adding last_part xs code v v' : xfr_ends top serialno last_part code xs v v' -> forall have, adding v have -> code = 0.
Proof using.
  induction 1 as [x xs v Hs|x xs v v' _ _|code x xs v v1 v2 _ Hstep _ IH]; intros have Hv; [|done|].
  - by destruct (proj2 (adding_begun x v have Hv)).
  - apply (IH (kept have [x])). unfold xfr_step in Hstep. rewrite (proj1 (adding_begun x v have Hv)) in Hstep.
    destruct Hv as [H1 H2 H3 H4]. eapply apply_adding; [done|done| |done|exact Hstep]. lia.
Qed.

Lemma start_adding v have : adding v have -> adding (start v) have.
Proof using.
  intros [H1 H2 H3 H4]. assert (E : started (v_state v) = v_state v) by (unfold started; by rewrite (proj2 (Z.eqb_neq _ _)) by lia).
  by split; cbn; rewrite ?E.
Qed.

Lemma run_adding xss v o : xfr_run top serialno xss v o -> forall have v', o = Some v' -> adding v have ->
  adding v' (kept have (concat xss)).
Proof using.
  induction 1 as [v|xs xss v v1 o Hsteps _ IH|xs xss v v1 Hends|]; intros have v' Eo Hv; simplify_eq; [done| |].
  - cbn [concat]. rewrite kept_app. apply IH; [done|]. by eapply steps_adding, start_adding.
  - by pose proof (ends_adding _ _ _ _ _ Hends have (start_adding v have Hv)).
Qed.

(** From the second record on, which shows the transfer to be a full one. *)
Lemma run_whole x xs xss v v' : xfr_count (v_state v) = 0 -> full serialno x = true ->
  xfr_run top serialno ((x :: xs) :: xss) v (Some v') -> adding v' (kept [] (concat ((x :: xs) :: xss))).
Proof using.
  intros Hc Hx Hrun.
  assert (Hstart : started (v_state v) = mkxfr_state false false 1) by (unfold started; by rewrite Hc).
  assert (Hfirst : forall last v1, xfr_step top serialno last x (start v) v1 -> adding v1 (kept [] [x])).
  { intros last v1 H. unfold xfr_step in H. eapply apply_adding; [| | | |exact H]; unfold begun; cbn [v_state start]; rewrite Hstart, Hx; cbn.
    1-3: done. intros y. split; [done|]. by intros ?%elem_of_nil. }
  inversion Hrun as [|? ? ? v1 ? Hsteps Hrest|? ? ? ? Hends|]; subst; cbn [concat app]; rewrite kept_cons.
  - inversion Hsteps as [|? ? ? v2 ? _ Hstep Hsteps']; subst. rewrite kept_app. eapply run_adding; [exact Hrest|done|].
    eapply steps_adding; [exact Hsteps'|]. by eapply Hfirst.
  - inversion Hends as [? ? ? Hsk| |? ? ? ? v2 ? _ Hstep Hends']; subst.
    + destruct Hsk as (_ & _ & Hf & _). congruence.
    + by pose proof (ends_adding _ _ _ _ _ Hends' _ (Hfirst _ _ Hstep)).
Qed.
End whole.

(** * What a file does to the database *)
Section result.
Context `{T : NameTree} {L : NameTreeLaws T}.
Context {stale : name -> Prop} {Hstale : Upward stale}.
Context (z : Z) (top : name) (serialno : Z) (junk mem zone : list Z) (zopt : option bool).

(** What is known of the zone, its name and the memory the messages are read
    to. *)
Record transfer_setting : Prop := {
  ts_name : name_ok top;
  ts_stale k : around top k -> stale k;
  ts_zone : dname_parse junk zone = Ok (Some (of_labels top));
  ts_mem : zlength mem = QIOBUFSZ /\ Forall byte mem;
}.

(** C6 (refinement): a transfer is applied as it was written.  Of the file the transfer daemon writes and commits, with
    messages that hold the records [xss], the server reads the header and the messages back.  It passes the file over
    when the serial of the zone is not the one the transfer starts from; otherwise it takes the zone from what it has
    to what TransferSpec.v says: incremental or full as the second record tells, deletions and additions between the
    SOA records in turn, the first message without its first SOA record and the last without its last, giving up only
    when a record set is full, and told to transfer the zone whole when something in an incremental transfer was not
    as expected.  The other zones keep their records and the database is in order again. *)
Theorem apply_ixfr_for_zone_correct n db old_serial pat l commit tv log_str xss bad : transfer_setting ->
  transfer_ready (stale:=stale) z top serialno mem zone n db old_serial pat l commit tv xss ->
  check_for_bad_serial junk db zone old_serial = Ok bad ->
  exists r, apply_ixfr_for_zone junk mem zone zopt z (transfer_file zone pat old_serial serialno l commit tv log_str) db = Ok r /\
    transfer_post (stale:=stale) z top serialno n db bad xss r.
Proof using L Hstale. intros [H1 H2 H3 [H4 H5]] Hr Hbad. by eapply transfer_outcome. Qed.

End result.
