(* ===== verification/TransferSamples.v ===== *)
(** Small databases for the theorems about zone transfers, built record by
    record with the operations themselves, and what the code does to some of
    them. *)

From S2P Require Import Prelude Buffer Dname DnameProofs DnamePacket Dns Packet Contents Namedb NamedbProofs NamedbTable Rdata RdataProofs NamedbDelete Respond Diff Transfer DiffExisting DiffFind DiffStore DiffSets DiffProofs DiffDelete TransferProofs TransferDelete.

(** The data of one record in a buffer. *)
Definition rdata_buffer (data : list Z) : buffer := mkbuffer 0 (zlength data) (zlength data) data true.
Definition rdata_updater (data : list Z) (db : namedb) : updater := mkupdater (rdata_buffer data) db false.

(** Owner, zone, type and data. *)
Definition sample_record : Type := name * Z * Z * list Z.

Definition sample_record_ok (x : sample_record) : bool :=
  let '(ls, z, type, data) := x in
  bool_decide (name_ok ls) && (0 <=? type) && (type <? 65536) && bool_decide (Forall byte data) && (zlength data <=? 512).

Fixpoint add_samples (xs : list sample_record) (db : namedb) : namedb :=
  match xs with
  | [] => db
  | (ls, z, type, data) :: xs =>
      add_samples xs
        match add_RR (of_labels ls) type CLASS_IN 3600 (zlength data) z (rdata_updater data db) with
        | Ok (true, s) => up_db s
        | _ => db
        end
  end.

(** Zones [0] and on. *)
Fixpoint sample_zones (ns : list name) (db : namedb) : namedb :=
  match ns with
  | [] => db
  | ls :: ns =>
      sample_zones ns
        (if bool_decide (namedb_find_zone db (of_labels ls) = None) then
           match namedb_zone_create (of_labels ls) false db with Ok (_, db) => db | _ => db end
         else db)
  end.

Definition sample_database (ns : list name) (xs : list sample_record) : namedb :=
  match domain_table_create with
  | Ok db => add_samples xs (sample_zones ns db)
  | _ => mkdb ∅ ∅ ∅ [] [] []
  end.

Definition sound_db (n : Z) (db : namedb) : Prop := database_ok none_of db /\ usages_below n db.

Lemma sample_zones_ok ns : forall n db, Forall name_ok ns -> 0 < n -> sound_db n db ->
  sound_db (n + zlength ns) (sample_zones ns db).
Proof.
  induction ns as [|ls ns IH]; intros n db Hok Hn Hs; cbn [sample_zones]; [by rewrite Z.add_0_r|].
  apply Forall_cons in Hok as [Hls Hok]. rewrite zlength_cons. replace (n + (zlength ns + 1)) with (n + 1 + zlength ns) by lia.
  apply IH; [done|lia|]. clear IH.
  assert (Hold : sound_db (n + 1) db).
  { destruct Hs as [H1 H2]. split; [done|]. by apply (usages_mono n); [lia|]. }
  case_bool_decide as Hno; [|done]. destruct Hs as [(att & pins & Hs) Hu].
  assert (Hw : wp (namedb_zone_create (of_labels ls) false) (fun _ db' => sound_db (n + 1) db') db).
  { apply (wp_namedb_zone_create none_of db att pins ls false n); [exact _|done..|].
    intros z p db' _ Hs' _ _ _ Hu' _ _. split; [by eexists _, _|done]. }
  by destruct (wp_elim _ _ _ Hw) as (z & db' & -> & H).
Qed.

Lemma rdata_buffer_ok data : Forall byte data -> zlength data <= 512 -> buffer_ok (rdata_buffer data).
Proof. intros. pose proof (zlength_nonneg data). split; cbn; [lia|lia|done|done|lia]. Qed.

Lemma add_samples_ok xs : forall n db, Forall (fun x => sample_record_ok x = true) xs ->
  Forall (fun x : sample_record => is_Some (zones db !! x.1.1.2)) xs -> 0 < n ->
  n + 64 * zlength xs <= 2 ^ 63 -> sound_db n db -> sound_db (n + 64 * zlength xs) (add_samples xs db).
Proof.
  induction xs as [|[[[ls z] type] data] xs IH]; intros n db Hok Hz Hn Hmax Hs; cbn [add_samples].
  { by rewrite Z.add_0_r. }
  apply Forall_cons in Hok as [Hx Hok]. apply Forall_cons in Hz as [Hzx Hz].
  rewrite zlength_cons in Hmax |- *. pose proof (zlength_nonneg xs).
  replace (n + 64 * (zlength xs + 1)) with (n + 64 + 64 * zlength xs) by lia.
  unfold sample_record_ok in Hx. bool_simpl. destruct Hs as [Hdb Hu].
  assert (Hold : sound_db (n + 64) db) by (split; [done|by apply (usages_mono n); [lia|]]).
  destruct (wp_elim _ _ _ (wp_add_RR (stale:=none_of) ls type CLASS_IN 3600 (zlength data) z n (rdata_updater data db) Hdb Hzx
    ltac:(done) ltac:(lia) ltac:(apply zlength_nonneg) ltac:(cbn; lia) ltac:(by apply rdata_buffer_ok)
    ltac:(unfold MAX_PACKET_SIZE; cbn; lia) ltac:(lia) Hu)) as (r & s & -> & Hpost).
  destruct r; [|apply IH; [done|done|lia|lia|done]]. destruct Hpost as (ys & _ & _ & Hdb' & Hk & Hu' & _).
  cbn in Hk, Hu'. apply IH; [done| |lia|lia|done]. eapply Forall_impl; [exact Hz|]. intros [[[k z'] t] d] [a Ha].
  cbn in Ha |- *. specialize (Hk z'). rewrite Ha in Hk. destruct (zones (up_db s) !! z'); [by eexists|done].
Qed.

Lemma sample_database_ok ns xs : Forall name_ok ns -> Forall (fun x => sample_record_ok x = true) xs ->
  Forall (fun x : sample_record => is_Some (zones (sample_database ns []) !! x.1.1.2)) xs ->
  zlength ns + zlength xs < 2 ^ 32 -> sound_db (2 + zlength ns + 64 * zlength xs) (sample_database ns xs).
Proof.
  intros Hns Hxs Hz Hlen. destruct created_ok as (t & Et & _). unfold sample_database in *. rewrite Et in *. cbn in Hz.
  pose proof (zlength_nonneg ns). pose proof (zlength_nonneg xs).
  assert (Ht : sound_db 2 t).
  { split; [eexists _, _; by apply created_sound|]. by apply created_usages. }
  apply add_samples_ok; [done|done|lia|lia|]. by apply sample_zones_ok.
Qed.

(** * Looking into a small database *)
Lemma plain_sample db : forallb (fun e : name * Z => match e.1 with
    | c :: _ => (0 <? label_cmp c [42]) || bool_decide (c = [42]) | [] => true end) (nametree db) = true -> plain_table db.
Proof.
  intros H c k p Hp Hb. rewrite forallb_forall in H. specialize (H (c :: k, p)). cbn in Hp.
  apply elem_of_list_to_map_2, list_elem_of_In in Hp. specialize (H Hp). cbn in H. unfold before_wildcard in Hb.
  apply orb_prop in H as [H|H]; [apply Z.ltb_lt in H; lia|by apply bool_decide_eq_true in H].
Qed.

Definition zone_records (db : namedb) (z : Z) : list record :=
  '(_, p) ← nametree db;
  match domains db !! p with
  | None => []
  | Some d =>
      r ← domain_rrsets d;
      match rrsets db !! r with
      | None => []
      | Some rs => if rrset_zone rs =? z then record_of db <$> rrs rs else []
      end
  end.

Lemma zone_records_all db z x : zone_has db z x -> x ∈ zone_records db z.
Proof.
  intros (ls & p & d & r & rs & y & Hp & Hd & Hr & Hrs & Hz & Hy & ->). unfold zone_records.
  apply list_elem_of_bind. exists (ls, p). split; [|by apply elem_of_list_to_map_2]. rewrite Hd.
  apply list_elem_of_bind. exists r. split; [|done]. rewrite Hrs, Hz, Z.eqb_refl. apply list_elem_of_fmap. by exists y.
Qed.

Lemma no_data_sample db k : forallb (fun e : name * Z => negb (bool_decide (k `suffix_of` e.1)) ||
    match domains db !! e.2 with Some d => bool_decide (domain_rrsets d = []) | None => true end) (nametree db) = true ->
  ~ data_below db k.
Proof.
  intros H (j & q & e & Hq & He & Hr). rewrite forallb_forall in H. specialize (H (j ++ k, q)). cbn in Hq.
  apply elem_of_list_to_map_2, list_elem_of_In in Hq. specialize (H Hq). cbn in H. rewrite He in H.
  apply orb_prop in H as [H|H]; [|by apply bool_decide_eq_true in H].
  apply negb_true_iff, bool_decide_eq_false in H. apply H. by exists j.
Qed.

(** * Samples *)
Definition zone_z : name := [[122]].
Definition zone_o : name := [[111]].
Definition below_x (c : Z) : name := [[c]; [120]; [122]].

(** The names "a.x.z" and "b.x.z" have data in the zone "z", and the zone "o"
    names them. *)
Definition shared_names : namedb := sample_database [zone_z; zone_o]
  [(below_x 97, 0, TYPE_A, [10; 0; 0; 1]); (below_x 98, 0, TYPE_A, [10; 0; 0; 2]);
   (zone_o, 1, TYPE_NS, [1; 97; 1; 120; 1; 122; 0]); (zone_o, 1, TYPE_NS, [1; 98; 1; 120; 1; 122; 0])].

Ltac by_compute := apply (bool_decide_unpack _); vm_compute; exact I.

Lemma shared_names_ok : sound_db 260 shared_names.
Proof.
  apply (sample_database_ok [zone_z; zone_o]
    [(below_x 97, 0, TYPE_A, [10; 0; 0; 1]); (below_x 98, 0, TYPE_A, [10; 0; 0; 2]);
     (zone_o, 1, TYPE_NS, [1; 97; 1; 120; 1; 122; 0]); (zone_o, 1, TYPE_NS, [1; 98; 1; 120; 1; 122; 0])]); [by_compute..|done].
Qed.

(** C26 (error): a zone emptied for a full transfer can leave an empty name that
    exists.  "x.z" has no data and two names below it, that lose theirs and
    stay because another zone names them.  The first of the two is found to
    have no data and "x.z" to have some below it still; the second is found to
    have none, and "x.z" is not looked at again, for it was found to have some
    ([ce]).  It goes on existing, with no data at or below it, and queries for
    it are answered as if there was. *)
Theorem delete_zone_rrs_stale :
  database_ok none_of shared_names /\
  match delete_zone_rrs 0 shared_names with
  | Ok (_, db) => assoc (nametree db) [[120]; [122]] = Some 3 /\ ~ data_below db [[120]; [122]] /\
      (is_existing <$> domains db !! 3) = Some true
  | _ => False
  end.
Proof.
  split; [apply shared_names_ok|].
  destruct (delete_zone_rrs 0 shared_names) as [[[] db]| |] eqn:E; [|vm_compute in E; discriminate..].
  vm_compute in E. injection E as <-. split; [reflexivity|]. split; [|reflexivity].
  apply no_data_sample. vm_compute. reflexivity.
Qed.

(** Signatures of the DNSKEY and of the SOA records of the zone "z". *)
Definition signature (covered : Z) : list Z :=
  write_uint16 covered ++ [5; 1; 0; 0; 14; 16; 0; 0; 0; 1; 0; 0; 0; 0; 0; 1; 1; 122; 0; 7; 7].
Definition signed_samples : list sample_record :=
  [(zone_z, 0, TYPE_RRSIG, signature TYPE_DNSKEY); (zone_z, 0, TYPE_RRSIG, signature TYPE_SOA)].
Definition signed_names : namedb := sample_database [zone_z] signed_samples.

Lemma signed_names_ok : sound_db 131 signed_names.
Proof. apply (sample_database_ok [zone_z] signed_samples); [by_compute..|done]. Qed.

(** The signature of the DNSKEY records of a zone goes by itself
    and the zone stays flagged as secure, for only the deletion of a whole
    record set looks at the flag.  When the zone is emptied for a full transfer
    afterwards, the assertion that the flag is not set fails and the server
    stops. *)
Theorem delete_RR_stays_secure :
  database_ok none_of signed_names /\
  match delete_RR (of_labels zone_z) TYPE_RRSIG CLASS_IN 23 0 (rdata_updater (signature TYPE_DNSKEY) signed_names) with
  | Ok (true, s) => up_softfail s = false /\ zone_is_secure (up_db s) 0 = Ok true /\ ~ signed_zone (up_db s) 0 zone_z /\
      delete_zone_rrs 0 (up_db s) = Assert_failed
  | _ => False
  end.
Proof.
  split; [apply signed_names_ok|].
  destruct (delete_RR (of_labels zone_z) TYPE_RRSIG CLASS_IN 23 0 (rdata_updater (signature TYPE_DNSKEY) signed_names))
    as [[[] s]| |] eqn:E; [|vm_compute in E; discriminate..].
  vm_compute in E. injection E as <-. split; [reflexivity|]. split; [reflexivity|]. split; [|vm_compute; reflexivity].
  intros (y & Hy%zone_records_all & _ & _ & H). vm_compute in Hy. apply list_elem_of_singleton in Hy as ->. vm_compute in H. discriminate.
Qed.

(** * The theorems on samples *)
Lemma rdata_at_length type data limit end_ prev p xs : rdata_at type data limit end_ prev p xs ->
  zlength prev + zlength xs <= Z.max (zlength prev) (d_maximum (rrtype_descriptor_by_type type)).
Proof.
  induction 1 as [prev|prev p x q xs Hmax _ _ _ IH]; [change (zlength []) with 0; lia|].
  rewrite zlength_app in IH. change (zlength [x]) with 1 in IH. rewrite zlength_cons. lia.
Qed.

Lemma add_RR_witness : exists r s',
  add_RR (of_labels [[109]; [122]]) TYPE_MX CLASS_IN 3600 7 0 (rdata_updater [0; 10; 1; 97; 1; 122; 0] shared_names) = Ok (r, s') /\
  add_post (stale:=none_of) [[109]; [122]] TYPE_MX CLASS_IN 3600 7 0 260 (rdata_updater [0; 10; 1; 97; 1; 122; 0] shared_names) r s'.
Proof.
  apply (add_RR_correct (stale:=none_of) [[109]; [122]] TYPE_MX CLASS_IN 3600 7 0 260).
  - apply shared_names_ok.
  - by_compute.
  - by_compute.
  - done.
  - done.
  - done.
  - by apply rdata_buffer_ok; [by_compute|].
  - done.
  - done.
  - apply shared_names_ok.
Defined.

Lemma delete_RR_witness : exists r s',
  delete_RR (of_labels (below_x 97)) TYPE_A CLASS_IN 4 0 (rdata_updater [10; 0; 0; 1] shared_names) = Ok (r, s') /\
  delete_post (stale:=none_of) (below_x 97) TYPE_A CLASS_IN 4 0 260 (rdata_updater [10; 0; 0; 1] shared_names) r s'.
Proof.
  apply (delete_RR_correct (stale:=none_of) (below_x 97) TYPE_A CLASS_IN 4 0 260).
  - apply shared_names_ok.
  - apply plain_sample. reflexivity.
  - by_compute.
  - by_compute.
  - done.
  - done.
  - done.
  - by apply rdata_buffer_ok; [by_compute|].
  - done.
  - apply shared_names_ok.
  - intros xs y Hxs%rdata_at_length Hy%zone_records_all _ _.
    assert (H : Forall (fun y => length (rec_data y) = 1%nat) (zone_records shared_names 0)) by by_compute.
    rewrite Forall_forall in H. rewrite (H y Hy). change (d_maximum (rrtype_descriptor_by_type TYPE_A)) with 1 in Hxs.
    change (zlength []) with 0 in Hxs. unfold zlength in Hxs. lia.
Defined.

Lemma delete_zone_rrs_witness : exists db', delete_zone_rrs 0 shared_names = Ok (tt, db') /\
  emptied_post (stale:=none_of) shared_names 0 260 zone_z db'.
Proof.
  apply (delete_zone_rrs_correct (stale:=none_of) shared_names 0 260 zone_z).
  - apply shared_names_ok.
  - apply plain_sample. reflexivity.
  - apply shared_names_ok.
  - exists (new_zone 1 false), 1. split; [vm_compute; reflexivity|]. split; [reflexivity|vm_compute; reflexivity].
  - intros x Hx%zone_records_all.
    assert (H : Forall (fun x => zone_z `suffix_of` rec_owner x) (zone_records shared_names 0)) by by_compute.
    rewrite Forall_forall in H. by apply H.
  - intros a Ha Hsa. assert (H : is_secure <$> zones shared_names !! 0 = Some false) by (vm_compute; reflexivity).
    rewrite Ha in H. cbn [fmap option_fmap option_map] in H. congruence.
Defined.
