(* ===== verification/TransferFileSamples.v ===== *)
(** A small transfer, from the bytes of its message to the records of the
    zone, for the theorems of TransferMessage.v. *)

From S2P Require Import Prelude Buffer Dname DnameProofs DnamePacket Dns Packet PacketProofs Contents Namedb NamedbProofs NamedbTable Rdata RdataProofs NamedbDelete Respond Diff Transfer DiffExisting DiffFind DiffStore TransferSpec DiffSets DiffProofs DiffDelete TransferProofs TransferDelete TransferApply TransferMessage TransferSamples.

(** * Reading bytes that are there *)
Lemma here_bytes D p bs : 0 <= p -> take (length bs) (drop (Z.to_nat p) D) = bs -> holds D p bs.
Proof.
  intros Hp H. split; [done|]. exists (drop (length bs) (drop (Z.to_nat p) D)). rewrite <-H at 1. by rewrite take_drop.
Qed.

Lemma name_here D limit p ls : name_ok ls -> 0 <= p -> take (length (wire ls)) (drop (Z.to_nat p) D) = wire ls ->
  p + zlength (wire ls) <= limit -> exists n, pkt_name true D limit n p ls (p + zlength (wire ls)).
Proof. intros Hok Hp H Hl. by apply (holds_pkt_name true D limit ls p (proj1 Hok) (here_bytes D p _ Hp H)). Qed.

Section here.
Context (D : list Z) (limit : Z).

(** The fields of the rest of the data; [xs] are names without pointers and
    bytes. *)
Fixpoint fields_here (type end_ : Z) (prev : list datum) (p : Z) (xs : list datum) : bool :=
  match xs with
  | [] => (p =? end_) && (d_minimum (rrtype_descriptor_by_type type) <=? zlength prev)
  | x :: xs =>
      (zlength prev <? d_maximum (rrtype_descriptor_by_type type)) && (zlength prev <? d_minimum (rrtype_descriptor_by_type type)) &&
      match field_of D end_ (format type (zlength prev)) prev p, x with
      | Field_domain, Name ls =>
          bool_decide (name_ok ls) && bool_decide (normalize ls = ls) && bool_decide (take (length (wire ls)) (drop (Z.to_nat p) D) = wire ls) &&
          (p + zlength (wire ls) <=? end_) && fields_here type end_ (prev ++ [x]) (p + zlength (wire ls)) xs
      | Field_bytes n, Bytes bytes =>
          (p + n <=? end_) && bool_decide (zslice D p n = bytes) && (0 <=? n) && fields_here type end_ (prev ++ [x]) (p + n) xs
      | _, _ => false
      end
  end.

Lemma fields_here_at type end_ xs : forall prev p, 0 <= p -> end_ <= limit -> fields_here type end_ prev p xs = true ->
  rdata_at type D limit end_ prev p xs.
Proof using.
  induction xs as [|x xs IH]; intros prev p Hp Hend H; cbn [fields_here] in H.
  { bool_simpl. subst. constructor. lia. }
  destruct (field_of D end_ _ prev p) as [|norm|n] eqn:Ef, x as [ls|bytes]; bool_simpl; try done.
  - pose proof (zlength_nonneg (wire ls)). destruct (name_here D limit p ls) as [n Hn]; [done|done|done|lia|].
    apply rdata_more with (p + zlength (wire ls)); [lia|left; lia| |apply IH; [lia|done|done]].
    rewrite Ef. match goal with E : normalize ls = ls |- _ => rewrite <-E at 1 end. by apply at_domain with n.
  - subst. apply rdata_more with (p + n); [lia|left; lia| |apply IH; [lia|done|done]]. rewrite Ef. by apply at_bytes.
Qed.

Definition after_record (p : Z) (x : record) : Z :=
  let r := p + zlength (wire (rec_owner x)) in r + 10 + read_uint16 D (r + 8).

Definition record_here (p : Z) (x : record) : bool :=
  let r := p + zlength (wire (rec_owner x)) in
  let q := after_record p x in
  bool_decide (name_ok (rec_owner x)) && bool_decide (normalize (rec_owner x) = rec_owner x) &&
  bool_decide (take (length (wire (rec_owner x))) (drop (Z.to_nat p) D) = wire (rec_owner x)) &&
  (0 <=? p) && (r + 10 <=? q) && (q <=? limit) && (read_uint16 D r =? rec_type x) && (read_uint16 D (r + 2) =? rec_class x) &&
  (read_uint32 D (r + 4) =? rec_ttl x) && negb (pseudo (rec_type x)) && fields_here (rec_type x) q [] (r + 10) (rec_data x).

Lemma record_here_at p x : record_here p x = true -> record_at D limit p x (after_record p x).
Proof using.
  unfold record_here. cbv zeta. intros H. bool_simpl. pose proof (zlength_nonneg (wire (rec_owner x))).
  destruct (name_here D limit p (rec_owner x)) as [n Hn]; [done|done|done|unfold after_record in *; lia|].
  exists n, (rec_owner x), (p + zlength (wire (rec_owner x))). split_and!; try done; [lia|].
  match goal with E : negb (pseudo _) = true |- _ => apply negb_true_iff in E; rewrite E | E : pseudo _ = false |- _ => rewrite E end.
  apply fields_here_at; [lia|done|done].
Qed.

Fixpoint records_here (p : Z) (xs : list record) : bool :=
  match xs with [] => true | x :: xs => record_here p x && records_here (after_record p x) xs end.

Lemma records_here_at xs : forall p, records_here p xs = true -> exists r, records_at D limit p xs r.
Proof using.
  induction xs as [|x xs IH]; intros p H; cbn [records_here] in H; [exists p; constructor|]. bool_simpl.
  destruct (IH (after_record p x)) as [r Hr]; [done|]. exists r. apply records_cons with (after_record p x); [by apply record_here_at|done].
Qed.
End here.

(** * The transfer of the zone "z"

    Its SOA record, the address of "a.z" and the SOA record again. *)
Definition sample_soa : record := mkrecord zone_z TYPE_SOA CLASS_IN 3600
  [Name zone_z; Name zone_z; Bytes [0; 0; 0; 5]; Bytes [0; 0; 0; 1]; Bytes [0; 0; 0; 2]; Bytes [0; 0; 0; 3]; Bytes [0; 0; 0; 4]].
Definition sample_address : record := mkrecord [[97]; [122]] TYPE_A CLASS_IN 3600 [Bytes [10; 0; 0; 9]].

Definition soa_bytes : list Z :=
  [1; 122; 0; 0; 6; 0; 1; 0; 0; 14; 16; 0; 26; 1; 122; 0; 1; 122; 0; 0; 0; 0; 5; 0; 0; 0; 1; 0; 0; 0; 2; 0; 0; 0; 3; 0; 0; 0; 4].
Definition address_bytes : list Z := [1; 97; 1; 122; 0; 0; 1; 0; 1; 0; 0; 14; 16; 0; 4; 10; 0; 0; 9].
Definition sample_message : list Z := [0; 0; 128; 0; 0; 0; 0; 3; 0; 0; 0; 0] ++ soa_bytes ++ address_bytes ++ soa_bytes.

Definition sample_memory : list Z := replicate (Z.to_nat QIOBUFSZ) 0.
Definition sample_time : timeval := mktimeval [1; 2; 3; 4; 5; 6; 7; 8] 9.
Definition sample_zone_text : list Z := [122].
Definition sample_junk : list Z := replicate 256 0.

Lemma sample_message_at : message_at true zone_z 5 (part_buffer sample_memory sample_message) [sample_address; sample_soa].
Proof.
  unfold part_buffer, message_at. cbn [_data _limit]. generalize (drop (length sample_message) sample_memory). intros k.
  exists 12. destruct (records_here_at (sample_message ++ k) (zlength sample_message) [sample_address; sample_soa] 51) as [r Hr];
    [vm_compute; reflexivity|].
  exists r. split; [constructor|]. exists sample_soa, 51. split_and!; [|by split_and!|done|by vm_compute].
  apply (record_here_at (sample_message ++ k) (zlength sample_message) 12 sample_soa). vm_compute. reflexivity.
Qed.

Lemma transfer_sample_setting : transfer_setting (stale:=around zone_z) zone_z sample_junk sample_memory sample_zone_text.
Proof.
  split; [by_compute|done|vm_compute; reflexivity|]. unfold sample_memory, zlength. rewrite length_replicate.
  split; [by rewrite Z2Nat.id|]. by apply Forall_replicate.
Qed.

(** No record of [xs] is longer than a record with its owner and type. *)
Definition no_longer_than (x y : record) : bool :=
  negb (bool_decide (rec_owner y = rec_owner x) && (rec_type y =? rec_type x)) || (length (rec_data x) <=? length (rec_data y))%nat.
Lemma no_longer_here x ys : forallb (no_longer_than x) ys = true -> forall y, y ∈ ys -> no_longer x y.
Proof.
  intros H y Hy%list_elem_of_In. rewrite forallb_forall in H. specialize (H y Hy). unfold no_longer_than in H. intros Ho Ht.
  rewrite bool_decide_true, (proj2 (Z.eqb_eq _ _)) in H by done. cbn in H. by apply Nat.leb_le in H.
Qed.

Lemma transfer_sample_ready : transfer_ready (stale:=around zone_z) 0 zone_z 5 sample_memory sample_zone_text 260 shared_names 0 [112]
  [(sample_message, sample_time)] 1 sample_time [[sample_address; sample_soa]].
Proof.
  destruct shared_names_ok as [(att & pins & Hs) Hu]. split.
  - split; [|by apply plain_sample; vm_compute|done|].
    + exists att, pins. by apply (sound_weaken none_of).
    + exists (new_zone 1 false), 1. split; [vm_compute; reflexivity|]. split; [reflexivity|vm_compute; reflexivity].
  - vm_compute. reflexivity.
  - split.
    + intros x Hx%zone_records_all.
      assert (H : Forall (fun x => zone_z `suffix_of` rec_owner x) (zone_records shared_names 0)) by by_compute.
      rewrite Forall_forall in H. by apply H.
    + intros a Ha Hsa. assert (H : is_secure <$> zones shared_names !! 0 = Some false) by (vm_compute; reflexivity).
      rewrite Ha in H. cbn [fmap option_fmap option_map] in H. congruence.
  - constructor; [|apply sample_message_at|constructor]. split; [by vm_compute|by_compute].
  - assert (Hz : plain_name zone_z) by (repeat constructor; intros Hb; by vm_compute in Hb).
    repeat constructor; try (intros Hb; by vm_compute in Hb).
    + cbn. intros j Hj. apply elem_of_cons in Hj as [[=]|Hj]. by apply elem_of_nil in Hj.
    + cbn. intros j Hj. repeat (apply elem_of_cons in Hj as [[=]|Hj]; [by subst|]).
      repeat (apply elem_of_cons in Hj as [[=]|Hj]). by apply elem_of_nil in Hj.
  - intros x y Hx Hy. assert (Hall : forallb (fun x => forallb (no_longer_than x) (zone_records shared_names 0 ++ [sample_address; sample_soa]))
      [sample_address; sample_soa] = true) by (vm_compute; reflexivity).
    rewrite forallb_forall in Hall. apply (no_longer_here x (zone_records shared_names 0 ++ [sample_address; sample_soa])).
    + apply Hall. by apply list_elem_of_In.
    + apply elem_of_app. destruct Hy as [Hy|Hy]; [left; by apply zone_records_all|by right].
  - by vm_compute.
  - done.
  - done.
  - done.
  - done.
  - done.
  - done.
  - repeat constructor; done.
Qed.

Lemma sample_serial : check_for_bad_serial sample_junk shared_names sample_zone_text 0 = Ok false.
Proof. vm_compute. reflexivity. Qed.

Lemma apply_ixfr_for_zone_witness : exists r,
  apply_ixfr_for_zone sample_junk sample_memory sample_zone_text None 0
    (transfer_file sample_zone_text [112] 0 5 [(sample_message, sample_time)] 1 sample_time [108]) shared_names = Ok r /\
  transfer_post (stale:=around zone_z) 0 zone_z 5 260 shared_names false [[sample_address; sample_soa]] r.
Proof.
  apply (apply_ixfr_for_zone_correct (stale:=around zone_z)) with (old_serial := 0); [apply transfer_sample_setting|apply transfer_sample_ready|apply sample_serial].
Defined.


Lemma transfer_file_witness :
  read_header (transfer_file sample_zone_text [112] 4 5 [(sample_message, sample_time)] 1 sample_time [108]) =
    Some (mkheader 1 1 (tv_sec sample_time, 9) 4 5 (tv_sec sample_time, 9) sample_zone_text [112],
      concat (part_bytes <$> [sample_message]) ++ write_str [108]).
Proof. by apply (transfer_file_roundtrip sample_zone_text [112] 4 5 sample_message sample_time [] 1 sample_time [108]). Defined.
